(* ===== verification/_CoqProject ===== *)
-Q . S2P
Prelude.v
Errors.v
Cli.v
Command.v
Cache.v
Json.v
Datetime.v
Text.v
JsonParse.v
Signing.v
Schemas.v
Llm.v
Prompts.v
Budget.v
Policy.v
ToolBase.v
Tools.v
Recorder.v
Database.v
Migration.v
History.v
Triage.v
TriageFacts.v
TriageFrame.v
TriageRaises.v
Job.v
Stream.v
Reads.v
Api.v
Scripts.v
Lifecycle.v
Progress.v
Tail.v
Assemble.v
Delivery.v
Shipper.v
Service.v
Floats.v
Golden.v
Seed.v
Judge.v
Scoring.v
Publish.v
Gate.v
Candidates.v
Sample.v
Recording.v
LabelTool.v
Boot.v
SessionReport.v
EvalRun.v
TriageOne.v
AiLabel.v
EvalMain.v
Commands.v
EvalFacts.v
