(* ===== verification/Prelude.v ===== *)
(** * SentinelBrief: root of the verification library

    SentinelBrief triages honeypot sessions with a language model.  A shipper on the
    honeypot follows Cowrie's log, assembles sessions and posts them, signed, to an API; the
    API deduplicates them into a database and queues one job per alert; a worker summarises
    the session, asks a cheap model and perhaps a strong one, with tools, for a verdict,
    stores it and publishes an event; a dashboard reads the API.  Beside it stand the
    evaluation package (golden set, labelling, scoring, regression gate) and a few scripts.
    This library models the Python of the repository and proves what makes it correct.

    ** Conventions of the models

    A [str] is the list of its code points ([pystr]), [bytes] a list of integers in
    [0..255], an [int] a [Z], a [dict] an insertion-ordered association list with distinct
    keys ([dget], [dset], [ddel]), a [float] an integer count of [2^-1074] ([fone], [flt]):
    every finite binary64 value is one, comparison is exact, and where the program computes
    with floats ([evals/]) [Floats] rounds to nearest, ties to even.  A USD amount
    is an integer number of micro-dollars, a uuid an integer.  Fallible code returns an
    [outcome] ([Ret] or [Raise]); stateful code is in the monad [M] of this file, a state
    passing function to an outcome and a state, so that what a raising call did before it
    raised is kept.  Exceptions are the one type [Errors.exn].  Code that is not in the
    repository (the OpenAI SDK, Redis, Postgres, httpx, pydantic's coercions and
    serializers, HMAC and SHA-256, [ipaddress], tarfile, argparse, the file system, clocks
    and random generators) is a class or a [Variable] whose fields are its documented
    behaviour; each theorem that relies on one has a witness that instantiates it.
    CPython's [json] encoder and decoder, UTF-8, ISO dates, [round], float division and sorting
    are written out ([Json], [JsonParse], [Text], [Datetime], [Llm], [Floats], this file).

    ** The files, in order, and the code each models

    Shared ground.
    - this file: strings, floats, [outcome] and [M], dicts, stable sorting.
    - [Errors]: [core/errors.py], [api/errors.py] with [core/schemas/errors.py].
    - [Cli], [Command]: [core/cli.py]; how the commands of the repository end.
    - [Cache]: [core/cache.py], both caches behind the interface [TTLCache].
    - [Json], [Datetime], [Text], [JsonParse]: the standard library the program calls.
    - [Signing]: [core/signing.py].
    - [Schemas]: [core/schemas/alert.py], [core/schemas/verdict.py], [worker/summarize.py].

    The worker.
    - [Llm]: [core/llm.py], [worker/llm_client.py]; [Prompts]: [worker/prompts/__init__.py].
    - [Budget]: [core/budget.py], [worker/budget.py]; [Policy]: [worker/routing.py],
      [worker/retry.py], [worker/outcome.py].
    - [ToolBase], [Tools], [Recorder]: [worker/tools/]; [History] has the fifth tool and
      [core/services/alert_history.py].
    - [Database]: [core/models/], [core/services/alerts.py], [worker/store.py];
      [Migration]: the schema, [alembic/versions/0001_initial_schema.py], [alembic/env.py],
      [core/db.py].
    - [Triage]: [worker/triage.py]'s pipeline with a ghost trace; [TriageFacts],
      [TriageFrame] and [TriageRaises]: what its runs do, what they can touch, and what they
      can end with when the client and the registry keep to their protocols.
    - [Job]: [triage_attempt], [worker/jobs.py], [worker/publish.py], [core/queue.py].

    The API.
    - [Stream]: [api/routes/stream.py], [core/schemas/stream.py].
    - [Reads]: [core/services/alerts_read.py], [core/schemas/alerts_read.py],
      [core/schemas/pagination.py], [api/routes/alerts_read.py].
    - [Api]: [api/deps.py], [api/routes/alerts.py], [api/routes/admin.py].
    - [Scripts]: [scripts/fetch_geoip.py], [scripts/post_alert.py].
    - [Lifecycle]: the handlers of [Api] and [Job] interleaved, as a transition system.
    - [Progress]: the same with a server and a model that answer: every alert gets a verdict.

    The shipper ([honeypot/shipper/sentinelbrief_shipper/]).
    - [Tail]: [tail.py]; [Assemble]: [assemble.py]; [Delivery]: its payloads at the API.
    - [Shipper]: [spool.py], [post.py], [signing.py], [config.py] and the loop of [main.py];
      [Service]: its [main], from the environment to the stop.

    The evaluation package and the commands.
    - [Floats]: binary64 arithmetic; [Golden]: [evals/golden/__init__.py];
      [Seed]: [scripts/seed_dev.py]; [Judge]: [evals/judge.py]; [Scoring]: [evals/scoring.py];
      [Publish]: [evals/publish.py]; [Gate]: [evals/gate.py]; [Candidates]:
      [evals/candidates.py]; [Sample]: [evals/sample.py]; [Recording]: [evals/record.py];
      [LabelTool]: [evals/label_tool.py], [evals/label_render.py].
    - [Boot]: [core/config.py], [worker/main.py], [worker/tools/wiring.py], [api/main.py],
      [api/factory.py], [api/routes/health.py].
    - [SessionReport]: [scripts/check_real_sessions.py]; [EvalRun], [EvalMain], [EvalFacts]:
      [evals/run.py]; [TriageOne]: [worker/triage_one.py]; [AiLabel]: [evals/ai_label.py];
      [Commands]: the entry points of [evals/sample.py], [evals/run.py], [evals/record.py].

    ** How the parts meet

    A component is proved against what it is promised, and the component it calls proves the
    promise.  [Triage.run] sees a client, a registry and a counter as interfaces; [Llm],
    [Tools] and [Budget] implement them, [TriageFrame] turns what they respect into what a
    run respects, [TriageRaises] what they raise into what a run raises (the evaluation harness
    rests on it), and [Job] uses that to keep a transaction's tables intact under a run.
    [Lifecycle.handlers_refine] shows each handler to be a run of the transition system, so
    [Lifecycle.lifecycle_safe] is about the handlers.  [Delivery] joins [Assemble] to
    [Schemas] and [Database]: what the shipper builds the API accepts, once.  [Service] joins
    [Tail], [Assemble] and [Shipper] over a whole run.  [Migration] joins the declared
    models, the migration and the constraints [Database] lets the server check.  [EvalMain] runs [EvalRun],
    [Scoring], [Publish] and [Gate]; [Recording] writes what [Recorder] replays.

    ** What the theorems show

    - Triage: calls, cost, tokens and routing of a run are bounded and accounted for
      ([TriageFacts]); the attacker's text cannot forge the delimiters ([Prompts]).
    - Durability: a job and an ingest are all or nothing and tell the truth, an alert is billed
      for no more than its retriages allow, a healthy system drains its backlog ([Job], [Api],
      [Database], [Lifecycle], [Progress]); the migration builds the schema the models
      declare ([Migration]).
    - Delivery: lines are read once and in order, a capped payload is that of the whole
      session, the spool is FIFO and loses nothing, the saved position follows the spool, a
      stop flushes what is open, a session shipped twice is one alert ([Tail], [Assemble],
      [Shipper], [Service], [Delivery]).
    - Reading: pages partition the list, statistics add up, a browser sees each event once and
      in order, slots are counted ([Reads], [Stream]).
    - Evaluation: a run is complete and its tables consistent, nothing is paid before the checks
      that precede the loop over the prompts, exit codes are honest, samples are sound and their loop terminates, recordings replay,
      labelling resumes, reports withhold what they must ([EvalRun] to [Commands]).
    - Boot: a configuration that is accepted gives components within their bounds ([Boot]).
    Theorems that hold under a hypothesis end with a witness: a concrete input at which the
    hypotheses are discharged by evaluation.

    ** Fuel and bounds

    [JsonParse.loads] runs on the length of the text; [loads_fuel_enough] shows that more
    changes nothing.  [Sample.round_robin] runs on [loop_fuel], one turn of the keys per
    candidate; [round_robin_terminates] proves it enough.  [Assemble.shrink] runs on
    the number of events, since every round drops one ([shrink_spec]); [Tail.read_loop] and
    [Text.utf8_decode_aux] on the bytes left, of which every step takes at least one; the class hierarchy of
    [Errors.mro_aux] on its depth.
    [Shipper.main_loop] takes a number of rounds, over which its theorems quantify.  The
    tool loop of [Triage] recurses on the configured iterations.  Where an integer has a
    width, its bounds are checked ([Database.int4], [Database.numeric_10_6]).

    ** What is not modelled

    - [web/] (TypeScript), [infra/], the honeypot's deployment, prompts, fixtures, tests and
      docs; [scripts/export_openapi.py], which prints what FastAPI generates; package
      initialisers.
    - What the libraries decide: SQL below the statement (statements of two transactions
      interleave in [Lifecycle] as whole transactions under the row lock), HTTP parsing,
      asyncio below whole tasks, argparse's own texts, pydantic's coercion tables.
    - Simplifications a reader should know of.  A session alert's extra fields (the models allow
      them) are dropped, so the stored [raw] is without them ([Schemas]).  The constraints of
      the tables are checked where Postgres would check the declared ones; its other refusals
      (a NUL in a text, say) are among the failures [statement] may answer ([Database]).  The
      statements of [get_stats] read one snapshot ([Reads]).  FastAPI enters the session before
      it reads the body, [Api] after: no statement is sent in between.  A NaN or an infinity as
      a session identifier, which [json.loads] reads, is no number of the model: [Assemble]
      treats it as unhashable.  SQLAlchemy's [make_url] and [create_async_engine],
      httpx's and the SDK's clients and ARQ's DSN parser are parameters of [Boot], which may
      raise.
    - [evals/publish.py]'s [write_eval_run_row] (one insert, a parameter of [EvalMain]); log records, except
      where a promise is about them; non-finite floats, but for [Shipper]'s configuration,
      whose parser meets them. *)

From stdpp Require Export base tactics option list numbers strings pretty sorting gmap.
From Stdlib Require Export ZArith Lia.

#[global] Set Default Goal Selector "!".

(** ** Python strings

    A [str] is a sequence of Unicode code points; [len], slicing and the
    substring operations of the source count code points, so the model does. *)

Declare Scope py_scope.
Delimit Scope py_scope with py.

Abbreviation pystr := (list Z) (only parsing).
Abbreviation pybytes := (list Z) (only parsing).

(** An ASCII literal of the source. *)
Definition u (s : string) : pystr :=
  map (fun a => Z.of_N (Ascii.N_of_ascii a)) (String.list_ascii_of_string s).

(** [str(n)] for an [int]. *)
Definition str_of_Z (z : Z) : pystr := u (pretty z).

Lemma u_String a s : u (String a s) = Z.of_N (Ascii.N_of_ascii a) :: u s.
Proof. done. Qed.

(** A decimal is digits, after a minus sign for a negative number. *)
Lemma pretty_N_go_elem x s c :
  c ∈ u (pretty_N_go x s) -> (48 <= c <= 57)%Z \/ c ∈ u s.
Proof.
  revert s. induction (N.lt_wf_0 x) as [x _ IH]; intros s.
  destruct (decide (x = 0)%N) as [->|Hx]; [rewrite pretty_N_go_0; auto|].
  rewrite pretty_N_go_step by lia.
  intros [?|Hc]%IH; [by left| |apply N.div_lt; lia].
  rewrite u_String in Hc. apply elem_of_cons in Hc as [->|?]; [|by right].
  left. unfold pretty_N_char. repeat case_match; simpl; lia.
Qed.

Lemma str_of_Z_elem z c : c ∈ str_of_Z z -> (45 <= c <= 57)%Z.
Proof.
  assert (Hn : forall (n : N) c, c ∈ u (pretty n) -> (48 <= c <= 57)%Z).
  { intros n c'. unfold pretty, pretty_N. case_decide.
    - intros ->%list_elem_of_singleton. simpl. lia.
    - intros [?|Hc]%pretty_N_go_elem; [done|]. by apply not_elem_of_nil in Hc. }
  unfold str_of_Z. destruct z as [|p|p].
  - intros ->%list_elem_of_singleton. simpl. lia.
  - intros Hc. change (pretty (Z.pos p)) with (pretty (N.pos p)) in Hc. apply Hn in Hc. lia.
  - change (u (pretty (Z.neg p))) with (45%Z :: u (pretty (N.pos p))).
    intros [->|Hc]%elem_of_cons; [lia|]. apply Hn in Hc. lia.
Qed.

Definition py_len {A} (l : list A) : Z := Z.of_nat (length l).

(** [s[:n]] for a non-negative [n]. *)
Definition py_take {A} (n : Z) (l : list A) : list A := take (Z.to_nat n) l.

(** [s.startswith(p)], [p in s] and [s.replace(old, new)] (leftmost,
    non-overlapping occurrences, for a non-empty [old]). *)
Fixpoint prefixb (p s : pystr) : bool :=
  match p, s with
  | [], _ => true
  | c :: p', d :: s' => bool_decide (c = d) && prefixb p' s'
  | _ :: _, [] => false
  end.

Lemma prefixb_spec p s : prefixb p s = true <-> exists t, s = p ++ t.
Proof.
  revert s. induction p as [|c p IH]; intros s; simpl; [split; [by exists s|done]|].
  destruct s as [|d s]; [naive_solver|]. rewrite andb_true_iff, bool_decide_eq_true, IH. naive_solver.
Qed.

Fixpoint substrb (p s : pystr) : bool :=
  prefixb p s || match s with [] => false | _ :: s' => substrb p s' end.

(** [skip] counts the characters of the occurrence being consumed. *)
Fixpoint replace_aux (old new : pystr) (skip : nat) (s : pystr) : pystr :=
  match s with
  | [] => []
  | c :: s' =>
      match skip with
      | S k => replace_aux old new k s'
      | O => if prefixb old s
             then new ++ replace_aux old new (pred (length old)) s'
             else c :: replace_aux old new 0 s'
      end
  end.

Definition py_replace (old new s : pystr) : pystr := replace_aux old new 0 s.

(** [sep.join(parts)]. *)
Fixpoint py_join (sep : pystr) (parts : list pystr) : pystr :=
  match parts with
  | [] => []
  | [p] => p
  | p :: ps => p ++ sep ++ py_join sep ps
  end.

(** The last separator splits a text one way only. *)
Lemma split_last_sep (c : Z) (a b x y : pystr) :
  c ∉ x -> c ∉ y -> a ++ c :: x = b ++ c :: y -> a = b /\ x = y.
Proof.
  revert b. induction a as [|d a IH]; intros [|e b] Hx Hy E; simplify_eq/=.
  - done.
  - destruct Hx. set_solver.
  - destruct Hy. set_solver.
  - by destruct (IH b Hx Hy) as [-> ->].
Qed.

(** [repr(s)] of a string, which depends on Unicode's printable characters. *)
Class StrRepr : Type := str_repr : pystr -> pystr.

(** The characters [str.strip] removes. *)
Definition is_space (c : Z) : bool :=
  ((9 <=? c) && (c <=? 13) || (28 <=? c) && (c <=? 32) || (c =? 133) || (c =? 160)
   || (c =? 5760) || (8192 <=? c) && (c <=? 8202) || (c =? 8232) || (c =? 8233)
   || (c =? 8239) || (c =? 8287) || (c =? 12288))%Z.

Fixpoint lstrip (s : pystr) : pystr :=
  match s with [] => [] | c :: s' => if is_space c then lstrip s' else s end.
Definition strip (s : pystr) : pystr := rev (lstrip (rev (lstrip s))).

(** Code-point order, the order of [str] comparison and of sorted keys. *)
Fixpoint str_leb (a b : pystr) : bool :=
  match a, b with
  | [], _ => true
  | _ :: _, [] => false
  | c :: a', d :: b' => (c <? d)%Z || ((c =? d)%Z && str_leb a' b')
  end.

(** ** Floats

    Every finite binary64 is an integer multiple of [2^-1074]: a float is the
    integer count of that unit.  Comparisons, [min], [max] and scaling by a power
    of two (short of overflow) are exact on this representation; a sum or a
    difference is the exact one, which the code rounds to the nearest float. *)

Definition float := Z.
Definition fone : float := (2 ^ 1074)%Z.
(** [float(n)] for an [int]. *)
Definition flt (n : Z) : float := (n * fone)%Z.

Lemma fone_pos : (0 < fone)%Z.
Proof. apply Z.pow_pos_nonneg; lia. Qed.

Lemma flt_le a b : (flt a <= flt b)%Z <-> (a <= b)%Z.
Proof. unfold flt. pose proof fone_pos. nia. Qed.

Lemma flt_lt a b : (flt a < flt b)%Z <-> (a < b)%Z.
Proof. unfold flt. pose proof fone_pos. nia. Qed.

(** A microsecond is many units. *)
Lemma fone_big : (10 ^ 6 <= fone)%Z.
Proof. unfold fone. transitivity (2 ^ 20)%Z; [lia|]. by apply Z.pow_le_mono_r. Qed.

Global Opaque fone.

(** ** Outcomes and effects

    A call of the source returns a value or raises.  [M E S] is the effect of an
    async method: it reads and writes the state [S] and returns or raises, and
    what it wrote before it raised stays written. *)

Inductive outcome (E A : Type) : Type :=
| Ret (a : A)
| Raise (e : E).
Arguments Ret {E A} a.
Arguments Raise {E A} e.

Definition M (E S A : Type) : Type := S -> outcome E A * S.

#[export] Instance outcome_ret {E} : MRet (outcome E) := fun A a => Ret a.
#[export] Instance outcome_bind {E} : MBind (outcome E) := fun A B f m =>
  match m with Ret a => f a | Raise e => Raise e end.
#[export] Instance outcome_fmap {E} : FMap (outcome E) := fun A B f m =>
  match m with Ret a => Ret (f a) | Raise e => Raise e end.

#[export] Instance M_ret {E S} : MRet (M E S) := fun A a s => (Ret a, s).
#[export] Instance M_bind {E S} : MBind (M E S) := fun A B f m s =>
  match m s with
  | (Ret a, s') => f a s'
  | (Raise e, s') => (Raise e, s')
  end.

Definition raise {E S A} (e : E) : M E S A := fun s => (Raise e, s).
Definition get {E S} : M E S S := fun s => (Ret s, s).
Definition put {E S} (s : S) : M E S unit := fun _ => (Ret tt, s).
Definition modify {E S} (f : S -> S) : M E S unit := fun s => (Ret tt, f s).
Definition lift {E S A} (o : outcome E A) : M E S A := fun s => (o, s).
(** [try: m except E as e: h(e)]: [h] answers [None] for an exception its
    [except] clauses do not match, which then propagates. *)
Definition try_except {E S A} (m : M E S A) (h : E -> option (M E S A)) : M E S A :=
  fun s =>
    match m s with
    | (Raise e, s') => match h e with Some k => k s' | None => (Raise e, s') end
    | r => r
    end.

Definition is_ret {E A} (o : outcome E A) : bool :=
  match o with Ret _ => true | Raise _ => false end.

(** [for x in l: st = f(st, x)], stopping at the first exception. *)
Fixpoint foldM {E S A B} (f : B -> A -> M E S B) (l : list A) (b : B) : M E S B :=
  match l with
  | [] => mret b
  | x :: l' => b' ← f b x; foldM f l' b'
  end.

(** ** Python dicts: insertion-ordered association lists

    Assignment to a present key keeps its place, a new key is appended. *)

Section dict.
Context {K V : Type} `{EqDecision K}.
Implicit Types (d : list (K * V)) (k : K) (v : V).

Fixpoint dget (k : K) (d : list (K * V)) : option V :=
  match d with
  | [] => None
  | (k', v) :: d' => if decide (k = k') then Some v else dget k d'
  end.

Fixpoint dset (k : K) (v : V) (d : list (K * V)) : list (K * V) :=
  match d with
  | [] => [(k, v)]
  | (k', v') :: d' =>
      if decide (k = k') then (k', v) :: d' else (k', v') :: dset k v d'
  end.

Fixpoint ddel (k : K) (d : list (K * V)) : list (K * V) :=
  match d with
  | [] => []
  | (k', v') :: d' => if decide (k = k') then d' else (k', v') :: ddel k d'
  end.

Definition dkeys d : list K := map fst d.

Lemma dget_dset_eq k v d : dget k (dset k v d) = Some v.
Proof.
  induction d as [|[k' v'] d IH]; simpl; [by rewrite decide_True|].
  by case_decide; simpl; [rewrite decide_True | rewrite decide_False].
Qed.

Lemma dget_dset_ne k k' v d : k <> k' -> dget k' (dset k v d) = dget k' d.
Proof.
  intros Hne. induction d as [|[k1 v1] d IH]; simpl.
  - by rewrite decide_False.
  - case_decide; simpl; [subst; by rewrite !decide_False | by rewrite IH].
Qed.

Lemma dget_None k d : dget k d = None <-> k ∉ dkeys d.
Proof.
  induction d as [|[k' v'] d IH]; simpl; [split; [intros _; apply not_elem_of_nil|done]|].
  rewrite elem_of_cons. case_decide; [naive_solver|]. rewrite IH. naive_solver.
Qed.

Lemma dget_elem k v d : dget k d = Some v -> (k, v) ∈ d.
Proof.
  induction d as [|[k' v'] d IH]; simpl; [done|].
  case_decide; intros; simplify_eq; set_solver.
Qed.

Lemma dget_Some_key k v d : dget k d = Some v -> k ∈ dkeys d.
Proof. intros H%dget_elem. apply (list_elem_of_fmap_2 fst) in H. done. Qed.

Lemma dset_keys_in k v d : k ∈ dkeys d -> dkeys (dset k v d) = dkeys d.
Proof.
  induction d as [|[k' v'] d IH]; simpl; [by intros ?%not_elem_of_nil|].
  case_decide as Hk; [done|]. intros [->|Hin]%elem_of_cons; [done|].
  simpl. by rewrite IH.
Qed.

Lemma dset_keys_notin k v d : k ∉ dkeys d -> dkeys (dset k v d) = dkeys d ++ [k].
Proof.
  induction d as [|[k' v'] d IH]; simpl; [done|].
  rewrite not_elem_of_cons. intros [Hne Hin].
  rewrite decide_False by done. simpl. by rewrite IH.
Qed.

Lemma dset_keys_elem k k' v d : k' ∈ dkeys (dset k v d) <-> k' = k \/ k' ∈ dkeys d.
Proof.
  destruct (decide (k ∈ dkeys d)).
  - rewrite dset_keys_in by done. naive_solver.
  - rewrite dset_keys_notin, elem_of_app, list_elem_of_singleton by done. naive_solver.
Qed.

Lemma dset_NoDup k v d : NoDup (dkeys d) -> NoDup (dkeys (dset k v d)).
Proof.
  intros H. destruct (decide (k ∈ dkeys d)).
  - by rewrite dset_keys_in.
  - rewrite dset_keys_notin by done. apply NoDup_app. split_and!; [done| |].
    + intros x Hx ->%list_elem_of_singleton. done.
    + apply NoDup_singleton.
Qed.

Lemma ddel_keys_subset k d : dkeys (ddel k d) ⊆ dkeys d.
Proof. induction d as [|[k' v'] d IH]; simpl; [done|]. case_decide; set_solver. Qed.

Lemma ddel_NoDup k d : NoDup (dkeys d) -> NoDup (dkeys (ddel k d)).
Proof.
  induction d as [|[k' v'] d IH]; simpl; [done|].
  rewrite NoDup_cons. intros [Hn Hd]. case_decide; [done|]. simpl.
  rewrite NoDup_cons. pose proof (ddel_keys_subset k d). set_solver.
Qed.

Lemma dget_ddel_eq k d : NoDup (dkeys d) -> dget k (ddel k d) = None.
Proof.
  intros Hd. apply dget_None.
  induction d as [|[k' v'] d IH]; simpl in *; [set_solver|].
  apply NoDup_cons in Hd as [Hn Hd].
  case_decide; [by subst|]. simpl. specialize (IH Hd). set_solver.
Qed.

Lemma dget_ddel_ne k k' d : k <> k' -> dget k' (ddel k d) = dget k' d.
Proof.
  intros Hne. induction d as [|[k1 v1] d IH]; simpl; [done|].
  case_decide; simpl; [subst; by rewrite decide_False | by rewrite IH].
Qed.

Lemma ddel_length k d : k ∈ dkeys d -> length d = S (length (ddel k d)).
Proof.
  induction d as [|[k' v'] d IH]; simpl; [set_solver|].
  intros Hin. case_decide; simpl; [done|]. rewrite IH; [done|set_solver].
Qed.

Lemma dset_length_in k v d : k ∈ dkeys d -> length (dset k v d) = length d.
Proof.
  intros H%(dset_keys_in k v)%(f_equal length). unfold dkeys in H.
  by rewrite !length_map in H.
Qed.

Lemma dset_length_notin k v d : k ∉ dkeys d -> length (dset k v d) = S (length d).
Proof.
  intros H%(dset_keys_notin k v)%(f_equal length). unfold dkeys in H.
  rewrite length_app, !length_map in H. simpl in H. lia.
Qed.

Lemma ddel_subset k d : ddel k d ⊆ d.
Proof.
  induction d as [|[k' v'] d IH]; simpl; [done|].
  case_decide; [by intros x Hx; right|].
  intros x [->|Hx]%elem_of_cons; [left|right; by apply IH].
Qed.

Lemma elem_of_dget k v d :
  NoDup (dkeys d) -> (k, v) ∈ d -> dget k d = Some v.
Proof.
  induction d as [|[k' v'] d IH]; simpl; [by intros _ ?%not_elem_of_nil|].
  intros [Hn Hd]%NoDup_cons [[= <- <-]|H]%elem_of_cons; [by rewrite decide_True|].
  rewrite decide_False; [by apply IH|]. intros <-.
  apply Hn. by apply (list_elem_of_fmap_2 fst) in H.
Qed.

Lemma dset_elem k k' v v' d :
  (k', v') ∈ dset k v d -> (k' = k /\ v' = v) \/ (k', v') ∈ d.
Proof.
  induction d as [|[k1 v1] d IH]; simpl.
  - intros ?%list_elem_of_singleton. naive_solver.
  - case_decide; rewrite !elem_of_cons; naive_solver.
Qed.

Lemma ddel_length_le k d :
  (length (ddel k d) <= length d)%nat.
Proof.
  destruct (decide (k ∈ dkeys d)) as [H%ddel_length|H]; [lia|].
  induction d as [|[k' v'] d IH]; simpl; [lia|]. case_decide; simpl; [lia|].
  apply le_n_S, IH. intros Hk. apply H. by right.
Qed.
End dict.

(** ** Counting: [d[k] = d.get(k, 0) + 1] *)

Section counting.
Context {K : Type} `{EqDecision K}.
Implicit Types (d : list (K * Z)) (ks : list K).

Definition count_one d (k : K) : list (K * Z) := dset k (default 0%Z (dget k d) + 1)%Z d.
Definition tally_of ks : list (K * Z) := foldl count_one [] ks.
Definition dtotal d : Z := foldr Z.add 0%Z (map snd d).

Lemma dtotal_dset d k v : NoDup (dkeys d) -> (dtotal (dset k v d) = dtotal d - default 0 (dget k d) + v)%Z.
Proof.
  unfold dtotal. induction d as [|[k' v'] d IH]; simpl; [lia|]. intros [Hk Hnd]%NoDup_cons.
  case_decide as Hd; simpl; [lia|]. rewrite IH by done. lia.
Qed.

Lemma foldl_count_spec ks d :
  NoDup (dkeys d) ->
  NoDup (dkeys (foldl count_one d ks)) /\
  dtotal (foldl count_one d ks) = (dtotal d + Z.of_nat (length ks))%Z /\
  (forall k, dget k (foldl count_one d ks) =
     if decide (k ∈ ks) then Some (default 0 (dget k d) + Z.of_nat (length (filter (eq k) ks)))%Z else dget k d).
Proof.
  revert d. induction ks as [|k ks IH]; intros d Hnd; cbn [foldl].
  { split; [done|]. split; [simpl; lia|]. intros k. rewrite decide_False; [done|apply not_elem_of_nil]. }
  destruct (IH (count_one d k)) as (Hn & Ht & Hg); [by apply dset_NoDup|].
  split; [done|]. split.
  { rewrite Ht. unfold count_one. rewrite dtotal_dset by done. rewrite length_cons. lia. }
  intros k'. rewrite Hg. unfold count_one. rewrite filter_cons. destruct (decide (k' = k)) as [->|Hne].
  - rewrite dget_dset_eq, (decide_True (P := k ∈ k :: ks)) by (by left). cbn [default from_option length].
    unfold id. case_decide as Hin; [f_equal; lia|]. f_equal.
    assert (filter (eq k) ks = []) as ->; [|simpl; lia].
    clear -Hin. induction ks as [|x ks IH]; [done|]. rewrite filter_cons, decide_False.
    + apply IH. intros ?. apply Hin. by right.
    + intros ->. apply Hin. by left.
  - rewrite dget_dset_ne by done. assert (Hiff : k' ∈ k :: ks <-> k' ∈ ks) by (rewrite elem_of_cons; naive_solver).
    destruct (decide (k' ∈ ks)), (decide (k' ∈ k :: ks)); tauto || done.
Qed.

(** A tally has the keys counted, each once, with its number of occurrences. *)
Lemma tally_of_spec ks :
  NoDup (dkeys (tally_of ks)) /\ dtotal (tally_of ks) = Z.of_nat (length ks) /\
  forall k, dget k (tally_of ks) = if decide (k ∈ ks) then Some (Z.of_nat (length (filter (eq k) ks))) else None.
Proof. unfold tally_of. apply (foldl_count_spec ks []), NoDup_nil_2. Qed.
End counting.

(** ** [sorted(l, key=f)]: stable, by an integer key *)

Section py_sorted.
Context {A : Type} (f : A -> Z).

Fixpoint insert_by (x : A) (l : list A) : list A :=
  match l with
  | [] => [x]
  | y :: l' => if (f x <=? f y)%Z then x :: l else y :: insert_by x l'
  end.

Fixpoint py_sorted (l : list A) : list A :=
  match l with [] => [] | x :: l' => insert_by x (py_sorted l') end.

Definition by_key (x y : A) : Prop := (f x <= f y)%Z.

Lemma insert_by_perm x l : insert_by x l ≡ₚ x :: l.
Proof.
  induction l as [|y l IH]; simpl; [done|]. case_match; [done|].
  rewrite IH. apply Permutation_swap.
Qed.

Lemma py_sorted_perm l : py_sorted l ≡ₚ l.
Proof. induction l as [|x l IH]; simpl; [done|]. by rewrite insert_by_perm, IH. Qed.

Lemma insert_by_sorted x l :
  StronglySorted by_key l -> StronglySorted by_key (insert_by x l).
Proof.
  induction 1 as [|y l Hs IH Hy]; simpl; [by repeat constructor|].
  destruct (Z.leb_spec (f x) (f y)) as [Hle|Hlt].
  - repeat constructor; [done|done|done|]. eapply Forall_impl; [done|].
    unfold by_key in *. simpl. lia.
  - constructor; [done|]. rewrite insert_by_perm. constructor; [unfold by_key; lia|done].
Qed.

Lemma py_sorted_sorted l : StronglySorted by_key (py_sorted l).
Proof. induction l; simpl; [constructor|by apply insert_by_sorted]. Qed.

(** Elements of equal key keep their order. *)
Lemma py_sorted_stable l k :
  filter (fun x => f x = k) (py_sorted l) = filter (fun x => f x = k) l.
Proof.
  assert (Hi : forall x l, filter (fun x => f x = k) (insert_by x l) =
                           filter (fun x => f x = k) (x :: l)).
  { intros x l'. induction l' as [|y l' IH]; simpl; [done|].
    destruct (Z.leb_spec (f x) (f y)); [done|].
    rewrite !filter_cons in *. rewrite IH. repeat case_decide; try done. lia. }
  induction l as [|x l IH]; [done|]. simpl. rewrite Hi, !filter_cons. by rewrite IH.
Qed.

Lemma py_sorted_head_min l x l' y :
  py_sorted l = x :: l' -> y ∈ l -> (f x <= f y)%Z.
Proof.
  intros E Hy. pose proof (py_sorted_sorted l) as Hs. rewrite E in Hs.
  apply StronglySorted_inv in Hs as [_ Hall].
  rewrite <- py_sorted_perm, E in Hy. apply elem_of_cons in Hy as [->|Hy]; [lia|].
  rewrite Forall_forall in Hall. by apply Hall.
Qed.
End py_sorted.

(** ** [sum] of integers *)

Definition zsum (l : list Z) : Z := foldr Z.add 0%Z l.

Lemma zsum_app l1 l2 : zsum (l1 ++ l2) = (zsum l1 + zsum l2)%Z.
Proof. induction l1 as [|x l1 IH]; simpl; [done|]. lia. Qed.

#[export] Instance zsum_perm : Proper ((≡ₚ) ==> (=)) zsum.
Proof. induction 1; simpl; lia. Qed.

Lemma zsum_ones {A} (l : list A) : zsum (map (fun _ => 1%Z) l) = py_len l.
Proof. unfold py_len. induction l as [|x l IH]; simpl length; simpl; lia. Qed.

(** Counting is summing a weight of zero or one. *)
Definition b2z (b : bool) : Z := if b then 1%Z else 0%Z.

Lemma zsum_count {A} (P : A -> bool) (l : list A) :
  zsum (map (fun x => b2z (P x)) l) = py_len (List.filter P l).
Proof.
  unfold py_len. induction l as [|x l IH]; simpl; [done|]. rewrite IH.
  destruct (P x); simpl length; simpl b2z; lia.
Qed.

(** The library's hints: the dict lemmas that only need their side conditions. *)
Create HintDb py.
Create Rewrite HintDb pyrw.
#[export] Hint Resolve dset_NoDup ddel_NoDup dget_elem dget_Some_key fone_pos : py.
#[export] Hint Rewrite @dget_dset_eq : pyrw.

(** Case analysis on the scrutinees of the goal, then clean up. *)
Ltac py_cases := repeat (case_match; simplify_eq/=); try done.

(** Split a [bool] conjunction, disjunction or comparison into its [Prop]. *)
Ltac py_reflect :=
  repeat match goal with
    | H : andb _ _ = true |- _ => apply andb_true_iff in H as [? ?]
    | H : andb _ _ = false |- _ => apply andb_false_iff in H
    | H : orb _ _ = false |- _ => apply orb_false_iff in H as [? ?]
    | H : orb _ _ = true |- _ => apply orb_true_iff in H
    | H : negb _ = true |- _ => apply negb_true_iff in H
    | H : negb _ = false |- _ => apply negb_false_iff in H
    | H : (_ <? _)%Z = true |- _ => apply Z.ltb_lt in H
    | H : (_ <? _)%Z = false |- _ => apply Z.ltb_ge in H
    | H : (_ <=? _)%Z = true |- _ => apply Z.leb_le in H
    | H : (_ <=? _)%Z = false |- _ => apply Z.leb_gt in H
    | H : (_ =? _)%Z = true |- _ => apply Z.eqb_eq in H
    | H : (_ =? _)%Z = false |- _ => apply Z.eqb_neq in H
    | H : bool_decide _ = true |- _ => apply bool_decide_eq_true in H
    | H : bool_decide _ = false |- _ => apply bool_decide_eq_false in H
    end.

(** Unfold the effect operations down to matches on the state. *)
Ltac m_unfold :=
  unfold mbind, mret, M_bind, M_ret, get, raise, lift, modify, try_except in *.
