(* ===== verification/Errors.v ===== *)
(** * Errors: the typed exception family and the API's error envelope

    [core/errors.py] (the classes, their [code] and what each instance carries)
    and [api/errors.py] (the status of a class through its MRO, the four handlers
    that turn an exception into a response). *)

From S2P Require Import Prelude.

(** ** Classes *)

(** The [SentinelBriefError] classes, [core.cli.UsageError] included. *)
Inductive sb_class : Type :=
| CSentinelBriefError
| CConfigError
| CFixtureMissingError
| CLLMCallError
| CStructuredOutputError
| CVerdictValidationError
| CSignatureError
| CLengthRequiredError
| CPayloadTooLargeError
| CNotFoundError
| CConflictError
| CRateLimitedError
| CQueueUnavailableError
| CBudgetExceededError
| CStreamUnavailableError
| CUsageError.

#[export] Instance sb_class_eq_dec : EqDecision sb_class.
Proof. solve_decision. Defined.

(** The class attribute [code]. *)
Definition code (c : sb_class) : pystr :=
  match c with
  | CSentinelBriefError => u "error"
  | CConfigError => u "config_error"
  | CFixtureMissingError => u "fixture_missing"
  | CLLMCallError => u "llm_call_failed"
  | CStructuredOutputError => u "structured_output"
  | CVerdictValidationError => u "verdict_validation"
  | CSignatureError => u "unauthorized"
  | CLengthRequiredError => u "length_required"
  | CPayloadTooLargeError => u "payload_too_large"
  | CNotFoundError => u "not_found"
  | CConflictError => u "conflict"
  | CRateLimitedError => u "rate_limited"
  | CQueueUnavailableError => u "queue_unavailable"
  | CBudgetExceededError => u "budget_exceeded"
  | CStreamUnavailableError => u "stream_unavailable"
  | CUsageError => u "usage"
  end.

Definition class_name (c : sb_class) : pystr :=
  match c with
  | CSentinelBriefError => u "SentinelBriefError"
  | CConfigError => u "ConfigError"
  | CFixtureMissingError => u "FixtureMissingError"
  | CLLMCallError => u "LLMCallError"
  | CStructuredOutputError => u "StructuredOutputError"
  | CVerdictValidationError => u "VerdictValidationError"
  | CSignatureError => u "SignatureError"
  | CLengthRequiredError => u "LengthRequiredError"
  | CPayloadTooLargeError => u "PayloadTooLargeError"
  | CNotFoundError => u "NotFoundError"
  | CConflictError => u "ConflictError"
  | CRateLimitedError => u "RateLimitedError"
  | CQueueUnavailableError => u "QueueUnavailableError"
  | CBudgetExceededError => u "BudgetExceededError"
  | CStreamUnavailableError => u "StreamUnavailableError"
  | CUsageError => u "UsageError"
  end.

(** The direct base class, [None] for the root of the family. *)
Definition sb_base (c : sb_class) : option sb_class :=
  match c with
  | CSentinelBriefError => None
  | CFixtureMissingError => Some CConfigError
  | _ => Some CSentinelBriefError
  end.

(** The part of [__mro__] inside the family, nearest first.  Inheritance is
    single and two levels deep, so three unfoldings reach the root. *)
Fixpoint mro_aux (fuel : nat) (c : sb_class) : list sb_class :=
  match fuel with
  | O => []
  | S n => c :: match sb_base c with Some b => mro_aux n b | None => [] end
  end.

Definition mro (c : sb_class) : list sb_class := mro_aux 3 c.

(** ** Instances *)

(** What a [StructuredOutputError] carries: the failed reply and its billing. *)
Record structured_error : Type := StructuredErr {
  se_raw_text : pystr;
  se_validation_error : pystr;
  se_input_tokens : Z;
  se_output_tokens : Z;
  se_cost_usd : Z;
  se_latency_ms : Z
}.

(** The exceptions the source raises, catches or lets through.  A family member
    with no payload of its own is [SBError]; the others carry their attributes. *)
Inductive exn : Type :=
| SBError (c : sb_class) (msg : pystr)
| StructuredOutputError (msg : pystr) (e : structured_error)
| VerdictValidationError (msg : pystr) (attempts : Z) (last_error : pystr)
| RateLimitedError (msg : pystr) (retry_after : option Z)
| BudgetExceededError (msg : pystr) (tokens_today budget : Z)
| ValueError (msg : pystr)
| TypeError
| KeyError
| OverflowError
| AssertionError
| RuntimeError (msg : pystr)
| TimeoutError
| OSError
| JSONDecodeError
| UnicodeDecodeError
| ValidationError
| RedisError
| SQLAlchemyError
| HTTPError
| OpenAIError
| InvalidDatabaseError
| Retry (defer_s : float)
| OtherException (name : pystr)
| CancelledError.

Definition ConfigError := SBError CConfigError.
Definition FixtureMissingError := SBError CFixtureMissingError.
Definition LLMCallError := SBError CLLMCallError.
Definition SignatureError := SBError CSignatureError.
Definition LengthRequiredError := SBError CLengthRequiredError.
Definition PayloadTooLargeError := SBError CPayloadTooLargeError.
Definition NotFoundError := SBError CNotFoundError.
Definition ConflictError := SBError CConflictError.
Definition QueueUnavailableError := SBError CQueueUnavailableError.
Definition StreamUnavailableError := SBError CStreamUnavailableError.

(** [type(exc)] when it is in the family. *)
Definition sb_class_of (e : exn) : option sb_class :=
  match e with
  | SBError c _ => Some c
  | StructuredOutputError _ _ => Some CStructuredOutputError
  | VerdictValidationError _ _ _ => Some CVerdictValidationError
  | RateLimitedError _ _ => Some CRateLimitedError
  | BudgetExceededError _ _ _ => Some CBudgetExceededError
  | _ => None
  end.

(** [isinstance(exc, c)] for a family class [c]. *)
Definition isinstance (e : exn) (c : sb_class) : bool :=
  match sb_class_of e with Some c' => bool_decide (c ∈ mro c') | None => false end.

(** [except Exception] catches everything but [BaseException]'s own children. *)
Definition is_exception (e : exn) : bool :=
  match e with CancelledError => false | _ => true end.

(** [type(exc).__name__]. *)
Definition exn_name (e : exn) : pystr :=
  match sb_class_of e with
  | Some c => class_name c
  | None =>
      match e with
      | ValueError _ => u "ValueError" | TypeError => u "TypeError"
      | KeyError => u "KeyError" | OverflowError => u "OverflowError"
      | AssertionError => u "AssertionError" | RuntimeError _ => u "RuntimeError"
      | TimeoutError => u "TimeoutError" | OSError => u "OSError"
      | JSONDecodeError => u "JSONDecodeError"
      | UnicodeDecodeError => u "UnicodeDecodeError"
      | ValidationError => u "ValidationError" | RedisError => u "RedisError"
      | SQLAlchemyError => u "SQLAlchemyError" | HTTPError => u "HTTPError"
      | OpenAIError => u "OpenAIError"
      | InvalidDatabaseError => u "InvalidDatabaseError"
      | Retry _ => u "Retry" | OtherException n => n
      | _ => u "CancelledError"
      end
  end.

(** [str(exc)], for the family. *)
Definition exn_msg (e : exn) : pystr :=
  match e with
  | SBError _ m | StructuredOutputError m _ | VerdictValidationError m _ _
  | RateLimitedError m _ | BudgetExceededError m _ _ | ValueError m
  | RuntimeError m => m
  | _ => []
  end.

(** ** [api/errors.py] *)

Module ApiErrors.

Definition GENERIC_MESSAGE : pystr := u "internal error".

(** [STATUS_BY_ERROR], a class per row. *)
Definition STATUS_BY_ERROR : list (sb_class * Z) :=
  [ (CSignatureError, 401);
    (CNotFoundError, 404);
    (CConflictError, 409);
    (CLengthRequiredError, 411);
    (CPayloadTooLargeError, 413);
    (CRateLimitedError, 429);
    (CConfigError, 500);
    (CLLMCallError, 502);
    (CVerdictValidationError, 502);
    (CStructuredOutputError, 502);
    (CQueueUnavailableError, 503);
    (CStreamUnavailableError, 503);
    (CBudgetExceededError, 503) ]%Z.

(** The first ancestor, nearest first, that has a row. *)
Fixpoint first_mapped (ancestors : list sb_class) : option Z :=
  match ancestors with
  | [] => None
  | a :: rest =>
      match dget a STATUS_BY_ERROR with
      | Some s => Some s
      | None => first_mapped rest
      end
  end.

Definition status_for (c : sb_class) : option Z := first_mapped (mro c).

(** A response: the status, the envelope's [error.code] and [error.message], and
    the headers the handler sets. *)
Record response : Type := Response {
  r_status : Z;
  r_code : pystr;
  r_message : pystr;
  r_headers : list (pystr * pystr)
}.

Definition _envelope (status_code : Z) (code message : pystr) : response :=
  Response status_code code message [].

Definition _handle_sentinelbrief_error (e : exn) : outcome exn response :=
  match sb_class_of e with
  | None => Raise AssertionError
  | Some c =>
      let status_code := default 500%Z (status_for c) in
      let message := if (status_code <? 500)%Z then exn_msg e else GENERIC_MESSAGE in
      let response := _envelope status_code (code c) message in
      Ret match e with
          | RateLimitedError _ (Some s) =>
              Response (r_status response) (r_code response) (r_message response)
                [(u "Retry-After", str_of_Z s)]
          | _ => response
          end
  end.

(** One entry of [RequestValidationError.errors()]: [loc] and [msg]; the input
    that failed is not read. *)
Record request_error : Type := RequestErr { re_loc : list pystr; re_msg : pystr }.

Definition _handle_validation_error (errors : list request_error) : response :=
  let message :=
    py_join (u "; ")
      (map (fun e => py_join (u ".") (re_loc e) ++ u ": " ++ re_msg e) errors) in
  _envelope 422 (u "validation_error") message.

Definition _handle_http_exception (status_code : Z) (detail : pystr)
    (headers : list (pystr * pystr)) : response :=
  let code := default (u "http_error")
    (dget status_code [(404%Z, u "not_found"); (405%Z, u "method_not_allowed")]) in
  let message := if (status_code <? 500)%Z then detail else GENERIC_MESSAGE in
  let response := _envelope status_code code message in
  Response (r_status response) (r_code response) (r_message response)
    (foldl (fun h kv => dset kv.1 kv.2 h) (r_headers response) headers).

Definition _handle_unhandled_exception : response :=
  _envelope 500 (u "internal_error") GENERIC_MESSAGE.

(** [register_error_handlers]: the handler Starlette picks for what a route
    raised, the most specific registered class first. *)
Inductive route_failure : Type :=
| FExn (e : exn)
| FRequestValidation (errors : list request_error)
| FHttp (status_code : Z) (detail : pystr) (headers : list (pystr * pystr)).

Definition handle (f : route_failure) : outcome exn response :=
  match f with
  | FExn e =>
      match sb_class_of e with
      | Some _ => _handle_sentinelbrief_error e
      | None => Ret _handle_unhandled_exception
      end
  | FRequestValidation errors => Ret (_handle_validation_error errors)
  | FHttp s d h => Ret (_handle_http_exception s d h)
  end.

(** *** Properties *)

(** Every class of [core/errors.py] but the abstract root has a status, and it is
    an error status. *)
Lemma status_for_total c :
  c <> CSentinelBriefError -> c <> CUsageError ->
  exists s, status_for c = Some s /\ (400 <= s < 600)%Z.
Proof. destruct c; intros; try done; vm_compute; eexists; split; try done. Qed.

Lemma status_for_error c s : status_for c = Some s -> (400 <= s < 600)%Z.
Proof. destruct c; vm_compute; intros; simplify_eq; done. Qed.

Lemma handle_sb e c :
  sb_class_of e = Some c ->
  exists r, _handle_sentinelbrief_error e = Ret r /\
    r_status r = default 500%Z (status_for c) /\
    r_code r = code c /\
    r_message r = (if (r_status r <? 500)%Z then exn_msg e else GENERIC_MESSAGE).
Proof.
  intros Hc. unfold _handle_sentinelbrief_error. rewrite Hc.
  eexists; split; [done|].
  destruct e as [ | | |m [?|]| | | | | | | | | | | | | | | | | | | |]; simplify_eq/=; done.
Qed.

(** Whatever a route raises, the handlers answer (the [assert] of
    [_handle_sentinelbrief_error] is unreachable); a family error keeps its wire
    code at its MRO-resolved status, its text reaches the client below 500, and
    every answer at or above 500 carries only the generic message. *)
Theorem handle_total_and_opaque f :
  exists r, handle f = Ret r /\
    ((500 <= r_status r)%Z -> r_message r = GENERIC_MESSAGE) /\
    (forall e c, f = FExn e -> sb_class_of e = Some c ->
       r_status r = default 500%Z (status_for c) /\ r_code r = code c /\
       ((r_status r < 500)%Z -> r_message r = exn_msg e)).
Proof.
  destruct f as [e|errs|s d h]; simpl.
  - destruct (sb_class_of e) as [c|] eqn:Hc.
    + destruct (handle_sb e c Hc) as (r & -> & Hs & Hcode & Hm).
      exists r. rewrite Hm. split; [done|]. split.
      * destruct (Z.ltb_spec (r_status r) 500); [lia|done].
      * intros e' c' [= <-] Hc'. simplify_eq. split_and!; try done.
        destruct (Z.ltb_spec (r_status r) 500); [done|lia].
    + eexists; split; [done|]. split; [done|]. intros; simplify_eq.
  - eexists; split; [done|]. split; [simpl; lia|]. intros; simplify_eq.
  - eexists; split; [done|]. simpl. split; [|intros; simplify_eq].
    destruct (Z.ltb_spec s 500); [lia|done].
Qed.

End ApiErrors.
