(* ===== verification/Cli.v ===== *)
(** * Cli: what a command prints when it refuses

    [core/cli.py]: [fail]'s one line and [Parser.error]'s redaction, which every command of
    the repository goes through.  [argparse] writes the message; it is an argument here. *)

From S2P Require Import Prelude.
#[local] Open Scope Z_scope.

(** [str.split()]: the maximal runs of characters that are not spaces. *)
Fixpoint words_from (cur s : pystr) : list pystr :=
  match s with
  | [] => match cur with [] => [] | _ => [cur] end
  | c :: s' =>
      if is_space c then match cur with [] => words_from [] s' | _ => cur :: words_from [] s' end
      else words_from (cur ++ [c]) s'
  end.
Definition words (s : pystr) : list pystr := words_from [] s.

(** [" ".join(message.split())]. *)
Definition flatten (message : pystr) : pystr := py_join (u " ") (words message).

(** What [fail] writes to stderr. *)
Definition error_line (code message : pystr) : pystr := u "error: " ++ code ++ u ": " ++ flatten message.

(** ** [_URL_LIKE.sub("<redacted>", message)]

    [\S+://\S+] matches in a run of non-spaces exactly when [://] occurs in it after its
    first character and before its last; the match then begins where the run does, both
    [\S+] being greedy it ends where the run does, and nothing of the run is left. *)
Definition SCHEME_SEP : pystr := u "://".
Definition REDACTED : pystr := u "<redacted>".

Fixpoint sep_inside (s : pystr) : bool :=
  (prefixb SCHEME_SEP s && (3 <? py_len s)) || match s with [] => false | _ :: s' => sep_inside s' end.
Definition url_like (run : pystr) : bool := match run with [] => false | _ :: t => sep_inside t end.
Definition redact_word (run : pystr) : pystr := if url_like run then REDACTED else run.

Fixpoint redact_from (cur s : pystr) : pystr :=
  match s with
  | [] => redact_word cur
  | c :: s' => if is_space c then redact_word cur ++ c :: redact_from [] s' else redact_from (cur ++ [c]) s'
  end.
Definition redact (message : pystr) : pystr := redact_from [] message.

(** [Parser.error]. *)
Definition UNRECOGNIZED : pystr := u "unrecognized arguments".
Definition usage_message (message : pystr) : pystr :=
  redact (if prefixb UNRECOGNIZED message
          then u "unrecognized argument(s) " ++ [8212] ++ u " values withheld" else message)
  ++ u " (see --help)".

(** ** Runs *)

Definition solid (w : pystr) : Prop := w <> [] /\ Forall (fun c => is_space c = false) w.

Lemma words_from_runs cur s :
  Forall (fun c => is_space c = false) cur -> Forall solid (words_from cur s).
Proof.
  revert cur. induction s as [|c s IH]; intros cur Hcur; cbn [words_from].
  - destruct cur; [constructor|]. by apply Forall_singleton.
  - destruct (is_space c) eqn:Hc.
    + destruct cur; [by apply IH|]. constructor; [done|by apply IH].
    + apply IH, Forall_app. split; [done|by constructor].
Qed.

Lemma words_from_run cur w s :
  Forall (fun c => is_space c = false) w -> words_from cur (w ++ s) = words_from (cur ++ w) s.
Proof.
  revert cur. induction w as [|c w IH]; intros cur Hw; cbn [app words_from]; [by rewrite app_nil_r|].
  apply Forall_cons in Hw as [Hc Hw]. rewrite Hc, IH by done. by rewrite <- (assoc_L (++)).
Qed.

(** A flattened message has its words, and no other white space than single spaces. *)
Lemma words_join ws : Forall solid ws -> words (py_join (u " ") ws) = ws.
Proof.
  unfold words. induction ws as [|w ws IH]; [done|]. intros [[Hne Hw] Hws]%Forall_cons.
  destruct ws as [|w2 ws].
  - cbn [py_join]. rewrite <- (app_nil_r w) at 1. rewrite words_from_run by done. by destruct w.
  - change (py_join (u " ") (w :: w2 :: ws)) with (w ++ 32 :: py_join (u " ") (w2 :: ws)).
    rewrite words_from_run by done. change (is_space 32) with true.
    cbn [words_from app]. change (is_space 32) with true. cbn iota. rewrite IH by done. by destruct w.
Qed.

Lemma join_spaces ws c :
  Forall solid ws -> c ∈ py_join (u " ") ws -> c = 32 \/ is_space c = false.
Proof.
  induction ws as [|w ws IH]; [by intros _ ?%not_elem_of_nil|]. intros [[_ Hw] Hws]%Forall_cons.
  rewrite Forall_forall in Hw. destruct ws as [|w2 ws]; [by right; apply Hw|].
  change (py_join (u " ") (w :: w2 :: ws)) with (w ++ 32 :: py_join (u " ") (w2 :: ws)).
  rewrite elem_of_app, elem_of_cons. naive_solver.
Qed.

(** ** Redaction *)

Lemma redact_words_from cur s :
  Forall (fun c => is_space c = false) cur ->
  words (redact_from cur s) = map redact_word (words_from cur s).
Proof.
  unfold words. revert cur. induction s as [|c s IH]; intros cur Hcur; cbn [redact_from words_from].
  - destruct cur as [|d cur]; [done|]. cbn [map].
    assert (H : words_from [] (d :: cur) = [d :: cur])
      by (rewrite <- (app_nil_r (d :: cur)) at 1; by rewrite words_from_run).
    unfold redact_word. by destruct (url_like (d :: cur)).
  - destruct (is_space c) eqn:Hc.
    + assert (Hr : Forall (fun c => is_space c = false) (redact_word cur))
        by (unfold redact_word; destruct (url_like cur); [by repeat constructor|done]).
      rewrite words_from_run by done. cbn [app words_from]. rewrite Hc.
      rewrite (IH [] (List.Forall_nil _)). destruct cur as [|d cur]; [done|]. cbn [map]. f_equal.
      unfold redact_word. destruct (url_like (d :: cur)); reflexivity.
    + rewrite IH; [done|]. apply Forall_app. split; [done|by constructor].
Qed.

Lemma sep_inside_spec t :
  sep_inside t = true <-> exists a b, t = a ++ SCHEME_SEP ++ b /\ b <> [].
Proof.
  induction t as [|c t IH]; cbn [sep_inside].
  - split; [done|]. intros (a & b & E & _). by destruct a.
  - rewrite orb_true_iff, andb_true_iff, IH. split.
    + intros [[Hp Hl]|(a & b & -> & Hb)]; [|by exists (c :: a), b].
      assert (exists b, c :: t = SCHEME_SEP ++ b) as [b E]
        by (by apply prefixb_spec).
      rewrite E in *. exists [], b. split; [done|]. intros ->. by vm_compute in Hl.
    + intros (a & b & E & Hb). destruct a as [|c' a].
      * left. rewrite E. split; [reflexivity|]. apply Z.ltb_lt. destruct b; [done|].
        unfold py_len. rewrite !length_app, length_cons. cbn [length SCHEME_SEP u]. simpl. lia.
      * right. injection E as -> E. by exists a, b.
Qed.

Lemma url_like_spec w :
  url_like w = true <-> exists a b, w = a ++ SCHEME_SEP ++ b /\ a <> [] /\ b <> [].
Proof.
  destruct w as [|c w]; cbn [url_like].
  - split; [done|]. intros (a & b & E & Ha & _). by destruct a.
  - rewrite sep_inside_spec. split.
    + intros (a & b & -> & Hb). by exists (c :: a), b.
    + intros ([|c' a] & b & E & Ha & Hb); [done|]. injection E as -> ->. by exists a, b.
Qed.

(** A word around a run of the text. *)
Lemma word_around w cur pre post :
  solid w -> Forall (fun c => is_space c = false) cur ->
  exists a b, a ++ w ++ b ∈ words_from cur (pre ++ w ++ post).
Proof.
  intros [Hne Hw]. revert cur. induction pre as [|c pre IH]; intros cur Hcur; cbn [app].
  - rewrite words_from_run by done.
    enough (H : forall cur', cur' <> [] -> exists b, cur' ++ b ∈ words_from cur' post).
    { destruct (H (cur ++ w)) as [b Hb]; [by destruct cur, w|]. exists cur, b.
      by rewrite <- (assoc_L (++)) in Hb. }
    clear. induction post as [|c post IH]; intros cur' Hne; cbn [words_from].
    + exists []. rewrite app_nil_r. destruct cur'; [done|]. by apply list_elem_of_singleton.
    + destruct (is_space c).
      * exists []. rewrite app_nil_r. destruct cur'; [done|]. apply elem_of_cons. by left.
      * destruct (IH (cur' ++ [c])) as [b Hb]; [by destruct cur'|]. exists (c :: b).
        by rewrite <- (assoc_L (++)) in Hb.
  - cbn [words_from]. destruct (is_space c) eqn:Hc.
    + destruct (IH [] (List.Forall_nil _)) as (a & b & H). exists a, b.
      destruct cur; [done|]. apply elem_of_cons. by right.
    + apply IH, Forall_app. split; [done|by constructor].
Qed.

(** No run of [s] is an address. *)
Definition withheld (s : pystr) : Prop := forall pre a b post,
  s = pre ++ (a ++ SCHEME_SEP ++ b) ++ post -> solid a -> solid b -> False.

Lemma withheld_words s : Forall (fun w => url_like w = false) (words s) -> withheld s.
Proof.
  intros H pre a b post -> Ha Hb. rewrite Forall_forall in H.
  assert (Hr : solid (a ++ SCHEME_SEP ++ b)).
  { destruct Ha as [Ha1 Ha2], Hb as [Hb1 Hb2]. split; [by destruct a|].
    rewrite !Forall_app. split_and!; [done|by repeat constructor|done]. }
  destruct (word_around _ [] pre post Hr (List.Forall_nil _)) as (x & y & Hin).
  specialize (H _ Hin). assert (url_like (x ++ (a ++ SCHEME_SEP ++ b) ++ y) = true); [|congruence].
  apply url_like_spec. exists (x ++ a), (b ++ y). split_and!; [by rewrite <- !(assoc_L (++))|..].
  - destruct Ha as [Ha _]. by destruct x, a.
  - destruct Hb as [Hb _]. by destruct b.
Qed.

Lemma redact_word_clean w : url_like (redact_word w) = false.
Proof. unfold redact_word. by destruct (url_like w) eqn:E. Qed.

Lemma redact_withheld s : Forall (fun w => url_like w = false) (words (redact s)).
Proof.
  unfold redact. rewrite redact_words_from by constructor. rewrite Forall_map.
  apply Forall_forall. intros w _. apply redact_word_clean.
Qed.

Lemma words_from_app cur s c t :
  is_space c = true -> words_from cur (s ++ c :: t) = words_from cur s ++ words t.
Proof.
  intros Hc. revert cur. induction s as [|d s IH]; intros cur; cbn [app words_from].
  - rewrite Hc. by destruct cur.
  - destruct (is_space d); [|apply IH]. destruct cur; [apply IH|]. cbn [app]. by rewrite IH.
Qed.

(** A usage error withholds what was typed: whatever argparse's message holds, no run of
    the line printed is an address with something before and after its [://], the line has
    no line break, and the message of an unrecognized argument is replaced altogether; a
    word of the message that is no address is printed as it is. *)
Theorem usage_error_withholds message :
  let line := error_line (u "usage") (usage_message message) in
  withheld line /\
  (forall c, c ∈ line -> c = 32 \/ is_space c = false) /\
  (forall message', prefixb UNRECOGNIZED message = true -> prefixb UNRECOGNIZED message' = true ->
     usage_message message' = usage_message message) /\
  (prefixb UNRECOGNIZED message = false ->
     words line = [u "error:"; u "usage:"] ++ map redact_word (words message) ++ [u "(see"; u "--help)"]).
Proof.
  assert (Hline : forall m, words (error_line (u "usage") (redact m ++ u " (see --help)")) =
    [u "error:"; u "usage:"] ++ map redact_word (words m) ++ [u "(see"; u "--help)"]).
  { intros m. unfold error_line, flatten.
    transitivity ([u "error:"; u "usage:"] ++ words (py_join (u " ") (words (redact m ++ u " (see --help)"))));
      [reflexivity|].
    rewrite words_join by (apply words_from_runs; constructor). f_equal.
    change (u " (see --help)") with (32 :: u "(see --help)"). unfold words at 1.
    rewrite words_from_app by done. unfold redact. by setoid_rewrite (redact_words_from [] m (List.Forall_nil _)). }
  assert (Hclean : forall m, Forall (fun w => url_like w = false)
      ([u "error:"; u "usage:"] ++ map redact_word (words m) ++ [u "(see"; u "--help)"])).
  { intros m. rewrite !Forall_app, Forall_map. split_and!; [by repeat constructor| |by repeat constructor].
    apply Forall_forall. intros w _. apply redact_word_clean. }
  cbv zeta. split_and!.
  - apply withheld_words. unfold usage_message. rewrite Hline. apply Hclean.
  - intros c. unfold error_line, flatten. rewrite !elem_of_app. intros [Hc|[Hc|[Hc|Hc]]].
    4: { eapply join_spaces; [|exact Hc]. apply words_from_runs. constructor. }
    all: revert c Hc; apply Forall_forall; apply (bool_decide_unpack _); vm_compute; exact I.
  - intros message' H1 H2. unfold usage_message. by rewrite H1, H2.
  - intros H. unfold usage_message. rewrite H. apply Hline.
Qed.

(** A database address with its password, on the command line and inside another flag's value. *)
Lemma usage_error_withholds_witness :
  error_line (u "usage") (usage_message (u "argument --limit: invalid int value: 'postgres://u:pw@h/db'")) =
    u "error: usage: argument --limit: invalid int value: <redacted> (see --help)" /\
  usage_message (u "unrecognized arguments: postgres://u:pw@h/db") =
    usage_message (u "unrecognized arguments: --x").
Proof.
  split; [reflexivity|].
  apply (usage_error_withholds (u "unrecognized arguments: --x")); reflexivity.
Defined.
