(* ===== verification/Command.v ===== *)
(** * Command: how a command ends

    What the [main] functions of the repository share: [core/cli.py]'s [fail] and
    [UsageError], the two ways out of a [main] before its last line, and the promise that a
    refusal is one line on stderr and exit code 1.  The text of an exception is a parameter. *)

From S2P Require Import Prelude Errors Cli.
#[local] Open Scope Z_scope.

(** An exit code and the lines printed on each stream. *)
Record ended : Type := { exit_code : Z; stdout : list pystr; stderr : list pystr }.

(** Leaving [main] early: a [return], or an exception no [except] takes. *)
Inductive left : Type := Returned (r : ended) | Escaped (e : exn).

Definition refuse (line : pystr) : ended := {| exit_code := 1; stdout := []; stderr := [line] |}.

(** [return fail(code, message)]. *)
Definition fail {A} (code message : pystr) : outcome left A := Raise (Returned (refuse (error_line code message))).

(** [parse_args], and its [UsageError]. *)
Definition usage_or {A} (arguments : pystr + A) : outcome left A :=
  match arguments with inl message => fail (u "usage") (usage_message message) | inr args => Ret args end.

(** The classes the [except]s name. *)
Definition is_config_error (e : exn) : bool := isinstance e CConfigError.
Definition is_value_error (e : exn) : bool :=
  match e with ValueError _ | JSONDecodeError | UnicodeDecodeError | ValidationError => true | _ => false end.
Definition is_os_error (e : exn) : bool := match e with OSError | TimeoutError => true | _ => false end.
Definition is_validation_error (e : exn) : bool := match e with ValidationError => true | _ => false end.

(** What [main] answers. *)
Definition settle (o : outcome left ended) : outcome exn ended :=
  match o with Ret r | Raise (Returned r) => Ret r | Raise (Escaped e) => Raise e end.

Section catching.
(** [str(e)]. *)
Variable exn_text : exn -> pystr.

(** [try: o except test as e: return fail(code, str(e))]. *)
Definition catching {A} (o : outcome exn A) (test : exn -> bool) (code : pystr) : outcome left A :=
  match o with
  | Ret a => Ret a
  | Raise e => if test e then fail code (exn_text e) else Raise (Escaped e)
  end.

(** *** Refusals *)

Ltac decided := apply (bool_decide_unpack _); vm_compute; exact I.

Lemma one_line code message : 10 ∉ code -> 10 ∉ error_line code message.
Proof.
  intros Hc. unfold error_line. rewrite !not_elem_of_app. split_and!; try done; try decided.
  intros H. apply join_spaces in H as [H|H]; [done|done|]. by apply words_from_runs.
Qed.

(** A refusal: exit 1, one line on stderr, nothing on stdout. *)
Definition refused (r : ended) : Prop :=
  exit_code r = 1 /\ stdout r = [] /\ exists line, stderr r = [line] /\ 10 ∉ line.

Lemma refuse_refused line : 10 ∉ line -> refused (refuse line).
Proof. intros Hl. split_and!; try done. by exists line. Qed.

Lemma fail_refused code message : 10 ∉ code -> refused (refuse (error_line code message)).
Proof. intros Hc. by apply refuse_refused, one_line. Qed.

Lemma catching_cases {A} (o : outcome exn A) test code : 10 ∉ code ->
  match catching o test code with
  | Ret a => o = Ret a
  | Raise (Returned r) => refused r
  | Raise (Escaped e) => o = Raise e /\ test e = false
  end.
Proof.
  intros Hc. unfold catching. destruct o as [a|e]; [done|]. destruct (test e) eqn:E; [|done].
  by apply fail_refused.
Qed.

Lemma usage_cases {A} (arguments : pystr + A) :
  match usage_or arguments with
  | Ret a => arguments = inr a
  | Raise (Returned r) => refused r
  | Raise (Escaped e) => False
  end.
Proof. destruct arguments as [m|a]; [|done]. apply fail_refused. decided. Qed.
End catching.

(** A literal code holds no line break. *)
Ltac decided := apply (bool_decide_unpack _); vm_compute; exact I.

(** The next [catching] or [usage_or] of a goal, by its three ways out. *)
Ltac catch_step H :=
  match goal with
  | |- context [usage_or ?o] =>
      pose proof (usage_cases o) as H; destruct (usage_or o) as [?|[?|?]]
  | |- context [catching ?t ?o ?h ?c] =>
      pose proof (catching_cases t o h c ltac:(decided)) as H; destruct (catching t o h c) as [?|[?|?]]
  end.
