(* ===== verification/Cache.v ===== *)
(** * Cache: the TTL caches of [core/cache.py]

    [InMemoryTTLCache] (a bounded dict with expiry) and [RedisTTLCache] (a
    fail-open wrapper over a Redis client), both as instances of the interface
    [TTLCache] their clients rely on: what a [get] serves was stored under that
    key by an earlier [set] and has not expired.  A clock reading is an argument;
    the in-memory [set] reads the clock twice, before the purge and for the
    expiry. *)

From S2P Require Import Prelude Errors.
#[local] Open Scope Z_scope.

(** ** The interface *)

(** The [TTLCache] protocol with the promise its clients use.  [live c t k v]: at
    time [t] the cache [c] may still serve [v] for [k]. *)
Class TTLCache (C : Type) : Type := {
  cache_get : float -> pystr -> M exn C (option pybytes);
  cache_set : float -> float -> pystr -> pybytes -> Z -> M exn C unit;
  live : C -> float -> pystr -> pybytes -> Prop;
  cache_get_live : forall t k (c c' : C) v,
    cache_get t k c = (Ret (Some v), c') -> live c t k v;
  cache_get_frame : forall t k (c : C) t' k' v,
    live (cache_get t k c).2 t' k' v -> live c t' k' v;
  cache_set_live : forall t1 t2 k v ttl (c : C) t' k' v',
    live (cache_set t1 t2 k v ttl c).2 t' k' v' ->
    (k' = k /\ v' = v /\ 0 < ttl /\ t' < t2 + flt ttl) \/ live c t' k' v';
  cache_get_raises : forall t k (c : C) e,
    (cache_get t k c).1 = Raise e -> e = CancelledError;
  cache_set_raises : forall t1 t2 k v ttl (c : C) e,
    0 < ttl -> (cache_set t1 t2 k v ttl c).1 = Raise e -> e = CancelledError;
  cache_set_invalid : forall t1 t2 k v ttl (c : C),
    ttl <= 0 -> cache_set t1 t2 k v ttl c = (Raise (ValueError (u "ttl_s must be > 0")), c)
}.

(** ** [InMemoryTTLCache] *)

Module Memory.

Record t : Type := InMemoryTTLCache {
  _max_entries : Z;
  _entries : list (pystr * (float * pybytes))
}.

Definition __init__ (max_entries : Z) : outcome exn t :=
  if max_entries <=? 0 then Raise (ValueError (u "max_entries must be > 0"))
  else Ret (InMemoryTTLCache max_entries []).

Definition set_entries (c : t) (es : list (pystr * (float * pybytes))) : t :=
  InMemoryTTLCache (_max_entries c) es.

Definition get (now : float) (key : pystr) : M exn t (option pybytes) := fun c =>
  match dget key (_entries c) with
  | None => (Ret None, c)
  | Some (expires_at, value) =>
      if expires_at <=? now then (Ret None, set_entries c (ddel key (_entries c)))
      else (Ret (Some value), c)
  end.

(** [del self._entries[k]] for each [k] of [expired_keys]. *)
Definition purge (now : float) (es : list (pystr * (float * pybytes))) :=
  let expired_keys := dkeys (filter (fun e => e.2.1 <= now) es) in
  foldl (fun d k => ddel k d) es expired_keys.

(** [min(self._entries, key=expires_at)]: the first of the minimal entries, as its
    key and its [expires_at]. *)
Fixpoint soonest (best : pystr * float) (es : list (pystr * (float * pybytes)))
    : pystr * float :=
  match es with
  | [] => best
  | (k, (x, _)) :: es' => soonest (if x <? best.2 then (k, x) else best) es'
  end.

Definition evict_soonest (es : list (pystr * (float * pybytes))) :=
  match es with
  | [] => []
  | (k, (x, _)) :: es' => ddel (soonest (k, x) es').1 es
  end.

(** The dict [set] stores into: only a new key at capacity purges and evicts. *)
Definition make_room (c : t) (now : float) (key : pystr) :=
  if bool_decide (key ∉ dkeys (_entries c)) && (_max_entries c <=? py_len (_entries c))
  then
    let purged := purge now (_entries c) in
    if _max_entries c <=? py_len purged then evict_soonest purged else purged
  else _entries c.

Definition set (now stored_at : float) (key : pystr) (value : pybytes) (ttl_s : Z)
    : M exn t unit := fun c =>
  if ttl_s <=? 0 then (Raise (ValueError (u "ttl_s must be > 0")), c)
  else
    (Ret tt, set_entries c
               (dset key (stored_at + flt ttl_s, value) (make_room c now key))).

(** The dict has distinct keys and never more than [max_entries] of them. *)
Definition wf (c : t) : Prop :=
  0 < _max_entries c /\ NoDup (dkeys (_entries c)) /\
  py_len (_entries c) <= _max_entries c.

Definition live (c : t) (now : float) (k : pystr) (v : pybytes) : Prop :=
  exists x, (k, (x, v)) ∈ _entries c /\ now < x.

(** *** Lemmas *)

Lemma foldl_ddel_subset {K V} `{EqDecision K} (ks : list K) (d : list (K * V)) :
  foldl (fun d k => ddel k d) d ks ⊆ d.
Proof.
  revert d. induction ks as [|k ks IH]; intros d; simpl; [done|].
  etrans; [apply IH|apply ddel_subset].
Qed.

Lemma foldl_ddel_NoDup {K V} `{EqDecision K} (ks : list K) (d : list (K * V)) :
  NoDup (dkeys d) -> NoDup (dkeys (foldl (fun d k => ddel k d) d ks)).
Proof. revert d. induction ks; intros d Hd; simpl; auto using ddel_NoDup. Qed.

Lemma foldl_ddel_keys {K V} `{EqDecision K} (ks : list K) (d : list (K * V)) :
  dkeys (foldl (fun d k => ddel k d) d ks) ⊆ dkeys d.
Proof.
  revert d. induction ks as [|k ks IH]; intros d; simpl; [done|].
  etrans; [apply IH|apply ddel_keys_subset].
Qed.

Lemma foldl_ddel_length {K V} `{EqDecision K} (ks : list K) (d : list (K * V)) :
  (length (foldl (fun d k => ddel k d) d ks) <= length d)%nat.
Proof.
  revert d. induction ks as [|k ks IH]; intros d; simpl; [lia|].
  etrans; [apply IH|apply ddel_length_le].
Qed.

Lemma soonest_elem best es :
  soonest best es = best \/ exists v, ((soonest best es).1, ((soonest best es).2, v)) ∈ es.
Proof.
  revert best. induction es as [|[k [x v]] es IH]; intros best; simpl; [by left|].
  destruct (IH (if x <? best.2 then (k, x) else best)) as [->|[v' H]].
  - case_match; [right; exists v; left|by left].
  - right. exists v'. by right.
Qed.

Lemma soonest_min best es :
  (soonest best es).2 <= best.2 /\
  forall k x v, (k, (x, v)) ∈ es -> (soonest best es).2 <= x.
Proof.
  revert best. induction es as [|[k1 [x1 v1]] es IH]; intros best; simpl.
  { split; [lia|]. by intros ??? ?%not_elem_of_nil. }
  destruct (IH (if x1 <? best.2 then (k1, x1) else best)) as [H1 H2].
  assert ((if x1 <? best.2 then (k1, x1) else best).2 <= best.2 /\
          (if x1 <? best.2 then (k1, x1) else best).2 <= x1) as [??].
  { destruct (Z.ltb_spec x1 best.2); simpl; lia. }
  split; [lia|]. intros k x v [[= -> -> ->]|Hin]%elem_of_cons; [lia|by eapply H2].
Qed.

(** The entry eviction removes is in the dict, and no other expires sooner. *)
Lemma evict_soonest_spec es :
  es <> [] ->
  exists k x v, (k, (x, v)) ∈ es /\ evict_soonest es = ddel k es /\
    forall k' x' v', (k', (x', v')) ∈ es -> x <= x'.
Proof.
  destruct es as [|[k [x v]] es]; [done|]. intros _. unfold evict_soonest.
  destruct (soonest_min (k, x) es) as [H1 H2].
  destruct (soonest_elem (k, x) es) as [Hs|[v' Hs]].
  - exists k, x, v. rewrite Hs in *. simpl in *. split_and!; [left|done|].
    intros k' x' v' [[= -> -> ->]|Hin]%elem_of_cons; [lia|by eapply H2].
  - exists (soonest (k, x) es).1, (soonest (k, x) es).2, v'. split_and!; [by right|done|].
    intros k' x' v'' [[= -> -> ->]|Hin]%elem_of_cons; [done|by eapply H2].
Qed.

Lemma evict_soonest_length es : (length (evict_soonest es) = pred (length es))%nat.
Proof.
  destruct (decide (es = [])) as [->|Hne]; [done|].
  destruct (evict_soonest_spec es Hne) as (k & x & v & Hin & -> & _).
  rewrite (ddel_length k es); [done|]. by apply (list_elem_of_fmap_2 fst) in Hin.
Qed.

Lemma evict_soonest_subset es : evict_soonest es ⊆ es.
Proof. destruct es as [|[k [x v]] es]; [done|]. apply ddel_subset. Qed.

Lemma evict_soonest_NoDup es : NoDup (dkeys es) -> NoDup (dkeys (evict_soonest es)).
Proof. destruct es as [|[k [x v]] es]; [done|]. apply ddel_NoDup. Qed.

Lemma dget_foldl_ddel {K V} `{EqDecision K} (ks : list K) k (d : list (K * V)) :
  k ∉ ks -> dget k (foldl (fun d k => ddel k d) d ks) = dget k d.
Proof.
  revert d. induction ks as [|k1 ks IH]; intros d; simpl; [done|].
  intros [Hne Hk]%not_elem_of_cons. rewrite IH by done. by rewrite dget_ddel_ne.
Qed.

Lemma dget_purge now es k x v :
  NoDup (dkeys es) -> dget k es = Some (x, v) -> now < x ->
  dget k (purge now es) = Some (x, v).
Proof.
  intros Hnd Hk Hx. unfold purge. rewrite dget_foldl_ddel; [done|].
  intros ([k' [x' v']] & -> & [Hle Hin]%list_elem_of_filter)%list_elem_of_fmap.
  apply (elem_of_dget _ _ _ Hnd) in Hin. simpl in *. simplify_eq. lia.
Qed.

Lemma purge_length now es : (length (purge now es) <= length es)%nat.
Proof. apply foldl_ddel_length. Qed.

Lemma set_unfold now t2 key v ttl c :
  0 < ttl ->
  set now t2 key v ttl c =
    (Ret tt, set_entries c (dset key (t2 + flt ttl, v) (make_room c now key))).
Proof. intros H. unfold set. by rewrite (proj2 (Z.leb_gt _ _)) by lia. Qed.

Lemma make_room_subset c now key : make_room c now key ⊆ _entries c.
Proof.
  unfold make_room. case_match; [|done].
  assert (purge now (_entries c) ⊆ _entries c) by apply foldl_ddel_subset.
  case_match; [etrans; [apply evict_soonest_subset|done]|done].
Qed.

Lemma make_room_NoDup c now key :
  NoDup (dkeys (_entries c)) -> NoDup (dkeys (make_room c now key)).
Proof.
  intros H. unfold make_room. case_match; [|done].
  assert (NoDup (dkeys (purge now (_entries c)))) by (by apply foldl_ddel_NoDup).
  case_match; [by apply evict_soonest_NoDup|done].
Qed.

Lemma make_room_length c now key :
  wf c -> key ∉ dkeys (_entries c) ->
  py_len (make_room c now key) < _max_entries c.
Proof.
  intros (Hm & Hnd & Hlen) Hk. unfold make_room. rewrite bool_decide_true by done. simpl.
  destruct (Z.leb_spec (_max_entries c) (py_len (_entries c))); [|done].
  pose proof (purge_length now (_entries c)) as Hp.
  destruct (Z.leb_spec (_max_entries c) (py_len (purge now (_entries c)))); [|done].
  unfold py_len in *. rewrite evict_soonest_length. lia.
Qed.

(** *** Properties *)

Lemma get_wf now key c : wf c -> wf (get now key c).2.
Proof.
  intros (Hm & Hnd & Hlen). unfold get.
  destruct (dget key (_entries c)) as [[x v]|]; [|done].
  case_match; [|done]. split_and!; simpl; [done|by apply ddel_NoDup|].
  pose proof (ddel_length_le key (_entries c)). unfold py_len in *. simpl. lia.
Qed.

Lemma set_wf now t2 key v ttl c : wf c -> wf (set now t2 key v ttl c).2.
Proof.
  intros Hwf. pose proof Hwf as (Hm & Hnd & Hlen).
  destruct (Z.leb_spec ttl 0) as [H|H].
  { unfold set. by rewrite (proj2 (Z.leb_le _ _)) by lia. }
  rewrite set_unfold by done. split_and!; simpl; [done|by apply dset_NoDup, make_room_NoDup|].
  unfold py_len.
  destruct (decide (key ∈ dkeys (make_room c now key))) as [Hin|Hin].
  - rewrite dset_length_in by done.
    destruct (decide (key ∈ dkeys (_entries c))) as [Hk|Hk].
    + unfold make_room in *. rewrite bool_decide_false in * by naive_solver.
      done.
    + pose proof (make_room_length c now key Hwf Hk). unfold py_len in *. lia.
  - rewrite dset_length_notin by done.
    destruct (decide (key ∈ dkeys (_entries c))) as [Hk|Hk].
    + exfalso. apply Hin. unfold make_room. rewrite bool_decide_false by naive_solver. done.
    + pose proof (make_room_length c now key Hwf Hk). unfold py_len in *. lia.
Qed.

(** [set] keeps the cache bounded with distinct keys, the stored value is the
    one [get] serves until its expiry, and another entry that has not expired is
    lost only when the cache was still full of unexpired entries after the purge,
    in which case no surviving entry expires sooner. *)
Theorem set_bounded_and_fair now t2 key v ttl c :
  wf c -> 0 < ttl ->
  let c' := (set now t2 key v ttl c).2 in
  wf c' /\
  (forall t, t < t2 + flt ttl -> get t key c' = (Ret (Some v), c')) /\
  (forall k x w, k <> key -> dget k (_entries c) = Some (x, w) -> now < x ->
     dget k (_entries c') = Some (x, w) \/
     ((key ∉ dkeys (_entries c)) /\ py_len (_entries c') = _max_entries c' /\
      forall k' x' w', k' <> key -> dget k' (_entries c') = Some (x', w') -> x <= x')).
Proof.
  intros Hwf Httl c'. pose proof Hwf as (Hm & Hnd & Hlen).
  assert (Hc' : _entries c' = dset key (t2 + flt ttl, v) (make_room c now key))
    by (unfold c'; by rewrite set_unfold).
  split; [by apply set_wf|]. split.
  - intros t Ht. unfold get. rewrite Hc', dget_dset_eq.
    by rewrite (proj2 (Z.leb_gt _ _)) by lia.
  - intros k x w Hne Hk Hx. rewrite Hc', dget_dset_ne by done.
    unfold make_room in *. destruct (bool_decide_reflect (key ∉ dkeys (_entries c)));
      simpl in *; [|by left].
    destruct (Z.leb_spec (_max_entries c) (py_len (_entries c))) as [Hfull|?];
      simpl in *; [|by left].
    pose proof (dget_purge now _ k x w Hnd Hk Hx) as Hp.
    assert (Hpnd : NoDup (dkeys (purge now (_entries c)))) by (by apply foldl_ddel_NoDup).
    pose proof (purge_length now (_entries c)) as Hpl.
    destruct (Z.leb_spec (_max_entries c) (py_len (purge now (_entries c)))) as [Hf|?];
      [|by left].
    destruct (evict_soonest_spec (purge now (_entries c))) as (ke & xe & we & Hin & He & Hmin).
    { intros E. rewrite E in Hp. done. }
    apply (elem_of_dget _ _ _ Hpnd) in Hin. rewrite He.
    destruct (decide (ke = k)) as [->|Hke]; [|left; by rewrite dget_ddel_ne].
    right. assert (x = xe) as -> by congruence. split; [done|]. split.
    + unfold py_len in *. rewrite dset_length_notin.
      * rewrite <- (ddel_length k) by eauto with py. unfold c'. rewrite set_unfold by done.
        simpl. lia.
      * intros Hbad%ddel_keys_subset%foldl_ddel_keys. done.
    + intros k' x' w' Hk' Hg.
      rewrite dget_dset_ne in Hg by done.
      apply dget_elem, ddel_subset in Hg. by eapply Hmin.
Qed.

(** A full cache of two: one entry has expired, a third key is stored. *)
Lemma set_bounded_and_fair_witness :
  let c := InMemoryTTLCache 2 [(u "a", (flt 5, [1])); (u "b", (flt 50, [2]))] in
  wf (set (flt 10) (flt 11) (u "c") [3] 15 c).2.
Proof.
  refine (proj1 (set_bounded_and_fair (flt 10) (flt 11) (u "c") [3] 15 _ _ _)); [|lia].
  split_and!; [done| |done]. apply (bool_decide_unpack _). vm_compute. exact I.
Defined.

(** *** The interface's laws *)

Lemma get_is_live now k c c' v : get now k c = (Ret (Some v), c') -> live c now k v.
Proof.
  unfold get, live. destruct (dget k (_entries c)) as [[x w]|] eqn:E; [|done].
  destruct (Z.leb_spec x now); intros; simplify_eq. eauto with py.
Qed.

Lemma get_keeps_live now k c t' k' v : live (get now k c).2 t' k' v -> live c t' k' v.
Proof.
  unfold get, live. destruct (dget k (_entries c)) as [[x w]|]; [|done].
  case_match; [|done]. simpl. intros (y & Hin%ddel_subset & Hy). eauto.
Qed.

Lemma set_live now t2 k v ttl c t' k' v' :
  live (set now t2 k v ttl c).2 t' k' v' ->
  (k' = k /\ v' = v /\ 0 < ttl /\ t' < t2 + flt ttl) \/ live c t' k' v'.
Proof.
  destruct (Z.leb_spec ttl 0).
  { unfold set. rewrite (proj2 (Z.leb_le _ _)) by lia. by right. }
  rewrite set_unfold by done. unfold live. simpl.
  intros (x & [[-> [= -> ->]]|Hin]%dset_elem & Hx); [by left|right].
  apply make_room_subset in Hin. eauto.
Qed.

Lemma get_raises now k c e : (get now k c).1 = Raise e -> e = CancelledError.
Proof. unfold get. by repeat case_match. Qed.

Lemma set_raises now t2 k v ttl c e :
  0 < ttl -> (set now t2 k v ttl c).1 = Raise e -> e = CancelledError.
Proof. intros Ht. by rewrite set_unfold. Qed.

Lemma set_invalid now t2 k v ttl c :
  ttl <= 0 -> set now t2 k v ttl c = (Raise (ValueError (u "ttl_s must be > 0")), c).
Proof. intros. unfold set. by rewrite (proj2 (Z.leb_le _ _)) by lia. Qed.

End Memory.

#[export] Instance memory_cache : TTLCache Memory.t := {
  cache_get := Memory.get;
  cache_set := Memory.set;
  live := Memory.live;
  cache_get_live now k c c' v := Memory.get_is_live now k c c' v;
  cache_get_frame := Memory.get_keeps_live;
  cache_set_live := Memory.set_live;
  cache_get_raises := Memory.get_raises;
  cache_set_raises := Memory.set_raises;
  cache_set_invalid := Memory.set_invalid
}.

(** ** [RedisTTLCache] *)

(** [except (RedisError, OSError)]; [TimeoutError] is an [OSError]. *)
Definition is_redis_failure (e : exn) : bool :=
  match e with RedisError | OSError | TimeoutError => true | _ => false end.

(** The Redis client's [GET] and [SET key value PX ms], with what the server and
    the driver document: a value is served only before its expiry in milliseconds,
    a call may fail, and [SET] replaces the value of its key alone.  A failed [SET]
    may or may not have been applied by the server. *)
Class RedisKV (R : Type) : Type := {
  redis_get : float -> pystr -> M exn R (option pybytes);
  redis_set : float -> pystr -> pybytes -> Z -> M exn R unit;
  stored : R -> float -> pystr -> pybytes -> Prop;
  redis_get_fails : forall t k (r : R) e,
    (redis_get t k r).1 = Raise e -> is_redis_failure e = true \/ e = CancelledError;
  redis_set_fails : forall t k v px (r : R) e,
    (redis_set t k v px r).1 = Raise e -> is_redis_failure e = true \/ e = CancelledError;
  redis_get_stored : forall t k (r r' : R) v,
    redis_get t k r = (Ret (Some v), r') -> stored r t k v;
  redis_get_frame : forall t k (r : R) t' k' v,
    stored (redis_get t k r).2 t' k' v -> stored r t' k' v;
  redis_set_stored : forall t k v px (r : R) t' k' v',
    stored (redis_set t k v px r).2 t' k' v' ->
    (k' = k /\ v' = v /\ t' * 1000 < t * 1000 + flt px) \/ stored r t' k' v'
}.

Module RedisCache.
Section client.
Context {R : Type} `{RedisKV R}.

Definition REDIS_CACHE_KEY_PREFIX : pystr := u "sentinelbrief:cache:".

Record t : Type := RedisTTLCache { _redis : R; _key_prefix : pystr }.

(** Run a call of the client inside the cache object. *)
Definition on_redis {A} (m : M exn R A) : M exn t A := fun c =>
  let '(o, r) := m (_redis c) in (o, RedisTTLCache r (_key_prefix c)).

Definition get (now : float) (key : pystr) : M exn t (option pybytes) := fun c =>
  try_except (on_redis (redis_get now (_key_prefix c ++ key)))
    (fun exc => if is_redis_failure exc then Some (mret None) else None) c.

Definition set (now : float) (key : pystr) (value : pybytes) (ttl_s : Z)
    : M exn t unit := fun c =>
  if ttl_s <=? 0 then (Raise (ValueError (u "ttl_s must be > 0")), c)
  else
    try_except (on_redis (redis_set now (_key_prefix c ++ key) value (ttl_s * 1000)))
      (fun exc => if is_redis_failure exc then Some (mret tt) else None) c.

Definition live (c : t) (now : float) (k : pystr) (v : pybytes) : Prop :=
  stored (_redis c) now (_key_prefix c ++ k) v.

Lemma get_state now key c :
  (get now key c).2 =
    RedisTTLCache (redis_get now (_key_prefix c ++ key) (_redis c)).2 (_key_prefix c).
Proof.
  unfold get, try_except, on_redis.
  destruct (redis_get now (_key_prefix c ++ key) (_redis c)) as [[v|e] r]; [done|].
  simpl. by destruct (is_redis_failure e).
Qed.

Lemma redis_get_is_live now k c c' v : get now k c = (Ret (Some v), c') -> live c now k v.
Proof.
  unfold get, try_except, on_redis, live.
  destruct (redis_get now (_key_prefix c ++ k) (_redis c)) as [[w|e] r] eqn:E.
  - intros; simplify_eq. by eapply redis_get_stored.
  - destruct (is_redis_failure e); intros; simplify_eq.
Qed.

Lemma redis_get_keeps_live now k c t' k' v : live (get now k c).2 t' k' v -> live c t' k' v.
Proof. unfold live. rewrite get_state. simpl. apply redis_get_frame. Qed.

Lemma set_state now key value ttl_s c :
  0 < ttl_s ->
  (set now key value ttl_s c).2 =
    RedisTTLCache
      (redis_set now (_key_prefix c ++ key) value (ttl_s * 1000) (_redis c)).2
      (_key_prefix c).
Proof.
  intros Ht. unfold set. rewrite (proj2 (Z.leb_gt _ _)) by lia.
  unfold try_except, on_redis.
  destruct (redis_set now _ value _ (_redis c)) as [[v|e] r]; [done|].
  simpl. by destruct (is_redis_failure e).
Qed.

Lemma redis_set_invalid now k v ttl c :
  ttl <= 0 -> set now k v ttl c = (Raise (ValueError (u "ttl_s must be > 0")), c).
Proof. intros. unfold set. by rewrite (proj2 (Z.leb_le _ _)) by lia. Qed.

Lemma redis_set_live now k v ttl c t' k' v' :
  live (set now k v ttl c).2 t' k' v' ->
  (k' = k /\ v' = v /\ 0 < ttl /\ t' < now + flt ttl) \/ live c t' k' v'.
Proof.
  destruct (Z.leb_spec ttl 0); [rewrite redis_set_invalid by done; by right|].
  unfold live. rewrite set_state by done. simpl.
  intros [(Hk%app_inv_head & -> & Ht)|Hs]%redis_set_stored; [left|by right].
  split_and!; [done|done|done|]. unfold flt in *. lia.
Qed.

Lemma redis_get_outcome now k c :
  match (redis_get now (_key_prefix c ++ k) (_redis c)).1 with
  | Ret o => (get now k c).1 = Ret o
  | Raise CancelledError => (get now k c).1 = Raise CancelledError
  | Raise _ => (get now k c).1 = Ret None
  end.
Proof.
  unfold get, try_except, on_redis.
  pose proof (redis_get_fails now (_key_prefix c ++ k) (_redis c)) as Hf.
  destruct (redis_get now (_key_prefix c ++ k) (_redis c)) as [[w|e] r]; [done|].
  simpl in *. destruct (Hf e eq_refl) as [He| ->]; [|done].
  rewrite He. by destruct e.
Qed.

Lemma redis_get_raises now k c e : (get now k c).1 = Raise e -> e = CancelledError.
Proof.
  pose proof (redis_get_outcome now k c) as Ho.
  destruct (redis_get now _ (_redis c)).1 as [o|e']; [by rewrite Ho|].
  intros E. rewrite E in Ho. destruct e'; congruence.
Qed.

Lemma redis_set_raises now k v ttl c e :
  0 < ttl -> (set now k v ttl c).1 = Raise e -> e = CancelledError.
Proof.
  intros Ht. unfold set, try_except, on_redis. rewrite (proj2 (Z.leb_gt _ _)) by lia.
  pose proof (redis_set_fails now (_key_prefix c ++ k) v (ttl * 1000) (_redis c)) as Hf.
  destruct (redis_set now _ v _ (_redis c)) as [[w|e'] r]; [done|].
  simpl in *. destruct (Hf e' eq_refl) as [-> | ->]; simpl; [done|].
  intros; by simplify_eq.
Qed.

(** Redis cannot make a cache operation fail: [get] answers a miss and [set]
    with a positive TTL returns whenever the client raised anything but a
    cancellation, and a value the client returned is served as it is. *)
Theorem redis_cache_fail_open now k v ttl c :
  match (redis_get now (_key_prefix c ++ k) (_redis c)).1 with
  | Ret o => (get now k c).1 = Ret o
  | Raise CancelledError => (get now k c).1 = Raise CancelledError
  | Raise _ => (get now k c).1 = Ret None
  end /\
  (forall e, (set now k v ttl c).1 = Raise e ->
     (ttl <= 0 /\ e = ValueError (u "ttl_s must be > 0")) \/ e = CancelledError).
Proof.
  split; [apply redis_get_outcome|].
  intros e. destruct (Z.leb_spec ttl 0).
  - rewrite redis_set_invalid by done. intros; simplify_eq/=. by left.
  - intros E. right. by eapply redis_set_raises.
Qed.
End client.

Arguments t R : clear implicits.
End RedisCache.

#[export] Instance redis_cache {R} `{RedisKV R} : TTLCache (RedisCache.t R) := {
  cache_get := RedisCache.get;
  cache_set _ stored_at := RedisCache.set stored_at;
  live := RedisCache.live;
  cache_get_live now k c c' v := RedisCache.redis_get_is_live now k c c' v;
  cache_get_frame := RedisCache.redis_get_keeps_live;
  cache_set_live _ t2 := RedisCache.redis_set_live t2;
  cache_get_raises := RedisCache.redis_get_raises;
  cache_set_raises _ t2 := RedisCache.redis_set_raises t2;
  cache_set_invalid _ t2 := RedisCache.redis_set_invalid t2
}.

(** A client for the witnesses: a dict of values with their expiry in thousandths
    of the clock's unit, and a switch that takes the server down. *)
Record toy_redis : Type := ToyRedis {
  toy_store : list (pystr * (Z * pybytes));
  toy_down : bool
}.

#[export] Program Instance toy_redis_kv : RedisKV toy_redis := {
  redis_get t k r :=
    if toy_down r then (Raise RedisError, r)
    else match dget k (toy_store r) with
         | Some (x, v) => if t * 1000 <? x then (Ret (Some v), r) else (Ret None, r)
         | None => (Ret None, r)
         end;
  redis_set t k v px r :=
    if toy_down r then (Raise OSError, r)
    else (Ret tt, ToyRedis (dset k (t * 1000 + flt px, v) (toy_store r)) false);
  stored r t k v := exists x, (k, (x, v)) ∈ toy_store r /\ t * 1000 < x
}.
Next Obligation. intros t k r e. simpl. repeat case_match; intros; simplify_eq/=. by left. Qed.
Next Obligation. intros t k v px r e. simpl. repeat case_match; intros; simplify_eq/=. by left. Qed.
Next Obligation.
  intros t k r r' v. simpl. repeat case_match; intros; simplify_eq/=; py_reflect; eauto with py.
Qed.
Next Obligation. intros t k r t' k' v. simpl. destruct (toy_down r), (dget k (toy_store r)) as [[x w]|]; simpl; try case_match; auto. Qed.
Next Obligation.
  intros t k v px r t' k' v'. simpl. destruct (toy_down r); simpl; [intros Hs; right; exact Hs|].
  intros (x & [[-> [= -> ->]]|Hin]%dset_elem & Hx); [by left|right; eauto].
Qed.

Lemma redis_cache_fail_open_witness :
  (RedisCache.get 0 (u "k") (RedisCache.RedisTTLCache (ToyRedis [] true) (u "p:"))).1
  = Ret None.
Proof.
  exact (proj1 (RedisCache.redis_cache_fail_open 0 (u "k") [] 5
                  (RedisCache.RedisTTLCache (ToyRedis [] true) (u "p:")))).
Defined.
