(* ===== verification/Json.v ===== *)
(** * Json: JSON values and the [json.dumps] the program calls

    A value is what [json.loads] builds or [json.dumps] is given, a [dict] as an
    insertion-ordered association list with distinct keys.  [JOther] stands for an
    object [json.dumps] does not know ([TypeError]).  [float.__repr__] is a
    parameter. *)

From S2P Require Import Prelude Errors.
#[local] Open Scope Z_scope.

#[warnings="-register-all"]
Inductive json : Type :=
| JNull
| JBool (b : bool)
| JInt (z : Z)
| JFloat (x : float)
| JStr (s : pystr)
| JArr (l : list json)
| JObj (kvs : list (pystr * json))
| JOther.

Abbreviation jobj := (list (pystr * json)) (only parsing).

(** [float.__repr__] of a finite float: digits, signs, a point, an exponent. *)
Class FloatRepr : Type := {
  float_repr : float -> pystr;
  float_repr_chars : forall x c, c ∈ float_repr x -> 43 <= c <= 101
}.

(** [json.loads]: [None] for a [JSONDecodeError]. *)
Class JsonLoads : Type := json_loads : pystr -> option json.

(** The keyword arguments of [json.dumps]. *)
Record dumps_args : Type := DumpsArgs {
  sort_keys : bool;
  ensure_ascii : bool;
  indent : option Z;
  item_separator : pystr;
  key_separator : pystr
}.

(** The separators' defaults depend on [indent]. *)
Definition default_args : dumps_args := DumpsArgs false true None (u ", ") (u ": ").
Definition indent_args (n : Z) : dumps_args := DumpsArgs false true (Some n) (u ",") (u ": ").

Definition hex_digit (n : Z) : Z := if n <? 10 then 48 + n else 87 + n.
Definition u_escape (c : Z) : pystr :=
  u "\u" ++ [hex_digit (Z.land (Z.shiftr c 12) 15); hex_digit (Z.land (Z.shiftr c 8) 15);
             hex_digit (Z.land (Z.shiftr c 4) 15); hex_digit (Z.land c 15)].

(** One character of a string literal: the short escapes, [\uXXXX] for the other
    control characters and, under [ensure_ascii], for what is not printable ASCII
    (a surrogate pair beyond the basic plane). *)
Definition escape_char (ascii : bool) (c : Z) : pystr :=
  if c =? 34 then [92; 34]
  else if c =? 92 then [92; 92]
  else if c =? 10 then u "\n"
  else if c =? 13 then u "\r"
  else if c =? 9 then u "\t"
  else if c =? 12 then u "\f"
  else if c =? 8 then u "\b"
  else if c <? 32 then u_escape c
  else if negb ascii || (c <=? 126) then [c]
  else if c <=? 65535 then u_escape c
  else u_escape (Z.lor 55296 (Z.land (Z.shiftr (c - 65536) 10) 1023))
       ++ u_escape (Z.lor 56320 (Z.land (c - 65536) 1023)).

Definition escape_str (ascii : bool) (s : pystr) : pystr :=
  [34] ++ concat (map (escape_char ascii) s) ++ [34].

#[global] Arguments escape_str : simpl never.

(** [sorted(items, key=key)]. *)
Definition key_le {A} (a b : pystr * A) : Prop := str_leb a.1 b.1 = true.
#[export] Instance key_le_dec {A} : RelDecision (@key_le A).
Proof. intros a b. unfold key_le. apply _. Defined.

Definition sort_items {A} (kvs : list (pystr * A)) : list (pystr * A) :=
  merge_sort key_le kvs.

(** Separator and line breaks of a container at depth [lvl]. *)
Definition newline (a : dumps_args) (lvl : nat) : pystr :=
  match indent a with
  | Some n => [10] ++ repeat 32 (Z.to_nat n * lvl)
  | None => []
  end.

Definition container (a : dumps_args) (lvl : nat) (o c : Z) (items : list pystr) : pystr :=
  match items with
  | [] => [o; c]
  | _ => [o] ++ newline a (S lvl)
         ++ py_join (item_separator a ++ newline a (S lvl)) items
         ++ newline a lvl ++ [c]
  end.

Section dumps.
Context `{FloatRepr}.

Fixpoint encode (a : dumps_args) (lvl : nat) (j : json) : pystr :=
  match j with
  | JNull | JOther => u "null"
  | JBool true => u "true"
  | JBool false => u "false"
  | JInt z => str_of_Z z
  | JFloat x => float_repr x
  | JStr s => escape_str (ensure_ascii a) s
  | JArr l => container a lvl 91 93 (map (encode a (S lvl)) l)
  | JObj kvs =>
      let items := map (fun kv => (kv.1, encode a (S lvl) kv.2)) kvs in
      container a lvl 123 125
        (map (fun kv => escape_str (ensure_ascii a) kv.1 ++ key_separator a ++ kv.2)
             (if sort_keys a then sort_items items else items))
  end.

Fixpoint serializable (j : json) : bool :=
  match j with
  | JOther => false
  | JArr l => forallb serializable l
  | JObj kvs => forallb (fun kv => serializable kv.2) kvs
  | _ => true
  end.

Definition dumps (a : dumps_args) (j : json) : outcome exn pystr :=
  if serializable j then Ret (encode a 0 j) else Raise TypeError.
End dumps.

(** ** Induction and lemmas *)

Section json_ind.
Variable P : json -> Prop.
Hypothesis Hnull : P JNull.
Hypothesis Hbool : forall b, P (JBool b).
Hypothesis Hint : forall z, P (JInt z).
Hypothesis Hfloat : forall x, P (JFloat x).
Hypothesis Hstr : forall s, P (JStr s).
Hypothesis Harr : forall l, Forall P l -> P (JArr l).
Hypothesis Hobj : forall kvs, Forall (fun kv => P kv.2) kvs -> P (JObj kvs).
Hypothesis Hother : P JOther.

Fixpoint json_nested_ind (j : json) : P j :=
  match j with
  | JNull => Hnull
  | JBool b => Hbool b
  | JInt z => Hint z
  | JFloat x => Hfloat x
  | JStr s => Hstr s
  | JArr l => Harr l ((fix go l := match l return Forall P l with
                      | [] => List.Forall_nil _
                      | x :: l' => List.Forall_cons _ _ _ (json_nested_ind x) (go l')
                      end) l)
  | JObj kvs => Hobj kvs ((fix go l := match l return Forall (fun kv => P kv.2) l with
                      | [] => List.Forall_nil _
                      | x :: l' => List.Forall_cons _ _ _ (json_nested_ind x.2) (go l')
                      end) kvs)
  | JOther => Hother
  end.
End json_ind.

Lemma str_leb_total a b : str_leb a b = true \/ str_leb b a = true.
Proof.
  revert b. induction a as [|c a IH]; intros [|d b]; simpl; auto.
  destruct (Z.lt_total c d) as [?|[->|?]].
  - left. by rewrite (proj2 (Z.ltb_lt _ _)).
  - rewrite Z.ltb_irrefl, Z.eqb_refl. simpl. apply IH.
  - right. by rewrite (proj2 (Z.ltb_lt _ _)).
Qed.

Lemma str_leb_cons c a d b :
  str_leb (c :: a) (d :: b) = true <-> c < d \/ (c = d /\ str_leb a b = true).
Proof.
  simpl. rewrite orb_true_iff, andb_true_iff, Z.ltb_lt, Z.eqb_eq. done.
Qed.

Lemma str_leb_trans a b c :
  str_leb a b = true -> str_leb b c = true -> str_leb a c = true.
Proof.
  revert b c. induction a as [|x a IH]; intros [|y b] [|z c]; try done.
  rewrite !str_leb_cons. intros [?|[-> ?]] [?|[-> ?]]; [left; lia|by left|by left|].
  right. split; [done|]. by eapply IH.
Qed.

Lemma str_leb_antisym a b : str_leb a b = true -> str_leb b a = true -> a = b.
Proof.
  revert b. induction a as [|x a IH]; intros [|y b]; try done.
  rewrite !str_leb_cons. intros [?|[-> ?]] [?|[? ?]]; try lia. f_equal. auto.
Qed.

#[export] Instance key_le_total {A} : Total (@key_le A).
Proof. intros a b. apply str_leb_total. Qed.
#[export] Instance key_le_trans {A} : Transitive (@key_le A).
Proof. intros a b c. apply str_leb_trans. Qed.

Lemma sort_items_perm {A} (kvs : list (pystr * A)) : sort_items kvs ≡ₚ kvs.
Proof. apply merge_sort_Permutation. Qed.

(** Sorting by distinct keys forgets the insertion order. *)
Lemma sort_items_canonical {A} (l1 l2 : list (pystr * A)) :
  NoDup l1.*1 -> l1 ≡ₚ l2 -> sort_items l1 = sort_items l2.
Proof.
  intros Hnd Hp.
  assert (Hs : forall l : list (pystr * A), StronglySorted key_le (sort_items l)).
  { intros l. apply StronglySorted_merge_sort; apply _. }
  eapply StronglySorted_unique_strong; [|apply Hs|apply Hs|].
  - intros [k1 x1] [k2 x2] H1 H2 Hle1 Hle2.
    rewrite sort_items_perm in H1. rewrite sort_items_perm, <- Hp in H2.
    assert (k1 = k2) as <- by (by apply str_leb_antisym).
    apply (elem_of_dget _ _ _ Hnd) in H1. apply (elem_of_dget _ _ _ Hnd) in H2. by simplify_eq.
  - by rewrite !sort_items_perm.
Qed.

Lemma map_keys {A B} (f : A -> B) (l : list (pystr * A)) :
  (map (fun kv => (kv.1, f kv.2)) l).*1 = l.*1.
Proof. induction l as [|[k x] l IH]; [done|]. simpl. by f_equal. Qed.

(** *** The characters of the output *)

Section chars.
Context `{FloatRepr}.
Variable P : Z -> Prop.
Hypothesis Hprint : forall c, 32 <= c <= 126 -> P c.

Lemma ascii_chars (s : pystr) :
  forallb (fun c => (32 <=? c) && (c <=? 126)) s = true -> Forall P s.
Proof.
  rewrite forallb_forall, Forall_forall. intros Hs c Hc.
  apply list_elem_of_In, Hs, andb_prop in Hc as [?%Z.leb_le ?%Z.leb_le]. by apply Hprint.
Qed.

Lemma hex_digit_chars n : P (hex_digit (Z.land n 15)).
Proof.
  assert (0 <= Z.land n 15 < 16)
    by (change 15 with (Z.ones 4); rewrite Z.land_ones by done; by apply Z.mod_pos_bound).
  unfold hex_digit. case_match; py_reflect; apply Hprint; lia.
Qed.

Lemma u_escape_chars c : Forall P (u_escape c).
Proof.
  unfold u_escape. apply Forall_app.
  split; [by apply ascii_chars|]. eauto 10 using hex_digit_chars.
Qed.

(** What an escaped character leaves: printable ASCII, or the character itself
    when non-ASCII is allowed through. *)
Lemma escape_char_chars ascii c :
  (ascii = false -> 32 <= c -> P c) -> Forall P (escape_char ascii c).
Proof.
  intros Hc. unfold escape_char.
  repeat (case_match; [first [by apply ascii_chars | apply u_escape_chars | idtac]|]).
  all: py_reflect; try (apply Forall_app; split); try apply u_escape_chars.
  apply Forall_singleton. destruct ascii; [apply Hprint|apply Hc; [done|]]; naive_solver lia.
Qed.

Lemma escape_str_chars ascii s :
  (ascii = false -> forall c, c ∈ s -> 32 <= c -> P c) -> Forall P (escape_str ascii s).
Proof.
  intros Hs. unfold escape_str. repeat (apply Forall_app; split); try by apply ascii_chars.
  apply Forall_concat, Forall_fmap, Forall_forall. intros c Hc. simpl.
  apply escape_char_chars. auto.
Qed.

Lemma str_of_Z_chars z : Forall P (str_of_Z z).
Proof.
  apply Forall_forall. intros c Hc%str_of_Z_elem. apply Hprint. lia.
Qed.

Lemma py_join_chars sep parts :
  Forall P sep -> Forall (Forall P) parts -> Forall P (py_join sep parts).
Proof.
  intros Hsep. induction 1 as [|p ps Hp Hps IH]; simpl; [done|].
  destruct ps; [done|]. repeat (apply Forall_app; split); auto.
Qed.

Lemma container_chars a lvl o c items :
  indent a = None -> Forall P (item_separator a) -> P o -> P c ->
  Forall (Forall P) items -> Forall P (container a lvl o c items).
Proof.
  intros Hi Hsep Ho Hc Hitems. unfold container, newline. rewrite Hi.
  destruct items as [|p ps]; [by repeat constructor|].
  rewrite app_nil_r. rewrite !Forall_app. split_and!; try by repeat constructor.
  by apply py_join_chars.
Qed.

(** Every character of a one-line serialization satisfies [P] when the printable
    ASCII ones do and, with [ensure_ascii=False], every character from 32 on. *)
Lemma encode_chars a lvl j :
  indent a = None -> Forall P (item_separator a) -> Forall P (key_separator a) ->
  (ensure_ascii a = false -> forall c, 32 <= c -> P c) ->
  Forall P (encode a lvl j).
Proof.
  intros Hi Hs Hk Hc. revert lvl. induction j using json_nested_ind; intros lvl; simpl.
  - by apply ascii_chars.
  - destruct b; by apply ascii_chars.
  - apply str_of_Z_chars.
  - apply Forall_forall. intros c Hx%float_repr_chars. apply Hprint. lia.
  - apply escape_str_chars. auto.
  - apply container_chars; [done..|apply Hprint; lia|apply Hprint; lia|].
    apply Forall_fmap. eapply Forall_impl; [done|]. simpl. auto.
  - apply container_chars; [done..|apply Hprint; lia|apply Hprint; lia|].
    assert (Hitems : Forall (fun kv : pystr * pystr => Forall P kv.2)
              (map (fun kv => (kv.1, encode a (S lvl) kv.2)) kvs)).
    { apply Forall_fmap. eapply Forall_impl; [done|]. simpl. auto. }
    apply Forall_fmap.
    eapply (Forall_impl (fun kv : pystr * pystr => Forall P kv.2)).
    + case_match; [|done]. by rewrite sort_items_perm.
    + intros [k v] Hv. change (Forall P (escape_str (ensure_ascii a) k ++ key_separator a ++ v)).
      rewrite !Forall_app. split_and!; [apply escape_str_chars; auto|done|done].
  - by apply ascii_chars.
Qed.
End chars.

(** The two one-line formats the program writes hold no control character, hence
    no line break; with [ensure_ascii] they are printable ASCII. *)
Lemma encode_one_line `{FloatRepr} a lvl j :
  indent a = None -> Forall (fun c => 32 <= c) (item_separator a) ->
  Forall (fun c => 32 <= c) (key_separator a) ->
  Forall (fun c => 32 <= c) (encode a lvl j).
Proof. intros. apply encode_chars; auto with lia. Qed.

Lemma encode_ascii `{FloatRepr} a lvl j :
  indent a = None -> ensure_ascii a = true ->
  Forall (fun c => 32 <= c <= 126) (item_separator a) ->
  Forall (fun c => 32 <= c <= 126) (key_separator a) ->
  Forall (fun c => 32 <= c <= 126) (encode a lvl j).
Proof. intros Hi Ha. intros. apply encode_chars; auto. by rewrite Ha. Qed.

(** Under [sort_keys] the serialization does not depend on the insertion order. *)
Lemma encode_order_irrelevant `{FloatRepr} a lvl (d1 d2 : list (pystr * json)) :
  sort_keys a = true -> NoDup d1.*1 -> d1 ≡ₚ d2 ->
  encode a lvl (JObj d1) = encode a lvl (JObj d2).
Proof.
  intros Hs Hnd Hp. simpl. rewrite Hs.
  rewrite (sort_items_canonical _ (map (fun kv => (kv.1, encode a (S lvl) kv.2)) d2)); [done| |].
  - by rewrite map_keys.
  - by apply Permutation_map.
Qed.

(** A concrete [float.__repr__] for closed evaluations. *)
Definition toy_float_repr : FloatRepr.
Proof.
  refine {| float_repr := str_of_Z |}. intros x c Hc%str_of_Z_elem. lia.
Defined.
