(* ===== verification/Datetime.v ===== *)
(** * Datetime: [datetime] values and their ISO form

    A [datetime] is a wall-clock reading in microseconds since 1970-01-01 with an
    optional UTC offset (a naive one has none).  The civil calendar is computed from
    the day number; [isoformat] of a UTC reading is decoded back, which makes it
    injective. *)

From S2P Require Import Prelude Errors.
#[local] Open Scope Z_scope.

Record datetime : Type := Datetime {
  local_us : Z;
  utcoffset : option Z
}.
#[export] Instance datetime_eq_dec : EqDecision datetime.
Proof. solve_decision. Defined.

(** The zone of the host, used by [astimezone] on a naive reading. *)
Class LocalZone : Type := local_offset : Z -> Z.

Definition US_PER_SECOND : Z := 1000000.
Definition US_PER_DAY : Z := 86400 * US_PER_SECOND.

Definition is_aware (d : datetime) : bool :=
  match utcoffset d with Some _ => true | None => false end.

(** The instant an aware reading denotes; the order of two readings is the order of
    this key when both are aware or both naive, a [TypeError] otherwise. *)
Definition instant (d : datetime) : Z := local_us d - default 0 (utcoffset d).

(** [d.astimezone(UTC)], as microseconds of UTC. *)
Definition astimezone_utc `{LocalZone} (d : datetime) : Z :=
  match utcoffset d with
  | Some off => local_us d - off
  | None => local_us d - local_offset (local_us d)
  end.

(** Sorting by [timestamp]: the comparisons connect every element of a list of two
    or more, so one between an aware and a naive reading is made when both kinds
    occur. *)
Definition comparable (ds : list datetime) : bool :=
  forallb is_aware ds || forallb (fun d => negb (is_aware d)) ds.

(** ** The civil calendar *)

Definition civil_from_days (days : Z) : Z * Z * Z :=
  let z := days + 719468 in
  let era := z / 146097 in
  let doe := z mod 146097 in
  let yoe := (doe - doe / 1460 + doe / 36524 - doe / 146096) / 365 in
  let doy := doe - (365 * yoe + yoe / 4 - yoe / 100) in
  let mp := (5 * doy + 2) / 153 in
  let d := doy - (153 * mp + 2) / 5 + 1 in
  let m := if mp <? 10 then mp + 3 else mp - 9 in
  (yoe + era * 400 + (if m <=? 2 then 1 else 0), m, d).

Definition days_from_civil (y m d : Z) : Z :=
  let y' := if m <=? 2 then y - 1 else y in
  let era := y' / 400 in
  let yoe := y' mod 400 in
  let mp := if 2 <? m then m - 3 else m + 9 in
  let doy := (153 * mp + 2) / 5 + d - 1 in
  let doe := yoe * 365 + yoe / 4 - yoe / 100 + doy in
  era * 146097 + doe - 719468.

(** Every day of the 400-year cycle: the year of the era, the day of the year, the
    month and the day are in range. *)
Lemma yoe_range doe yoe :
  0 <= doe < 146097 ->
  yoe = (doe - doe / 1460 + doe / 36524 - doe / 146096) / 365 -> 0 <= yoe < 400.
Proof. intros. Z.to_euclidean_division_equations; lia. Qed.

Lemma doy_range doe yoe :
  0 <= doe < 146097 ->
  yoe = (doe - doe / 1460 + doe / 36524 - doe / 146096) / 365 ->
  0 <= doe - (365 * yoe + yoe / 4 - yoe / 100) <= 365.
Proof. intros. Z.to_euclidean_division_equations; lia. Qed.

Lemma mp_range doy mp d :
  0 <= doy <= 365 -> mp = (5 * doy + 2) / 153 -> d = doy - (153 * mp + 2) / 5 + 1 ->
  0 <= mp < 12 /\ 1 <= d <= 31.
Proof. intros. Z.to_euclidean_division_equations; lia. Qed.

Lemma civil_ranges days y m d :
  civil_from_days days = (y, m, d) -> 1 <= m <= 12 /\ 1 <= d <= 31.
Proof.
  unfold civil_from_days. intros H. simplify_eq.
  pose proof (Z.mod_pos_bound (days + 719468) 146097 eq_refl) as Hdoe.
  pose proof (doy_range _ _ Hdoe eq_refl) as Hdoy.
  destruct (mp_range _ _ _ Hdoy eq_refl eq_refl) as [Hmp Hd].
  split; [|exact Hd]. case_match; py_reflect; lia.
Qed.

Lemma days_from_civil_from_days days y m d :
  civil_from_days days = (y, m, d) -> days_from_civil y m d = days.
Proof.
  unfold civil_from_days, days_from_civil. intros H.
  pose proof (Z.mod_pos_bound (days + 719468) 146097 eq_refl) as Hdoe.
  pose proof (yoe_range _ _ Hdoe eq_refl) as Hyoe.
  pose proof (doy_range _ _ Hdoe eq_refl) as Hdoy.
  destruct (mp_range _ _ _ Hdoy eq_refl eq_refl) as [Hmp _].
  pose proof (Z.div_mod (days + 719468) 146097 ltac:(done)) as Hera.
  set (era := (days + 719468) / 146097) in *.
  set (doe := (days + 719468) mod 146097) in *.
  set (yoe := (doe - doe / 1460 + doe / 36524 - doe / 146096) / 365) in *.
  set (mp := (5 * (doe - (365 * yoe + yoe / 4 - yoe / 100)) + 2) / 153) in *.
  injection H as Hy Hm Hd.
  assert (Hy' : (if m <=? 2 then y - 1 else y) = yoe + era * 400).
  { subst m y. destruct (Z.leb_spec (if mp <? 10 then mp + 3 else mp - 9) 2); lia. }
  assert (Hmp' : (if 2 <? m then m - 3 else m + 9) = mp).
  { subst m. destruct (Z.ltb_spec mp 10); [rewrite (proj2 (Z.ltb_lt _ _)) by lia; lia|].
    rewrite (proj2 (Z.ltb_ge _ _)) by lia. lia. }
  rewrite Hy', Hmp'.
  rewrite Z.div_add, Z.mod_add, (Z.div_small yoe), (Z.mod_small yoe) by lia. lia.
Qed.

(** ** [isoformat] of a UTC reading *)

(** [f"{n:0{w}d}"] of a number of at most [w] digits, and back. *)
Fixpoint digits (w : nat) (n : Z) : pystr :=
  match w with O => [] | S w' => digits w' (n / 10) ++ [48 + n mod 10] end.
Definition undigits (s : pystr) : Z := foldl (fun n c => 10 * n + (c - 48)) 0 s.

Lemma undigits_digits w n : 0 <= n < 10 ^ Z.of_nat w -> undigits (digits w n) = n.
Proof.
  unfold undigits. revert n. induction w as [|w IH]; intros n Hn; [simpl in *; lia|].
  rewrite Nat2Z.inj_succ, Z.pow_succ_r in Hn by lia.
  simpl. rewrite foldl_app, IH; simpl; [pose proof (Z.div_mod n 10); lia|].
  split; [apply Z.div_pos; lia|apply Z.div_lt_upper_bound; lia].
Qed.

Lemma digits_length w n : length (digits w n) = w.
Proof. revert n. induction w as [|w IH]; intros n; simpl; [done|]. rewrite length_app, IH. simpl. lia. Qed.

Lemma digits_chars w n c : c ∈ digits w n -> 48 <= c <= 57.
Proof.
  revert n. induction w as [|w IH]; intros n; simpl; [by intros ?%not_elem_of_nil|].
  intros [?%IH| ->%list_elem_of_singleton]%elem_of_app; [done|].
  pose proof (Z.mod_pos_bound n 10). lia.
Qed.

Definition isoformat_utc (us : Z) : pystr :=
  let '(y, m, d) := civil_from_days (us / US_PER_DAY) in
  let t := us mod US_PER_DAY in
  digits 4 y ++ u "-" ++ digits 2 m ++ u "-" ++ digits 2 d ++ u "T" ++
  digits 2 (t / 3600000000) ++ u ":" ++ digits 2 (t / 60000000 mod 60) ++ u ":" ++
  digits 2 (t / US_PER_SECOND mod 60) ++
  (if t mod US_PER_SECOND =? 0 then [] else u "." ++ digits 6 (t mod US_PER_SECOND)) ++
  u "+00:00".

(** [datetime.now(UTC).date().isoformat()]. *)
Definition date_isoformat (us : Z) : pystr :=
  let '(y, m, d) := civil_from_days (us / US_PER_DAY) in
  digits 4 y ++ u "-" ++ digits 2 m ++ u "-" ++ digits 2 d.

(** Read the fields back from their columns. *)
Definition slice (i n : nat) (s : pystr) : pystr := take n (drop i s).
Definition parse_iso_utc (s : pystr) : Z :=
  days_from_civil (undigits (slice 0 4 s)) (undigits (slice 5 2 s)) (undigits (slice 8 2 s))
    * US_PER_DAY
  + undigits (slice 11 2 s) * 3600000000 + undigits (slice 14 2 s) * 60000000
  + undigits (slice 17 2 s) * US_PER_SECOND
  + (if nth 19 s 0 =? 46 then undigits (slice 20 6 s) else 0).

(** The years [datetime] has. *)
Definition in_range (us : Z) : Prop :=
  let '(y, _, _) := civil_from_days (us / US_PER_DAY) in 1 <= y <= 9999.

Lemma time_fields t :
  0 <= t < US_PER_DAY ->
  t / 3600000000 < 24 /\
  t / 3600000000 * 3600000000 + t / 60000000 mod 60 * 60000000
    + t / US_PER_SECOND mod 60 * US_PER_SECOND + t mod US_PER_SECOND = t.
Proof. unfold US_PER_DAY, US_PER_SECOND. intros. Z.to_euclidean_division_equations; lia. Qed.

Lemma parse_isoformat us : in_range us -> parse_iso_utc (isoformat_utc us) = us.
Proof.
  unfold in_range, isoformat_utc.
  destruct (civil_from_days (us / US_PER_DAY)) as [[y m] d] eqn:Hc. intros Hy.
  destruct (civil_ranges _ _ _ _ Hc) as [Hm Hd].
  apply days_from_civil_from_days in Hc.
  pose proof (Z.mod_pos_bound us US_PER_DAY eq_refl) as Ht.
  pose proof (Z.div_mod us US_PER_DAY ltac:(done)) as Hus.
  set (t := us mod US_PER_DAY) in *.
  destruct (time_fields t Ht) as [Hh Hsum].
  pose proof (Z.mod_pos_bound t US_PER_SECOND eq_refl) as Hf.
  pose proof (Z.mod_pos_bound (t / 60000000) 60 eq_refl) as Hmin.
  pose proof (Z.mod_pos_bound (t / US_PER_SECOND) 60 eq_refl) as Hsec.
  pose proof (Z.div_pos t 3600000000 ltac:(lia) eq_refl) as Hh0.
  assert (H6 : t mod US_PER_SECOND < 10 ^ 6) by (unfold US_PER_SECOND in *; lia).
  unfold parse_iso_utc.
  destruct (Z.eqb_spec (t mod US_PER_SECOND) 0) as [Hz|Hz];
    lazymatch goal with |- context [slice 0 4 ?iso] =>
      first [change (nth 19 iso 0 =? 46) with false | change (nth 19 iso 0 =? 46) with true];
      change (slice 0 4 iso) with (digits 4 y); change (slice 5 2 iso) with (digits 2 m);
      change (slice 8 2 iso) with (digits 2 d);
      change (slice 11 2 iso) with (digits 2 (t / 3600000000));
      change (slice 14 2 iso) with (digits 2 (t / 60000000 mod 60));
      change (slice 17 2 iso) with (digits 2 (t / US_PER_SECOND mod 60));
      try change (slice 20 6 iso) with (digits 6 (t mod US_PER_SECOND))
    end;
    rewrite !undigits_digits by (simpl; lia); lia.
Qed.

Lemma isoformat_utc_inj a b :
  in_range a -> in_range b -> isoformat_utc a = isoformat_utc b -> a = b.
Proof. intros Ha Hb E. rewrite <- (parse_isoformat a), <- (parse_isoformat b) by done. by rewrite E. Qed.

(** The characters of an ISO reading: digits, [-], [:], [.], [+] and [T]. *)
Lemma isoformat_utc_chars us c : c ∈ isoformat_utc us -> 43 <= c <= 84.
Proof.
  unfold isoformat_utc. destruct (civil_from_days (us / US_PER_DAY)) as [[y m] d].
  set (t := us mod US_PER_DAY).
  assert (Hu : forall s, forallb (fun c => (43 <=? c) && (c <=? 84)) s = true ->
                         c ∈ s -> 43 <= c <= 84).
  { intros s Hs Hc%list_elem_of_In. rewrite forallb_forall in Hs.
    apply Hs, andb_prop in Hc as [?%Z.leb_le ?%Z.leb_le]. done. }
  rewrite !elem_of_app. intros Hc. destruct_or! Hc;
    try (apply digits_chars in Hc; lia); try by apply Hu in Hc.
  case_match; [by apply not_elem_of_nil in Hc|].
  apply elem_of_app in Hc as [Hc|Hc]; [by apply Hu in Hc|apply digits_chars in Hc; lia].
Qed.

(** 2024-02-29T23:59:59.000001+00:00 *)
Example isoformat_leap_day :
  isoformat_utc 1709251199000001 = u "2024-02-29T23:59:59.000001+00:00".
Proof. vm_compute. reflexivity. Qed.

(** Two readings have one date text exactly when they are of one UTC day. *)
Lemma date_isoformat_inj a b :
  in_range a -> in_range b -> date_isoformat a = date_isoformat b ->
  a / US_PER_DAY = b / US_PER_DAY.
Proof.
  unfold in_range, date_isoformat.
  destruct (civil_from_days (a / US_PER_DAY)) as [[ya ma] da] eqn:Ha.
  destruct (civil_from_days (b / US_PER_DAY)) as [[yb mb] db] eqn:Hb.
  intros Hya Hyb E.
  destruct (civil_ranges _ _ _ _ Ha), (civil_ranges _ _ _ _ Hb).
  apply days_from_civil_from_days in Ha, Hb. rewrite <- Ha, <- Hb.
  apply app_inj_1 in E as [E1 E]; [|by rewrite !digits_length].
  apply (app_inj_1 (u "-") (u "-")) in E as [_ E]; [|done].
  apply app_inj_1 in E as [E2 E]; [|by rewrite !digits_length].
  apply (app_inj_1 (u "-") (u "-")) in E as [_ E3]; [|done].
  apply (f_equal undigits) in E1, E2, E3.
  rewrite !undigits_digits in E1 by (simpl; lia).
  rewrite !undigits_digits in E2 by (simpl; lia).
  rewrite !undigits_digits in E3 by (simpl; lia). congruence.
Qed.
