(* ===== verification/Text.v ===== *)
(** * Text: UTF-8 and the numeric tests of the HTTP boundary

    [str.encode("utf-8")] and [bytes.decode("utf-8")] (both strict), [str.isascii],
    [str.isdigit] and [int] on header values, [hmac.compare_digest] on strings. *)

From S2P Require Import Prelude Errors Datetime.
#[local] Open Scope Z_scope.

Definition UnicodeEncodeError : exn := OtherException (u "UnicodeEncodeError").

(** ** UTF-8 *)

Definition is_surrogate (c : Z) : bool := (55296 <=? c) && (c <=? 57343).
(** A code point of a [str]; the scalar values are those UTF-8 encodes. *)
Definition is_scalar (c : Z) : bool := (0 <=? c) && (c <=? 1114111) && negb (is_surrogate c).

Definition utf8_char (c : Z) : option pybytes :=
  if negb (is_scalar c) then None
  else if c <? 128 then Some [c]
  else if c <? 2048 then Some [192 + c / 64; 128 + c mod 64]
  else if c <? 65536 then Some [224 + c / 4096; 128 + c / 64 mod 64; 128 + c mod 64]
  else Some [240 + c / 262144; 128 + c / 4096 mod 64; 128 + c / 64 mod 64; 128 + c mod 64].

Fixpoint utf8_encode (s : pystr) : outcome exn pybytes :=
  match s with
  | [] => Ret []
  | c :: s' =>
      match utf8_char c with
      | Some b => rest ← utf8_encode s'; Ret (b ++ rest)
      | None => Raise UnicodeEncodeError
      end
  end.

(** A continuation byte, and the payload of a well-formed sequence. *)
Definition is_cont (b : Z) : bool := (128 <=? b) && (b <? 192).

(** The code point at the head of a byte string and what follows it: the shortest
    encodings of the scalar values only. *)
Definition utf8_next (bs : pybytes) : option (Z * pybytes) :=
  match bs with
  | b :: bs1 =>
      if (0 <=? b) && (b <? 128) then Some (b, bs1)
      else
        let check (lo : Z) (c : Z) (rest : pybytes) :=
          if (lo <=? c) && is_scalar c then Some (c, rest) else None in
        match bs1 with
        | c1 :: bs2 =>
            if negb (is_cont c1) then None
            else if (192 <=? b) && (b <? 224) then
              check 128 ((b - 192) * 64 + (c1 - 128)) bs2
            else
              match bs2 with
              | c2 :: bs3 =>
                  if negb (is_cont c2) then None
                  else if (224 <=? b) && (b <? 240) then
                    check 2048 ((b - 224) * 4096 + (c1 - 128) * 64 + (c2 - 128)) bs3
                  else
                    match bs3 with
                    | c3 :: bs4 =>
                        if negb (is_cont c3) then None
                        else if (240 <=? b) && (b <? 248) then
                          check 65536 ((b - 240) * 262144 + (c1 - 128) * 4096
                                       + (c2 - 128) * 64 + (c3 - 128)) bs4
                        else None
                    | [] => None
                    end
              | [] => None
              end
        | [] => None
        end
  | [] => None
  end.

(** Every step consumes a byte, so the length is enough fuel. *)
Fixpoint utf8_decode_aux (fuel : nat) (bs : pybytes) : outcome exn pystr :=
  match bs with
  | [] => Ret []
  | _ =>
      match fuel with
      | O => Raise UnicodeDecodeError
      | S fuel' =>
          match utf8_next bs with
          | Some (c, rest) => s ← utf8_decode_aux fuel' rest; Ret (c :: s)
          | None => Raise UnicodeDecodeError
          end
      end
  end.
Definition utf8_decode (bs : pybytes) : outcome exn pystr := utf8_decode_aux (length bs) bs.

(** Decide the comparisons of a goal whose outcome the context settles. *)
Ltac z_decide :=
  repeat match goal with
    | |- context [?a <=? ?b] => destruct (Z.leb_spec a b); [|exfalso; lia]
    | |- context [?a <=? ?b] => destruct (Z.leb_spec a b); [exfalso; lia|]
    | |- context [?a <? ?b] => destruct (Z.ltb_spec a b); [|exfalso; lia]
    | |- context [?a <? ?b] => destruct (Z.ltb_spec a b); [exfalso; lia|]
    end.

(** Base-64 digits. *)
Lemma div64 c n : 0 <= c < 64 * n -> 0 <= c / 64 < n /\ 0 <= c mod 64 < 64 /\ c = 64 * (c / 64) + c mod 64.
Proof.
  intros H. split; [split; [apply Z.div_pos|apply Z.div_lt_upper_bound]; lia|].
  split; [by apply Z.mod_pos_bound|by apply Z.div_mod].
Qed.

Lemma utf8_next_char c b rest : utf8_char c = Some b -> utf8_next (b ++ rest) = Some (c, rest).
Proof.
  unfold utf8_char. destruct (is_scalar c) eqn:Hs; [|done]. simpl.
  assert (Hr : 0 <= c <= 1114111) by (unfold is_scalar in Hs; py_reflect; lia).
  replace (c / 4096) with (c / 64 / 64) by (by rewrite Z.div_div).
  replace (c / 262144) with (c / 64 / 64 / 64) by (by rewrite !Z.div_div).
  destruct (Z.ltb_spec c 128); [|destruct (Z.ltb_spec c 2048); [|destruct (Z.ltb_spec c 65536)]];
    intros [= <-]; cbn [app]; unfold utf8_next, is_cont.
  - by z_decide.
  - destruct (div64 c 32) as (? & ? & E); [lia|]. z_decide. simpl.
    replace ((192 + c / 64 - 192) * 64 + (128 + c mod 64 - 128)) with c by lia.
    rewrite Hs. by z_decide.
  - destruct (div64 c 1024) as (Hc & ? & E); [lia|].
    destruct (div64 (c / 64) 16) as (? & ? & E'); [lia|]. z_decide. simpl.
    match goal with |- context [is_scalar ?x] => replace x with c by lia end.
    rewrite Hs. by z_decide.
  - destruct (div64 c 32768) as (Hc & ? & E); [lia|].
    destruct (div64 (c / 64) 512) as (Hc' & ? & E'); [lia|].
    destruct (div64 (c / 64 / 64) 8) as (? & ? & E''); [lia|].
    assert (c / 64 / 64 / 64 <= 4) by lia. z_decide. simpl.
    match goal with |- context [is_scalar ?x] => replace x with c by lia end.
    rewrite Hs. by z_decide.
Qed.

Lemma utf8_char_nonempty c b : utf8_char c = Some b -> b <> [].
Proof. unfold utf8_char. repeat case_match; intros; by simplify_eq. Qed.

(** Decoding reads back what was encoded. *)
Lemma utf8_decode_encode s bs : utf8_encode s = Ret bs -> utf8_decode bs = Ret s.
Proof.
  unfold utf8_decode. enough (H : forall n, (length bs <= n)%nat -> utf8_encode s = Ret bs ->
    utf8_decode_aux n bs = Ret s) by (by apply H).
  revert bs. induction s as [|c s IH]; intros bs n Hn; simpl.
  { intros [= <-]. by destruct n. }
  destruct (utf8_char c) as [b|] eqn:Hc; [|done]. unfold mbind, outcome_bind.
  destruct (utf8_encode s) as [rest|] eqn:Hs; [|done]. intros [= <-].
  pose proof (utf8_char_nonempty _ _ Hc) as Hb. rewrite length_app in Hn.
  pose proof (utf8_next_char _ _ rest Hc) as Hnext.
  destruct b as [|x b]; [done|]. destruct n as [|n]; [simpl in Hn; lia|]. simpl in Hn |- *.
  simpl in Hnext. rewrite Hnext. unfold mbind, outcome_bind. rewrite IH; [done|lia|done].
Qed.

(** Only a surrogate stops the encoder. *)
Lemma utf8_encode_total s :
  (exists bs, utf8_encode s = Ret bs) <-> Forall (fun c => is_scalar c = true) s.
Proof.
  induction s as [|c s IH]; simpl; [split; [done|by eexists]|].
  rewrite Forall_cons, <- IH. unfold utf8_char at 1.
  destruct (is_scalar c) eqn:Hc; simpl; [|naive_solver].
  assert (Hb : exists b, utf8_char c = Some b)
    by (unfold utf8_char; rewrite Hc; simpl; repeat case_match; eauto).
  unfold utf8_char in Hb. rewrite Hc in Hb. simpl in Hb. destruct Hb as [b ->].
  unfold mbind, outcome_bind. destruct (utf8_encode s); naive_solver.
Qed.

(** ** Header values *)

Definition is_ascii (s : pystr) : bool := forallb (fun c => c <? 128) s.

Definition is_ascii_digit (c : Z) : bool := (48 <=? c) && (c <=? 57).
(** [str.isdigit] of a header, decoded as latin-1: the superscripts count as digits. *)
Definition isdigit (s : pystr) : bool :=
  match s with
  | [] => false
  | _ => forallb (fun c => is_ascii_digit c || (c =? 178) || (c =? 179) || (c =? 185)) s
  end.

(** [int(s)] of a text that passed [isdigit]: a superscript is not a decimal digit, and
    CPython refuses more than 4300 digits. *)
Definition int_of_digits (s : pystr) : outcome exn Z :=
  if negb (forallb is_ascii_digit s) then Raise (ValueError [])
  else if 4300 <? py_len s then Raise (ValueError [])
  else Ret (undigits s).

(** [hmac.compare_digest] of two strings: both must be ASCII. *)
Definition compare_digest (a b : pystr) : outcome exn bool :=
  if is_ascii a && is_ascii b then Ret (bool_decide (a = b)) else Raise TypeError.
