(* ===== verification/JsonParse.v ===== *)
(** * JsonParse: the decoder of [json.loads]

    The scanner of CPython's [json] module on a [str]: white space, string literals with
    their escapes and surrogate pairs, numbers, the three constants and the containers.
    The float type of the model holds finite values only, so [NaN], [Infinity] and a float
    literal that overflows are refused here where CPython answers a non-finite float, and
    so is an integer literal of more than 4300 digits, for which it raises a [ValueError]
    of its own; the recursion limit is not modelled.  [float(text)] is a parameter. *)

From S2P Require Import Prelude Errors Json Datetime Text.
#[local] Open Scope Z_scope.

(** ** Lexical classes *)

Definition is_ws (c : Z) : bool := (c =? 32) || (c =? 9) || (c =? 10) || (c =? 13).
Definition is_digit (c : Z) : bool := (48 <=? c) && (c <=? 57).

Fixpoint skip_ws (s : pystr) : pystr :=
  match s with c :: r => if is_ws c then skip_ws r else s | [] => [] end.

(** The longest prefix of digits, and the rest. *)
Fixpoint span_digits (s : pystr) : pystr * pystr :=
  match s with
  | c :: r => if is_digit c then let '(d, t) := span_digits r in (c :: d, t) else ([], s)
  | [] => ([], [])
  end.

Definition hex_value (c : Z) : option Z :=
  if is_digit c then Some (c - 48)
  else if (97 <=? c) && (c <=? 102) then Some (c - 87)
  else if (65 <=? c) && (c <=? 70) then Some (c - 55)
  else None.

Definition hex4 (a b c d : Z) : option Z :=
  x ← hex_value a; y ← hex_value b; z ← hex_value c; w ← hex_value d;
  Some (((x * 16 + y) * 16 + z) * 16 + w).

(** ** Strings *)

(** The character a one-letter escape stands for. *)
Definition unescape (e : Z) : option Z :=
  dget e [(34, 34); (92, 92); (47, 47); (98, 8); (102, 12); (110, 10); (114, 13); (116, 9)].

Definition is_high (c : Z) : bool := (55296 <=? c) && (c <=? 56319).
Definition is_low (c : Z) : bool := (56320 <=? c) && (c <=? 57343).
Definition join_surrogates (h l : Z) : Z := 65536 + (h - 55296) * 1024 + (l - 56320).

Definition cons_char (c : Z) (o : option (pystr * pystr)) : option (pystr * pystr) :=
  '(s, r) ← o; Some (c :: s, r).

(** What follows the opening quote: the string and what follows its closing quote. *)
Fixpoint scan_string (s : pystr) : option (pystr * pystr) :=
  match s with
  | [] => None
  | c :: r =>
      if c =? 34 then Some ([], r)
      else if c =? 92 then
        match r with
        | [] => None
        | e :: r1 =>
            if e =? 117 then
              match r1 with
              | h1 :: h2 :: h3 :: h4 :: r2 =>
                  match hex4 h1 h2 h3 h4 with
                  | None => None
                  | Some x =>
                      let alone := cons_char x (scan_string r2) in
                      match r2 with
                      | b :: v :: l1 :: l2 :: l3 :: l4 :: r3 =>
                          if is_high x && (b =? 92) && (v =? 117) then
                            match hex4 l1 l2 l3 l4 with
                            | None => None
                            | Some y =>
                                if is_low y then cons_char (join_surrogates x y) (scan_string r3)
                                else alone
                            end
                          else alone
                      | _ => alone
                      end
                  end
              | _ => None
              end
            else match unescape e with
                 | Some x => cons_char x (scan_string r1)
                 | None => None
                 end
        end
      else if c <? 32 then None
      else cons_char c (scan_string r)
  end.

(** ** Numbers *)

(** [float(text)] of a float literal, [None] for an infinity; a [repr] is a float literal
    (a fraction or an exponent) that reads back as its float. *)
Definition split_sign (s : pystr) : pystr * pystr :=
  match s with c :: r => if c =? 45 then ([c], r) else ([], s) | [] => ([], []) end.

(** The integer part: a zero, or digits that do not start with one. *)
Definition scan_int (s : pystr) : option (pystr * pystr) :=
  match s with
  | c :: r => if c =? 48 then Some ([c], r)
              else if is_digit c then Some (span_digits s) else None
  | [] => None
  end.

Definition scan_frac (s : pystr) : pystr * pystr :=
  match s with
  | c :: r =>
      if c =? 46 then
        match span_digits r with ([], _) => ([], s) | (d, t) => (c :: d, t) end
      else ([], s)
  | [] => ([], [])
  end.

Definition split_exp_sign (s : pystr) : pystr * pystr :=
  match s with
  | c :: r => if (c =? 45) || (c =? 43) then ([c], r) else ([], s)
  | [] => ([], [])
  end.

Definition scan_exp (s : pystr) : pystr * pystr :=
  match s with
  | c :: r =>
      if (c =? 101) || (c =? 69) then
        let '(sg, r') := split_exp_sign r in
        match span_digits r' with ([], _) => ([], s) | (d, t) => (c :: sg ++ d, t) end
      else ([], s)
  | [] => ([], [])
  end.

(** The literal at the head of a text: its integer part with the sign, its fraction and
    exponent, and the rest. *)
Definition scan_number (s : pystr) : option (pystr * pystr * pystr) :=
  let '(sg, s1) := split_sign s in
  '(digits, s2) ← scan_int s1;
  let '(frac, s3) := scan_frac s2 in
  let '(ex, s4) := scan_exp s3 in
  Some (sg ++ digits, frac ++ ex, s4).

Definition int_value (literal : pystr) : Z :=
  let '(sg, digits) := split_sign literal in
  if bool_decide (sg = []) then undigits digits else - undigits digits.

Class FloatParse `{FloatRepr} : Type := {
  float_of : pystr -> option float;
  float_of_repr : forall x, float_of (float_repr x) = Some x;
  repr_literal : forall x, exists i f,
    scan_number (float_repr x) = Some (i, f, []) /\ f <> []
}.

(** ** Values *)

(** The elements of a container after its opening bracket: [elem]s separated by commas. *)
Fixpoint scan_items {A} (elem : pystr -> option (A * pystr)) (close : Z) (fuel : nat)
    (s : pystr) : option (list A * pystr) :=
  match fuel with
  | O => None
  | S n =>
      '(x, r) ← elem s;
      match skip_ws r with
      | c :: r' =>
          if c =? close then Some ([x], r')
          else if c =? 44 then
            '(xs, r'') ← scan_items elem close n (skip_ws r'); Some (x :: xs, r'')
          else None
      | [] => None
      end
  end.

(** A container: empty, or its elements. *)
Definition scan_container {A} (elem : pystr -> option (A * pystr)) (close : Z) (fuel : nat)
    (s : pystr) : option (list A * pystr) :=
  match skip_ws s with
  | c :: r => if c =? close then Some ([], r) else scan_items elem close fuel (c :: r)
  | [] => None
  end.

(** A member of an object: a string, a colon, a value. *)
Definition scan_member {A} (value : pystr -> option (A * pystr)) (s : pystr)
    : option ((pystr * A) * pystr) :=
  match s with
  | c :: r =>
      if c =? 34 then
        '(k, r1) ← scan_string r;
        match skip_ws r1 with
        | d :: r2 => if d =? 58 then '(v, r3) ← value (skip_ws r2); Some ((k, v), r3) else None
        | [] => None
        end
      else None
  | [] => None
  end.

Definition dict_of {A} (kvs : list (pystr * A)) : list (pystr * A) :=
  foldl (fun d kv => dset kv.1 kv.2 d) [] kvs.

(** A constant of the grammar at the head of [s]. *)
Definition constants : list (pystr * json) :=
  [(u "null", JNull); (u "true", JBool true); (u "false", JBool false)].
Definition scan_constant (s : pystr) : option (json * pystr) :=
  match find (fun kv => prefixb kv.1 s) constants with
  | Some (k, v) => Some (v, drop (length k) s)
  | None => None
  end.

Section decoder.
Context `{FloatParse}.

Definition MAX_INT_DIGITS : Z := 4300.

Definition scan_numeral (s : pystr) : option (json * pystr) :=
  '(i, f, r) ← scan_number s;
  if bool_decide (f = []) then
    if MAX_INT_DIGITS <? py_len (split_sign i).2 then None else Some (JInt (int_value i), r)
  else x ← float_of (i ++ f); Some (JFloat x, r).

Fixpoint scan_once (fuel : nat) (s : pystr) : option (json * pystr) :=
  match fuel with
  | O => None
  | S n =>
      match s with
      | [] => None
      | c :: r =>
          if c =? 34 then '(t, r') ← scan_string r; Some (JStr t, r')
          else if c =? 123 then
            '(kvs, r') ← scan_container (scan_member (scan_once n)) 125 n r;
            Some (JObj (dict_of kvs), r')
          else if c =? 91 then
            '(l, r') ← scan_container (scan_once n) 93 n r; Some (JArr l, r')
          else match scan_constant s with
               | Some x => Some x
               | None => scan_numeral s
               end
      end
  end.

(** [json.loads(s)] of a [str]: a text that starts with a byte-order mark is refused, and
    so is one that goes on after its value. *)
Definition loads_within (fuel : nat) (s : pystr) : option json :=
  if bool_decide (head s = Some 65279) then None
  else
    '(v, r) ← scan_once fuel (skip_ws s);
    match skip_ws r with [] => Some v | _ => None end.

(** Every step consumes a character, so the length is enough fuel. *)
Definition loads (s : pystr) : option json := loads_within (length s) s.
End decoder.

#[export] Instance stdlib_loads `{FloatParse} : JsonLoads := loads.

(** ** Decimal literals *)

Lemma undigits_snoc ds c : undigits (ds ++ [c]) = 10 * undigits ds + (c - 48).
Proof. unfold undigits. by rewrite foldl_app. Qed.

(** A digit string with no leading zero is at least as large as its length says. *)
Definition plain_digits (ds : pystr) : Prop :=
  Forall (fun c => is_digit c = true) ds /\ (ds = [48] \/ exists c r, ds = c :: r /\ c <> 48).

Lemma pretty_N_char_digit x : (x < 10)%N ->
  Z.of_N (Ascii.N_of_ascii (pretty_N_char x)) = 48 + Z.of_N x.
Proof.
  intros H. assert (x = 0 \/ x = 1 \/ x = 2 \/ x = 3 \/ x = 4 \/ x = 5 \/ x = 6 \/ x = 7
    \/ x = 8 \/ x = 9)%N as Hx by lia. destruct_or! Hx; subst; reflexivity.
Qed.

Lemma pretty_N_go_digits x s :
  exists ds, u (pretty_N_go x s) = ds ++ u s /\
    Forall (fun c => is_digit c = true) ds /\ undigits ds = Z.of_N x /\
    match ds with [] => x = 0%N | c :: _ => c <> 48 end.
Proof.
  revert s. induction (N.lt_wf_0 x) as [x _ IH]; intros s.
  destruct (decide (x = 0)%N) as [->|Hx]; [exists []; by rewrite pretty_N_go_0|].
  rewrite pretty_N_go_step by lia.
  destruct (IH (x / 10)%N ltac:(apply N.div_lt; lia) (String (pretty_N_char (x mod 10)) s))
    as (ds & E & Hds & Hv & Hh). rewrite E.
  pose proof (N.mod_lt x 10 ltac:(done)) as Hm. pose proof (N.div_mod x 10 ltac:(done)) as Hd.
  set (m := (x mod 10)%N) in *. set (q := (x / 10)%N) in *. clearbody m q. clear E.
  assert (Hlast : is_digit (48 + Z.of_N m) = true)
    by (unfold is_digit; apply andb_true_iff; rewrite !Z.leb_le; lia).
  exists (ds ++ [48 + Z.of_N m]).
  rewrite u_String, pretty_N_char_digit, undigits_snoc, <- app_assoc by done.
  split_and!; [done|apply Forall_app; split; [done|by apply Forall_singleton]|lia|].
  destruct ds as [|c ds]; simpl; [|done]. lia.
Qed.

Lemma str_of_Z_shape z :
  exists sg ds, str_of_Z z = sg ++ ds /\ plain_digits ds /\
    ((sg = [] /\ undigits ds = z) \/ (sg = [45] /\ undigits ds = - z)).
Proof.
  assert (Hp : forall p, exists ds, u (pretty (N.pos p)) = ds /\ plain_digits ds /\
                          undigits ds = Z.pos p).
  { intros p. unfold pretty, pretty_N. rewrite decide_False by done.
    destruct (pretty_N_go_digits (N.pos p) "") as (ds & -> & Hds & Hv & Hh).
    exists ds. change (u "") with (@nil Z). rewrite app_nil_r.
    split_and!; [done|split; [done|]|done]. destruct ds as [|c r]; [done|]. right. by exists c, r. }
  unfold str_of_Z. destruct z as [|p|p].
  - exists [], [48]. split_and!; [done| |by left]. split; [by repeat constructor|by left].
  - destruct (Hp p) as (ds & E & Hd & Hv). exists [], ds. split_and!; [exact E|done|by left].
  - destruct (Hp p) as (ds & E & Hd & Hv). exists [45], ds.
    split_and!; [|done|right; split; [done|lia]].
    change (u (pretty (Z.neg p))) with (45 :: u (pretty (N.pos p))). by rewrite E.
Qed.

Lemma span_digits_all ds : Forall (fun c => is_digit c = true) ds -> span_digits ds = (ds, []).
Proof. induction 1 as [|c ds Hc _ IH]; simpl; [done|]. by rewrite Hc, IH. Qed.

Lemma digit_range c : is_digit c = true -> 48 <= c <= 57.
Proof. unfold is_digit. intros. py_reflect. lia. Qed.

Lemma split_sign_digits ds : plain_digits ds -> split_sign ds = ([], ds).
Proof.
  intros [Hd _]. destruct Hd as [|c ds Hc%digit_range _]; [done|]. simpl.
  by rewrite (proj2 (Z.eqb_neq _ _)) by lia.
Qed.

Lemma scan_int_digits ds : plain_digits ds -> scan_int ds = Some (ds, []).
Proof.
  intros [Hd [->|(c & r & -> & Hc)]]; [done|]. unfold scan_int.
  rewrite (proj2 (Z.eqb_neq _ _)) by done.
  rewrite (span_digits_all _ Hd). inversion_clear Hd as [|?? Hc']. by rewrite Hc'.
Qed.

Lemma sign_of_plain sg ds :
  plain_digits ds -> sg = [] \/ sg = [45] -> split_sign (sg ++ ds) = (sg, ds).
Proof. intros Hd [-> | ->]; [by apply split_sign_digits|done]. Qed.

Lemma scan_number_int z :
  scan_number (str_of_Z z) = Some (str_of_Z z, [], []) /\ int_value (str_of_Z z) = z.
Proof.
  destruct (str_of_Z_shape z) as (sg & ds & -> & Hd & Hs).
  assert (E : split_sign (sg ++ ds) = (sg, ds))
    by (apply sign_of_plain; [done|]; destruct Hs as [[-> _]|[-> _]]; auto).
  unfold scan_number, int_value. rewrite E, (scan_int_digits _ Hd). split; [done|].
  destruct Hs as [[-> ?]|[-> ?]]; [rewrite bool_decide_true by done|rewrite bool_decide_false by done]; lia.
Qed.

(** The digits of a bounded integer. *)
Lemma undigits_lower c r : Forall (fun c => is_digit c = true) (c :: r) -> c <> 48 ->
  10 ^ Z.of_nat (length r) <= undigits (c :: r).
Proof.
  intros H Hc. induction r as [|d r IH] using rev_ind.
  - inversion_clear H as [|?? Hd%digit_range]. unfold undigits. simpl. lia.
  - change (c :: r ++ [d]) with ((c :: r) ++ [d]) in *.
    apply Forall_app in H as [H Hd%Forall_singleton%digit_range].
    rewrite undigits_snoc, length_app, Nat.add_comm. simpl length.
    rewrite Nat2Z.inj_add, Z.pow_add_r by lia. specialize (IH H). lia.
Qed.

Definition int_digits (z : Z) : Z := py_len (split_sign (str_of_Z z)).2.

Lemma int_digits_bound z k : 0 < k -> Z.abs z < 10 ^ k -> int_digits z <= k.
Proof.
  intros Hk Hz. unfold int_digits.
  destruct (str_of_Z_shape z) as (sg & ds & -> & Hd & Hs).
  rewrite sign_of_plain by (destruct Hs as [[-> _]|[-> _]]; auto). simpl.
  assert (Hv : undigits ds < 10 ^ k) by (destruct Hs as [[_ ?]|[_ ?]]; lia).
  destruct Hd as [Hd [->|(c & r & -> & Hc)]]; [unfold py_len; simpl; lia|].
  pose proof (undigits_lower c r Hd Hc) as Hl. unfold py_len. simpl length.
  assert (Z.of_nat (length r) < k) by (apply (Z.pow_lt_mono_r_iff 10); lia). lia.
Qed.

(** ** Literals before a delimiter *)

(** What may follow a value in a text: nothing, white space, a comma, a closing bracket. *)
Definition delimited (rest : pystr) : Prop :=
  match rest with [] => True | c :: _ => is_ws c = true \/ c = 44 \/ c = 93 \/ c = 125 end.

Lemma delimited_head c rest :
  delimited (c :: rest) ->
  is_digit c = false /\ c <> 43 /\ c <> 45 /\ c <> 46 /\ c <> 69 /\ c <> 101.
Proof.
  intros H. assert (Hc : c = 32 \/ c = 9 \/ c = 10 \/ c = 13 \/ c = 44 \/ c = 93 \/ c = 125).
  { destruct H as [H|H]; [|lia]. unfold is_ws in H. py_reflect. lia. }
  destruct_or! Hc; subst; split_and!; done.
Qed.

(** A scanner that splits a text splits it the same way before a delimiter. *)
Definition stable_split (f : pystr -> pystr * pystr) : Prop :=
  forall s a t rest, delimited rest -> f s = (a, t) -> f (s ++ rest) = (a, t ++ rest).

Lemma span_digits_stable : stable_split span_digits.
Proof.
  intros s a t rest Hr. revert a t. induction s as [|c s IH]; intros a t; simpl.
  - intros [= <- <-]. destruct rest as [|d rest]; [done|].
    apply delimited_head in Hr as [Hd _]. simpl. by rewrite Hd.
  - destruct (is_digit c); [|by intros [= <- <-]].
    destruct (span_digits s) as [d r]. intros [= <- <-]. by rewrite (IH d r).
Qed.

Lemma scan_frac_stable : stable_split scan_frac.
Proof.
  intros s a t rest Hr. unfold scan_frac. destruct s as [|c s]; simpl.
  - intros [= <- <-]. destruct rest as [|d rest]; [done|].
    apply delimited_head in Hr as (_ & _ & _ & Hd & _). by rewrite (proj2 (Z.eqb_neq _ _)).
  - destruct (c =? 46); [|by intros [= <- <-]].
    destruct (span_digits s) as [d r] eqn:E. rewrite (span_digits_stable _ _ _ _ Hr E).
    destruct d; by intros [= <- <-].
Qed.

Lemma split_exp_sign_stable : stable_split split_exp_sign.
Proof.
  intros s a t rest Hr. unfold split_exp_sign. destruct s as [|c s]; simpl.
  - intros [= <- <-]. destruct rest as [|d rest]; [done|].
    apply delimited_head in Hr as (_ & ? & ? & _). by rewrite !(proj2 (Z.eqb_neq _ _)).
  - destruct (_ || _); by intros [= <- <-].
Qed.

Lemma scan_exp_stable : stable_split scan_exp.
Proof.
  intros s a t rest Hr. unfold scan_exp. destruct s as [|c s]; simpl.
  - intros [= <- <-]. destruct rest as [|d rest]; [done|].
    apply delimited_head in Hr as (_ & _ & _ & _ & ? & ?). by rewrite !(proj2 (Z.eqb_neq _ _)).
  - destruct (_ || _); [|by intros [= <- <-]].
    destruct (split_exp_sign s) as [sg r] eqn:E. rewrite (split_exp_sign_stable _ _ _ _ Hr E).
    destruct (span_digits r) as [d r'] eqn:E'. rewrite (span_digits_stable _ _ _ _ Hr E').
    destruct d; by intros [= <- <-].
Qed.

Lemma scan_int_app s a t rest :
  delimited rest -> scan_int s = Some (a, t) -> scan_int (s ++ rest) = Some (a, t ++ rest).
Proof.
  intros Hr. unfold scan_int. destruct s as [|c s]; [done|]. simpl.
  destruct (c =? 48); [by intros [= <- <-]|]. destruct (is_digit c); [|done].
  destruct (span_digits s) as [d r] eqn:E. rewrite (span_digits_stable _ _ _ _ Hr E).
  by intros [= <- <-].
Qed.

Lemma scan_number_app s i f rest :
  delimited rest -> scan_number s = Some (i, f, []) -> scan_number (s ++ rest) = Some (i, f, rest).
Proof.
  intros Hr. unfold scan_number.
  destruct (split_sign s) as [sg s1] eqn:E1.
  assert (Hs : forall a t, scan_int s1 = Some (a, t) -> split_sign (s ++ rest) = (sg, s1 ++ rest)).
  { intros a t Hi. unfold split_sign in *. destruct s as [|c s]; [by simplify_eq|]. simpl.
    destruct (c =? 45); by simplify_eq. }
  destruct (scan_int s1) as [[a s2]|] eqn:E2; [|done]. rewrite (Hs a s2 eq_refl). simpl.
  rewrite (scan_int_app _ _ _ _ Hr E2). simpl.
  destruct (scan_frac s2) as [fr s3] eqn:E3. rewrite (scan_frac_stable _ _ _ _ Hr E3).
  destruct (scan_exp s3) as [ex s4] eqn:E4. rewrite (scan_exp_stable _ _ _ _ Hr E4).
  by intros [= -> -> ->].
Qed.

(** ** String literals *)

Lemma hex_value_digit n : 0 <= n < 16 -> hex_value (hex_digit n) = Some n.
Proof.
  intros H. unfold hex_digit, hex_value, is_digit.
  destruct (Z.ltb_spec n 10); z_decide; simpl; f_equal; lia.
Qed.

Lemma nibble c n : 0 <= n -> Z.land (Z.shiftr c n) 15 = c / 2 ^ n mod 16.
Proof. intros. change 15 with (Z.ones 4). rewrite Z.land_ones, Z.shiftr_div_pow2 by lia. done. Qed.

Lemma hex4_escape x t :
  0 <= x < 65536 ->
  exists h1 h2 h3 h4, u_escape x ++ t = 92 :: 117 :: h1 :: h2 :: h3 :: h4 :: t /\
    hex4 h1 h2 h3 h4 = Some x.
Proof.
  intros Hx. unfold u_escape. do 4 eexists. split; [reflexivity|].
  rewrite !nibble by lia. change (Z.land x 15) with (Z.land (Z.shiftr x 0) 15).
  rewrite nibble by lia. unfold hex4.
  rewrite !hex_value_digit by (apply Z.mod_pos_bound; lia). simpl. f_equal.
  Z.to_euclidean_division_equations; lia.
Qed.

(** The scalar values a lone [\uXXXX] stands for are not surrogates. *)
Lemma scan_string_u x t :
  0 <= x < 65536 -> is_high x = false ->
  scan_string (u_escape x ++ t) = cons_char x (scan_string t).
Proof.
  intros Hx Hh. destruct (hex4_escape x t Hx) as (h1 & h2 & h3 & h4 & -> & E).
  cbn [scan_string]. change (92 =? 34) with false. change (92 =? 92) with true.
  change (117 =? 117) with true. cbv iota. rewrite E. cbv zeta. rewrite Hh.
  generalize (cons_char x (scan_string t)). intros alone.
  destruct t as [|b [|v [|l1 [|l2 [|l3 [|l4 t]]]]]]; reflexivity.
Qed.

Lemma lor_surrogate a k : 0 <= k < 1024 -> Z.lor (a * 1024) k = a * 1024 + k.
Proof.
  intros Hk. change 1024 with (2 ^ 10) in *. rewrite <- Z.shiftl_mul_pow2 by lia.
  symmetry. rewrite Z.add_nocarry_lxor, <- Z.lxor_lor; [done| |].
  all: apply Z.bits_inj'; intros n Hn; rewrite Z.land_spec, Z.shiftl_spec, Z.bits_0 by done;
    destruct (Z.lt_ge_cases n 10) as [?|?];
    [by rewrite Z.testbit_neg_r by lia|].
  all: rewrite <- (Z.mod_small k (2 ^ 10)) by lia; rewrite Z.mod_pow2_bits_high by lia;
    by rewrite andb_false_r.
Qed.

Lemma scan_string_pair c t :
  65536 <= c <= 1114111 ->
  scan_string (u_escape (Z.lor 55296 (Z.land (Z.shiftr (c - 65536) 10) 1023))
               ++ u_escape (Z.lor 56320 (Z.land (c - 65536) 1023)) ++ t)
  = cons_char c (scan_string t).
Proof.
  intros Hc. change 1023 with (Z.ones 10). rewrite !Z.land_ones, Z.shiftr_div_pow2 by lia.
  change (2 ^ 10) with 1024. set (q := (c - 65536) / 1024 mod 1024).
  set (r := (c - 65536) mod 1024).
  assert (Hq : 0 <= q < 1024) by (apply Z.mod_pos_bound; lia).
  assert (Hr : 0 <= r < 1024) by (apply Z.mod_pos_bound; lia).
  assert (E : c = join_surrogates (55296 + q) (56320 + r)).
  { pose proof (Z.div_mod (c - 65536) 1024 ltac:(done)) as Hdm.
    unfold join_surrogates, q, r.
    rewrite Z.mod_small; [lia|].
    split; [apply Z.div_pos|apply Z.div_lt_upper_bound]; lia. }
  change 55296 with (54 * 1024). change 56320 with (55 * 1024).
  rewrite !lor_surrogate by done.
  destruct (hex4_escape (55 * 1024 + r) t) as (l1 & l2 & l3 & l4 & -> & El); [lia|].
  destruct (hex4_escape (54 * 1024 + q) (92 :: 117 :: l1 :: l2 :: l3 :: l4 :: t))
    as (h1 & h2 & h3 & h4 & -> & Eh); [lia|].
  assert (Hhigh : is_high (54 * 1024 + q) = true) by (unfold is_high; z_decide; done).
  assert (Hlow : is_low (55 * 1024 + r) = true) by (unfold is_low; z_decide; done).
  cbn [scan_string]. change (92 =? 34) with false. change (92 =? 92) with true.
  change (117 =? 117) with true. cbv iota. rewrite Eh, El. cbv zeta.
  rewrite Hhigh, Hlow, E. reflexivity.
Qed.

Lemma scalar_not_high c : is_scalar c = true -> 0 <= c <= 1114111 /\ is_high c = false.
Proof.
  unfold is_scalar, is_surrogate, is_high. intros [[?%Z.leb_le ?%Z.leb_le]%andb_prop Hn]%andb_prop.
  split; [done|]. destruct (Z.leb_spec 55296 c), (Z.leb_spec c 56319); [exfalso|done..].
  revert Hn. by rewrite (proj2 (Z.leb_le c 57343)) by lia.
Qed.

Lemma scan_string_char ascii c t :
  is_scalar c = true ->
  scan_string (escape_char ascii c ++ t) = cons_char c (scan_string t).
Proof.
  intros Hs. destruct (scalar_not_high c Hs) as [Hc Hh]. unfold escape_char.
  repeat match goal with
    | |- context [if c =? ?k then _ else _] =>
        destruct (Z.eqb_spec c k) as [->|?]; [done|]
    end.
  destruct (Z.ltb_spec c 32); [apply scan_string_u; [lia|done]|].
  assert (Hplain : scan_string ([c] ++ t) = cons_char c (scan_string t)).
  { simpl. rewrite !(proj2 (Z.eqb_neq _ _)) by done. by rewrite (proj2 (Z.ltb_ge _ _)). }
  destruct (negb ascii || (c <=? 126)); [done|].
  destruct (Z.leb_spec c 65535); [apply scan_string_u; [lia|done]|].
  rewrite <- app_assoc. apply scan_string_pair. lia.
Qed.

(** A printed string reads back. *)
Lemma scan_string_escape ascii s t :
  Forall (fun c => is_scalar c = true) s ->
  scan_string (concat (map (escape_char ascii) s) ++ 34 :: t) = Some (s, t).
Proof.
  induction 1 as [|c s Hc _ IH]; [done|]. cbn [map concat].
  rewrite <- app_assoc, scan_string_char by done. by rewrite IH.
Qed.

(** ** Containers *)

Definition all_ws (w : pystr) : Prop := Forall (fun c => is_ws c = true) w.

Lemma skip_ws_app w s : all_ws w -> skip_ws (w ++ s) = skip_ws s.
Proof. induction 1 as [|c w Hc _ IH]; [done|]. simpl. by rewrite Hc. Qed.

(** A text that starts with a character that is neither white space nor [close]. *)
Definition opens (close : Z) (t : pystr) : Prop :=
  exists c r, t = c :: r /\ is_ws c = false /\ c <> close.

Lemma skip_ws_opens close t s : opens close t -> skip_ws (t ++ s) = t ++ s.
Proof. intros (c & r & -> & Hc & _). simpl. by rewrite Hc. Qed.

Lemma skip_ws_stop w c s : all_ws w -> is_ws c = false -> skip_ws (w ++ c :: s) = c :: s.
Proof. intros Hw Hc. rewrite skip_ws_app by done. simpl. by rewrite Hc. Qed.

Lemma delimited_ws w c s :
  all_ws w -> c = 44 \/ c = 93 \/ c = 125 -> delimited (w ++ c :: s).
Proof. intros Hw Hc. destruct Hw as [|d w Hd _]; simpl; auto. Qed.

(** A separator: a comma or a colon between white space. *)
Definition sep_ok (ch : Z) (sep : pystr) : Prop :=
  exists w1 w2, sep = w1 ++ ch :: w2 /\ all_ws w1 /\ all_ws w2.

(** [t] is a text of [x] for the element parser. *)
Definition reads {A} (elem : pystr -> option (A * pystr)) (close : Z) (t : pystr) (x : A) : Prop :=
  opens close t /\ forall rest, delimited rest -> elem (t ++ rest) = Some (x, rest).

Lemma py_join_cons sep p q ps : py_join sep (p :: q :: ps) = p ++ sep ++ py_join sep (q :: ps).
Proof. done. Qed.

Lemma scan_items_join {A} (elem : pystr -> option (A * pystr)) close sep w ts xs fuel rest :
  close = 93 \/ close = 125 -> sep_ok 44 sep -> all_ws w ->
  Forall2 (reads elem close) ts xs -> ts <> [] -> (length ts <= fuel)%nat ->
  scan_items elem close fuel (py_join sep ts ++ w ++ close :: rest) = Some (xs, rest).
Proof.
  intros Hclose (w1 & w2 & -> & Hw1 & Hw2) Hw. intros H. revert fuel.
  assert (Hcc : is_ws close = false) by (destruct Hclose as [-> | ->]; done).
  induction H as [|t x ts xs Hx Hts IH]; intros fuel Hne Hlen; [done|].
  destruct fuel as [|fuel]; simpl in Hlen; [lia|]. destruct Hx as [_ Helem]. cbn [scan_items].
  destruct ts as [|t' ts].
  - inversion Hts; subst. cbn [py_join]. rewrite Helem by (apply delimited_ws; [done|tauto]).
    cbn [mbind option_bind]. rewrite skip_ws_stop by done. by rewrite Z.eqb_refl.
  - rewrite py_join_cons, <- !app_assoc. rewrite Helem by (apply delimited_ws; auto).
    cbn [mbind option_bind app]. rewrite skip_ws_stop by done.
    rewrite (proj2 (Z.eqb_neq 44 close)) by lia. change (44 =? 44) with true. cbv iota.
    rewrite skip_ws_app by done.
    inversion Hts as [|t'' x' ? xs' Hx' Hrest]; subst.
    assert (Hop : skip_ws (py_join (w1 ++ 44 :: w2) (t' :: ts) ++ w ++ close :: rest)
                  = py_join (w1 ++ 44 :: w2) (t' :: ts) ++ w ++ close :: rest).
    { destruct Hx' as [Hop _]. destruct ts as [|t2 ts]; [by eapply skip_ws_opens|].
      rewrite py_join_cons, <- !app_assoc. by eapply skip_ws_opens. }
    rewrite Hop, IH by (done || lia). done.
Qed.

Lemma newline_ws a lvl : all_ws (newline a lvl).
Proof.
  unfold newline, all_ws. destruct (indent a) as [n|]; [|done].
  constructor; [done|]. induction (Z.to_nat n * lvl)%nat; simpl; by constructor.
Qed.

Lemma sep_ok_newline ch sep a lvl : sep_ok ch sep -> sep_ok ch (sep ++ newline a lvl).
Proof.
  intros (w1 & w2 & -> & H1 & H2). exists w1, (w2 ++ newline a lvl).
  rewrite <- app_assoc. split_and!; [done|done|]. apply Forall_app. split; [done|apply newline_ws].
Qed.

(** The printed container reads back as its elements. *)
Lemma scan_container_print {A} (elem : pystr -> option (A * pystr)) a lvl o close ts xs fuel rest :
  close = 93 \/ close = 125 -> sep_ok 44 (item_separator a) ->
  Forall2 (reads elem close) ts xs -> (length ts <= fuel)%nat ->
  exists s, container a lvl o close ts = o :: s /\
    scan_container elem close fuel (s ++ rest) = Some (xs, rest).
Proof.
  intros Hclose Hsep Hts Hlen. unfold scan_container.
  assert (Hcc : is_ws close = false) by (destruct Hclose as [-> | ->]; done).
  inversion Hts as [|t x ts' xs' Hx Hts']; subst.
  - exists [close]. split; [done|]. simpl. rewrite Hcc. by rewrite Z.eqb_refl.
  - eexists. split; [reflexivity|]. destruct Hx as [Hop Helem].
    set (sep := item_separator a ++ newline a (S lvl)).
    assert (Hj : py_join sep (t :: ts') = t ++ match ts' with [] => [] | _ => sep ++ py_join sep ts' end)
      by (destruct ts'; simpl; [by rewrite app_nil_r|done]).
    rewrite <- !app_assoc, skip_ws_app by apply newline_ws.
    rewrite Hj, <- app_assoc. rewrite (skip_ws_opens close) by done.
    pose proof Hop as (c & r & -> & Hc & Hne). cbn [app].
    rewrite (proj2 (Z.eqb_neq c close)) by done.
    rewrite app_comm_cons, app_assoc, <- Hj.
    apply scan_items_join; [done|by apply sep_ok_newline|apply newline_ws|done|done|done].
Qed.

(** A printed member. *)
Lemma scan_member_print {A} (value : pystr -> option (A * pystr)) ascii ksep k t x :
  sep_ok 58 ksep -> Forall (fun c => is_scalar c = true) k -> reads value 125 t x ->
  reads (scan_member value) 125 (escape_str ascii k ++ ksep ++ t) (k, x).
Proof.
  intros (w1 & w2 & -> & H1 & H2) Hk [Hop Hx]. split.
  { unfold escape_str. exists 34. eexists. split; [reflexivity|done]. }
  intros rest Hrest. unfold escape_str. rewrite <- !app_assoc. cbn [app scan_member].
  rewrite Z.eqb_refl.
  rewrite scan_string_escape by done. cbn [mbind option_bind].
  rewrite skip_ws_stop by done. rewrite Z.eqb_refl, skip_ws_app, (skip_ws_opens 125) by done.
  by rewrite Hx.
Qed.

(** ** [json.loads] after [json.dumps] *)

Lemma sorted_items_unique {A} (l1 l2 : list (pystr * A)) :
  NoDup l1.*1 -> StronglySorted key_le l1 -> StronglySorted key_le l2 -> l1 ≡ₚ l2 -> l1 = l2.
Proof.
  intros Hnd H1 H2 Hp. eapply StronglySorted_unique_strong; [|done|done|done].
  intros [k1 x1] [k2 x2] Hin1 Hin2 Hle1 Hle2. rewrite <- Hp in Hin2.
  assert (k1 = k2) as <- by (by apply str_leb_antisym).
  apply (elem_of_dget _ _ _ Hnd) in Hin1. apply (elem_of_dget _ _ _ Hnd) in Hin2. by simplify_eq.
Qed.

(** Sorting by key commutes with a change of the values. *)
Lemma sort_items_map {A B} (f : A -> B) (l : list (pystr * A)) :
  NoDup l.*1 ->
  sort_items (map (fun kv => (kv.1, f kv.2)) l) = map (fun kv => (kv.1, f kv.2)) (sort_items l).
Proof.
  intros Hnd. apply sorted_items_unique.
  - rewrite sort_items_perm, map_keys. done.
  - apply StronglySorted_merge_sort; apply _.
  - assert (Hs : StronglySorted key_le (sort_items l)) by (apply StronglySorted_merge_sort; apply _).
    induction Hs as [|x l' _ IH Hx]; simpl; constructor; [done|].
    apply Forall_fmap. eapply Forall_impl; [done|]. by intros [].
  - by rewrite !sort_items_perm.
Qed.

Section round_trip.
Context `{FloatParse}.

(** What the text of a value keeps of it: under [sort_keys], the members in key order. *)
Fixpoint canon (sort : bool) (j : json) : json :=
  match j with
  | JArr l => JArr (map (canon sort) l)
  | JObj kvs =>
      let items := map (fun kv => (kv.1, canon sort kv.2)) kvs in
      JObj (if sort then sort_items items else items)
  | _ => j
  end.

(** A value [json.dumps] prints faithfully: distinct keys, no surrogate, integers of a
    length the decoder accepts. *)
Definition text_ok (s : pystr) : bool := forallb is_scalar s.
Fixpoint printable (j : json) : bool :=
  match j with
  | JOther => false
  | JInt z => int_digits z <=? MAX_INT_DIGITS
  | JStr s => text_ok s
  | JArr l => forallb printable l
  | JObj kvs => bool_decide (NoDup (dkeys kvs))
                && forallb (fun kv => text_ok kv.1 && printable kv.2) kvs
  | _ => true
  end.

Definition separators_ok (a : dumps_args) : Prop :=
  sep_ok 44 (item_separator a) /\ sep_ok 58 (key_separator a).

Lemma text_ok_spec s : text_ok s = true -> Forall (fun c => is_scalar c = true) s.
Proof. unfold text_ok. rewrite forallb_forall, Forall_forall. setoid_rewrite list_elem_of_In. auto. Qed.

Lemma dict_of_nodup {A} (l : list (pystr * A)) : NoDup (dkeys l) -> dict_of l = l.
Proof.
  unfold dict_of. enough (Hg : forall d, NoDup (dkeys (d ++ l)) ->
    foldl (fun d kv => dset kv.1 kv.2 d) d l = d ++ l) by (intros; by apply (Hg [])).
  induction l as [|[k x] l IH]; intros d Hnd; simpl; [by rewrite app_nil_r|].
  assert (E : dset k x d = d ++ [(k, x)]).
  { assert (Hk : k ∉ dkeys d).
    { intros Hk. unfold dkeys in Hnd. rewrite map_app in Hnd. apply NoDup_app in Hnd as (_ & Hd & _).
      apply (Hd k Hk). by left. }
    clear -Hk. induction d as [|[k' x'] d IHd]; simpl; [done|]. unfold dkeys in Hk. simpl in Hk.
    rewrite decide_False by set_solver. f_equal. apply IHd. set_solver. }
  rewrite E, IH; rewrite <- app_assoc; done.
Qed.

(** A scanned number is the text it was scanned from. *)
Lemma span_digits_text s a t : span_digits s = (a, t) -> s = a ++ t.
Proof.
  revert a t. induction s as [|c s IH]; intros a t; simpl; [by intros [= <- <-]|].
  destruct (is_digit c); [|by intros [= <- <-]].
  destruct (span_digits s) as [d r]. intros [= <- <-]. by rewrite (IH d r).
Qed.

Lemma scan_number_text s i f r : scan_number s = Some (i, f, r) -> s = i ++ f ++ r.
Proof.
  unfold scan_number. destruct (split_sign s) as [sg s1] eqn:E1.
  assert (s = sg ++ s1) as ->
    by (unfold split_sign in E1; destruct s; [|case_match]; by simplify_eq).
  destruct (scan_int s1) as [[d s2]|] eqn:E2; [|done]. simpl.
  assert (s1 = d ++ s2) as ->.
  { unfold scan_int in E2. destruct s1 as [|c s1]; [done|].
    destruct (c =? 48); [by simplify_eq|]. case_match; [|done].
    apply span_digits_text. congruence. }
  destruct (scan_frac s2) as [fr s3] eqn:E3.
  assert (s2 = fr ++ s3) as ->.
  { unfold scan_frac in E3. destruct s2 as [|c s2]; [by simplify_eq|].
    case_match; [|by simplify_eq]. destruct (span_digits s2) as [[|x d'] t] eqn:E; simplify_eq;
      [done|]. by rewrite (span_digits_text _ _ _ E). }
  destruct (scan_exp s3) as [ex s4] eqn:E4. intros [= <- <- <-].
  assert (s3 = ex ++ s4) as ->; [|by rewrite <- !app_assoc].
  unfold scan_exp in E4. destruct s3 as [|c s3]; [by simplify_eq|].
  case_match; [|by simplify_eq].
  destruct (split_exp_sign s3) as [sg' r'] eqn:E5.
  assert (s3 = sg' ++ r') as ->
    by (clear E4; unfold split_exp_sign in E5; destruct s3; [|case_match]; by simplify_eq).
  destruct (span_digits r') as [[|x d'] t] eqn:E; simplify_eq; [done|].
  rewrite (span_digits_text _ _ _ E). simpl. by rewrite <- app_assoc.
Qed.

(** A numeral starts with a digit or a minus sign. *)
Definition numeral_head (s : pystr) : Prop :=
  exists c r, s = c :: r /\ (c = 45 \/ 48 <= c <= 57).

Lemma scan_number_head s x : scan_number s = Some x -> numeral_head s.
Proof.
  unfold scan_number, split_sign. destruct s as [|c s]; [done|]. intros E. exists c, s.
  split; [done|]. destruct (Z.eqb_spec c 45) as [->|Hc]; [by left|right].
  unfold scan_int in E. destruct (Z.eqb_spec c 48) as [->|?]; [lia|].
  destruct (is_digit c) eqn:Hd; [by apply digit_range in Hd|done].
Qed.

Lemma numeral_opens close s : close = 93 \/ close = 125 -> numeral_head s -> opens close s.
Proof.
  intros Hcl (c & r & -> & Hc). exists c, r. split; [done|]. unfold is_ws.
  rewrite !(proj2 (Z.eqb_neq _ _)) by lia. split; [done|lia].
Qed.

Lemma scan_once_numeral fuel s :
  numeral_head s -> scan_once (S fuel) s = scan_numeral s.
Proof.
  intros (c & r & -> & Hc). cbn [scan_once]. rewrite !(proj2 (Z.eqb_neq _ _)) by lia.
  unfold scan_constant. simpl. by rewrite !bool_decide_false by lia.
Qed.

Lemma scan_once_constant k v fuel rest :
  (k, v) ∈ constants -> scan_once (S fuel) (k ++ rest) = Some (v, rest).
Proof. intros Hin. unfold constants in Hin. rewrite !elem_of_cons in Hin. destruct_or! Hin; simplify_eq; try done. by apply not_elem_of_nil in Hin. Qed.

(** The text of [j] reads as its canonical form, with its length as fuel. *)
Definition value_reads (a : dumps_args) (j : json) : Prop :=
  forall lvl fuel close, (length (encode a lvl j) <= fuel)%nat -> close = 93 \/ close = 125 ->
    reads (scan_once fuel) close (encode a lvl j) (canon (sort_keys a) j).

Lemma constant_reads k v fuel close :
  (k, v) ∈ constants -> (length k <= fuel)%nat -> close = 93 \/ close = 125 ->
  reads (scan_once fuel) close k v.
Proof.
  intros Hin Hf Hc. assert (Hk : opens close k /\ k <> []).
  { unfold constants in Hin. rewrite !elem_of_cons in Hin. unfold opens.
    destruct_or! Hin; simplify_eq; [..|by apply not_elem_of_nil in Hin].
    all: split; [|done]; do 2 eexists; split; [reflexivity|split; [done|destruct Hc; subst; done]]. }
  destruct fuel as [|fuel]; [destruct k; [by destruct Hk|simpl in Hf; lia]|].
  split; [by destruct Hk|]. intros rest _. by apply scan_once_constant.
Qed.

Lemma numeral_reads s i f x fuel close :
  scan_number s = Some (i, f, []) -> (length s <= fuel)%nat -> close = 93 \/ close = 125 ->
  (forall rest, scan_number (s ++ rest) = Some (i, f, rest) -> scan_numeral (s ++ rest) = Some (x, rest)) ->
  reads (scan_once fuel) close s x.
Proof.
  intros Hs Hf Hc Hx. pose proof (scan_number_head _ _ Hs) as Hh. split; [by apply numeral_opens|].
  intros rest Hr. pose proof (scan_number_app _ _ _ _ Hr Hs) as E.
  destruct fuel as [|fuel]; [destruct Hh as (? & ? & -> & _); simpl in Hf; lia|].
  rewrite scan_once_numeral by (by eapply scan_number_head). by apply Hx.
Qed.

Lemma str_reads ascii s fuel close :
  text_ok s = true -> (length (escape_str ascii s) <= fuel)%nat -> close = 93 \/ close = 125 ->
  reads (scan_once fuel) close (escape_str ascii s) (JStr s).
Proof.
  intros Hs%text_ok_spec Hf Hc. unfold escape_str in *. split.
  { exists 34. eexists. split_and!; [reflexivity|done|destruct Hc; subst; done]. }
  intros rest _. destruct fuel as [|fuel]; [simpl in Hf; lia|].
  rewrite <- !app_assoc. cbn [app scan_once]. rewrite Z.eqb_refl, scan_string_escape by done. done.
Qed.

(** The elements of a container fit in its text. *)
Lemma py_join_fits sep ts t :
  t ∈ ts -> (length t <= length (py_join sep ts))%nat.
Proof.
  induction ts as [|p ts IH]; [by intros ?%not_elem_of_nil|].
  destruct ts as [|q ts].
  - by intros ->%list_elem_of_singleton.
  - rewrite py_join_cons, !length_app. intros [->|Hin]%elem_of_cons; [lia|].
    specialize (IH Hin). lia.
Qed.

Lemma py_join_count sep ts :
  Forall (fun t => t <> []) ts -> (length ts <= length (py_join sep ts))%nat.
Proof.
  induction 1 as [|p ts Hp Hts IH]; [simpl; lia|].
  assert (1 <= length p)%nat by (destruct p; [done|simpl; lia]).
  destruct ts as [|q ts]; [simpl in *; lia|].
  rewrite py_join_cons, !length_app. cbn [length] in *. lia.
Qed.

Lemma container_length a lvl o c ts :
  (2 + length (py_join (item_separator a ++ newline a (S lvl)) ts)
   <= length (container a lvl o c ts))%nat.
Proof.
  unfold container. destruct ts as [|t ts]; [simpl; lia|].
  rewrite !length_app. cbn [length]. lia.
Qed.

Lemma opens_nonempty close t : opens close t -> t <> [].
Proof. by intros (c & r & -> & _). Qed.

(** A printed container is read by the scanner of its kind. *)
Lemma container_reads {A} a lvl o close (elem : nat -> pystr -> option (A * pystr)) ts xs
    fuel close' (wrap : list A -> json) :
  close = 93 \/ close = 125 -> sep_ok 44 (item_separator a) ->
  (forall n, (forall t, t ∈ ts -> (length t <= n)%nat) -> Forall2 (reads (elem n) close) ts xs) ->
  (length (container a lvl o close ts) <= fuel)%nat ->
  (forall n s, scan_once (S n) (o :: s) =
               '(l, r) ← scan_container (elem n) close n s; Some (wrap l, r)) ->
  is_ws o = false -> o <> close' ->
  reads (scan_once fuel) close' (container a lvl o close ts) (wrap xs).
Proof.
  intros Hc Hsep Hts Hf Hscan Ho Ho'. pose proof (container_length a lvl o close ts) as Hl.
  destruct fuel as [|n]; [lia|].
  assert (Hr : Forall2 (reads (elem n) close) ts xs).
  { apply Hts. intros t Ht%(py_join_fits (item_separator a ++ newline a (S lvl))). lia. }
  assert (Hcount : (length ts <= n)%nat).
  { assert (Hne : Forall (fun t => t <> []) ts).
    { clear -Hr. induction Hr as [|t x ts xs [Hop _] _ IH]; constructor; [|done].
      by eapply opens_nonempty. }
    pose proof (py_join_count (item_separator a ++ newline a (S lvl)) ts Hne). lia. }
  split.
  - destruct (scan_container_print (elem n) a lvl o close ts xs n [] Hc Hsep Hr Hcount)
      as (s & -> & _). by exists o, s.
  - intros rest _.
    destruct (scan_container_print (elem n) a lvl o close ts xs n rest Hc Hsep Hr Hcount)
      as (s & -> & E). cbn [app]. by rewrite Hscan, E.
Qed.

Lemma Forall2_map_reads {A C} (elem : pystr -> option (C * pystr)) close
    (f : A -> pystr) (g : A -> C) l :
  (forall x, x ∈ l -> reads elem close (f x) (g x)) ->
  Forall2 (reads elem close) (map f l) (map g l).
Proof.
  intros H1. induction l as [|x l IH]; simpl; constructor; [apply H1; by left|].
  apply IH. intros y Hy. apply H1. by right.
Qed.

(** The members in the order they are printed. *)
Lemma encode_obj a lvl kvs :
  NoDup (dkeys kvs) ->
  encode a lvl (JObj kvs) =
    container a lvl 123 125
      (map (fun kv => escape_str (ensure_ascii a) kv.1 ++ key_separator a ++ encode a (S lvl) kv.2)
           (if sort_keys a then sort_items kvs else kvs)).
Proof.
  intros Hnd. simpl. f_equal. destruct (sort_keys a); [rewrite sort_items_map by done|].
  all: rewrite map_map; apply map_ext; done.
Qed.

(** Without sorting nothing changes. *)
Lemma canon_false j : canon false j = j.
Proof.
  induction j as [| | | | |l IH|kvs IH|] using json_nested_ind; try done; simpl; f_equal.
  - induction IH as [|x l Hx _ IHl]; simpl; [done|]. by rewrite Hx, IHl.
  - induction IH as [|[k v] l Hx _ IHl]; simpl; [done|]. simpl in Hx. by rewrite Hx, IHl.
Qed.

Lemma canon_obj sort kvs :
  NoDup (dkeys kvs) ->
  canon sort (JObj kvs) =
    JObj (map (fun kv => (kv.1, canon sort kv.2)) (if sort then sort_items kvs else kvs)).
Proof. intros Hnd. simpl. destruct sort; [by rewrite sort_items_map|done]. Qed.

Lemma encode_reads a j :
  separators_ok a -> printable j = true -> value_reads a j.
Proof.
  intros [Hitem Hkey]. induction j using json_nested_ind; intros Hp lvl fuel close Hf Hc.
  - apply constant_reads; [by left|done|done].
  - destruct b; (apply constant_reads; [|done|done]); [right; left|right; right; left].
  - destruct (scan_number_int z) as [Hs Hv].
    eapply numeral_reads; [exact Hs|done|done|]. intros rest E.
    unfold scan_numeral. rewrite E. cbn [mbind option_bind]. rewrite bool_decide_true by done.
    simpl in Hp. apply Z.leb_le in Hp. unfold int_digits in Hp.
    rewrite (proj2 (Z.ltb_ge _ _)) by done. by rewrite Hv.
  - destruct (repr_literal x) as (i & f & Hs & Hne).
    eapply numeral_reads; [exact Hs|done|done|]. intros rest E.
    unfold scan_numeral. rewrite E. cbn [mbind option_bind]. rewrite bool_decide_false by done.
    apply scan_number_text in Hs. rewrite app_nil_r in Hs. by rewrite <- Hs, float_of_repr.
  - by apply str_reads.
  - rename H1 into IH. simpl in Hp. rewrite forallb_forall in Hp.
    apply (container_reads a lvl 91 93 (fun n => scan_once n) _ _ fuel close JArr);
      [auto|done| |done|done|done|destruct Hc; subst; done].
    intros n Hn. apply Forall2_map_reads. intros x Hx. rewrite Forall_forall in IH.
    apply IH; [done|by apply Hp, list_elem_of_In| |auto].
    apply Hn. by apply list_elem_of_fmap_2.
  - rename H1 into IH. simpl in Hp. apply andb_prop in Hp as [Hnd%bool_decide_eq_true Hp].
    rewrite forallb_forall in Hp. rewrite encode_obj, canon_obj by done.
    set (kvs' := if sort_keys a then sort_items kvs else kvs).
    assert (Hperm : kvs' ≡ₚ kvs) by (unfold kvs'; case_match; [apply sort_items_perm|done]).
    rewrite encode_obj in Hf by done. fold kvs' in Hf.
    rewrite <- (dict_of_nodup (map _ kvs')) by (unfold dkeys; rewrite map_keys, Hperm; done).
    apply (container_reads a lvl 123 125 (fun n => scan_member (scan_once n)) _ _ fuel close
             (fun l => JObj (dict_of l)));
      [auto|done| |done|done|done|destruct Hc; subst; done].
    intros n Hn. apply Forall2_map_reads. intros [k v] Hx.
    assert (Hin : (k, v) ∈ kvs) by (by rewrite <- Hperm). rewrite Forall_forall in IH.
    pose proof (Hp (k, v) ltac:(by apply list_elem_of_In)) as [Hk%text_ok_spec Hv]%andb_prop.
    apply scan_member_print; [done|done|]. apply (IH (k, v)); [done|done| |auto].
    pose proof (Hn _ (list_elem_of_fmap_2 _ _ _ Hx)) as Hlen. simpl in Hlen |- *.
    rewrite !length_app in Hlen. lia.
  - done.
Qed.

Lemma scan_once_bom fuel r : scan_once fuel (65279 :: r) = None.
Proof. by destruct fuel. Qed.

Lemma loads_encode a j w :
  separators_ok a -> printable j = true -> all_ws w ->
  loads (encode a 0 j ++ w) = Some (canon (sort_keys a) j).
Proof.
  intros Ha Hp Hw.
  destruct (encode_reads a j Ha Hp 0%nat (length (encode a 0 j ++ w)) 93) as [Hop Hr];
    [rewrite length_app; lia|by left|].
  assert (Hd : delimited w) by (destruct Hw; simpl; auto). specialize (Hr w Hd).
  unfold loads, loads_within. rewrite bool_decide_false.
  - rewrite (skip_ws_opens 93), Hr by done. cbn [mbind option_bind].
    rewrite <- (app_nil_r w), skip_ws_app by done. done.
  - destruct Hop as (c & r & E & _). rewrite E in Hr |- *. simpl. intros [= ->].
    cbn [app] in Hr. by rewrite scan_once_bom in Hr.
Qed.

(** [json.loads] undoes [json.dumps]: for any separators, indentation and escaping of
    the program, the text of a value with distinct keys, no surrogates and integers of at
    most 4300 digits, white space after it included, decodes to that value, its members in
    the order they were printed. *)
Theorem loads_dumps a j text w :
  separators_ok a -> printable j = true -> all_ws w -> dumps a j = Ret text ->
  loads (text ++ w) = Some (canon (sort_keys a) j).
Proof.
  intros Ha Hp Hw. unfold dumps. destruct (serializable j); [|done]. intros [= <-].
  by apply loads_encode.
Qed.
End round_trip.

(** ** Termination *)

Lemma skip_ws_length s : (length (skip_ws s) <= length s)%nat.
Proof. induction s as [|c s IH]; simpl; [lia|]. case_match; simpl; lia. Qed.

(** A scanner that consumes at least one character of what it reads. *)
Definition consumes {A} (f : pystr -> option (A * pystr)) : Prop :=
  forall s x r, f s = Some (x, r) -> (length r < length s)%nat.

Lemma cons_char_inv c o s r :
  cons_char c o = Some (s, r) -> exists s', o = Some (s', r).
Proof. unfold cons_char. destruct o as [[s' r']|]; [|done]. intros [= <- <-]. eauto. Qed.

Lemma scan_string_consumes : consumes scan_string.
Proof.
  intros s. induction s as [s IH] using (well_founded_ind (well_founded_ltof _ (@length Z))).
  unfold ltof in IH. intros x r. destruct s as [|c s]; [done|].
  assert (Hstep : forall y s', (length s' < length (c :: s))%nat ->
    cons_char y (scan_string s') = Some (x, r) -> (length r < length (c :: s))%nat).
  { intros y s' Hl [x' E]%cons_char_inv. specialize (IH _ Hl _ _ E). simpl in *. lia. }
  cbn [scan_string]. repeat case_match; subst; try done;
    first [intros [= <- <-]; simpl; lia | apply Hstep; simpl; lia].
Qed.

Lemma scan_int_nonempty s d r : scan_int s = Some (d, r) -> d <> [].
Proof.
  unfold scan_int. destruct s as [|c s]; [done|]. case_match; [by intros [= <- <-]|].
  destruct (is_digit c) eqn:Hd; [|done]. simpl. rewrite Hd.
  destruct (span_digits s). by intros [= <- <-].
Qed.

Lemma scan_number_nonempty s i f r : scan_number s = Some (i, f, r) -> i <> [].
Proof.
  unfold scan_number. destruct (split_sign s) as [sg s1].
  destruct (scan_int s1) as [[d s2]|] eqn:E; [|done]. simpl. apply scan_int_nonempty in E.
  destruct (scan_frac s2), (scan_exp _). intros [= <- _ _]. by destruct sg.
Qed.

Section fuel.
Context {A : Type} (close : Z).
Implicit Types elem : pystr -> option (A * pystr).

Lemma scan_items_consumes elem k : consumes elem -> consumes (scan_items elem close k).
Proof.
  intros He. induction k as [|k IH]; intros s x r; [done|]. cbn [scan_items].
  destruct (elem s) as [[y r1]|] eqn:E1; [|done]. apply He in E1. cbn [mbind option_bind].
  pose proof (skip_ws_length r1) as Hl. destruct (skip_ws r1) as [|c r2]; [done|].
  simpl in Hl. case_match; [intros [= _ <-]; lia|]. case_match; [|done].
  destruct (scan_items elem close k (skip_ws r2)) as [[ys r3]|] eqn:E2; [|done].
  apply IH in E2. pose proof (skip_ws_length r2). intros [= _ <-]. lia.
Qed.

Lemma scan_container_consumes elem k : consumes elem -> consumes (scan_container elem close k).
Proof.
  intros He s x r. unfold scan_container. pose proof (skip_ws_length s) as Hl.
  destruct (skip_ws s) as [|c s']; [done|]. simpl in Hl.
  case_match; [intros [= _ <-]; lia|]. intros E%scan_items_consumes; [|done]. simpl in E. lia.
Qed.

(** Two element parsers that agree on the texts at hand, with fuel enough for each. *)
Lemma scan_items_fuel (e1 e2 : pystr -> option (A * pystr)) k1 k2 s :
  consumes e1 -> (forall s', (length s' <= length s)%nat -> e1 s' = e2 s') ->
  (length s <= k1)%nat -> (length s <= k2)%nat ->
  scan_items e1 close k1 s = scan_items e2 close k2 s.
Proof.
  intros Hc. revert k2 s. assert (H0 : e1 [] = None).
  { destruct (e1 []) as [[x r]|] eqn:E; [|done]. apply Hc in E. simpl in E. lia. }
  induction k1 as [|k1 IH]; intros k2 s Heq H1 H2.
  - destruct s; [|simpl in H1; lia]. destruct k2; [done|]. cbn [scan_items].
    by rewrite <- Heq, H0 by done.
  - destruct k2 as [|k2].
    { destruct s; [|simpl in H2; lia]. cbn [scan_items]. by rewrite H0. }
    cbn [scan_items]. rewrite <- Heq by done.
    destruct (e1 s) as [[x r]|] eqn:E; [|done]. apply Hc in E. cbn [mbind option_bind].
    pose proof (skip_ws_length r) as Hl. destruct (skip_ws r) as [|c r']; [done|]. simpl in Hl.
    case_match; [done|]. case_match; [|done]. pose proof (skip_ws_length r').
    rewrite (IH k2 (skip_ws r')); [done| |lia|lia]. intros s' Hs'. apply Heq. lia.
Qed.

Lemma scan_container_fuel (e1 e2 : pystr -> option (A * pystr)) k1 k2 s :
  consumes e1 -> (forall s', (length s' <= length s)%nat -> e1 s' = e2 s') ->
  (length s <= k1)%nat -> (length s <= k2)%nat ->
  scan_container e1 close k1 s = scan_container e2 close k2 s.
Proof.
  intros Hc Heq H1 H2. unfold scan_container. pose proof (skip_ws_length s) as Hl.
  destruct (skip_ws s) as [|c s']; [done|]. case_match; [done|].
  apply scan_items_fuel; [done| |lia|lia]. intros s'' Hs''. apply Heq. lia.
Qed.

Lemma scan_member_consumes elem : consumes elem -> consumes (scan_member elem).
Proof.
  intros He s x r. unfold scan_member. destruct s as [|c s]; [done|]. case_match; [|done].
  destruct (scan_string s) as [[k r1]|] eqn:E1; [|done]. apply scan_string_consumes in E1.
  cbn [mbind option_bind]. pose proof (skip_ws_length r1) as Hl.
  destruct (skip_ws r1) as [|d r2]; [done|]. simpl in Hl. case_match; [|done].
  destruct (elem (skip_ws r2)) as [[v r3]|] eqn:E2; [|done]. apply He in E2.
  pose proof (skip_ws_length r2). intros [= _ <-]. simpl. lia.
Qed.

Lemma scan_member_agree (e1 e2 : pystr -> option (A * pystr)) s :
  (forall s', (length s' <= length s)%nat -> e1 s' = e2 s') ->
  scan_member e1 s = scan_member e2 s.
Proof.
  intros Heq. unfold scan_member. destruct s as [|c s]; [done|]. case_match; [|done].
  destruct (scan_string s) as [[k r1]|] eqn:E1; [|done]. apply scan_string_consumes in E1.
  cbn [mbind option_bind]. pose proof (skip_ws_length r1) as Hl.
  destruct (skip_ws r1) as [|d r2]; [done|]. simpl in Hl. case_match; [|done].
  pose proof (skip_ws_length r2). rewrite Heq; [done|]. simpl. lia.
Qed.
End fuel.

Section termination.
Context `{FloatParse}.

Lemma scan_once_consumes n : consumes (scan_once n).
Proof.
  induction n as [|n IH]; intros s x r; [done|]. cbn [scan_once].
  destruct s as [|c s]; [done|].
  case_match; [|case_match; [|case_match]].
  - destruct (scan_string s) as [[t r']|] eqn:E; [|done]. apply scan_string_consumes in E.
    cbn [mbind option_bind]. intros [= _ <-]. simpl. lia.
  - destruct (scan_container (scan_member _) _ _ _) as [[l r']|] eqn:E; [|done].
    apply scan_container_consumes in E; [|by apply scan_member_consumes].
    cbn [mbind option_bind]. intros [= _ <-]. simpl. lia.
  - destruct (scan_container _ _ _ _) as [[l r']|] eqn:E; [|done].
    apply scan_container_consumes in E; [|done].
    cbn [mbind option_bind]. intros [= _ <-]. simpl. lia.
  - unfold scan_constant. destruct (find _ constants) as [[k v]|] eqn:E.
    + apply find_some in E as [E _]. assert (Hk : (0 < length k)%nat).
      { unfold constants in E. simpl in E. destruct_or! E; simplify_eq/=; try lia. }
      intros [= _ <-]. rewrite length_drop. simpl. lia.
    + unfold scan_numeral. destruct (scan_number (c :: s)) as [[[i f] r']|] eqn:En; [|done].
      assert (Hr : (length r' < length (c :: s))%nat).
      { pose proof (scan_number_nonempty _ _ _ _ En) as Hi. apply scan_number_text in En.
        rewrite En, !length_app. destruct i; [done|]. simpl. lia. }
      cbn [mbind option_bind]. case_match.
      * case_match; [done|]. by intros [= _ <-].
      * destruct (float_of (i ++ f)); [|done]. cbn [mbind option_bind]. by intros [= _ <-].
Qed.

Lemma scan_once_fuel n m s :
  (length s <= n)%nat -> (length s <= m)%nat -> scan_once n s = scan_once m s.
Proof.
  revert m s. induction n as [|n IH]; intros m s Hn Hm.
  - destruct s; [|simpl in Hn; lia]. by destruct m.
  - destruct s as [|c s]; [by destruct m|]. destruct m as [|m]; [simpl in Hm; lia|].
    simpl in Hn, Hm. cbn [scan_once].
    assert (Ha : forall s', (length s' <= length s)%nat -> scan_once n s' = scan_once m s')
      by (intros s' Hs'; apply IH; lia).
    rewrite (scan_container_fuel 125 (scan_member (scan_once n)) (scan_member (scan_once m)) n m s).
    + rewrite (scan_container_fuel 93 (scan_once n) (scan_once m) n m s); [done| |done|lia|lia].
      apply scan_once_consumes.
    + apply scan_member_consumes, scan_once_consumes.
    + intros s' Hs'. apply scan_member_agree. intros s'' Hs''. apply Ha. lia.
    + lia.
    + lia.
Qed.

(** The decoder terminates on every text and its bound is never what refuses one: with
    any more fuel than the text has characters the answer is the same. *)
Theorem loads_fuel_enough fuel s :
  (length s <= fuel)%nat -> loads_within fuel s = loads s.
Proof.
  intros Hf. unfold loads, loads_within. case_bool_decide; [done|].
  pose proof (skip_ws_length s). by rewrite (scan_once_fuel fuel (length s)) by lia.
Qed.
End termination.

(** ** A decoder for the witnesses *)

Module Toy.
Lemma span_digits_then ds c t :
  Forall (fun c => is_digit c = true) ds -> is_digit c = false ->
  span_digits (ds ++ c :: t) = (ds, c :: t).
Proof. intros Hd Hc. induction Hd as [|d ds Hd _ IH]; simpl; [by rewrite Hc|]. by rewrite Hd, IH. Qed.

(** A float prints as the count of its units, with a fraction. *)
#[export] Program Instance repr : FloatRepr := {| float_repr x := str_of_Z x ++ u ".0" |}.
Next Obligation.
  intros x c [Hc%str_of_Z_elem|Hc]%elem_of_app; [lia|]. change (u ".0") with [46; 48] in Hc.
  rewrite !elem_of_cons in Hc. destruct_or! Hc; try lia. by apply not_elem_of_nil in Hc.
Qed.

Lemma scan_repr z : scan_number (str_of_Z z ++ u ".0") = Some (str_of_Z z, u ".0", []).
Proof.
  destruct (str_of_Z_shape z) as (sg & ds & -> & Hd & Hs).
  assert (E : split_sign ((sg ++ ds) ++ u ".0") = (sg, ds ++ u ".0")).
  { rewrite <- app_assoc. destruct Hs as [[-> _]|[-> _]]; [|done].
    destruct Hd as [[|c r Hc%digit_range _] _]; [done|]. simpl.
    by rewrite (proj2 (Z.eqb_neq _ _)) by lia. }
  unfold scan_number. rewrite E.
  assert (E' : scan_int (ds ++ u ".0") = Some (ds, u ".0")).
  { destruct Hd as [Hd [->|(c & r & -> & Hc)]]; [done|]. unfold scan_int.
    change ((c :: r) ++ u ".0") with (c :: (r ++ u ".0")) at 1. cbn match.
    rewrite (proj2 (Z.eqb_neq _ _)) by done. inversion Hd as [|?? Hc']; subst. rewrite Hc'.
    f_equal. by apply span_digits_then. }
  by rewrite E'.
Qed.

#[export] Program Instance parse : FloatParse := {|
  float_of s := match scan_number s with Some (i, _, _) => Some (int_value i) | None => None end
|}.
Next Obligation. intros x. simpl. rewrite scan_repr. f_equal. by apply scan_number_int. Qed.
Next Obligation. intros x. exists (str_of_Z x), (u ".0"). split; [apply scan_repr|done]. Qed.

(** A fixture body: two spaces of indentation, sorted keys, a final line break. *)
Definition body : json :=
  JObj [(u "tool", JStr (u "get_ip_geo_asn")); (u "arguments", JObj [(u "ip", JStr [128512; 10])]);
        (u "result", JArr [JInt (-17); JFloat 3; JBool true; JNull])].
Definition body_args : dumps_args := DumpsArgs true true (Some 2) (u ",") (u ": ").
End Toy.
Import Toy.

Lemma default_separators_ok : separators_ok default_args.
Proof.
  split; [exists [], [32]|exists [], [32]]; split_and!; repeat constructor; done.
Qed.

Lemma indent_separators_ok a n :
  a = DumpsArgs (sort_keys a) (ensure_ascii a) (Some n) (u ",") (u ": ") -> separators_ok a.
Proof.
  intros ->. split; [exists [], []|exists [], [32]]; split_and!; repeat constructor; done.
Qed.

Lemma loads_dumps_witness :
  match dumps Toy.body_args Toy.body with
  | Ret text => loads (text ++ [10]) = Some (canon true Toy.body)
  | Raise _ => False
  end.
Proof.
  apply (loads_dumps Toy.body_args Toy.body _ [10]).
  - apply (indent_separators_ok _ 2). reflexivity.
  - vm_compute. reflexivity.
  - repeat constructor.
  - reflexivity.
Defined.

Lemma loads_fuel_enough_witness : loads_within 1000 (u "[1, [2, {}]]") = loads (u "[1, [2, {}]]").
Proof. apply (loads_fuel_enough 1000). apply Nat.leb_le. vm_compute. reflexivity. Defined.

(** The boundary cases of the grammar. *)
Example loads_no_quotes : loads (u "{k: 1}") = None.
Proof. vm_compute. reflexivity. Qed.
Example loads_duplicate :
  loads ([123; 34; 107; 34; 58] ++ u "1, " ++ [34; 107; 34] ++ u ":-0.50e1 }") =
    Some (JObj [(u "k", JFloat 0)]).
Proof. vm_compute. reflexivity. Qed.
