(* ===== verification/Signing.v ===== *)
(** * Signing: HMAC request signatures

    [core/signing.py] and the shipper's vendored [sign_body]
    ([honeypot/shipper/sentinelbrief_shipper/signing.py]); HMAC-SHA256 is a parameter. *)

From S2P Require Import Prelude Errors Text.
#[local] Open Scope Z_scope.

(** [hmac.new(key, body, sha256).hexdigest()]: an ASCII string. *)
Class Hmac : Type := {
  hmac_hexdigest : pybytes -> pybytes -> pystr;
  hmac_hexdigest_ascii : forall k b, is_ascii (hmac_hexdigest k b) = true
}.

Definition SIGNATURE_HEADER : pystr := u "x-signature".
Definition _PREFIX : pystr := u "sha256=".

Section signing.
Context {HM : Hmac}.

Definition sign_body (secret : pystr) (body : pybytes) : outcome exn pystr :=
  key ← utf8_encode secret; Ret (_PREFIX ++ hmac_hexdigest key body).

Definition verify_signature (secret : pystr) (body : pybytes) (header : option pystr)
    : outcome exn bool :=
  match header with
  | None => Ret false
  | Some h =>
      if bool_decide (secret = []) || negb (prefixb _PREFIX h) then Ret false
      else
        let candidate := drop (length _PREFIX) h in
        if negb (is_ascii candidate) then Ret false
        else key ← utf8_encode secret; compare_digest candidate (hmac_hexdigest key body)
  end.

(** A header verifies exactly when it is the signature, under a secret that is set. *)
Lemma verify_signature_iff secret body header :
  verify_signature secret body header = Ret true <->
  secret <> [] /\ exists h, header = Some h /\ sign_body secret body = Ret h.
Proof.
  unfold verify_signature, sign_body, compare_digest. destruct header as [h|]; [|naive_solver].
  case_bool_decide as Hs; cbn [orb]; [naive_solver|].
  destruct (prefixb _PREFIX h) eqn:Hp; cbn [negb].
  - apply prefixb_spec in Hp as [t ->]. rewrite drop_app_length.
    destruct (is_ascii t) eqn:Ht; cbn [negb].
    + destruct (utf8_encode secret) as [key|e]; simpl; [|naive_solver].
      rewrite hmac_hexdigest_ascii. simpl. split.
      * intros [= ->%bool_decide_eq_true]. naive_solver.
      * intros (_ & h & [= <-] & [= E]). subst. by rewrite bool_decide_true.
    + split; [done|]. intros (_ & h & [= <-] & E). exfalso.
      destruct (utf8_encode secret); simpl in E; [|done]. injection E as E. subst.
      by rewrite hmac_hexdigest_ascii in Ht.
  - split; [done|]. intros (_ & h' & [= <-] & E). exfalso.
    destruct (utf8_encode secret); cbn [mbind outcome_bind] in E; [|done].
    assert (h = _PREFIX ++ hmac_hexdigest a body) as -> by congruence.
    rewrite (proj2 (prefixb_spec _ _)) in Hp; [done|]. by eexists.
Qed.
End signing.
