(* ===== verification/Schemas.v ===== *)
(** * Schemas: the alert envelope, its summary and the verdict contract

    [core/schemas/alert.py], [worker/summarize.py] and [core/schemas/verdict.py].
    Pydantic's coercion of JSON into field types is not modelled: a [fields] record
    holds the coerced values, and the validators the source declares (lengths, bounds,
    literals, [model_validator]) are the [validate] functions.  The extra fields that an
    alert and its events allow are dropped. *)

From S2P Require Import Prelude Errors Datetime.
#[local] Open Scope Z_scope.

(** [hashlib.sha256(text.encode()).hexdigest()]. *)
Class Sha256 : Type := sha256_text : pystr -> pystr.

(** ** [core/schemas/alert.py] *)

Module Alert.

Record CowrieEvent : Type := {
  eventid : pystr;
  timestamp : datetime;
  session : pystr;
  ev_src_ip : pystr;
  ev_sensor : pystr;
  message : pystr;
  username : option pystr;
  password : option pystr;
  input : option pystr;
  url : option pystr;
  outfile : option pystr;
  shasum : option pystr;
  ev_duration_ms : option Z;
  version : option pystr
}.

Record SessionAlert : Type := {
  source : pystr;
  session_id : pystr;
  src_ip : pystr;
  sensor : pystr;
  events : list CowrieEvent
}.

Definition CONNECT : pystr := u "cowrie.session.connect".
Definition CLOSED : pystr := u "cowrie.session.closed".

Definition with_events (a : SessionAlert) (es : list CowrieEvent) : SessionAlert :=
  {| source := source a; session_id := session_id a; src_ip := src_ip a;
     sensor := sensor a; events := es |}.

(** [sorted(self.events, key=lambda e: e.timestamp)]. *)
Definition sort_events (es : list CowrieEvent) : outcome exn (list CowrieEvent) :=
  if comparable (map timestamp es)
  then Ret (py_sorted (fun e => instant (timestamp e)) es)
  else Raise TypeError.

(** The validator: a [ValueError] becomes pydantic's [ValidationError], the
    [TypeError] of the sort does not. *)
Definition _sort_and_require_connect_first (a : SessionAlert) : outcome exn SessionAlert :=
  sorted_events ← sort_events (events a);
  match sorted_events with
  | e :: _ =>
      if bool_decide (eventid e = CONNECT) then Ret (with_events a sorted_events)
      else Raise ValidationError
  | [] => Raise ValidationError
  end.

Definition validate (a : SessionAlert) : outcome exn SessionAlert :=
  if bool_decide (source a = u "cowrie") && (1 <=? py_len (events a))
  then _sort_and_require_connect_first a
  else Raise ValidationError.

(** [events[0].timestamp]: a validated alert has a first event. *)
Definition connect_time (a : SessionAlert) : option datetime :=
  timestamp <$> head (events a).

Definition closed_events (a : SessionAlert) : list CowrieEvent :=
  filter (fun e => eventid e = CLOSED) (events a).

Definition close_time (a : SessionAlert) : option datetime :=
  timestamp <$> last (closed_events a).

(** [int(delta / timedelta(milliseconds=1))]: the quotient truncated towards zero. *)
Definition duration_ms (a : SessionAlert) : option Z :=
  match last (closed_events a) with
  | None => None
  | Some e =>
      match ev_duration_ms e, connect_time a with
      | Some d, _ => Some d
      | None, Some c => Some (Z.quot (instant (timestamp e) - instant c) 1000)
      | None, None => None
      end
  end.

Definition fingerprint_raw `{LocalZone} (a : SessionAlert) : option pystr :=
  c ← connect_time a;
  Some (py_join (u "|") [source a; session_id a; isoformat_utc (astimezone_utc c)]).

Definition fingerprint `{LocalZone} `{Sha256} (a : SessionAlert) : option pystr :=
  sha256_text <$> fingerprint_raw a.

(** *** Lemmas *)

Lemma validate_inv a a' :
  validate a = Ret a' ->
  source a = u "cowrie" /\
  comparable (map timestamp (events a)) = true /\
  a' = with_events a (py_sorted (fun e => instant (timestamp e)) (events a)) /\
  exists e es, events a' = e :: es /\ eventid e = CONNECT.
Proof.
  unfold validate, _sort_and_require_connect_first, sort_events.
  case_bool_decide as Hs; simpl; [|done]. case_match; [|done].
  destruct (comparable _); simpl; [|done].
  destruct (py_sorted _ (events a)) as [|e es] eqn:E; [done|].
  case_bool_decide; intros; simplify_eq/=. eauto 10.
Qed.

(** An accepted alert is a cowrie session whose events are those of the payload
    in timestamp order, events of one instant in payload order, with a connect event
    first that no event of the payload precedes; every mixed payload of aware and
    naive timestamps raises [TypeError]. *)
Theorem validate_spec a :
  match validate a with
  | Ret a' =>
      source a' = u "cowrie" /\ session_id a' = session_id a /\
      events a' ≡ₚ events a /\
      StronglySorted (fun x y => instant (timestamp x) <= instant (timestamp y)) (events a') /\
      (forall t, filter (fun e => instant (timestamp e) = t) (events a')
               = filter (fun e => instant (timestamp e) = t) (events a)) /\
      exists e, head (events a') = Some e /\ eventid e = CONNECT /\
        forall e', e' ∈ events a -> instant (timestamp e) <= instant (timestamp e')
  | Raise TypeError => comparable (map timestamp (events a)) = false
  | Raise e => e = ValidationError
  end.
Proof.
  destruct (validate a) as [a'|e] eqn:E.
  - apply validate_inv in E as (Hs & _ & -> & e & es & He & Hc). simpl in *.
    split_and!; [done|done|apply py_sorted_perm|apply py_sorted_sorted
                |intros t; apply (py_sorted_stable (fun e => instant (timestamp e)))|].
    exists e. rewrite He. split_and!; [done|done|].
    intros e' He'. by apply (py_sorted_head_min (fun e => instant (timestamp e)) (events a) e es).
  - revert E. unfold validate, _sort_and_require_connect_first, sort_events.
    destruct (bool_decide _ && _); [|intros; by simplify_eq].
    destruct (comparable _); simpl; [|intros; by simplify_eq].
    py_cases; intros; by simplify_eq.
Qed.

Lemma fingerprint_raw_inj `{LocalZone} a b ca cb :
  connect_time a = Some ca -> connect_time b = Some cb ->
  in_range (astimezone_utc ca) -> in_range (astimezone_utc cb) ->
  source a = u "cowrie" -> source b = u "cowrie" ->
  fingerprint_raw a = fingerprint_raw b ->
  session_id a = session_id b /\ astimezone_utc ca = astimezone_utc cb.
Proof.
  intros Ha Hb Hra Hrb Hsa Hsb. unfold fingerprint_raw. rewrite Ha, Hb, Hsa, Hsb.
  cbn [mbind option_bind py_join]. intros [= E].
  apply split_last_sep in E as [-> E]; [split; [done|by apply isoformat_utc_inj]|..].
  all: intros Hin%isoformat_utc_chars; lia.
Qed.

(** C22: the fingerprint is the identity of a session: under a collision-free hash two
    accepted alerts have one fingerprint exactly when they have the same session id
    and the same connect instant. *)
Theorem fingerprint_identifies `{LocalZone} `{Sha256} a b ca cb :
  Inj (=) (=) sha256_text ->
  (exists p, validate p = Ret a) -> (exists p, validate p = Ret b) ->
  connect_time a = Some ca -> connect_time b = Some cb ->
  in_range (astimezone_utc ca) -> in_range (astimezone_utc cb) ->
  fingerprint a = fingerprint b <->
  session_id a = session_id b /\ astimezone_utc ca = astimezone_utc cb.
Proof.
  intros Hinj [pa Hpa] [pb Hpb] Ha Hb Hra Hrb.
  assert (Hsa : source a = u "cowrie") by (apply validate_inv in Hpa; naive_solver).
  assert (Hsb : source b = u "cowrie") by (apply validate_inv in Hpb; naive_solver).
  split.
  - intros E. apply (fingerprint_raw_inj a b); try done.
    unfold fingerprint in E. by apply (inj (fmap sha256_text)) in E.
  - intros [Hid Ht]. unfold fingerprint, fingerprint_raw.
    by rewrite Ha, Hb, Hsa, Hsb, Hid; simpl; rewrite Ht.
Qed.

Definition toy_event (id : pystr) (t : Z) : CowrieEvent :=
  {| eventid := id; timestamp := Datetime t (Some 0); session := u "s"; ev_src_ip := [];
     ev_sensor := []; message := []; username := None; password := None; input := None;
     url := None; outfile := None; shasum := None; ev_duration_ms := None; version := None |}.
Definition toy_alert (sid : pystr) (es : list CowrieEvent) : SessionAlert :=
  {| source := u "cowrie"; session_id := sid; src_ip := u "203.0.113.7"; sensor := u "hp";
     events := es |}.

(** Two sessions that share a connect instant keep distinct fingerprints. *)
Lemma fingerprint_identifies_witness :
  let a := toy_alert (u "a") [toy_event CONNECT 5; toy_event CLOSED 7] in
  let b := toy_alert (u "b") [toy_event CONNECT 5] in
  let H := (fun _ => 0) : LocalZone in
  @fingerprint H (fun s => s) a <> @fingerprint H (fun s => s) b.
Proof.
  intros a b H E.
  apply (@fingerprint_identifies H (fun s => s) a b
           (Datetime 5 (Some 0)) (Datetime 5 (Some 0))) in E as [E _].
  - discriminate E.
  - intros x y Hxy. exact Hxy.
  - exists a. vm_compute. reflexivity.
  - exists b. vm_compute. reflexivity.
  - reflexivity.
  - reflexivity.
  - vm_compute. split; discriminate.
  - vm_compute. split; discriminate.
Defined.
End Alert.

(** ** [worker/summarize.py] *)

Module Summarize.
Import Alert.

Record SessionSummary : Type := {
  s_source : pystr;
  s_session_id : pystr;
  s_src_ip : pystr;
  s_sensor : pystr;
  s_connect_time : option datetime;
  s_duration_ms : option Z;
  client_version : option pystr;
  login_failed : Z;
  login_success : Z;
  usernames_sample : list pystr;
  first_success_credential : option (pystr * pystr);
  command_count : Z;
  download_count : Z;
  upload_count : Z
}.

Definition LOGIN_FAILED : pystr := u "cowrie.login.failed".
Definition LOGIN_SUCCESS : pystr := u "cowrie.login.success".
Definition _LOGIN_EVENTS : list pystr := [LOGIN_FAILED; LOGIN_SUCCESS].
Definition _COMMAND_EVENTS : list pystr :=
  [u "cowrie.command.input"; u "cowrie.command.failed"].
Definition _USERNAME_SAMPLE_CAP : Z := 5.

(** [sum(1 for e in events if e.eventid in ids)]. *)
Definition count_events (ids : list pystr) (es : list CowrieEvent) : Z :=
  py_len (filter (fun e => eventid e ∈ ids) es).

Fixpoint first_client_version (es : list CowrieEvent) : option pystr :=
  match es with
  | [] => None
  | e :: es' =>
      if bool_decide (eventid e = u "cowrie.client.version" /\ is_Some (version e))
      then version e else first_client_version es'
  end.

Fixpoint first_credential (es : list CowrieEvent) : option (pystr * pystr) :=
  match es with
  | [] => None
  | e :: es' =>
      if bool_decide (eventid e <> LOGIN_SUCCESS) then first_credential es'
      else match username e, password e with
           | Some n, Some p => Some (n, p)
           | _, _ => first_credential es'
           end
  end.

(** The loop that fills [usernames_sample], with its [break] at the cap. *)
Fixpoint sample_usernames (es : list CowrieEvent) (acc : list pystr) : list pystr :=
  match es with
  | [] => acc
  | e :: es' =>
      match username e with
      | Some n =>
          if bool_decide (eventid e ∈ _LOGIN_EVENTS /\ n ∉ acc) then
            let acc' := acc ++ [n] in
            if py_len acc' =? _USERNAME_SAMPLE_CAP then acc' else sample_usernames es' acc'
          else sample_usernames es' acc
      | None => sample_usernames es' acc
      end
  end.

Definition summarize_session (a : SessionAlert) : SessionSummary :=
  {| s_source := source a; s_session_id := session_id a; s_src_ip := src_ip a;
     s_sensor := sensor a; s_connect_time := connect_time a; s_duration_ms := duration_ms a;
     client_version := first_client_version (events a);
     login_failed := count_events [LOGIN_FAILED] (events a);
     login_success := count_events [LOGIN_SUCCESS] (events a);
     usernames_sample := sample_usernames (events a) [];
     first_success_credential := first_credential (events a);
     command_count := count_events _COMMAND_EVENTS (events a);
     download_count := count_events [u "cowrie.session.file_download"] (events a);
     upload_count := count_events [u "cowrie.session.file_upload"] (events a) |}.

(** The distinct login usernames in order of first appearance. *)
Fixpoint distinct_usernames (es : list CowrieEvent) (seen : list pystr) : list pystr :=
  match es with
  | [] => []
  | e :: es' =>
      match username e with
      | Some n =>
          if bool_decide (eventid e ∈ _LOGIN_EVENTS /\ n ∉ seen)
          then n :: distinct_usernames es' (n :: seen) else distinct_usernames es' seen
      | None => distinct_usernames es' seen
      end
  end.

Lemma distinct_usernames_ext es s1 s2 :
  (forall n, n ∈ s1 <-> n ∈ s2) -> distinct_usernames es s1 = distinct_usernames es s2.
Proof.
  revert s1 s2. induction es as [|e es IH]; intros s1 s2 Hs; simpl; [done|].
  destruct (username e) as [n|]; [|by apply IH].
  rewrite (bool_decide_ext _ (eventid e ∈ _LOGIN_EVENTS /\ n ∉ s2)) by (by rewrite Hs).
  case_match; [|by apply IH]. f_equal. apply IH. intros m. by rewrite !elem_of_cons, Hs.
Qed.

Lemma sample_usernames_take es acc :
  py_len acc < _USERNAME_SAMPLE_CAP ->
  sample_usernames es acc =
    acc ++ take (Z.to_nat _USERNAME_SAMPLE_CAP - length acc) (distinct_usernames es acc).
Proof.
  unfold _USERNAME_SAMPLE_CAP, py_len. revert acc. induction es as [|e es IH];
    intros acc Hacc; simpl; [by rewrite take_nil, app_nil_r|].
  destruct (username e) as [n|]; [|by apply IH].
  case_match; [|by apply IH].
  unfold _USERNAME_SAMPLE_CAP, py_len. rewrite length_app. simpl length.
  change (Z.to_nat 5) with 5%nat in *.
  replace (5 - length acc)%nat with (S (4 - length acc))%nat by lia. cbn [take length].
  destruct (Z.eqb_spec (Z.of_nat (length acc + 1)) 5).
  - replace (4 - length acc)%nat with 0%nat by lia. done.
  - rewrite IH by (rewrite length_app; simpl; lia). rewrite length_app, <- app_assoc. simpl.
    replace (5 - (length acc + 1))%nat with (4 - length acc)%nat by lia.
    do 3 f_equal. apply distinct_usernames_ext. set_solver.
Qed.

Lemma first_credential_spec es :
  match first_credential es with
  | Some (n, p) => exists e, e ∈ es /\ eventid e = LOGIN_SUCCESS /\
                     username e = Some n /\ password e = Some p
  | None => forall e, e ∈ es -> eventid e = LOGIN_SUCCESS -> is_Some (username e) ->
              password e = None
  end.
Proof.
  induction es as [|e es IH]; simpl; [by intros e ?%not_elem_of_nil|].
  assert (Hskip : (eventid e = LOGIN_SUCCESS -> is_Some (username e) -> password e = None) ->
    match first_credential es with
    | Some (n, p) => exists e', e' ∈ e :: es /\ eventid e' = LOGIN_SUCCESS /\
                       username e' = Some n /\ password e' = Some p
    | None => forall e', e' ∈ e :: es -> eventid e' = LOGIN_SUCCESS ->
                is_Some (username e') -> password e' = None
    end).
  { intros He. destruct (first_credential es) as [[n p]|].
    - destruct IH as (e' & ? & ?). exists e'. split; [by right|done].
    - intros e' [->|Hin]%elem_of_cons; [done|by apply IH]. }
  destruct (decide (eventid e = LOGIN_SUCCESS)) as [Hl|Hl];
    [rewrite bool_decide_false by tauto|rewrite bool_decide_true by done; by apply Hskip].
  destruct (username e) as [n|] eqn:Hu, (password e) as [p|] eqn:Hp.
  2-4: apply Hskip; intros _ [? ?]; congruence.
  exists e. split_and!; [left|done|done|done].
Qed.

(** Counts of disjoint kinds of events add up. *)
Lemma count_events_app ids1 ids2 es :
  forallb (fun i => bool_decide (i ∉ ids2)) ids1 = true ->
  count_events (ids1 ++ ids2) es = count_events ids1 es + count_events ids2 es.
Proof.
  rewrite forallb_forall. intros Hd. unfold count_events, py_len. induction es as [|e es IH]; [done|].
  rewrite !filter_cons.
  destruct (decide (eventid e ∈ ids1)) as [H1|H1], (decide (eventid e ∈ ids2)) as [H2|H2];
    [by apply list_elem_of_In, Hd, bool_decide_eq_true in H1|..];
    [rewrite decide_True by set_solver|rewrite decide_True by set_solver
    |rewrite decide_False by set_solver]; simpl; lia.
Qed.

Lemma count_events_le ids es : 0 <= count_events ids es <= py_len es.
Proof.
  unfold count_events, py_len. pose proof (length_filter (fun e => eventid e ∈ ids) es). lia.
Qed.

(** The username sample is the first five distinct login usernames in event order,
    the credential is one a successful login used (and is absent only when no
    successful login carries both parts), and no event is counted twice by the five
    counts. *)
Theorem summary_faithful a :
  let s := summarize_session a in
  usernames_sample s = take 5 (distinct_usernames (events a) []) /\
  match first_success_credential s with
  | Some (n, p) => exists e, e ∈ events a /\ eventid e = LOGIN_SUCCESS /\
                     username e = Some n /\ password e = Some p
  | None => forall e, e ∈ events a -> eventid e = LOGIN_SUCCESS -> is_Some (username e) ->
              password e = None
  end /\
  login_failed s + login_success s + command_count s + download_count s + upload_count s
    <= py_len (events a).
Proof.
  simpl. split_and!.
  - apply (sample_usernames_take (events a) [] eq_refl).
  - apply first_credential_spec.
  - rewrite <- !count_events_app; [apply count_events_le|reflexivity..].
Qed.
End Summarize.

(** ** [core/schemas/verdict.py] *)

Module Verdict.

Inductive VerdictCategory : Type :=
| scanning | brute_force | successful_intrusion | malware_delivery
| persistence_attempt | reconnaissance | other.
#[export] Instance category_eq_dec : EqDecision VerdictCategory.
Proof. solve_decision. Defined.

(** The literals, in the source's order. *)
Definition category_literals : list (pystr * VerdictCategory) :=
  [(u "scanning", scanning); (u "brute_force", brute_force);
   (u "successful_intrusion", successful_intrusion); (u "malware_delivery", malware_delivery);
   (u "persistence_attempt", persistence_attempt); (u "reconnaissance", reconnaissance);
   (u "other", other)].

Definition category_str (c : VerdictCategory) : pystr :=
  match c with
  | scanning => u "scanning"
  | brute_force => u "brute_force"
  | successful_intrusion => u "successful_intrusion"
  | malware_delivery => u "malware_delivery"
  | persistence_attempt => u "persistence_attempt"
  | reconnaissance => u "reconnaissance"
  | other => u "other"
  end.

Record Verdict : Type := {
  severity : Z;
  category : VerdictCategory;
  confidence : float;
  reasoning : pystr;
  recommended_action : pystr;
  escalate : bool
}.
#[export] Instance verdict_eq_dec : EqDecision Verdict.
Proof. solve_decision. Defined.

(** The coerced field values of a reply, and the names of its extra fields. *)
Record fields : Type := {
  f_severity : Z;
  f_category : pystr;
  f_confidence : float;
  f_reasoning : pystr;
  f_recommended_action : pystr;
  f_escalate : bool;
  f_extra : list pystr
}.

(** [extra="forbid"] and the [Field] constraints, then the [model_validator]. *)
Definition _escalate_required_for_high_severity (v : Verdict) : outcome exn Verdict :=
  if (4 <=? severity v) && negb (escalate v) then Raise ValidationError else Ret v.

Definition validate (f : fields) : outcome exn Verdict :=
  match dget (f_category f) category_literals with
  | None => Raise ValidationError
  | Some c =>
      if bool_decide (f_extra f = [])
         && (1 <=? f_severity f) && (f_severity f <=? 5)
         && (flt 0 <=? f_confidence f) && (f_confidence f <=? flt 1)
         && (py_len (f_reasoning f) <=? 1200) && (py_len (f_recommended_action f) <=? 300)
      then _escalate_required_for_high_severity
             {| severity := f_severity f; category := c; confidence := f_confidence f;
                reasoning := f_reasoning f; recommended_action := f_recommended_action f;
                escalate := f_escalate f |}
      else Raise ValidationError
  end.

(** [model_dump()]. *)
Definition model_dump (v : Verdict) : fields :=
  {| f_severity := severity v; f_category := category_str (category v);
     f_confidence := confidence v; f_reasoning := reasoning v;
     f_recommended_action := recommended_action v; f_escalate := escalate v;
     f_extra := [] |}.

Definition wf (v : Verdict) : Prop :=
  1 <= severity v <= 5 /\ flt 0 <= confidence v <= flt 1 /\
  py_len (reasoning v) <= 1200 /\ py_len (recommended_action v) <= 300 /\
  (4 <= severity v -> escalate v = true).

Lemma category_literals_str c : dget (category_str c) category_literals = Some c.
Proof. by destruct c. Qed.

Lemma category_literals_inv s c : dget s category_literals = Some c -> s = category_str c.
Proof.
  unfold category_literals. simpl. intros H.
  repeat (case_decide; [by simplify_eq|]). done.
Qed.

Lemma verdict_validate_inv f v : validate f = Ret v -> wf v /\ f = model_dump v.
Proof.
  unfold validate, _escalate_required_for_high_severity, wf, model_dump.
  destruct (dget (f_category f) category_literals) as [c|] eqn:Hc; [|done].
  apply category_literals_inv in Hc.
  case_match eqn:Hg; [|done]. py_reflect. simpl.
  case_match eqn:He; [done|]. intros; simplify_eq/=. split.
  - split_and!; try done. intros. apply andb_false_iff in He as [?|?]; py_reflect; [lia|done].
  - destruct f; simpl in *. by simplify_eq.
Qed.

Lemma validate_model_dump v : wf v -> validate (model_dump v) = Ret v.
Proof.
  intros (Hs & Hc & Hr & Ha & He). unfold validate, _escalate_required_for_high_severity.
  change (f_category (model_dump v)) with (category_str (category v)).
  rewrite category_literals_str. simpl. rewrite !(proj2 (Z.leb_le _ _)) by lia. simpl.
  destruct (Z.leb_spec 4 (severity v)) as [H4|]; simpl; [rewrite (He H4); simpl|].
  all: destruct v; simpl in *; try rewrite (He H4); done.
Qed.

(** Validation accepts exactly the dumps of well-formed verdicts, and answers that
    verdict; a severity of 4 or 5 without [escalate] is among what it rejects. *)
Theorem validate_accepts_exactly f v :
  validate f = Ret v <-> wf v /\ f = model_dump v.
Proof. split; [apply verdict_validate_inv|intros [Hwf ->]; by apply validate_model_dump]. Qed.

(** A severity-4 verdict that escalates. *)
Definition toy_verdict : Verdict :=
  {| severity := 4; category := malware_delivery; confidence := flt 1;
     reasoning := u "wget of a dropper"; recommended_action := u "isolate"; escalate := true |}.

Lemma toy_verdict_wf : wf toy_verdict.
Proof.
  pose proof (proj2 (flt_le 0 1) ltac:(lia)).
  unfold wf, toy_verdict. simpl. split_and!; lia || (vm_compute; discriminate) || done.
Qed.

End Verdict.
