(* ===== verification/Llm.v ===== *)
(** * Llm: the provider seam

    [core/llm.py] (messages, results, [parse_structured], [compute_cost_usd],
    [tool_calls_message]) and [worker/llm_client.py] (the client over the OpenAI SDK).
    The SDK, [json.loads] and pydantic's JSON parser are parameters.  A USD amount
    quantized to six places is an integer number of micro-dollars. *)

From S2P Require Import Prelude Errors Json.
#[local] Open Scope Z_scope.

(** ** [core/llm.py] *)

Record ToolCallFunctionWire : Type := { fw_name : pystr; fw_arguments : pystr }.
(** [type] is always ["function"] in the wire shape. *)
Record ToolCallWire : Type := { tw_id : pystr; tw_function : ToolCallFunctionWire }.

Inductive role : Type := system | user | assistant | tool.

Record ChatMessage : Type := {
  msg_role : role;
  content : pystr;
  tool_calls : option (list ToolCallWire);
  tool_call_id : option pystr
}.

(** [{"role": r, "content": c}]. *)
Definition text_message (r : role) (c : pystr) : ChatMessage :=
  {| msg_role := r; content := c; tool_calls := None; tool_call_id := None |}.

Record ToolSpec : Type := { ts_name : pystr; ts_description : pystr; ts_parameters : json }.

Record LLMUsage : Type := { input_tokens : Z; output_tokens : Z }.

Record LLMResult (T : Type) : Type := {
  parsed : T;
  raw_text : pystr;
  r_model : pystr;
  r_usage : LLMUsage;
  r_cost_usd : Z;
  r_latency_ms : Z
}.
Arguments parsed {T}. Arguments raw_text {T}. Arguments r_model {T}.
Arguments r_usage {T}. Arguments r_cost_usd {T}. Arguments r_latency_ms {T}.

Record ToolCallRequest : Type := { rq_id : pystr; rq_name : pystr; rq_arguments : jobj }.

Record ToolCallTurn : Type := {
  calls : list ToolCallRequest;
  t_model : pystr;
  t_usage : LLMUsage;
  t_cost_usd : Z;
  t_latency_ms : Z
}.

(** A pydantic model a reply is validated against: the text either validates or
    yields [str(err)]. *)
Class ResponseModel (T : Type) : Type := {
  model_name : pystr;
  model_json_schema : json;
  model_validate_json : pystr -> T + pystr
}.
Arguments model_name T {_}. Arguments model_json_schema T {_}.

Section core_llm.
Context `{FloatRepr}.

(** [json.dumps(call.arguments, sort_keys=True)]. *)
Definition sorted_args : dumps_args := DumpsArgs true true None (u ", ") (u ": ").

Definition tool_call_wire (c : ToolCallRequest) : outcome exn ToolCallWire :=
  arguments ← dumps sorted_args (JObj (rq_arguments c));
  Ret {| tw_id := rq_id c;
         tw_function := {| fw_name := rq_name c; fw_arguments := arguments |} |}.

(** The list comprehension over [calls]. *)
Fixpoint tool_call_wires (cs : list ToolCallRequest) : outcome exn (list ToolCallWire) :=
  match cs with
  | [] => Ret []
  | c :: cs' => w ← tool_call_wire c; ws ← tool_call_wires cs'; Ret (w :: ws)
  end.

Definition tool_calls_message (cs : list ToolCallRequest) : outcome exn ChatMessage :=
  ws ← tool_call_wires cs;
  Ret {| msg_role := assistant; content := []; tool_calls := Some ws;
         tool_call_id := None |}.
End core_llm.

Definition parse_structured {T} `{ResponseModel T} (raw : pystr) (model : pystr)
    (usage : LLMUsage) (cost_usd latency_ms : Z) : outcome exn (LLMResult T) :=
  match model_validate_json raw with
  | inl p => Ret {| parsed := p; raw_text := raw; r_model := model; r_usage := usage;
                    r_cost_usd := cost_usd; r_latency_ms := latency_ms |}
  | inr err =>
      Raise (StructuredOutputError (model_name T ++ u " failed validation")
        {| se_raw_text := raw; se_validation_error := err;
           se_input_tokens := input_tokens usage; se_output_tokens := output_tokens usage;
           se_cost_usd := cost_usd; se_latency_ms := latency_ms |})
  end.

(** [ModelPrice]: a [Decimal] is a coefficient over a power of ten; both prices are
    brought to the exponent [- price_scale]. *)
Record ModelPrice : Type := {
  input_per_mtok : Z;
  output_per_mtok : Z;
  price_scale : nat
}.

(** [quantize(..., ROUND_HALF_UP)] of [n / d]: ties go away from zero. *)
Definition round_half_up (n d : Z) : Z := Z.sgn n * ((2 * Z.abs n + d) / (2 * d)).

(** The per-million prices and the six places cancel: the cost in micro-dollars is the
    priced token count itself, rounded. *)
Definition compute_cost_usd (price : ModelPrice) (usage : LLMUsage) : Z :=
  round_half_up
    (input_tokens usage * input_per_mtok price + output_tokens usage * output_per_mtok price)
    (10 ^ Z.of_nat (price_scale price)).

Lemma round_half_up_error n d : 0 < d -> 2 * Z.abs (n - d * round_half_up n d) <= d.
Proof.
  intros Hd. unfold round_half_up.
  pose proof (Z.div_mod (2 * Z.abs n + d) (2 * d) ltac:(lia)).
  pose proof (Z.mod_pos_bound (2 * Z.abs n + d) (2 * d) ltac:(lia)).
  set (q := (2 * Z.abs n + d) / (2 * d)) in *.
  destruct (Z.lt_trichotomy n 0) as [Hn|[->|Hn]].
  - rewrite (Z.sgn_neg n) by lia. nia.
  - simpl. lia.
  - rewrite (Z.sgn_pos n) by lia. nia.
Qed.

Lemma round_half_up_mono a b d : 0 < d -> 0 <= a <= b -> round_half_up a d <= round_half_up b d.
Proof.
  intros Hd Hab. unfold round_half_up.
  assert (Hq : (2 * Z.abs a + d) / (2 * d) <= (2 * Z.abs b + d) / (2 * d))
    by (apply Z.div_le_mono; lia).
  assert (0 <= (2 * Z.abs a + d) / (2 * d)) by (apply Z.div_pos; lia).
  destruct (decide (a = 0)) as [->|].
  - simpl (Z.sgn 0). pose proof (proj2 (Z.sgn_nonneg b) ltac:(lia)). nia.
  - rewrite !Z.sgn_pos by lia. lia.
Qed.

(** Billing is exact to half a micro-dollar per call, nothing is charged for no
    tokens, and with non-negative prices more tokens never cost less. *)
Theorem compute_cost_usd_accurate price u1 u2 :
  let scale := 10 ^ Z.of_nat (price_scale price) in
  let exact u := input_tokens u * input_per_mtok price
                 + output_tokens u * output_per_mtok price in
  2 * Z.abs (exact u1 - scale * compute_cost_usd price u1) <= scale /\
  (input_tokens u1 = 0 -> output_tokens u1 = 0 -> compute_cost_usd price u1 = 0) /\
  (0 <= input_per_mtok price -> 0 <= output_per_mtok price ->
   0 <= input_tokens u1 <= input_tokens u2 -> 0 <= output_tokens u1 <= output_tokens u2 ->
   0 <= compute_cost_usd price u1 <= compute_cost_usd price u2).
Proof.
  intros scale exact.
  assert (Hs : 0 < scale) by (apply Z.pow_pos_nonneg; lia).
  unfold compute_cost_usd. fold scale. split_and!.
  - by apply round_half_up_error.
  - intros -> ->. done.
  - intros. split.
    + change 0 with (round_half_up 0 scale) at 1. apply round_half_up_mono; nia.
    + apply round_half_up_mono; nia.
Qed.

(** ** [worker/llm_client.py] *)

Module Client.

(** One tool call of a provider reply; [type] is what the provider sent. *)
Record sdk_tool_call : Type := {
  sdk_id : pystr; sdk_type : pystr; sdk_name : pystr; sdk_arguments : pystr
}.
Record sdk_message : Type := {
  sdk_content : option pystr; sdk_tool_calls : list sdk_tool_call
}.
Record completion : Type := {
  choices : list sdk_message;
  sdk_usage : option LLMUsage
}.

Inductive json_mode : Type := json_object | json_schema.

Record sdk_request : Type := {
  q_model : pystr;
  q_messages : list ChatMessage;
  q_response_format : json;
  q_tools : option (list ToolSpec)
}.

(** The SDK and the clock, over the state [W] of the outside world. *)
Class Provider (W : Type) : Type := {
  chat_create : sdk_request -> M exn W completion;
  perf_counter : W -> float * W;
  chat_create_fails : forall q w e,
    (chat_create q w).1 = Raise e -> e = OpenAIError \/ e = HTTPError \/ e = CancelledError
}.

Section client.
Context {W : Type} `{Provider W} `{JsonLoads} `{StrRepr}.
Variable _prices : list (pystr * ModelPrice).
Variable _json_mode : json_mode.

Definition unpriced (model : pystr) : exn :=
  ConfigError (u "model " ++ str_repr model ++ u " has no entry in MODEL_PRICES_JSON").

(** [except (openai.OpenAIError, httpx.HTTPError)]. *)
Definition is_sdk_failure (e : exn) : bool :=
  match e with OpenAIError | HTTPError => true | _ => false end.

Definition response_format (T : Type) `{ResponseModel T} : json :=
  match _json_mode with
  | json_object => JObj [(u "type", JStr (u "json_object"))]
  | json_schema =>
      JObj [(u "type", JStr (u "json_schema"));
            (u "json_schema",
             JObj [(u "name", JStr (model_name T)); (u "schema", model_json_schema T);
                   (u "strict", JBool true)])]
  end.

Definition clock : M exn W float := fun w =>
  let '(t, w') := perf_counter w in (Ret t, w').

(** [int((perf_counter() - start) * 1000)]. *)
Definition to_ms (d : float) : Z := Z.quot (d * 1000) fone.

Definition _send (T : Type) `{ResponseModel T} (messages : list ChatMessage)
    (model : pystr) (tool_specs : option (list ToolSpec))
    : M exn W (completion * LLMUsage * Z * Z) :=
  match dget model _prices with
  | None => raise (unpriced model)
  | Some price =>
      start ← clock;
      response ← try_except
        (chat_create {| q_model := model; q_messages := messages;
                        q_response_format := response_format T; q_tools := tool_specs |})
        (fun e => if is_sdk_failure e
                  then Some (raise (LLMCallError (u "LLM call failed: " ++ exn_msg e)))
                  else None);
      stop ← clock;
      let latency_ms := to_ms (stop - start) in
      match choices response, sdk_usage response with
      | [], _ => raise (LLMCallError (u "provider returned no choices"))
      | _, None => raise (LLMCallError (u "provider returned no usage"))
      | _, Some usage =>
          mret (response, usage, compute_cost_usd price usage, latency_ms)
      end
  end.

(** [choices[0].message]; [_send] returned at least one. *)
Definition first_message (r : completion) : sdk_message :=
  default {| sdk_content := None; sdk_tool_calls := [] |} (head (choices r)).

Definition content_reply (T : Type) `{ResponseModel T} (message : sdk_message)
    (model : pystr) (usage : LLMUsage) (cost_usd latency_ms : Z)
    : outcome exn (LLMResult T) :=
  match sdk_content message with
  | None | Some [] => Raise (LLMCallError (u "provider returned no content"))
  | Some content => parse_structured content model usage cost_usd latency_ms
  end.

Definition complete_structured (T : Type) `{ResponseModel T}
    (messages : list ChatMessage) (model : pystr) : M exn W (LLMResult T) :=
  sent ← _send T messages model None;
  let '(response, usage, cost_usd, latency_ms) := sent in
  lift (content_reply T (first_message response) model usage cost_usd latency_ms).

(** The decoding of one [tool_calls] member. *)
Definition decode_call (tc : sdk_tool_call) : outcome exn ToolCallRequest :=
  if bool_decide (sdk_type tc <> u "function")
  then Raise (LLMCallError (u "unsupported tool call type: " ++ sdk_type tc))
  else
    let request args :=
      Ret {| rq_id := sdk_id tc; rq_name := sdk_name tc; rq_arguments := args |} in
    if bool_decide (strip (sdk_arguments tc) = []) then request []
    else match json_loads (sdk_arguments tc) with
         | Some (JObj args) => request args
         | _ => Raise (LLMCallError (u "tool call arguments are not a JSON object"))
         end.

Fixpoint decode_calls (tcs : list sdk_tool_call) : outcome exn (list ToolCallRequest) :=
  match tcs with
  | [] => Ret []
  | tc :: tcs' => c ← decode_call tc; cs ← decode_calls tcs'; Ret (c :: cs)
  end.

Definition complete_with_tools (T : Type) `{ResponseModel T}
    (messages : list ChatMessage) (tools : list ToolSpec) (model : pystr)
    : M exn W (LLMResult T + ToolCallTurn) :=
  match tools with
  | [] => raise (ValueError (u "complete_with_tools requires at least one tool"))
  | _ =>
      sent ← _send T messages model (Some tools);
      let '(response, usage, cost_usd, latency_ms) := sent in
      let message := first_message response in
      match sdk_tool_calls message with
      | [] => lift (r ← content_reply T message model usage cost_usd latency_ms; Ret (inl r))
      | tcs =>
          lift (cs ← decode_calls tcs;
                Ret (inr {| calls := cs; t_model := model; t_usage := usage;
                            t_cost_usd := cost_usd; t_latency_ms := latency_ms |}))
      end
  end.

(** What [_send] can answer: nothing is sent for an unpriced model, a reply is billed
    at the model's price for the provider's own counts, and a failure is typed. *)
Lemma send_spec T `{ResponseModel T} messages model specs w :
  match _send T messages model specs w with
  | (Ret (r, usage, cost, _), _) =>
      exists price, dget model _prices = Some price /\
        cost = compute_cost_usd price usage
  | (Raise e, w') =>
      (e = unpriced model /\ w' = w /\ dget model _prices = None) \/
      ((exists m, e = LLMCallError m) /\ is_Some (dget model _prices)) \/
      e = CancelledError
  end.
Proof.
  unfold _send. destruct (dget model _prices) as [price|]; [|by left].
  unfold mbind, M_bind, clock, try_except, raise, mret, M_ret.
  destruct (perf_counter w) as [start w1].
  set (q := {| q_model := model |}).
  pose proof (chat_create_fails q w1) as Hf.
  destruct (chat_create q w1) as [[r|e] w2]; simpl in *.
  - destruct (perf_counter w2) as [stop w3].
    destruct (choices r), (sdk_usage r); simpl; eauto 10.
  - destruct (Hf e eq_refl) as [-> | [-> | ->]]; simpl; eauto 10.
Qed.

Lemma content_reply_spec T `{ResponseModel T} m model usage cost latency :
  match content_reply T m model usage cost latency with
  | Ret r => r_usage r = usage /\ r_cost_usd r = cost
  | Raise e =>
      (exists msg, e = LLMCallError msg) \/
      (exists msg se, e = StructuredOutputError msg se /\ se_cost_usd se = cost /\
         usage = {| input_tokens := se_input_tokens se;
                    output_tokens := se_output_tokens se |})
  end.
Proof.
  unfold content_reply, parse_structured.
  destruct (sdk_content m) as [[|c s]|]; eauto.
  destruct (model_validate_json (c :: s)); [done|]. right.
  do 2 eexists. split_and!; [done|done|]. by destruct usage.
Qed.

Lemma decode_call_spec tc e :
  decode_call tc = Raise e -> exists m, e = LLMCallError m.
Proof. unfold decode_call. repeat case_match; intros; simplify_eq; eauto. Qed.

Lemma decode_calls_spec tcs :
  match decode_calls tcs with
  | Ret cs => length cs = length tcs
  | Raise e => exists m, e = LLMCallError m
  end.
Proof.
  induction tcs as [|tc tcs IH]; [done|].
  simpl. unfold mbind, outcome_bind.
  destruct (decode_call tc) as [c|e] eqn:E; [|by apply decode_call_spec in E].
  destruct (decode_calls tcs); [|done]. simpl. congruence.
Qed.

(** A call with tools never reaches the provider without tools or a price, bills
    every reply - a malformed one too - at the model's price for the provider's token
    counts, asks for at least one tool when it is a tool turn, and raises only typed
    errors or a cancellation. *)
Theorem complete_with_tools_contract T `{ResponseModel T} messages tools model w :
  match complete_with_tools T messages tools model w with
  | (Ret (inl r), _) =>
      exists price, dget model _prices = Some price /\
        r_cost_usd r = compute_cost_usd price (r_usage r)
  | (Ret (inr turn), _) =>
      calls turn <> [] /\
      exists price, dget model _prices = Some price /\
        t_cost_usd turn = compute_cost_usd price (t_usage turn)
  | (Raise (StructuredOutputError _ se), _) =>
      exists price, dget model _prices = Some price /\
        se_cost_usd se = compute_cost_usd price
          {| input_tokens := se_input_tokens se; output_tokens := se_output_tokens se |}
  | (Raise e, w') =>
      (tools = [] /\ w' = w /\ exists m, e = ValueError m) \/
      (dget model _prices = None /\ w' = w /\ e = unpriced model) \/
      (exists m, e = LLMCallError m) \/ e = CancelledError
  end.
Proof.
  unfold complete_with_tools. destruct tools as [|sp specs]; [simpl; eauto|].
  unfold mbind, M_bind, lift.
  pose proof (send_spec T messages model (Some (sp :: specs)) w) as Hs.
  destruct (_send T messages model (Some (sp :: specs)) w) as [[[[[r usage] cost] lat]|e] w'].
  2: { destruct Hs as [(-> & -> & Hp)|[([m ->] & _)| ->]]; simpl; eauto 10. }
  destruct Hs as (price & Hp & ->).
  destruct (sdk_tool_calls (first_message r)) as [|tc tcs].
  - pose proof (content_reply_spec T (first_message r) model usage
                  (compute_cost_usd price usage) lat) as Hc.
    unfold mbind, outcome_bind. simpl.
    destruct (content_reply T _ model usage _ lat) as [rep|e]; simpl.
    + destruct Hc as [-> ->]. eauto.
    + destruct Hc as [[m ->]|(m & se & -> & -> & <-)]; simpl; eauto 10.
  - pose proof (decode_calls_spec (tc :: tcs)) as Hd. cbn [lift].
    unfold mbind, outcome_bind.
    destruct (decode_calls (tc :: tcs)) as [cs|e]; simpl.
    + split; [|eauto]. by destruct cs.
    + destruct Hd as [m ->]. simpl. eauto 10.
Qed.
End client.
End Client.
