(* ===== verification/Prompts.v ===== *)
(** * Prompts: templates, messages and the attacker-data markers

    [worker/prompts/__init__.py].  The prompt files are a parameter, and so is
    [summary.model_dump_json], whose text is treated as the attacker's: nothing is
    assumed of it. *)

From S2P Require Import Prelude Errors Json Datetime Schemas Llm.
#[local] Open Scope Z_scope.

Definition SCHEMA_PLACEHOLDER : pystr := u "{{VERDICT_SCHEMA}}".
Definition ALERT_DATA_BEGIN : pystr := u "<<<ALERT_DATA>>>".
Definition ALERT_DATA_END : pystr := u "<<<END_ALERT_DATA>>>".

(** [PROMPTS_DIR / f"{version}.md"]: its path as text, and its text when it is a file. *)
Class PromptFiles : Type := {
  prompt_path : pystr -> pystr;
  prompt_text : pystr -> option pystr
}.

(** [summary.model_dump_json(indent=2)]. *)
Class SummaryDump : Type := summary_json : Summarize.SessionSummary -> pystr.

Definition load_prompt `{PromptFiles} `{StrRepr} (version : pystr) : outcome exn pystr :=
  match prompt_text version with
  | None =>
      Raise (ConfigError (u "prompt version " ++ str_repr version ++ u " not found at "
                          ++ prompt_path version))
  | Some text =>
      if negb (substrb SCHEMA_PLACEHOLDER text) then
        Raise (ConfigError (u "prompt version " ++ str_repr version ++ u " is missing the "
                            ++ SCHEMA_PLACEHOLDER ++ u " placeholder"))
      else if negb (substrb ALERT_DATA_BEGIN text) || negb (substrb ALERT_DATA_END text) then
        Raise (ConfigError (u "prompt version " ++ str_repr version
                            ++ u " is missing the attacker-data markers"))
      else Ret text
  end.

(** The run [<<<] and the run of U+2039 that replaces it. *)
Definition LT3 : pystr := [60; 60; 60].
Definition ANGLE3 : pystr := [8249; 8249; 8249].

Definition delimit_attacker_data (text : pystr) : pystr :=
  ALERT_DATA_BEGIN ++ [10] ++ py_replace LT3 ANGLE3 text ++ [10] ++ ALERT_DATA_END.

Definition build_messages `{FloatRepr} `{SummaryDump} (template : pystr)
    (summary : Summarize.SessionSummary) (schema : json) : outcome exn (list ChatMessage) :=
  schema_json ← dumps (indent_args 2) schema;
  let system_content := py_replace SCHEMA_PLACEHOLDER schema_json template in
  let user_content := delimit_attacker_data (summary_json summary)
                      ++ [10] ++ u "Return the verdict JSON object now." in
  Ret [text_message system system_content; text_message user user_content].

(** [json.dumps(result, sort_keys=True, ensure_ascii=False)]. *)
Definition result_args : dumps_args := DumpsArgs true false None (u ", ") (u ": ").

Definition build_tool_result_message `{FloatRepr} (call_id : pystr) (result : jobj)
    : outcome exn ChatMessage :=
  text ← dumps result_args (JObj result);
  Ret {| msg_role := tool; content := delimit_attacker_data text; tool_calls := None;
         tool_call_id := Some call_id |}.

(** ** Lemmas *)

(** A run of [<] at the head of the replaced text was at the head of the text. *)
Lemma replace_run k s :
  prefixb (repeat 60 k) (replace_aux LT3 ANGLE3 0 s) = true -> prefixb (repeat 60 k) s = true.
Proof.
  revert k. induction s as [|c s IH]; intros [|k]; try done.
  cbn [replace_aux]. destruct (prefixb LT3 (c :: s)); [done|].
  simpl. rewrite !andb_true_iff. intros [? ?%IH]. done.
Qed.

Lemma replace_no_run skip j s :
  prefixb LT3 (drop j (replace_aux LT3 ANGLE3 skip s)) = false.
Proof.
  revert skip j. induction s as [|c s IH]; intros skip j; [by destruct j|].
  cbn [replace_aux]. destruct skip as [|skip]; [|apply IH].
  destruct (prefixb LT3 (c :: s)) eqn:E.
  - destruct j as [|[|[|j]]]; [done..|]. apply IH.
  - destruct j as [|j]; [|apply IH]. simpl drop.
    destruct (prefixb LT3 (c :: replace_aux LT3 ANGLE3 0 s)) eqn:E'; [|done].
    rewrite <- E. symmetry. apply (replace_run 3). cbn [replace_aux].
    by rewrite E.
Qed.

(** A run of [<] does not extend over a line break. *)
Lemma run_stops_at_newline k s t :
  prefixb (repeat 60 k) (s ++ 10 :: t) = true -> prefixb (repeat 60 k) s = true.
Proof.
  revert s. induction k as [|k IH]; intros [|c s]; try done.
  simpl. rewrite !andb_true_iff. intros [? ?%IH]. done.
Qed.

(** Where a run can start in [a ++ "\n" ++ b]: in [a] or in [b]. *)
Lemma run_in_lines i a b :
  prefixb LT3 (drop i (a ++ 10 :: b)) = true ->
  prefixb LT3 (drop i a) = true \/
  exists j, i = (length a + 1 + j)%nat /\ prefixb LT3 (drop j b) = true.
Proof.
  intros H. destruct (decide (i <= length a)%nat) as [Hi|Hi].
  - left. rewrite drop_app_le in H by done. by apply (run_stops_at_newline 3) in H.
  - right. exists (i - length a - 1)%nat. split; [lia|].
    rewrite drop_app_ge in H by lia.
    replace (i - length a)%nat with (S (i - length a - 1)) in H by lia. done.
Qed.

(** A run in one of the marker lines starts it. *)
Lemma run_in_marker m i :
  m = ALERT_DATA_BEGIN \/ m = ALERT_DATA_END -> prefixb LT3 (drop i m) = true -> i = 0%nat.
Proof.
  intros Hm H. destruct (decide (i < length m)%nat) as [Hi|Hi].
  - destruct Hm as [-> | ->]; do 20 (destruct i as [|i]; [done|]); simpl in Hi; lia.
  - by rewrite drop_ge in H by lia.
Qed.

(** C21: whatever the attacker's text, the delimited block holds exactly two runs of
    [<<<], the ones that open its first and its last line; so the only markers in it are
    the opening one at its start and the closing one at its end. *)
Theorem delimit_unforgeable text i :
  let block := delimit_attacker_data text in
  let closing := (length block - length ALERT_DATA_END)%nat in
  prefixb LT3 (drop i block) = true <->
  i = 0%nat \/ i = closing.
Proof.
  cbv zeta. unfold delimit_attacker_data, py_replace.
  set (t' := replace_aux LT3 ANGLE3 0 text).
  assert (Hc : (length (ALERT_DATA_BEGIN ++ [10%Z] ++ t' ++ [10%Z] ++ ALERT_DATA_END)
                - length ALERT_DATA_END = length ALERT_DATA_BEGIN + 1 + (length t' + 1))%nat).
  { rewrite !length_app. simpl. lia. }
  rewrite Hc. split.
  - intros H. apply run_in_lines in H as [H|(j & -> & H)].
    + left. eapply run_in_marker; [|done]. by left.
    + apply run_in_lines in H as [H|(j' & -> & H)].
      * exfalso. unfold t' in H. by rewrite replace_no_run in H.
      * right. assert (j' = 0%nat) as -> by (eapply run_in_marker; [|done]; by right). lia.
  - intros [->| ->]; [done|].
    replace (ALERT_DATA_BEGIN ++ [10] ++ t' ++ [10] ++ ALERT_DATA_END)
      with ((ALERT_DATA_BEGIN ++ [10] ++ t' ++ [10]) ++ ALERT_DATA_END) by (by rewrite <- !(assoc_L (++))).
    rewrite drop_app_length'; [done|]. rewrite !length_app. simpl. lia.
Qed.

(** [load_prompt] answers a text with every marker, or a [ConfigError]. *)
Lemma load_prompt_spec `{PromptFiles} `{StrRepr} version :
  match load_prompt version with
  | Ret text => prompt_text version = Some text /\
      substrb SCHEMA_PLACEHOLDER text = true /\
      substrb ALERT_DATA_BEGIN text = true /\ substrb ALERT_DATA_END text = true
  | Raise e => exists m, e = ConfigError m
  end.
Proof.
  unfold load_prompt. destruct (prompt_text version) as [text|]; [|eauto].
  destruct (substrb SCHEMA_PLACEHOLDER text) eqn:E1; simpl; [|eauto].
  destruct (substrb ALERT_DATA_BEGIN text) eqn:E2; simpl; [|eauto].
  destruct (substrb ALERT_DATA_END text) eqn:E3; simpl; eauto.
Qed.
