(* ===== verification/Budget.v ===== *)
(** * Budget: the daily token counter

    [core/budget.py] and [worker/budget.py]: the [budget:{utc_date}] key, the
    fail-open read, the pre-call decision and the increment.  The Redis commands and
    [int(bytes)] are parameters. *)

From S2P Require Import Prelude Errors Datetime Cache.
#[local] Open Scope Z_scope.

(** [int(raw)] of the bytes of a counter: [None] is a [ValueError]. *)
Class PyInt : Type := py_int : pybytes -> option Z.

(** The wall clock and the counter commands, over the state [W] of the outside world.
    [incrby_expire] is the [INCRBY]/[EXPIRE] pipeline, answering [INCRBY]'s result. *)
Class RedisCounters (W : Type) : Type := {
  utc_now : W -> Z * W;
  counter_get : pystr -> M exn W (option pybytes);
  incrby_expire : pystr -> Z -> Z -> M exn W Z
}.

Section budget.
Context {W : Type} `{RedisCounters W} `{PyInt}.

Definition BUDGET_COUNTER_TTL_S : Z := 172800.

Definition day_key (now : Z) : pystr := u "budget:" ++ date_isoformat now.

Definition budget_key : M exn W pystr := fun w =>
  let '(now, w') := utc_now w in (Ret (day_key now), w').

(** [redis] is whether a client is wired. *)
Definition read_tokens_today (redis : bool) : M exn W Z :=
  if negb redis then mret 0
  else
    raw ← try_except (key ← budget_key; v ← counter_get key; mret (inl v))
            (fun e => if is_redis_failure e then Some (mret (inr tt)) else None);
    match raw with
    | inr tt | inl None => mret 0
    | inl (Some b) =>
        match py_int b with Some n => mret n | None => raise (ValueError []) end
    end.

Definition check_and_would_exceed (budget would_add_estimate : Z) : M exn W bool :=
  if budget =? 0 then mret false
  else today ← read_tokens_today true; mret (budget <=? today + would_add_estimate).

Definition record_tokens (tokens : Z) : M exn W Z :=
  key ← budget_key; incrby_expire key tokens BUDGET_COUNTER_TTL_S.

(** The decision, by what the counter answers: an unlimited budget never reads it,
    a dead Redis and a missing counter read as zero. *)
Lemma check_and_would_exceed_spec budget est w :
  check_and_would_exceed budget est w =
    if budget =? 0 then (Ret false, w)
    else
      let '(now, w1) := utc_now w in
      let '(o, w2) := counter_get (day_key now) w1 in
      (match o with
       | Ret None => Ret (budget <=? est)
       | Ret (Some b) =>
           match py_int b with
           | Some n => Ret (budget <=? n + est)
           | None => Raise (ValueError [])
           end
       | Raise e => if is_redis_failure e then Ret (budget <=? est) else Raise e
       end, w2).
Proof.
  unfold check_and_would_exceed. destruct (budget =? 0); [done|].
  unfold read_tokens_today, try_except, budget_key, raise, mbind, mret, M_bind, M_ret. simpl.
  destruct (utc_now w) as [now w1].
  destruct (counter_get (day_key now) w1) as [[[b|]|e] w2]; simpl; [|done|].
  - by destruct (py_int b).
  - by destruct (is_redis_failure e).
Qed.
End budget.
