(* ===== verification/Policy.v ===== *)
(** * Policy: routing, the retry policy and the pipeline's result types

    [worker/routing.py], [worker/retry.py] and [worker/outcome.py]. *)

From S2P Require Import Prelude Errors Json Datetime Schemas.
#[local] Open Scope Z_scope.
Import Verdict.

(** ** [worker/routing.py] *)

Module Routing.

Inductive EscalationReason : Type := reason_severity | reason_confidence | reason_none.

Record RoutingDecision : Type := { d_escalate : bool; d_reason : EscalationReason }.

Definition should_escalate (v : Verdict) (severity_gte : Z) (confidence_lt : float)
    : RoutingDecision :=
  if severity_gte <=? severity v then {| d_escalate := true; d_reason := reason_severity |}
  else if confidence v <? confidence_lt
       then {| d_escalate := true; d_reason := reason_confidence |}
       else {| d_escalate := false; d_reason := reason_none |}.

(** Routing escalates exactly on a severity at the threshold or a confidence
    strictly below its own, names the severity first, and is monotone: a verdict at
    least as severe and at most as confident as one that escalates escalates too. *)
Theorem should_escalate_spec v sev conf :
  let d := should_escalate v sev conf in
  (d_escalate d = true <-> sev <= severity v \/ confidence v < conf) /\
  (d_reason d = reason_severity <-> sev <= severity v) /\
  (d_reason d = reason_none <-> d_escalate d = false) /\
  (forall v', d_escalate d = true -> severity v <= severity v' -> confidence v' <= confidence v ->
     d_escalate (should_escalate v' sev conf) = true).
Proof.
  simpl. unfold should_escalate.
  destruct (Z.leb_spec sev (severity v)), (Z.ltb_spec (confidence v) conf); simpl;
    split_and!; try (split; intros; try done; try lia); try naive_solver lia.
  all: intros v' _ Hs Hc; destruct (Z.leb_spec sev (severity v')); simpl; try done; try lia.
  destruct (Z.ltb_spec (confidence v') conf); simpl; try done; lia.
Qed.
End Routing.

(** ** [worker/retry.py] *)

Module Retries.

Inductive action : Type := retry | fail.
Record RetryDecision : Type := { r_action : action; defer_s : float; reason : pystr }.

(** [min(base_s * (2.0 ** (job_try - 1)), max_s)]: [2.0 ** n] is exact up to [n = 1023] and
    raises [OverflowError] beyond; a product past the largest float is [inf], above any
    finite cap, as the exact product is. *)
Definition backoff_seconds (job_try : Z) (base_s max_s : float) : outcome exn float :=
  if job_try <? 1 then Raise (ValueError (u "job_try must be >= 1"))
  else if 1024 <=? job_try - 1 then Raise OverflowError
  else Ret (Z.min (base_s * 2 ^ (job_try - 1)) max_s).

Definition exn_reason (e : exn) : pystr :=
  match sb_class_of e with Some c => code c | None => exn_name e end.

Definition decide_retry (e : exn) (job_try max_tries : Z) (base_s max_s : float)
    : outcome exn RetryDecision :=
  if job_try <? 1 then Raise (ValueError (u "job_try must be >= 1"))
  else if max_tries <? 1 then Raise (ValueError (u "max_tries must be >= 1"))
  else if max_tries <=? job_try then
    Ret {| r_action := fail; defer_s := 0; reason := exn_reason e |}
  else
    d ← backoff_seconds job_try base_s max_s;
    Ret {| r_action := retry; defer_s := d; reason := exn_reason e |}.

Lemma backoff_seconds_mono n m base_s max_s dn dm :
  0 <= base_s -> 1 <= n <= m ->
  backoff_seconds n base_s max_s = Ret dn -> backoff_seconds m base_s max_s = Ret dm ->
  dn <= dm.
Proof.
  unfold backoff_seconds. intros Hb Hnm.
  repeat case_match; intros; simplify_eq. py_reflect.
  assert (2 ^ (n - 1) <= 2 ^ (m - 1)) by (apply Z.pow_le_mono_r; lia). nia.
Qed.

(** A job is tried [max_tries] times: every earlier failure is retried after a
    delay within the cap that doubles until it, whatever the exception; the last is
    terminal with no delay; the logged reason depends on the exception's class alone. *)
Theorem decide_retry_spec e job_try max_tries base_s max_s :
  1 <= job_try -> 1 <= max_tries <= 1025 -> 0 <= base_s -> 0 <= max_s ->
  exists d, decide_retry e job_try max_tries base_s max_s = Ret d /\
    (r_action d = retry <-> job_try < max_tries) /\
    0 <= defer_s d <= max_s /\
    (r_action d = retry -> defer_s d < max_s -> defer_s d = base_s * 2 ^ (job_try - 1)) /\
    (r_action d = fail -> defer_s d = 0) /\
    (forall m, reason d = exn_reason (match e with
                                      | SBError c _ => SBError c m
                                      | ValueError _ => ValueError m
                                      | RuntimeError _ => RuntimeError m
                                      | e => e end)).
Proof.
  intros Hj Hm Hb Hx. unfold decide_retry, backoff_seconds.
  rewrite !(proj2 (Z.ltb_ge _ _)) by lia.
  assert (Hr : forall m, exn_reason e = exn_reason (match e with
                | SBError c _ => SBError c m | ValueError _ => ValueError m
                | RuntimeError _ => RuntimeError m | e => e end)) by (intros m; by destruct e).
  destruct (Z.leb_spec max_tries job_try) as [Hle|Hlt].
  - eexists. split; [done|]. simpl. split_and!; try done; try lia; naive_solver lia.
  - rewrite (proj2 (Z.leb_gt _ _)) by lia.
    assert (0 <= base_s * 2 ^ (job_try - 1))
      by (apply Z.mul_nonneg_nonneg; [done|apply Z.pow_nonneg; lia]).
    eexists. split; [done|]. simpl. split_and!; try done; lia.
Qed.

(** The second of three tries, on a transport failure. *)
Lemma decide_retry_spec_witness :
  exists d, decide_retry (LLMCallError (u "timeout")) 2 3 (flt 2) (flt 60) = Ret d /\
    r_action d = retry.
Proof.
  pose proof fone_pos.
  destruct (decide_retry_spec (LLMCallError (u "timeout")) 2 3 (flt 2) (flt 60))
    as (d & Hd & Ha & _); [lia|lia|unfold flt; lia|unfold flt; lia|].
  exists d. split; [exact Hd|]. apply Ha. lia.
Defined.
End Retries.

(** ** [worker/outcome.py] *)

Record ToolCallRecord : Type := {
  seq : Z;
  tool_name : pystr;
  arguments : jobj;
  result : jobj;
  tc_latency_ms : Z
}.

Record TriageOutcome : Type := {
  o_verdict : Verdict;
  o_model : pystr;
  prompt_version : pystr;
  o_input_tokens : Z;
  o_output_tokens : Z;
  o_cost_usd : Z;
  o_latency_ms : Z;
  retried : bool;
  o_tool_calls : list ToolCallRecord;
  model_primary : option pystr;
  escalated_model : bool
}.

(** [self.model_primary or self.model]: an empty string is false. *)
Definition effective_model_primary (o : TriageOutcome) : pystr :=
  match model_primary o with None | Some [] => o_model o | Some m => m end.
