(* ===== verification/ToolBase.v ===== *)
(** * ToolBase: the tool protocol

    [worker/tools/base.py] and the interface of [ToolRegistry] the pipeline uses. *)

From S2P Require Import Prelude Errors Json Datetime Schemas Llm.
#[local] Open Scope Z_scope.

(** [ctx_session] is whether the triage transaction's session was passed. *)
Record ToolContext : Type := {
  alert : Alert.SessionAlert;
  ctx_session : bool;
  ctx_now : datetime
}.

Definition unavailable (reason : pystr) : jobj :=
  [(u "unavailable", JBool true); (u "reason", JStr reason)].

(** A tool over the state [W] of the outside world. *)
Record Tool (W : Type) : Type := {
  name : pystr;
  description : pystr;
  parameters : json;
  external : bool;
  tool_run : jobj -> ToolContext -> M exn W jobj
}.
Arguments name {W}. Arguments description {W}. Arguments parameters {W}.
Arguments external {W}. Arguments tool_run {W}.

Definition spec_for {W} (t : Tool W) : ToolSpec :=
  {| ts_name := name t; ts_description := description t; ts_parameters := parameters t |}.

Record ToolExecution : Type := { ex_result : jobj; ex_latency_ms : Z }.

(** What the pipeline needs of a registry: the specs it offers and [execute], which lets
    only a missing fixture of a strict replay and a cancellation through. *)
Record Registry (W : Type) : Type := {
  specs : list ToolSpec;
  execute : pystr -> jobj -> ToolContext -> M exn W ToolExecution;
  execute_raises : forall n args ctx w e, (execute n args ctx w).1 = Raise e ->
    (exists m, e = FixtureMissingError m) \/ e = CancelledError
}.
Arguments specs {W}. Arguments execute {W}.
