(* ===== verification/Tools.v ===== *)
(** * Tools: the registry, its recorders and the tools that need no database

    [worker/tools/registry.py], [recorder.py], [session_commands.py], [asset_info.py],
    [geo_asn.py] and [ip_reputation.py].  The fixture files, the parsed fleet file, the
    GeoLite2 readers, the HTTP client, [ipaddress] and [json.loads] are parameters. *)

From S2P Require Import Prelude Errors Cache Json Datetime Schemas Llm ToolBase.
#[local] Open Scope Z_scope.

(** [time.perf_counter] or [time.monotonic], over the outside world. *)
Class Clock (W : Type) : Type := read_clock : W -> float * W.

Definition clock_tick {W} `{Clock W} : M exn W float := fun w =>
  let '(t, w') := read_clock w in (Ret t, w').

(** [round(x)] of [n / d]: ties go to the even neighbour. *)
Definition round_half_even (n d : Z) : Z :=
  let q := n / d in
  let r := n mod d in
  if 2 * r <? d then q
  else if d <? 2 * r then q + 1
  else if Z.even q then q else q + 1.

(** [str(ipaddress.ip_address(s))], [None] for a [ValueError]. *)
Class IpAddress : Type := canonical_ip : pystr -> option pystr.

(** [json.loads] of bytes, [None] for a [ValueError] (a [UnicodeDecodeError] is one). *)
Class JsonLoadsBytes : Type := json_loads_bytes : pybytes -> option json.

(** A part [C] of the outside world [W]. *)
Class Part (W C : Type) : Type := {
  focus : W -> C;
  refocus : C -> W -> W;
  focus_refocus : forall c w, focus (refocus c w) = c;
  refocus_focus : forall w, refocus (focus w) w = w
}.

Definition on_part {W C A} `{Part W C} (m : M exn C A) : M exn W A := fun w =>
  let '(o, c) := m (focus w) in (o, refocus c w).

(** ** [worker/tools/registry.py] *)

Module ToolReg.
Section registry.
Context {W : Type} `{Clock W} `{FloatRepr}.

(** [json.dumps(result, sort_keys=True, ensure_ascii=False, separators=(",", ":"))]. *)
Definition compact_args : dumps_args := DumpsArgs true false None (u ",") (u ":").

Definition truncate_result (result : jobj) (max_chars : Z) : outcome exn jobj :=
  serialized ← dumps compact_args (JObj result);
  if py_len serialized <=? max_chars then Ret result
  else Ret [(u "truncated", JBool true); (u "original_chars", JInt (py_len serialized));
            (u "preview", JStr (py_take max_chars serialized))].

(** How a recorder runs a tool. *)
Definition ToolRecorder : Type := Tool W -> jobj -> ToolContext -> M exn W jobj.

Record ToolRegistry : Type := {
  _tools : list (Tool W);
  _recorder : ToolRecorder;
  _max_result_chars : Z
}.

Definition __init__ (tools : list (Tool W)) (recorder : ToolRecorder)
    (max_result_chars : Z) : outcome exn ToolRegistry :=
  if negb (bool_decide (NoDup (map name tools)))
  then Raise (ValueError (u "duplicate tool name(s)"))
  else if max_result_chars <? 1 then Raise (ValueError (u "max_result_chars must be >= 1"))
  else Ret {| _tools := tools; _recorder := recorder; _max_result_chars := max_result_chars |}.

Definition names (self : ToolRegistry) : list pystr := map name (_tools self).
Definition registry_specs (self : ToolRegistry) : list ToolSpec := map spec_for (_tools self).
Definition by_name (self : ToolRegistry) : list (pystr * Tool W) :=
  map (fun t => (name t, t)) (_tools self).

Definition is_fixture_missing (e : exn) : bool := isinstance e CFixtureMissingError.

(** The two backstops: the first around the run, the second around the truncation. *)
Definition guarded_run (self : ToolRegistry) (t : Tool W) (arguments : jobj)
    (ctx : ToolContext) : M exn W jobj :=
  try_except (_recorder self t arguments ctx)
    (fun e => if is_fixture_missing e then None
              else if is_exception e
                   then Some (mret (unavailable (exn_name e ++ u ": tool raised")))
                   else None).

Definition guarded_truncate (self : ToolRegistry) (result : jobj) : outcome exn jobj :=
  match truncate_result result (_max_result_chars self) with
  | Ret r => Ret r
  | Raise e =>
      if is_exception e
      then truncate_result (unavailable (exn_name e ++ u ": result not serializable"))
             (_max_result_chars self)
      else Raise e
  end.

(** The end of [execute]: the latency of the run alone, then the truncation. *)
Definition timed_truncate (self : ToolRegistry) (start : float) (result : jobj)
    : M exn W ToolExecution :=
  stop ← clock_tick;
  let latency_ms := round_half_even ((stop - start) * 1000) fone in
  truncated ← lift (guarded_truncate self result);
  mret {| ex_result := truncated; ex_latency_ms := latency_ms |}.

Definition registry_execute (self : ToolRegistry) (n : pystr) (arguments : jobj)
    (ctx : ToolContext) : M exn W ToolExecution :=
  match dget n (by_name self) with
  | None => mret {| ex_result := unavailable (u "unknown_tool"); ex_latency_ms := 0 |}
  | Some t =>
      start ← clock_tick;
      result ← guarded_run self t arguments ctx;
      timed_truncate self start result
  end.

(** *** Lemmas *)

Lemma truncate_result_spec result max_chars :
  match truncate_result result max_chars with
  | Ret r =>
      let text := encode compact_args 0 (JObj result) in
      (py_len text <= max_chars /\ r = result) \/
      (max_chars < py_len text /\
       r = [(u "truncated", JBool true); (u "original_chars", JInt (py_len text));
            (u "preview", JStr (py_take max_chars text))])
  | Raise e => e = TypeError /\ serializable (JObj result) = false
  end.
Proof.
  unfold truncate_result, mbind, outcome_bind, dumps.
  destruct (serializable (JObj result)); [|done].
  destruct (Z.leb_spec (py_len (encode compact_args 0 (JObj result))) max_chars); simpl; auto.
Qed.

(** What reaches the model always serializes. *)
Lemma truncate_result_serializable result max_chars r :
  truncate_result result max_chars = Ret r -> serializable (JObj r) = true.
Proof.
  unfold truncate_result, mbind, outcome_bind, dumps.
  destruct (serializable (JObj result)) eqn:E; [|done].
  case_match; intros; by simplify_eq.
Qed.

Lemma guarded_truncate_ret self result :
  exists r, guarded_truncate self result = Ret r /\ serializable (JObj r) = true.
Proof.
  unfold guarded_truncate. pose proof (truncate_result_spec result (_max_result_chars self)) as Hs.
  destruct (truncate_result result (_max_result_chars self)) as [r|e] eqn:E.
  - exists r. split; [done|]. by eapply truncate_result_serializable.
  - destruct Hs as [-> _]. simpl.
    match goal with |- exists _, truncate_result ?x ?n = _ /\ _ =>
      pose proof (truncate_result_spec x n) as Hs'; destruct (truncate_result x n) as [r|e] eqn:E' end.
    + exists r. split; [done|]. by eapply truncate_result_serializable.
    + by destruct Hs' as [_ ?].
Qed.

Lemma timed_truncate_spec self start result w :
  exists ex w', timed_truncate self start result w = (Ret ex, w') /\
    serializable (JObj (ex_result ex)) = true.
Proof.
  unfold timed_truncate, mbind, M_bind, clock_tick, lift, mret, M_ret.
  destruct (read_clock w) as [t w'].
  destruct (guarded_truncate_ret self result) as (r & -> & Hr). eauto.
Qed.

Lemma guarded_run_spec self t arguments ctx w e w' :
  guarded_run self t arguments ctx w = (Raise e, w') ->
  is_fixture_missing e = true \/ is_exception e = false.
Proof.
  unfold guarded_run, try_except.
  destruct (_recorder self t arguments ctx w) as [[r|e'] w1]; [done|].
  destruct (is_fixture_missing e') eqn:E1; [intros; simplify_eq; auto|].
  destruct (is_exception e') eqn:E2; intros; simplify_eq; auto.
Qed.

Lemma by_name_keys self : dkeys (by_name self) = names self.
Proof. unfold dkeys, by_name, names. by rewrite map_map. Qed.

Lemma registry_execute_spec self n arguments ctx w :
  match registry_execute self n arguments ctx w with
  | (Ret ex, w') =>
      serializable (JObj (ex_result ex)) = true /\
      (n ∉ names self ->
         ex = {| ex_result := unavailable (u "unknown_tool"); ex_latency_ms := 0 |} /\ w' = w)
  | (Raise e, _) => n ∈ names self /\ (is_fixture_missing e = true \/ is_exception e = false)
  end.
Proof.
  unfold registry_execute. rewrite <- by_name_keys.
  destruct (dget n (by_name self)) as [t|] eqn:E; [|done].
  apply dget_Some_key in E. unfold mbind, M_bind, clock_tick.
  destruct (read_clock w) as [t0 w0].
  pose proof (guarded_run_spec self t arguments ctx w0) as Hr.
  destruct (guarded_run self t arguments ctx w0) as [[r|e] w1].
  - destruct (timed_truncate_spec self t0 r w1) as (ex & w2 & -> & Hs). done.
  - split; [done|]. by eapply Hr.
Qed.

(** The registry as the pipeline's interface. *)
Lemma registry_execute_raises self n arguments ctx w e :
  (registry_execute self n arguments ctx w).1 = Raise e ->
  (exists m, e = FixtureMissingError m) \/ e = CancelledError.
Proof.
  pose proof (registry_execute_spec self n arguments ctx w) as Hs.
  destruct (registry_execute self n arguments ctx w) as [[ex|e'] w']; [done|].
  intros [= <-]. destruct Hs as [_ [Hf|Hc]].
  - left. destruct e'; try done. destruct c; try done. by eexists.
  - right. by destruct e'.
Qed.

Definition as_registry (self : ToolRegistry) : Registry W :=
  {| specs := registry_specs self; execute := registry_execute self;
     execute_raises := registry_execute_raises self |}.

(** [execute] answers whatever the tool does: an unknown name never reaches the
    recorder; a raised exception and an unserializable result become [unavailable], so
    the result always serializes to JSON; only a missing fixture and a cancellation pass. *)
Theorem registry_execute_total self n arguments ctx w :
  match registry_execute self n arguments ctx w with
  | (Ret ex, w') =>
      serializable (JObj (ex_result ex)) = true /\
      (n ∉ names self ->
         ex = {| ex_result := unavailable (u "unknown_tool"); ex_latency_ms := 0 |} /\ w' = w)
  | (Raise e, _) => n ∈ names self /\ (is_fixture_missing e = true \/ is_exception e = false)
  end.
Proof. apply registry_execute_spec. Qed.

(** The text of a shortened result: escaping at most doubles the preview. *)
Lemma escape_char_length c : 32 <= c -> (length (escape_char false c) <= 2)%nat.
Proof.
  intros Hc. unfold escape_char.
  repeat (case_match; [simpl; py_reflect; lia|]). py_reflect; simpl in *; done || lia.
Qed.

Lemma escape_str_length text :
  Forall (fun c => 32 <= c) text ->
  (length (escape_str false text) <= 2 + 2 * length text)%nat.
Proof.
  intros Ht. unfold escape_str. rewrite !length_app. simpl.
  induction Ht as [|c text Hc _ IH]; simpl; [lia|].
  rewrite length_app. pose proof (escape_char_length c Hc). lia.
Qed.

(** The serialized form of a shortened result, field by field. *)
Lemma shortened_text n preview :
  encode compact_args 0 (JObj [(u "truncated", JBool true); (u "original_chars", JInt n);
                               (u "preview", JStr preview)]) =
  [123] ++ escape_str false (u "original_chars") ++ [58] ++ str_of_Z n ++ [44]
  ++ escape_str false (u "preview") ++ [58] ++ escape_str false preview ++ [44]
  ++ escape_str false (u "truncated") ++ [58] ++ u "true" ++ [125].
Proof.
  cbn [encode sort_keys compact_args map fst snd ensure_ascii].
  change (sort_items _) with
    [(u "original_chars", str_of_Z n); (u "preview", escape_str false preview);
     (u "truncated", u "true")].
  unfold container, newline. cbn [map indent item_separator key_separator py_join fst snd].
  by rewrite <- !(assoc_L (++)).
Qed.

(** A result within the budget reaches the model unchanged; a larger one becomes its
    true size and a preview that is exactly the first [max_chars] characters of its
    compact JSON, in a text that can exceed the budget: up to twice it, plus its frame. *)
Theorem truncate_result_bounds result max_chars r :
  1 <= max_chars -> truncate_result result max_chars = Ret r ->
  let text := encode compact_args 0 (JObj result) in
  (py_len text <= max_chars /\ r = result) \/
  (max_chars < py_len text /\
   dget (u "original_chars") r = Some (JInt (py_len text)) /\
   dget (u "preview") r = Some (JStr (py_take max_chars text)) /\
   py_len (py_take max_chars text) = max_chars /\
   py_len (encode compact_args 0 (JObj r))
     <= 2 * max_chars + py_len (str_of_Z (py_len text)) + 50).
Proof.
  intros Hm E. cbv zeta. pose proof (truncate_result_spec result max_chars) as Hs.
  rewrite E in Hs. destruct Hs as [[? ->]|[Hlt ->]]; [by left|right].
  set (text := encode compact_args 0 (JObj result)) in *. set (p := py_take max_chars text) in *.
  assert (Hp : py_len p = max_chars).
  { unfold p, py_take, py_len in *. rewrite length_take. lia. }
  split_and!; [done|done|done|done|].
  assert (Ht : Forall (fun c => 32 <= c) text)
    by (apply encode_one_line; [done|by apply ascii_chars with (P := fun c => 32 <= c); [lia|]..]).
  assert (Hpc : Forall (fun c => 32 <= c) p) by (by apply Forall_take).
  apply escape_str_length in Hpc.
  rewrite shortened_text. unfold py_len in *. rewrite !length_app.
  change (length (escape_str false (u "original_chars"))) with 16%nat.
  change (length (escape_str false (u "preview"))) with 9%nat.
  change (length (escape_str false (u "truncated"))) with 11%nat. cbn [length]. change (length (u "true")) with 4%nat. lia.
Qed.

End registry.
End ToolReg.

(** A four-character budget: the shortened text is longer than it. *)
Lemma truncate_result_bounds_witness :
  let _ := toy_float_repr in
  exists r, ToolReg.truncate_result (unavailable (u "no_api_key")) 4 = Ret r /\
    dget (u "preview") r = Some (JStr [123; 34; 114; 101]) /\
    4 < py_len (encode ToolReg.compact_args 0 (JObj r)).
Proof.
  intros F. eexists. split; [vm_compute; reflexivity|].
  match goal with |- dget _ ?r = _ /\ _ =>
    destruct (ToolReg.truncate_result_bounds (H0 := F) (unavailable (u "no_api_key")) 4 r
                ltac:(lia) ltac:(vm_compute; reflexivity)) as [[Hbad _]|(_ & _ & Hp & _ & _)]
  end.
  - exfalso. vm_compute in Hbad. by apply Hbad.
  - split; [exact Hp|vm_compute; reflexivity].
Defined.

(** ** [worker/tools/session_commands.py] *)

Module SessionCommands.
Import Alert.

Definition _COMMAND_EVENT : pystr := u "cowrie.command.input".
Definition _DOWNLOAD_EVENT : pystr := u "cowrie.session.file_download".

Record SessionCommandsTool : Type := {
  _max_commands : Z;
  _max_downloads : Z;
  _max_command_chars : Z
}.

Definition __init__ (max_commands max_downloads max_command_chars : Z)
    : outcome exn SessionCommandsTool :=
  if max_commands <? 1 then Raise (ValueError (u "max_commands must be >= 1"))
  else if max_downloads <? 1 then Raise (ValueError (u "max_downloads must be >= 1"))
  else if max_command_chars <? 1 then Raise (ValueError (u "max_command_chars must be >= 1"))
  else Ret {| _max_commands := max_commands; _max_downloads := max_downloads;
              _max_command_chars := max_command_chars |}.

Definition opt_str (o : option pystr) : json :=
  match o with Some s => JStr s | None => JNull end.

Definition commands_of (es : list CowrieEvent) : list pystr :=
  omap (fun e => if bool_decide (eventid e = _COMMAND_EVENT) then input e else None) es.

Definition download_of (e : CowrieEvent) : json :=
  JObj [(u "url", opt_str (url e)); (u "outfile", opt_str (outfile e));
        (u "shasum", opt_str (shasum e))].

Definition downloads_of (es : list CowrieEvent) : list json :=
  map download_of (filter (fun e => eventid e = _DOWNLOAD_EVENT) es).

Definition run (self : SessionCommandsTool) (arguments : jobj) (ctx : ToolContext) : jobj :=
  match dget (u "session_id") arguments with
  | Some (JStr session_id) =>
      if bool_decide (session_id <> Alert.session_id (alert ctx))
      then unavailable (u "unknown_session")
      else
        let commands := commands_of (events (alert ctx)) in
        let downloads := downloads_of (events (alert ctx)) in
        let clipped_commands :=
          py_len (filter (fun c => _max_command_chars self < py_len c) commands) in
        let clipped := map (py_take (_max_command_chars self)) commands in
        [(u "session_id", JStr session_id);
         (u "commands", JArr (map JStr (py_take (_max_commands self) clipped)));
         (u "command_count", JInt (py_len commands));
         (u "commands_truncated", JBool (_max_commands self <? py_len commands));
         (u "clipped_commands", JInt clipped_commands);
         (u "downloads", JArr (py_take (_max_downloads self) downloads));
         (u "download_count", JInt (py_len downloads));
         (u "downloads_truncated", JBool (_max_downloads self <? py_len downloads))]
  | _ => unavailable (u "invalid_arguments")
  end.

(** The tool answers for the session being triaged only; the commands it returns are
    the first typed ones, in order, each a prefix of what was typed within its cap, and
    the counts and flags are those of the whole session. *)
Theorem session_commands_capped self arguments ctx :
  1 <= _max_commands self -> 1 <= _max_downloads self -> 1 <= _max_command_chars self ->
  let r := run self arguments ctx in
  let typed := commands_of (events (alert ctx)) in
  (dget (u "session_id") arguments = Some (JStr (Alert.session_id (alert ctx))) /\
   (exists shown, dget (u "commands") r = Some (JArr (map JStr shown)) /\
      py_len shown = Z.min (_max_commands self) (py_len typed) /\
      forall i c, shown !! i = Some c -> exists full, typed !! i = Some full /\
        c = py_take (_max_command_chars self) full /\
        py_len c <= _max_command_chars self) /\
   dget (u "command_count") r = Some (JInt (py_len typed)) /\
   (dget (u "commands_truncated") r = Some (JBool true) <->
      _max_commands self < py_len typed) /\
   (exists ds, dget (u "downloads") r = Some (JArr ds) /\ py_len ds <= _max_downloads self)) \/
  (r = unavailable (u "invalid_arguments") \/ r = unavailable (u "unknown_session")).
Proof.
  intros Hc Hd Hx. cbv zeta. unfold run.
  destruct (dget (u "session_id") arguments) as [[| | | |sid| | |]|]; auto.
  case_bool_decide as Hs; [auto|left].
  subst sid. split; [done|].
  set (typed := commands_of _). set (ds := downloads_of _). split_and!.
  - eexists. split; [reflexivity|]. unfold py_take, py_len. split.
    + rewrite length_take, length_map. lia.
    + intros i c Hi. apply lookup_take_Some in Hi as [Hi _].
      rewrite list_lookup_fmap in Hi. destruct (typed !! i) as [full|]; [|done].
      injection Hi as <-. exists full. split_and!; [done|done|]. rewrite length_take. lia.
  - reflexivity.
  - cbn. destruct (Z.ltb_spec (_max_commands self) (py_len typed)); split; intros; try done; lia.
  - eexists. split; [reflexivity|]. unfold py_take, py_len. rewrite length_take. lia.
Qed.

Definition toy_tool : SessionCommandsTool :=
  {| _max_commands := 1; _max_downloads := 1; _max_command_chars := 4 |}.

(** A session without commands, asked for under its own id. *)
Lemma session_commands_capped_witness :
  let ctx := {| alert := toy_alert (u "s") [toy_event CONNECT 0]; ctx_session := false;
                ctx_now := Datetime 0 (Some 0) |} in
  dget (u "command_count") (run toy_tool [(u "session_id", JStr (u "s"))] ctx) = Some (JInt 0).
Proof.
  intros ctx.
  destruct (session_commands_capped toy_tool [(u "session_id", JStr (u "s"))] ctx
              ltac:(done) ltac:(done) ltac:(done)) as [(_ & _ & H & _)|[H|H]].
  - exact H.
  - exfalso. vm_compute in H. discriminate H.
  - exfalso. vm_compute in H. discriminate H.
Defined.
End SessionCommands.

(** ** [worker/tools/asset_info.py] *)

Module AssetInfo.

Inductive Exposure : Type := internet | internal.
Inductive Criticality : Type := low | medium | high.
Record AssetRecord : Type := {
  role : pystr; exposure : Exposure; criticality : Criticality
}.

Definition exposure_str (e : Exposure) : pystr :=
  match e with internet => u "internet" | internal => u "internal" end.
Definition criticality_str (c : Criticality) : pystr :=
  match c with low => u "low" | medium => u "medium" | high => u "high" end.

Record AssetInfoTool : Type := {
  _assets : list (pystr * AssetRecord);
  _load_error : option pystr
}.

(** The bytes of the file ([None] for an [OSError]), and the fleet they decode, parse and
    validate to ([None] for the three errors the source catches). *)
Definition from_path (read : option pybytes)
    (parse : pybytes -> option (list (pystr * AssetRecord))) : AssetInfoTool :=
  match read with
  | None => {| _assets := []; _load_error := Some (u "assets_file_missing") |}
  | Some raw =>
      match parse raw with
      | None => {| _assets := []; _load_error := Some (u "assets_file_invalid") |}
      | Some assets => {| _assets := assets; _load_error := None |}
      end
  end.

Definition run (self : AssetInfoTool) (arguments : jobj) (ctx : ToolContext) : jobj :=
  match dget (u "hostname") arguments with
  | Some (JStr hostname) =>
      match _load_error self with
      | Some e => unavailable e
      | None =>
          match dget hostname (_assets self) with
          | None => unavailable (u "unknown_asset")
          | Some r =>
              [(u "hostname", JStr hostname); (u "role", JStr (role r));
               (u "exposure", JStr (exposure_str (exposure r)));
               (u "criticality", JStr (criticality_str (criticality r)))]
          end
      end
  | _ => unavailable (u "invalid_arguments")
  end.
End AssetInfo.

(** ** [worker/tools/geo_asn.py] *)

Module GeoAsn.
Section geo.
Context `{IpAddress}.

(** A reader's answer: a record or nothing, a [ValueError] on the address, or an
    [InvalidDatabaseError]. *)
Definition GeoReader : Type := pystr -> outcome exn (option jobj).

Record GeoAsnTool : Type := { _country : option GeoReader; _asn : option GeoReader }.

(** [maxminddb.open_database(path)]: [None] for the errors that degrade. *)
Definition open_reader (open_database : pystr -> option GeoReader) (path : pystr)
    : option GeoReader :=
  match path with [] => None | _ => open_database path end.

Definition geo_from_settings (open_database : pystr -> option GeoReader)
    (geoip_db_path geoip_asn_db_path : pystr) : GeoAsnTool :=
  {| _country := open_reader open_database geoip_db_path;
     _asn := open_reader open_database geoip_asn_db_path |}.

Definition _lookup_country (self : GeoAsnTool) (ip : pystr) : outcome exn json :=
  match _country self with
  | None => Ret JNull
  | Some reader =>
      record ← reader ip;
      match record with
      | None => Ret JNull
      | Some r =>
          match dget (u "country") r with
          | Some (JObj country) =>
              match dget (u "iso_code") country with
              | Some (JStr iso_code) => Ret (JStr iso_code)
              | _ => Ret JNull
              end
          | _ => Ret JNull
          end
      end
  end.

(** [isinstance(asn, int)] holds of a [bool] too. *)
Definition _lookup_asn (self : GeoAsnTool) (ip : pystr) : outcome exn (json * json) :=
  match _asn self with
  | None => Ret (JNull, JNull)
  | Some reader =>
      record ← reader ip;
      match record with
      | None => Ret (JNull, JNull)
      | Some r =>
          Ret (match dget (u "autonomous_system_number") r with
               | Some (JInt n) => JInt n
               | Some (JBool b) => JBool b
               | _ => JNull
               end,
               match dget (u "autonomous_system_organization") r with
               | Some (JStr o) => JStr o
               | _ => JNull
               end)
      end
  end.

Definition run (self : GeoAsnTool) (arguments : jobj) (ctx : ToolContext)
    : outcome exn jobj :=
  match dget (u "ip") arguments with
  | Some (JStr ip) =>
      match canonical_ip ip with
      | None => Ret (unavailable (u "invalid_arguments"))
      | Some _ =>
          match _country self, _asn self with
          | None, None => Ret (unavailable (u "geoip_db_not_configured"))
          | _, _ =>
              match (country ← _lookup_country self ip; asn_org ← _lookup_asn self ip;
                     Ret (country, asn_org)) with
              | Ret (country, (asn, org)) =>
                  Ret [(u "ip", JStr ip); (u "country", country); (u "asn", asn);
                       (u "org", org)]
              | Raise (ValueError _) => Ret (unavailable (u "invalid_arguments"))
              | Raise InvalidDatabaseError => Ret (unavailable (u "geoip_db_error"))
              | Raise e => Raise e
              end
          end
      end
  | _ => Ret (unavailable (u "invalid_arguments"))
  end.
End geo.
End GeoAsn.

(** ** [worker/tools/ip_reputation.py] *)

Module IpReputation.

Definition ABUSEIPDB_CHECK_URL : pystr := u "https://api.abuseipdb.com/api/v2/check".
Definition CACHE_KEY_PREFIX : pystr := u "abuseipdb:".
Definition QUOTA_KEY : pystr := CACHE_KEY_PREFIX ++ u "quota_exceeded".

(** A response: its status and [response.json()], [None] for a body that is not JSON. *)
Record response : Type := { status_code : Z; body : option json }.

Record request : Type := {
  rq_url : pystr;
  rq_params : list (pystr * pystr);
  rq_headers : list (pystr * pystr)
}.

(** The HTTP client raises [httpx.HTTPError] or is cancelled. *)
Class Http (W : Type) : Type := {
  http_get : request -> M exn W response;
  http_get_fails : forall q w e,
    (http_get q w).1 = Raise e -> e = HTTPError \/ e = CancelledError
}.

(** [int(x)] of a JSON value: [None] for the errors the source catches. *)
Class JsonInt : Type := json_int : json -> option Z.

(** The tool's world: its cache, the rest of the world, and a ghost list of the requests
    it sent, newest first. *)
Record env (C H : Type) : Type := Env {
  env_cache : C; outer : H; requests : list request
}.
Arguments Env {C H}. Arguments env_cache {C H}. Arguments outer {C H}. Arguments requests {C H}.

Section tool.
Context {C H : Type} {KC : TTLCache C} {KT : Clock H} {KH : Http H} {KF : FloatRepr}
  {KI : IpAddress} {KL : JsonLoadsBytes} {KJ : JsonInt}.

Record IpReputationTool : Type := {
  _api_key : pystr;
  _cache_ttl_s : Z;
  _max_age_days : Z;
  _quota_backoff_s : Z
}.

Definition __init__ (api_key : pystr) (cache_ttl_s max_age_days quota_backoff_s : Z)
    : outcome exn IpReputationTool :=
  if cache_ttl_s <? 1 then Raise (ValueError (u "cache_ttl_s must be >= 1"))
  else if max_age_days <? 1 then Raise (ValueError (u "max_age_days must be >= 1"))
  else if quota_backoff_s <? 0 then Raise (ValueError (u "quota_backoff_s must be >= 0"))
  else Ret {| _api_key := api_key; _cache_ttl_s := cache_ttl_s;
              _max_age_days := max_age_days; _quota_backoff_s := quota_backoff_s |}.

Variable self : IpReputationTool.

Definition on_cache {A} (m : M exn C A) : M exn (env C H) A := fun e =>
  let '(o, c) := m (env_cache e) in (o, Env c (outer e) (requests e)).
Definition on_outer {A} (m : M exn H A) : M exn (env C H) A := fun e =>
  let '(o, h) := m (outer e) in (o, Env (env_cache e) h (requests e)).

(** The cache's methods, with the clock readings they make. *)
Definition cached_get (key : pystr) : M exn (env C H) (option pybytes) :=
  now ← on_outer clock_tick; on_cache (cache_get now key).
Definition cached_set (key : pystr) (value : pybytes) (ttl_s : Z) : M exn (env C H) unit :=
  now ← on_outer clock_tick; stored_at ← on_outer clock_tick;
  on_cache (cache_set now stored_at key value ttl_s).

Definition check_request (ip : pystr) : request :=
  {| rq_url := ABUSEIPDB_CHECK_URL;
     rq_params := [(u "ipAddress", ip); (u "maxAgeInDays", str_of_Z (_max_age_days self))];
     rq_headers := [(u "Key", _api_key self); (u "Accept", u "application/json")] |}.

Definition send (q : request) : M exn (env C H) response := fun e =>
  on_outer (http_get q) (Env (env_cache e) (outer e) (q :: requests e)).

(** The decoding of a 2xx body. *)
Definition decode_body (ip : pystr) (b : option json) : option jobj :=
  match b with
  | Some (JObj top) =>
      match dget (u "data") top with
      | Some (JObj data) =>
          let last_seen := default JNull (dget (u "lastReportedAt") data) in
          match last_seen, dget (u "abuseConfidenceScore") data, dget (u "totalReports") data with
          | (JNull | JStr _), Some score, Some reports =>
              match json_int score, json_int reports with
              | Some s, Some n =>
                  Some [(u "ip", JStr ip); (u "abuse_score", JInt s); (u "reports", JInt n);
                        (u "last_seen", last_seen)]
              | _, _ => None
              end
          | _, _, _ => None
          end
      | _ => None
      end
  | _ => None
  end.

(** The vendor call, once the cache has answered a miss. *)
Definition lookup_vendor (ip cache_key : pystr) : M exn (env C H) jobj :=
  r ← try_except (x ← send (check_request ip); mret (inl x))
        (fun e => match e with HTTPError => Some (mret (inr tt)) | _ => None end);
  match r with
  | inr tt => mret (unavailable (u "network_error"))
  | inl resp =>
      let code := status_code resp in
      if code =? 429 then
        _ ← (if 0 <? _quota_backoff_s self
             then cached_set QUOTA_KEY (u "1") (_quota_backoff_s self) else mret tt);
        mret (unavailable (u "quota_exceeded"))
      else if (code =? 401) || (code =? 403) then mret (unavailable (u "unauthorized"))
      else if negb ((200 <=? code) && (code <? 300))
           then mret (unavailable (u "http_" ++ str_of_Z code))
      else
        match decode_body ip (body resp) with
        | None => mret (unavailable (u "malformed_response"))
        | Some result =>
            text ← lift (dumps default_args (JObj result));
            _ ← cached_set cache_key text (_cache_ttl_s self);
            mret (dset (u "cached") (JBool false) result)
        end
  end.

(** A cache miss: the quota flag is read first, and suppresses the vendor. *)
Definition on_miss (ip cache_key : pystr) : M exn (env C H) jobj :=
  quota ← (if 0 <? _quota_backoff_s self then cached_get QUOTA_KEY else mret None);
  match quota with
  | Some _ => mret (unavailable (u "quota_exceeded"))
  | None => lookup_vendor ip cache_key
  end.

Definition run (arguments : jobj) (ctx : ToolContext) : M exn (env C H) jobj :=
  match dget (u "ip") arguments with
  | Some (JStr raw) =>
      match canonical_ip raw with
      | None => mret (unavailable (u "invalid_arguments"))
      | Some ip =>
          if bool_decide (_api_key self = []) then mret (unavailable (u "no_api_key"))
          else
            let cache_key := CACHE_KEY_PREFIX ++ ip in
            cached ← cached_get cache_key;
            match (b ← cached; json_loads_bytes b) with
            | Some (JObj payload) => mret (dset (u "cached") (JBool true) payload)
            | _ => on_miss ip cache_key
            end
      end
  | _ => mret (unavailable (u "invalid_arguments"))
  end.

(** *** Lemmas *)

Lemma cached_get_spec key e :
  let '(o, e') := cached_get key e in
  requests e' = requests e /\
  (forall t k v, live (env_cache e') t k v -> live (env_cache e) t k v) /\
  (forall x, o = Raise x -> x = CancelledError).
Proof.
  unfold cached_get, mbind, M_bind, on_outer, clock_tick, on_cache.
  destruct (read_clock (outer e)) as [t h]. simpl.
  pose proof (cache_get_frame t key (env_cache e)) as Hf.
  pose proof (fun x => cache_get_raises t key (env_cache e) x) as Hr.
  destruct (cache_get t key (env_cache e)) as [o c]. simpl in *. split_and!; eauto.
Qed.

Lemma cached_set_spec key v ttl e :
  0 < ttl ->
  let '(o, e') := cached_set key v ttl e in
  requests e' = requests e /\
  (forall t k w, live (env_cache e') t k w ->
     (k = key /\ w = v) \/ live (env_cache e) t k w) /\
  (forall x, o = Raise x -> x = CancelledError).
Proof.
  intros Ht. unfold cached_set, mbind, M_bind, on_outer, clock_tick, on_cache.
  destruct (read_clock (outer e)) as [t1 h1]. simpl.
  destruct (read_clock h1) as [t2 h2]. simpl.
  pose proof (cache_set_live t1 t2 key v ttl (env_cache e)) as Hf.
  pose proof (fun x => cache_set_raises t1 t2 key v ttl (env_cache e) x Ht) as Hr.
  destruct (cache_set t1 t2 key v ttl (env_cache e)) as [o c]. simpl in *.
  split_and!; [done| |eauto]. intros t k w Hl. apply Hf in Hl. naive_solver.
Qed.

Lemma http_send_spec q e :
  let '(o, e') := send q e in
  requests e' = q :: requests e /\ env_cache e' = env_cache e /\
  (forall x, o = Raise x -> x = HTTPError \/ x = CancelledError).
Proof.
  unfold send, on_outer. simpl. pose proof (fun x => http_get_fails q (outer e) x) as Hf.
  destruct (http_get q (outer e)) as [o h]. simpl in *. eauto.
Qed.

Lemma decode_body_serializable ip b result :
  decode_body ip b = Some result -> serializable (JObj result) = true.
Proof. unfold decode_body. repeat case_match; intros; by simplify_eq. Qed.

(** What a call may leave in the cache: an entry it found, the quota flag after a 429, or
    its own answer under the address's key. *)
Definition stores_only (e e' : env C H) (o : outcome exn jobj) : Prop :=
  forall t k v, live (env_cache e') t k v ->
    live (env_cache e) t k v \/
    (k = QUOTA_KEY /\ v = u "1" /\ 0 < _quota_backoff_s self /\
     (forall r, o = Ret r -> r = unavailable (u "quota_exceeded"))) \/
    (exists ip result, k = CACHE_KEY_PREFIX ++ ip /\
       Ret v = dumps default_args (JObj result) /\
       (forall r, o = Ret r -> r = dset (u "cached") (JBool false) result)).

Definition well_behaved (e e' : env C H) (o : outcome exn jobj) : Prop :=
  stores_only e e' o /\
  (forall x, o = Raise x -> x = CancelledError) /\
  (requests e' = requests e \/
   exists ip, requests e' = check_request ip :: requests e /\ _api_key self <> []).

Lemma lookup_vendor_spec ip e :
  0 < _cache_ttl_s self -> _api_key self <> [] ->
  let '(o, e') := lookup_vendor ip (CACHE_KEY_PREFIX ++ ip) e in well_behaved e e' o.
Proof.
  intros Httl Hkey. unfold lookup_vendor, try_except, lift, mbind, M_bind, mret, M_ret.
  pose proof (http_send_spec (check_request ip) e) as Hs.
  destruct (send (check_request ip) e) as [[resp|x] e1]; destruct Hs as (Hq & Hc & Hx).
  2: { assert (Hw : forall o, (forall x, o = Raise x -> x = CancelledError) ->
         well_behaved e e1 o).
       { intros o Ho. split_and!; [|done|by eauto].
         intros t k v. rewrite Hc. auto. }
       destruct (Hx x eq_refl) as [-> | ->]; apply Hw; intros; by simplify_eq. }
  assert (Hplain : forall r, well_behaved e e1 (Ret r)).
  { intros r. split_and!; [|done|by eauto]. intros t k v. rewrite Hc. auto. }
  destruct (status_code resp =? 429).
  { destruct (Z.ltb_spec 0 (_quota_backoff_s self)) as [Hb|]; [|apply Hplain].
    pose proof (cached_set_spec QUOTA_KEY (u "1") _ e1 Hb) as Hset.
    destruct (cached_set QUOTA_KEY (u "1") _ e1) as [[[]|x] e2]; destruct Hset as (Hq2 & Hl & Hx2);
      (split_and!; [|by naive_solver|right; exists ip; by rewrite Hq2]);
      intros t k v Hv; apply Hl in Hv as [[-> ->]|Hv]; [|by rewrite <- Hc; auto| |by rewrite <- Hc; auto];
      right; left; split_and!; try done; intros; by simplify_eq. }
  destruct (_ || _); [apply Hplain|]. destruct (negb _); [apply Hplain|].
  destruct (decode_body ip (body resp)) as [result|] eqn:Hd; [|apply Hplain].
  apply decode_body_serializable in Hd. unfold dumps at 1. rewrite Hd.
  set (text := encode default_args 0 (JObj result)).
  pose proof (cached_set_spec (CACHE_KEY_PREFIX ++ ip) text _ e1 Httl) as Hset.
  destruct (cached_set _ text _ e1) as [[[]|x] e2]; destruct Hset as (Hq2 & Hl & Hx2);
    (split_and!; [|by naive_solver|right; exists ip; by rewrite Hq2]);
    intros t k v Hv; apply Hl in Hv as [[-> ->]|Hv]; [|by rewrite <- Hc; auto| |by rewrite <- Hc; auto];
    right; right; exists ip, result; unfold dumps; rewrite Hd; split_and!; try done;
    intros; by simplify_eq.
Qed.

Lemma well_behaved_trans e e1 e' o :
  requests e1 = requests e ->
  (forall t k v, live (env_cache e1) t k v -> live (env_cache e) t k v) ->
  well_behaved e1 e' o -> well_behaved e e' o.
Proof.
  intros Hq Hl (Hs & Hx & Hr). split_and!; [|done|by rewrite <- Hq].
  intros t k v Hv. destruct (Hs t k v Hv) as [Hv'|Hv']; [left; by apply Hl|by right].
Qed.

Lemma well_behaved_refl e o :
  (forall x, o = Raise x -> x = CancelledError) -> well_behaved e e o.
Proof. intros Ho. split_and!; [intros ???; auto|done|auto]. Qed.

Lemma on_miss_spec ip e :
  0 < _cache_ttl_s self -> _api_key self <> [] ->
  let '(o, e') := on_miss ip (CACHE_KEY_PREFIX ++ ip) e in well_behaved e e' o.
Proof.
  intros Httl Hkey. unfold on_miss, mbind, M_bind.
  set (m := if 0 <? _quota_backoff_s self then _ else _).
  assert (Hgq : let '(o, e2) := m e in
    requests e2 = requests e /\
    (forall t k v, live (env_cache e2) t k v -> live (env_cache e) t k v) /\
    (forall x, o = Raise x -> x = CancelledError)).
  { unfold m. destruct (0 <? _quota_backoff_s self); [apply cached_get_spec|].
    split_and!; [done|auto|]. intros; by simplify_eq. }
  destruct (m e) as [[[q|]|x] e2]; destruct Hgq as (Hq2 & Hl2 & Hx2).
  - eapply (well_behaved_trans e e2); [congruence|auto|].
    apply well_behaved_refl. intros; by simplify_eq.
  - pose proof (lookup_vendor_spec ip e2 Httl Hkey) as Hv.
    destruct (lookup_vendor ip _ e2) as [o e3].
    eapply (well_behaved_trans e e2); [congruence|auto|done].
  - eapply (well_behaved_trans e e2); [congruence|auto|].
    apply well_behaved_refl. intros x' [= <-]. by apply Hx2.
Qed.

(** A lookup never raises but for a cancellation, sends at most one request, only with
    a key configured and for the canonical address, and leaves in the cache only what was
    there, the account-wide quota flag after a 429, or its own successful answer under the
    address's key: no failure is cached. *)
Theorem reputation_well_behaved arguments ctx e :
  0 < _cache_ttl_s self ->
  let '(o, e') := run arguments ctx e in well_behaved e e' o.
Proof.
  intros Httl. unfold run.
  assert (Hplain : forall r, well_behaved e e (Ret r))
    by (intros r; apply well_behaved_refl; intros; by simplify_eq).
  destruct (dget (u "ip") arguments) as [[| | | |raw| | |]|]; try apply Hplain.
  destruct (canonical_ip raw) as [ip|]; [|apply Hplain].
  case_bool_decide as Hkey; [apply Hplain|]. unfold mbind at 1, M_bind at 1.
  pose proof (cached_get_spec (CACHE_KEY_PREFIX ++ ip) e) as Hg.
  destruct (cached_get _ e) as [[cached|x] e1]; destruct Hg as (Hq1 & Hl1 & Hx1).
  2: { eapply well_behaved_trans; [done|done|].
       apply well_behaved_refl. intros x' [= <-]. by apply Hx1. }
  assert (Hmiss : let '(o, e') := on_miss ip (CACHE_KEY_PREFIX ++ ip) e1 in
                  well_behaved e e' o).
  { pose proof (on_miss_spec ip e1 Httl Hkey) as Hm.
    destruct (on_miss ip _ e1) as [o e2]. by eapply well_behaved_trans. }
  destruct cached as [b|]; [|exact Hmiss]. simpl.
  destruct (json_loads_bytes b) as [[| | | | | |payload|]|]; try exact Hmiss.
  eapply well_behaved_trans; [done|done|]. apply well_behaved_refl. intros; by simplify_eq.
Qed.

(** Without a key the tool touches neither the cache nor the network. *)
Lemma no_key_no_request arguments ctx e :
  _api_key self = [] -> (run arguments ctx e).2 = e.
Proof.
  intros Hk. unfold run.
  destruct (dget (u "ip") arguments) as [[| | | |raw| | |]|]; try done.
  destruct (canonical_ip raw); [|done]. by rewrite bool_decide_true.
Qed.

End tool.

(** *** One request per address and TTL, with the in-memory cache *)

Section cached.
Context {H : Type} {KT : Clock H} {KH : Http H} {KF : FloatRepr} {KI : IpAddress}
  {KL : JsonLoadsBytes} {KJ : JsonInt}.

Lemma cached_set_memory key v ttl (e : env Memory.t H) o e' :
  0 < ttl -> cached_set key v ttl e = (o, e') ->
  o = Ret tt /\ exists stored_at, forall t, t < stored_at + flt ttl ->
    Memory.get t key (env_cache e') = (Ret (Some v), env_cache e').
Proof.
  intros Ht. unfold cached_set, mbind, M_bind, on_outer, clock_tick, on_cache.
  destruct (read_clock (outer e)) as [t1 h1]. simpl. destruct (read_clock h1) as [t2 h2]. simpl.
  rewrite Memory.set_unfold by done. intros [= <- <-]. split; [done|].
  exists t2. intros t Hlt. simpl. unfold Memory.get. simpl. rewrite dget_dset_eq.
  by rewrite (proj2 (Z.leb_gt _ _)) by lia.
Qed.

Lemma lookup_vendor_success self ip key (e : env Memory.t H) r e' :
  lookup_vendor self ip key e = (Ret r, e') -> dget (u "cached") r = Some (JBool false) ->
  exists result text e1,
    r = dset (u "cached") (JBool false) result /\ dumps default_args (JObj result) = Ret text /\
    cached_set key text (_cache_ttl_s self) e1 = (Ret tt, e').
Proof.
  unfold lookup_vendor, try_except, lift, mbind, M_bind, mret, M_ret.
  destruct (send _ e) as [[resp|x] e1]; [|destruct x; intros; by simplify_eq].
  destruct (status_code resp =? 429).
  { destruct (0 <? _quota_backoff_s self); [|intros; by simplify_eq].
    destruct (cached_set QUOTA_KEY _ _ e1) as [[[]|] ?]; intros; by simplify_eq. }
  destruct (_ || _); [intros; by simplify_eq|]. destruct (negb _); [intros; by simplify_eq|].
  destruct (decode_body ip (body resp)) as [result|] eqn:Hd; [|intros; by simplify_eq].
  apply decode_body_serializable in Hd. unfold dumps at 1. rewrite Hd.
  destruct (cached_set key _ _ e1) as [[[]|] e2] eqn:Hset; intros; simplify_eq.
  do 3 eexists. split_and!; [done| |exact Hset]. unfold dumps. by rewrite Hd.
Qed.

(** After a successful lookup every lookup of the address before the answer expires is
    served from the cache, marked [cached], with no request, as long as [json.loads] reads
    back the stored text: the quota is spent once per address and TTL. *)
Theorem reputation_served_from_cache self arguments ctx (e e' : env Memory.t H) r :
  0 < _cache_ttl_s self ->
  run self arguments ctx e = (Ret r, e') -> dget (u "cached") r = Some (JBool false) ->
  exists expires payload text,
    r = dset (u "cached") (JBool false) payload /\
    dumps default_args (JObj payload) = Ret text /\
    (json_loads_bytes text = Some (JObj payload) ->
     forall ctx' h rs t h', read_clock h = (t, h') -> t < expires ->
       run self arguments ctx' (Env (env_cache e') h rs) =
         (Ret (dset (u "cached") (JBool true) payload), Env (env_cache e') h' rs)).
Proof.
  intros Httl Hrun Hc. unfold run in Hrun |- *.
  destruct (dget (u "ip") arguments) as [[| | | |raw| | |]|];
    try (unfold mret, M_ret in Hrun; by simplify_eq).
  destruct (canonical_ip raw) as [ip|]; [|unfold mret, M_ret in Hrun; by simplify_eq].
  case_bool_decide; [unfold mret, M_ret in Hrun; by simplify_eq|].
  set (key := CACHE_KEY_PREFIX ++ ip) in *. unfold mbind at 1, M_bind at 1 in Hrun.
  destruct (cached_get key e) as [[cached|x] e1]; [|done].
  assert (Hm : on_miss self ip key e1 = (Ret r, e')).
  { destruct cached as [b|]; [|done]. simpl in Hrun.
    destruct (json_loads_bytes b) as [[| | | | | |payload|]|]; try done.
    unfold mret, M_ret in Hrun. simplify_eq. rewrite dget_dset_eq in Hc. done. }
  clear Hrun. unfold on_miss, mbind, M_bind in Hm.
  set (quota := if 0 <? _quota_backoff_s self then cached_get QUOTA_KEY else mret None) in Hm.
  destruct (quota e1) as [[[q|]|x] e2]; [unfold mret, M_ret in Hm; by simplify_eq| |done].
  destruct (lookup_vendor_success self ip key e2 r e' Hm Hc) as (payload & text & e3 & -> & Hd & Hset).
  apply cached_set_memory in Hset as [_ [stored_at Hget]]; [|done].
  exists (stored_at + flt (_cache_ttl_s self)), payload, text. split_and!; [done|done|].
  intros Hloads ctx' h rs t h' Hclk Hlt.
  unfold mbind, M_bind, cached_get, mbind, M_bind, on_outer, clock_tick, on_cache. simpl.
  rewrite Hclk. simpl. rewrite Hget by done. simpl. by rewrite Hloads.
Qed.
End cached.

(** *** A vendor that always answers the same report *)

Module Toy.
#[export] Instance clock : Clock Z := fun t => (t, t).
#[export] Program Instance http : Http Z := {
  http_get _ := fun w =>
    (Ret {| status_code := 200;
            body := Some (JObj [(u "data", JObj [(u "abuseConfidenceScore", JInt 100);
                                                 (u "totalReports", JInt 7)])]) |}, w)
}.
Next Obligation. done. Qed.
#[export] Instance ips : IpAddress := Some.
#[export] Instance int : JsonInt := fun j => match j with JInt n => Some n | _ => None end.
#[export] Existing Instance toy_float_repr.

Definition report : jobj :=
  [(u "ip", JStr (u "203.0.113.7")); (u "abuse_score", JInt 100); (u "reports", JInt 7);
   (u "last_seen", JNull)].
#[export] Instance loads : JsonLoadsBytes := fun b =>
  if bool_decide (b = encode default_args 0 (JObj report)) then Some (JObj report) else None.

Definition tool : IpReputationTool :=
  {| _api_key := u "k"; _cache_ttl_s := 60; _max_age_days := 90; _quota_backoff_s := 900 |}.
Definition args : jobj := [(u "ip", JStr (u "203.0.113.7"))].
Definition ctx : ToolContext :=
  {| alert := Alert.toy_alert (u "s") [Alert.toy_event Alert.CONNECT 0]; ctx_session := false;
     ctx_now := Datetime 0 (Some 0) |}.
Definition start : env Memory.t Z := Env (Memory.InMemoryTTLCache 16 []) 0 [].
Definition after : env Memory.t Z := (run tool args ctx start).2.
Definition answer : jobj := dset (u "cached") (JBool false) report.

Lemma first_lookup : run tool args ctx start = (Ret answer, after).
Proof. vm_compute. reflexivity. Qed.
End Toy.
Import Toy.

Lemma reputation_served_from_cache_witness :
  exists expires payload text,
    Toy.answer = dset (u "cached") (JBool false) payload /\
    dumps default_args (JObj payload) = Ret text /\
    (json_loads_bytes text = Some (JObj payload) ->
     forall ctx' (h : Z) rs t h', read_clock h = (t, h') -> t < expires ->
       run Toy.tool Toy.args ctx' (Env (env_cache Toy.after) h rs) =
         (Ret (dset (u "cached") (JBool true) payload), Env (env_cache Toy.after) h' rs)).
Proof.
  apply (reputation_served_from_cache Toy.tool Toy.args Toy.ctx Toy.start Toy.after Toy.answer);
    [vm_compute; reflexivity|exact Toy.first_lookup|vm_compute; reflexivity].
Defined.

Lemma reputation_well_behaved_witness :
  well_behaved Toy.tool Toy.start Toy.after (Ret Toy.answer).
Proof.
  pose proof (reputation_well_behaved Toy.tool Toy.args Toy.ctx Toy.start eq_refl) as Hw.
  rewrite Toy.first_lookup in Hw. exact Hw.
Defined.
End IpReputation.
