(* ===== verification/Recorder.v ===== *)
(** * Recorder: fixture keys, live recording and strict replay

    [worker/tools/recorder.py].  The fixture files, [json.loads] and SHA-256 are
    parameters; the round trip of a recording is proved for the decoder of [JsonParse]. *)

From S2P Require Import Prelude Errors Json JsonParse Schemas Llm ToolBase.
#[local] Open Scope Z_scope.
Import Client.

(** ** Python's [==] and truth on JSON values *)

(** The number a value compares as: [True == 1 == 1.0]. *)
Definition as_number (j : json) : option float :=
  match j with
  | JInt z => Some (flt z)
  | JFloat x => Some x
  | JBool b => Some (flt (if b then 1 else 0))
  | _ => None
  end.

Fixpoint json_eqb (a b : json) : bool :=
  match a, b with
  | JNull, JNull => true
  | JStr s, JStr t => bool_decide (s = t)
  | JArr l, JArr m =>
      (fix go l m := match l, m with
                     | [], [] => true
                     | x :: l', y :: m' => json_eqb x y && go l' m'
                     | _, _ => false
                     end) l m
  | JObj d, JObj e =>
      bool_decide (length d = length e)
      && forallb (fun kv => match dget kv.1 e with
                            | Some v => json_eqb kv.2 v
                            | None => false
                            end) d
  | _, _ => match as_number a, as_number b with
            | Some x, Some y => x =? y
            | _, _ => false
            end
  end.

Definition truthy (j : json) : bool :=
  match j with
  | JNull => false
  | JBool b => b
  | JInt z => negb (z =? 0)
  | JFloat x => negb (x =? 0)
  | JStr s => negb (bool_decide (s = []))
  | JArr l => negb (bool_decide (length l = 0%nat))
  | JObj d => negb (bool_decide (length d = 0%nat))
  | JOther => true
  end.

(** ** Keys and paths *)

Definition FIXTURE_KEY_CHARS : Z := 16.
Definition DETERMINISTIC_REASONS : list pystr :=
  [u "invalid_arguments"; u "unknown_session"; u "unknown_asset"].
Definition STRICT_TOOL_NAMES : list pystr := [u "get_ip_geo_asn"; u "lookup_ip_reputation"].

Definition key_args : dumps_args := DumpsArgs true true None (u ",") (u ":").

(** [root / tool_name / f"{key}.json"], as its parts. *)
Record path : Type := Path { p_root : pystr; p_tool : pystr; p_key : pystr }.
#[export] Instance path_eq_dec : EqDecision path.
Proof. solve_decision. Defined.

(** The fixture files: reading one may fail with an [OSError] or, when its bytes are not
    UTF-8, with a [UnicodeDecodeError]. *)
Class Fixtures (W : Type) : Type := {
  fixture_exists : path -> W -> bool;
  read_text : path -> W -> outcome exn pystr;
  write_text : path -> pystr -> M exn W unit
}.

Section recorder.
Context {W : Type} {KX : Fixtures W} {KF : FloatRepr} {KL : JsonLoads} {KS : Sha256}.

Definition fixture_key (arguments : jobj) : outcome exn pystr :=
  canonical ← dumps key_args (JObj arguments);
  Ret (py_take FIXTURE_KEY_CHARS (sha256_text canonical)).

Definition fixture_path (root n : pystr) (arguments : jobj) : outcome exn path :=
  key ← fixture_key arguments; Ret (Path root n key).

(** [json.dumps(body, indent=2, sort_keys=True) + "\n"]. *)
Definition body_args : dumps_args := DumpsArgs true true (Some 2) (u ",") (u ": ").

Definition write_fixture (root n : pystr) (arguments result : jobj) : M exn W path :=
  p ← lift (fixture_path root n arguments);
  text ← lift (dumps body_args (JObj [(u "tool", JStr n); (u "arguments", JObj arguments);
                                      (u "result", JObj result)]));
  _ ← write_text p (text ++ [10]);
  mret p.

Definition live_execute (record_dir : option pystr) (t : Tool W) (arguments : jobj)
    (ctx : ToolContext) : M exn W jobj :=
  result ← tool_run t arguments ctx;
  _ ← match record_dir with
      | Some dir => _ ← write_fixture dir (name t) arguments result; mret tt
      | None => mret tt
      end;
  mret result.

Record ReplayToolRecorder : Type := {
  _fixtures_dir : pystr;
  _strict : bool;
  _strict_tools : list pystr
}.

Definition replay_init (fixtures_dir : pystr) (strict : bool)
    (strict_tools : option (list pystr)) : ReplayToolRecorder :=
  {| _fixtures_dir := fixtures_dir; _strict := strict;
     _strict_tools := default STRICT_TOOL_NAMES strict_tools |}.

(** [str(result.get("reason", "")) not in DETERMINISTIC_REASONS]: only a string can be one
    of the listed reasons. *)
Definition transient (result : jobj) : bool :=
  match dget (u "reason") result with
  | Some (JStr s) => bool_decide (s ∉ DETERMINISTIC_REASONS)
  | _ => true
  end.

Definition poisoned (result : jobj) : bool :=
  match dget (u "unavailable") result with
  | Some j => truthy j && transient result
  | None => false
  end.

(** The checks on a decoded fixture: its shape, its identity, then its result. *)
Definition serve (strict_here : bool) (t : Tool W) (p : path) (arguments : jobj) (data : json)
    : outcome exn jobj :=
  match data with
  | JObj d =>
      match dget (u "tool") d, dget (u "arguments") d, dget (u "result") d with
      | Some n, Some args, Some (JObj result) =>
          if negb (json_eqb n (JStr (name t))) || negb (json_eqb args (JObj arguments))
          then Ret (unavailable (u "fixture_mismatch"))
          else if strict_here && poisoned result
               then Raise (FixtureMissingError
                      (name t ++ u ":" ++ p_key p ++ u ":poisoned"))
               else Ret result
      | _, _, _ => Ret (unavailable (u "fixture_unreadable"))
      end
  | _ => Ret (unavailable (u "fixture_unreadable"))
  end.

Definition replay_execute (self : ReplayToolRecorder) (t : Tool W) (arguments : jobj)
    (ctx : ToolContext) : M exn W jobj :=
  if negb (external t) then tool_run t arguments ctx
  else
    let strict_here := _strict self && bool_decide (name t ∈ _strict_tools self) in
    p ← lift (fixture_path (_fixtures_dir self) (name t) arguments);
    w ← get;
    if negb (fixture_exists p w) then
      if strict_here then raise (FixtureMissingError (name t ++ u ":" ++ p_key p))
      else mret (unavailable (u "fixture_missing"))
    else
      match read_text p w with
      | Raise OSError => mret (unavailable (u "fixture_unreadable"))
      | Raise e => raise e
      | Ret text =>
          match json_loads text with
          | None => mret (unavailable (u "fixture_unreadable"))
          | Some data => lift (serve strict_here t p arguments data)
          end
      end.

(** ** Lemmas *)

Lemma serve_spec strict_here t p arguments data :
  match serve strict_here t p arguments data with
  | Ret r =>
      (exists d, data = JObj d /\ dget (u "result") d = Some (JObj r) /\
         strict_here && poisoned r = false) \/
      r = unavailable (u "fixture_mismatch") \/ r = unavailable (u "fixture_unreadable")
  | Raise e => strict_here = true /\ exists m, e = FixtureMissingError m
  end.
Proof.
  unfold serve. destruct data as [| | | | | |d|]; auto.
  destruct (dget (u "tool") d), (dget (u "arguments") d),
    (dget (u "result") d) as [[| | | | | |result|]|] eqn:Hr; auto.
  destruct (negb _ || negb _); [auto|].
  destruct (strict_here && poisoned result) eqn:Hp; [|eauto 10].
  apply andb_true_iff in Hp as [-> _]. eauto.
Qed.

(** Replay never runs an external tool and never changes the world; under [strict] a
    strict tool's missing fixture and one recorded with a transient failure raise
    [FixtureMissingError], and what is served is a recorded result that is not such a
    failure, or a report that the file is unreadable or of another call.  The one other
    exception is a file that is not UTF-8. *)
Theorem replay_never_live self t arguments ctx w :
  external t = true -> serializable (JObj arguments) = true ->
  let strict_here := _strict self && bool_decide (name t ∈ _strict_tools self) in
  exists p, fixture_path (_fixtures_dir self) (name t) arguments = Ret p /\
  match replay_execute self t arguments ctx w with
  | (o, w') =>
      w' = w /\
      (fixture_exists p w = false ->
         o = if strict_here then Raise (FixtureMissingError (name t ++ u ":" ++ p_key p))
             else Ret (unavailable (u "fixture_missing"))) /\
      (forall r, o = Ret r -> fixture_exists p w = true ->
         (poisoned r = true -> strict_here = true ->
            r = unavailable (u "fixture_mismatch") \/ r = unavailable (u "fixture_unreadable"))) /\
      (forall e, o = Raise e ->
         (strict_here = true /\ exists m, e = FixtureMissingError m) \/
         (read_text p w = Raise e /\ e <> OSError))
  end.
Proof.
  intros Hx Hs strict_here. unfold replay_execute. rewrite Hx. simpl.
  unfold fixture_path, fixture_key, mbind, outcome_bind, M_bind, lift, dumps. rewrite Hs. simpl.
  eexists. split; [done|]. set (p := Path _ _ _). fold strict_here. unfold get.
  destruct (fixture_exists p w) eqn:Hf; simpl.
  2: { destruct strict_here; split_and!; try done; intros; simplify_eq; eauto. }
  destruct (read_text p w) as [text|e] eqn:Hrt.
  - destruct (json_loads text) as [data|].
    + unfold lift. pose proof (serve_spec strict_here t p arguments data) as Hserve.
      destruct (serve strict_here t p arguments data) as [r|e]; split_and!; try done.
      * intros r' [= <-] _ Hp Hst. destruct Hserve as [(d & _ & _ & Hb)|?]; [|done].
        by rewrite Hp, Hst in Hb.
      * intros e' [= <-]. by left.
    + split_and!; try done. intros r [= <-]. auto.
  - destruct e; split_and!; try done; intros; simplify_eq; auto.
Qed.

(** The fixture key depends on the arguments as a mapping, not on their order. *)
Theorem fixture_key_canonical (a b : jobj) :
  NoDup a.*1 -> a ≡ₚ b -> fixture_key a = fixture_key b.
Proof.
  intros Hnd Hp. unfold fixture_key, dumps.
  assert (Hs : serializable (JObj a) = serializable (JObj b)).
  { simpl. apply eq_true_iff_eq. rewrite !forallb_forall. setoid_rewrite <- list_elem_of_In.
    by setoid_rewrite Hp. }
  rewrite Hs. destruct (serializable (JObj b)); [|done].
  by rewrite (encode_order_irrelevant key_args 0 a b).
Qed.
End recorder.

(** ** Recording, then replaying *)

(** [canon] sorts members and changes nothing [==] sees. *)
Lemma dget_canon sort kvs k :
  NoDup (dkeys kvs) ->
  dget k (map (fun kv => (kv.1, canon sort kv.2)) (if sort : bool then sort_items kvs else kvs))
  = canon sort <$> dget k kvs.
Proof.
  intros Hnd. set (kvs' := if sort then sort_items kvs else kvs).
  assert (Hp : kvs' ≡ₚ kvs) by (unfold kvs'; case_match; [apply sort_items_perm|done]).
  assert (Hnd' : NoDup (dkeys (map (fun kv : pystr * json => (kv.1, canon sort kv.2)) kvs')))
    by (unfold dkeys; rewrite map_keys, Hp; done).
  destruct (dget k kvs) as [v|] eqn:E; simpl.
  - apply elem_of_dget; [done|]. apply dget_elem in E. rewrite <- Hp in E.
    by apply (list_elem_of_fmap_2 (fun kv => (kv.1, canon sort kv.2)) kvs' (k, v)).
  - apply dget_None. apply dget_None in E. unfold dkeys. by rewrite map_keys, Hp.
Qed.

Lemma json_eqb_canon sort j : printable j = true -> json_eqb (canon sort j) j = true.
Proof.
  induction j as [| | | | |l IH|kvs IH|] using json_nested_ind; intros Hp; try done.
  - by destruct b.
  - simpl. apply Z.eqb_refl.
  - simpl. apply Z.eqb_refl.
  - simpl. by rewrite bool_decide_true.
  - simpl in Hp. induction IH as [|x l Hx _ IHl]; [done|].
    simpl in Hp. apply andb_prop in Hp as [Hx' Hl]. simpl.
    rewrite Hx by done. exact (IHl Hl).
  - assert (Hp' := Hp). simpl in Hp'. apply andb_prop in Hp' as [Hnd%bool_decide_eq_true Hall].
    rewrite forallb_forall in Hall. rewrite Forall_forall in IH.
    rewrite canon_obj by done. set (kvs' := if sort then sort_items kvs else kvs).
    assert (Hperm : kvs' ≡ₚ kvs) by (unfold kvs'; case_match; [apply sort_items_perm|done]).
    cbn [json_eqb]. rewrite bool_decide_true by (by rewrite length_map, Hperm). simpl.
    apply forallb_forall. intros [k v] Hin%list_elem_of_In.
    apply list_elem_of_fmap in Hin as ([k' v'] & [= -> ->] & Hin). rewrite Hperm in Hin.
    simpl. rewrite (elem_of_dget _ _ _ Hnd Hin). apply (IH (k', v')); [done|].
    apply list_elem_of_In, Hall, andb_prop in Hin as [_ ?]. done.
Qed.

Lemma truthy_canon sort j : truthy (canon sort j) = truthy j.
Proof.
  destruct j as [| | | | |l|kvs|]; try done; simpl; f_equal; apply bool_decide_ext.
  - by rewrite length_map.
  - destruct sort; [rewrite sort_items_perm|]; by rewrite length_map.
Qed.

(** The recorded result, its members in the order of the file. *)
Definition sorted_result (result : jobj) : jobj :=
  map (fun kv => (kv.1, canon true kv.2)) (sort_items result).

Lemma dget_sorted kvs k :
  NoDup (dkeys kvs) -> dget k (sorted_result kvs) = canon true <$> dget k kvs.
Proof. exact (dget_canon true kvs k). Qed.

Lemma canon_sorted kvs : NoDup (dkeys kvs) -> canon true (JObj kvs) = JObj (sorted_result kvs).
Proof. exact (canon_obj true kvs). Qed.

Lemma poisoned_canon result :
  NoDup (dkeys result) -> poisoned (sorted_result result) = poisoned result.
Proof.
  intros Hnd. unfold poisoned, transient. rewrite !dget_sorted by done.
  destruct (dget (u "unavailable") result) as [v|]; [|done]. simpl. rewrite truthy_canon.
  destruct (dget (u "reason") result) as [[]|]; done.
Qed.

Section round_trip.
Context {W : Type} {KX : Fixtures W} {KF : FloatRepr} {KP : FloatParse} {KS : Sha256}.

(** A file reads back as what was written to it. *)
Definition files_kept : Prop := forall p text w w',
  write_text p text w = (Ret tt, w') -> fixture_exists p w' = true /\ read_text p w' = Ret text.

Lemma body_printable n arguments result :
  text_ok n = true -> printable (JObj arguments) = true -> printable (JObj result) = true ->
  printable (JObj [(u "tool", JStr n); (u "arguments", JObj arguments);
                   (u "result", JObj result)]) = true.
Proof.
  intros Hn Ha Hr. cbn [printable forallb fst snd].
  cbn [printable] in Ha, Hr. rewrite Hn, Ha, Hr. vm_compute. done.
Qed.

(** Replaying a file [write_fixture] left. *)
Lemma replay_recorded self t arguments result ctx p text w :
  external t = true -> text_ok (name t) = true ->
  printable (JObj arguments) = true -> printable (JObj result) = true ->
  fixture_path (_fixtures_dir self) (name t) arguments = Ret p ->
  dumps body_args (JObj [(u "tool", JStr (name t)); (u "arguments", JObj arguments);
                         (u "result", JObj result)]) = Ret text ->
  fixture_exists p w = true -> read_text p w = Ret (text ++ [10]) ->
  let strict_here := _strict self && bool_decide (name t ∈ _strict_tools self) in
  json_eqb (JObj (sorted_result result)) (JObj result) = true /\
  replay_execute (KL := stdlib_loads) self t arguments ctx w =
    (if strict_here && poisoned result
     then Raise (FixtureMissingError (name t ++ u ":" ++ p_key p ++ u ":poisoned"))
     else Ret (sorted_result result), w).
Proof.
  intros Hx Hn Ha Hr Ep Et He Hread strict_here.
  assert (Hnd : NoDup (dkeys result))
    by (cbn [printable] in Hr; by apply andb_prop in Hr as [?%bool_decide_eq_true _]).
  assert (Hcanon : canon true (JObj result) = JObj (sorted_result result)) by (by apply canon_sorted).
  split; [rewrite <- Hcanon; by apply json_eqb_canon|].
  unfold replay_execute. rewrite Hx. cbn [negb]. m_unfold. rewrite Ep, He, Hread. cbn [negb].
  unfold json_loads, stdlib_loads. set (body := JObj _) in Et.
  rewrite (loads_dumps body_args body text [10]);
    [|by apply (indent_separators_ok _ 2)|by apply body_printable|by repeat constructor|done].
  assert (Hbnd : NoDup (dkeys [(u "tool", JStr (name t)); (u "arguments", JObj arguments);
                               (u "result", JObj result)]))
    by (apply (bool_decide_unpack _); vm_compute; exact I).
  unfold body. change (sort_keys body_args) with true. rewrite canon_sorted by done.
  unfold serve. rewrite !dget_sorted by done.
  change (dget (u "tool") _) with (Some (JStr (name t))) at 1.
  change (dget (u "arguments") _) with (Some (JObj arguments)) at 1.
  change (dget (u "result") _) with (Some (JObj result)) at 1.
  cbn [fmap option_fmap option_map]. rewrite Hcanon.
  rewrite (json_eqb_canon true (JObj arguments)) by done.
  cbn [canon json_eqb]. rewrite bool_decide_true by done. cbn [negb orb].
  rewrite poisoned_canon by done. fold strict_here. by case_match.
Qed.

(** A recording replays: after [write_fixture], replaying the call without running the
    tool answers the recorded result, equal as a dict to the one recorded; under [strict] a
    strict tool's recorded failure that is not deterministic raises instead. *)
Theorem record_then_replay self t arguments result ctx p w w' :
  files_kept -> external t = true -> text_ok (name t) = true ->
  printable (JObj arguments) = true -> printable (JObj result) = true ->
  write_fixture (_fixtures_dir self) (name t) arguments result w = (Ret p, w') ->
  let strict_here := _strict self && bool_decide (name t ∈ _strict_tools self) in
  let r := sorted_result result in
  json_eqb (JObj r) (JObj result) = true /\
  replay_execute (KL := stdlib_loads) self t arguments ctx w' =
    (if strict_here && poisoned result
     then Raise (FixtureMissingError (name t ++ u ":" ++ p_key p ++ u ":poisoned"))
     else Ret r, w').
Proof.
  intros Hkept Hx Hn Ha Hr Hw strict_here r. unfold write_fixture in Hw. revert Hw. m_unfold.
  destruct (fixture_path _ _ _) as [p'|] eqn:Ep; [|done].
  destruct (dumps body_args _) as [text|] eqn:Et; [|done].
  destruct (write_text p' (text ++ [10]) w) as [[[]|] w1] eqn:Ew; intros; simplify_eq.
  destruct (Hkept _ _ _ _ Ew) as [He Hread]. by apply (replay_recorded _ _ _ _ _ _ text).
Qed.
End round_trip.

(** ** A strict replay over one fixture *)

Module Toy.
(** One poisoned file: a recorded quota failure. *)
#[export] Instance files : Fixtures unit := {
  fixture_exists p _ := bool_decide (p_tool p = u "lookup_ip_reputation");
  read_text _ _ := Ret (u "file");
  write_text _ _ := mret tt
}.
Definition args : jobj := [(u "ip", JStr (u "203.0.113.7")); (u "n", JInt 1)].
#[export] Instance loads : JsonLoads := fun _ =>
  Some (JObj [(u "tool", JStr (u "lookup_ip_reputation")); (u "arguments", JObj args);
              (u "result", JObj (unavailable (u "http_503")))]).
#[export] Instance sha : Sha256 := fun s => s.
#[export] Existing Instance toy_float_repr.
Definition tool : Tool unit :=
  {| name := u "lookup_ip_reputation"; description := []; parameters := JNull;
     external := true; tool_run _ _ := raise TypeError |}.
Definition recorder : ReplayToolRecorder := replay_init (u "fixtures") true None.
Definition ctx : ToolContext :=
  {| alert := Alert.toy_alert (u "s") [Alert.toy_event Alert.CONNECT 0]; ctx_session := false;
     ctx_now := Datetime.Datetime 0 (Some 0) |}.
End Toy.
Import Toy.

(** A file recorded with a dynamically formatted failure is refused. *)
Lemma replay_never_live_witness :
  exists m, replay_execute recorder Toy.tool args ctx tt = (Raise (FixtureMissingError m), tt).
Proof.
  destruct (replay_never_live recorder Toy.tool args ctx tt eq_refl eq_refl) as (p & Hp & Hr).
  destruct (replay_execute recorder Toy.tool args ctx tt) as [o w'] eqn:E.
  destruct Hr as (-> & _). vm_compute in E. rewrite <- E. by eexists.
Defined.

Lemma fixture_key_canonical_witness :
  fixture_key args = fixture_key (rev args).
Proof.
  apply (fixture_key_canonical args (rev args)).
  - apply (bool_decide_unpack _). vm_compute. exact I.
  - apply Permutation_rev.
Defined.

(** A directory of fixture files. *)
Module Store.
#[export] Instance store : Fixtures (list (path * pystr)) := {
  fixture_exists p w := bool_decide (is_Some (dget p w));
  read_text p w := match dget p w with Some s => Ret s | None => Raise OSError end;
  write_text p s w := (Ret tt, dset p s w)
}.
Definition stored_tool : Tool (list (path * pystr)) :=
  {| name := u "lookup_ip_reputation"; description := []; parameters := JNull;
     external := true; tool_run _ _ := raise TypeError |}.
Definition stored_result : jobj := [(u "score", JInt 7); (u "abuse", JFloat (-3))].

Lemma store_kept : @files_kept _ store.
Proof.
  intros p text w w' [= <-]. simpl. rewrite dget_dset_eq. split; [|done].
  by apply bool_decide_eq_true.
Qed.
End Store.

Lemma record_then_replay_witness :
  match @write_fixture _ Store.store JsonParse.Toy.repr Toy.sha (u "fixtures")
          (u "lookup_ip_reputation") Toy.args Store.stored_result [] with
  | (Ret p, w') =>
      (@replay_execute _ Store.store JsonParse.Toy.repr (@stdlib_loads _ JsonParse.Toy.parse)
         Toy.sha Toy.recorder Store.stored_tool Toy.args Toy.ctx w').1
      = Ret [(u "abuse", JFloat (-3)); (u "score", JInt 7)]
  | _ => False
  end.
Proof.
  destruct (@write_fixture _ Store.store JsonParse.Toy.repr Toy.sha _ _ _ _ _)
    as [[p|e] w'] eqn:E; [|vm_compute in E; discriminate E].
  destruct (@record_then_replay _ Store.store JsonParse.Toy.repr JsonParse.Toy.parse Toy.sha
              Toy.recorder Store.stored_tool Toy.args Store.stored_result Toy.ctx p [] w'
              Store.store_kept eq_refl eq_refl eq_refl eq_refl E) as [_ H].
  rewrite H. vm_compute. reflexivity.
Defined.
