(* ===== verification/Database.v ===== *)
(** * Database: the tables, the session and the alert services

    [core/models/], [core/services/alerts.py] and [worker/store.py].  A session works on
    its own copy of the tables until [commit]; what Postgres itself answers (whether a
    statement fails, the clock, a fresh uuid) is a parameter, the constraints the models
    declare are checked here.  Statements of other transactions do not interleave with a
    session's here; [Lifecycle] interleaves whole transactions. *)

From S2P Require Import Prelude Errors Json Datetime Schemas Policy.
#[local] Open Scope Z_scope.

Abbreviation uuid := Z (only parsing).

(** ** [core/models/] *)

Inductive AlertStatus : Type := pending | triaged | failed.
#[export] Instance status_eq_dec : EqDecision AlertStatus.
Proof. solve_decision. Defined.

Record AlertRow : Type := {
  a_id : uuid;
  a_fingerprint : pystr;
  a_source : pystr;
  a_event_time : datetime;
  a_received_at : Z;
  a_raw : jobj;
  a_status : AlertStatus
}.

(** [v_verdict] holds the six columns copied from the verdict. *)
Record VerdictRow : Type := {
  v_id : uuid;
  v_alert_id : uuid;
  v_verdict : Verdict.Verdict;
  v_model_primary : pystr;
  v_model_final : pystr;
  v_escalated_model : bool;
  v_prompt_version : pystr;
  v_input_tokens : Z;
  v_output_tokens : Z;
  v_cost_usd : Z;
  v_latency_ms : Z;
  v_created_at : Z
}.

(** [t_record] holds [seq], [tool_name], [arguments], [result] and [latency_ms]. *)
Record ToolCallRow : Type := {
  t_id : uuid;
  t_verdict_id : uuid;
  t_record : ToolCallRecord
}.

Record tables : Type := Tables {
  alerts : list AlertRow;
  verdicts : list VerdictRow;
  tool_calls : list ToolCallRow
}.

(** An [Integer] column, a [Numeric(10, 6)] column (in micro-dollars). *)
Definition int4 (n : Z) : bool := (- 2 ^ 31 <=? n) && (n <? 2 ^ 31).
Definition numeric_10_6 (micros : Z) : bool := (- 10 ^ 10 <? micros) && (micros <? 10 ^ 10).

(** What Postgres checks of a row before it adds it, as the models declare it: column types,
    the [CheckConstraint], the keys and the foreign key ([Migration.session_enforces_schema]).
    Any other refusal, such as of a NUL in a text, is the parameter [statement]'s. *)
Definition verdict_row_ok (ts : tables) (r : VerdictRow) : bool :=
  bool_decide (v_alert_id r ∈ map a_id (alerts ts))
  && bool_decide (v_id r ∉ map v_id (verdicts ts))
  && (1 <=? Verdict.severity (v_verdict r)) && (Verdict.severity (v_verdict r) <=? 5)
  && int4 (v_input_tokens r) && int4 (v_output_tokens r) && int4 (v_latency_ms r)
  && numeric_10_6 (v_cost_usd r).

Definition tool_call_row_ok (ts : tables) (r : ToolCallRow) : bool :=
  bool_decide (t_verdict_id r ∈ map v_id (verdicts ts))
  && bool_decide (t_id r ∉ map t_id (tool_calls ts))
  && int4 (seq (t_record r)) && int4 (tc_latency_ms (t_record r)).

Definition with_status (r : AlertRow) (s : AlertStatus) : AlertRow :=
  {| a_id := a_id r; a_fingerprint := a_fingerprint r; a_source := a_source r;
     a_event_time := a_event_time r; a_received_at := a_received_at r; a_raw := a_raw r;
     a_status := s |}.

Definition add_alert (r : AlertRow) (ts : tables) : tables :=
  Tables (alerts ts ++ [r]) (verdicts ts) (tool_calls ts).
Definition add_verdict (r : VerdictRow) (ts : tables) : tables :=
  Tables (alerts ts) (verdicts ts ++ [r]) (tool_calls ts).
Definition add_tool_call (r : ToolCallRow) (ts : tables) : tables :=
  Tables (alerts ts) (verdicts ts) (tool_calls ts ++ [r]).
Definition update_status (id : uuid) (s : AlertStatus) (ts : tables) : tables :=
  Tables (map (fun r => if decide (a_id r = id) then with_status r s else r) (alerts ts))
         (verdicts ts) (tool_calls ts).

Definition find_alert (id : uuid) (ts : tables) : option AlertRow :=
  find (fun r => bool_decide (a_id r = id)) (alerts ts).
Definition find_fingerprint (fp : pystr) (ts : tables) : option AlertRow :=
  find (fun r => bool_decide (a_fingerprint r = fp)) (alerts ts).

(** ** The session *)

(** What the server supplies: the fate of a statement and of a commit (which may have
    taken effect even when its answer is lost), [now()], [gen_random_uuid()] and the
    rounding of a [REAL] column.  The driver raises no exception of the application. *)
Class Postgres (W : Type) : Type := {
  statement : W -> outcome exn unit * W;
  commit_statement : W -> outcome exn unit * bool * W;
  server_now : W -> Z;
  gen_uuid : W -> uuid * W;
  real_of : float -> float;
  commit_acknowledged : forall w b w', commit_statement w = (Ret tt, b, w') -> b = true;
  statement_raises : forall w e, (statement w).1 = Raise e -> sb_class_of e = None;
  commit_raises : forall w e, (commit_statement w).1.1 = Raise e -> sb_class_of e = None
}.

(** [AlertRow.raw]: pydantic's [model_dump(mode="json")] and its coercion of a raw
    payload into the field types, [None] for a [ValidationError]. *)
Class AlertCodec : Type := {
  alert_dump : Alert.SessionAlert -> jobj;
  alert_coerce : jobj -> option Alert.SessionAlert;
  alert_coerce_dump : forall a, alert_coerce (alert_dump a) = Some a;
  alert_dump_src_ip : forall a, dget (u "src_ip") (alert_dump a) = Some (JStr (Alert.src_ip a));
  alert_dump_sensor : forall a, dget (u "sensor") (alert_dump a) = Some (JStr (Alert.sensor a))
}.

(** [SessionAlert.model_validate(raw)]. *)
Definition model_validate `{AlertCodec} (raw : jobj) : outcome exn Alert.SessionAlert :=
  match alert_coerce raw with
  | Some a => Alert.validate a
  | None => Raise ValidationError
  end.

(** The outside world, the committed tables, the session's view of them, and whether its
    transaction is in the failed state in which Postgres refuses every statement. *)
Record db (W : Type) : Type := Db {
  outer : W;
  durable : tables;
  working : tables;
  aborted : bool
}.
Arguments Db {W}. Arguments outer {W}. Arguments durable {W}. Arguments working {W}.
Arguments aborted {W}.

Section session.
Context {W : Type} {PG : Postgres W}.

Definition set_working (f : tables -> tables) : M exn (db W) unit := fun d =>
  (Ret tt, Db (outer d) (durable d) (f (working d)) (aborted d)).

Definition execute_statement : M exn (db W) unit := fun d =>
  if aborted d then (Raise SQLAlchemyError, d)
  else
    match statement (outer d) with
    | (Ret _, w) => (Ret tt, Db w (durable d) (working d) false)
    | (Raise e, w) => (Raise e, Db w (durable d) (working d) true)
    end.

(** An [IntegrityError] or a [DataError]. *)
Definition refused {A} : M exn (db W) A := fun d =>
  (Raise SQLAlchemyError, Db (outer d) (durable d) (working d) true).

Definition fresh_uuid : M exn (db W) uuid := fun d =>
  let '(i, w) := gen_uuid (outer d) in (Ret i, Db w (durable d) (working d) (aborted d)).

Definition now : M exn (db W) Z := fun d => (Ret (server_now (outer d)), d).

(** A failed transaction commits nothing: Postgres answers [ROLLBACK]. *)
Definition commit : M exn (db W) unit := fun d =>
  if aborted d then (Ret tt, Db (outer d) (durable d) (durable d) false)
  else
    let '(o, applied, w) := commit_statement (outer d) in
    let ts := if applied then working d else durable d in
    (o, Db w ts ts (negb (is_ret o))).

(** Whatever becomes of the statement, nothing of the transaction survives it. *)
Definition rollback : M exn (db W) unit := fun d =>
  let '(o, w) := statement (outer d) in (o, Db w (durable d) (durable d) false).

(** [ROLLBACK TO SAVEPOINT] while [e] propagates. *)
Definition rollback_to {A} (saved : tables) (e : exn) : M exn (db W) A := fun d =>
  match statement (outer d) with
  | (Ret _, w) => (Raise e, Db w (durable d) saved false)
  | (Raise e', w) => (Raise e', Db w (durable d) saved true)
  end.

(** [async with session.begin_nested(): m]: the body, then [RELEASE SAVEPOINT]. *)
Definition nested_body {A} (m : M exn (db W) A) : M exn (db W) A := fun d =>
  match m d with
  | (Ret a, d1) =>
      match execute_statement d1 with
      | (Ret _, d2) => (Ret a, d2)
      | (Raise e, d2) => rollback_to (working d) e d2
      end
  | (Raise e, d1) => rollback_to (working d) e d1
  end.

Definition begin_nested {A} (m : M exn (db W) A) : M exn (db W) A :=
  _ ← execute_statement; nested_body m.

(** [async with factory() as session: m]: closing it rolls back what is not committed. *)
Definition in_session {A} (m : M exn (db W) A) : M exn (db W) A := fun d =>
  let '(o, d') := m (Db (outer d) (durable d) (durable d) false) in
  (o, Db (outer d') (durable d') (durable d') false).

(** ** [core/services/alerts.py] *)

Record IngestResult : Type := {
  alert_id : uuid;
  created : bool;
  status : AlertStatus
}.

Context {LZ : LocalZone} {SH : Sha256} {AC : AlertCodec}.

(** [ON CONFLICT (fingerprint) DO NOTHING RETURNING id]. *)
Definition insert_or_nothing (fp : pystr) (event_time : datetime) (a : Alert.SessionAlert)
    : M exn (db W) (option uuid) :=
  _ ← execute_statement;
  d ← get;
  if bool_decide (fp ∈ map a_fingerprint (alerts (working d))) then mret None
  else
    new_id ← fresh_uuid;
    if bool_decide (new_id ∈ map a_id (alerts (working d))) then refused
    else
      t ← now;
      _ ← set_working (add_alert
            {| a_id := new_id; a_fingerprint := fp; a_source := Alert.source a;
               a_event_time := event_time; a_received_at := t; a_raw := alert_dump a;
               a_status := pending |});
      mret (Some new_id).

(** A validated alert has a first event; without one [connect_time] raises. *)
Definition insert_alert (a : Alert.SessionAlert) : M exn (db W) IngestResult :=
  match Alert.fingerprint a, Alert.connect_time a with
  | Some fp, Some event_time =>
      new_id ← insert_or_nothing fp event_time a;
      match new_id with
      | Some i => mret {| alert_id := i; created := true; status := pending |}
      | None =>
          _ ← execute_statement;
          d ← get;
          match find_fingerprint fp (working d) with
          | Some row => mret {| alert_id := a_id row; created := false; status := a_status row |}
          | None => raise SQLAlchemyError
          end
      end
  | _, _ => raise (OtherException (u "IndexError"))
  end.

Context {UT : StrRepr} (str_uuid : uuid -> pystr).

Definition alert_not_found (id : uuid) : exn :=
  NotFoundError (u "alert " ++ str_uuid id ++ u " not found").

Definition get_alert (id : uuid) : M exn (db W) AlertRow :=
  _ ← execute_statement;
  d ← get;
  match find_alert id (working d) with
  | Some row => mret row
  | None => raise (alert_not_found id)
  end.

(** The same read, by a statement that also locks the row. *)
Definition get_alert_for_update (id : uuid) : M exn (db W) AlertRow := get_alert id.

(** [OperationalError], the class of a lock timeout among the SQLAlchemy errors, is told
    from the others by [is_operational]. *)
Definition get_alert_for_retriage_update (is_operational : exn -> bool) (id : uuid)
    : M exn (db W) AlertRow :=
  _ ← execute_statement;
  _ ← try_except execute_statement
        (fun e => if is_operational e
                  then Some (raise (ConflictError
                         (u "alert " ++ str_uuid id ++ u " is locked by another request")))
                  else None);
  d ← get;
  match find_alert id (working d) with
  | Some row => mret row
  | None => raise (alert_not_found id)
  end.

Definition flip_alert_to_pending (row : AlertRow) : M exn (db W) unit :=
  _ ← execute_statement;
  set_working (update_status (a_id row) pending).

Definition set_alert_status (id : uuid) (s : AlertStatus) : M exn (db W) unit :=
  _ ← get_alert id;
  _ ← execute_statement;
  set_working (update_status id s).

(** ** [worker/store.py] *)

Definition verdict_row (id aid : uuid) (o : TriageOutcome) (model_primary : pystr)
    (escalated_model : bool) (t : Z) : VerdictRow :=
  let v := o_verdict o in
  {| v_id := id; v_alert_id := aid;
     v_verdict := {| Verdict.severity := Verdict.severity v;
                     Verdict.category := Verdict.category v;
                     Verdict.confidence := real_of (Verdict.confidence v);
                     Verdict.reasoning := Verdict.reasoning v;
                     Verdict.recommended_action := Verdict.recommended_action v;
                     Verdict.escalate := Verdict.escalate v |};
     v_model_primary := model_primary; v_model_final := o_model o;
     v_escalated_model := escalated_model; v_prompt_version := prompt_version o;
     v_input_tokens := o_input_tokens o; v_output_tokens := o_output_tokens o;
     v_cost_usd := o_cost_usd o; v_latency_ms := o_latency_ms o; v_created_at := t |}.

(** The last flush inserts the tool-call rows one by one. *)
Definition insert_tool_call (vid : uuid) (_ : unit) (r : ToolCallRecord)
    : M exn (db W) unit :=
  _ ← execute_statement;
  i ← fresh_uuid;
  d ← get;
  let row := {| t_id := i; t_verdict_id := vid; t_record := r |} in
  if tool_call_row_ok (working d) row then set_working (add_tool_call row) else refused.

Definition insert_verdict (aid : uuid) (o : TriageOutcome) (model_primary : pystr)
    (escalated_model : bool) : M exn (db W) uuid :=
  _ ← execute_statement;
  i ← fresh_uuid;
  t ← now;
  d ← get;
  let row := verdict_row i aid o model_primary escalated_model t in
  if verdict_row_ok (working d) row
  then _ ← set_working (add_verdict row); mret i
  else refused.

(** [set_alert_status] reads the row first: [session.get] autoflushes nothing, and its
    own flush writes the added tool-call rows before the status. *)
Definition persist_verdict (aid : uuid) (o : TriageOutcome) (model_primary : pystr)
    (escalated_model : bool) (tool_calls : list ToolCallRecord) : M exn (db W) uuid :=
  vid ← insert_verdict aid o model_primary escalated_model;
  _ ← get_alert aid;
  _ ← foldM (insert_tool_call vid) tool_calls tt;
  _ ← execute_statement;
  _ ← set_working (update_status aid triaged);
  mret vid.
End session.

(** ** Lemmas *)

(** The constraints of the schema: what every committed state satisfies. *)
Record wf_tables (ts : tables) : Prop := {
  alert_ids : NoDup (map a_id (alerts ts));
  fingerprints : NoDup (map a_fingerprint (alerts ts));
  verdict_ids : NoDup (map v_id (verdicts ts));
  verdicts_ok : Forall (fun r => v_alert_id r ∈ map a_id (alerts ts) /\
                  1 <= Verdict.severity (v_verdict r) <= 5) (verdicts ts);
  tool_calls_ok : Forall (fun r => t_verdict_id r ∈ map v_id (verdicts ts)) (tool_calls ts)
}.

Definition same_tables {W} (d d' : db W) : Prop :=
  durable d' = durable d /\ working d' = working d.

Lemma find_spec {A} (p : A -> bool) l :
  match find p l with
  | Some x => x ∈ l /\ p x = true
  | None => forall x, x ∈ l -> p x = false
  end.
Proof.
  destruct (find p l) as [x|] eqn:E.
  - apply find_some in E as [?%list_elem_of_In ?]. done.
  - intros x Hx%list_elem_of_In. by apply (find_none p l).
Qed.

Lemma find_alert_Some id ts row : find_alert id ts = Some row -> row ∈ alerts ts /\ a_id row = id.
Proof.
  intros E. pose proof (find_spec (fun r => bool_decide (a_id r = id)) (alerts ts)) as H.
  unfold find_alert in E. rewrite E in H. by rewrite bool_decide_eq_true in H.
Qed.

Lemma find_alert_None id ts : find_alert id ts = None <-> id ∉ map a_id (alerts ts).
Proof.
  pose proof (find_spec (fun r => bool_decide (a_id r = id)) (alerts ts)) as H.
  unfold find_alert. destruct (find _ _) as [row|].
  - split; [done|]. intros Hn. destruct Hn. apply list_elem_of_fmap.
    rewrite bool_decide_eq_true in H. naive_solver.
  - split; [|done]. intros _ (row & -> & Hin)%list_elem_of_fmap.
    apply H in Hin. by rewrite bool_decide_eq_false in Hin.
Qed.

Lemma find_fingerprint_Some fp ts row :
  find_fingerprint fp ts = Some row -> row ∈ alerts ts /\ a_fingerprint row = fp.
Proof.
  intros E. pose proof (find_spec (fun r => bool_decide (a_fingerprint r = fp)) (alerts ts)) as H.
  unfold find_fingerprint in E. rewrite E in H. by rewrite bool_decide_eq_true in H.
Qed.

Lemma find_fingerprint_None fp ts :
  find_fingerprint fp ts = None <-> fp ∉ map a_fingerprint (alerts ts).
Proof.
  pose proof (find_spec (fun r => bool_decide (a_fingerprint r = fp)) (alerts ts)) as H.
  unfold find_fingerprint. destruct (find _ _) as [row|].
  - split; [done|]. intros Hn. destruct Hn. apply list_elem_of_fmap.
    rewrite bool_decide_eq_true in H. naive_solver.
  - split; [|done]. intros _ (row & -> & Hin)%list_elem_of_fmap.
    apply H in Hin. by rewrite bool_decide_eq_false in Hin.
Qed.

Section facts.
Context {W : Type} {PG : Postgres W} {LZ : LocalZone} {SH : Sha256} {AC : AlertCodec}.
Variable str_uuid : uuid -> pystr.
Implicit Types (d : db W).

Lemma execute_statement_spec d o d' :
  execute_statement d = (o, d') ->
  same_tables d d' /\ (o = Ret tt -> aborted d = false /\ aborted d' = false).
Proof.
  unfold execute_statement, same_tables. destruct (aborted d) eqn:Ha; [naive_solver|].
  destruct (statement (outer d)) as [[[]|e] w]; naive_solver.
Qed.

Lemma update_status_ids id s ts : map a_id (alerts (update_status id s ts)) = map a_id (alerts ts).
Proof. simpl. rewrite map_map. apply map_ext. intros r. by case_decide. Qed.

Lemma update_status_fps id s ts :
  map a_fingerprint (alerts (update_status id s ts)) = map a_fingerprint (alerts ts).
Proof. simpl. rewrite map_map. apply map_ext. intros r. by case_decide. Qed.

Lemma find_update_status id s ts id' :
  find_alert id' (update_status id s ts) =
    (fun r => if decide (a_id r = id) then with_status r s else r) <$> find_alert id' ts.
Proof.
  unfold find_alert, update_status. simpl.
  induction (alerts ts) as [|r l IH]; simpl; [done|].
  case_decide as Hd; simpl; [|case_bool_decide; simpl; [by rewrite decide_False|done]].
  case_bool_decide; simpl; [by rewrite decide_True|done].
Qed.

Lemma update_status_wf id s ts : wf_tables ts -> wf_tables (update_status id s ts).
Proof.
  intros [Hi Hf Hv Hva Ht]. split.
  - by rewrite update_status_ids.
  - by rewrite update_status_fps.
  - done.
  - by rewrite update_status_ids.
  - done.
Qed.

Lemma NoDup_map_inj {A B} (f : A -> B) l x y :
  NoDup (map f l) -> x ∈ l -> y ∈ l -> f x = f y -> x = y.
Proof.
  induction l as [|z l IH]; simpl; [by intros _ ?%not_elem_of_nil|].
  intros [Hn Hl]%NoDup_cons [->|Hx]%elem_of_cons [->|Hy]%elem_of_cons E; [done| | |by apply IH].
  - destruct Hn. rewrite E. by apply list_elem_of_fmap_2.
  - destruct Hn. rewrite <- E. by apply list_elem_of_fmap_2.
Qed.

Lemma NoDup_snoc {A} (l : list A) x : NoDup l -> x ∉ l -> NoDup (l ++ [x]).
Proof.
  intros Hl Hx. apply NoDup_app. split_and!; [done| |apply NoDup_singleton].
  by intros y Hy ->%list_elem_of_singleton.
Qed.

Lemma add_alert_wf r ts :
  wf_tables ts -> a_id r ∉ map a_id (alerts ts) ->
  a_fingerprint r ∉ map a_fingerprint (alerts ts) -> wf_tables (add_alert r ts).
Proof.
  intros [Hi Hf Hv Hva Ht] Hid Hfp. split; simpl; rewrite ?map_app; simpl; auto using NoDup_snoc.
  eapply Forall_impl; [done|]. simpl. set_solver.
Qed.

Lemma add_verdict_wf r ts :
  wf_tables ts -> verdict_row_ok ts r = true -> wf_tables (add_verdict r ts).
Proof.
  intros [Hi Hf Hv Hva Ht] Hr. unfold verdict_row_ok in Hr. py_reflect.
  split; simpl; rewrite ?map_app; simpl; auto using NoDup_snoc.
  { apply Forall_app. split; [done|]. repeat constructor; done || lia. }
  eapply Forall_impl; [done|]. simpl. set_solver.
Qed.

Lemma add_tool_call_wf r ts :
  wf_tables ts -> tool_call_row_ok ts r = true -> wf_tables (add_tool_call r ts).
Proof.
  intros [Hi Hf Hv Hva Ht] Hr. unfold tool_call_row_ok in Hr. py_reflect.
  split; simpl; auto. apply Forall_app. split; [done|]. by repeat constructor.
Qed.

(** Inversion of a bind: what ran first, and how it ended. *)
Lemma bind_inv {A B} (m : M exn (db W) A) (f : A -> M exn (db W) B) d o d' :
  (x ← m; f x) d = (o, d') ->
  (exists x d1, m d = (Ret x, d1) /\ f x d1 = (o, d')) \/
  (exists e, m d = (Raise e, d') /\ o = Raise e).
Proof.
  unfold mbind, M_bind. destruct (m d) as [[x|e] d1]; [by left; eauto|].
  intros [= <- <-]. right. eauto.
Qed.

Lemma get_alert_spec id d o d' :
  get_alert str_uuid id d = (o, d') ->
  same_tables d d' /\
  (forall row, o = Ret row -> find_alert id (working d) = Some row).
Proof.
  unfold get_alert. intros [([] & d1 & H1%execute_statement_spec & H2)|(e & H1 & ->)]%bind_inv.
  - destruct H1 as [[Hd Hw] _]. unfold mbind, M_bind, get in H2. rewrite <- Hw.
    destruct (find_alert id (working d1)); unfold mret, M_ret, raise in H2; simplify_eq;
      (split; [done|naive_solver]).
  - apply execute_statement_spec in H1 as [? _]. naive_solver.
Qed.

Lemma execute_raises e d d' : execute_statement d = (Raise e, d') -> sb_class_of e = None.
Proof.
  unfold execute_statement. destruct (aborted d); [intros; by simplify_eq|].
  pose proof (statement_raises (outer d)) as Hs.
  destruct (statement (outer d)) as [[[]|e'] w]; intros; simplify_eq. by apply Hs.
Qed.

Lemma get_alert_raises id d e d' :
  get_alert str_uuid id d = (Raise e, d') ->
  sb_class_of e = None \/ (e = alert_not_found str_uuid id /\ find_alert id (working d) = None).
Proof.
  unfold get_alert. intros [([] & d1 & H1 & H2)|(e' & H1%execute_raises & [= ->])]%bind_inv;
    [|by left].
  apply execute_statement_spec in H1 as [[_ Hw] _]. rewrite <- Hw.
  unfold mbind, M_bind, get in H2. destruct (find_alert id (working d1)); [done|].
  unfold raise in H2. simplify_eq. by right.
Qed.

Lemma set_alert_status_spec id s d o d' :
  set_alert_status str_uuid id s d = (o, d') ->
  durable d' = durable d /\
  match o with
  | Ret _ => is_Some (find_alert id (working d)) /\ aborted d' = false /\
             working d' = update_status id s (working d)
  | Raise _ => working d' = working d
  end.
Proof.
  unfold set_alert_status.
  intros [(row & d1 & H1%get_alert_spec & H2)|(e & H1%get_alert_spec & ->)]%bind_inv.
  2: { destruct H1 as [[??] _]. done. }
  destruct H1 as [[Hd1 Hw1] Hrow].
  apply bind_inv in H2 as [([] & d2 & H3%execute_statement_spec & H4)|(e & H3 & ->)].
  - destruct H3 as [[Hd2 Hw2] Ha]. unfold set_working in H4. simplify_eq/=.
    rewrite Hd2, Hw2, Hd1, Hw1. destruct (Ha eq_refl). split; [done|]. eauto.
  - apply execute_statement_spec in H3 as [[Hd2 Hw2] _]. by rewrite Hd2, Hw2.
Qed.

(** What a successful insert leaves behind. *)
Definition inserted (a : Alert.SessionAlert) (fp : pystr) (d d' : db W) (r : IngestResult) : Prop :=
  if created r then
    (fp ∉ map a_fingerprint (alerts (working d))) /\ status r = pending /\
    exists row, working d' = add_alert row (working d) /\ a_id row = alert_id r /\
      a_fingerprint row = fp /\ a_status row = pending /\ a_raw row = alert_dump a /\
      a_id row ∉ map a_id (alerts (working d))
  else
    working d' = working d /\
    exists row, find_fingerprint fp (working d) = Some row /\
      alert_id r = a_id row /\ status r = a_status row.

Lemma insert_or_nothing_spec fp t a d o d' :
  insert_or_nothing fp t a d = (o, d') ->
  durable d' = durable d /\
  match o with
  | Ret (Some i) => inserted a fp d d' {| alert_id := i; created := true; status := pending |}
  | Ret None => fp ∈ map a_fingerprint (alerts (working d)) /\ working d' = working d
  | Raise _ => working d' = working d
  end.
Proof.
  unfold insert_or_nothing.
  intros [([] & d1 & H1%execute_statement_spec & H2)|(e & H1%execute_statement_spec & ->)]%bind_inv.
  2: { destruct H1 as [[??] _]. done. }
  destruct H1 as [[Hd Hw] _]. unfold mbind, M_bind, get in H2.
  rewrite Hw in H2.
  case_bool_decide as Hfp; [unfold mret, M_ret in H2; by simplify_eq|].
  unfold fresh_uuid in H2. destruct (gen_uuid (outer d1)) as [i w].
  case_bool_decide as Hi; [unfold refused in H2; by simplify_eq|].
  unfold now, set_working, mret, M_ret in H2. simplify_eq/=. rewrite Hw.
  split; [done|]. split_and!; try done. eexists. split; [done|]. by split_and!.
Qed.

Lemma insert_alert_spec a d o d' :
  insert_alert a d = (o, d') ->
  durable d' = durable d /\
  match o with
  | Ret r => exists fp, Alert.fingerprint a = Some fp /\ inserted a fp d d' r
  | Raise _ => working d' = working d
  end.
Proof.
  unfold insert_alert.
  destruct (Alert.fingerprint a) as [fp|]; [|unfold raise; intros; by simplify_eq].
  destruct (Alert.connect_time a) as [t|]; [|unfold raise; intros; by simplify_eq].
  intros [(r & d1 & H1%insert_or_nothing_spec & H2)|(e & H1%insert_or_nothing_spec & ->)]%bind_inv.
  2: { by destruct H1. }
  destruct H1 as [Hd1 H1], r as [i|].
  { unfold mret, M_ret in H2. simplify_eq. split; [done|]. by exists fp. }
  destruct H1 as [Hfp Hw1].
  apply bind_inv in H2 as [([] & d2 & H3%execute_statement_spec & H4)|(e & H3%execute_statement_spec & ->)].
  2: { destruct H3 as [[-> ->] _]. by rewrite Hd1, Hw1. }
  destruct H3 as [[Hd2 Hw2] _]. unfold mbind, M_bind, get in H4. rewrite Hw2, Hw1 in H4.
  destruct (find_fingerprint fp (working d)) as [row|] eqn:Hrow.
  - unfold mret, M_ret in H4. simplify_eq. split; [congruence|]. exists fp. split; [done|].
    split; [congruence|]. by exists row.
  - by apply find_fingerprint_None in Hrow.
Qed.

Lemma inserted_wf a fp d d' r :
  inserted a fp d d' r -> wf_tables (working d) -> wf_tables (working d').
Proof.
  unfold inserted. destruct (created r); [|by intros [-> _]].
  intros (Hfp & _ & row & -> & _ & Hf & _ & _ & Hi) Hwf. apply add_alert_wf; [done..|].
  by rewrite Hf.
Qed.

(** Operations that raise the driver's exceptions only. *)
Definition plain {A} (m : M exn (db W) A) : Prop :=
  forall d e d', m d = (Raise e, d') -> sb_class_of e = None.

Lemma plain_bind {A B} (m : M exn (db W) A) (f : A -> M exn (db W) B) :
  plain m -> (forall a, plain (f a)) -> plain (a ← m; f a).
Proof.
  intros Hm Hf d e d' [(a & d1 & _ & H)|(e' & H & [= ->])]%bind_inv; [by eapply Hf|by eapply Hm].
Qed.

Lemma plain_foldM {A B} (f : B -> A -> M exn (db W) B) l b :
  (forall b a, plain (f b a)) -> plain (foldM f l b).
Proof.
  intros Hf. revert b. induction l as [|a l IH]; intros b; simpl; [done|]. by apply plain_bind.
Qed.

Lemma plain_refused {A} : plain (@refused W A).
Proof. intros d e d'. unfold refused. intros; by simplify_eq. Qed.

Lemma plain_insert_verdict aid o mp em : plain (insert_verdict aid o mp em).
Proof.
  unfold insert_verdict. apply plain_bind; [intros d e d'; apply execute_raises|intros _].
  apply plain_bind; [intros d e d'; unfold fresh_uuid; by destruct (gen_uuid _)|intros i].
  apply plain_bind; [done|intros t]. apply plain_bind; [done|intros d]. cbv zeta.
  case_match; [|apply plain_refused]. by apply plain_bind.
Qed.

Lemma plain_insert_tool_call vid x r : plain (insert_tool_call vid x r).
Proof.
  unfold insert_tool_call. apply plain_bind; [intros d e d'; apply execute_raises|intros _].
  apply plain_bind; [intros d e d'; unfold fresh_uuid; by destruct (gen_uuid _)|intros i].
  apply plain_bind; [done|intros d]. cbv zeta. case_match; [done|apply plain_refused].
Qed.

Lemma plain_commit : plain (@commit W PG).
Proof.
  intros d e d'. unfold commit. destruct (aborted d); [done|].
  pose proof (commit_raises (outer d)) as Hc.
  destruct (commit_statement (outer d)) as [[o b] w]. intros; simplify_eq. by apply Hc.
Qed.

Lemma plain_rollback : plain (@rollback W PG).
Proof.
  intros d e d'. unfold rollback. pose proof (statement_raises (outer d)) as Hs.
  destruct (statement (outer d)) as [o w]. intros; simplify_eq. by apply Hs.
Qed.

(** Operations that leave a usable transaction when they return. *)
Definition stays_open {A} (m : M exn (db W) A) : Prop :=
  forall d a d', aborted d = false -> m d = (Ret a, d') -> aborted d' = false.

Lemma open_bind {A B} (m : M exn (db W) A) (f : A -> M exn (db W) B) :
  stays_open m -> (forall a, stays_open (f a)) -> stays_open (a ← m; f a).
Proof.
  intros Hm Hf d b d' Hd [(a & d1 & H1 & H2)|(e & _ & ?)]%bind_inv; [|done].
  eapply Hf, H2. by eapply Hm.
Qed.

Lemma open_execute : stays_open execute_statement.
Proof. intros d [] d' _ [_ H]%execute_statement_spec. by destruct H. Qed.
Lemma open_ret {A} (a : A) : stays_open (mret a).
Proof. intros d b d' Hd [= _ <-]. done. Qed.
Lemma open_raise {A} e : stays_open (A := A) (raise e).
Proof. by intros d b d' _. Qed.
Lemma open_get : stays_open get.
Proof. intros d b d' Hd [= _ <-]. done. Qed.
Lemma open_set_working f : stays_open (set_working f).
Proof. intros d b d' Hd [= _ <-]. done. Qed.
Lemma open_now : stays_open now.
Proof. intros d b d' Hd [= _ <-]. done. Qed.
Lemma open_refused {A} : stays_open (@refused W A).
Proof. by intros d b d' _. Qed.
Lemma open_fresh : stays_open fresh_uuid.
Proof. intros d b d' Hd. unfold fresh_uuid. destruct (gen_uuid _). by intros [= _ <-]. Qed.
#[local] Hint Resolve open_execute open_ret open_raise open_get open_set_working open_now
  open_refused open_fresh : core.

Lemma insert_alert_open a : stays_open (insert_alert a).
Proof.
  unfold insert_alert, insert_or_nothing. destruct (Alert.fingerprint a); [|done].
  destruct (Alert.connect_time a); [|done].
  apply open_bind; [|intros [i|]; [done|]].
  - apply open_bind; [done|intros _]. apply open_bind; [done|intros d0]. case_bool_decide; [done|].
    apply open_bind; [done|intros i]. case_bool_decide; [done|].
    apply open_bind; [done|intros t]. by apply open_bind.
  - apply open_bind; [done|intros _]. apply open_bind; [done|intros d0].
    by destruct (find_fingerprint _ _).
Qed.

(** A commit applies the session's view, or nothing. *)
Lemma commit_spec d o d' :
  commit d = (o, d') -> aborted d = false ->
  (durable d' = working d \/ (durable d' = durable d /\ exists e, o = Raise e)).
Proof.
  unfold commit. intros E Ha. rewrite Ha in E.
  destruct (commit_statement (outer d)) as [[o' applied] w] eqn:Ec. simplify_eq/=.
  destruct applied; simpl; [by left|]. right. split; [done|].
  destruct o as [[]|e]; [|by eexists]. by apply commit_acknowledged in Ec.
Qed.

(** A commit of a view that is already durable changes nothing. *)
Lemma commit_same d o d' : commit d = (o, d') -> working d = durable d -> durable d' = durable d.
Proof.
  unfold commit. destruct (aborted d); [by intros [= _ <-]|].
  destruct (commit_statement (outer d)) as [[o1 []] w]; intros [= _ <-]; simpl; congruence.
Qed.

Lemma rollback_spec d o d' : rollback d = (o, d') -> durable d' = durable d.
Proof. unfold rollback. destruct (statement (outer d)). intros. by simplify_eq. Qed.

(** C18: ingestion deduplicates on the fingerprint: a new fingerprint gets one [pending]
    row, a known one changes nothing and reports the row that holds it with its current
    status, a failure changes nothing, the tables keep their constraints, and every later
    insert of the same alert that succeeds reports the first row's id as a duplicate. *)
Theorem insert_alert_dedup a d o d' :
  insert_alert a d = (o, d') -> wf_tables (working d) ->
  wf_tables (working d') /\ durable d' = durable d /\
  match o with
  | Raise _ => working d' = working d
  | Ret r =>
      exists fp, Alert.fingerprint a = Some fp /\ inserted a fp d d' r /\
      forall d1 o1 d2, working d1 = working d' -> insert_alert a d1 = (Ret o1, d2) ->
        created o1 = false /\ alert_id o1 = alert_id r /\ working d2 = working d1
  end.
Proof.
  intros [Hd H]%insert_alert_spec Hwf. destruct o as [r|e]; [|by rewrite H].
  destruct H as (fp & Hfp & Hins).
  assert (Hwf' : wf_tables (working d')) by by eapply inserted_wf.
  split_and!; [done..|]. exists fp. split_and!; [done..|].
  intros d1 o1 d2 Hw [_ (fp' & Hfp' & Hins1)]%insert_alert_spec. simplify_eq.
  assert (Hknown : exists row, row ∈ alerts (working d') /\ a_fingerprint row = fp /\
                     a_id row = alert_id r).
  { unfold inserted in Hins. destruct (created r).
    - destruct Hins as (_ & _ & row & -> & Hi & Hf & _). exists row. set_solver.
    - destruct Hins as (-> & row & Hrow & Hi & _).
      apply find_fingerprint_Some in Hrow as [??]. by exists row. }
  destruct Hknown as (row & Hin & Hf & Hi). rewrite <- Hw in Hin. unfold inserted in Hins1.
  destruct (created o1).
  - destruct Hins1 as [Hn _]. destruct Hn. apply list_elem_of_fmap. eauto.
  - destruct Hins1 as (Hw2 & row1 & [Hin1 Hf1]%find_fingerprint_Some & -> & _).
    split_and!; [done| |done]. rewrite <- Hi. f_equal.
    apply (NoDup_map_inj a_fingerprint (alerts (working d1))); [|done..|by rewrite Hf, Hf1].
    rewrite Hw. by apply fingerprints.
Qed.

Lemma insert_tool_call_spec vid r d o d' :
  insert_tool_call vid tt r d = (o, d') ->
  durable d' = durable d /\
  (o = Ret tt -> exists row, t_record row = r /\ t_verdict_id row = vid /\
     tool_call_row_ok (working d) row = true /\ working d' = add_tool_call row (working d)).
Proof.
  unfold insert_tool_call.
  intros [([] & d1 & H1%execute_statement_spec & H2)|(e & H1%execute_statement_spec & ->)]%bind_inv.
  2: { destruct H1 as [[??] _]. done. }
  destruct H1 as [[Hd Hw] _]. unfold mbind, M_bind, get, fresh_uuid in H2.
  destruct (gen_uuid (outer d1)) as [i w]. simpl in H2. rewrite Hw in H2.
  destruct (tool_call_row_ok _ _) eqn:Hok; unfold set_working, refused in H2; simplify_eq/=.
  - split; [done|]. intros _. eexists. split_and!; [| |exact Hok|]; done.
  - done.
Qed.

Lemma insert_tool_calls_spec vid rs d o d' :
  foldM (insert_tool_call vid) rs tt d = (o, d') ->
  durable d' = durable d /\
  (o = Ret tt -> exists rows, map t_record rows = rs /\
     Forall (fun row => t_verdict_id row = vid) rows /\
     working d' = Tables (alerts (working d)) (verdicts (working d)) (tool_calls (working d) ++ rows) /\
     (wf_tables (working d) -> wf_tables (working d'))).
Proof.
  revert d. induction rs as [|r rs IH]; intros d; simpl.
  - unfold mret, M_ret. intros [= <- <-]. split; [done|]. intros _. exists [].
    rewrite app_nil_r. by destruct (working d).
  - intros [([] & d1 & [Hd1 H1]%insert_tool_call_spec & [Hd2 H2]%IH)
           |(e & [Hd1 H1]%insert_tool_call_spec & ->)]%bind_inv; [|done].
    split; [congruence|]. intros ->.
    destruct (H1 eq_refl) as (row & Hr & Hv & Hok & Hw1).
    destruct (H2 eq_refl) as (rows & Hrs & Hvs & Hw2 & Hwf).
    exists (row :: rows). split_and!; [by f_equal/=|by constructor| |].
    + rewrite Hw2, Hw1. simpl. by rewrite <- (assoc_L (++)).
    + intros Hwf0. apply Hwf. rewrite Hw1. by apply (add_tool_call_wf row).
Qed.

Lemma insert_verdict_spec aid out mp em d o d' :
  insert_verdict aid out mp em d = (o, d') ->
  durable d' = durable d /\
  (forall vid, o = Ret vid -> exists t, let row := verdict_row vid aid out mp em t in
     verdict_row_ok (working d) row = true /\ working d' = add_verdict row (working d)).
Proof.
  unfold insert_verdict.
  intros [([] & d1 & H1%execute_statement_spec & H2)|(e & H1%execute_statement_spec & ->)]%bind_inv.
  2: { destruct H1 as [[??] _]. done. }
  destruct H1 as [[Hd Hw] _]. unfold mbind, M_bind, get, now, fresh_uuid in H2.
  destruct (gen_uuid (outer d1)) as [i w]. simpl in H2. rewrite Hw in H2.
  destruct (verdict_row_ok _ _) eqn:Hok; unfold set_working, refused, mret, M_ret in H2;
    simplify_eq/=; [|done].
  split; [done|]. intros vid [= <-]. eexists. by split; [exact Hok|].
Qed.

(** The rows [persist_verdict] adds: one verdict, its calls, the alert's status. *)
Definition persisted (aid vid : uuid) (out : TriageOutcome) (mp : pystr) (em : bool)
    (rs : list ToolCallRecord) (ts ts' : tables) : Prop :=
  exists t rows, let row := verdict_row vid aid out mp em t in
    verdict_row_ok ts row = true /\ map t_record rows = rs /\
    Forall (fun r => t_verdict_id r = vid) rows /\
    ts' = update_status aid triaged
            (Tables (alerts ts) (verdicts ts ++ [row]) (tool_calls ts ++ rows)).

Lemma persist_verdict_spec aid out mp em rs d o d' :
  persist_verdict str_uuid aid out mp em rs d = (o, d') ->
  durable d' = durable d /\
  (forall vid, o = Ret vid -> persisted aid vid out mp em rs (working d) (working d') /\
     aborted d' = false /\ (wf_tables (working d) -> wf_tables (working d'))).
Proof.
  unfold persist_verdict.
  intros [(vid & d1 & [Hd1 H1]%insert_verdict_spec & H2)|(e & [Hd1 H1]%insert_verdict_spec & ->)]%bind_inv;
    [|done].
  destruct (H1 vid eq_refl) as (t & Hok & Hw1).
  apply bind_inv in H2 as [(row & d2 & [[Hd2 Hw2] _]%get_alert_spec & H2)
                          |(e & [[Hd2 Hw2] _]%get_alert_spec & ->)]; [|by split; [congruence|]].
  apply bind_inv in H2 as [([] & d3 & [Hd3 H3]%insert_tool_calls_spec & H4)
                          |(e & [Hd3 H3]%insert_tool_calls_spec & ->)]; [|by split; [congruence|]].
  destruct (H3 eq_refl) as (rows & Hrs & Hvs & Hw3 & Hwf).
  apply bind_inv in H4 as [([] & d4 & [[Hd4 Hw4] Ha4]%execute_statement_spec & H4)
                          |(e & [[Hd4 Hw4] _]%execute_statement_spec & ->)]; [|by split; [congruence|]].
  destruct (Ha4 eq_refl) as [_ Ha].
  unfold mbind, M_bind, set_working, mret, M_ret in H4. simplify_eq/=.
  split; [congruence|]. intros vid' [= <-]. rewrite Hw4. split_and!; [|done|].
  - exists t, rows. cbv zeta. split_and!; [done..|]. by rewrite Hw3, Hw2, Hw1.
  - intros Hwf0. apply update_status_wf, Hwf. rewrite Hw2, Hw1. by apply add_verdict_wf.
Qed.

(** Persisting reports a missing alert only when there is none. *)
Lemma persist_verdict_raises aid o mp em rs d e d' :
  persist_verdict str_uuid aid o mp em rs d = (Raise e, d') ->
  sb_class_of e = None \/ find_alert aid (working d) = None.
Proof.
  unfold persist_verdict.
  intros [(vid & d1 & [_ H1]%insert_verdict_spec & H2)|(e' & H1%plain_insert_verdict & [= ->])]%bind_inv;
    [|by left].
  destruct (H1 vid eq_refl) as (t & _ & Hw1).
  apply bind_inv in H2 as [(row & d2 & _ & H2)|(e' & H2%get_alert_raises & [= ->])].
  2: { destruct H2 as [?|[_ Hn]]; [by left|right]. rewrite Hw1 in Hn. exact Hn. }
  left. revert H2. apply plain_bind; [apply plain_foldM; apply plain_insert_tool_call|intros _].
  apply plain_bind; [intros d3 e3 d3'; apply execute_raises|intros _]. by apply plain_bind.
Qed.
End facts.

(** ** A scripted server *)

Module Toy.
(** The fates of the next statements (all succeed after them), and the next uuid. *)
Definition world : Type := list (outcome exn unit) * Z.

Definition server_fate (o : outcome exn unit) : outcome exn unit :=
  match o with
  | Raise CancelledError => Raise CancelledError
  | Raise _ => Raise SQLAlchemyError
  | Ret _ => Ret tt
  end.

#[export] Program Instance postgres : Postgres world := {
  statement w := match w.1 with [] => (Ret tt, w) | o :: os => (server_fate o, (os, w.2)) end;
  commit_statement w :=
    match w.1 with
    | [] => (Ret tt, true, w)
    | o :: os => (server_fate o, is_ret o, (os, w.2))
    end;
  server_now w := 1000 + w.2;
  gen_uuid w := (w.2, (w.1, w.2 + 1));
  real_of x := x
}.
Next Obligation.
  intros [[|[[]|e] os] n] b w' E; simpl in E; [congruence..|]. destruct e; simpl in E; congruence.
Qed.
Next Obligation.
  intros [[|[[]|e] os] n] e' E; simpl in E; [congruence..|].
  destruct e; simpl in E; injection E as <-; done.
Qed.
Next Obligation.
  intros [[|[[]|e] os] n] e' E; simpl in E; [congruence..|].
  destruct e; simpl in E; injection E as <-; done.
Qed.

Definition opt_json {A} (f : A -> json) (o : option A) : json := from_option f JNull o.
Definition json_opt {A} (f : json -> option A) (j : json) : option (option A) :=
  match j with JNull => Some None | _ => Some <$> f j end.
Definition to_str (j : json) : option pystr := match j with JStr s => Some s | _ => None end.
Definition to_int (j : json) : option Z := match j with JInt n => Some n | _ => None end.

Definition event_dump (e : Alert.CowrieEvent) : json :=
  JArr [JStr (Alert.eventid e); JInt (local_us (Alert.timestamp e));
        opt_json JInt (utcoffset (Alert.timestamp e)); JStr (Alert.session e);
        JStr (Alert.ev_src_ip e); JStr (Alert.ev_sensor e); JStr (Alert.message e);
        opt_json JStr (Alert.username e); opt_json JStr (Alert.password e);
        opt_json JStr (Alert.input e); opt_json JStr (Alert.url e);
        opt_json JStr (Alert.outfile e); opt_json JStr (Alert.shasum e);
        opt_json JInt (Alert.ev_duration_ms e); opt_json JStr (Alert.version e)].

Definition event_load (j : json) : option Alert.CowrieEvent :=
  match j with
  | JArr [JStr id; JInt us; off; JStr s; JStr ip; JStr se; JStr m; us'; pw; i; ur; o; sh; d; v] =>
      off ← json_opt to_int off; us' ← json_opt to_str us'; pw ← json_opt to_str pw;
      i ← json_opt to_str i; ur ← json_opt to_str ur; o ← json_opt to_str o;
      sh ← json_opt to_str sh; d ← json_opt to_int d; v ← json_opt to_str v;
      Some {| Alert.eventid := id; Alert.timestamp := Datetime us off; Alert.session := s;
              Alert.ev_src_ip := ip; Alert.ev_sensor := se; Alert.message := m;
              Alert.username := us'; Alert.password := pw; Alert.input := i; Alert.url := ur;
              Alert.outfile := o; Alert.shasum := sh; Alert.ev_duration_ms := d;
              Alert.version := v |}
  | _ => None
  end.

Lemma json_opt_str o : json_opt to_str (opt_json JStr o) = Some o.
Proof. by destruct o. Qed.
Lemma json_opt_int o : json_opt to_int (opt_json JInt o) = Some o.
Proof. by destruct o. Qed.

Lemma event_load_dump e : event_load (event_dump e) = Some e.
Proof.
  unfold event_load, event_dump. cbn match beta.
  repeat (rewrite json_opt_str || rewrite json_opt_int; cbn [mbind option_bind]).
  by destruct e as [? [] ? ? ? ? ? ? ? ? ? ? ? ?].
Qed.

Definition dump (a : Alert.SessionAlert) : jobj :=
  [(u "source", JStr (Alert.source a)); (u "session_id", JStr (Alert.session_id a));
   (u "src_ip", JStr (Alert.src_ip a)); (u "sensor", JStr (Alert.sensor a));
   (u "events", JArr (map event_dump (Alert.events a)))].
Definition coerce (d : jobj) : option Alert.SessionAlert :=
  match dget (u "source") d, dget (u "session_id") d, dget (u "src_ip") d,
        dget (u "sensor") d, dget (u "events") d with
  | Some (JStr so), Some (JStr si), Some (JStr ip), Some (JStr se), Some (JArr es) =>
      events ← mapM event_load es;
      Some {| Alert.source := so; Alert.session_id := si; Alert.src_ip := ip;
              Alert.sensor := se; Alert.events := events |}
  | _, _, _, _, _ => None
  end.

Lemma coerce_dump a : coerce (dump a) = Some a.
Proof.
  assert (E : mapM event_load (map event_dump (Alert.events a)) = Some (Alert.events a)).
  { apply mapM_fmap_Some. intros e. apply event_load_dump. }
  unfold coerce. simpl. rewrite E. simpl. by destruct a.
Qed.

#[export] Program Instance codec : AlertCodec := {
  alert_dump := dump; alert_coerce := coerce; alert_coerce_dump := coerce_dump
}.
Next Obligation. done. Qed.
Next Obligation. done. Qed.

#[export] Instance zone : LocalZone := fun _ => 0.
#[export] Instance sha : Sha256 := fun s => s.

Definition session_alert : Alert.SessionAlert :=
  Alert.toy_alert (u "s1") [Alert.toy_event Alert.CONNECT 0; Alert.toy_event Alert.CLOSED 5].
Definition empty : tables := Tables [] [] [].
Definition start : db world := Db ([], 7) empty empty false.
End Toy.
Import Toy.

Lemma empty_wf : wf_tables empty.
Proof. split; simpl; constructor. Qed.

(** The second insert of a session reports the first one's row. *)
Lemma insert_alert_dedup_witness :
  let d1 := (insert_alert Toy.session_alert Toy.start).2 in
  exists d2, insert_alert Toy.session_alert d1 =
    (Ret {| alert_id := 7; created := false; status := pending |}, d2).
Proof.
  intros d1.
  assert (E : insert_alert Toy.session_alert Toy.start =
                (Ret {| alert_id := 7; created := true; status := pending |}, d1))
    by (vm_compute; reflexivity).
  destruct (insert_alert_dedup Toy.session_alert Toy.start _ d1 E empty_wf)
    as (_ & _ & fp & _ & _ & Hsame).
  destruct (insert_alert Toy.session_alert d1) as [[r|e] d2] eqn:E2.
  2: { vm_compute in E2. discriminate E2. }
  exists d2. destruct (Hsame d1 r d2 eq_refl E2) as (Hc & Hi & _).
  assert (Hs : status r = pending) by (vm_compute in E2; injection E2 as <- <-; reflexivity).
  destruct r; simpl in *; subst; reflexivity.
Defined.
