(* ===== verification/Migration.v ===== *)
(** * Migration: the schema the tables live in

    [alembic/versions/0001_initial_schema.py], [alembic/env.py], [core/models/] as SQLAlchemy
    declares it, and [core/db.py].  A catalog is what Postgres knows of one schema's tables
    and indexes; a migration is the list of its operations, run in one transaction. *)

From Stdlib Require Import Btauto.
From S2P Require Import Prelude Errors Json Datetime Schemas Policy Database.
#[local] Open Scope Z_scope.

(** ** Catalogs *)

Inductive sqltype : Type :=
| UUID | TEXT | TIMESTAMPTZ | JSONB | INTEGER | REAL | BOOLEAN | NUMERIC (precision scale : Z).

Record column : Type := Column {
  col_name : pystr;
  col_type : sqltype;
  server_default : option pystr;
  nullable : bool
}.

(** [CHECK (column BETWEEN low AND high)]; a foreign key of one column. *)
Record check : Type := Check { ck_name : pystr; ck_column : pystr; low : Z; high : Z }.
Record foreign_key : Type := ForeignKey { fk_column : pystr; target_table : pystr; target_column : pystr }.

Record table : Type := Table {
  columns : list column;
  primary_key : list pystr;
  checks : list check;
  foreign_keys : list foreign_key
}.

(** What an index is over: [column], [column DESC], [(column ->> 'field')]. *)
Inductive element : Type := Asc (column : pystr) | Desc (column : pystr) | Arrow (column field : pystr).
Record index : Type := Index { on_table : pystr; elements : list element; is_unique : bool }.

Record catalog : Type := Catalog {
  c_tables : gmap pystr table;
  c_indexes : gmap pystr index
}.

(** Tables and indexes share one name space. *)
Definition taken (name : pystr) (c : catalog) : Prop :=
  is_Some (c_tables c !! name) \/ is_Some (c_indexes c !! name).
#[export] Instance taken_dec name c : Decision (taken name c).
Proof. unfold taken. apply _. Defined.

Definition element_column (e : element) : pystr := match e with Asc n | Desc n | Arrow n _ => n end.
Definition has_column (t : table) (name : pystr) : bool := bool_decide (name ∈ map col_name (columns t)).

(** ** [alembic.op] *)

Inductive operation : Type :=
| create_table (name : pystr) (t : table)
| create_index (name : pystr) (ix : index)
| drop_index (name : pystr)
| drop_table (name : pystr).

(** A foreign key names a table's primary key. *)
Definition reference_ok (ts : gmap pystr table) (k : foreign_key) : bool :=
  match ts !! target_table k with
  | Some t => bool_decide (primary_key t = [target_column k])
  | None => false
  end.

(** No other table refers to [name]. *)
Definition unreferenced (name : pystr) (ts : gmap pystr table) : Prop :=
  map_Forall (fun n t => n = name \/ Forall (fun k => target_table k <> name) (foreign_keys t)) ts.
#[export] Instance unreferenced_dec name ts : Decision (unreferenced name ts).
Proof. unfold unreferenced. apply _. Defined.

(** What Postgres documents of each statement: its effect, [None] where it is refused. *)
Definition carried_out (o : operation) (c : catalog) : option catalog :=
  match o with
  | create_table name t =>
      if bool_decide (taken name c) then None
      else if forallb (reference_ok (<[name := t]> (c_tables c))) (foreign_keys t)
      then Some (Catalog (<[name := t]> (c_tables c)) (c_indexes c))
      else None
  | create_index name ix =>
      if bool_decide (taken name c) then None
      else match c_tables c !! on_table ix with
           | Some t =>
               if forallb (fun e => has_column t (element_column e)) (elements ix)
               then Some (Catalog (c_tables c) (<[name := ix]> (c_indexes c)))
               else None
           | None => None
           end
  | drop_index name =>
      match c_indexes c !! name with
      | Some _ => Some (Catalog (c_tables c) (delete name (c_indexes c)))
      | None => None
      end
  | drop_table name =>
      match c_tables c !! name with
      | Some _ =>
          if bool_decide (unreferenced name (c_tables c))
          then Some (Catalog (delete name (c_tables c)) (filter (fun p => on_table p.2 <> name) (c_indexes c)))
          else None
      | None => None
      end
  end.

(** The effect of a list of them. *)
Fixpoint effect_of (ops : list operation) (c : catalog) : option catalog :=
  match ops with
  | [] => Some c
  | o :: ops' => c' ← carried_out o c; effect_of ops' c'
  end.

(** The server: it does what is documented, and a statement it refuses raises. *)
Class Ddl : Type := {
  exec : operation -> catalog -> outcome exn catalog;
  exec_effect : forall o c c', carried_out o c = Some c' -> exec o c = Ret c';
  exec_refused : forall o c, carried_out o c = None -> exists e, exec o c = Raise e
}.

Section migration.
Context {DD : Ddl}.

Fixpoint run_operations (ops : list operation) (c : catalog) : outcome exn catalog :=
  match ops with
  | [] => Ret c
  | o :: ops' => c' ← exec o c; run_operations ops' c'
  end.

(** [with context.begin_transaction(): context.run_migrations()]: all of it or none. *)
Definition run_migrations (ops : list operation) : M exn catalog unit := fun c =>
  match run_operations ops c with
  | Ret c' => (Ret tt, c')
  | Raise e => (Raise e, c)
  end.

Lemma run_plan ops c :
  match effect_of ops c with
  | Some c' => run_migrations ops c = (Ret tt, c')
  | None => exists e, run_migrations ops c = (Raise e, c)
  end.
Proof.
  unfold run_migrations.
  enough (H : match effect_of ops c with
              | Some c' => run_operations ops c = Ret c'
              | None => exists e, run_operations ops c = Raise e
              end).
  { destruct (effect_of ops c) as [c'|]; [by rewrite H|]. destruct H as [e ->]. by eexists. }
  revert c. induction ops as [|o ops IH]; intros c; simpl; [done|].
  destruct (carried_out o c) as [c1|] eqn:E; simpl.
  - rewrite (exec_effect _ _ _ E). simpl. apply IH.
  - destruct (exec_refused _ _ E) as [e ->]. by exists e.
Qed.
End migration.

(** ** [alembic/versions/0001_initial_schema.py] *)

Definition uuid_column : column := Column (u "id") UUID (Some (u "gen_random_uuid()")) false.
Definition required_column (name : string) (ty : sqltype) : column := Column (u name) ty None false.
Definition optional_column (name : string) (ty : sqltype) : column := Column (u name) ty None true.
Definition now_column (name : string) : column := Column (u name) TIMESTAMPTZ (Some (u "now()")) false.

Definition upgrade : list operation := [
  create_table (u "alerts") {|
    columns := [uuid_column; required_column "fingerprint" TEXT; required_column "source" TEXT;
                required_column "event_time" TIMESTAMPTZ; now_column "received_at";
                required_column "raw" JSONB; Column (u "status") TEXT (Some (u "pending")) false];
    primary_key := [u "id"]; checks := []; foreign_keys := [] |};
  create_index (u "ix_alerts_fingerprint") (Index (u "alerts") [Asc (u "fingerprint")] true);
  create_index (u "ix_alerts_received_at") (Index (u "alerts") [Desc (u "received_at")] false);
  create_index (u "ix_alerts_src_ip") (Index (u "alerts") [Arrow (u "raw") (u "src_ip")] false);
  create_table (u "eval_runs") {|
    columns := [uuid_column; optional_column "git_sha" TEXT; optional_column "prompt_version" TEXT;
                optional_column "model_config" JSONB; optional_column "started_at" TIMESTAMPTZ;
                optional_column "metrics" JSONB];
    primary_key := [u "id"]; checks := []; foreign_keys := [] |};
  create_table (u "verdicts") {|
    columns := [uuid_column; required_column "alert_id" UUID; required_column "severity" INTEGER;
                required_column "category" TEXT; required_column "confidence" REAL;
                required_column "reasoning" TEXT; required_column "recommended_action" TEXT;
                required_column "escalate" BOOLEAN; required_column "model_primary" TEXT;
                required_column "model_final" TEXT; required_column "escalated_model" BOOLEAN;
                required_column "prompt_version" TEXT; optional_column "input_tokens" INTEGER;
                optional_column "output_tokens" INTEGER; optional_column "cost_usd" (NUMERIC 10 6);
                optional_column "latency_ms" INTEGER; now_column "created_at"];
    primary_key := [u "id"];
    checks := [Check (u "ck_verdicts_severity") (u "severity") 1 5];
    foreign_keys := [ForeignKey (u "alert_id") (u "alerts") (u "id")] |};
  create_index (u "ix_verdicts_alert_id_created_at")
    (Index (u "verdicts") [Asc (u "alert_id"); Desc (u "created_at")] false);
  create_table (u "tool_calls") {|
    columns := [uuid_column; required_column "verdict_id" UUID; required_column "seq" INTEGER;
                required_column "tool_name" TEXT; required_column "arguments" JSONB;
                required_column "result" JSONB; optional_column "latency_ms" INTEGER];
    primary_key := [u "id"]; checks := [];
    foreign_keys := [ForeignKey (u "verdict_id") (u "verdicts") (u "id")] |};
  create_index (u "ix_tool_calls_verdict_id_seq")
    (Index (u "tool_calls") [Asc (u "verdict_id"); Asc (u "seq")] false)].

Definition downgrade : list operation := [
  drop_index (u "ix_tool_calls_verdict_id_seq"); drop_table (u "tool_calls");
  drop_index (u "ix_verdicts_alert_id_created_at"); drop_table (u "verdicts");
  drop_table (u "eval_runs");
  drop_index (u "ix_alerts_src_ip"); drop_index (u "ix_alerts_received_at");
  drop_index (u "ix_alerts_fingerprint"); drop_table (u "alerts")].

(** ** [core/models/]: the declarative classes *)

(** [name: Mapped[...] = mapped_column(...)]; [m_optional] for [Mapped[X | None]]. *)
Record mapped : Type := Mapped {
  m_name : pystr;
  m_type : sqltype;
  m_optional : bool;
  m_default : option pystr;
  m_primary : bool;
  m_unique_index : bool;
  m_references : option (pystr * pystr)
}.

(** What [__table_args__] holds. *)
Inductive table_arg : Type := IndexArg (name : pystr) (es : list element) | CheckArg (c : check).
Record declared : Type := Model { tablename : pystr; m_columns : list mapped; table_args : list table_arg }.

Definition uuid_pk : mapped := Mapped (u "id") UUID false (Some (u "gen_random_uuid()")) true false None.
Definition mapped_column (name : string) (ty : sqltype) : mapped := Mapped (u name) ty false None false false None.
Definition mapped_optional (name : string) (ty : sqltype) : mapped := Mapped (u name) ty true None false false None.
Definition mapped_default (name : string) (ty : sqltype) (d : string) : mapped :=
  Mapped (u name) ty false (Some (u d)) false false None.
Definition mapped_reference (name : string) (target column : string) : mapped :=
  Mapped (u name) UUID false None false false (Some (u target, u column)).

Definition AlertRow_model : declared := {|
  tablename := u "alerts";
  m_columns := [uuid_pk; Mapped (u "fingerprint") TEXT false None false true None;
                mapped_column "source" TEXT; mapped_column "event_time" TIMESTAMPTZ;
                mapped_default "received_at" TIMESTAMPTZ "now()"; mapped_column "raw" JSONB;
                mapped_default "status" TEXT "pending"];
  table_args := [IndexArg (u "ix_alerts_received_at") [Desc (u "received_at")];
                 IndexArg (u "ix_alerts_src_ip") [Arrow (u "raw") (u "src_ip")]] |}.

Definition VerdictRow_model : declared := {|
  tablename := u "verdicts";
  m_columns := [uuid_pk; mapped_reference "alert_id" "alerts" "id"; mapped_column "severity" INTEGER;
                mapped_column "category" TEXT; mapped_column "confidence" REAL;
                mapped_column "reasoning" TEXT; mapped_column "recommended_action" TEXT;
                mapped_column "escalate" BOOLEAN; mapped_column "model_primary" TEXT;
                mapped_column "model_final" TEXT; mapped_column "escalated_model" BOOLEAN;
                mapped_column "prompt_version" TEXT; mapped_optional "input_tokens" INTEGER;
                mapped_optional "output_tokens" INTEGER; mapped_optional "cost_usd" (NUMERIC 10 6);
                mapped_optional "latency_ms" INTEGER; mapped_default "created_at" TIMESTAMPTZ "now()"];
  table_args := [CheckArg (Check (u "ck_verdicts_severity") (u "severity") 1 5);
                 IndexArg (u "ix_verdicts_alert_id_created_at") [Asc (u "alert_id"); Desc (u "created_at")]] |}.

Definition ToolCallRow_model : declared := {|
  tablename := u "tool_calls";
  m_columns := [uuid_pk; mapped_reference "verdict_id" "verdicts" "id"; mapped_column "seq" INTEGER;
                mapped_column "tool_name" TEXT; mapped_column "arguments" JSONB;
                mapped_column "result" JSONB; mapped_optional "latency_ms" INTEGER];
  table_args := [IndexArg (u "ix_tool_calls_verdict_id_seq") [Asc (u "verdict_id"); Asc (u "seq")]] |}.

Definition EvalRunRow_model : declared := {|
  tablename := u "eval_runs";
  m_columns := [uuid_pk; mapped_optional "git_sha" TEXT; mapped_optional "prompt_version" TEXT;
                mapped_optional "model_config" JSONB; mapped_optional "started_at" TIMESTAMPTZ;
                mapped_optional "metrics" JSONB];
  table_args := [] |}.

(** [Base.metadata]. *)
Definition metadata : list declared := [AlertRow_model; EvalRunRow_model; ToolCallRow_model; VerdictRow_model].

(** What a class declares: an index named by the default convention for [index=True]. *)
Definition mapped_to_column (m : mapped) : column := Column (m_name m) (m_type m) (m_default m) (m_optional m).
Definition table_of (m : declared) : table := {|
  columns := map mapped_to_column (m_columns m);
  primary_key := map m_name (List.filter m_primary (m_columns m));
  checks := omap (fun a => match a with CheckArg c => Some c | IndexArg _ _ => None end) (table_args m);
  foreign_keys := omap (fun c => (fun r => ForeignKey (m_name c) r.1 r.2) <$> m_references c) (m_columns m) |}.
Definition indexes_of (m : declared) : list (pystr * index) :=
  omap (fun c => if m_unique_index c
                 then Some (u "ix_" ++ tablename m ++ u "_" ++ m_name c, Index (tablename m) [Asc (m_name c)] true)
                 else None) (m_columns m)
  ++ omap (fun a => match a with IndexArg n es => Some (n, Index (tablename m) es false) | CheckArg _ => None end)
       (table_args m).

(** The schema the classes describe. *)
Definition schema : catalog := {|
  c_tables := list_to_map (map (fun m => (tablename m, table_of m)) metadata);
  c_indexes := list_to_map (concat (map indexes_of metadata)) |}.

(** ** The migration's lemmas *)

Definition creates (o : operation) : option pystr :=
  match o with create_table n _ | create_index n _ => Some n | _ => None end.

(** Two schemas' catalogs side by side. *)
Definition beside (c0 c : catalog) : catalog :=
  Catalog (c_tables c0 ∪ c_tables c) (c_indexes c0 ∪ c_indexes c).
Definition apart (c0 c : catalog) : Prop := forall name, taken name c0 -> ~ taken name c.

(** Every foreign key and every index is of a table that exists. *)
Record wf_catalog (c : catalog) : Prop := {
  targets_exist : map_Forall (fun _ t => Forall (fun k => is_Some (c_tables c !! target_table k)) (foreign_keys t)) (c_tables c);
  indexed_exist : map_Forall (fun _ ix => is_Some (c_tables c !! on_table ix)) (c_indexes c)
}.

Lemma not_taken name c : ~ taken name c <-> c_tables c !! name = None /\ c_indexes c !! name = None.
Proof. unfold taken. rewrite !eq_None_not_Some. tauto. Qed.

Lemma taken_beside name c0 c : taken name (beside c0 c) <-> taken name c0 \/ taken name c.
Proof. unfold taken, beside. simpl. rewrite !lookup_union_is_Some. tauto. Qed.

Lemma reference_ok_target ts k : reference_ok ts k = true -> is_Some (ts !! target_table k).
Proof. unfold reference_ok. by destruct (ts !! target_table k). Qed.

Lemma reference_ok_union ts more k : reference_ok ts k = true -> reference_ok (ts ∪ more) k = true.
Proof.
  intros H. destruct (reference_ok_target _ _ H) as [t E]. revert H. unfold reference_ok.
  by rewrite E, (lookup_union_Some_l _ _ _ _ E).
Qed.

(** An operation respects the catalog's well-formedness. *)
Lemma carried_out_wf o c c' : wf_catalog c -> carried_out o c = Some c' -> wf_catalog c'.
Proof.
  intros [Ht Hi] H. destruct o as [n t|n ix|n|n]; simpl in H.
  - case_bool_decide as Hn; [done|]. destruct (forallb _ _) eqn:Hk; [|done]. injection H as <-.
    assert (Hup : forall m, is_Some (c_tables c !! m) -> is_Some (<[n:=t]> (c_tables c) !! m)).
    { intros m Hm. rewrite lookup_insert_is_Some'. by right. }
    split; simpl.
    + apply map_Forall_insert_2.
      * apply Forall_forall. intros k Hin. eapply reference_ok_target.
        rewrite forallb_forall in Hk. by apply Hk, list_elem_of_In.
      * eapply map_Forall_impl; [exact Ht|]. intros m t' HF. eapply Forall_impl; [exact HF|]. intros k. apply Hup.
    + eapply map_Forall_impl; [exact Hi|]. intros m ix. apply Hup.
  - case_bool_decide as Hn; [done|]. destruct (c_tables c !! on_table ix) as [t|] eqn:E; [|done].
    destruct (forallb _ _); [|done]. injection H as <-. split; simpl; [done|].
    apply map_Forall_insert_2; [by rewrite E|done].
  - destruct (c_indexes c !! n); [|done]. injection H as <-. split; simpl; [done|by apply map_Forall_delete].
  - destruct (c_tables c !! n) as [t|] eqn:E; [|done]. case_bool_decide as Hr; [|done]. injection H as <-. split; simpl.
    + intros m t' [Hne Hm]%lookup_delete_Some. specialize (Ht _ _ Hm). destruct (Hr _ _ Hm) as [->|Hr']; [done|].
      apply Forall_forall. intros k Hk. rewrite Forall_forall in Ht, Hr'.
      rewrite lookup_delete_ne by (intros Heq; by apply (Hr' _ Hk)). by apply Ht.
    + intros m ix [Hm Hne]%map_lookup_filter_Some. simpl in Hne. rewrite lookup_delete_ne by done. by apply (Hi m ix).
Qed.

Lemma plan_wf ops c c' : wf_catalog c -> effect_of ops c = Some c' -> wf_catalog c'.
Proof.
  revert c. induction ops as [|o ops IH]; intros c Hwf; simpl; [by intros [= <-]|].
  destruct (carried_out o c) as [c1|] eqn:E; [|done]. simpl. intros H. eapply IH; [|exact H]. by eapply carried_out_wf.
Qed.

(** The frame: what an operation does in a catalog it does beside any other whose names it
    leaves alone. *)
Lemma carried_out_frame o c0 c1 c :
  carried_out o c0 = Some c1 -> apart c0 c -> wf_catalog c -> (forall n, creates o = Some n -> ~ taken n c) ->
  carried_out o (beside c0 c) = Some (beside c1 c) /\ apart c1 c.
Proof.
  intros H Ha [Ht Hi] Hf. destruct o as [n t|n ix|n|n]; simpl in H |- *.
  - specialize (Hf n eq_refl). case_bool_decide as Hn; [done|]. destruct (forallb _ _) eqn:Hk; [|done]. injection H as <-.
    rewrite bool_decide_false by (rewrite taken_beside; tauto).
    unfold beside. cbn [c_tables c_indexes]. rewrite insert_union_l.
    replace (forallb (reference_ok (<[n:=t]> (c_tables c0) ∪ c_tables c)) (foreign_keys t)) with true.
    2:{ symmetry. rewrite forallb_forall in Hk |- *. intros k Hin. by apply reference_ok_union, Hk. }
    split; [done|]. intros m [Hm|Hm]; simpl in Hm; [|by apply Ha; right].
    apply lookup_insert_is_Some in Hm as [<-|[_ Hm]]; [done|apply Ha; by left].
  - specialize (Hf n eq_refl). case_bool_decide as Hn; [done|].
    destruct (c_tables c0 !! on_table ix) as [t|] eqn:E; [|done]. destruct (forallb _ _) eqn:Hk; [|done]. injection H as <-.
    rewrite bool_decide_false by (rewrite taken_beside; tauto).
    unfold beside. cbn [c_tables c_indexes]. rewrite (lookup_union_Some_l _ _ _ _ E), Hk, insert_union_l. split; [done|].
    intros m [Hm|Hm]; simpl in Hm; [by apply Ha; left|].
    apply lookup_insert_is_Some in Hm as [<-|[_ Hm]]; [done|apply Ha; by right].
  - destruct (c_indexes c0 !! n) as [ix|] eqn:E; [|done]. injection H as <-.
    assert (Hnt : ~ taken n c) by (apply Ha; right; by rewrite E). apply not_taken in Hnt as [Hnt Hni].
    unfold beside. cbn [c_tables c_indexes]. rewrite (lookup_union_Some_l _ _ _ _ E).
    rewrite delete_union, (delete_id (c_indexes c)) by done. split; [done|].
    intros m [Hm|Hm]; simpl in Hm; [by apply Ha; left|]. apply lookup_delete_is_Some in Hm as [_ Hm]. apply Ha. by right.
  - destruct (c_tables c0 !! n) as [t|] eqn:E; [|done]. case_bool_decide as Hr; [|done]. injection H as <-.
    assert (Hnt : ~ taken n c) by (apply Ha; left; by rewrite E). apply not_taken in Hnt as [Hnt Hni].
    unfold beside. cbn [c_tables c_indexes]. rewrite (lookup_union_Some_l _ _ _ _ E), bool_decide_true.
    2:{ intros m t' [Hm|[_ Hm]]%lookup_union_Some_raw; [by apply (Hr m t')|]. right.
        eapply Forall_impl; [exact (Ht _ _ Hm)|]. intros k [t'' Hk] Heq. rewrite Heq in Hk. congruence. }
    rewrite delete_union, (delete_id (c_tables c)) by done.
    assert (Hdom : c_indexes c0 ##ₘ c_indexes c).
    { apply map_disjoint_spec. intros m i j H1 H2. apply (Ha m); right; by eexists. }
    rewrite (map_filter_union _ _ _ Hdom), (map_filter_id _ (c_indexes c)).
    2:{ intros m ix Hm Hbad. destruct (Hi _ _ Hm) as [? Hx]. simpl in Hbad. rewrite Hbad in Hx. congruence. }
    split; [done|]. intros m [Hm|Hm]; simpl in Hm.
    + apply lookup_delete_is_Some in Hm as [_ Hm]. apply Ha. by left.
    + destruct Hm as [ix Hm]. apply map_lookup_filter_Some in Hm as [Hm _]. apply Ha. right. by eexists.
Qed.

Lemma plan_frame ops c0 c1 c :
  effect_of ops c0 = Some c1 -> apart c0 c -> wf_catalog c -> Forall (fun n => ~ taken n c) (omap creates ops) ->
  effect_of ops (beside c0 c) = Some (beside c1 c).
Proof.
  revert c0. induction ops as [|o ops IH]; intros c0 H Ha Hwf Hf; simpl in H |- *; [by injection H as <-|].
  destruct (carried_out o c0) as [c0'|] eqn:E; [|done]. simpl in H.
  destruct (carried_out_frame _ _ _ _ E Ha Hwf) as [E' Ha'].
  { intros n Hn. cbn in Hf. rewrite Hn in Hf. by inversion Hf. }
  rewrite E'. simpl. apply IH; [done..|]. cbn in Hf. destruct (creates o); [by inversion Hf|done].
Qed.

(** Operations that only create succeed on free names alone. *)
Lemma plan_creates_free ops c c' :
  Forall (fun o => creates o <> None) ops -> effect_of ops c = Some c' -> Forall (fun n => ~ taken n c) (omap creates ops).
Proof.
  revert c. induction ops as [|o ops IH]; intros c Hc H; [constructor|]. apply Forall_cons in Hc as [Ho Hc].
  simpl in H. destruct (carried_out o c) as [c1|] eqn:E; [|done]. simpl in H. specialize (IH _ Hc H). cbn.
  assert (Hup : (forall n, creates o = Some n -> ~ taken n c) /\ forall n, taken n c -> taken n c1).
  { destruct o as [n t|n ix|n|n]; simpl in E, Ho; [| |congruence..]; case_bool_decide as Hn; [done| |done|].
    - destruct (forallb _ _); [|done]. injection E as <-. split; [by intros ? [= <-]|]. intros m [Hm|Hm]; [left|by right].
      simpl. rewrite lookup_insert_is_Some'. by right.
    - destruct (c_tables c !! on_table ix); [|done]. destruct (forallb _ _); [|done]. injection E as <-.
      split; [by intros ? [= <-]|]. intros m [Hm|Hm]; [by left|right]. simpl. rewrite lookup_insert_is_Some'. by right. }
  destruct Hup as [H1 H2]. destruct (creates o) as [n|]; [|done]. apply Forall_cons. split; [by apply H1|].
  eapply Forall_impl; [exact IH|]. intros m Hm Hm'. by apply Hm, H2.
Qed.

Definition empty_catalog : catalog := Catalog ∅ ∅.

Lemma beside_empty c : beside empty_catalog c = c.
Proof. destruct c. unfold beside. simpl. by rewrite !(left_id_L ∅ (∪)). Qed.

Lemma upgrade_builds_schema : effect_of upgrade empty_catalog = Some schema.
Proof. vm_compute. reflexivity. Qed.

Lemma downgrade_empties_schema : effect_of downgrade schema = Some empty_catalog.
Proof. vm_compute. reflexivity. Qed.

(** The schema's names are those the migration creates. *)
Lemma schema_names n : taken n schema -> n ∈ omap creates upgrade.
Proof.
  assert (Hall : Forall (fun n => n ∈ omap creates upgrade) ((map_to_list (c_tables schema)).*1 ++ (map_to_list (c_indexes schema)).*1))
    by (apply (bool_decide_unpack _); vm_compute; exact I).
  rewrite Forall_forall in Hall. intros [[x Hx]|[x Hx]]; apply Hall, elem_of_app; [left|right];
    apply list_elem_of_fmap; exists (n, x); split; try done; by apply elem_of_map_to_list.
Qed.

(** C19: Where none of its names is taken, the migration builds exactly what the declarative
    classes describe, beside whatever else is there, and the downgrade gives the catalog
    back; where one is taken it raises and leaves the catalog as it was.  Every state it
    leaves is well-formed. *)
Theorem migration_builds_models {DD : Ddl} c : wf_catalog c ->
  (Forall (fun n => ~ taken n c) (omap creates upgrade) ->
     run_migrations upgrade c = (Ret tt, beside schema c) /\
     run_migrations downgrade (beside schema c) = (Ret tt, c)) /\
  (~ Forall (fun n => ~ taken n c) (omap creates upgrade) ->
     exists e, run_migrations upgrade c = (Raise e, c)) /\
  forall ops, wf_catalog (run_migrations ops c).2.
Proof.
  intros Hwf. split_and!.
  - intros Hfree.
    assert (E : effect_of upgrade c = Some (beside schema c)).
    { rewrite <- (beside_empty c) at 1. apply plan_frame; [exact upgrade_builds_schema| |done..].
      intros n [[x H]|[x H]]; simpl in H; by rewrite lookup_empty in H. }
    pose proof (run_plan upgrade c) as Hup. rewrite E in Hup. split; [done|].
    pose proof (run_plan downgrade (beside schema c)) as Hdown.
    rewrite (plan_frame _ _ _ c downgrade_empties_schema), beside_empty in Hdown; [done| |done|by vm_compute; constructor].
    intros n Hn. rewrite Forall_forall in Hfree. apply Hfree, schema_names, Hn.
  - intros Hbusy. pose proof (run_plan upgrade c) as Hup.
    destruct (effect_of upgrade c) as [c'|] eqn:E; [|done]. destruct Hbusy.
    eapply plan_creates_free; [|exact E]. by repeat constructor.
  - intros ops. pose proof (run_plan ops c) as Hops. destruct (effect_of ops c) as [c'|] eqn:E.
    + rewrite Hops. by eapply plan_wf.
    + by destruct Hops as [e ->].
Qed.

(** ** Rows: what the schema admits *)

(** What constraints see of a value: of a document, that there is one (no key is over one). *)
Inductive cell : Type :=
| CNull | CUuid (id : Z) | CText (t : pystr) | CTime (us : Z) | CJson | CInt (n : Z) | CReal (x : float)
| CBool (b : bool) | CNumeric (micros : Z).
#[export] Instance cell_eq_dec : EqDecision cell.
Proof. solve_decision. Defined.

Definition row : Type := list (pystr * cell).
(** The rows of each table. *)
Definition store : Type := pystr -> list row.

Definition cell_fits (ty : sqltype) (x : cell) : bool :=
  match ty, x with
  | UUID, CUuid _ | TEXT, CText _ | TIMESTAMPTZ, CTime _ | JSONB, CJson | REAL, CReal _ | BOOLEAN, CBool _ => true
  | INTEGER, CInt n => int4 n
  | NUMERIC p 6, CNumeric micros => (- 10 ^ p <? micros) && (micros <? 10 ^ p)
  | _, _ => false
  end.

Definition column_ok (r : row) (c : column) : bool :=
  match dget (col_name c) r with
  | Some CNull => nullable c
  | Some x => cell_fits (col_type c) x
  | None => false
  end.

Definition is_null (x : option cell) : bool := match x with Some CNull | None => true | _ => false end.

(** No other row has the key; NULLs are distinct. *)
Definition key_free (rows : list row) (cols : list pystr) (r : row) : bool :=
  existsb (fun c => is_null (dget c r)) cols
  || negb (existsb (fun r' => bool_decide (map (fun c => dget c r') cols = map (fun c => dget c r) cols)) rows).

Definition check_ok (r : row) (ck : check) : bool :=
  match dget (ck_column ck) r with
  | Some (CInt n) => (low ck <=? n) && (n <=? high ck)
  | Some CNull => true
  | _ => false
  end.

Definition reference_found (st : store) (r : row) (k : foreign_key) : bool :=
  match dget (fk_column k) r with
  | Some CNull => true
  | x => existsb (fun r' => bool_decide (dget (target_column k) r' = x)) (st (target_table k))
  end.

(** The columns a table's rows are unique over: its primary key, and the unique indexes
    over columns. *)
Definition unique_keys (c : catalog) (name : pystr) : list (list pystr) :=
  match c_tables c !! name with Some t => [primary_key t] | None => [] end
  ++ omap (fun p => if is_unique p.2 && bool_decide (on_table p.2 = name)
                    then Some (map element_column (elements p.2)) else None) (map_to_list (c_indexes c)).

(** Whether an [INSERT] of the row satisfies the table's types and constraints. *)
Definition admits (c : catalog) (st : store) (name : pystr) (r : row) : bool :=
  match c_tables c !! name with
  | Some t =>
      forallb (column_ok r) (columns t) && forallb (check_ok r) (checks t)
      && forallb (fun cols => key_free (st name) cols r) (unique_keys c name)
      && forallb (reference_found st r) (foreign_keys t)
  | None => false
  end.

Definition status_str (s : AlertStatus) : pystr :=
  match s with pending => u "pending" | triaged => u "triaged" | failed => u "failed" end.

(** The cells of the models' rows. *)
Definition alert_cells (r : AlertRow) : row := [
  (u "id", CUuid (a_id r)); (u "fingerprint", CText (a_fingerprint r)); (u "source", CText (a_source r));
  (u "event_time", CTime (local_us (a_event_time r))); (u "received_at", CTime (a_received_at r));
  (u "raw", CJson); (u "status", CText (status_str (a_status r)))].

Definition verdict_cells (r : VerdictRow) : row :=
  let v := v_verdict r in [
  (u "id", CUuid (v_id r)); (u "alert_id", CUuid (v_alert_id r)); (u "severity", CInt (Verdict.severity v));
  (u "category", CText (Verdict.category_str (Verdict.category v))); (u "confidence", CReal (Verdict.confidence v));
  (u "reasoning", CText (Verdict.reasoning v)); (u "recommended_action", CText (Verdict.recommended_action v));
  (u "escalate", CBool (Verdict.escalate v)); (u "model_primary", CText (v_model_primary r));
  (u "model_final", CText (v_model_final r)); (u "escalated_model", CBool (v_escalated_model r));
  (u "prompt_version", CText (v_prompt_version r)); (u "input_tokens", CInt (v_input_tokens r));
  (u "output_tokens", CInt (v_output_tokens r)); (u "cost_usd", CNumeric (v_cost_usd r));
  (u "latency_ms", CInt (v_latency_ms r)); (u "created_at", CTime (v_created_at r))].

Definition tool_call_cells (r : ToolCallRow) : row :=
  let c := t_record r in [
  (u "id", CUuid (t_id r)); (u "verdict_id", CUuid (t_verdict_id r)); (u "seq", CInt (Policy.seq c));
  (u "tool_name", CText (tool_name c)); (u "arguments", CJson); (u "result", CJson);
  (u "latency_ms", CInt (tc_latency_ms c))].

Definition store_of (ts : tables) : store := fun name =>
  if bool_decide (name = u "alerts") then map alert_cells (alerts ts)
  else if bool_decide (name = u "verdicts") then map verdict_cells (verdicts ts)
  else if bool_decide (name = u "tool_calls") then map tool_call_cells (tool_calls ts)
  else [].

(** *** The session's checks are the schema's *)

Lemma existsb_cells {A B} `{EqDecision B} (cells : A -> row) (l : list A) (p : row -> bool) (proj : A -> B) i :
  (forall a, p (cells a) = bool_decide (proj a = i)) ->
  existsb p (map cells l) = bool_decide (i ∈ map proj l).
Proof.
  intros H. induction l as [|a l IH]; simpl; [done|]. rewrite H, IH.
  rewrite <- bool_decide_or. apply bool_decide_ext. rewrite elem_of_cons. split; intros [?|?]; auto.
Qed.

Lemma unique_keys_schema :
  unique_keys schema (u "alerts") = [[u "id"]; [u "fingerprint"]] /\
  unique_keys schema (u "verdicts") = [[u "id"]] /\ unique_keys schema (u "tool_calls") = [[u "id"]].
Proof. vm_compute. done. Qed.

(** A key of one column that is never NULL. *)
Lemma key_free_column {A B} `{EqDecision B} (cells : A -> row) (l : list A) (proj : A -> B) (mk : B -> cell) r i name :
  Inj (=) (=) mk -> mk i <> CNull ->
  dget name r = Some (mk i) -> (forall a, dget name (cells a) = Some (mk (proj a))) ->
  key_free (map cells l) [name] r = bool_decide (i ∉ map proj l).
Proof.
  intros Hi Hn Hr Hc. unfold key_free. cbn [existsb map]. rewrite Hr.
  replace (is_null (Some (mk i))) with false by (by destruct (mk i)). cbn [orb].
  rewrite (existsb_cells cells l _ proj i); [by rewrite bool_decide_not|].
  intros a. rewrite Hc. apply bool_decide_ext. split; [|by intros ->]. intros [= E]. exact (Hi _ _ E).
Qed.

#[export] Instance CUuid_inj : Inj (=) (=) CUuid.
Proof. by intros ?? [=]. Qed.
#[export] Instance CText_inj : Inj (=) (=) CText.
Proof. by intros ?? [=]. Qed.

Lemma reference_found_id {A} (cells : A -> row) (l : list A) (proj : A -> Z) st k r i :
  dget (fk_column k) r = Some (CUuid i) -> st (target_table k) = map cells l ->
  (forall a, dget (target_column k) (cells a) = Some (CUuid (proj a))) ->
  reference_found st r k = bool_decide (i ∈ map proj l).
Proof.
  intros Hr Hs Hc. unfold reference_found. rewrite Hr, Hs. apply existsb_cells.
  intros a. rewrite Hc. apply bool_decide_ext. split; congruence.
Qed.

(** What the column types ask of a row. *)
Lemma alert_columns r : forallb (column_ok (alert_cells r)) (columns (table_of AlertRow_model)) = true.
Proof. reflexivity. Qed.

Lemma verdict_columns r : forallb (column_ok (verdict_cells r)) (columns (table_of VerdictRow_model)) =
  int4 (Verdict.severity (v_verdict r)) && (int4 (v_input_tokens r) && (int4 (v_output_tokens r)
  && (numeric_10_6 (v_cost_usd r) && (int4 (v_latency_ms r) && true)))).
Proof. cbv -[int4 Z.ltb]. reflexivity. Qed.

Lemma tool_call_columns r : forallb (column_ok (tool_call_cells r)) (columns (table_of ToolCallRow_model)) =
  int4 (Policy.seq (t_record r)) && (int4 (tc_latency_ms (t_record r)) && true).
Proof. cbv -[int4 Z.ltb]. reflexivity. Qed.

Lemma severity_check r : forallb (check_ok (verdict_cells r)) (checks (table_of VerdictRow_model)) =
  (1 <=? Verdict.severity (v_verdict r)) && (Verdict.severity (v_verdict r) <=? 5).
Proof. symmetry. rewrite <- (andb_true_r (_ && _)). cbv -[Z.leb]. reflexivity. Qed.

Lemma schema_tables :
  c_tables schema !! u "alerts" = Some (table_of AlertRow_model) /\
  c_tables schema !! u "verdicts" = Some (table_of VerdictRow_model) /\
  c_tables schema !! u "tool_calls" = Some (table_of ToolCallRow_model).
Proof. vm_compute. done. Qed.

Lemma severity_fits n : int4 n && ((1 <=? n) && (n <=? 5)) = (1 <=? n) && (n <=? 5).
Proof. unfold int4. destruct (1 <=? n) eqn:?, (n <=? 5) eqn:?; rewrite ?andb_true_r, ?andb_false_r; lia. Qed.

Lemma store_tables ts :
  store_of ts (u "alerts") = map alert_cells (alerts ts) /\
  store_of ts (u "verdicts") = map verdict_cells (verdicts ts) /\
  store_of ts (u "tool_calls") = map tool_call_cells (tool_calls ts).
Proof. by unfold store_of. Qed.

(** The keys of each table, as the session compares them. *)
Lemma alert_keys ts r : forallb (fun cols => key_free (map alert_cells (alerts ts)) cols (alert_cells r)) [[u "id"]; [u "fingerprint"]] =
  bool_decide (a_id r ∉ map a_id (alerts ts)) && bool_decide (a_fingerprint r ∉ map a_fingerprint (alerts ts)).
Proof.
  cbn [forallb]. rewrite andb_true_r. f_equal.
  - by apply (key_free_column _ _ _ CUuid); [apply _|..].
  - by apply (key_free_column _ _ _ CText); [apply _|..].
Qed.

Lemma verdict_keys ts r : forallb (fun cols => key_free (map verdict_cells (verdicts ts)) cols (verdict_cells r)) [[u "id"]] =
  bool_decide (v_id r ∉ map v_id (verdicts ts)).
Proof. cbn [forallb]. rewrite andb_true_r. by apply (key_free_column _ _ _ CUuid); [apply _|..]. Qed.

Lemma tool_call_keys ts r : forallb (fun cols => key_free (map tool_call_cells (tool_calls ts)) cols (tool_call_cells r)) [[u "id"]] =
  bool_decide (t_id r ∉ map t_id (tool_calls ts)).
Proof. cbn [forallb]. rewrite andb_true_r. by apply (key_free_column _ _ _ CUuid); [apply _|..]. Qed.

Lemma verdict_references ts r : forallb (reference_found (store_of ts) (verdict_cells r)) (foreign_keys (table_of VerdictRow_model)) =
  bool_decide (v_alert_id r ∈ map a_id (alerts ts)).
Proof.
  replace (foreign_keys (table_of VerdictRow_model)) with [ForeignKey (u "alert_id") (u "alerts") (u "id")] by (vm_compute; reflexivity).
  cbn [forallb]. rewrite andb_true_r. destruct (store_tables ts) as (E & _). by apply (reference_found_id alert_cells).
Qed.

Lemma tool_call_references ts r : forallb (reference_found (store_of ts) (tool_call_cells r)) (foreign_keys (table_of ToolCallRow_model)) =
  bool_decide (t_verdict_id r ∈ map v_id (verdicts ts)).
Proof.
  replace (foreign_keys (table_of ToolCallRow_model)) with [ForeignKey (u "verdict_id") (u "verdicts") (u "id")] by (vm_compute; reflexivity).
  cbn [forallb]. rewrite andb_true_r. destruct (store_tables ts) as (_ & E & _). by apply (reference_found_id verdict_cells).
Qed.

(** What the model takes the server to check of a row before it adds it is what the deployed
    schema declares: its types, check, keys and references together. *)
Lemma session_enforces_schema ts :
  effect_of upgrade empty_catalog = Some schema /\
  (forall r, admits schema (store_of ts) (u "alerts") (alert_cells r) =
     bool_decide (a_id r ∉ map a_id (alerts ts)) && bool_decide (a_fingerprint r ∉ map a_fingerprint (alerts ts))) /\
  (forall r, admits schema (store_of ts) (u "verdicts") (verdict_cells r) = verdict_row_ok ts r) /\
  (forall r, admits schema (store_of ts) (u "tool_calls") (tool_call_cells r) = tool_call_row_ok ts r).
Proof.
  destruct schema_tables as (T1 & T2 & T3), unique_keys_schema as (K1 & K2 & K3), (store_tables ts) as (S1 & S2 & S3).
  split; [exact upgrade_builds_schema|]. split_and!; intros r; unfold admits.
  - rewrite T1, K1, S1, alert_columns, alert_keys.
    replace (checks (table_of AlertRow_model)) with (@nil check) by (vm_compute; reflexivity).
    replace (foreign_keys (table_of AlertRow_model)) with (@nil foreign_key) by (vm_compute; reflexivity).
    cbn [forallb andb]. by rewrite andb_true_r.
  - rewrite T2, K2, S2, verdict_columns, severity_check, verdict_keys, verdict_references.
    unfold verdict_row_ok. rewrite <- (andb_assoc _ _ (_ <=? 5)), <- (severity_fits (Verdict.severity (v_verdict r))). btauto.
  - rewrite T3, K3, S3, tool_call_columns, tool_call_keys, tool_call_references.
    replace (checks (table_of ToolCallRow_model)) with (@nil check) by (vm_compute; reflexivity).
    unfold tool_call_row_ok. cbn [forallb]. btauto.
Qed.

(** ** [core/db.py] and [alembic/env.py] *)

(** A parsed URL: its driver and the rest. *)
Record url : Type := Url { drivername : pystr; rest : pystr }.
Record Engine : Type := MakeEngine { e_url : url; connect_options : option pystr; hide_parameters : bool }.

Section environment.
Context {DD : Ddl}.
(** SQLAlchemy's parser and its constructor, which raises for a dialect it does not know, and
    whether the server lets the engine connect. *)
Variable make_url : pystr -> outcome exn url.
Variable create_async_engine : Engine -> outcome exn unit.
Variable connect : Engine -> outcome exn unit.

Definition make_engine (database_url : pystr) (pinned : option pystr) : outcome exn Engine :=
  parsed ← make_url database_url;
  let engine := {| e_url := if bool_decide (drivername parsed = u "postgresql")
                            then Url (u "postgresql+psycopg") (rest parsed) else parsed;
                   connect_options := (fun s => u "-csearch_path=" ++ s ++ u ",public") <$> pinned;
                   hide_parameters := true |} in
  _ ← create_async_engine engine;
  Ret engine.

(** [x or y] of two strings that may be absent. *)
Definition or_else (x y : option pystr) : option pystr := match x with Some (_ :: _) => x | _ => y end.

Definition _database_url (ini : option pystr) (environ : list (pystr * pystr)) : outcome exn pystr :=
  match or_else ini (or_else (dget (u "DATABASE_URL") environ) (dget (u "TEST_DATABASE_URL") environ)) with
  | Some (c :: s) => Ret (c :: s)
  | _ => Raise (ConfigError (u "DATABASE_URL is not set"))
  end.

(** [run_migrations_online]: the engine, then the migrations, over the schema
    [MIGRATE_SCHEMA] names; the version table is pinned to the same one. *)
Definition run_async_migrations (ini : option pystr) (environ : list (pystr * pystr)) (ops : list operation)
    : M exn catalog (Engine * option pystr) :=
  database_url ← lift (_database_url ini environ);
  engine ← lift (make_engine database_url (dget (u "MIGRATE_SCHEMA") environ));
  _ ← lift (connect engine);
  _ ← run_migrations ops;
  mret (engine, dget (u "MIGRATE_SCHEMA") environ).

(** The pinned URL decides, whatever the environment exports; no engine ever speaks through
    another driver than psycopg for a bare URL or renders a bound parameter. *)
Lemma pinned_url_decides ini environ : ini <> [] -> _database_url (Some ini) environ = Ret ini.
Proof. by destruct ini. Qed.

Lemma make_engine_spec database_url pinned e : make_engine database_url pinned = Ret e ->
  hide_parameters e = true /\ drivername (e_url e) <> u "postgresql" /\
  (connect_options e = None <-> pinned = None).
Proof.
  unfold make_engine. destruct (make_url database_url) as [p|]; [|done]. cbn [mbind outcome_bind].
  destruct (create_async_engine _); [|done]. intros [= <-]. simpl. split_and!; [done| |].
  - case_bool_decide; [|done]. simpl. intros E. by apply (f_equal length) in E.
  - by destruct pinned.
Qed.

(** A run that raises left the catalog as it was. *)
Lemma migrations_all_or_nothing ini environ ops c e :
  (run_async_migrations ini environ ops c).1 = Raise e -> (run_async_migrations ini environ ops c).2 = c.
Proof.
  unfold run_async_migrations, run_migrations. m_unfold.
  destruct (_database_url ini environ); [|done]. destruct (make_engine _ _) as [en|]; [|done].
  destruct (connect en); [|done]. by destruct (run_operations ops c).
Qed.
End environment.

(** ** A schema with Alembic's own table *)

Module Toy.
Definition bookkeeping : catalog := Catalog
  (<[u "alembic_version" := {| columns := [required_column "version_num" TEXT]; primary_key := [u "version_num"];
                               checks := []; foreign_keys := [] |}]> ∅) ∅.
(** A server that does just that. *)
#[export] Instance server : Ddl.
Proof.
  refine {| exec o c := match carried_out o c with Some c' => Ret c' | None => Raise SQLAlchemyError end |}.
  - by intros o c c' ->.
  - intros o c ->. by eexists.
Defined.
Lemma bookkeeping_wf : wf_catalog bookkeeping.
Proof. split; simpl; [apply map_Forall_insert_2; [constructor|apply map_Forall_empty]|apply map_Forall_empty]. Qed.
End Toy.

Lemma migration_builds_models_witness :
  run_migrations (DD := Toy.server) upgrade Toy.bookkeeping = (Ret tt, beside schema Toy.bookkeeping) /\
  run_migrations (DD := Toy.server) downgrade (beside schema Toy.bookkeeping) = (Ret tt, Toy.bookkeeping).
Proof.
  refine (proj1 (migration_builds_models (DD := Toy.server) Toy.bookkeeping Toy.bookkeeping_wf) _).
  apply (bool_decide_unpack _). vm_compute. exact I.
Defined.
