(* ===== verification/History.v ===== *)
(** * History: the source-address history of an alert and its tool

    [core/services/alert_history.py], [worker/tools/alert_history.py] and the
    latest-verdict query of [core/services/alerts_read.py] both share. *)

From S2P Require Import Prelude Errors Json Datetime Schemas Llm Policy ToolBase Tools Database.
#[local] Open Scope Z_scope.

(** ** [latest_verdicts_subquery] *)

(** [created_at DESC, id DESC]. *)
Definition newer (a b : VerdictRow) : bool :=
  (v_created_at b <? v_created_at a)
  || ((v_created_at a =? v_created_at b) && (v_id b <? v_id a)).

Definition latest_of (rows : list VerdictRow) : option VerdictRow :=
  foldr (fun r acc => match acc with
                      | Some best => if newer r best then Some r else acc
                      | None => Some r
                      end) None rows.

(** The row of [DISTINCT ON (alert_id)] for one alert. *)
Definition latest_verdict (ts : tables) (aid : uuid) : option VerdictRow :=
  latest_of (filter (fun r => v_alert_id r = aid) (verdicts ts)).

(** ** [core/services/alert_history.py] *)

Record AlertHistory : Type := {
  count : Z;
  first_seen : option Z;
  categories : list (pystr * Z)
}.

(** [raw ->> key] of a string member. *)
Definition raw_text (key : pystr) (raw : jobj) : option pystr :=
  match dget key raw with Some (JStr s) => Some s | _ => None end.

Definition history_predicate (src_ip : pystr) (since : datetime) (exclude : option pystr)
    (r : AlertRow) : bool :=
  bool_decide (raw_text (u "src_ip") (a_raw r) = Some src_ip)
  && (instant since <=? a_received_at r)
  && match exclude with Some fp => bool_decide (a_fingerprint r <> fp) | None => true end.

Definition min_of (l : list Z) : option Z :=
  foldr (fun x acc => Some (match acc with Some y => Z.min x y | None => x end)) None l.

(** [GROUP BY] of the categories, as a dict of counts. *)
Definition count_key (d : list (pystr * Z)) (k : pystr) : list (pystr * Z) :=
  dset k (default 0 (dget k d) + 1) d.
Definition group_count (ks : list pystr) : list (pystr * Z) := foldl count_key [] ks.

Definition latest_category (ts : tables) (r : AlertRow) : option pystr :=
  (fun v => Verdict.category_str (Verdict.category (v_verdict v))) <$> latest_verdict ts (a_id r).
Definition latest_categories (ts : tables) (rows : list AlertRow) : list pystr :=
  omap (latest_category ts) rows.

Section history.
Context {W : Type} {PG : Postgres W} {LZ : LocalZone} {SH : Sha256} {IP : IpAddress}.

(** The server renders a timestamp in the connection's time zone. *)
Variable timestamptz_isoformat : Z -> pystr.

Definition get_alert_history (src_ip : pystr) (since : datetime) (exclude : option pystr)
    : M exn (db W) AlertHistory :=
  if negb (is_aware since) then raise (ValueError (u "since must be timezone-aware"))
  else
    _ ← execute_statement;
    d ← get;
    let rows := List.filter (history_predicate src_ip since exclude) (alerts (working d)) in
    _ ← execute_statement;
    d' ← get;
    let rows' := List.filter (history_predicate src_ip since exclude) (alerts (working d')) in
    mret {| count := py_len rows; first_seen := min_of (map a_received_at rows);
            categories := group_count (latest_categories (working d') rows') |}.

(** ** [worker/tools/alert_history.py] *)

Record AlertHistoryTool : Type := { _max_window_hours : Z }.

Definition history_init (max_window_hours : Z) : outcome exn AlertHistoryTool :=
  if max_window_hours <? 1 then Raise (ValueError (u "max_window_hours must be >= 1"))
  else Ret {| _max_window_hours := max_window_hours |}.

(** [d - timedelta(hours=h)]: the years [datetime] has, or an [OverflowError]. *)
Definition MIN_US : Z := days_from_civil 1 1 1 * US_PER_DAY.
Definition MAX_US : Z := days_from_civil 10000 1 1 * US_PER_DAY - 1.
Definition sub_hours (d : datetime) (h : Z) : outcome exn datetime :=
  let t := local_us d - h * 3600000000 in
  if (MIN_US <=? t) && (t <=? MAX_US) then Ret (Datetime t (utcoffset d))
  else Raise OverflowError.

Variable self : AlertHistoryTool.

(** The read, under its savepoint. *)
Definition guarded_history (ip : pystr) (since : datetime) (a : Alert.SessionAlert)
    : M exn (db W) (option AlertHistory) :=
  try_except
    (h ← begin_nested
           match Alert.fingerprint a with
           | Some fp => get_alert_history ip since (Some fp)
           | None => raise (OtherException (u "IndexError"))
           end;
     mret (Some h))
    (fun e => match e with SQLAlchemyError => Some (mret None) | _ => None end).

Definition history_result (ip : pystr) (window_hours : Z) (h : AlertHistory) : jobj :=
  [(u "ip", JStr ip); (u "window_hours", JInt window_hours); (u "count", JInt (count h));
   (u "first_seen", match first_seen h with
                    | Some t => JStr (timestamptz_isoformat t)
                    | None => JNull
                    end);
   (u "categories", JObj (map (fun kv => (kv.1, JInt kv.2)) (categories h)))].

Definition run (arguments : jobj) (ctx : ToolContext) : M exn (db W) jobj :=
  match dget (u "ip") arguments with
  | Some (JStr s) =>
      match canonical_ip s with
      | None => mret (unavailable (u "invalid_arguments"))
      | Some ip =>
          match dget (u "window_hours") arguments with
          | Some (JInt n) =>
              if n <? 1 then mret (unavailable (u "invalid_arguments"))
              else if negb (ctx_session ctx) then mret (unavailable (u "no_database"))
              else
                let window_hours := Z.min n (_max_window_hours self) in
                since ← lift (sub_hours (ctx_now ctx) window_hours);
                history ← guarded_history ip since (alert ctx);
                match history with
                | Some h => mret (history_result ip window_hours h)
                | None => mret (unavailable (u "database_error"))
                end
          | _ => mret (unavailable (u "invalid_arguments"))
          end
      end
  | _ => mret (unavailable (u "invalid_arguments"))
  end.

(** ** Lemmas *)

Lemma newer_trans a b c : newer a b = true -> newer b c = true -> newer a c = true.
Proof.
  unfold newer. rewrite !orb_true_iff, !andb_true_iff, !Z.ltb_lt, !Z.eqb_eq. lia.
Qed.

(** The latest row belongs to the alert and no other of its rows is newer. *)
Lemma latest_of_spec rows :
  match latest_of rows with
  | Some best => best ∈ rows /\ forall r, r ∈ rows -> newer r best = false
  | None => rows = []
  end.
Proof.
  induction rows as [|r rows IH]; simpl; [done|].
  destruct (latest_of rows) as [best|] eqn:E; [|subst].
  - destruct IH as [Hin Hmax]. destruct (newer r best) eqn:Hn.
    + split; [left|]. intros r' [->|Hr']%elem_of_cons; [unfold newer; rewrite !Z.ltb_irrefl; by rewrite andb_false_r|].
      destruct (newer r' r) eqn:Hn'; [|done]. specialize (Hmax r' Hr').
      by rewrite (newer_trans r' r best) in Hmax.
    + split; [by right|]. intros r' [->|Hr']%elem_of_cons; [done|by apply Hmax].
  - split; [left|]. intros r' ->%list_elem_of_singleton.
    unfold newer. rewrite !Z.ltb_irrefl. by rewrite andb_false_r.
Qed.

Definition occurrences (k : pystr) (ks : list pystr) : Z := py_len (filter (fun x => x = k) ks).

Lemma group_count_gen ks d k :
  default 0 (dget k (foldl count_key d ks)) = default 0 (dget k d) + occurrences k ks.
Proof.
  revert d. induction ks as [|x ks IH]; intros d; simpl; [unfold occurrences, py_len; simpl; lia|].
  rewrite IH. unfold count_key, occurrences. rewrite filter_cons.
  destruct (decide (x = k)) as [->|Hne].
  - rewrite dget_dset_eq. unfold py_len. simpl. lia.
  - by rewrite dget_dset_ne.
Qed.

Lemma group_count_spec ks k : default 0 (dget k (group_count ks)) = occurrences k ks.
Proof. unfold group_count. by rewrite group_count_gen. Qed.

Lemma occurrences_omap {A} (f : A -> option pystr) k l :
  occurrences k (omap f l) = py_len (List.filter (fun x => bool_decide (f x = Some k)) l).
Proof.
  unfold occurrences, py_len. f_equal. induction l as [|x l IH]; [done|]. simpl.
  destruct (f x) as [k'|]; simpl; [|done]. rewrite filter_cons.
  destruct (decide (k' = k)) as [->|Hne].
  - rewrite bool_decide_true by done. simpl. f_equal. exact IH.
  - rewrite bool_decide_false by congruence. exact IH.
Qed.

Lemma latest_verdict_spec ts aid v :
  latest_verdict ts aid = Some v ->
  v ∈ verdicts ts /\ v_alert_id v = aid /\
  forall r, r ∈ verdicts ts -> v_alert_id r = aid -> newer r v = false.
Proof.
  intros E. pose proof (latest_of_spec (filter (fun r => v_alert_id r = aid) (verdicts ts))) as H.
  unfold latest_verdict in E. rewrite E in H. destruct H as [[Ha Hin]%list_elem_of_filter Hn].
  split_and!; [done..|]. intros r Hr Ha'. apply Hn. by apply list_elem_of_filter.
Qed.

Lemma min_of_spec l :
  match min_of l with
  | Some t => t ∈ l /\ forall x, x ∈ l -> t <= x
  | None => l = []
  end.
Proof.
  induction l as [|x l IH]; simpl; [done|].
  destruct (min_of l) as [y|]; [|subst; split; [left|by intros z ->%list_elem_of_singleton]].
  destruct IH as [Hin Hmin]. split.
  - destruct (Z.min_spec x y) as [[_ ->]|[_ ->]]; [left|by right].
  - intros z [->|Hz]%elem_of_cons; [lia|]. specialize (Hmin z Hz). lia.
Qed.

Lemma rollback_to_spec {A} saved e (d : db W) (o : outcome exn A) d' :
  rollback_to saved e d = (o, d') ->
  durable d' = durable d /\ working d' = saved /\
  (exists e', o = Raise e') /\
  (aborted d' = false <-> (statement (outer d)).1 = Ret tt).
Proof.
  unfold rollback_to. destruct (statement (outer d)) as [[[]|e'] w]; intros; simplify_eq/=;
    split_and!; eauto; naive_solver.
Qed.

(** A savepoint over a body that reads only leaves the tables alone. *)
Lemma begin_nested_frame {A} (m : M exn (db W) A) :
  (forall d o d', m d = (o, d') -> same_tables d d') ->
  forall d o d', begin_nested m d = (o, d') -> same_tables d d'.
Proof.
  intros Hm d o d'. unfold begin_nested.
  intros [([] & d1 & [[Hd1 Hw1] _]%execute_statement_spec & H2)
         |(e & [[Hd1 Hw1] _]%execute_statement_spec & ->)]%bind_inv; [|done].
  unfold nested_body in H2. destruct (m d1) as [[a|e] d2] eqn:Em; apply Hm in Em as [Hd2 Hw2].
  - destruct (execute_statement d2) as [[[]|e] d3] eqn:Ee;
      apply execute_statement_spec in Ee as [[Hd3 Hw3] _].
    + simplify_eq. by split; congruence.
    + apply rollback_to_spec in H2 as (Hd4 & Hw4 & _). by split; congruence.
  - apply rollback_to_spec in H2 as (Hd4 & Hw4 & _). by split; congruence.
Qed.

Lemma get_alert_history_spec src_ip since ex d o d' :
  get_alert_history src_ip since ex d = (o, d') ->
  same_tables d d' /\
  (forall h, o = Ret h ->
     let rows := List.filter (history_predicate src_ip since ex) (alerts (working d)) in
     is_aware since = true /\
     h = {| count := py_len rows; first_seen := min_of (map a_received_at rows);
            categories := group_count (latest_categories (working d) rows) |}).
Proof.
  unfold get_alert_history. destruct (is_aware since); simpl.
  2: { unfold raise. intros; by simplify_eq. }
  intros [([] & d1 & [[Hd1 Hw1] _]%execute_statement_spec & H2)
         |(e & [[Hd1 Hw1] _]%execute_statement_spec & ->)]%bind_inv; [|done].
  unfold mbind at 1, M_bind at 1, get at 1 in H2.
  apply bind_inv in H2 as [([] & d2 & [[Hd2 Hw2] _]%execute_statement_spec & H3)
                          |(e & [[Hd2 Hw2] _]%execute_statement_spec & ->)].
  2: { split; [by split; congruence|done]. }
  unfold mbind, M_bind, get, mret, M_ret in H3. simplify_eq/=.
  split; [by split; congruence|]. intros h [= <-]. by rewrite Hw2, Hw1.
Qed.

Definition read_history (ip : pystr) (since : datetime) (a : Alert.SessionAlert)
    : M exn (db W) AlertHistory :=
  match Alert.fingerprint a with
  | Some fp => get_alert_history ip since (Some fp)
  | None => raise (OtherException (u "IndexError"))
  end.

Lemma read_history_frame ip since a d o d' :
  read_history ip since a d = (o, d') -> same_tables d d'.
Proof.
  unfold read_history. destruct (Alert.fingerprint a).
  - by intros [? _]%get_alert_history_spec.
  - unfold raise. intros; by simplify_eq.
Qed.

Lemma guarded_history_eq ip since a (d : db W) :
  guarded_history ip since a d =
    match begin_nested (read_history ip since a) d with
    | (Ret h, d') => (Ret (Some h), d')
    | (Raise SQLAlchemyError, d') => (Ret None, d')
    | (Raise e, d') => (Raise e, d')
    end.
Proof.
  unfold guarded_history. fold (read_history ip since a).
  unfold try_except, mbind, M_bind, mret, M_ret.
  destruct (begin_nested (read_history ip since a) d) as [[h|e] d']; [done|]. by destruct e.
Qed.

(** The read answers from the tables it started on. *)
Lemma nested_history_spec ip since a d h d' :
  begin_nested (read_history ip since a) d = (Ret h, d') ->
  exists fp, Alert.fingerprint a = Some fp /\ is_aware since = true /\
    let rows := List.filter (history_predicate ip since (Some fp)) (alerts (working d)) in
    h = {| count := py_len rows; first_seen := min_of (map a_received_at rows);
           categories := group_count (latest_categories (working d) rows) |}.
Proof.
  unfold begin_nested.
  intros [([] & d1 & [[Hd1 Hw1] _]%execute_statement_spec & H2)|(e & _ & ?)]%bind_inv; [|done].
  unfold nested_body in H2.
  destruct (read_history ip since a d1) as [[h'|e] d2] eqn:Er.
  2: { by apply rollback_to_spec in H2 as (_ & _ & [e' ?] & _). }
  destruct (execute_statement d2) as [[[]|e] d3].
  2: { by apply rollback_to_spec in H2 as (_ & _ & [e' ?] & _). }
  simplify_eq. unfold read_history in Er. destruct (Alert.fingerprint a) as [fp|]; [|done].
  apply get_alert_history_spec in Er as [_ Hh]. rewrite <- Hw1.
  destruct (Hh _ eq_refl) as [? ->]. by exists fp.
Qed.

(** A server that accepts the next statement after one it refused. *)
Definition recovers : Prop :=
  forall w e w', statement w = (Raise e, w') -> (statement w').1 = Ret tt.

Lemma execute_recovers (d : db W) o d' :
  recovers -> aborted d = false -> execute_statement d = (o, d') ->
  match o with
  | Ret _ => aborted d' = false
  | Raise _ => (statement (outer d')).1 = Ret tt
  end.
Proof.
  intros Hrec Ha. unfold execute_statement. rewrite Ha.
  destruct (statement (outer d)) as [[[]|e] w] eqn:E; intros; simplify_eq; [done|].
  by apply (Hrec _ _ _ E).
Qed.

Lemma read_history_recovers ip since a (d : db W) o d' :
  recovers -> aborted d = false -> is_aware since = true -> is_Some (Alert.fingerprint a) ->
  read_history ip since a d = (o, d') ->
  match o with
  | Ret _ => aborted d' = false
  | Raise _ => (statement (outer d')).1 = Ret tt
  end.
Proof.
  intros Hrec Ha Hs [fp Hfp]. unfold read_history, get_alert_history. rewrite Hfp, Hs. simpl.
  intros [([] & d1 & H1%execute_recovers & H2)|(e & H1%execute_recovers & ->)]%bind_inv; try done.
  unfold mbind at 1, M_bind at 1, get at 1 in H2.
  apply bind_inv in H2 as [([] & d2 & H2%execute_recovers & H3)|(e & H2%execute_recovers & ->)];
    try done.
  unfold mbind, M_bind, get, mret, M_ret in H3. by simplify_eq.
Qed.

Lemma nested_history_recovers ip since a (d : db W) o d' :
  recovers -> aborted d = false -> (statement (outer d)).1 = Ret tt ->
  is_aware since = true -> is_Some (Alert.fingerprint a) ->
  begin_nested (read_history ip since a) d = (o, d') -> aborted d' = false.
Proof.
  intros Hrec Ha Hsp Hs Hfp. unfold begin_nested.
  intros [([] & d1 & H1 & H2)|(e & H1 & ->)]%bind_inv.
  2: { unfold execute_statement in H1. rewrite Ha in H1.
       destruct (statement (outer d)) as [[[]|e'] w]; simplify_eq/=. }
  apply (execute_recovers _ _ _ Hrec Ha) in H1. unfold nested_body in H2.
  destruct (read_history ip since a d1) as [[h|e] d2] eqn:Er;
    apply (read_history_recovers _ _ _ _ _ _ Hrec H1 Hs Hfp) in Er.
  - destruct (execute_statement d2) as [[[]|e] d3] eqn:Ee;
      apply (execute_recovers _ _ _ Hrec Er) in Ee; [by simplify_eq|].
    apply rollback_to_spec in H2 as (_ & _ & _ & Hab). by apply Hab.
  - apply rollback_to_spec in H2 as (_ & _ & _ & Hab). by apply Hab.
Qed.

Lemma sub_hours_aware t h t' : sub_hours t h = Ret t' -> is_aware t' = is_aware t.
Proof. unfold sub_hours. case_match; intros; by simplify_eq. Qed.

(** How a call of the tool runs: an early answer or failure that touches nothing, or the
    guarded read. *)
Lemma history_run_cases arguments ctx (d : db W) :
  (exists o, run arguments ctx d = (o, d) /\ o <> Raise SQLAlchemyError /\
     forall r, o = Ret r -> dget (u "count") r = None) \/
  (exists s ip n since,
     dget (u "ip") arguments = Some (JStr s) /\ canonical_ip s = Some ip /\
     dget (u "window_hours") arguments = Some (JInt n) /\ 1 <= n /\ ctx_session ctx = true /\
     let window := Z.min n (_max_window_hours self) in
     sub_hours (ctx_now ctx) window = Ret since /\
     run arguments ctx d =
       match begin_nested (read_history ip since (alert ctx)) d with
       | (Ret h, d') => (Ret (history_result ip window h), d')
       | (Raise SQLAlchemyError, d') => (Ret (unavailable (u "database_error")), d')
       | (Raise e, d') => (Raise e, d')
       end).
Proof.
  unfold run.
  destruct (dget (u "ip") arguments) as [[| | | |s| | |]|]; try (left; eexists; naive_solver).
  destruct (canonical_ip s) as [ip|] eqn:Hip; [|left; eexists; naive_solver].
  destruct (dget (u "window_hours") arguments) as [[| |n| | | | |]|]; try (left; eexists; naive_solver).
  destruct (Z.ltb_spec n 1); [left; eexists; naive_solver|].
  destruct (ctx_session ctx) eqn:Hc; simpl; [|left; eexists; naive_solver].
  unfold mbind at 1, M_bind at 1, lift.
  destruct (sub_hours (ctx_now ctx) (n `min` _max_window_hours self)) as [since|e] eqn:Hs.
  - right. exists s, ip, n, since. split_and!; [done..|].
    unfold mbind, M_bind. rewrite guarded_history_eq.
    destruct (begin_nested _ d) as [[h|e] d']; [done|]. by destruct e.
  - left. unfold sub_hours in Hs. eexists. split; [done|]. case_match; naive_solver.
Qed.

(** The history read never writes: whatever happens the tables are as before, and a
    database error is an answer, not an exception.  A server that accepts the savepoint,
    and a statement after each it refuses, is left with a usable transaction, so the
    verdict can still be persisted. *)
Theorem history_tool_isolated arguments ctx d o d' :
  run arguments ctx d = (o, d') ->
  same_tables d d' /\ o <> Raise SQLAlchemyError /\
  (recovers -> aborted d = false -> (statement (outer d)).1 = Ret tt ->
   is_aware (ctx_now ctx) = true -> is_Some (Alert.fingerprint (alert ctx)) ->
   aborted d' = false).
Proof.
  destruct (history_run_cases arguments ctx d)
    as [(o' & -> & He & _)|(s & ip & n & since & _ & _ & _ & _ & _ & Hs & ->)].
  { intros; simplify_eq. by split_and!. }
  destruct (begin_nested _ d) as [o1 d1] eqn:E.
  assert (Hf : same_tables d d1) by (by eapply begin_nested_frame, E; apply read_history_frame).
  intros Hr. assert (d' = d1 /\ o <> Raise SQLAlchemyError) as [-> ?]
    by (destruct o1 as [h|[]]; by simplify_eq).
  split_and!; [done..|]. intros Hrec Ha Hsp Hn Hfp.
  eapply nested_history_recovers, E; try done. by rewrite (sub_hours_aware _ _ _ Hs).
Qed.

(** An answer counts the other sessions of the canonical address inside the clamped
    window: never the alert itself, the earliest of them as [first_seen], and each alert
    once, under the category of its latest verdict, however often it was retriaged. *)
Theorem history_counts_others_once arguments ctx d r d' :
  run arguments ctx d = (Ret r, d') -> is_Some (dget (u "count") r) ->
  exists s ip n since fp h,
    dget (u "ip") arguments = Some (JStr s) /\ canonical_ip s = Some ip /\
    dget (u "window_hours") arguments = Some (JInt n) /\
    let window := Z.min n (_max_window_hours self) in
    sub_hours (ctx_now ctx) window = Ret since /\
    Alert.fingerprint (alert ctx) = Some fp /\ r = history_result ip window h /\
    let ts := working d in
    let rows := List.filter (history_predicate ip since (Some fp)) (alerts ts) in
    (forall row, row ∈ rows -> a_fingerprint row <> fp /\ instant since <= a_received_at row /\
       raw_text (u "src_ip") (a_raw row) = Some ip) /\
    count h = py_len rows /\
    match first_seen h with
    | Some t => t ∈ map a_received_at rows /\ forall x, x ∈ map a_received_at rows -> t <= x
    | None => rows = []
    end /\
    (forall k, default 0 (dget k (categories h)) =
       py_len (List.filter (fun row => bool_decide (latest_category ts row = Some k)) rows)) /\
    (forall aid v, latest_verdict ts aid = Some v -> v ∈ verdicts ts /\ v_alert_id v = aid /\
       forall v', v' ∈ verdicts ts -> v_alert_id v' = aid -> newer v' v = false).
Proof.
  destruct (history_run_cases arguments ctx d)
    as [(o' & -> & _ & Hc)|(s & ip & n & since & Hip & Hcan & Hn & _ & _ & Hs & ->)].
  { intros [= -> ->] [c Hcount]. by rewrite (Hc r) in Hcount. }
  destruct (begin_nested _ d) as [[h|e] d1] eqn:E.
  2: { destruct e; intros Hr [x Hcount]; by simplify_eq. }
  intros [= <- <-] _. apply nested_history_spec in E as (fp & Hfp & _ & ->).
  exists s, ip, n, since, fp. eexists. cbv zeta. cbn [count first_seen categories].
  split_and!; [done..| |done| | |].
  - intros row Hrow%list_elem_of_In. apply filter_In in Hrow as [_ Hp].
    unfold history_predicate in Hp. py_reflect. done.
  - pose proof (min_of_spec (map a_received_at
      (List.filter (history_predicate ip since (Some fp)) (alerts (working d))))) as Hmin.
    destruct (min_of _); [done|]. by apply map_eq_nil in Hmin.
  - intros k. cbn [categories]. rewrite group_count_spec. apply occurrences_omap.
  - intros aid v. apply latest_verdict_spec.
Qed.
End history.

(** ** Two earlier sessions, one retriaged *)

Module Toy.
Export Database.Toy.
#[export] Instance ips : IpAddress := Some.

Definition row (i t : Z) (sid : pystr) : AlertRow :=
  {| a_id := i; a_fingerprint := sid; a_source := u "cowrie"; a_event_time := Datetime t (Some 0);
     a_received_at := t; a_raw := dump (Alert.toy_alert sid []); a_status := triaged |}.
Definition verdict (i aid t : Z) (c : Verdict.VerdictCategory) : VerdictRow :=
  {| v_id := i; v_alert_id := aid;
     v_verdict := {| Verdict.severity := 2; Verdict.category := c; Verdict.confidence := 0;
                     Verdict.reasoning := []; Verdict.recommended_action := [];
                     Verdict.escalate := false |};
     v_model_primary := []; v_model_final := []; v_escalated_model := false;
     v_prompt_version := []; v_input_tokens := 0; v_output_tokens := 0; v_cost_usd := 0;
     v_latency_ms := 0; v_created_at := t |}.
Definition history : tables :=
  Tables [row 1 100 (u "old"); row 2 7200000000 (u "a"); row 3 7300000000 (u "b")]
         [verdict 1 2 5 Verdict.scanning; verdict 2 3 5 Verdict.scanning;
          verdict 3 2 6 Verdict.brute_force] [].
Definition tool : AlertHistoryTool := {| _max_window_hours := 1 |}.
Definition args : jobj := [(u "ip", JStr (u "203.0.113.7")); (u "window_hours", JInt 48)].
Definition ctx : ToolContext :=
  {| alert := session_alert; ctx_session := true; ctx_now := Datetime 7400000000 (Some 0) |}.
Definition iso (t : Z) : pystr := isoformat_utc t.
Definition ready : db world := Db ([], 7) history history false.

(** A server that refuses its second statement only. *)
#[local] Program Instance flaky : Postgres Z := {
  statement n := (if n =? 1 then Raise SQLAlchemyError else Ret tt, n + 1);
  commit_statement n := (Ret tt, true, n);
  server_now _ := 0;
  gen_uuid n := (n, n);
  real_of x := x
}.
Next Obligation. simpl. intros; by simplify_eq. Qed.
Next Obligation. simpl. intros n e. case_match; intros; by simplify_eq. Qed.
Next Obligation. done. Qed.

Lemma flaky_recovers : @recovers Z flaky.
Proof. intros n e w'. simpl. destruct (Z.eqb_spec n 1) as [->|]; intros; by simplify_eq. Qed.

Definition broken : db Z := Db 0 history history false.
Definition after_broken : db Z := (@run Z flaky _ _ _ iso tool args ctx broken).2.
Lemma broken_run :
  @run Z flaky _ _ _ iso tool args ctx broken = (Ret (unavailable (u "database_error")), after_broken).
Proof. vm_compute. reflexivity. Qed.

Definition answer : jobj := history_result iso (u "203.0.113.7") 1
  {| count := 2; first_seen := Some 7200000000;
     categories := [(u "brute_force", 1); (u "scanning", 1)] |}.
Lemma ready_run : run iso tool args ctx ready = (Ret answer, ready).
Proof. vm_compute. reflexivity. Qed.
End Toy.
Import Toy.

(** The read fails, the transaction survives. *)
Lemma history_tool_isolated_witness : same_tables broken after_broken /\ aborted after_broken = false.
Proof.
  destruct (@history_tool_isolated Z flaky _ _ _ iso tool args ctx broken _ after_broken broken_run)
    as (Hs & _ & Hr).
  split; [exact Hs|]. apply Hr; [exact flaky_recovers|reflexivity..|].
  eexists. reflexivity.
Defined.

(** The retriaged session counts once, as [brute_force]. *)
Lemma history_counts_others_once_witness :
  exists h, answer = history_result iso (u "203.0.113.7") 1 h /\ count h = 2.
Proof.
  destruct (history_counts_others_once iso tool args ctx ready answer ready ready_run
              ltac:(eexists; reflexivity))
    as (s & ip & n & since & fp & h & _ & _ & _ & _ & _ & _ & _ & Hc & _).
  exists {| count := 2; first_seen := Some 7200000000;
            categories := [(u "brute_force", 1); (u "scanning", 1)] |}.
  split; reflexivity.
Defined.
