(* ===== verification/Triage.v ===== *)
(** * Triage: the pipeline of [worker/triage.py]

    [run] over an arbitrary LLM client, tool registry and Redis.  Its closures share
    [messages], [records] and [totals]: they are the fields of the state [st], beside the
    outside world and a ghost [trace] (newest event first) that records the budget
    checks that passed, the LLM calls with their replies, the counter's increments and
    the tool runs. *)

From S2P Require Import Prelude Errors Json Datetime Schemas Llm Prompts Budget Policy ToolBase.
#[local] Open Scope Z_scope.
Import Verdict.

(** The [LLMClient] protocol at [response_model=Verdict]. *)
Class LLMClient (W : Type) : Type := {
  complete_structured : list ChatMessage -> pystr -> M exn W (LLMResult Verdict);
  complete_with_tools : list ChatMessage -> list ToolSpec -> pystr ->
    M exn W (LLMResult Verdict + ToolCallTurn)
}.

Definition RETRY_INSTRUCTION (error : pystr) : pystr :=
  u "Your previous reply failed validation: " ++ error ++ [10] ++
  u "Reply with ONLY a JSON object that matches the schema in the system message.".

Definition FINAL_VERDICT_INSTRUCTION : pystr :=
  u "The tool budget is exhausted. Using only the evidence already gathered, reply with ONLY a JSON object that matches the schema in the system message.".

(** ** Totals *)

Record Totals : Type := MkTotals {
  tot_input : Z;
  tot_output : Z;
  tot_cost : Z;
  tot_latency : Z
}.
Definition zero_totals : Totals := MkTotals 0 0 0 0.

Definition tot_plus (a b : Totals) : Totals :=
  MkTotals (tot_input a + tot_input b) (tot_output a + tot_output b)
           (tot_cost a + tot_cost b) (tot_latency a + tot_latency b).

Definition add_result (t : Totals) (r : LLMResult Verdict) : Totals :=
  tot_plus t (MkTotals (input_tokens (r_usage r)) (output_tokens (r_usage r))
                       (r_cost_usd r) (r_latency_ms r)).
Definition add_turn (t : Totals) (r : ToolCallTurn) : Totals :=
  tot_plus t (MkTotals (input_tokens (t_usage r)) (output_tokens (t_usage r))
                       (t_cost_usd r) (t_latency_ms r)).
Definition add_error (t : Totals) (e : structured_error) : Totals :=
  tot_plus t (MkTotals (se_input_tokens e) (se_output_tokens e)
                       (se_cost_usd e) (se_latency_ms e)).

(** ** The ghost trace *)

(** How an LLM call ended. *)
Inductive reply : Type :=
| RVerdict (r : LLMResult Verdict)
| RTools (t : ToolCallTurn)
| RInvalid (se : structured_error)
| RFailed (e : exn).

Record call : Type := {
  c_tools : bool;
  c_model : pystr;
  c_messages : list ChatMessage;
  c_reply : reply
}.

Inductive event : Type :=
| EvChecked
| EvCall (c : call)
| EvRecorded (tokens : Z)
| EvTool (n : pystr).

(** [nonlocal] and mutated variables of [run], and the world outside. *)
Record st (W : Type) : Type := St {
  world : W;
  messages : list ChatMessage;
  records : list ToolCallRecord;
  totals : Totals;
  trace : list event
}.
Arguments St {W}. Arguments world {W}. Arguments messages {W}. Arguments records {W}.
Arguments totals {W}. Arguments trace {W}.

Section pipeline.
Context {W : Type} `{LLMClient W} `{RedisCounters W} `{PyInt} `{FloatRepr}
  `{SummaryDump} `{PromptFiles} `{StrRepr}.
Variable VERDICT_JSON_SCHEMA : json.

Record TriagePipeline : Type := {
  _model : pystr;
  _prompt_version : pystr;
  _template : pystr;
  _tools : option (Registry W);
  _tool_loop_max_iter : option Z;
  _strong_model : option pystr;
  _escalate_severity_gte : option Z;
  _escalate_confidence_lt : option float;
  _redis : bool;
  _daily_token_budget : Z
}.

Definition __init__ (model prompt_version : pystr) (tools : option (Registry W))
    (tool_loop_max_iter : option Z) (strong_model : option pystr)
    (escalate_severity_gte : option Z) (escalate_confidence_lt : option float)
    (redis : bool) (daily_token_budget : Z) : outcome exn TriagePipeline :=
  if bool_decide (is_Some tools)
     && match tool_loop_max_iter with None => true | Some n => n <? 1 end
  then Raise (ValueError (u "tool_loop_max_iter must be >= 1 when tools are given"))
  else
    _ ← match strong_model with
        | None => Ret tt
        | Some strong =>
            match escalate_severity_gte, escalate_confidence_lt with
            | Some _, Some _ =>
                if bool_decide (strong = model)
                then Raise (ValueError (u "strong_model must differ from model"))
                else Ret tt
            | _, _ => Raise (ValueError (u "escalation thresholds are required with strong_model"))
            end
        end;
    template ← load_prompt prompt_version;
    Ret {| _model := model; _prompt_version := prompt_version; _template := template;
           _tools := tools; _tool_loop_max_iter := tool_loop_max_iter;
           _strong_model := strong_model;
           _escalate_severity_gte := escalate_severity_gte;
           _escalate_confidence_lt := escalate_confidence_lt;
           _redis := redis; _daily_token_budget := daily_token_budget |}.

(** *** State access *)

Definition on_world {A} (m : M exn W A) : M exn (st W) A := fun s =>
  let '(o, w) := m (world s) in
  (o, St w (messages s) (records s) (totals s) (trace s)).
Definition log (e : event) : M exn (st W) unit := fun s =>
  (Ret tt, St (world s) (messages s) (records s) (totals s) (e :: trace s)).
Definition append_message (m : ChatMessage) : M exn (st W) unit := fun s =>
  (Ret tt, St (world s) (messages s ++ [m]) (records s) (totals s) (trace s)).
Definition append_record (r : ToolCallRecord) : M exn (st W) unit := fun s =>
  (Ret tt, St (world s) (messages s) (records s ++ [r]) (totals s) (trace s)).
Definition set_totals (t : Totals) : M exn (st W) unit := fun s =>
  (Ret tt, St (world s) (messages s) (records s) t (trace s)).

(** The LLM calls, traced with their reply. *)
Definition call_structured (msgs : list ChatMessage) (model : pystr)
    : M exn (st W) (LLMResult Verdict) := fun s =>
  let '(o, w) := complete_structured msgs model (world s) in
  let r := match o with
           | Ret r => RVerdict r
           | Raise (StructuredOutputError _ se) => RInvalid se
           | Raise e => RFailed e
           end in
  (o, St w (messages s) (records s) (totals s)
         (EvCall {| c_tools := false; c_model := model; c_messages := msgs; c_reply := r |}
          :: trace s)).

Definition call_with_tools (msgs : list ChatMessage) (tools : list ToolSpec) (model : pystr)
    : M exn (st W) (LLMResult Verdict + ToolCallTurn) := fun s =>
  let '(o, w) := complete_with_tools msgs tools model (world s) in
  let r := match o with
           | Ret (inl r) => RVerdict r
           | Ret (inr t) => RTools t
           | Raise (StructuredOutputError _ se) => RInvalid se
           | Raise e => RFailed e
           end in
  (o, St w (messages s) (records s) (totals s)
         (EvCall {| c_tools := true; c_model := model; c_messages := msgs; c_reply := r |}
          :: trace s)).

(** *** The closures of [run] *)

Variable self : TriagePipeline.

Definition budget_message (tokens_today : Z) : pystr :=
  u "daily token budget exhausted: " ++ str_of_Z tokens_today ++ u "/"
  ++ str_of_Z (_daily_token_budget self) ++ u " tokens".

Definition _check_budget : M exn (st W) unit :=
  if negb (_redis self) || (_daily_token_budget self =? 0) then log EvChecked
  else
    exceeded ← on_world (check_and_would_exceed (_daily_token_budget self) 0);
    if (exceeded : bool) then
      tokens_today ← on_world (read_tokens_today (_redis self));
      raise (BudgetExceededError (budget_message tokens_today) tokens_today
               (_daily_token_budget self))
    else log EvChecked.

Definition _record_usage (usage : LLMUsage) : M exn (st W) unit :=
  if negb (_redis self) then mret tt
  else
    let tokens := input_tokens usage + output_tokens usage in
    _ ← on_world (record_tokens tokens);
    log (EvRecorded tokens).

Definition _outcome (r : LLMResult Verdict) (model : pystr) (rt : bool)
    : M exn (st W) TriageOutcome := fun s =>
  let merged := add_result (totals s) r in
  (Ret {| o_verdict := parsed r; o_model := model; prompt_version := _prompt_version self;
          o_input_tokens := tot_input merged; o_output_tokens := tot_output merged;
          o_cost_usd := tot_cost merged; o_latency_ms := tot_latency merged;
          retried := rt; o_tool_calls := records s; model_primary := None;
          escalated_model := false |}, s).

Definition retry_tail (se : structured_error) : list ChatMessage :=
  [text_message assistant (se_raw_text se);
   text_message user (RETRY_INSTRUCTION (se_validation_error se))].

Definition _retry_once (msgs : list ChatMessage) (first_err : structured_error)
    (model : pystr) : M exn (st W) TriageOutcome :=
  s ← get;
  _ ← set_totals (add_error (totals s) first_err);
  _ ← _check_budget;
  r ← try_except (call_structured (msgs ++ retry_tail first_err) model)
        (fun e => match e with
                  | StructuredOutputError _ second_err =>
                      Some (raise (VerdictValidationError
                              (u "verdict failed validation twice") 2
                              (se_validation_error second_err)))
                  | _ => None
                  end);
  _ ← _record_usage (r_usage r);
  _outcome r model true.

Definition _final (msgs : list ChatMessage) (model : pystr) : M exn (st W) TriageOutcome :=
  _ ← _check_budget;
  r ← try_except (res ← call_structured msgs model; mret (inl res))
        (fun e => match e with
                  | StructuredOutputError _ first_err =>
                      Some (out ← _retry_once msgs first_err model; mret (inr out))
                  | _ => None
                  end);
  match r with
  | inr out => mret out
  | inl res => _ ← _record_usage (r_usage res); _outcome res model false
  end.

(** One tool call of a turn: run it, record it, answer it. *)
Definition one_call (reg : Registry W) (ctx : ToolContext) (seq : Z) (c : ToolCallRequest)
    : M exn (st W) Z :=
  execution ← on_world (execute reg (rq_name c) (rq_arguments c) ctx);
  _ ← log (EvTool (rq_name c));
  _ ← append_record {| seq := seq; tool_name := rq_name c; arguments := rq_arguments c;
                       result := ex_result execution;
                       tc_latency_ms := ex_latency_ms execution |};
  m ← lift (build_tool_result_message (rq_id c) (ex_result execution));
  _ ← append_message m;
  mret (seq + 1).

Definition turn_calls (reg : Registry W) (ctx : ToolContext) (cs : list ToolCallRequest)
    (seq : Z) : M exn (st W) Z := foldM (one_call reg ctx) cs seq.

(** [for _turn in range(n)], then the forced final call. *)
Fixpoint tool_loop (reg : Registry W) (ctx : ToolContext) (n : nat) (seq : Z)
    : M exn (st W) TriageOutcome :=
  match n with
  | O =>
      _ ← append_message (text_message user FINAL_VERDICT_INSTRUCTION);
      s ← get;
      _final (messages s) (_model self)
  | S n' =>
      _ ← _check_budget;
      s ← get;
      rep ← try_except
        (x ← call_with_tools (messages s) (specs reg) (_model self); mret (inl x))
        (fun e => match e with
                  | StructuredOutputError _ first_err =>
                      Some (out ← _retry_once (messages s) first_err (_model self);
                            mret (inr out))
                  | _ => None
                  end);
      match rep with
      | inr out => mret out
      | inl (inl res) =>
          _ ← _record_usage (r_usage res); _outcome res (_model self) false
      | inl (inr turn) =>
          _ ← _record_usage (t_usage turn);
          s' ← get;
          _ ← set_totals (add_turn (totals s') turn);
          m ← lift (tool_calls_message (calls turn));
          _ ← append_message m;
          seq' ← turn_calls reg ctx (calls turn) seq;
          tool_loop reg ctx n' seq'
      end
  end.

Definition _cheap_pass (ctx : ToolContext) : M exn (st W) TriageOutcome :=
  match _tools self with
  | Some reg =>
      if bool_decide (specs reg = []) then s ← get; _final (messages s) (_model self)
      else match _tool_loop_max_iter self with
           | Some n => tool_loop reg ctx (Z.to_nat n) 0
           | None => raise AssertionError
           end
  | None => s ← get; _final (messages s) (_model self)
  end.

(** The strong pass over the cheap conversation. *)
Definition _escalate (strong : pystr) (cheap : TriageOutcome) : M exn (st W) TriageOutcome :=
  _ ← set_totals (MkTotals (o_input_tokens cheap) (o_output_tokens cheap)
                           (o_cost_usd cheap) (o_latency_ms cheap));
  s ← get;
  out ← _final (messages s) strong;
  mret {| o_verdict := o_verdict out; o_model := strong;
          prompt_version := prompt_version out;
          o_input_tokens := o_input_tokens out; o_output_tokens := o_output_tokens out;
          o_cost_usd := o_cost_usd out; o_latency_ms := o_latency_ms out;
          retried := retried cheap || retried out; o_tool_calls := o_tool_calls cheap;
          model_primary := Some (_model self); escalated_model := true |}.

Definition _route (cheap : TriageOutcome) : M exn (st W) TriageOutcome :=
  match _strong_model self with
  | None => mret cheap
  | Some strong =>
      match _escalate_severity_gte self, _escalate_confidence_lt self with
      | Some sev, Some conf =>
          if Routing.d_escalate (Routing.should_escalate (o_verdict cheap) sev conf)
          then _escalate strong cheap
          else mret cheap
      | _, _ => raise AssertionError
      end
  end.

(** [now or datetime.now(UTC)]. *)
Definition clock_or (now : option datetime) : M exn (st W) datetime :=
  match now with
  | Some t => mret t
  | None => on_world (fun w => let '(t, w') := utc_now w in (Ret (Datetime t (Some 0)), w'))
  end.

Definition set_messages (ms : list ChatMessage) : M exn (st W) unit := fun s =>
  (Ret tt, St (world s) ms (records s) (totals s) (trace s)).

Definition run_body (a : Alert.SessionAlert) (session : bool) (now : option datetime)
    : M exn (st W) TriageOutcome :=
  t ← clock_or now;
  let ctx := {| alert := a; ctx_session := session; ctx_now := t |} in
  ms ← lift (build_messages (_template self) (Summarize.summarize_session a)
               VERDICT_JSON_SCHEMA);
  _ ← set_messages ms;
  cheap ← _cheap_pass ctx;
  _route cheap.

Definition run_traced (a : Alert.SessionAlert) (session : bool) (now : option datetime)
    (w : W) : outcome exn TriageOutcome * st W :=
  run_body a session now (St w [] [] zero_totals []).

Definition run (a : Alert.SessionAlert) (session : bool) (now : option datetime)
    : M exn W TriageOutcome := fun w =>
  let '(o, s) := run_traced a session now w in (o, world s).
End pipeline.
