(* ===== verification/TriageFacts.v ===== *)
(** * TriageFacts: the properties of the triage pipeline

    Every run of [worker/triage.py] is a segment of the ghost trace: the lemmas below
    give the segment of each closure (its calls, what they bill, what the counter
    records, which conversation they send), and the properties of [run] compose them. *)

From S2P Require Import Prelude Errors Json Datetime Schemas Llm Prompts Budget Policy ToolBase.
From S2P Require Import Triage.
#[local] Open Scope Z_scope.
Import Verdict.

(** ** Measures of a trace *)

Definition bill (r : reply) : Totals :=
  match r with
  | RVerdict v => add_result zero_totals v
  | RTools t => add_turn zero_totals t
  | RInvalid se => add_error zero_totals se
  | RFailed _ => zero_totals
  end.

(** The tokens of a call the code counts against the budget: a validated one. *)
Definition counted_tokens (r : reply) : Z :=
  match r with
  | RVerdict _ | RTools _ => tot_input (bill r) + tot_output (bill r)
  | _ => 0
  end.

Fixpoint ncalls (tr : list event) : nat :=
  match tr with
  | [] => 0
  | EvCall _ :: tr' => S (ncalls tr')
  | _ :: tr' => ncalls tr'
  end.

Fixpoint billed (tr : list event) : Totals :=
  match tr with
  | [] => zero_totals
  | EvCall c :: tr' => tot_plus (billed tr') (bill (c_reply c))
  | _ :: tr' => billed tr'
  end.

Fixpoint counted (tr : list event) : Z :=
  match tr with
  | [] => 0
  | EvCall c :: tr' => counted tr' + counted_tokens (c_reply c)
  | _ :: tr' => counted tr'
  end.

Fixpoint recorded (tr : list event) : Z :=
  match tr with
  | [] => 0
  | EvRecorded n :: tr' => recorded tr' + n
  | _ :: tr' => recorded tr'
  end.

(** Each call comes directly after a budget check that passed (newest event first). *)
Fixpoint gated (tr : list event) : bool :=
  match tr with
  | [] => true
  | EvCall _ :: tr' => match tr' with EvChecked :: _ => true | _ => false end && gated tr'
  | _ :: tr' => gated tr'
  end.

Fixpoint has_invalid (tr : list event) : bool :=
  match tr with
  | [] => false
  | EvCall c :: tr' => match c_reply c with RInvalid _ => true | _ => has_invalid tr' end
  | _ :: tr' => has_invalid tr'
  end.

(** The newest validated reply, as its verdict and the model that gave it. *)
Fixpoint last_verdict (tr : list event) : option (Verdict * pystr) :=
  match tr with
  | [] => None
  | EvCall c :: tr' =>
      match c_reply c with
      | RVerdict r => Some (parsed r, c_model c)
      | _ => last_verdict tr'
      end
  | _ :: tr' => last_verdict tr'
  end.

Definition totals_of (o : TriageOutcome) : Totals :=
  MkTotals (o_input_tokens o) (o_output_tokens o) (o_cost_usd o) (o_latency_ms o).

Lemma tot_eq a b :
  tot_input a = tot_input b -> tot_output a = tot_output b -> tot_cost a = tot_cost b ->
  tot_latency a = tot_latency b -> a = b.
Proof. destruct a, b; simpl; congruence. Qed.

Ltac tot_solve := apply tot_eq; simpl in *; lia.

Lemma ncalls_app a b : ncalls (a ++ b) = (ncalls a + ncalls b)%nat.
Proof. induction a as [|[] a IH]; simpl; congruence. Qed.
Lemma billed_app a b : billed (a ++ b) = tot_plus (billed b) (billed a).
Proof. induction a as [|[] a IH]; simpl; rewrite ?IH; try done; tot_solve. Qed.
Lemma counted_app a b : counted (a ++ b) = counted a + counted b.
Proof. induction a as [|[] a IH]; simpl; lia. Qed.
Lemma has_invalid_app a b : has_invalid (a ++ b) = has_invalid a || has_invalid b.
Proof. induction a as [|e a IH]; simpl; [done|]. destruct e; try done. by destruct (c_reply c). Qed.
Lemma last_verdict_app a b :
  last_verdict (a ++ b) = match last_verdict a with Some v => Some v | None => last_verdict b end.
Proof. induction a as [|e a IH]; simpl; [done|]. destruct e; try done. by destruct (c_reply c). Qed.
Lemma last_verdict_None tr : (forall c, EvCall c ∉ tr) -> last_verdict tr = None.
Proof.
  induction tr as [|e tr IH]; intros Hn; [done|].
  destruct e; simpl; try (apply IH; intros c Hc; apply (Hn c); by right).
  destruct (Hn c). left.
Qed.
Lemma recorded_app a b : recorded (a ++ b) = recorded a + recorded b.
Proof. induction a as [|[] a IH]; simpl; lia. Qed.
Lemma gated_app a b : gated a = true -> gated b = true -> gated (a ++ b) = true.
Proof.
  induction a as [|e a IH]; [done|]. destruct e; simpl; auto.
  destruct a as [|[] a]; simpl in *; auto; try done.
Qed.

(** ** Segments of the closures *)

Section facts.
Context {W : Type} {KL : LLMClient W} {KR : RedisCounters W} {KI : PyInt} {KF : FloatRepr}
  {KS : SummaryDump} {KP : PromptFiles} {KQ : StrRepr}.
Variable VERDICT_JSON_SCHEMA : json.
Variable self : @TriagePipeline W.
Implicit Types s : st W.

(** The conversation and the tool records are untouched. *)
Definition frame s s' : Prop := messages s' = messages s /\ records s' = records s.

Lemma on_world_frame {A} (m : M exn W A) s :
  let s' := (on_world m s).2 in
  frame s s' /\ totals s' = totals s /\ trace s' = trace s.
Proof. unfold on_world. by destruct (m (world s)). Qed.

Ltac run_world m s :=
  let Hf := fresh "Hf" in
  let s1 := fresh "s" in
  pose proof (on_world_frame m s) as Hf;
  destruct (on_world m s) as [[?a|?e] s1]; simpl in Hf.
Ltac frame_solve :=
  unfold frame in *; destruct_and?; simpl in *; split_and?; congruence.

(** Name the outcome and the final state of the run in the goal. *)
Ltac split_run o s' :=
  lazymatch goal with |- match ?m with _ => _ end => destruct m as [o s'] end.

Lemma check_budget_spec s :
  let '(o, s') := _check_budget self s in
  frame s s' /\ totals s' = totals s /\
  trace s' = match o with Ret _ => EvChecked :: trace s | Raise _ => trace s end.
Proof.
  unfold _check_budget. destruct (negb _ || _); [done|].
  unfold mbind, M_bind, raise, log.
  run_world (check_and_would_exceed (_daily_token_budget self) 0) s; [|frame_solve].
  destruct a; [|frame_solve].
  run_world (read_tokens_today (W:=W) (_redis self)) s0; frame_solve.
Qed.

Lemma record_usage_spec us s :
  let '(o, s') := _record_usage self us s in
  frame s s' /\ totals s' = totals s /\
  trace s' = match o with
             | Ret _ => if _redis self
                        then EvRecorded (input_tokens us + output_tokens us) :: trace s
                        else trace s
             | Raise _ => trace s
             end.
Proof.
  unfold _record_usage. destruct (_redis self); [|done]. simpl.
  unfold mbind, M_bind, log.
  run_world (record_tokens (input_tokens us + output_tokens us)) s; frame_solve.
Qed.

Definition as_invalid (e : exn) : option structured_error :=
  match e with StructuredOutputError _ se => Some se | _ => None end.

(** How a tool-less call's outcome shows in its reply. *)
Definition reply_of {A} (f : A -> reply) (o : outcome exn A) : reply :=
  match o with
  | Ret r => f r
  | Raise (StructuredOutputError _ se) => RInvalid se
  | Raise e => RFailed e
  end.

Lemma call_structured_spec msgs model s :
  let '(o, s') := call_structured msgs model s in
  frame s s' /\ totals s' = totals s /\
  trace s' = EvCall {| c_tools := false; c_model := model; c_messages := msgs;
                       c_reply := reply_of RVerdict o |} :: trace s.
Proof. unfold call_structured. by destruct (complete_structured msgs model (world s)). Qed.

Definition tools_reply (r : LLMResult Verdict + ToolCallTurn) : reply :=
  match r with inl v => RVerdict v | inr t => RTools t end.

Lemma call_with_tools_spec msgs sp model s :
  let '(o, s') := call_with_tools msgs sp model s in
  frame s s' /\ totals s' = totals s /\
  trace s' = EvCall {| c_tools := true; c_model := model; c_messages := msgs;
                       c_reply := reply_of tools_reply o |} :: trace s.
Proof.
  unfold call_with_tools. destruct (complete_with_tools msgs sp model (world s)) as [o w].
  by destruct o as [[|]|[]].
Qed.

(** A part of a run: the events it adds, and what its outcome accounts for; [base] and
    [inv] are the totals and the invalid reply it starts from. *)
Record seg (k : nat) (base : Totals) (inv : bool) s s' (o : outcome exn TriageOutcome)
    (new : list event) : Prop := Seg {
  seg_trace : trace s' = new ++ trace s;
  seg_gated : gated new = true;
  seg_calls : (ncalls new <= k)%nat;
  seg_out : match o with
            | Ret out =>
                totals_of out = tot_plus base (billed new) /\
                recorded new = (if _redis self then counted new else 0) /\
                retried out = inv || has_invalid new /\
                o_tool_calls out = records s' /\
                last_verdict new = Some (o_verdict out, o_model out) /\
                model_primary out = None /\ escalated_model out = false
            | Raise _ => True
            end
}.

Definition sent_as msgs model (new : list event) : Prop :=
  forall c, EvCall c ∈ new ->
    c_tools c = false /\ c_model c = model /\ c_messages c = msgs.

(** The successful end of a call: count it, then build the outcome. *)
Lemma finish_spec r model rt s :
  let '(o, s') := (_ ← _record_usage self (r_usage r); _outcome self r model rt) s in
  frame s s' /\
  exists new, trace s' = new ++ trace s /\ gated new = true /\ ncalls new = 0%nat /\
    billed new = zero_totals /\ counted new = 0 /\ has_invalid new = false /\
    (forall c, EvCall c ∉ new) /\
    match o with
    | Ret out =>
        totals_of out = tot_plus (totals s) (bill (RVerdict r)) /\
        recorded new = (if _redis self then counted_tokens (RVerdict r) else 0) /\
        retried out = rt /\ o_tool_calls out = records s' /\
        (o_verdict out = parsed r /\ o_model out = model) /\
        model_primary out = None /\ escalated_model out = false
    | Raise _ => True
    end.
Proof.
  unfold mbind, M_bind. pose proof (record_usage_spec (r_usage r) s) as Hr.
  destruct (_record_usage self (r_usage r) s) as [[[]|e] s1].
  - destruct Hr as (Hf & Ht & Htr). unfold _outcome. split; [done|].
    exists (if _redis self
            then [EvRecorded (input_tokens (r_usage r) + output_tokens (r_usage r))] else []).
    rewrite Htr. destruct (_redis self); simpl; split_and!;
      first [done | set_solver | by rewrite Ht; tot_solve | lia].
  - destruct Hr as (Hf & Ht & Htr). split; [done|]. exists []. split_and!; try done. set_solver.
Qed.

(** A validated reply, counted and returned, closes a segment of one call. *)
Lemma finish_seg r model s0 s c base inv :
  frame s0 s -> totals s = base -> trace s = EvCall c :: EvChecked :: trace s0 ->
  c_reply c = RVerdict r -> c_model c = model ->
  let '(o, s') := (_ ← _record_usage self (r_usage r); _outcome self r model inv) s in
  frame s0 s' /\
  exists new, seg 1 base inv s0 s' o (new ++ [EvCall c; EvChecked]) /\
    forall c', EvCall c' ∈ new ++ [EvCall c; EvChecked] -> c' = c.
Proof.
  intros Hf0 Ht Htr Hc Hmod. pose proof (finish_spec r model inv s) as Hfin.
  destruct ((_ ← _record_usage self (r_usage r); _outcome self r model inv) s) as [o s'].
  destruct Hfin as (Hf3 & new & Htr3 & Hg & Hn & Hb & Hcnt & Hi & Hno & Ho).
  split; [frame_solve|]. exists new. split.
  - split.
    + rewrite Htr3, Htr, <- app_assoc. done.
    + by apply gated_app.
    + rewrite ncalls_app, Hn. done.
    + destruct o as [out|]; [|done]. destruct Ho as (Hbill & Hrec & Hret & ? & (Hv & Hm) & ? & ?).
      rewrite billed_app, recorded_app, counted_app, has_invalid_app, last_verdict_app, Hb, Hi,
        Hcnt, (last_verdict_None new Hno).
      simpl. rewrite Hc. simpl in *. rewrite orb_false_r, Hv, Hm, Hmod.
      split_and!; try done; [rewrite Hbill, Ht; tot_solve|].
      rewrite Hrec. destruct (_redis self); lia.
  - intros c' [?%Hno|Hin]%elem_of_app; [done|].
    apply elem_of_cons in Hin as [[= ->]|Hin]; [done|]. by apply list_elem_of_singleton in Hin.
Qed.

(** A call that raised, or a check that did, ends the run. *)
Lemma raise_seg k base inv s s' e new :
  trace s' = new ++ trace s -> gated new = true -> (ncalls new <= k)%nat ->
  seg k base inv s s' (Raise e) new.
Proof. by split. Qed.

Lemma retry_once_spec msgs se model s :
  let '(o, s') := _retry_once self msgs se model s in
  frame s s' /\
  exists new, seg 1 (tot_plus (totals s) (bill (RInvalid se))) true s s' o new /\
    sent_as (msgs ++ retry_tail se) model new.
Proof.
  unfold _retry_once, try_except, raise, set_totals, get.
  unfold mbind, M_bind.
  set (s0 := St _ _ _ (add_error (totals s) se) _).
  assert (H0 : frame s s0 /\ totals s0 = tot_plus (totals s) (bill (RInvalid se)) /\
               trace s0 = trace s) by (split_and!; [done|tot_solve|done]).
  clearbody s0. destruct H0 as (Hf0 & Ht0 & Htr0).
  pose proof (check_budget_spec s0) as Hc.
  destruct (_check_budget self s0) as [[[]|e] s1]; destruct Hc as (Hf1 & Ht1 & Htr1).
  2: { split; [frame_solve|]. exists []. split; [|intros ? ?%not_elem_of_nil; done].
       apply raise_seg; [simpl; congruence|done|simpl; lia]. }
  pose proof (call_structured_spec (msgs ++ retry_tail se) model s1) as Hs.
  destruct (call_structured _ _ s1) as [[r|e] s2]; destruct Hs as (Hf2 & Ht2 & Htr2).
  - rewrite Htr1, Htr0 in Htr2.
    epose proof (finish_seg r model s s2 _ _ true _ _ Htr2 eq_refl eq_refl) as Hfin.
    unfold mbind, M_bind in Hfin. split_run o s3.
    destruct Hfin as (Hf3 & new & Hseg & Hcs). split; [done|].
    eexists. split; [exact Hseg|]. by intros c ->%Hcs.
  - assert (Hend : forall e', frame s s2 /\ exists new,
        seg 1 (tot_plus (totals s) (bill (RInvalid se))) true s s2 (Raise e') new /\
        sent_as (msgs ++ retry_tail se) model new).
    { intros e'. split; [frame_solve|]. eexists [EvCall _; EvChecked]. split.
      - apply raise_seg; [rewrite Htr2, Htr1, Htr0; done|done|done].
      - intros c Hin. apply elem_of_cons in Hin as [[= ->]|Hin]; [done|].
        by apply list_elem_of_singleton in Hin. }
    by destruct e; apply Hend.
  Unshelve. all: first [frame_solve|congruence].
Qed.

(** The one retry after an invalid reply extends its segment. *)
Lemma retry_seg s0 s s' c se o new :
  totals s = totals s0 -> trace s = EvCall c :: EvChecked :: trace s0 ->
  c_reply c = RInvalid se ->
  seg 1 (tot_plus (totals s) (bill (RInvalid se))) true s s' o new ->
  seg 2 (totals s0) false s0 s' o (new ++ [EvCall c; EvChecked]).
Proof.
  intros Ht Htr Hc [Htr' Hg Hn Ho]. split.
  - by rewrite Htr', Htr, <- app_assoc.
  - by apply gated_app.
  - rewrite ncalls_app. simpl. lia.
  - destruct o as [out|]; [|done]. destruct Ho as (Hb & Hr & Hret & ? & Hv & ? & ?).
    rewrite billed_app, recorded_app, counted_app, has_invalid_app, last_verdict_app, Hv. simpl. rewrite Hc. simpl in *.
    rewrite orb_true_r. split_and!; try done; [rewrite Hb, Ht; tot_solve|].
    rewrite Hr. destruct (_redis self); lia.
Qed.

Lemma final_spec msgs model s :
  let '(o, s') := _final self msgs model s in
  frame s s' /\
  exists new, seg 2 (totals s) false s s' o new /\
    forall c, EvCall c ∈ new ->
      c_tools c = false /\ c_model c = model /\
      (c_messages c = msgs \/
       exists se, c_messages c = msgs ++ retry_tail se /\
         EvCall {| c_tools := false; c_model := model; c_messages := msgs;
                   c_reply := RInvalid se |} ∈ new).
Proof.
  unfold _final, try_except, raise, mbind, M_bind, mret, M_ret.
  pose proof (check_budget_spec s) as Hc.
  destruct (_check_budget self s) as [[[]|e] s1]; destruct Hc as (Hf1 & Ht1 & Htr1).
  2: { split; [done|]. exists []. split; [by apply raise_seg; [done|done|simpl; lia]|].
       by intros c ?%not_elem_of_nil. }
  pose proof (call_structured_spec msgs model s1) as Hs.
  destruct (call_structured msgs model s1) as [[r|e] s2]; destruct Hs as (Hf2 & Ht2 & Htr2);
    rewrite Htr1 in Htr2.
  - epose proof (finish_seg r model s s2 _ _ false _ _ Htr2 eq_refl eq_refl) as Hfin.
    unfold mbind, M_bind in Hfin. split_run o s3.
    destruct Hfin as (Hf3 & new & Hseg & Hcs). split; [done|].
    eexists. split; [|by intros c ->%Hcs; auto].
    destruct Hseg. split; try done. lia.
  - destruct (as_invalid e) as [se|] eqn:He.
    + destruct e; try done. injection He as ->. simpl in Htr2.
      pose proof (retry_once_spec msgs se model s2) as Hr.
      destruct (_retry_once self msgs se model s2) as [o s3].
      destruct Hr as (Hf3 & new & Hseg & Hsent).
      apply (retry_seg s s2 s3 _ se _ _ ltac:(congruence) Htr2 eq_refl) in Hseg.
      assert (Hmsg : forall c, EvCall c ∈ new ++ [EvCall {| c_tools := false; c_model := model;
                c_messages := msgs; c_reply := RInvalid se |}; EvChecked] ->
        c_tools c = false /\ c_model c = model /\
        (c_messages c = msgs \/
         exists se', c_messages c = msgs ++ retry_tail se' /\
           EvCall {| c_tools := false; c_model := model; c_messages := msgs;
                     c_reply := RInvalid se' |} ∈ new ++ [EvCall {| c_tools := false;
              c_model := model; c_messages := msgs; c_reply := RInvalid se |}; EvChecked])).
      { intros c [(?&?&?)%Hsent|Hin]%elem_of_app.
        - split_and!; try done. right. exists se. split; [done|]. set_solver.
        - apply elem_of_cons in Hin as [[= ->]|Hin]; [simpl; auto|].
          by apply list_elem_of_singleton in Hin. }
      destruct o; (split; [frame_solve|eauto]).
    + assert (Hend : frame s s2 /\ exists new,
        seg 2 (totals s) false s s2 (Raise e) new /\
        forall c, EvCall c ∈ new ->
          c_tools c = false /\ c_model c = model /\ c_messages c = msgs).
      { split; [frame_solve|]. eexists [EvCall _; EvChecked]. split.
        - apply raise_seg; [exact Htr2|done|simpl; lia].
        - intros c Hin. apply elem_of_cons in Hin as [[= ->]|Hin]; [done|].
          by apply list_elem_of_singleton in Hin. }
      destruct Hend as (Hf & new & Hseg & Hc).
      destruct e; try done; (split; [done|]); exists new; (split; [done|]);
        intros cl Hin; destruct (Hc cl Hin) as (? & ? & ?); auto.
  Unshelve. all: first [frame_solve|congruence].
Qed.

(** *** The tool loop *)

(** The records carry their own index, and no assistant turn of the conversation has
    content: it holds neither a verdict nor a failed reply. *)
Definition numbered (rs : list ToolCallRecord) : Prop :=
  forall i r, rs !! i = Some r -> seq r = Z.of_nat i.
Definition clean (ms : list ChatMessage) : Prop :=
  Forall (fun m => msg_role m = assistant -> content m = []) ms.
Definition tools_only (new : list event) : Prop :=
  Forall (fun e => exists n, e = EvTool n) new.

Lemma tools_only_quiet new :
  tools_only new ->
  gated new = true /\ ncalls new = 0%nat /\ billed new = zero_totals /\ counted new = 0 /\
  recorded new = 0 /\ has_invalid new = false /\ forall c, EvCall c ∉ new.
Proof.
  induction 1 as [|e new [n ->] _ IH]; [split_and!; set_solver|].
  simpl. destruct_and!. split_and!; try done. set_solver.
Qed.

Lemma numbered_nil : numbered [].
Proof. intros i r. by rewrite lookup_nil. Qed.

Lemma numbered_app rs r :
  numbered rs -> seq r = Z.of_nat (length rs) -> numbered (rs ++ [r]).
Proof.
  intros Hn Hr i r' [Hi|[Hi Hl]]%lookup_app_Some; [by apply Hn|].
  apply list_lookup_singleton_Some in Hl as [Hl ->]. rewrite Hr. lia.
Qed.

Lemma clean_app ms m :
  clean ms -> (msg_role m = assistant -> content m = []) -> clean (ms ++ [m]).
Proof. intros. apply Forall_app. split; [done|]. by apply Forall_singleton. Qed.

(** What tool runs leave: numbered records, a clean conversation, the same totals. *)
Definition tools_post s (n : Z) s' (o : outcome exn Z) : Prop :=
  totals s' = totals s /\ numbered (records s') /\ clean (messages s') /\
  (exists new, trace s' = new ++ trace s /\ tools_only new) /\
  match o with Ret n' => n' = Z.of_nat (length (records s')) | Raise _ => True end.

Lemma one_call_spec reg ctx n c s :
  numbered (records s) -> clean (messages s) -> n = Z.of_nat (length (records s)) ->
  let '(o, s') := one_call reg ctx n c s in tools_post s n s' o.
Proof.
  intros Hn Hc ->. unfold one_call, mbind, M_bind, log, append_record, lift, append_message.
  run_world (execute reg (rq_name c) (rq_arguments c) ctx) s;
    destruct Hf as ([Hm Hr] & Ht & Htr); unfold tools_post.
  2: { rewrite Hm, Hr, Htr, Ht. split_and!; try done. exists []. split; [done|constructor]. }
  unfold build_tool_result_message.
  destruct (dumps result_args (JObj (ex_result a))) as [text|e]; simpl.
  all: rewrite ?Hm, ?Hr, ?Htr, ?Ht; split_and!; try done; try by apply numbered_app.
  all: try (exists [EvTool (rq_name c)]; split; [done|]; constructor; [eauto|constructor]).
  - by apply clean_app.
  - rewrite length_app. simpl. lia.
Qed.

Lemma turn_calls_spec reg ctx cs n s :
  numbered (records s) -> clean (messages s) -> n = Z.of_nat (length (records s)) ->
  let '(o, s') := turn_calls reg ctx cs n s in tools_post s n s' o.
Proof.
  unfold turn_calls. revert n s. induction cs as [|c cs IH]; intros n s Hn Hc ->; simpl.
  { split_and!; try done. exists []. split; [done|constructor]. }
  unfold mbind, M_bind.
  pose proof (one_call_spec reg ctx _ c s Hn Hc eq_refl) as H1.
  destruct (one_call reg ctx _ c s) as [[n1|e] s1]; [|done].
  destruct H1 as (Ht1 & Hn1 & Hc1 & (new1 & Htr1 & Ho1) & ->).
  specialize (IH _ s1 Hn1 Hc1 eq_refl).
  destruct (foldM (one_call reg ctx) cs _ s1) as [o s2].
  destruct IH as (Ht2 & Hn2 & Hc2 & (new2 & Htr2 & Ho2) & Ho).
  split_and!; try done; [congruence|]. exists (new2 ++ new1). split; [|by apply Forall_app].
  by rewrite Htr2, Htr1, <- app_assoc.
Qed.

(** A counted prefix before a segment. *)
Lemma seg_extend k s s1 s' o pre new :
  trace s1 = pre ++ trace s -> gated pre = true -> (ncalls pre <= 1)%nat ->
  totals s1 = tot_plus (totals s) (billed pre) ->
  recorded pre = (if _redis self then counted pre else 0) -> has_invalid pre = false ->
  seg k (totals s1) false s1 s' o new ->
  seg (S k) (totals s) false s s' o (new ++ pre).
Proof.
  intros Htr Hg Hn Ht Hr Hi [Htr' Hg' Hn' Ho]. split.
  - by rewrite Htr', Htr, <- app_assoc.
  - by apply gated_app.
  - rewrite ncalls_app. lia.
  - destruct o as [out|]; [|done]. destruct Ho as (Hb & Hr' & Hret & ? & Hv & ? & ?).
    rewrite billed_app, recorded_app, counted_app, has_invalid_app, last_verdict_app, Hv, Hi,
      orb_false_r.
    split_and!; try done; [rewrite Hb, Ht; tot_solve|].
    rewrite Hr, Hr'. destruct (_redis self); lia.
Qed.

(** The cheap pass: bounded calls to the cheap model, a clean conversation. *)
Definition pass_post (k : nat) s s' (o : outcome exn TriageOutcome) : Prop :=
  numbered (records s') /\ clean (messages s') /\
  exists new, seg k (totals s) false s s' o new /\
    forall c, EvCall c ∈ new -> c_model c = _model self.

Lemma final_pass k s msgs :
  (2 <= k)%nat -> numbered (records s) -> clean (messages s) ->
  let '(o, s') := _final self msgs (_model self) s in pass_post k s s' o.
Proof.
  intros Hk Hn Hc. pose proof (final_spec msgs (_model self) s) as Hf.
  destruct (_final self msgs (_model self) s) as [o s'].
  destruct Hf as ((Hm & Hr) & new & Hseg & Hcs).
  split_and!; [by rewrite Hr|by rewrite Hm|]. exists new. split; [destruct Hseg; split; try done; lia|].
  intros c Hin. by destruct (Hcs c Hin) as (? & ? & ?).
Qed.

Lemma singleton_call (P : call -> Prop) c new :
  (forall c', EvCall c' ∈ new -> P c') -> P c ->
  forall c', EvCall c' ∈ new ++ [EvCall c; EvChecked] -> P c'.
Proof.
  intros Hnew Hc c' [Hin|Hin]%elem_of_app; [by apply Hnew|].
  apply elem_of_cons in Hin as [[= ->]|Hin]; [done|]. by apply list_elem_of_singleton in Hin.
Qed.

(** A turn that asked for tools: counted, its totals added, its calls run. *)
Definition turn_body reg ctx turn n : M exn (st W) Z :=
  _ ← _record_usage self (t_usage turn);
  s' ← get;
  _ ← set_totals (add_turn (totals s') turn);
  m ← lift (tool_calls_message (calls turn));
  _ ← append_message m;
  turn_calls reg ctx (calls turn) n.

Lemma turn_body_spec reg ctx turn n s s0 c :
  numbered (records s) -> clean (messages s) -> n = Z.of_nat (length (records s)) ->
  trace s = EvCall c :: EvChecked :: trace s0 -> c_reply c = RTools turn ->
  totals s = totals s0 ->
  let '(o, s') := turn_body reg ctx turn n s in
  numbered (records s') /\ clean (messages s') /\
  exists pre, trace s' = (pre ++ [EvCall c; EvChecked]) ++ trace s0 /\
    gated pre = true /\ ncalls pre = 0%nat /\ has_invalid pre = false /\
    (forall c', EvCall c' ∉ pre) /\
    match o with
    | Ret n' =>
        n' = Z.of_nat (length (records s')) /\
        totals s' = tot_plus (totals s0) (billed (pre ++ [EvCall c; EvChecked])) /\
        recorded pre = (if _redis self then counted (pre ++ [EvCall c; EvChecked]) else 0)
    | Raise _ => True
    end.
Proof.
  intros Hn Hc Hlen Htr Hrep Ht.
  unfold turn_body, mbind, M_bind, get, set_totals, lift, append_message.
  pose proof (record_usage_spec (t_usage turn) s) as Hr.
  destruct (_record_usage self (t_usage turn) s) as [[[]|e] s1];
    destruct Hr as ((Hm1 & Hr1) & Ht1 & Htr1).
  2: { rewrite Hm1, Hr1. split_and!; try done. exists []. rewrite Htr1, Htr.
       split_and!; try done. set_solver. }
  set (pre1 := if _redis self
               then [EvRecorded (input_tokens (t_usage turn) + output_tokens (t_usage turn))]
               else []).
  assert (Hpre1 : trace s1 = (pre1 ++ [EvCall c; EvChecked]) ++ trace s0 /\
    gated pre1 = true /\ ncalls pre1 = 0%nat /\ has_invalid pre1 = false /\
    (forall c', EvCall c' ∉ pre1) /\ billed pre1 = zero_totals /\ counted pre1 = 0 /\
    recorded pre1 = (if _redis self then counted_tokens (RTools turn) else 0)).
  { unfold pre1. rewrite Htr1, Htr. destruct (_redis self); simpl; split_and!; try done; set_solver. }
  clearbody pre1. destruct Hpre1 as (Hp & Hg & Hnc & Hi & Hno & Hb & Hcnt & Hrec).
  destruct (tool_calls_message (calls turn)) as [m|e] eqn:Hmsg; simpl.
  2: { rewrite Hm1, Hr1. split_and!; try done. by exists pre1. }
  match goal with |- context [turn_calls reg ctx (calls turn) n ?st] => set (s2 := st) end.
  assert (Hm : msg_role m = assistant -> content m = []).
  { unfold tool_calls_message, mbind, outcome_bind in Hmsg.
    destruct (tool_call_wires (calls turn)); by simplify_eq. }
  pose proof (turn_calls_spec reg ctx (calls turn) n s2) as Hcs.
  destruct (turn_calls reg ctx (calls turn) n s2) as [o s3].
  destruct Hcs as (Ht3 & Hn3 & Hc3 & (pre2 & Htr3 & Hq) & Ho).
  { simpl. by rewrite Hr1. } { simpl. rewrite Hm1. by apply clean_app. } { simpl. by rewrite Hr1. }
  apply tools_only_quiet in Hq as (Hg2 & Hn2 & Hb2 & Hcnt2 & Hrec2 & Hi2 & Hno2).
  split_and!; [done|done|]. exists (pre2 ++ pre1).
  rewrite !ncalls_app, !has_invalid_app, Hi, Hi2, Hn2, Hnc.
  split_and!; try done; [rewrite Htr3; simpl; rewrite Hp; by rewrite <- !app_assoc
                        |by apply gated_app|set_solver|].
  destruct o as [n'|]; [|done].
  rewrite !billed_app, !counted_app, !recorded_app, Hrec, Hrec2, Hb, Hb2, Hcnt, Hcnt2.
  split_and!; [done| |].
  - rewrite Ht3. simpl. rewrite Hrep, Ht1, Ht. tot_solve.
  - simpl. rewrite Hrep. simpl. destruct (_redis self); lia.
Qed.

Lemma tool_loop_unfold reg ctx n n' seq s :
  n = S n' ->
  tool_loop self reg ctx n seq s =
    (_ ← _check_budget self;
     s0 ← get;
     rep ← try_except
       (x ← call_with_tools (messages s0) (specs reg) (_model self); mret (inl x))
       (fun e => match e with
                 | StructuredOutputError _ first_err =>
                     Some (out ← _retry_once self (messages s0) first_err (_model self);
                           mret (inr out))
                 | _ => None
                 end);
     match rep with
     | inr out => mret out
     | inl (inl res) =>
         _ ← _record_usage self (r_usage res); _outcome self res (_model self) false
     | inl (inr turn) =>
         seq' ← turn_body reg ctx turn seq; tool_loop self reg ctx n' seq'
     end) s.
Proof.
  intros ->. cbn [tool_loop]. unfold turn_body, mbind, M_bind, get, set_totals, lift, append_message.
  repeat case_match; simplify_eq/=; try done; congruence.
Qed.

Lemma tool_loop_spec reg ctx n seq s :
  numbered (records s) -> clean (messages s) -> seq = Z.of_nat (length (records s)) ->
  let '(o, s') := tool_loop self reg ctx n seq s in pass_post (n + 2) s s' o.
Proof.
  revert seq s. induction n as [|n IH]; intros seq s Hn Hc Hseq.
  { cbn [tool_loop]. unfold mbind, M_bind, append_message, get.
    set (s1 := St _ (messages s ++ _) _ _ _).
    assert (Hc1 : clean (messages s1)) by (by apply clean_app).
    pose proof (final_pass 2 s1 (messages s1) ltac:(lia) Hn Hc1) as Hf.
    destruct (_final self (messages s1) (_model self) s1) as [o s2].
    destruct Hf as (? & ? & new & Hsg & ?). unfold pass_post. split_and!; try done.
    exists new. split; [|done]. by destruct Hsg. }
  rewrite (tool_loop_unfold reg ctx (S n) n seq s eq_refl).
  unfold mbind, M_bind, get, try_except, mret, M_ret.
  pose proof (check_budget_spec s) as Hck.
  destruct (_check_budget self s) as [[[]|e] s1]; destruct Hck as ((Hm1 & Hr1) & Ht1 & Htr1).
  2: { unfold pass_post. rewrite Hm1, Hr1. split_and!; try done. exists [].
       split; [by apply raise_seg; [done|done|simpl; lia]|]. by intros c ?%not_elem_of_nil. }
  pose proof (call_with_tools_spec (messages s1) (specs reg) (_model self) s1) as Hs.
  destruct (call_with_tools _ _ _ s1) as [[[r|turn]|e] s2];
    destruct Hs as ((Hm2 & Hr2) & Ht2 & Htr2); rewrite Htr1 in Htr2.
  - (* a verdict *)
    epose proof (finish_seg r (_model self) s s2 _ _ false _ _ Htr2 eq_refl eq_refl) as Hfin.
    unfold mbind, M_bind in Hfin. split_run o s3.
    destruct Hfin as ((Hm3 & Hr3) & new & Hsg & Hcs). unfold pass_post. rewrite Hm3, Hr3.
    split_and!; try done. eexists. split; [|by intros c ->%Hcs].
    destruct Hsg. split; try done. lia.
  - (* a turn of tool calls *)
    assert (Ht : totals s2 = totals s) by congruence.
    assert (Hn2 : numbered (records s2)) by (by rewrite Hr2, Hr1).
    assert (Hc2 : clean (messages s2)) by (by rewrite Hm2, Hm1).
    pose proof (turn_body_spec reg ctx turn seq s2 s _ Hn2 Hc2 ltac:(congruence) Htr2 eq_refl Ht)
      as Hb.
    destruct (turn_body reg ctx turn seq s2) as [[n'|e] s3];
      destruct Hb as (Hn3 & Hc3 & pre & Htr3 & Hg & Hnc & Hi & Hno & Ho).
    2: { unfold pass_post. split_and!; try done. eexists. split.
         - apply raise_seg; [exact Htr3|by apply gated_app|rewrite ncalls_app, Hnc; simpl; lia].
         - apply singleton_call; [intros c' Hc'; by destruct (Hno c')|done]. }
    destruct Ho as (Hlen & Ht3 & Hrec).
    specialize (IH n' s3 Hn3 Hc3 Hlen).
    destruct (tool_loop self reg ctx n n' s3) as [o s4].
    destruct IH as (Hn4 & Hc4 & new & Hsg & Hcs). unfold pass_post. split_and!; try done.
    eexists. split.
    + change (S n + 2)%nat with (S (n + 2)). eapply seg_extend;
        [exact Htr3|by apply gated_app|rewrite ncalls_app, Hnc; simpl; lia|exact Ht3
        |rewrite recorded_app, Hrec; apply Z.add_0_r
        |rewrite has_invalid_app, Hi; done|done].
    + intros c [Hin|Hin]%elem_of_app; [by apply Hcs|].
      revert c Hin. apply singleton_call; [intros c' Hc'; by destruct (Hno c')|done].
  - (* a failure, or an invalid reply *)
    destruct (as_invalid e) as [se|] eqn:He.
    + destruct e; try done. injection He as ->. simpl in Htr2.
      pose proof (retry_once_spec (messages s1) se (_model self) s2) as Hr.
      destruct (_retry_once self (messages s1) se (_model self) s2) as [o s3].
      destruct Hr as ((Hm3 & Hr3) & new & Hsg & Hsent).
      apply (retry_seg s s2 s3 _ se _ _ ltac:(congruence) Htr2 eq_refl) in Hsg.
      assert (Hpost : pass_post (S n + 2) s s3 o).
      { unfold pass_post. rewrite Hm3, Hr3, Hm2, Hr2, Hm1, Hr1. split_and!; try done.
        eexists. split; [destruct Hsg; split; [done|done|lia|done]|].
        apply singleton_call; [|done]. intros c' Hc'. by destruct (Hsent c' Hc') as (? & ? & ?). }
      by destruct o.
    + assert (Hpost : pass_post (S n + 2) s s2 (Raise e)).
      { unfold pass_post. rewrite Hm2, Hr2, Hm1, Hr1. split_and!; try done.
        eexists [EvCall _; EvChecked]. split.
        - apply raise_seg; [exact Htr2|done|simpl; lia].
        - apply (singleton_call _ _ []); [by intros c' ?%not_elem_of_nil|done]. }
      by destruct e.
  Unshelve. all: first [frame_solve|congruence].
Qed.

(** *** What the conversation and the records gather *)

Fixpoint tools_of (tr : list event) : list pystr :=
  match tr with
  | [] => []
  | EvTool n :: tr' => n :: tools_of tr'
  | _ :: tr' => tools_of tr'
  end.

Lemma tools_of_app a b : tools_of (a ++ b) = tools_of a ++ tools_of b.
Proof. induction a as [|[] a IH]; simpl; congruence. Qed.

(** What the pass may add to the conversation: the tool calls a reply asked for, the
    result of a recorded call, and the forced final instruction. *)
Definition gathered s (m : ChatMessage) : Prop :=
  (exists c t, EvCall c ∈ trace s /\ c_reply c = RTools t /\ tool_calls_message (calls t) = Ret m) \/
  (exists id r, r ∈ records s /\ build_tool_result_message id (result r) = Ret m) \/
  m = text_message user FINAL_VERDICT_INSTRUCTION.

(** The conversation only grows by such messages, and the records by one per tool run. *)
Definition grows s s' : Prop :=
  exists more rs new,
    messages s' = messages s ++ more /\ records s' = records s ++ rs /\ trace s' = new ++ trace s /\
    Forall (gathered s') more /\ map tool_name rs = rev (tools_of new).

#[local] Instance grows_pre : PreOrder grows.
Proof.
  split.
  - intros s. exists [], [], []. by rewrite !app_nil_r.
  - intros s1 s2 s3 (m1 & r1 & n1 & Hm1 & Hr1 & Ht1 & Hg1 & Hn1) (m2 & r2 & n2 & Hm2 & Hr2 & Ht2 & Hg2 & Hn2).
    exists (m1 ++ m2), (r1 ++ r2), (n2 ++ n1).
    split_and!; [by rewrite Hm2, Hm1, app_assoc|by rewrite Hr2, Hr1, app_assoc|by rewrite Ht2, Ht1, app_assoc| |].
    + apply Forall_app. split; [|done]. eapply Forall_impl; [exact Hg1|].
      intros m [(c & t & Hc & ?)|[(id & r & Hr & ?)|?]]; [left|right; left|by right; right].
      * exists c, t. split; [|done]. rewrite Ht2. apply elem_of_app. by right.
      * exists id, r. split; [|done]. rewrite Hr2. apply elem_of_app. by left.
    + by rewrite map_app, tools_of_app, rev_app_distr, Hn1, Hn2.
Qed.

Lemma frame_grows s s' new :
  frame s s' -> trace s' = new ++ trace s -> tools_of new = [] -> grows s s'.
Proof. intros [Hm Hr] Ht Hn. exists [], [], new. rewrite !app_nil_r, Hn. by split_and!. Qed.

Lemma bind_grows {A B} (m : M exn (st W) A) (k : A -> M exn (st W) B) s :
  grows s (m s).2 -> (forall a s1, m s = (Ret a, s1) -> grows s1 (k a s1).2) -> grows s ((x ← m; k x) s).2.
Proof.
  unfold mbind, M_bind. intros H1 H2. destruct (m s) as [[a|e] s1]; [|done].
  etrans; [exact H1|by apply H2].
Qed.

Lemma try_grows {A} (m : M exn (st W) A) h s :
  grows s (m s).2 -> (forall e k s1, h e = Some k -> grows s1 (k s1).2) -> grows s (try_except m h s).2.
Proof.
  unfold try_except. intros H1 H2. destruct (m s) as [[a|e] s1]; [done|].
  destruct (h e) as [k|] eqn:E; [|done]. etrans; [exact H1|by eapply H2].
Qed.

Lemma still_grows {A} (m : M exn (st W) A) s : messages (m s).2 = messages s -> records (m s).2 = records s ->
  trace (m s).2 = trace s -> grows s (m s).2.
Proof. intros ? ? ?. by apply (frame_grows _ _ []). Qed.

Lemma check_budget_grows s : grows s (_check_budget self s).2.
Proof.
  pose proof (check_budget_spec s) as H. destruct (_check_budget self s) as [[a|e] s1]; destruct H as (Hf & _ & Ht).
  - by apply (frame_grows _ _ [EvChecked]).
  - by apply (frame_grows _ _ []).
Qed.
Lemma record_usage_grows us s : grows s (_record_usage self us s).2.
Proof.
  pose proof (record_usage_spec us s) as H. destruct (_record_usage self us s) as [[a|e] s1]; destruct H as (Hf & _ & Ht).
  - destruct (_redis self); [by eapply (frame_grows _ _ [EvRecorded _])|by apply (frame_grows _ _ [])].
  - by apply (frame_grows _ _ []).
Qed.
Lemma call_structured_grows msgs model s : grows s (call_structured msgs model s).2.
Proof.
  pose proof (call_structured_spec msgs model s) as H. destruct (call_structured msgs model s) as [o s1].
  destruct H as (Hf & _ & Ht). by eapply (frame_grows _ _ [EvCall _]).
Qed.
Lemma call_with_tools_grows msgs sp model s : grows s (call_with_tools msgs sp model s).2.
Proof.
  pose proof (call_with_tools_spec msgs sp model s) as H. destruct (call_with_tools msgs sp model s) as [o s1].
  destruct H as (Hf & _ & Ht). by eapply (frame_grows _ _ [EvCall _]).
Qed.

Create HintDb grows.
#[local] Hint Resolve check_budget_grows record_usage_grows call_structured_grows call_with_tools_grows : grows.
(** One step of a closure that only calls, counts and returns. *)
Ltac grow :=
  repeat first
    [ progress (eauto with grows nocore)
    | apply bind_grows; [|intros ? ? _]
    | apply try_grows; [|intros ? ? ? ?]
    | apply still_grows; reflexivity ].

Lemma retry_once_grows msgs se model s : grows s (_retry_once self msgs se model s).2.
Proof. unfold _retry_once. grow. destruct e; simplify_eq; reflexivity. Qed.
#[local] Hint Resolve retry_once_grows : grows.

Lemma final_grows msgs model s : grows s (_final self msgs model s).2.
Proof.
  unfold _final. grow.
  - destruct e; simplify_eq. grow.
  - match goal with x : _ + _ |- _ => destruct x end; grow.
Qed.
#[local] Hint Resolve final_grows : grows.

Lemma one_call_grows reg ctx n c s : grows s (one_call reg ctx n c s).2.
Proof.
  unfold one_call, mbind, M_bind, log, append_record, lift, append_message.
  run_world (execute reg (rq_name c) (rq_arguments c) ctx) s; destruct Hf as ([Hm Hr] & _ & Htr).
  2: { by apply (frame_grows _ _ []). }
  set (r := {| seq := n; tool_name := rq_name c |}).
  destruct (build_tool_result_message (rq_id c) (ex_result a)) as [m|e] eqn:Em.
  - exists [m], [r], [EvTool (rq_name c)]. simpl. rewrite Hm, Hr, Htr. split_and!; [done..| |done].
    apply Forall_singleton. right. left. exists (rq_id c), r. split; [|done]. simpl. set_solver.
  - exists [], [r], [EvTool (rq_name c)]. simpl. rewrite Hm, Hr, Htr, app_nil_r. by split_and!.
Qed.

Lemma turn_calls_grows reg ctx cs n s : grows s (turn_calls reg ctx cs n s).2.
Proof.
  unfold turn_calls. revert n s. induction cs as [|c cs IH]; intros n s; cbn [foldM]; [done|].
  apply bind_grows; [apply one_call_grows|]. intros n1 s1 _. apply IH.
Qed.

Lemma turn_body_grows reg ctx turn n s c :
  EvCall c ∈ trace s -> c_reply c = RTools turn -> grows s (turn_body reg ctx turn n s).2.
Proof.
  intros Hin Hrep. unfold turn_body. apply bind_grows; [apply record_usage_grows|]. intros [] s1 E1.
  assert (Hin1 : EvCall c ∈ trace s1).
  { pose proof (record_usage_spec (t_usage turn) s) as H. rewrite E1 in H. destruct H as (_ & _ & ->).
    destruct (_redis self); [by right|done]. }
  apply bind_grows; [by apply still_grows|]. intros s1' s2 [= <- <-].
  apply bind_grows; [by apply still_grows|]. intros [] s3 [= <-].
  apply bind_grows; [by apply still_grows|]. intros m s4 [=]; subst s4.
  apply bind_grows.
  - exists [m], [], []. rewrite app_nil_r. split_and!; try done. apply Forall_singleton. left. by exists c, turn.
  - intros [] s5 _. apply turn_calls_grows.
Qed.

Lemma tool_loop_grows reg ctx n seq s : grows s (tool_loop self reg ctx n seq s).2.
Proof.
  revert seq s. induction n as [|n IH]; intros seq s.
  { cbn [tool_loop]. apply bind_grows; [|intros [] s1 _; grow].
    exists [text_message user FINAL_VERDICT_INSTRUCTION], [], []. rewrite app_nil_r. split_and!; try done.
    apply Forall_singleton. by right; right. }
  rewrite (tool_loop_unfold reg ctx (S n) n seq s eq_refl).
  apply bind_grows; [apply check_budget_grows|]. intros [] s1 _.
  apply bind_grows; [by apply still_grows|]. intros s1' s2 [= <- <-].
  apply bind_grows.
  { grow. destruct e; simplify_eq. grow. }
  intros [[res|turn]|out] s3 E; [grow| |grow].
  apply bind_grows; [|intros; apply IH].
  unfold try_except, mbind, M_bind, mret, M_ret in E.
  pose proof (call_with_tools_spec (messages s1) (specs reg) (_model self) s1) as Hs.
  destruct (call_with_tools _ _ _ s1) as [[x|e] s4]; destruct Hs as (_ & _ & Htr).
  - simplify_eq/=. eapply turn_body_grows; [rewrite Htr; by left|done].
  - destruct e; try done. by destruct (_retry_once _ _ _ _ _) as [[]].
Qed.

Lemma cheap_pass_grows ctx s : grows s (_cheap_pass self ctx s).2.
Proof.
  unfold _cheap_pass. destruct (_tools self) as [reg|]; [case_bool_decide|]; [grow| |grow].
  destruct (_tool_loop_max_iter self); [apply tool_loop_grows|by apply still_grows].
Qed.

(** *** The whole run *)

(** The tool turns a run may take. *)
Definition loop_bound : nat :=
  match _tools self with
  | Some reg =>
      if bool_decide (specs reg = []) then 0
      else match _tool_loop_max_iter self with Some n => Z.to_nat n | None => 0 end
  | None => 0
  end.

Lemma cheap_pass_spec ctx s :
  records s = [] -> clean (messages s) ->
  let '(o, s') := _cheap_pass self ctx s in pass_post (loop_bound + 2) s s' o.
Proof.
  intros Hr Hc. assert (Hn : numbered (records s)) by (by rewrite Hr).
  unfold _cheap_pass, loop_bound.
  destruct (_tools self) as [reg|]; [case_bool_decide|].
  - apply final_pass; [lia|done|done].
  - destruct (_tool_loop_max_iter self) as [n|].
    + apply tool_loop_spec; [done|done|by rewrite Hr].
    + unfold pass_post, raise. split_and!; try done. exists [].
      split; [by apply raise_seg; [done|done|simpl; lia]|]. by intros c ?%not_elem_of_nil.
  - apply final_pass; [lia|done|done].
Qed.

(** The calls of the strong pass: tool-less, over the cheap conversation as it stands,
    after the strong model's own invalid reply for the retry. *)
Definition strong_calls strong (ms : list ChatMessage) (new : list event) : Prop :=
  forall c, EvCall c ∈ new ->
    c_tools c = false /\ c_model c = strong /\
    (c_messages c = ms \/
     exists se, c_messages c = ms ++ retry_tail se /\
       EvCall {| c_tools := false; c_model := strong; c_messages := ms;
                 c_reply := RInvalid se |} ∈ new).

(** How the run was routed, by the verdict of the cheap pass. *)
Definition routed s' (out : TriageOutcome) : Prop :=
  exists cheap_tr strong_tr v,
    trace s' = strong_tr ++ cheap_tr /\
    last_verdict cheap_tr = Some (v, _model self) /\
    (forall c, EvCall c ∈ cheap_tr -> c_model c = _model self) /\
    tools_of strong_tr = [] /\ o_tool_calls out = records s' /\
    map tool_name (o_tool_calls out) = rev (tools_of cheap_tr) /\
    if escalated_model out then
      exists strong sev conf,
        _strong_model self = Some strong /\
        _escalate_severity_gte self = Some sev /\ _escalate_confidence_lt self = Some conf /\
        Routing.d_escalate (Routing.should_escalate v sev conf) = true /\
        model_primary out = Some (_model self) /\ o_model out = strong /\
        strong_calls strong (messages s') strong_tr
    else
      strong_tr = [] /\ model_primary out = None /\ o_model out = _model self /\
      o_verdict out = v /\
      forall strong sev conf, _strong_model self = Some strong ->
        _escalate_severity_gte self = Some sev -> _escalate_confidence_lt self = Some conf ->
        Routing.d_escalate (Routing.should_escalate v sev conf) = false.

Definition run_post (k : nat) s' (o : outcome exn TriageOutcome) : Prop :=
  numbered (records s') /\ clean (messages s') /\ gated (trace s') = true /\
  (ncalls (trace s') <= k)%nat /\
  match o with
  | Ret out =>
      totals_of out = billed (trace s') /\
      recorded (trace s') = (if _redis self then counted (trace s') else 0) /\
      retried out = has_invalid (trace s') /\
      o_tool_calls out = records s' /\
      last_verdict (trace s') = Some (o_verdict out, o_model out) /\
      routed s' out
  | Raise _ => True
  end.

Lemma last_verdict_model new model v m :
  (forall c, EvCall c ∈ new -> c_model c = model) ->
  last_verdict new = Some (v, m) -> m = model.
Proof.
  induction new as [|e new IH]; [done|]. intros Hcs. destruct e; simpl.
  2: destruct (c_reply c) eqn:E; intros; simplify_eq/=; try (by apply Hcs; left).
  all: intros; apply IH; try done; intros c' Hc'; apply Hcs; by right.
Qed.

Lemma route_spec k s0 s cheap new :
  trace s0 = [] -> totals s0 = zero_totals ->
  numbered (records s) -> clean (messages s) ->
  seg k (totals s0) false s0 s (Ret cheap) new ->
  (forall c, EvCall c ∈ new -> c_model c = _model self) ->
  map tool_name (records s) = rev (tools_of new) ->
  let '(o, s') := _route self cheap s in
  run_post (match _strong_model self with Some _ => k + 2 | None => k end) s' o.
Proof.
  intros Htr0 Ht0 Hn Hc [Htr Hg Hk (Hb & Hrec & Hret & Htc & Hv & Hp & He)] Hcs Htools.
  rewrite Htr0, app_nil_r in Htr.
  assert (Hb' : totals_of cheap = billed new) by (rewrite Hb, Ht0; tot_solve).
  pose proof (last_verdict_model new _ _ _ Hcs Hv) as Hmod. rewrite Hmod in Hv.
  assert (Hplain : forall k', (k <= k')%nat ->
    (forall strong sev conf, _strong_model self = Some strong ->
       _escalate_severity_gte self = Some sev -> _escalate_confidence_lt self = Some conf ->
       Routing.d_escalate (Routing.should_escalate (o_verdict cheap) sev conf) = false) ->
    run_post k' s (Ret cheap)).
  { intros k' Hk' Hr. unfold run_post. rewrite Htr, Hmod. split_and!; try done; [lia|].
    exists new, [], (o_verdict cheap). rewrite He, Hp, Htc. by split_and!. }
  unfold _route. destruct (_strong_model self) as [strong|] eqn:Es; [|by apply Hplain; [lia|]].
  destruct (_escalate_severity_gte self) as [sev|] eqn:E1, (_escalate_confidence_lt self)
    as [conf|] eqn:E2; [|unfold run_post, raise; rewrite Htr; split_and!; try done; lia..].
  destruct (Routing.d_escalate _) eqn:Ed.
  2: { apply Hplain; [lia|]. intros. by simplify_eq. }
  unfold _escalate, mbind, M_bind, set_totals, get, mret, M_ret.
  set (s1 := St _ _ _ _ _).
  assert (H1 : messages s1 = messages s /\ records s1 = records s /\ trace s1 = new /\
               totals s1 = totals_of cheap) by (by rewrite <- Htr).
  clearbody s1. destruct H1 as (Hm1 & Hr1 & Htr1 & Ht1).
  pose proof (final_spec (messages s1) strong s1) as Hf.
  pose proof (final_grows (messages s1) strong s1) as Hgr.
  destruct (_final self (messages s1) strong s1) as [o s2]. cbn [snd] in Hgr.
  destruct Hf as ((Hm2 & Hr2) & new2 & [Htr2 Hg2 Hk2 Ho] & Hcs2). rewrite Htr1 in Htr2.
  destruct o as [out|e].
  2: { unfold run_post. rewrite Hr2, Hr1, Hm2, Hm1, Htr2, ncalls_app.
       split_and!; try done; [by apply gated_app|lia]. }
  destruct Ho as (Hb2 & Hrec2 & Hret2 & Htc2 & Hv2 & Hp2 & He2).
  assert (Hmod2 : o_model out = strong).
  { eapply (last_verdict_model new2); [|exact Hv2]. intros c Hin.
    by destruct (Hcs2 c Hin) as (? & ? & ?). }
  unfold run_post. simpl.
  rewrite Hr2, Hr1, Hm2, Hm1, Htr2, ncalls_app, billed_app, recorded_app, counted_app,
    has_invalid_app, last_verdict_app, Hv2, Hmod2.
  split_and!; try done.
  - by apply gated_app.
  - lia.
  - change (totals_of out = tot_plus (billed new) (billed new2)). by rewrite Hb2, Ht1, Hb'.
  - rewrite Hrec, Hrec2. destruct (_redis self); lia.
  - rewrite Hret, Hret2. apply orb_comm.
  - exists new, new2, (o_verdict cheap). simpl. split_and!; try done.
    { destruct Hgr as (_ & rs & new2' & _ & Hrs & Htr' & _ & Hto). rewrite Htr1, Htr2 in Htr'. apply app_inv_tail in Htr' as <-.
      assert (rs = []) as -> by (apply (app_inv_head (records s1)); rewrite app_nil_r; congruence). simpl in Hto.
      apply (f_equal (@rev _)) in Hto. by rewrite rev_involutive in Hto. }
    { congruence. } { by rewrite Htc. }
    exists strong, sev, conf. split_and!; try done. rewrite Hm2. exact Hcs2.
Qed.

Lemma run_spec a session now w :
  let '(o, s') := run_traced VERDICT_JSON_SCHEMA self a session now w in
  run_post (match _strong_model self with
            | Some _ => loop_bound + 4 | None => loop_bound + 2 end) s' o.
Proof.
  unfold run_traced, run_body, mbind, M_bind.
  set (s0 := St w [] [] zero_totals []).
  assert (Hclock : forall o s1, clock_or now s0 = (o, s1) ->
    messages s1 = [] /\ records s1 = [] /\ totals s1 = zero_totals /\ trace s1 = []).
  { intros o s1. unfold clock_or, on_world. destruct now; [by intros [= <- <-]|].
    simpl. destruct (utc_now w). by intros [= <- <-]. }
  destruct (clock_or now s0) as [[t|e] s1] eqn:Ec;
    destruct (Hclock _ _ eq_refl) as (Hm1 & Hr1 & Ht1 & Htr1).
  2: { unfold run_post. rewrite Hm1, Hr1, Htr1.
       split_and!; first [done|apply numbered_nil|by constructor|simpl; lia]. }
  unfold lift. destruct (build_messages _ _ _) as [ms|e] eqn:Hms; simpl.
  2: { unfold run_post. rewrite Hm1, Hr1, Htr1.
       split_and!; first [done|apply numbered_nil|by constructor|simpl; lia]. }
  assert (Hclean : clean ms).
  { unfold build_messages in Hms. destruct (dumps _ _); simplify_eq/=. by repeat constructor. }
  set (ctx := {| alert := a |}). set (s2 := St _ ms _ _ _).
  pose proof (cheap_pass_spec ctx s2 Hr1 Hclean) as Hp. pose proof (cheap_pass_grows ctx s2) as Hgr.
  destruct (_cheap_pass self ctx s2) as [[cheap|e] s3]; cbn [snd] in Hgr;
    destruct Hp as (Hn3 & Hc3 & new & Hsg & Hcs).
  - assert (Htools : map tool_name (records s3) = rev (tools_of new)).
    { destruct Hgr as (_ & rs & new' & _ & Hrs & Htr' & _ & Hto). destruct Hsg as [Htr _ _ _].
      rewrite Htr in Htr'. apply app_inv_tail in Htr' as <-. simpl in Hrs. by rewrite Hrs, Hr1. }
    pose proof (route_spec (loop_bound + 2) s2 s3 cheap new Htr1 Ht1 Hn3 Hc3 Hsg Hcs Htools) as Hr.
    destruct (_route self cheap s3) as [o s4]. destruct (_strong_model self); [|done].
    by rewrite <- Nat.add_assoc in Hr.
  - destruct Hsg as [Htr Hg Hk _]. simpl in Htr. rewrite Htr1, app_nil_r in Htr.
    unfold run_post. rewrite Htr. split_and!; try done. destruct (_strong_model self); lia.
Qed.

(** ** Properties of [run] *)

(** C1: whatever the model answers, a run makes at most [tool_loop_max_iter] + 4 LLM
    calls (two fewer without a strong model; four or two without tools), and every one
    of them comes directly after a budget check that passed. *)
Theorem run_bounded_and_gated a session now w :
  let s' := (run_traced VERDICT_JSON_SCHEMA self a session now w).2 in
  gated (trace s') = true /\
  (ncalls (trace s') <= loop_bound + 4)%nat /\
  (_strong_model self = None -> (ncalls (trace s') <= loop_bound + 2)%nat).
Proof.
  pose proof (run_spec a session now w) as Hr.
  destruct (run_traced _ self a session now w) as [o s'].
  destruct Hr as (_ & _ & Hg & Hn & _). simpl.
  destruct (_strong_model self); split_and!; try done; lia.
Qed.

(** C7: a returned outcome bills the sum of every LLM call of the run, invalid replies
    included; its verdict and model are those of the last validated reply; [retried] is
    whether some reply was invalid; its tool trace is the run's, numbered from 0. *)
Theorem run_accounts_for_every_call a session now w out s' :
  run_traced VERDICT_JSON_SCHEMA self a session now w = (Ret out, s') ->
  totals_of out = billed (trace s') /\
  last_verdict (trace s') = Some (o_verdict out, o_model out) /\
  retried out = has_invalid (trace s') /\
  o_tool_calls out = records s' /\
  forall i r, o_tool_calls out !! i = Some r -> seq r = Z.of_nat i.
Proof.
  intros E. pose proof (run_spec a session now w) as Hr. rewrite E in Hr.
  destruct Hr as (Hnum & _ & _ & _ & Hb & _ & Hret & Htc & Hv & _).
  split_and!; try done. rewrite Htc. exact Hnum.
Qed.

(** The conversation of a run: the template's messages, then what the pass gathered. *)
Lemma run_conversation a session now w out s' :
  run_traced VERDICT_JSON_SCHEMA self a session now w = (Ret out, s') ->
  exists initial more,
    build_messages (_template self) (Summarize.summarize_session a) VERDICT_JSON_SCHEMA = Ret initial /\
    messages s' = initial ++ more /\ Forall (gathered s') more.
Proof.
  unfold run_traced, run_body. unfold mbind at 1, M_bind at 1.
  destruct (clock_or now _) as [[t|e] s1]; [|done]. unfold mbind at 1, M_bind at 1, lift.
  destruct (build_messages _ _ _) as [ms|e]; [|done]. unfold mbind at 1, M_bind at 1, set_messages.
  set (ctx := {| alert := a |}). set (s2 := St _ ms _ _ _). intros E. exists ms.
  pose proof (bind_grows (_cheap_pass self ctx) (_route self) s2 (cheap_pass_grows ctx s2)) as Hgr.
  rewrite E in Hgr. destruct Hgr as (more & rs & new & Hm & _ & _ & Hg & _); [|by exists more].
  intros cheap s3 _. unfold _route. destruct (_strong_model self) as [strong|]; [|reflexivity].
  destruct (_escalate_severity_gte self), (_escalate_confidence_lt self); try reflexivity.
  destruct (Routing.d_escalate _); [|reflexivity]. unfold _escalate. grow.
Qed.

(** C6: the cheap verdict alone decides the route, and nothing of it reaches the strong
    model.  When it escalates, the outcome names both models and its tool trace is the
    cheap pass's, whole and in order (the strong pass runs no tool); the strong model sees the
    conversation as the cheap pass left it: the template's two messages, then, and nothing else, the
    tool calls a reply asked for, the results of the recorded calls, and the forced final instruction.
    No assistant message in it has text, so it holds neither the cheap verdict nor an invalid cheap
    reply; a retry adds the strong model's own invalid reply. *)
Theorem run_routes_without_anchoring a session now w out s' :
  run_traced VERDICT_JSON_SCHEMA self a session now w = (Ret out, s') ->
  routed s' out /\
  Forall (fun m => msg_role m = assistant -> content m = []) (messages s') /\
  exists initial more,
    build_messages (_template self) (Summarize.summarize_session a) VERDICT_JSON_SCHEMA = Ret initial /\
    messages s' = initial ++ more /\ Forall (gathered s') more.
Proof.
  intros E. pose proof (run_spec a session now w) as Hr. rewrite E in Hr.
  destruct Hr as (_ & Hc & _ & _ & _ & _ & _ & _ & _ & Hroute).
  split_and!; [done|done|by eapply run_conversation].
Qed.

(** The tokens of the replies that failed validation. *)
Fixpoint invalid_tokens (tr : list event) : Z :=
  match tr with
  | [] => 0
  | EvCall c :: tr' =>
      invalid_tokens tr' + match c_reply c with
                           | RInvalid se => se_input_tokens se + se_output_tokens se
                           | _ => 0
                           end
  | _ :: tr' => invalid_tokens tr'
  end.

Lemma billed_tokens tr :
  tot_input (billed tr) + tot_output (billed tr) = counted tr + invalid_tokens tr.
Proof.
  induction tr as [|[] tr IH]; simpl; try done. destruct (c_reply c); simpl; lia.
Qed.

(** A successful run adds to the daily counter exactly the tokens it bills less
    those of its invalid replies (nothing without Redis). *)
Theorem run_counts_validated_tokens a session now w out s' :
  run_traced VERDICT_JSON_SCHEMA self a session now w = (Ret out, s') ->
  recorded (trace s') =
    if _redis self
    then o_input_tokens out + o_output_tokens out - invalid_tokens (trace s')
    else 0.
Proof.
  intros E. pose proof (run_spec a session now w) as Hr. rewrite E in Hr.
  destruct Hr as (_ & _ & _ & _ & Hb & Hrec & _). rewrite Hrec.
  destruct (_redis self); [|done].
  pose proof (billed_tokens (trace s')) as Ht. rewrite <- Hb in Ht. simpl in Ht. lia.
Qed.
End facts.

(** ** A concrete run *)

Module Toy.

(** A scripted model and a counter. *)
Record world : Type := World {
  script : list (outcome exn (LLMResult Verdict + ToolCallTurn));
  counter : Z
}.

Definition next : M exn world (LLMResult Verdict + ToolCallTurn) := fun w =>
  match script w with
  | [] => (Raise (LLMCallError []), w)
  | o :: os => (o, World os (counter w))
  end.

#[export] Instance llm : LLMClient world := {
  complete_structured _ _ := r ← next;
    match r with inl v => mret v | inr _ => raise (LLMCallError []) end;
  complete_with_tools _ _ _ := next
}.

#[export] Instance redis : RedisCounters world := {
  utc_now w := (0, w);
  counter_get _ := fun w => (Ret (Some [counter w]), w);
  incrby_expire _ n _ := fun w => (Ret (counter w + n), World (script w) (counter w + n))
}.
#[export] Instance int : PyInt := fun b => head b.
#[export] Instance files : PromptFiles := {
  prompt_path v := v;
  prompt_text _ := Some (SCHEMA_PLACEHOLDER ++ ALERT_DATA_BEGIN ++ ALERT_DATA_END)
}.
#[export] Instance dump : SummaryDump := fun s => Summarize.s_session_id s.
#[export] Instance repr : StrRepr := fun s => s.
#[export] Existing Instance toy_float_repr.

Definition usage (i o : Z) : LLMUsage := {| input_tokens := i; output_tokens := o |}.
Definition verdict_reply (v : Verdict) (m : pystr) (i o : Z) : LLMResult Verdict :=
  {| parsed := v; raw_text := []; r_model := m; r_usage := usage i o; r_cost_usd := 7;
     r_latency_ms := 3 |}.
Definition invalid_reply (i o : Z) : exn :=
  StructuredOutputError (u "Verdict failed validation")
    {| se_raw_text := u "{}"; se_validation_error := u "severity: missing";
       se_input_tokens := i; se_output_tokens := o; se_cost_usd := 5; se_latency_ms := 2 |}.

Definition pipeline (strong : option pystr) : @TriagePipeline world :=
  {| _model := u "cheap"; _prompt_version := u "triage-v4"; _template := SCHEMA_PLACEHOLDER;
     _tools := None; _tool_loop_max_iter := None; _strong_model := strong;
     _escalate_severity_gte := Some 4; _escalate_confidence_lt := Some 0;
     _redis := true; _daily_token_budget := 1000 |}.

Definition the_alert : Alert.SessionAlert :=
  Alert.toy_alert (u "s1") [Alert.toy_event Alert.CONNECT 0].

(** An invalid cheap reply, its retry, and the strong pass a severity of 4 triggers. *)
Definition escalated_script : world :=
  World [Raise (invalid_reply 10 5); Ret (inl (verdict_reply toy_verdict (u "cheap") 20 4));
         Ret (inl (verdict_reply toy_verdict (u "strong") 30 6))] 100.

Definition clock : option datetime := Some (Datetime 0 (Some 0)).
Definition routed_pipeline : @TriagePipeline world := pipeline (Some (u "strong")).
Definition escalated_state : st world :=
  (run_traced JNull routed_pipeline the_alert false clock escalated_script).2.

Definition escalated_outcome : TriageOutcome :=
  {| o_verdict := toy_verdict; o_model := u "strong"; prompt_version := u "triage-v4";
     o_input_tokens := 60; o_output_tokens := 15; o_cost_usd := 19; o_latency_ms := 8;
     retried := true; o_tool_calls := []; model_primary := Some (u "cheap");
     escalated_model := true |}.

Lemma escalated_run_eq :
  run_traced JNull routed_pipeline the_alert false clock escalated_script
  = (Ret escalated_outcome, escalated_state).
Proof. vm_compute. reflexivity. Qed.

Lemma run_accounts_for_every_call_witness :
  totals_of escalated_outcome = billed (trace escalated_state) /\
  ncalls (trace escalated_state) = 3%nat.
Proof.
  split; [|vm_compute; reflexivity].
  exact (proj1 (run_accounts_for_every_call JNull routed_pipeline the_alert false clock
                  escalated_script escalated_outcome escalated_state escalated_run_eq)).
Defined.

Lemma run_routes_without_anchoring_witness :
  routed routed_pipeline escalated_state escalated_outcome.
Proof.
  exact (proj1 (run_routes_without_anchoring JNull routed_pipeline the_alert false clock
                  escalated_script escalated_outcome escalated_state escalated_run_eq)).
Defined.

(** 75 tokens are billed and 60 reach the counter: the 15 of the invalid reply do not. *)
Lemma run_counts_validated_tokens_witness :
  recorded (trace escalated_state) = 60 + 15 - invalid_tokens (trace escalated_state) /\
  invalid_tokens (trace escalated_state) = 15 /\ counter (Triage.world escalated_state) = 160.
Proof.
  split; [|split; vm_compute; reflexivity].
  exact (run_counts_validated_tokens JNull routed_pipeline the_alert false clock
           escalated_script escalated_outcome escalated_state escalated_run_eq).
Defined.

End Toy.
