(* ===== verification/TriageFrame.v ===== *)
(** * TriageFrame: what a triage run can do to the outside world

    A run touches the world through the LLM client, the counter's commands and the
    registry only: any preorder these respect relates the worlds before and after a run
    of [worker/triage.py], whether it returns or raises, and it raises what these raise or
    one of five exceptions of its own.  [Job] uses it to show that a run inside a
    transaction leaves the tables alone and never reports a missing alert. *)

From S2P Require Import Prelude Errors Json Datetime Schemas Llm Prompts Budget Policy ToolBase Triage.
#[local] Open Scope Z_scope.

Create HintDb keeps.

Section frame.
Context {W : Type} {LC : LLMClient W} {RC : RedisCounters W} {PI : PyInt} {FR : FloatRepr}
  {SD : SummaryDump} {PF : PromptFiles} {SR : StrRepr}.
Variable R : W -> W -> Prop.
Context {R_pre : PreOrder R}.
(** What the collaborators may raise. *)
Variable Ex : exn -> Prop.
Variable schema : json.
Variable self : TriagePipeline (W := W).

(** The pipeline's own exceptions. *)
Definition own_exception (e : exn) : Prop :=
  match e with
  | ValueError _ | TypeError | AssertionError | BudgetExceededError _ _ _
  | VerdictValidationError _ _ _ => True
  | _ => False
  end.

(** The effect of a call at [w], by its result. *)
Definition good {A} (w : W) (r : outcome exn A * W) : Prop :=
  R w r.2 /\ forall e, r.1 = Raise e -> Ex e.

(** What the collaborators promise. *)
Class Respects : Prop := {
  respects_own e : own_exception e -> Ex e;
  respects_structured msgs m w : good w (complete_structured msgs m w);
  respects_with_tools msgs ts m w : good w (complete_with_tools msgs ts m w);
  respects_now w : R w (utc_now w).2;
  respects_get k w : good w (counter_get k w);
  respects_incr k n ttl w : good w (incrby_expire k n ttl w);
  respects_execute reg n args ctx w :
    _tools self = Some reg -> good w (execute reg n args ctx w)
}.
Context {RS : Respects}.

(** [keepsW] for an operation on the world, [keeps] for one on the run's state. *)
Definition keepsW {A} (m : M exn W A) : Prop := forall w, good w (m w).
Definition keeps {A} (m : M exn (st W) A) : Prop := forall s,
  R (world s) (world (m s).2) /\ forall e, (m s).1 = Raise e -> Ex e.
(** A call without effects. *)
Definition keepsO {A} (o : outcome exn A) : Prop := forall e, o = Raise e -> Ex e.

Lemma keepsW_bind {A B} (m : M exn W A) (f : A -> M exn W B) :
  keepsW m -> (forall a, keepsW (f a)) -> keepsW (a ← m; f a).
Proof.
  intros Hm Hf w. unfold mbind, M_bind. destruct (Hm w) as [Hr He].
  destruct (m w) as [[a|e] w']; simpl in *.
  - destruct (Hf a w') as [Hr' He']. split; [by etrans|done].
  - split; [done|]. intros e' [= <-]. by apply He.
Qed.

Lemma keepsW_try {A} (m : M exn W A) h :
  keepsW m -> (forall e k, h e = Some k -> keepsW k) -> keepsW (try_except m h).
Proof.
  intros Hm Hh w. unfold try_except. destruct (Hm w) as [Hr He].
  destruct (m w) as [[a|e] w']; simpl in *; [done|].
  destruct (h e) as [k|] eqn:E; [|by split].
  destruct (Hh _ _ E w') as [Hr' He']. split; [by etrans|done].
Qed.

Lemma keeps_bind {A B} (m : M exn (st W) A) (f : A -> M exn (st W) B) :
  keeps m -> (forall a, keeps (f a)) -> keeps (a ← m; f a).
Proof.
  intros Hm Hf s. unfold mbind, M_bind. destruct (Hm s) as [Hr He].
  destruct (m s) as [[a|e] s']; simpl in *.
  - destruct (Hf a s') as [Hr' He']. split; [by etrans|done].
  - split; [done|]. intros e' [= <-]. by apply He.
Qed.

Lemma keeps_try {A} (m : M exn (st W) A) h :
  keeps m -> (forall e k, h e = Some k -> keeps k) -> keeps (try_except m h).
Proof.
  intros Hm Hh s. unfold try_except. destruct (Hm s) as [Hr He].
  destruct (m s) as [[a|e] s']; simpl in *; [done|].
  destruct (h e) as [k|] eqn:E; [|by split].
  destruct (Hh _ _ E s') as [Hr' He']. split; [by etrans|done].
Qed.

Lemma keeps_on_world {A} (m : M exn W A) : keepsW m -> keeps (on_world m).
Proof.
  intros Hm s. unfold on_world. specialize (Hm (world s)). by destruct (m (world s)).
Qed.

Lemma keeps_foldM {A B} (f : B -> A -> M exn (st W) B) l b :
  (forall b a, keeps (f b a)) -> keeps (foldM f l b).
Proof.
  intros Hf. revert b. induction l as [|a l IH]; intros b; simpl; [by intros s|].
  by apply keeps_bind.
Qed.

Lemma keepsO_bind {A B} (o : outcome exn A) (f : A -> outcome exn B) :
  keepsO o -> (forall a, keepsO (f a)) -> keepsO (a ← o; f a).
Proof. intros Ho Hf e. destruct o as [a|e']; [apply Hf|]. intros [= <-]. by apply Ho. Qed.
Lemma keepsO_ret {A} (a : A) : keepsO (Ret a).
Proof. by intros e. Qed.
Lemma keepsO_dumps a j : keepsO (dumps a j).
Proof.
  unfold dumps. intros e. case_match; [done|]. intros [= <-]. by apply respects_own.
Qed.

Lemma keepsW_ret {A} (a : A) : keepsW (mret a).
Proof. by intros w. Qed.
Lemma keepsW_raise {A} e : own_exception e -> keepsW (A := A) (raise e).
Proof. intros He w. split; [done|]. intros e' [= <-]. by apply respects_own. Qed.
Lemma keeps_ret {A} (a : A) : keeps (mret a).
Proof. by intros s. Qed.
Lemma keeps_raise {A} e : own_exception e -> keeps (A := A) (raise e).
Proof. intros He s. split; [done|]. intros e' [= <-]. by apply respects_own. Qed.
Lemma keeps_get : keeps get.
Proof. by intros s. Qed.
Lemma keeps_lift {A} (o : outcome exn A) : keepsO o -> keeps (lift o).
Proof. by intros Ho s. Qed.
Lemma keeps_log e : keeps (log e).
Proof. by intros s. Qed.
Lemma keeps_append_message m : keeps (append_message m).
Proof. by intros s. Qed.
Lemma keeps_append_record r : keeps (append_record r).
Proof. by intros s. Qed.
Lemma keeps_set_totals t : keeps (set_totals t).
Proof. by intros s. Qed.
Lemma keeps_set_messages ms : keeps (set_messages ms).
Proof. by intros s. Qed.
Lemma keeps_outcome r m b : keeps (_outcome self r m b).
Proof. by intros s. Qed.

Lemma keeps_structured msgs m : keeps (call_structured msgs m).
Proof.
  intros s. unfold call_structured. pose proof (respects_structured msgs m (world s)).
  by destruct (complete_structured msgs m (world s)).
Qed.
Lemma keeps_with_tools msgs ts m : keeps (call_with_tools msgs ts m).
Proof.
  intros s. unfold call_with_tools. pose proof (respects_with_tools msgs ts m (world s)).
  by destruct (complete_with_tools msgs ts m (world s)).
Qed.

Hint Resolve keepsW_ret keeps_ret keeps_get keeps_log keepsO_ret keepsO_dumps
  keeps_append_message keeps_append_record keeps_set_totals keeps_set_messages keeps_outcome
  keeps_structured keeps_with_tools : keeps.
Hint Extern 1 (keeps (raise _)) => apply keeps_raise; exact I : keeps.
Hint Extern 1 (keepsW (raise _)) => apply keepsW_raise; exact I : keeps.

(** Peel the operations of a handler one by one, its cases included. *)
Ltac keeps :=
  repeat first
    [ match goal with |- forall _, _ => intro end
    | solve [auto with keeps]
    | simple apply keeps_bind | simple apply keeps_try
    | simple apply keepsW_bind | simple apply keepsW_try | simple apply keeps_on_world
    | simple apply keeps_lift | simple apply keepsO_bind
    | case_match; simplify_eq ].

Lemma keepsO_result_message i r : keepsO (build_tool_result_message i r).
Proof. unfold build_tool_result_message. keeps. Qed.
Lemma keepsO_wires cs : keepsO (tool_call_wires cs).
Proof. induction cs as [|c cs IH]; simpl; unfold tool_call_wire; keeps; done. Qed.
Lemma keepsO_calls_message cs : keepsO (tool_calls_message cs).
Proof. unfold tool_calls_message. keeps. apply keepsO_wires. Qed.
Lemma keepsO_build_messages t sm sc : keepsO (build_messages t sm sc).
Proof. unfold build_messages. keeps. Qed.
Hint Resolve keepsO_result_message keepsO_calls_message keepsO_build_messages : keeps.

Lemma keepsW_key : keepsW budget_key.
Proof. intros w. unfold budget_key. pose proof (respects_now w). by destruct (utc_now w). Qed.
Lemma keepsW_get k : keepsW (counter_get k).
Proof. intros w. apply respects_get. Qed.
Lemma keepsW_incr k n ttl : keepsW (incrby_expire k n ttl).
Proof. intros w. apply respects_incr. Qed.
Hint Resolve keepsW_key keepsW_get keepsW_incr : keeps.
Lemma keepsW_read b : keepsW (read_tokens_today b).
Proof. unfold read_tokens_today. keeps. Qed.
Hint Resolve keepsW_read : keeps.
Lemma keepsW_check budget est : keepsW (check_and_would_exceed budget est).
Proof. unfold check_and_would_exceed. keeps. Qed.
Lemma keepsW_record n : keepsW (record_tokens n).
Proof. unfold record_tokens. keeps. Qed.
Hint Resolve keepsW_check keepsW_record : keeps.

Lemma keeps_check_budget : keeps (_check_budget self).
Proof. unfold _check_budget. keeps. Qed.
Lemma keeps_record_usage us : keeps (_record_usage self us).
Proof. unfold _record_usage. keeps. Qed.
Hint Resolve keeps_check_budget keeps_record_usage : keeps.

Lemma keeps_retry_once msgs se m : keeps (_retry_once self msgs se m).
Proof. unfold _retry_once. keeps. Qed.
Hint Resolve keeps_retry_once : keeps.

Lemma keeps_final msgs m : keeps (_final self msgs m).
Proof. unfold _final. keeps. Qed.
Hint Resolve keeps_final : keeps.

Lemma keeps_one_call reg ctx seq c : _tools self = Some reg -> keeps (one_call reg ctx seq c).
Proof. intros Hr. unfold one_call. keeps. intros w. by apply respects_execute. Qed.

Lemma keeps_tool_loop reg ctx n seq : _tools self = Some reg -> keeps (tool_loop self reg ctx n seq).
Proof.
  intros Hr. revert seq. induction n as [|n IH]; intros seq; simpl; keeps.
  all: try (apply keeps_foldM; intros; by apply keeps_one_call). all: apply IH.
Qed.

Lemma keeps_cheap_pass ctx : keeps (_cheap_pass self ctx).
Proof. unfold _cheap_pass. keeps. by apply keeps_tool_loop. Qed.
Hint Resolve keeps_cheap_pass : keeps.

Lemma keeps_clock now : keeps (clock_or now).
Proof.
  unfold clock_or. keeps. intros w. pose proof (respects_now w). by destruct (utc_now w).
Qed.
Hint Resolve keeps_clock : keeps.

(** The frame of a run. *)
Lemma run_keeps a session now w : good w (run schema self a session now w).
Proof.
  unfold run, run_traced. enough (Hk : keeps (run_body schema self a session now)).
  { specialize (Hk (St w [] [] zero_totals [])).
    by destruct (run_body schema self a session now _). }
  unfold run_body, _route, _escalate. keeps.
Qed.
End frame.
