(* ===== verification/TriageRaises.v ===== *)
(** * TriageRaises: how a run without a budget can end

    What [worker/triage.py]'s [run] raises and returns when, as in the evaluation harness, no
    Redis is given: from a client that answers or raises one of the protocol's two exceptions,
    and a registry whose results are JSON, a run raises a [VerdictValidationError], an
    [LLMCallError] or a [FixtureMissingError], and no other; and its outcome is a valid
    verdict with a trace that is JSON.  The proof is a small Hoare logic for the run's monad:
    a postcondition of the value, one of the exception, and the records as the invariant. *)

From S2P Require Import Prelude Errors Json Datetime Schemas Llm Prompts Budget Policy ToolBase Triage TriageFrame.
#[local] Open Scope Z_scope.

Definition serializable_trace (calls : list ToolCallRecord) : Prop :=
  Forall (fun c => serializable (JObj (arguments c)) = true /\ serializable (JObj (result c)) = true) calls.

(** The exceptions of a run: those its docstring lists, less the budget's, and the one a strict
    replay adds. *)
Inductive run_raises : exn -> Prop :=
| raises_invalid m n last : run_raises (VerdictValidationError m n last)
| raises_llm m : run_raises (LLMCallError m)
| raises_fixture m : run_raises (FixtureMissingError m).
(** Those of a client's call. *)
Inductive call_raises : exn -> Prop :=
| raises_structured m se : call_raises (StructuredOutputError m se)
| raises_call m : call_raises (LLMCallError m).

Create HintDb ends.

Section ends.
Context {W : Type} {LC : LLMClient W} {RC : RedisCounters W} {PI : PyInt} {FR : FloatRepr}
  {SD : SummaryDump} {PF : PromptFiles} {SR : StrRepr}.
Variable schema : json.
Variable self : TriagePipeline (W := W).

(** The client: a valid verdict, a turn whose arguments are JSON, or one of the two exceptions. *)
Class TypedClient : Prop := {
  tc_structured msgs m w : match (complete_structured msgs m w).1 with
                           | Ret r => Verdict.wf (parsed r)
                           | Raise e => call_raises e
                           end;
  tc_with_tools msgs ts m w : match (complete_with_tools msgs ts m w).1 with
                              | Ret (inl r) => Verdict.wf (parsed r)
                              | Ret (inr turn) => Forall (fun c => serializable (JObj (rq_arguments c)) = true) (calls turn)
                              | Raise e => call_raises e
                              end
}.

(** A registry that answers JSON and whose task nobody cancels. *)
Definition json_registry (reg : Registry W) : Prop := forall n args ctx w,
  match (execute reg n args ctx w).1 with
  | Ret x => serializable (JObj (ex_result x)) = true
  | Raise e => e <> CancelledError
  end.

(** A pipeline the harness builds: no Redis, every threshold and bound its parts need. *)
Record unbudgeted : Prop := {
  ub_redis : _redis self = false;
  ub_tools reg : _tools self = Some reg -> json_registry reg /\ _tool_loop_max_iter self <> None;
  ub_strong m : _strong_model self = Some m ->
    _escalate_severity_gte self <> None /\ _escalate_confidence_lt self <> None;
  ub_schema : serializable schema = true
}.

(** What the constructor guarantees of it. *)
Lemma init_unbudgeted model prompt_version tools max_iter strong sev conf budget :
  (forall reg, tools = Some reg -> json_registry reg) -> serializable schema = true ->
  __init__ model prompt_version tools max_iter strong sev conf false budget = Ret self -> unbudgeted.
Proof.
  intros Hreg Hs. unfold __init__.
  destruct (bool_decide _ && _) eqn:Ht; [done|]. unfold mbind, outcome_bind.
  destruct (match strong with Some _ => _ | None => _ end) as [[]|] eqn:Hst; [|done].
  destruct (load_prompt _) as [t|]; [|done]. intros E. injection E as E. split; [by rewrite <- E| | |done]; rewrite <- E; cbn.
  - intros reg ->. split; [by apply Hreg|]. intros ->. by rewrite bool_decide_true in Ht.
  - intros m ->. by destruct sev, conf.
Qed.

(** ** The triples *)

Definition ends {A} (Ex : exn -> Prop) (Q : A -> Prop) (m : M exn (st W) A) : Prop := forall s,
  serializable_trace (records s) ->
  serializable_trace (records (m s).2) /\ match (m s).1 with Ret a => Q a | Raise e => Ex e end.

Lemma ends_bind {A B} Ex Q R (m : M exn (st W) A) (f : A -> M exn (st W) B) :
  ends Ex Q m -> (forall a, Q a -> ends Ex R (f a)) -> ends Ex R (a ← m; f a).
Proof.
  intros Hm Hf s Hs. unfold mbind, M_bind. destruct (Hm s Hs) as [H1 H2].
  destruct (m s) as [[a|e] s1]; [|by split]. by apply (Hf a H2).
Qed.
(** A handler that catches the structured error of a call. *)
Lemma ends_try {A} Ex Q (m : M exn (st W) A) h :
  ends call_raises Q m -> (forall m, Ex (LLMCallError m)) -> (forall m, h (LLMCallError m) = None) ->
  (forall m se, exists k, h (StructuredOutputError m se) = Some k /\ ends Ex Q k) -> ends Ex Q (try_except m h).
Proof.
  intros Hm Hx Hc Hh s Hs. unfold try_except. destruct (Hm s Hs) as [H1 H2].
  destruct (m s) as [[a|e] s1]; [by split|]. cbn [fst snd] in *. destruct H2 as [msg se|msg].
  - destruct (Hh msg se) as (k & -> & Hk). by apply Hk.
  - rewrite Hc. split; [done|apply Hx].
Qed.
Lemma ends_weaken {A} Ex Q (m : M exn (st W) A) : ends Ex Q m -> ends Ex (fun _ => True) m.
Proof. intros Hm s Hs. destruct (Hm s Hs) as [H1 H2]. split; [done|]. by destruct (m s).1. Qed.
Lemma ends_ret {A} Ex (Q : A -> Prop) a : Q a -> ends Ex Q (mret a).
Proof. by intros H s Hs. Qed.
Lemma ends_raise {A} (Ex : exn -> Prop) Q e : Ex e -> ends (A := A) Ex Q (raise e).
Proof. by intros H s Hs. Qed.
Lemma ends_get Ex : ends Ex (fun s => serializable_trace (records s)) get.
Proof. by intros s Hs. Qed.
Lemma ends_lift_ret {A} Ex (Q : A -> Prop) o : (exists a, o = Ret a /\ Q a) -> ends Ex Q (lift o).
Proof. by intros (a & -> & H) s Hs. Qed.
Lemma ends_log Ex e : ends Ex (fun _ => True) (log e).
Proof. by intros s Hs. Qed.
Lemma ends_append_message Ex m : ends Ex (fun _ => True) (append_message m).
Proof. by intros s Hs. Qed.
Lemma ends_set_messages Ex ms : ends Ex (fun _ => True) (set_messages ms).
Proof. by intros s Hs. Qed.
Lemma ends_set_totals Ex t : ends Ex (fun _ => True) (set_totals t).
Proof. by intros s Hs. Qed.
Lemma ends_append_record Ex r :
  serializable (JObj (arguments r)) = true -> serializable (JObj (result r)) = true ->
  ends Ex (fun _ => True) (append_record r).
Proof. intros Ha Hr s Hs. split; [|done]. apply Forall_app. split; [done|]. by apply Forall_singleton. Qed.
Hint Resolve ends_get ends_log ends_append_message ends_set_messages ends_set_totals : ends.

(** ** The run *)

Context {TC : TypedClient}.
Hypothesis self_ok : unbudgeted.

Definition sound_outcome (out : TriageOutcome) : Prop :=
  Verdict.wf (o_verdict out) /\ serializable_trace (o_tool_calls out).

Lemma ends_structured msgs m : ends call_raises (fun r => Verdict.wf (parsed r)) (call_structured msgs m).
Proof.
  intros s Hs. unfold call_structured. pose proof (tc_structured msgs m (world s)) as H.
  by destruct (complete_structured msgs m (world s)).
Qed.
Definition sound_reply (x : LLMResult Verdict.Verdict + ToolCallTurn) : Prop :=
  match x with
  | inl r => Verdict.wf (parsed r)
  | inr turn => Forall (fun c => serializable (JObj (rq_arguments c)) = true) (calls turn)
  end.
Lemma ends_with_tools msgs ts m : ends call_raises sound_reply (call_with_tools msgs ts m).
Proof.
  intros s Hs. unfold call_with_tools. pose proof (tc_with_tools msgs ts m (world s)) as H.
  destruct (complete_with_tools msgs ts m (world s)) as [[[r|t]|e] w]; by split.
Qed.

Lemma ends_check_budget Ex : ends Ex (fun _ => True) (_check_budget self).
Proof. unfold _check_budget. rewrite (ub_redis self_ok). apply ends_log. Qed.
Lemma ends_record_usage Ex us : ends Ex (fun _ => True) (_record_usage self us).
Proof. unfold _record_usage. rewrite (ub_redis self_ok). by apply ends_ret. Qed.
Lemma ends_outcome Ex r m rt : Verdict.wf (parsed r) -> ends Ex sound_outcome (_outcome self r m rt).
Proof. intros Hr s Hs. by split. Qed.
Hint Resolve ends_check_budget ends_record_usage : ends.

Lemma ends_retry_once msgs se m : ends run_raises sound_outcome (_retry_once self msgs se m).
Proof.
  unfold _retry_once. eapply ends_bind; [auto with ends|intros s _].
  eapply ends_bind; [auto with ends|intros _ _]. eapply ends_bind; [auto with ends|intros _ _].
  eapply ends_bind; [apply ends_try; [apply ends_structured|constructor|done|]|].
  - intros msg se'. eexists. split; [reflexivity|]. apply ends_raise. constructor.
  - intros r Hr. eapply ends_bind; [auto with ends|intros _ _]. by apply ends_outcome.
Qed.

Lemma ends_final msgs m : ends run_raises sound_outcome (_final self msgs m).
Proof.
  unfold _final. eapply ends_bind; [auto with ends|intros _ _].
  apply ends_bind with (Q := fun r => match r with inl res => Verdict.wf (parsed res) | inr out => sound_outcome out end).
  - apply ends_try; [|constructor|done|].
    + eapply ends_bind; [apply ends_structured|]. intros r Hr. by apply ends_ret.
    + intros msg se. eexists. split; [reflexivity|]. eapply ends_bind; [apply ends_retry_once|].
      intros out Hout. by apply ends_ret.
  - intros [res|out] H; [|by apply ends_ret]. eapply ends_bind; [auto with ends|intros _ _]. by apply ends_outcome.
Qed.

Lemma ends_one_call reg ctx seq c : _tools self = Some reg -> serializable (JObj (rq_arguments c)) = true ->
  ends run_raises (fun _ => True) (one_call reg ctx seq c).
Proof.
  intros Hreg Ha. unfold one_call.
  apply ends_bind with (Q := fun x => serializable (JObj (ex_result x)) = true).
  - intros s Hs. unfold on_world. pose proof (proj1 (ub_tools self_ok reg Hreg) (rq_name c) (rq_arguments c) ctx (world s)) as H.
    pose proof (execute_raises _ reg (rq_name c) (rq_arguments c) ctx (world s)) as Hx.
    destruct (execute reg (rq_name c) (rq_arguments c) ctx (world s)) as [[x|e] w]; cbn in *; split; try done.
    destruct (Hx e eq_refl) as [[m ->]|?]; [constructor|done].
  - intros x Hr. eapply ends_bind; [auto with ends|intros _ _].
    eapply ends_bind; [by apply ends_append_record|intros _ _].
    apply ends_bind with (Q := fun _ => True).
    + apply ends_lift_ret. unfold build_tool_result_message, dumps. rewrite Hr. by eexists.
    + intros msg _. eapply ends_bind; [auto with ends|intros _ _]. by apply ends_ret.
Qed.

Lemma ends_turn_calls reg ctx cs seq : _tools self = Some reg ->
  Forall (fun c => serializable (JObj (rq_arguments c)) = true) cs ->
  ends run_raises (fun _ => True) (turn_calls reg ctx cs seq).
Proof.
  intros Hreg Hcs. unfold turn_calls. revert seq. induction Hcs as [|c cs Hc _ IH]; intros seq; cbn [foldM];
    [by apply ends_ret|]. eapply ends_bind; [by apply ends_one_call|]. intros seq' _. apply IH.
Qed.

Lemma calls_message_ret cs : Forall (fun c => serializable (JObj (rq_arguments c)) = true) cs ->
  exists m, tool_calls_message cs = Ret m.
Proof.
  intros H. assert (Hw : exists ws, tool_call_wires cs = Ret ws).
  { induction H as [|c cs Hc _ [ws IH]]; [by eexists|]. cbn [tool_call_wires]. unfold tool_call_wire, dumps, mbind, outcome_bind.
    rewrite Hc, IH. by eexists. }
  destruct Hw as [ws E]. unfold tool_calls_message, mbind, outcome_bind. rewrite E. by eexists.
Qed.

Lemma ends_tool_loop reg ctx n seq : _tools self = Some reg -> ends run_raises sound_outcome (tool_loop self reg ctx n seq).
Proof.
  intros Hreg. revert seq. induction n as [|n IH]; intros seq; cbn [tool_loop].
  { eapply ends_bind; [auto with ends|intros _ _]. eapply ends_bind; [auto with ends|intros s _]. apply ends_final. }
  eapply ends_bind; [auto with ends|intros _ _]. eapply ends_bind; [auto with ends|intros s _].
  apply ends_bind with (Q := fun r => match r with inl x => sound_reply x | inr out => sound_outcome out end).
  - apply ends_try; [|constructor|done|].
    + eapply ends_bind; [apply ends_with_tools|]. intros x Hx. by apply ends_ret.
    + intros msg se. eexists. split; [reflexivity|]. eapply ends_bind; [apply ends_retry_once|].
      intros out Hout. by apply ends_ret.
  - intros [[res|turn]|out] H; [| |by apply ends_ret].
    + eapply ends_bind; [auto with ends|intros _ _]. by apply ends_outcome.
    + eapply ends_bind; [auto with ends|intros _ _]. eapply ends_bind; [auto with ends|intros s' _].
      eapply ends_bind; [auto with ends|intros _ _]. destruct (calls_message_ret _ H) as [m Em].
      apply ends_bind with (Q := fun _ => True); [apply ends_lift_ret; by exists m|intros msg _].
      eapply ends_bind; [auto with ends|intros _ _]. eapply ends_bind; [by apply ends_turn_calls|intros seq' _]. apply IH.
Qed.

Lemma ends_cheap_pass ctx : ends run_raises sound_outcome (_cheap_pass self ctx).
Proof.
  unfold _cheap_pass. destruct (_tools self) as [reg|] eqn:Hreg.
  - destruct (bool_decide _); [eapply ends_bind; [auto with ends|intros s _]; apply ends_final|].
    destruct (_tool_loop_max_iter self) as [n|] eqn:En; [by apply ends_tool_loop|].
    by destruct (ub_tools self_ok reg Hreg) as [_ ?].
  - eapply ends_bind; [auto with ends|intros s _]. apply ends_final.
Qed.

Lemma ends_route cheap : sound_outcome cheap -> ends run_raises sound_outcome (_route self cheap).
Proof.
  intros Hc. unfold _route. destruct (_strong_model self) as [strong|] eqn:Es; [|by apply ends_ret].
  destruct (ub_strong self_ok strong Es) as [H1 H2].
  destruct (_escalate_severity_gte self) as [sev|], (_escalate_confidence_lt self) as [conf|]; try done.
  destruct (Routing.d_escalate _); [|by apply ends_ret]. unfold _escalate.
  eapply ends_bind; [auto with ends|intros _ _]. eapply ends_bind; [auto with ends|intros s _].
  eapply ends_bind; [apply ends_final|]. intros out [Hv _]. apply ends_ret. split; [exact Hv|apply Hc].
Qed.

Lemma ends_clock Ex now : ends Ex (fun _ => True) (clock_or now).
Proof. unfold clock_or. destruct now; [by apply ends_ret|]. intros s Hs. unfold on_world. by destruct (utc_now (world s)). Qed.

(** A run of an unbudgeted pipeline: a sound outcome, or one of the three exceptions. *)
Lemma unbudgeted_run_ends a session now w :
  match run schema self a session now w with
  | (Ret out, _) => sound_outcome out
  | (Raise e, _) => run_raises e
  end.
Proof.
  unfold run, run_traced. assert (Hk : ends run_raises sound_outcome (run_body schema self a session now)).
  { unfold run_body. eapply ends_bind; [apply ends_clock|intros t _].
    apply ends_bind with (Q := fun _ => True).
    - apply ends_lift_ret. unfold build_messages, dumps. rewrite (ub_schema self_ok). by eexists.
    - intros ms _. eapply ends_bind; [auto with ends|intros _ _].
      eapply ends_bind; [apply ends_cheap_pass|]. intros cheap Hc. by apply ends_route. }
  destruct (Hk (St w [] [] zero_totals []) (List.Forall_nil _)) as [_ H].
  by destruct (run_body schema self a session now _) as [[out|e] s].
Qed.
End ends.
