(* ===== verification/Job.v ===== *)
(** * Job: the triage attempt, the ARQ job and its messages

    [TriagePipeline.triage_attempt] and [triage_alert] of [worker/triage.py], [worker/jobs.py],
    [worker/publish.py] and [core/queue.py].  The pipeline's [run] is an interface whose
    promise is that it leaves the session's tables alone; [TriageFrame] discharges it. *)

From S2P Require Import Prelude Errors Cache Json Datetime Schemas Llm Prompts Budget Policy.
From S2P Require Import ToolBase Database History Triage TriageFrame.
#[local] Open Scope Z_scope.

(** ** The pipeline's interface *)

#[export] Instance same_tables_preorder {W} : PreOrder (@same_tables W).
Proof. split; [done|]. intros a b c [??] [??]. by split; congruence. Qed.

Definition is_not_found (e : exn) : bool := isinstance e CNotFoundError.
Definition not_not_found (e : exn) : Prop := is_not_found e = false.

Record Pipeline (W : Type) : Type := {
  pipeline_run : Alert.SessionAlert -> M exn (db W) TriageOutcome;
  pipeline_frame : forall a d, same_tables d (pipeline_run a d).2;
  pipeline_raises : forall a d e, (pipeline_run a d).1 = Raise e -> is_not_found e = false
}.
Arguments pipeline_run {W}. Arguments pipeline_frame {W}. Arguments pipeline_raises {W}.

(** [self.run(alert, session=session)] over the session's world. *)
Definition triage_pipeline {W} `{LLMClient (db W)} `{RedisCounters (db W)} `{PyInt}
    `{FloatRepr} `{SummaryDump} `{PromptFiles} `{StrRepr} (schema : json)
    (self : Triage.TriagePipeline (W := db W)) (HR : Respects same_tables not_not_found self)
    : Pipeline W :=
  {| pipeline_run a := run schema self a true None;
     pipeline_frame a d := proj1 (run_keeps same_tables not_not_found schema self a true None d);
     pipeline_raises a d := proj2 (run_keeps same_tables not_not_found schema self a true None d) |}.

(** ** [core/queue.py] *)

Definition TRIAGE_JOB_NAME : pystr := u "triage_alert".
Definition TRIAGE_QUEUE_NAME : pystr := u "sentinelbrief:triage".
Definition VERDICT_CREATED_CHANNEL : pystr := u "sentinelbrief:verdict.created".

(** What the source asks of Redis beyond the caches and the counters: ARQ's [enqueue_job],
    which answers no job when the id is taken, and [PUBLISH]. *)
Class Queue (W : Type) : Type := {
  enqueue_job : pystr -> pystr -> pystr -> pystr -> M exn W (option unit);
  redis_publish : pystr -> pystr -> M exn W unit
}.

(** [str(uuid)] and [uuid.UUID(text)], [None] for a [ValueError]. *)
Class UuidText : Type := {
  str_uuid : uuid -> pystr;
  parse_uuid : pystr -> option uuid;
  parse_str_uuid : forall i, parse_uuid (str_uuid i) = Some i
}.

Section queue.
Context {W : Type} {QU : Queue W} {UT : UuidText}.

Definition triage_job_id (id : uuid) : pystr := u "triage:" ++ str_uuid id.

Definition enqueue_triage (id : uuid) : M exn W bool :=
  try_except
    (job ← enqueue_job TRIAGE_JOB_NAME (str_uuid id) (triage_job_id id) TRIAGE_QUEUE_NAME;
     mret (bool_decide (is_Some job)))
    (fun e => if is_redis_failure e
              then Some (raise (QueueUnavailableError (u "triage queue unavailable")))
              else None).
End queue.

(** ** [worker/publish.py] *)

Definition REASONING_EXCERPT_CHARS : Z := 160.
Definition reasoning_excerpt (reasoning : pystr) : pystr := py_take REASONING_EXCERPT_CHARS reasoning.

Section publish.
Context {W : Type} {QU : Queue W} {UT : UuidText} {FR : FloatRepr}.

Definition verdict_created_payload (aid vid : uuid) (v : Verdict.Verdict) : jobj :=
  [(u "alert_id", JStr (str_uuid aid)); (u "verdict_id", JStr (str_uuid vid));
   (u "severity", JInt (Verdict.severity v));
   (u "category", JStr (Verdict.category_str (Verdict.category v)));
   (u "escalate", JBool (Verdict.escalate v));
   (u "summary", JStr (reasoning_excerpt (Verdict.reasoning v)))].

Definition publish_verdict_created (aid vid : uuid) (v : Verdict.Verdict) : M exn W bool :=
  try_except
    (text ← lift (dumps default_args (JObj (verdict_created_payload aid vid v)));
     _ ← redis_publish VERDICT_CREATED_CHANNEL text;
     mret true)
    (fun e => if is_redis_failure e then Some (mret false) else None).
End publish.

(** ** [triage_attempt] and [triage_alert] *)

Inductive attempt_status : Type := at_triaged | at_skipped.

Record AttemptResult : Type := {
  at_status : attempt_status;
  at_verdict_id : option uuid;
  at_outcome : option TriageOutcome
}.

(** Whether the attempt's deadline has passed when it is cancelled. *)
Class Deadline (W : Type) : Type := timed_out : W -> bool.

Inductive JobResult : Type := JTriaged | JFailed | JSkipped | JMissing.

Record JobSettings : Type := {
  triage_job_max_tries : Z;
  triage_job_backoff_base_s : float;
  triage_job_backoff_max_s : float
}.

(** [(midnight - current).total_seconds()]: the quotient of microseconds, to the unit. *)
Definition us_until_next_utc_day (now : Z) : Z := (now / US_PER_DAY + 1) * US_PER_DAY - now.
Definition _seconds_until_next_utc_day (now : Z) : outcome exn float :=
  if MAX_US <? (now / US_PER_DAY + 1) * US_PER_DAY then Raise OverflowError
  else Ret (us_until_next_utc_day now * fone / US_PER_SECOND).

Section jobs.
Context {W : Type} {PG : Postgres W} {LZ : LocalZone} {SH : Sha256} {AC : AlertCodec}
  {UT : UuidText} {QU : Queue W} {FR : FloatRepr} {DL : Deadline W}.
Variable pipeline : Pipeline W.

Definition skipped : AttemptResult :=
  {| at_status := at_skipped; at_verdict_id := None; at_outcome := None |}.

(** The body under [except BaseException]. *)
Definition attempt_body (id : uuid) (row : AlertRow) : M exn (db W) AttemptResult :=
  a ← lift (model_validate (a_raw row));
  outcome ← pipeline_run pipeline a;
  vid ← persist_verdict str_uuid id outcome (effective_model_primary outcome)
          (escalated_model outcome) (o_tool_calls outcome);
  _ ← commit;
  mret {| at_status := at_triaged; at_verdict_id := Some vid; at_outcome := Some outcome |}.

Definition triage_attempt (id : uuid) : M exn (db W) AttemptResult :=
  row ← get_alert_for_update str_uuid id;
  if bool_decide (a_status row <> pending) then _ ← rollback; mret skipped
  else try_except (attempt_body id row) (fun e => Some (_ ← rollback; raise e)).

Definition is_llm_failure (e : exn) : bool :=
  isinstance e CVerdictValidationError || isinstance e CLLMCallError.

Definition triage_alert (id : uuid) : M exn (db W) AlertStatus :=
  try_except (_ ← triage_attempt id; mret triaged)
    (fun e => if is_llm_failure e
              then Some (_ ← set_alert_status str_uuid id failed; _ ← commit; mret failed)
              else None).

(** ** [worker/jobs.py] *)

(** [asyncio.wait_for]: the cancellation the deadline caused becomes a [TimeoutError]. *)
Definition deadline_exn (w : W) (e : exn) : exn :=
  match e with
  | CancelledError => if timed_out w then TimeoutError else CancelledError
  | _ => e
  end.
Definition wait_for {A} (m : M exn (db W) A) : M exn (db W) A := fun d =>
  match m d with
  | (Raise e, d') => (Raise (deadline_exn (outer d') e), d')
  | r => r
  end.

Definition mark_alert_failed (id : uuid) : M exn (db W) unit :=
  in_session (_ ← set_alert_status str_uuid id failed; commit).

Variable settings : JobSettings.

Definition _handle_attempt_failure (e : exn) (id : uuid) (job_try : Z) : M exn (db W) JobResult :=
  decision ← lift (Retries.decide_retry e job_try (triage_job_max_tries settings)
                     (triage_job_backoff_base_s settings) (triage_job_backoff_max_s settings));
  match Retries.r_action decision with
  | Retries.retry => raise (Retry (Retries.defer_s decision))
  | Retries.fail => _ ← mark_alert_failed id; mret JFailed
  end.

Context {RC : RedisCounters W}.

Definition on_outer {A} (m : M exn W A) : M exn (db W) A := fun d =>
  let '(o, w) := m (outer d) in (o, Db w (durable d) (working d) (aborted d)).

Definition defer_to_next_day {A} : M exn (db W) A :=
  now ← on_outer (fun w => let '(t, w') := utc_now w in (Ret t, w'));
  defer_s ← lift (_seconds_until_next_utc_day now);
  raise (Retry defer_s).

Definition is_budget_exceeded (e : exn) : bool := isinstance e CBudgetExceededError.

(** The attempt, and the [except] clauses in their order. *)
Definition run_attempt (id : uuid) (job_try : Z) : M exn (db W) (AttemptResult + JobResult) :=
  try_except (a ← in_session (wait_for (triage_attempt id)); mret (inl a))
    (fun e => if is_not_found e then Some (mret (inr JMissing))
              else if is_budget_exceeded e then Some defer_to_next_day
              else if is_exception e
                   then Some (r ← _handle_attempt_failure e id job_try; mret (inr r))
              else None).

(** [int(ctx.get("job_try") or 1)]. *)
Definition job_try_of (raw : option Z) : Z :=
  match raw with None | Some 0 => 1 | Some n => n end.

Definition job_result_of (s : attempt_status) : JobResult :=
  match s with at_triaged => JTriaged | at_skipped => JSkipped end.

Definition triage_alert_job (job_try : option Z) (alert_id : pystr) : M exn (db W) JobResult :=
  match parse_uuid alert_id with
  | None => raise (ValueError [])
  | Some id =>
      r ← run_attempt id (job_try_of job_try);
      match r with
      | inr j => mret j
      | inl a =>
          _ ← match at_status a, at_verdict_id a, at_outcome a with
              | at_triaged, Some vid, Some out =>
                  _ ← on_outer (publish_verdict_created id vid (o_verdict out)); mret tt
              | _, _, _ => mret tt
              end;
          mret (job_result_of (at_status a))
      end
  end.

(** ** The attempt *)

(** What a finished run adds to the tables. *)
Definition recorded (id vid : uuid) (out : TriageOutcome) (ts ts' : tables) : Prop :=
  persisted id vid out (effective_model_primary out) (escalated_model out) (o_tool_calls out) ts ts'.

Definition committed (id : uuid) (ts ts' : tables) (vid : uuid) (out : TriageOutcome) : Prop :=
  exists row a d1 d2, find_alert id ts = Some row /\ a_status row = pending /\
    model_validate (a_raw row) = Ret a /\ pipeline_run pipeline a d1 = (Ret out, d2) /\
    recorded id vid out ts ts'.

Lemma attempt_body_spec id row (d : db W) o d' :
  attempt_body id row d = (o, d') -> working d = durable d ->
  find_alert id (durable d) = Some row -> a_status row = pending ->
  ((durable d' = durable d /\ exists e, o = Raise e) \/
   exists vid out, committed id (durable d) (durable d') vid out /\
     (wf_tables (durable d) -> wf_tables (durable d')) /\
     forall a, o = Ret a -> a = {| at_status := at_triaged; at_verdict_id := Some vid;
                                 at_outcome := Some out |}).
Proof.
  unfold attempt_body. intros Hb Hw Hrow Hst.
  apply bind_inv in Hb as [(a & d1 & H1 & Hb)|(e & H1 & ->)];
    unfold lift in H1; simplify_eq/=; [|left; eauto].
  apply bind_inv in Hb as [(out & d2 & H2 & Hb)|(e & H2 & ->)];
    pose proof (pipeline_frame pipeline a d1) as [Hd2 Hw2]; rewrite H2 in Hd2, Hw2; simpl in *;
    [|left; eauto].
  apply bind_inv in Hb as [(vid & d3 & [Hd3 H3]%persist_verdict_spec & Hb)
                          |(e & [Hd3 _]%persist_verdict_spec & ->)]; [|left; eauto using eq_trans].
  destruct (H3 vid eq_refl) as (Hp & Ha & Hwf).
  assert (Hc : committed id (durable d1) (working d3) vid out).
  { exists row, a, d1, d2. split_and!; try done. unfold recorded. by rewrite <- Hw, <- Hw2. }
  assert (Hwf' : wf_tables (durable d1) -> wf_tables (working d3)) by (by rewrite <- Hw, <- Hw2).
  apply bind_inv in Hb as [([] & d4 & H4 & Hb)|(e & H4 & ->)];
    apply commit_spec in H4 as [Hd4|[Hd4 [e' ?]]]; try done.
  - unfold mret, M_ret in Hb. simplify_eq. right. exists vid, out. rewrite Hd4.
    split_and!; [done..|]. by intros a' [= <-].
  - right. exists vid, out. rewrite Hd4. by split_and!.
  - left. split; [congruence|eauto].
Qed.

Lemma triage_attempt_spec id (d : db W) o d' :
  triage_attempt id d = (o, d') -> working d = durable d ->
  (wf_tables (durable d) -> wf_tables (durable d')) /\
  ((durable d' = durable d /\ (exists e, o = Raise e)) \/
   (durable d' = durable d /\ o = Ret skipped /\
      exists row, find_alert id (durable d) = Some row /\ a_status row <> pending) \/
   (exists vid out, committed id (durable d) (durable d') vid out /\
      forall a, o = Ret a -> a = {| at_status := at_triaged; at_verdict_id := Some vid;
                                  at_outcome := Some out |})).
Proof.
  unfold triage_attempt. intros Hb Hw.
  apply bind_inv in Hb as [(row & d1 & [[Hd1 Hw1] Hrow]%get_alert_spec & Hb)
                          |(e & [[Hd1 Hw1] _]%get_alert_spec & ->)].
  2: { rewrite Hd1. eauto. }
  specialize (Hrow row eq_refl). rewrite Hw in Hrow. case_bool_decide as Hst.
  - apply bind_inv in Hb as [([] & d2 & H2%rollback_spec & Hb)|(e & H2%rollback_spec & ->)].
    + unfold mret, M_ret in Hb. simplify_eq. rewrite H2, Hd1. naive_solver.
    + rewrite H2, Hd1. eauto.
  - unfold try_except in Hb.
    destruct (attempt_body id row d1) as [o1 d2] eqn:E.
    apply attempt_body_spec in E; [|congruence|congruence|done]. rewrite Hd1 in E.
    assert (Hfin : durable d' = durable d2 /\ match o1 with Ret a => o = Ret a | Raise _ => exists e, o = Raise e end).
    { destruct o1 as [a|e]; [by simplify_eq|].
      apply bind_inv in Hb as [([] & d3 & H3%rollback_spec & Hb)|(e' & H3%rollback_spec & ->)].
      - unfold raise in Hb. simplify_eq. eauto.
      - eauto. }
    destruct Hfin as [-> Ho].
    destruct E as [[-> [e ->]]|(vid & out & Hc & Hwf & Ha)]; [eauto|].
    split; [done|]. right. right. exists vid, out. split; [done|].
    intros a ->. destruct o1 as [a'|e]; [simplify_eq; by apply Ha|]. by destruct Ho.
Qed.

(** The rollback's exception, or the body's. *)
Lemma rollback_then_raise (e : exn) (d : db W) (o : outcome exn AttemptResult) d' :
  (_ ← rollback; raise e) d = (o, d') ->
  durable d' = durable d /\ exists e', o = Raise e' /\ (e' = e \/ sb_class_of e' = None).
Proof.
  intros [([] & d1 & H1%rollback_spec & H2)|(e' & H1 & ->)]%bind_inv.
  - unfold raise in H2. simplify_eq. eauto.
  - split; [by eapply rollback_spec|]. apply plain_rollback in H1. eauto.
Qed.

Lemma plain_not_found e : sb_class_of e = None -> is_not_found e = false.
Proof. unfold is_not_found, isinstance. by intros ->. Qed.

Lemma model_validate_raises raw e : model_validate raw = Raise e -> sb_class_of e = None.
Proof.
  unfold model_validate, Alert.validate, Alert._sort_and_require_connect_first,
    Alert.sort_events, mbind, outcome_bind.
  intros H. repeat (case_match; simplify_eq); done.
Qed.

Lemma attempt_body_raises id row (d : db W) e d' :
  attempt_body id row d = (Raise e, d') -> working d = durable d ->
  find_alert id (durable d) = Some row -> is_not_found e = false.
Proof.
  unfold attempt_body. intros Hb Hw Hrow.
  apply bind_inv in Hb as [(a & d1 & H1 & Hb)|(e' & H1 & [= ->])];
    unfold lift in H1; injection H1 as H1 ->.
  2: { by apply model_validate_raises, plain_not_found in H1. }
  apply bind_inv in Hb as [(out & d2 & H2 & Hb)|(e' & H2 & [= ->])];
    pose proof (pipeline_frame pipeline a d1) as [Hd2 Hw2]; rewrite H2 in Hd2, Hw2; simpl in *.
  2: { apply (pipeline_raises pipeline a d1). by rewrite H2. }
  apply bind_inv in Hb as [(vid & d3 & H3 & Hb)|(e' & H3%persist_verdict_raises & [= ->])].
  2: { destruct H3 as [?|H3]; [by apply plain_not_found|]. rewrite Hw2, Hw, Hrow in H3. done. }
  apply bind_inv in Hb as [([] & d4 & H4 & Hb)|(e' & H4%plain_commit & [= ->])]; [done|].
  by apply plain_not_found.
Qed.

Lemma triage_attempt_raises id (d : db W) e d' :
  triage_attempt id d = (Raise e, d') -> working d = durable d -> is_not_found e = true ->
  find_alert id (durable d) = None /\ durable d' = durable d.
Proof.
  unfold triage_attempt. intros Hb Hw He.
  apply bind_inv in Hb as [(row & d1 & [[Hd1 Hw1] Hrow]%get_alert_spec & Hb)|(e' & H1 & [= ->])].
  2: { pose proof H1 as [[Hd1 _] _]%get_alert_spec.
       apply get_alert_raises in H1 as [H1%plain_not_found|[_ H1]]; [congruence|].
       by rewrite <- Hw at 1. }
  specialize (Hrow row eq_refl). rewrite Hw in Hrow. case_bool_decide.
  - apply bind_inv in Hb as [([] & d2 & H2 & Hb)|(e' & H2%plain_rollback%plain_not_found & [= ->])];
      [done|congruence].
  - unfold try_except in Hb. destruct (attempt_body id row d1) as [[a|e1] d2] eqn:E; [done|].
    apply attempt_body_raises in E; [|congruence..].
    apply rollback_then_raise in Hb as (_ & e' & [= ->] & [->|He'%plain_not_found]); congruence.
Qed.

(** The attempt in its own session, under its deadline. *)
Definition guarded_attempt (id : uuid) : M exn (db W) AttemptResult :=
  in_session (wait_for (triage_attempt id)).

Lemma guarded_attempt_spec id (d : db W) o d' :
  guarded_attempt id d = (o, d') ->
  (wf_tables (durable d) -> wf_tables (durable d')) /\
  ((durable d' = durable d /\ (exists e, o = Raise e)) \/
   (durable d' = durable d /\ o = Ret skipped /\
      exists row, find_alert id (durable d) = Some row /\ a_status row <> pending) \/
   (exists vid out, committed id (durable d) (durable d') vid out /\
      forall a, o = Ret a -> a = {| at_status := at_triaged; at_verdict_id := Some vid;
                                  at_outcome := Some out |})) /\
  (forall e, o = Raise e -> is_not_found e = true ->
     find_alert id (durable d) = None /\ durable d' = durable d).
Proof.
  unfold guarded_attempt, in_session, wait_for.
  set (d0 := Db (outer d) (durable d) (durable d) false).
  destruct (triage_attempt id d0) as [o1 d1] eqn:E.
  pose proof (triage_attempt_spec id d0 o1 d1 E eq_refl) as Hs. simpl in Hs.
  pose proof (triage_attempt_raises id d0) as Hr. rewrite E in Hr.
  assert (He : forall e, is_not_found (deadline_exn (outer d1) e) = true ->
                 deadline_exn (outer d1) e = e).
  { intros e. destruct e; try done. simpl. by destruct (timed_out (outer d1)). }
  destruct Hs as [Hwf Hs], o1 as [a|e]; intros [= <- <-]; (split; [done|]); split; try done.
  - destruct Hs as [[Hd [e' ?]]|[(_ & ? & _)|(vid & out & Hc & _)]]; [left; eauto|done|].
    right. right. by exists vid, out.
  - intros e' [= <-] Hn. pose proof Hn as Hn'. rewrite He in Hn' by done.
    by apply (Hr e d1 eq_refl eq_refl).
Qed.

(** ** The job *)

(** What an attempt, then the terminal write, may do to the committed tables. *)
Definition attempt_effect (id : uuid) (ts ts' : tables) : Prop :=
  ts' = ts \/ exists vid out, committed id ts ts' vid out.
Definition job_effect (last_try : Prop) (id : uuid) (ts ts' : tables) : Prop :=
  exists ts1, attempt_effect id ts ts1 /\ (ts' = ts1 \/ last_try /\ ts' = update_status id failed ts1).

Lemma guarded_attempt_effect id (d : db W) o d' :
  guarded_attempt id d = (o, d') -> attempt_effect id (durable d) (durable d').
Proof.
  intros (_ & [[? _]|[(? & _)|(vid & out & ? & _)]] & _)%guarded_attempt_spec;
    [by left|by left|right; eauto].
Qed.

Lemma mark_alert_failed_spec id (d : db W) o d' :
  mark_alert_failed id d = (o, d') ->
  (durable d' = durable d \/ durable d' = update_status id failed (durable d)) /\
  (o = Ret tt -> is_Some (find_alert id (durable d)) /\
     durable d' = update_status id failed (durable d)).
Proof.
  unfold mark_alert_failed, in_session. set (d0 := Db (outer d) (durable d) (durable d) false).
  destruct ((_ ← set_alert_status str_uuid id failed; commit) d0) as [o1 d1] eqn:E.
  intros [= <- <-]. simpl.
  apply bind_inv in E as [([] & d2 & [Hd2 (Hsome & Ha & Hw2)]%set_alert_status_spec & H2)
                         |(e & [Hd2 _]%set_alert_status_spec & ->)].
  2: { simpl in Hd2. split; [auto|done]. }
  apply commit_spec in H2 as [Hd1|[Hd1 [e ->]]]; [| |done]; simpl in *.
  - rewrite Hd1, Hw2. split; [by right|done].
  - rewrite Hd1, Hd2. split; [by left|done].
Qed.

Lemma update_status_find id s ts : is_Some (find_alert id ts) ->
  exists row, find_alert id (update_status id s ts) = Some row /\ a_status row = s.
Proof.
  intros [row Hrow]. rewrite find_update_status, Hrow. simpl.
  apply find_alert_Some in Hrow as [_ ->]. rewrite decide_True by done. by eexists.
Qed.
End jobs.

Section job_theorems.
Context {W : Type} {PG : Postgres W} {LZ : LocalZone} {SH : Sha256} {AC : AlertCodec}
  {UT : UuidText} {QU : Queue W} {FR : FloatRepr} {DL : Deadline W} {RC : RedisCounters W}.
Variable pipeline : Pipeline W.
Variable settings : JobSettings.

(** The retry policy's bounds: [Settings] has positive tries and non-negative delays. *)
Definition policy_ok : Prop :=
  1 <= triage_job_max_tries settings <= 1025 /\ 0 <= triage_job_backoff_base_s settings /\
  0 <= triage_job_backoff_max_s settings.

Lemma handle_failure_spec e id job_try (d : db W) o d' :
  _handle_attempt_failure settings e id job_try d = (o, d') -> policy_ok -> 1 <= job_try ->
  (job_try < triage_job_max_tries settings /\ d' = d /\
     exists s, o = Raise (Retry s) /\ 0 <= s <= triage_job_backoff_max_s settings) \/
  (triage_job_max_tries settings <= job_try /\
     (durable d' = durable d \/ durable d' = update_status id failed (durable d)) /\
     (forall r, o = Ret r -> r = JFailed /\ is_Some (find_alert id (durable d)) /\
        durable d' = update_status id failed (durable d))).
Proof.
  intros H (Hm & Hb & Hx) Hj. unfold _handle_attempt_failure, Retries.decide_retry,
    Retries.backoff_seconds in H.
  rewrite !(proj2 (Z.ltb_ge _ _)) in H by lia.
  destruct (Z.leb_spec (triage_job_max_tries settings) job_try) as [Hle|Hlt].
  - right. split; [done|]. unfold mbind at 1, M_bind at 1, lift in H. simpl in H.
    apply bind_inv in H as [([] & d1 & [H1 H1']%mark_alert_failed_spec & H2)
                           |(e' & [H1 _]%mark_alert_failed_spec & ->)]; [|done].
    unfold mret, M_ret in H2. simplify_eq. destruct (H1' eq_refl). split; [done|].
    intros r [= <-]. done.
  - left. rewrite (proj2 (Z.leb_gt _ _)) in H by lia.
    unfold mbind, M_bind, lift, outcome_bind, raise in H. simplify_eq/=.
    split_and!; [done..|]. eexists. split; [done|].
    assert (0 <= triage_job_backoff_base_s settings * 2 ^ (job_try - 1))
      by (apply Z.mul_nonneg_nonneg; [done|apply Z.pow_nonneg; lia]). lia.
Qed.

Lemma on_outer_durable {A} (m : M exn W A) (d : db W) o d' :
  on_outer m d = (o, d') -> durable d' = durable d.
Proof. unfold on_outer. destruct (m (outer d)). intros. by simplify_eq. Qed.

Lemma defer_spec {A} (d : db W) (o : outcome exn A) d' :
  defer_to_next_day d = (o, d') ->
  durable d' = durable d /\
  o = Raise (match _seconds_until_next_utc_day (utc_now (outer d)).1 with
             | Ret s => Retry s
             | Raise e => e
             end).
Proof.
  unfold defer_to_next_day, mbind, M_bind, on_outer. destruct (utc_now (outer d)) as [t w]. simpl.
  unfold lift, raise. destruct (_seconds_until_next_utc_day t); intros; by simplify_eq.
Qed.

(** How the attempt's end decides the job's. *)
Lemma run_attempt_cases id job_try (d : db W) o d' :
  run_attempt pipeline settings id job_try d = (o, d') ->
  exists oa da, guarded_attempt pipeline id d = (oa, da) /\
  match oa with
  | Ret a => o = Ret (inl a) /\ d' = da
  | Raise e =>
      if is_not_found e then o = Ret (inr JMissing) /\ d' = da
      else if is_budget_exceeded e then defer_to_next_day da = (o, d')
      else if is_exception e
           then exists o1, _handle_attempt_failure settings e id job_try da = (o1, d') /\
                  o = match o1 with Ret r => Ret (inr r) | Raise e => Raise e end
           else o = Raise e /\ d' = da
  end.
Proof.
  unfold run_attempt, try_except. fold (guarded_attempt pipeline id).
  unfold mbind at 1, M_bind at 1.
  destruct (guarded_attempt pipeline id d) as [[a|e] da] eqn:E; intros H; eexists _, da;
    (split; [reflexivity|]); cbn beta iota zeta in *.
  { unfold mret, M_ret in H. injection H as <- <-. done. }
  destruct (is_not_found e); [unfold mret, M_ret in H; injection H as <- <-; done|].
  destruct (is_budget_exceeded e); [done|].
  destruct (is_exception e); [|injection H as <- <-; done].
  unfold mbind, M_bind in H.
  destruct (_handle_attempt_failure settings e id job_try da) as [[r|e'] d1];
    unfold mret, M_ret in H; injection H as <- <-; eauto.
Qed.

(** The try whose failure is terminal. *)
Definition last_try (job_try : Z) : Prop := triage_job_max_tries settings <= job_try.

(** A result is true of the committed tables. *)
Definition result_holds (id : uuid) (ts ts' : tables) (r : JobResult) : Prop :=
  match r with
  | JTriaged => exists vid out, committed pipeline id ts ts' vid out
  | JSkipped => ts' = ts /\ exists row, find_alert id ts = Some row /\ a_status row <> pending
  | JMissing => ts' = ts /\ find_alert id ts = None
  | JFailed => exists row, find_alert id ts' = Some row /\ a_status row = failed
  end.

Lemma run_attempt_spec id job_try (d : db W) o d' :
  run_attempt pipeline settings id job_try d = (o, d') -> policy_ok -> 1 <= job_try ->
  job_effect pipeline (last_try job_try) id (durable d) (durable d') /\
  (wf_tables (durable d) -> wf_tables (durable d')) /\
  match o with
  | Ret (inl a) => result_holds id (durable d) (durable d') (job_result_of (at_status a))
  | Ret (inr r) => result_holds id (durable d) (durable d') r
  | Raise _ => True
  end.
Proof.
  intros (oa & da & Hg & H)%run_attempt_cases Hp Hj.
  pose proof (guarded_attempt_effect _ _ _ _ _ Hg) as Heff.
  apply guarded_attempt_spec in Hg as (Hwf & Hcases & Hnf).
  assert (Hdone : durable d' = durable da -> job_effect pipeline (last_try job_try) id (durable d) (durable d') /\
                    (wf_tables (durable d) -> wf_tables (durable d'))).
  { intros ->. split; [exists (durable da); auto|done]. }
  destruct oa as [a|e].
  { destruct H as [-> ->]. destruct Hdone as [? ?]; [done|]. split_and!; [done..|].
    destruct Hcases as [[_ [e ?]]|[(Hd & [= ->] & Hrow)|(vid & out & Hc & Ha)]]; [done|done|].
    rewrite (Ha a eq_refl). simpl. eauto. }
  destruct (is_not_found e) eqn:Hn.
  { destruct H as [-> ->]. destruct Hdone as [? ?]; [done|]. split_and!; [done..|].
    destruct (Hnf e eq_refl Hn). done. }
  destruct (is_budget_exceeded e).
  { apply defer_spec in H as [Hd ->]. by destruct Hdone. }
  destruct (is_exception e); [|destruct H as [-> ->]; by destruct Hdone].
  destruct H as (o1 & H & ->). apply handle_failure_spec in H as H; [|done..].
  destruct H as [(_ & -> & s & -> & _)|(Hlast & Hd & Hret)]; [by destruct Hdone|].
  split_and!.
  - exists (durable da). split; [done|]. destruct Hd; [by left|by right].
  - intros Hw. destruct Hd as [->| ->]; [by apply Hwf|by apply update_status_wf, Hwf].
  - destruct o1 as [r|e1]; [|done]. destruct (Hret r eq_refl) as (-> & Hsome & ->).
    by apply update_status_find.
Qed.

(** Publishing leaves the tables alone. *)
Lemma triage_alert_job_cases raw text id (d : db W) o d' :
  parse_uuid text = Some id -> triage_alert_job pipeline settings raw text d = (o, d') ->
  exists o1 d1, run_attempt pipeline settings id (job_try_of raw) d = (o1, d1) /\
    durable d' = durable d1 /\
    match o1 with
    | Raise e => o = Raise e /\ d' = d1
    | Ret (inr r) => o = Ret r
    | Ret (inl a) => forall r, o = Ret r -> r = job_result_of (at_status a)
    end.
Proof.
  intros Hid H. unfold triage_alert_job in H. rewrite Hid in H.
  apply bind_inv in H as [(r & d1 & H1 & H)|(e & H1 & ->)]; [|by exists (Raise e), d'].
  exists (Ret r), d1. split; [done|]. destruct r as [a|j].
  2: { unfold mret, M_ret in H. by injection H as <- <-. }
  apply bind_inv in H as [([] & d2 & H2 & H)|(e & H2 & ->)].
  - unfold mret, M_ret in H. simplify_eq. split; [|by intros r [= <-]].
    repeat case_match; unfold mret, M_ret in H2; simplify_eq; try done.
    apply bind_inv in H2 as [(b & d3 & Hpub%on_outer_durable & Hret)|(e & _ & ?)]; [|done].
    by simplify_eq.
  - split; [|done].
    repeat case_match; unfold mret, M_ret in H2; simplify_eq; try done.
    apply bind_inv in H2 as [(b & d3 & _ & ?)|(e' & Hpub%on_outer_durable & _)]; [done|done].
Qed.

Lemma effect_verdicts last id ts ts' :
  job_effect pipeline last id ts ts' ->
  verdicts ts' = verdicts ts \/
  exists row, v_alert_id row = id /\ verdicts ts' = verdicts ts ++ [row].
Proof.
  intros (ts1 & Heff & Hts'). assert (verdicts ts' = verdicts ts1) as -> by (by destruct Hts' as [->|[_ ->]]).
  destruct Heff as [->|(vid & out & row & a & d1 & d2 & _ & _ & _ & _ & t & rows & _ & _ & _ & ->)];
    [by left|]. right. eexists. split; [|reflexivity]. done.
Qed.

(** C5: whatever a job does, the committed tables hold either what they held or, as one
    unit, one more verdict of this alert with its tool calls and the [triaged] status; to
    either, a job's last try, and no earlier one, may add the terminal [failed] status of this
    alert; the constraints survive; and a result it returns is true of the tables:
    [triaged] with the pipeline's verdict of the pending alert, [skipped] only for an alert
    that was not pending, [missing] only when there is no such alert, [failed] only with the
    status written. *)
Theorem triage_alert_job_truthful raw text id (d : db W) o d' :
  parse_uuid text = Some id -> policy_ok -> 1 <= job_try_of raw ->
  triage_alert_job pipeline settings raw text d = (o, d') ->
  job_effect pipeline (last_try (job_try_of raw)) id (durable d) (durable d') /\
  (verdicts (durable d') = verdicts (durable d) \/
   exists row, v_alert_id row = id /\ verdicts (durable d') = verdicts (durable d) ++ [row]) /\
  (wf_tables (durable d) -> wf_tables (durable d')) /\
  (forall r, o = Ret r -> result_holds id (durable d) (durable d') r).
Proof.
  intros Hid Hp Hj (o1 & d1 & H1 & Hd & Ho)%(triage_alert_job_cases _ _ _ _ _ _ Hid).
  apply run_attempt_spec in H1 as (Heff & Hwf & Hres); [|done..]. rewrite Hd.
  split_and!; [done|by eapply effect_verdicts|done|]. intros r Hr.
  destruct o1 as [[a|j]|e]; [by rewrite (Ho r Hr)| |destruct Ho; congruence].
  by assert (j = r) as <- by congruence.
Qed.

(** C17: a failed attempt is settled by its exception and the try number alone: a budget
    refusal is deferred to the counter's reset at every try and never fails the alert; any
    other exception is retried within the cap before the last try, leaving what the
    attempt left, and on the last one is terminal. *)
Theorem job_retry_policy id job_try text (d : db W) e da o d' :
  parse_uuid text = Some id -> policy_ok -> 1 <= job_try ->
  guarded_attempt pipeline id d = (Raise e, da) ->
  is_not_found e = false -> is_exception e = true ->
  triage_alert_job pipeline settings (Some job_try) text d = (o, d') ->
  (is_budget_exceeded e = true ->
     durable d' = durable da /\
     forall s, _seconds_until_next_utc_day (utc_now (outer da)).1 = Ret s -> o = Raise (Retry s)) /\
  (is_budget_exceeded e = false -> job_try < triage_job_max_tries settings ->
     d' = da /\ exists s, o = Raise (Retry s) /\ 0 <= s <= triage_job_backoff_max_s settings) /\
  (is_budget_exceeded e = false -> triage_job_max_tries settings <= job_try ->
     forall r, o = Ret r -> r = JFailed /\ durable d' = update_status id failed (durable da)).
Proof.
  intros Hid Hp Hj Hg Hn Hx (o1 & d1 & H1 & Hd & Ho)%(triage_alert_job_cases _ _ _ _ _ _ Hid).
  assert (Ht : job_try_of (Some job_try) = job_try) by (destruct job_try; simpl; lia).
  rewrite Ht in H1. apply run_attempt_cases in H1 as (oa & da' & Hg' & H1).
  rewrite Hg in Hg'. simplify_eq. rewrite Hn in H1. destruct (is_budget_exceeded e).
  { apply defer_spec in H1 as [Hd1 ->]. destruct Ho as [-> ->].
    split_and!; [|done..]. intros _. split; [done|]. by intros s ->. }
  rewrite Hx in H1. destruct H1 as (o2 & H2 & ->).
  apply handle_failure_spec in H2 as [(Hlt & -> & s & -> & Hs)|(Hle & _ & Hret)]; [| |done..].
  - destruct Ho as [-> ->]. split_and!; [done|by eauto|]. intros _ ?. lia.
  - split_and!; [done|intros _ ?; lia|]. intros _ _ r Hr.
    destruct o2 as [r2|e2]; [|destruct Ho; congruence]. rewrite Hd.
    assert (r2 = r) as <- by congruence. by destruct (Hret r2 eq_refl) as (? & _ & ?).
Qed.
End job_theorems.

(** The budget deferral is at most a day and ends exactly when the counter's key
    changes: until then every reading of the clock has today's key. *)
Theorem deferral_reaches_counter_reset now s :
  _seconds_until_next_utc_day now = Ret s -> in_range now ->
  let us := us_until_next_utc_day now in
  0 < us <= US_PER_DAY /\ 0 < s <= flt 86400 /\
  (forall t, now <= t < now + us -> day_key t = day_key now) /\
  (in_range (now + us) -> day_key (now + us) <> day_key now).
Proof.
  intros Hs Hr us. unfold _seconds_until_next_utc_day in Hs.
  assert (Hd : 0 < US_PER_DAY) by done.
  pose proof (Z.div_mod now US_PER_DAY ltac:(done)) as Hdm.
  pose proof (Z.mod_pos_bound now US_PER_DAY Hd) as Hm.
  assert (Hus : us = US_PER_DAY - now mod US_PER_DAY) by (unfold us, us_until_next_utc_day; lia).
  change (us_until_next_utc_day now) with us in Hs. clearbody us.
  split; [lia|]. split.
  { destruct (MAX_US <? _); [done|]. injection Hs as <-. pose proof fone_big as Hb.
    unfold US_PER_SECOND, flt in *. assert (us <= 86400000000) by (unfold US_PER_DAY, US_PER_SECOND in *; lia).
    split; [apply Z.div_str_pos; nia|]. apply Z.div_le_upper_bound; [lia|]. nia. }
  split.
  - intros t Ht. unfold day_key, date_isoformat.
    assert (t / US_PER_DAY = now / US_PER_DAY) as ->; [|done].
    symmetry. apply (Z.div_unique_pos _ _ _ (t - now / US_PER_DAY * US_PER_DAY)); lia.
  - intros Hr' E%(inj (app (u "budget:"))). apply date_isoformat_inj in E; [|done..].
    assert (Hn : now + us = (now / US_PER_DAY + 1) * US_PER_DAY) by lia.
    rewrite Hn, Z.div_mul in E by done. lia.
Qed.

(** An alert that is not pending costs nothing: the job never consults the pipeline
    (any other would do the same), so a second run spends no token and writes no second
    verdict; it answers [skipped], or on a database failure of its last try [failed]. *)
Theorem settled_alert_costs_nothing {W} {PG : Postgres W} {LZ : LocalZone} {SH : Sha256}
    {AC : AlertCodec} {UT : UuidText} {QU : Queue W} {FR : FloatRepr} {DL : Deadline W}
    {RC : RedisCounters W} (p1 p2 : Pipeline W) settings raw text id row (d : db W) o d' :
  parse_uuid text = Some id -> policy_ok settings -> 1 <= job_try_of raw ->
  find_alert id (durable d) = Some row -> a_status row <> pending ->
  triage_alert_job p1 settings raw text d = (o, d') ->
  triage_alert_job p2 settings raw text d = (o, d') /\
  (durable d' = durable d \/ durable d' = update_status id failed (durable d)) /\
  (forall r, o = Ret r -> r = JSkipped \/ r = JFailed).
Proof.
  intros Hid Hp Hj Hrow Hst E. split.
  - rewrite <- E. unfold triage_alert_job, run_attempt, in_session, wait_for, try_except, mbind, M_bind.
    rewrite Hid. set (d0 := Db (outer d) (durable d) (durable d) false).
    assert (Hatt : forall p, triage_attempt p id d0 =
      (_ ← get_alert_for_update str_uuid id; _ ← rollback; mret skipped) d0).
    { intros p. unfold triage_attempt, mbind, M_bind.
      destruct (get_alert_for_update str_uuid id d0) as [[row'|e] d1] eqn:E1; [|done].
      apply get_alert_spec in E1 as [_ E1]. specialize (E1 row' eq_refl). simpl in E1. simplify_eq.
      by rewrite bool_decide_true. }
    by rewrite !Hatt.
  - apply (triage_alert_job_cases _ _ _ _ _ _ _ _ Hid) in E as (o1 & d1 & E1 & Hd & Ho).
    apply run_attempt_spec in E1 as ((ts1 & Heff & Hts) & _ & Hres); [|done..].
    assert (Hno : forall ts' vid out, ~ committed p1 id (durable d) ts' vid out).
    { intros ts' vid out (row' & a & d2 & d3 & Hrow' & Hpend & _). congruence. }
    assert (ts1 = durable d) as -> by (by destruct Heff as [?|(vid & out & ?%Hno)]).
    rewrite Hd. split; [destruct Hts as [->|[_ ->]]; auto|]. intros r Hr.
    assert (Hh : result_holds p1 id (durable d) (durable d1) r).
    { destruct o1 as [[a|j]|e]; [by rewrite (Ho r Hr)| |destruct Ho; congruence].
      by assert (j = r) as <- by congruence. }
    destruct r; simpl in Hh; [by destruct Hh as (vid & out & ?%Hno)|by right|by left|].
    destruct Hh as [_ Hn]. congruence.
Qed.

(** ** One pending alert *)

Module Toy.
Export Database.Toy.
#[export] Existing Instance toy_float_repr.
#[export] Instance uuids : UuidText := {
  str_uuid i := [i];
  parse_uuid s := match s with [i] => Some i | _ => None end;
  parse_str_uuid i := eq_refl
}.
#[export] Instance queue : Queue world := {
  enqueue_job _ _ _ _ := mret (Some tt);
  redis_publish _ _ := raise RedisError
}.
#[export] Instance deadline : Deadline world := fun _ => false.
#[export] Instance counters : RedisCounters world := {
  utc_now w := (86399999999, w);
  counter_get _ := mret None;
  incrby_expire _ n _ := mret n
}.

Definition outcome_ok : TriageOutcome :=
  {| o_verdict := Verdict.toy_verdict; o_model := u "m"; prompt_version := u "v1";
     o_input_tokens := 10; o_output_tokens := 5; o_cost_usd := 3; o_latency_ms := 9;
     retried := false;
     o_tool_calls := [{| seq := 0; tool_name := u "t"; arguments := []; result := [];
                         tc_latency_ms := 1 |}];
     model_primary := None; escalated_model := false |}.

Program Definition answers : Pipeline world := {| pipeline_run _ := mret outcome_ok |}.
Next Obligation. done. Qed.
Next Obligation. done. Qed.
Definition refusal : exn := BudgetExceededError (u "spent") 10 10.
Program Definition refuses : Pipeline world := {| pipeline_run _ := raise refusal |}.
Next Obligation. done. Qed.
Next Obligation. intros a d e [= <-]. done. Qed.

Definition settings : JobSettings :=
  {| triage_job_max_tries := 3; triage_job_backoff_base_s := 2; triage_job_backoff_max_s := 60 |}.

(** Alert 7, inserted and committed. *)
Definition d0 : db world := (( _ ← insert_alert session_alert; commit) start).2.
Definition d1 : db world := (triage_alert_job answers settings None [7] d0).2.
Lemma answered : triage_alert_job answers settings None [7] d0 = (Ret JTriaged, d1).
Proof. vm_compute. reflexivity. Qed.
Definition settled : AlertRow :=
  default {| a_id := 0; a_fingerprint := []; a_source := []; a_event_time := Datetime 0 None;
             a_received_at := 0; a_raw := []; a_status := pending |} (find_alert 7 (durable d1)).
Lemma settled_found : find_alert 7 (durable d1) = Some settled /\ a_status settled <> pending.
Proof. split; [vm_compute; reflexivity|vm_compute; discriminate]. Qed.
Definition d2 : db world := (guarded_attempt refuses 7 d0).2.
Lemma refused_attempt : guarded_attempt refuses 7 d0 = (Raise refusal, d2).
Proof. vm_compute. reflexivity. Qed.
Lemma settings_ok : policy_ok settings.
Proof. unfold policy_ok. simpl. lia. Qed.
End Toy.
Import Toy.

(** A dead Redis at publication: the verdict is committed all the same. *)
Lemma triage_alert_job_truthful_witness :
  exists vid out, committed answers 7 (durable d0) (durable Toy.d1) vid out.
Proof.
  destruct (triage_alert_job_truthful (UT := uuids) answers Toy.settings None [7] 7 d0 (Ret JTriaged) Toy.d1
              ltac:(reflexivity) settings_ok ltac:(simpl; lia) answered) as (_ & _ & _ & Hr).
  exact (Hr JTriaged eq_refl).
Defined.

(** Refused at its last try and beyond, the alert stays pending. *)
Lemma job_retry_policy_witness :
  let '(o, d') := triage_alert_job refuses Toy.settings (Some 4) [7] d0 in
  exists s, o = Raise (Retry s) /\ durable d' = durable d0.
Proof.
  destruct (triage_alert_job refuses Toy.settings (Some 4) [7] d0) as [o d'] eqn:E.
  destruct (job_retry_policy (UT := uuids) refuses Toy.settings 7 4 [7] d0 refusal d2 o d'
              ltac:(reflexivity) settings_ok ltac:(lia) refused_attempt eq_refl eq_refl E) as (Hb & _ & _).
  destruct (Hb eq_refl) as [Hd Hs]. eexists. split; [apply Hs; reflexivity|].
  rewrite Hd. vm_compute. reflexivity.
Defined.

(** One microsecond before midnight. *)
Lemma deferral_reaches_counter_reset_witness :
  us_until_next_utc_day 86399999999 = 1 /\ day_key 86400000000 <> day_key 86399999999.
Proof.
  destruct (deferral_reaches_counter_reset 86399999999 (1 * fone / US_PER_SECOND))
    as (_ & _ & _ & Hk); [reflexivity|vm_compute; split; discriminate|].
  split; [reflexivity|]. apply Hk. vm_compute. split; discriminate.
Defined.

Lemma settled_alert_costs_nothing_witness :
  triage_alert_job refuses Toy.settings None [7] Toy.d1 =
  triage_alert_job answers Toy.settings None [7] Toy.d1.
Proof.
  destruct (triage_alert_job answers Toy.settings None [7] Toy.d1) as [o d'] eqn:E.
  destruct (settled_alert_costs_nothing (UT := uuids) answers refuses Toy.settings None [7] 7
              settled Toy.d1 o d' ltac:(reflexivity) settings_ok ltac:(simpl; lia)
              (proj1 settled_found) (proj2 settled_found) E) as [H _].
  exact H.
Defined.
