(* ===== verification/Stream.v ===== *)
(** * Stream: server-sent events

    [api/routes/stream.py] and [core/schemas/stream.py]: the validated event, its frame,
    the gate that bounds the clients, the generator with its clean-up, and the route.
    Redis's pub/sub client, the consumer at the other end of a [yield] and pydantic's
    coercion and JSON serializer are parameters.  The event stream a browser reads is
    [sse], a reference client for the frames. *)

From S2P Require Import Prelude Errors Cache Json Datetime Text JsonParse Schemas Policy Database Job Tools.
#[local] Open Scope Z_scope.

(** ** [core/schemas/stream.py] *)

(** The coerced fields of a message, and the names of its extra keys. *)
Record event_fields : Type := {
  f_alert_id : uuid;
  f_verdict_id : uuid;
  f_severity : Z;
  f_category : pystr;
  f_escalate : bool;
  f_summary : pystr;
  f_extra : list pystr
}.

Record VerdictCreatedEvent : Type := {
  e_alert_id : uuid;
  e_verdict_id : uuid;
  e_severity : Z;
  e_category : Verdict.VerdictCategory;
  e_escalate : bool;
  e_summary : pystr
}.

(** [extra="forbid"] and the [Field] constraints. *)
Definition validate_event (f : event_fields) : outcome exn VerdictCreatedEvent :=
  match dget (f_category f) Verdict.category_literals with
  | None => Raise ValidationError
  | Some c =>
      if bool_decide (f_extra f = [])
         && (1 <=? f_severity f) && (f_severity f <=? 5)
         && (py_len (f_summary f) <=? REASONING_EXCERPT_CHARS)
      then Ret {| e_alert_id := f_alert_id f; e_verdict_id := f_verdict_id f;
                  e_severity := f_severity f; e_category := c; e_escalate := f_escalate f;
                  e_summary := f_summary f |}
      else Raise ValidationError
  end.

(** An event as the object its six keys make. *)
Definition event_json `{UuidText} (e : VerdictCreatedEvent) : jobj :=
  [(u "alert_id", JStr (str_uuid (e_alert_id e))); (u "verdict_id", JStr (str_uuid (e_verdict_id e)));
   (u "severity", JInt (e_severity e)); (u "category", JStr (Verdict.category_str (e_category e)));
   (u "escalate", JBool (e_escalate e)); (u "summary", JStr (e_summary e))].

Definition fields_of (e : VerdictCreatedEvent) : event_fields :=
  {| f_alert_id := e_alert_id e; f_verdict_id := e_verdict_id e; f_severity := e_severity e;
     f_category := Verdict.category_str (e_category e); f_escalate := e_escalate e;
     f_summary := e_summary e; f_extra := [] |}.

(** Pydantic's coercion of a JSON value, [None] for a [ValidationError], and its
    [model_dump_json]: values of the declared types coerce to themselves, and the dump is
    a JSON text without raw control characters. *)
Class EventModel `{UuidText} : Type := {
  event_coerce : json -> option event_fields;
  model_dump_json : VerdictCreatedEvent -> pystr;
  event_coerce_typed : forall e, event_coerce (JObj (event_json e)) = Some (fields_of e);
  model_dump_json_printed : forall e, Forall (fun c => 32 <= c) (model_dump_json e);
  model_dump_json_nonempty : forall e, model_dump_json e <> []
}.

(** ** Frames *)

Definition HEARTBEAT_COMMENT : pystr := u "heartbeat".
Definition VERDICT_CREATED_EVENT : pystr := u "verdict.created".
Definition SSE_HEADERS : list (pystr * pystr) :=
  [(u "Cache-Control", u "no-cache, no-transform"); (u "X-Accel-Buffering", u "no")].

Definition format_sse (event data : pystr) : pystr :=
  u "event: " ++ event ++ [10] ++ u "data: " ++ data ++ [10; 10].
Definition format_comment (text : pystr) : pystr := u ": " ++ text ++ [10; 10].

#[global] Arguments format_sse : simpl never.
#[global] Arguments format_comment : simpl never.

(** [message["data"]]. *)
Inductive raw_message : Type := RStr (s : pystr) | RBytes (b : pybytes).

Section render.
Context {UT : UuidText} {EM : EventModel} {JL : JsonLoads} {JB : JsonLoadsBytes}.

Definition raw_loads (raw : raw_message) : option json :=
  match raw with RStr s => json_loads s | RBytes b => json_loads_bytes b end.

Definition render_verdict_event (raw : raw_message) : option pystr :=
  match raw_loads raw with
  | None => None
  | Some data =>
      match event_coerce data with
      | None => None
      | Some f =>
          match validate_event f with
          | Ret event => Some (format_sse VERDICT_CREATED_EVENT (model_dump_json event))
          | Raise _ => None
          end
      end
  end.
End render.

(** ** A reference client *)

(** The complete lines of a stream; a line ends at LF, CR or CRLF ([cr] when the previous
    character was a CR that ended one). *)
Fixpoint sse_lines (cr : bool) (line : pystr) (s : pystr) : list pystr :=
  match s with
  | [] => []
  | c :: s' =>
      if (c =? 10) && cr then sse_lines false [] s'
      else if c =? 10 then rev line :: sse_lines false [] s'
      else if c =? 13 then rev line :: sse_lines true [] s'
      else sse_lines false (c :: line) s'
  end.

(** The field name and the value of a line, one space after the colon dropped. *)
Fixpoint split_field (line : pystr) : pystr * pystr :=
  match line with
  | [] => ([], [])
  | c :: rest =>
      if c =? 58 then ([], match rest with 32 :: v => v | _ => rest end)
      else let '(name, value) := split_field rest in (c :: name, value)
  end.

(** Events dispatched at blank lines: the event type and the data buffer. *)
Fixpoint sse_dispatch (event data : pystr) (lines : list pystr) : list (pystr * pystr) :=
  match lines with
  | [] => []
  | [] :: ls =>
      if bool_decide (data = []) then sse_dispatch [] [] ls
      else (if bool_decide (event = []) then u "message" else event,
            take (length data - 1) data) :: sse_dispatch [] [] ls
  | line :: ls =>
      let '(name, value) := split_field line in
      if bool_decide (name = u "event") then sse_dispatch value data ls
      else if bool_decide (name = u "data") then sse_dispatch event (data ++ value ++ [10]) ls
      else sse_dispatch event data ls
  end.

Definition sse (s : pystr) : list (pystr * pystr) := sse_dispatch [] [] (sse_lines false [] s).
#[global] Arguments sse : simpl never.

(** *** Frames read back *)

Definition one_line (s : pystr) : Prop := Forall (fun c => c <> 10 /\ c <> 13) s.

Lemma one_line_check s :
  forallb (fun c => negb (c =? 10) && negb (c =? 13)) s = true -> one_line s.
Proof.
  rewrite forallb_forall. intros H. apply Forall_forall. intros c Hc%list_elem_of_In%H.
  apply andb_prop in Hc as [?%negb_true_iff%Z.eqb_neq ?%negb_true_iff%Z.eqb_neq]. done.
Qed.

Lemma sse_lines_step cr s acc rest :
  one_line s -> s <> [] \/ cr = false ->
  sse_lines cr acc (s ++ 10 :: rest) = (rev acc ++ s) :: sse_lines false [] rest.
Proof.
  intros Hs. revert cr acc. induction Hs as [|c s [Hn Hr] _ IH]; intros cr acc Hc; simpl.
  - destruct Hc as [| ->]; [done|]. simpl. by rewrite app_nil_r.
  - rewrite (proj2 (Z.eqb_neq c 10)), (proj2 (Z.eqb_neq c 13)) by done. simpl.
    rewrite IH by auto. simpl. by rewrite <- app_assoc.
Qed.

Lemma sse_line s rest :
  one_line s -> sse_lines false [] (s ++ 10 :: rest) = s :: sse_lines false [] rest.
Proof. intros Hs. rewrite sse_lines_step by auto. done. Qed.

Lemma one_line_printed s : Forall (fun c => 32 <= c) s -> one_line s.
Proof. intros H. eapply Forall_impl; [done|]. simpl. lia. Qed.

(** One frame is one event, and the stream goes on after it. *)
Lemma sse_format_sse event data rest :
  one_line event -> one_line data -> event <> [] ->
  sse (format_sse event data ++ rest) = (event, data) :: sse rest.
Proof.
  intros He Hd Hne. unfold sse, format_sse. rewrite <- !app_assoc. cbn [app].
  change (u "event: ") with (101 :: 118 :: 101 :: 110 :: 116 :: 58 :: 32 :: []).
  change (u "data: ") with (100 :: 97 :: 116 :: 97 :: 58 :: 32 :: []).
  rewrite app_assoc, sse_line by (apply Forall_app; split; [by apply one_line_check|done]).
  rewrite app_assoc, sse_line by (apply Forall_app; split; [by apply one_line_check|done]).
  change (10 :: rest) with ([] ++ 10 :: rest). rewrite sse_line by constructor.
  cbn -[bool_decide]. rewrite !bool_decide_true by done. rewrite bool_decide_false by done.
  rewrite bool_decide_true by done. rewrite bool_decide_false by (by destruct data).
  rewrite bool_decide_false by done. f_equal. f_equal.
  rewrite length_app. simpl. rewrite Nat.add_sub. by rewrite take_app_length.
Qed.

Lemma sse_format_comment text rest :
  one_line text -> sse (format_comment text ++ rest) = sse rest.
Proof.
  intros Ht. unfold sse, format_comment. rewrite <- !app_assoc. cbn [app].
  change (u ": ") with (58 :: 32 :: []).
  rewrite app_assoc, sse_line by (apply Forall_app; split; [by apply one_line_check|done]).
  change (10 :: rest) with ([] ++ 10 :: rest). rewrite sse_line by constructor.
  cbn -[bool_decide]. by rewrite !bool_decide_false by done.
Qed.

(** ** [StreamGate] *)

Record StreamGate : Type := { limit : Z; active : Z }.

Definition acquire (g : StreamGate) : bool * StreamGate :=
  if limit g <=? active g then (false, g)
  else (true, {| limit := limit g; active := active g + 1 |}).

Definition release (g : StreamGate) : StreamGate :=
  {| limit := limit g; active := Z.max 0 (active g - 1) |}.

(** ** The generator *)

(** [redis.exceptions.TimeoutError], the subclass of [RedisError] caught first. *)
Definition RedisTimeoutError : exn := OtherException (u "redis.exceptions.TimeoutError").

(** The pub/sub object; [deliver] is what happens at a [yield]: the consumer asks for the
    next chunk, or closes the generator there ([GeneratorExit], [CancelledError]), and
    [cancelled] is whether the task is cancelled while it awaits the shielded close. *)
Class PubSub (W : Type) : Type := {
  pubsub : M exn W unit;
  subscribe : pystr -> M exn W unit;
  get_message : float -> M exn W (option raw_message);
  unsubscribe : M exn W unit;
  aclose : M exn W unit;
  deliver : pystr -> M exn W unit;
  cancelled : W -> bool
}.

(** What one [get_message] answered, for the statements: the reads so far. *)
Inductive read : Type := RIdle | RTimeout | RMessage (raw : raw_message).

Record stream (W : Type) : Type := Stream {
  world : W;
  gate : StreamGate;
  sent : list pystr;
  reads_log : list read
}.
Arguments Stream {W}. Arguments world {W}. Arguments gate {W}. Arguments sent {W}.
Arguments reads_log {W}.

(** How a generator stands when its consumer stops asking: suspended at a [yield], or at
    its end. *)
Inductive progress : Type := Suspended | Returned.

Section generator.
Context {UT : UuidText} {EM : EventModel} {JL : JsonLoads} {JB : JsonLoadsBytes}.
Context {W : Type} {PS : PubSub W}.
Variable heartbeat_s : float.

Definition on_world {A} (m : M exn W A) : M exn (stream W) A := fun s =>
  let '(o, w) := m (world s) in (o, Stream w (gate s) (sent s) (reads_log s)).

Definition emit (chunk : pystr) : M exn (stream W) unit := fun s =>
  on_world (deliver chunk) (Stream (world s) (gate s) (sent s ++ [chunk]) (reads_log s)).

Definition log_read (r : read) : M exn (stream W) unit := fun s =>
  (Ret tt, Stream (world s) (gate s) (sent s) (reads_log s ++ [r])).

(** [m] with its [finally]: a failure of the clean-up replaces the outcome of [m], and a
    suspended body has not reached it. *)
Definition finally {S} (m : M exn S progress) (cleanup : M exn S unit) : M exn S progress := fun s =>
  match m s with
  | (Ret Suspended, s') => (Ret Suspended, s')
  | (o, s') => match cleanup s' with
               | (Ret _, s'') => (o, s'')
               | (Raise e, s'') => (Raise e, s'')
               end
  end.

(** [None] ends the stream. *)
Definition next_message : M exn (stream W) (option read) :=
  try_except
    (message ← on_world (get_message heartbeat_s);
     mret (Some (match message with Some raw => RMessage raw | None => RIdle end)))
    (fun e => if bool_decide (exn_name e = exn_name RedisTimeoutError) then Some (mret (Some RTimeout))
              else if is_redis_failure e then Some (mret None)
              else None).

(** One turn of [while True]: [false] ends the generator. *)
Definition turn : M exn (stream W) bool :=
  r ← next_message;
  match r with
  | None => mret false
  | Some r =>
      _ ← log_read r;
      match r with
      | RIdle | RTimeout => _ ← emit (format_comment HEARTBEAT_COMMENT); mret true
      | RMessage raw =>
          match render_verdict_event raw with
          | None => mret true
          | Some rendered => _ ← emit rendered; mret true
          end
      end
  end.

Fixpoint turns (n : nat) : M exn (stream W) progress :=
  match n with
  | O => mret Suspended
  | S n' => more ← turn; if (more : bool) then turns n' else mret Returned
  end.

Definition _close_pubsub : M exn (stream W) unit := fun s =>
  match on_world unsubscribe s with
  | (o, s') => match on_world aclose s' with
               | (Ret _, s'') => (o, s'')
               | (Raise e, s'') => (Raise e, s'')
               end
  end.

(** [asyncio.shield]: the close runs to its end; a cancellation of the awaiting task
    replaces its outcome. *)
Definition shielded (m : M exn (stream W) unit) : M exn (stream W) unit := fun s =>
  let '(o, s') := m s in
  (if cancelled (world s') then Raise CancelledError else o, s').

Definition release_gate (wired : bool) : M exn (stream W) unit := fun s =>
  (Ret tt, if wired then Stream (world s) (release (gate s)) (sent s) (reads_log s) else s).

(** [n] turns of the generator; [wired] is whether it was given the gate. *)
Definition verdict_event_stream (wired : bool) (n : nat) : M exn (stream W) progress :=
  finally
    (_ ← on_world pubsub;
     finally (_ ← on_world (subscribe VERDICT_CREATED_CHANNEL); turns n)
             (shielded _close_pubsub))
    (release_gate wired).

(** ** The route *)

(** [get_redis]: whether a client is wired. *)
Definition get_redis (redis : bool) : outcome exn unit :=
  if redis then Ret tt else Raise (StreamUnavailableError (u "event stream unavailable")).

Record StreamingResponse : Type := { media_type : pystr; response_headers : list (pystr * pystr) }.

Definition stream_verdicts (redis : bool) : M exn StreamGate StreamingResponse := fun g =>
  match get_redis redis with
  | Raise e => (Raise e, g)
  | Ret _ =>
      match acquire g with
      | (false, g') => (Raise (RateLimitedError (u "too many concurrent stream clients") None), g')
      | (true, g') => (Ret {| media_type := u "text/event-stream"; response_headers := SSE_HEADERS |}, g')
      end
  end.
End generator.

(** ** Facts about the generator *)

Section stream_facts.
Context {UT : UuidText} {EM : EventModel} {JL : JsonLoads} {JB : JsonLoadsBytes}.
Context {W : Type} {PS : PubSub W}.
Variable heartbeat_s : float.

(** What a read puts on the wire, and what the browser makes of it. *)
Definition chunk_of (r : read) : option pystr :=
  match r with
  | RIdle | RTimeout => Some (format_comment HEARTBEAT_COMMENT)
  | RMessage raw => render_verdict_event raw
  end.

(** A message that is a valid event. *)
Definition decoded_event (raw : raw_message) : option VerdictCreatedEvent :=
  data ← raw_loads raw;
  f ← event_coerce data;
  match validate_event f with Ret e => Some e | Raise _ => None end.

Definition events_of (log : list read) : list VerdictCreatedEvent :=
  omap (fun r => match r with RMessage raw => decoded_event raw | _ => None end) log.

Lemma render_eq raw :
  render_verdict_event raw =
    (fun e => format_sse VERDICT_CREATED_EVENT (model_dump_json e)) <$> decoded_event raw.
Proof.
  unfold render_verdict_event, decoded_event. destruct (raw_loads raw) as [d|]; [|done]. simpl.
  destruct (event_coerce d) as [f|]; [|done]. simpl. by destruct (validate_event f).
Qed.

(** The chunks of a log parse as its events. *)
Lemma sse_chunks log :
  sse (concat (omap chunk_of log)) =
    map (fun e => (VERDICT_CREATED_EVENT, model_dump_json e)) (events_of log).
Proof.
  unfold events_of. induction log as [|r log IH]; [done|].
  assert (Hbeat : sse (format_comment HEARTBEAT_COMMENT ++ concat (omap chunk_of log)) =
                  map (fun e => (VERDICT_CREATED_EVENT, model_dump_json e)) (events_of log)).
  { rewrite sse_format_comment; [exact IH|]. by apply one_line_check. }
  destruct r as [| |raw]; [exact Hbeat|exact Hbeat|].
  cbn [omap list_omap chunk_of]. rewrite render_eq.
  destruct (decoded_event raw) as [e|]; cbn [fmap option_fmap option_map concat map]; [|exact IH].
  rewrite sse_format_sse; [by rewrite IH| | |done].
  - by apply one_line_check.
  - apply one_line_printed, model_dump_json_printed.
Qed.

(** What the generator keeps true of itself: the wire is the log's chunks. *)
Definition faithful (s : stream W) : Prop := sent s = omap chunk_of (reads_log s).

Lemma on_world_fields {A} (m : M exn W A) s o s' :
  on_world m s = (o, s') -> gate s' = gate s /\ sent s' = sent s /\ reads_log s' = reads_log s.
Proof. unfold on_world. destruct (m (world s)). by intros [= <- <-]. Qed.

(** A piece of the generator that leaves the gate alone and the wire faithful. *)
Definition keeps {A} (m : M exn (stream W) A) : Prop := forall s o s',
  faithful s -> m s = (o, s') -> gate s' = gate s /\ faithful s'.

Lemma stream_on_world {A} (m : M exn W A) : keeps (on_world m).
Proof.
  intros s o s' Hs (Hg & Hsent & Hl)%on_world_fields. unfold faithful. by rewrite Hsent, Hl.
Qed.

Lemma keeps_ret_stream {A} (a : A) : keeps (mret a).
Proof. by intros s o s' Hs [= <- <-]. Qed.

Lemma keeps_bind_stream {A B} (m : M exn (stream W) A) (f : A -> M exn (stream W) B) :
  keeps m -> (forall a, keeps (f a)) -> keeps (a ← m; f a).
Proof.
  intros Hm Hf s o s' Hs. unfold mbind, M_bind. destruct (m s) as [[a|e] s1] eqn:E1.
  - apply Hm in E1 as [Hg1 H1]; [|done]. intros E2. apply Hf in E2 as [Hg2 H2]; [|done].
    split; [congruence|done].
  - intros [= _ <-]. by apply Hm in E1.
Qed.

Lemma next_message_keeps : keeps (next_message heartbeat_s).
Proof.
  intros s o s' Hs. unfold next_message, try_except, mbind, M_bind, mret, M_ret.
  destruct (on_world _ s) as [[m|e] s1] eqn:E; apply stream_on_world in E as [Hg Hf]; try done.
  - by intros [= _ <-].
  - repeat case_match; intros; simplify_eq; done.
Qed.

(** A read and its chunk go together. *)
Lemma emit_read r chunk s o s' :
  faithful s -> chunk_of r = Some chunk ->
  emit chunk (Stream (world s) (gate s) (sent s) (reads_log s ++ [r])) = (o, s') ->
  gate s' = gate s /\ faithful s'.
Proof.
  intros Hs Hc (Hg & Hsent & Hl)%on_world_fields. split; [done|].
  unfold faithful. rewrite Hsent, Hl. simpl. rewrite omap_app, Hs. simpl. by rewrite Hc.
Qed.

Lemma turn_keeps : keeps (turn heartbeat_s).
Proof.
  apply keeps_bind_stream; [apply next_message_keeps|]. intros [r|]; [|apply keeps_ret_stream].
  intros s o s' Hs. unfold mbind, M_bind, log_read, mret, M_ret.
  destruct (chunk_of r) as [chunk|] eqn:Hc.
  - assert (Hgo : forall (b : bool),
      match emit chunk (Stream (world s) (gate s) (sent s) (reads_log s ++ [r])) with
      | (Ret _, s1) => (Ret b, s1)
      | (Raise e, s1) => (Raise e, s1)
      end = (o, s') -> gate s' = gate s /\ faithful s').
    { intros b. destruct (emit _ _) as [[[]|e] s1] eqn:E; apply (emit_read r) in E as [Hg Hf];
        try done; by intros [= _ <-]. }
    destruct r as [| |raw]; simpl in Hc; [injection Hc as <-; apply Hgo..|].
    rewrite Hc. apply Hgo.
  - destruct r as [| |raw]; simpl in Hc; [done|done|]. rewrite Hc. intros [= _ <-].
    split; [done|]. unfold faithful in *. simpl. rewrite omap_app, Hs. simpl. rewrite Hc.
    by rewrite app_nil_r.
Qed.

Lemma turns_keeps n : keeps (turns heartbeat_s n).
Proof.
  induction n as [|n IH]; [apply keeps_ret_stream|].
  apply keeps_bind_stream; [apply turn_keeps|]. intros []; [done|apply keeps_ret_stream].
Qed.

Lemma shielded_close_keeps : keeps (shielded _close_pubsub).
Proof.
  intros s o s' Hs. unfold shielded, _close_pubsub.
  destruct (on_world unsubscribe s) as [o1 s1] eqn:E1.
  apply stream_on_world in E1 as [Hg1 H1]; [|done].
  destruct (on_world aclose s1) as [[[]|e] s2] eqn:E2; apply stream_on_world in E2 as [Hg2 H2];
    try done; intros [= _ <-]; (split; [congruence|done]).
Qed.

Lemma finally_keeps m c : keeps m -> keeps c -> keeps (finally m c).
Proof.
  intros Hm Hc s o s' Hs. unfold finally. destruct (m s) as [o1 s1] eqn:E1.
  apply Hm in E1 as [Hg1 H1]; [|done].
  assert (Hfin : match c s1 with (Ret _, s'') => (o1, s'') | (Raise e, s'') => (Raise e, s'') end
                 = (o, s') -> gate s' = gate s /\ faithful s').
  { destruct (c s1) as [[[]|e] s2] eqn:E2; apply Hc in E2 as [Hg2 H2]; try done;
      intros [= _ <-]; (split; [congruence|done]). }
  destruct o1 as [[]|]; [|exact Hfin..]. by intros [= _ <-].
Qed.

Definition suspended (o : outcome exn progress) : bool :=
  match o with Ret Suspended => true | _ => false end.

(** The body under the gate's [finally]. *)
Definition gated (n : nat) : M exn (stream W) progress :=
  _ ← on_world pubsub;
  finally (_ ← on_world (subscribe VERDICT_CREATED_CHANNEL); turns heartbeat_s n)
          (shielded _close_pubsub).

Lemma gated_keeps n : keeps (gated n).
Proof.
  apply keeps_bind_stream; [apply stream_on_world|intros _].
  apply finally_keeps; [|apply shielded_close_keeps].
  apply keeps_bind_stream; [apply stream_on_world|intros _; apply turns_keeps].
Qed.

(** Wherever the generator stands: suspended with the slot, or finished with the slot
    given back, once. *)
Lemma verdict_event_stream_spec wired n s o s' :
  faithful s -> verdict_event_stream heartbeat_s wired n s = (o, s') ->
  faithful s' /\ gate s' = (if wired && negb (suspended o) then release (gate s) else gate s).
Proof.
  intros Hs. unfold verdict_event_stream. fold (gated n). unfold finally at 1.
  destruct (gated n s) as [o1 s1] eqn:E1. apply gated_keeps in E1 as [Hg Hf]; [|done].
  unfold release_gate. rewrite <- Hg.
  destruct o1 as [[]|]; intros [= <- <-]; destruct wired; done.
Qed.
(** C24: nothing is forged and nothing is lost on the wire: however far the generator got and
    however it ended, a browser reading its chunks sees exactly one event per valid message
    read so far, in order, each with that message's re-serialized fields, and no event for
    a heartbeat or a malformed message; the slot is given back exactly when it finished. *)
Theorem stream_faithful wired n w g o s' :
  verdict_event_stream heartbeat_s wired n (Stream w g [] []) = (o, s') ->
  sse (concat (sent s')) =
    map (fun e => (VERDICT_CREATED_EVENT, model_dump_json e)) (events_of (reads_log s')) /\
  gate s' = (if wired && negb (suspended o) then release g else g).
Proof.
  intros [Hf Hg]%verdict_event_stream_spec; [|done]. split; [|done].
  by rewrite Hf, sse_chunks.
Qed.
End stream_facts.

(** ** From the worker's publication to the browser *)

Section publication.
Context {UT : UuidText} {EM : EventModel} {JB : JsonLoadsBytes} {FR : FloatRepr} {FP : FloatParse}.

Lemma dumps_ascii j text :
  dumps default_args j = Ret text -> Forall (fun c => 32 <= c <= 126) text.
Proof.
  unfold dumps. destruct (serializable j); [|done]. intros E.
  assert (encode default_args 0 j = text) as <- by congruence.
  apply encode_ascii; [done|done|..]; repeat constructor; done.
Qed.

(** The event the worker announces for a verdict. *)
Definition announced (aid vid : uuid) (v : Verdict.Verdict) : VerdictCreatedEvent :=
  {| e_alert_id := aid; e_verdict_id := vid; e_severity := Verdict.severity v;
     e_category := Verdict.category v; e_escalate := Verdict.escalate v;
     e_summary := reasoning_excerpt (Verdict.reasoning v) |}.

Lemma announced_json aid vid v :
  event_json (announced aid vid v) = verdict_created_payload aid vid v.
Proof. done. Qed.

Lemma text_ok_take n s : text_ok s = true -> text_ok (take n s) = true.
Proof.
  unfold text_ok. rewrite !forallb_forall. intros H c Hc%list_elem_of_In.
  apply H, list_elem_of_In. by eapply elem_of_take in Hc as (i & Hi%list_elem_of_lookup_2 & _).
Qed.

Lemma payload_printable aid vid v :
  Verdict.wf v -> text_ok (Verdict.reasoning v) = true ->
  text_ok (str_uuid aid) = true -> text_ok (str_uuid vid) = true ->
  printable (JObj (verdict_created_payload aid vid v)) = true.
Proof.
  intros (Hs & _) Hr Ha Hv. unfold verdict_created_payload.
  assert (Hint : (int_digits (Verdict.severity v) <=? MAX_INT_DIGITS) = true).
  { apply Z.leb_le. transitivity 1; [|done]. apply int_digits_bound; lia. }
  assert (Hsum : text_ok (reasoning_excerpt (Verdict.reasoning v)) = true)
    by (by apply text_ok_take).
  assert (Hcat : text_ok (Verdict.category_str (Verdict.category v)) = true)
    by (by destruct (Verdict.category v)).
  cbn [printable forallb fst snd]. rewrite Ha, Hv, Hint, Hcat, Hsum. vm_compute. done.
Qed.

Lemma announced_valid aid vid v :
  Verdict.wf v -> validate_event (fields_of (announced aid vid v)) = Ret (announced aid vid v).
Proof.
  intros (Hs & _). unfold validate_event, fields_of. cbn [f_category].
  rewrite Verdict.category_literals_str. simpl.
  assert (Hlen : (py_len (reasoning_excerpt (Verdict.reasoning v)) <=? REASONING_EXCERPT_CHARS) = true).
  { unfold reasoning_excerpt, py_take, py_len, REASONING_EXCERPT_CHARS.
    rewrite length_take. apply Z.leb_le. lia. }
  rewrite Hlen, !(proj2 (Z.leb_le _ _)) by lia. done.
Qed.

(** C25: what the worker publishes, the browser receives: the message of a committed verdict,
    as text or as the bytes Redis delivers, renders to one frame, which the client reads as
    the one [verdict.created] event of that alert, verdict, severity, category and
    escalation, with the first 160 characters of the reasoning. *)
Theorem published_event_reaches_browser aid vid v text raw :
  (forall s, Forall (fun c => 32 <= c <= 126) s -> json_loads_bytes s = loads s) ->
  Verdict.wf v -> text_ok (Verdict.reasoning v) = true ->
  text_ok (str_uuid aid) = true -> text_ok (str_uuid vid) = true ->
  dumps default_args (JObj (verdict_created_payload aid vid v)) = Ret text ->
  raw = RStr text \/ raw = RBytes text ->
  exists frame, render_verdict_event (JL := stdlib_loads) raw = Some frame /\
    sse frame = [(VERDICT_CREATED_EVENT, model_dump_json (announced aid vid v))].
Proof.
  intros Hascii Hwf Hr Ha Hv Hd Hraw.
  pose proof (payload_printable aid vid v Hwf Hr Ha Hv) as Hp.
  assert (Hload : loads text = Some (JObj (verdict_created_payload aid vid v))).
  { rewrite <- (app_nil_r text).
    rewrite (loads_dumps default_args _ text [] default_separators_ok Hp (List.Forall_nil _) Hd).
    reflexivity. }
  assert (Hchars : Forall (fun c => 32 <= c <= 126) text).
  { by eapply dumps_ascii. }
  assert (Hl : raw_loads (JL := stdlib_loads) raw = Some (JObj (event_json (announced aid vid v)))).
  { rewrite announced_json. destruct Hraw as [-> | ->]; [exact Hload|]. simpl.
    by rewrite Hascii. }
  unfold render_verdict_event. rewrite Hl, event_coerce_typed, announced_valid by done.
  eexists. split; [done|]. rewrite <- (app_nil_r (format_sse _ _)), sse_format_sse; [done| | |done].
  - by apply one_line_check.
  - apply one_line_printed, model_dump_json_printed.
Qed.
End publication.

(** ** The gate and its clients *)

(** A response whose generator has not been entered yet, or one that is streaming. *)
Inductive client : Type := Waiting | Streaming.

(** The gate, the open responses, and the responses dropped before their generator was
    entered: closing a generator that never ran runs none of its code. *)
Record site : Type := Site { site_gate : StreamGate; clients : list client; abandoned : Z }.

Section site.
Context {UT : UuidText} {EM : EventModel} {JL : JsonLoads} {JB : JsonLoadsBytes}.
Context {W : Type} {PS : PubSub W}.
Variable heartbeat_s : float.

(** One event in the process: a request, the first step of a generator, a finished
    generator (which touches the gate last of all), a response dropped before it. *)
Inductive site_step : site -> site -> Prop :=
| SConnect redis g g' r cs a :
    stream_verdicts redis g = (Ret r, g') -> site_step (Site g cs a) (Site g' (Waiting :: cs) a)
| SRefuse redis g g' e cs a :
    stream_verdicts redis g = (Raise e, g') -> site_step (Site g cs a) (Site g' cs a)
| SEnter g l1 l2 a :
    site_step (Site g (l1 ++ Waiting :: l2) a) (Site g (l1 ++ Streaming :: l2) a)
| SFinish g l1 l2 a n w o s' :
    verdict_event_stream heartbeat_s true n (Stream w g [] []) = (o, s') -> suspended o = false ->
    site_step (Site g (l1 ++ Streaming :: l2) a) (Site (gate s') (l1 ++ l2) a)
| SAbandon g l1 l2 a :
    site_step (Site g (l1 ++ Waiting :: l2) a) (Site g (l1 ++ l2) (a + 1)).

Definition site_inv (lim : Z) (s : site) : Prop :=
  limit (site_gate s) = lim /\ 0 <= abandoned s /\
  active (site_gate s) = py_len (clients s) + abandoned s /\ active (site_gate s) <= lim.

Lemma py_len_middle {A} (l1 l2 : list A) x : py_len (l1 ++ x :: l2) = py_len (l1 ++ l2) + 1.
Proof. unfold py_len. rewrite !length_app. simpl. lia. Qed.

Lemma acquire_spec g :
  acquire g = (bool_decide (active g < limit g),
               if bool_decide (active g < limit g)
               then {| limit := limit g; active := active g + 1 |} else g).
Proof.
  unfold acquire. destruct (Z.leb_spec (limit g) (active g)).
  - by rewrite bool_decide_false by lia.
  - by rewrite bool_decide_true by lia.
Qed.

Lemma stream_verdicts_spec redis g :
  (stream_verdicts redis g).2 = (if redis then (acquire g).2 else g) /\
  (is_ret (stream_verdicts redis g).1 = true <-> redis = true /\ active g < limit g).
Proof.
  unfold stream_verdicts, get_redis. destruct redis; [|simpl; naive_solver].
  rewrite acquire_spec. case_bool_decide; simpl; naive_solver.
Qed.

Lemma site_step_inv lim s s' : site_inv lim s -> site_step s s' -> site_inv lim s'.
Proof.
  unfold site_inv. intros (Hl & Ha & Hact & Hle) Hs.
  destruct Hs as [redis g g' r cs a H|redis g g' e cs a H|g l1 l2 a|g l1 l2 a n w o s' H Ho|g l1 l2 a];
    simpl in *.
  - destruct (stream_verdicts_spec redis g) as [H2 Hr]. rewrite H in H2, Hr. simpl in *.
    destruct Hr as [Hr _]. specialize (Hr eq_refl) as [-> Hlt]. rewrite acquire_spec in H2.
    rewrite bool_decide_true in H2 by done. subst. simpl. unfold py_len in *. simpl. lia.
  - destruct (stream_verdicts_spec redis g) as [H2 Hr]. rewrite H in H2, Hr. simpl in *.
    assert (g' = g) as ->; [|done]. subst g'. destruct redis; [|done]. rewrite acquire_spec.
    rewrite bool_decide_false; [done|]. intros Hlt. by pose proof (proj2 Hr (conj eq_refl Hlt)).
  - rewrite py_len_middle in Hact |- *. lia.
  - apply stream_faithful in H as [_ ->]. rewrite Ho. simpl. rewrite py_len_middle in Hact.
    unfold py_len in *. lia.
  - rewrite py_len_middle in Hact. lia.
Qed.

(** C26: the gate's count is exact: from an idle gate, whatever requests arrive and however
    generators end, the number of open streams never exceeds the limit, the count is the
    open streams plus those dropped before their generator was entered, and with none of
    those a request is admitted exactly when fewer streams than the limit are open. *)
Theorem gate_counts_clients lim s :
  0 <= lim -> rtc site_step (Site {| limit := lim; active := 0 |} [] 0) s ->
  site_inv lim s /\ py_len (clients s) <= lim /\
  (abandoned s = 0 ->
     is_ret (stream_verdicts true (site_gate s)).1 = true <-> py_len (clients s) < lim).
Proof.
  intros Hlim Hr. assert (Hinv : site_inv lim s).
  { assert (H0 : site_inv lim (Site {| limit := lim; active := 0 |} [] 0))
      by (unfold site_inv, py_len; simpl; lia).
    revert H0. induction Hr as [|x y z Hs _ IH]; [done|]. intros Hx.
    apply IH. by eapply site_step_inv. }
  destruct Hinv as (Hl & Ha & Hact & Hle). split; [done|]. split; [lia|].
  intros H0. destruct (stream_verdicts_spec true (site_gate s)) as [_ ->].
  rewrite Hl, Hact, H0. split; [intros [_ ?]; lia|intros; split; [done|lia]].
Qed.

(** A response dropped before its generator is entered keeps its slot for good. *)
Lemma abandoned_slot_is_lost lim s s' :
  site_inv lim s -> rtc site_step s s' -> abandoned s <= abandoned s'.
Proof.
  intros _ H. induction H as [|x y z Hs _ IH]; [lia|]. transitivity (abandoned y); [|done].
  destruct Hs; simpl; lia.
Qed.
End site.

(** ** A server of one stream *)

Module Toy.
#[export] Existing Instance JsonParse.Toy.repr.
#[export] Existing Instance JsonParse.Toy.parse.
#[export] Instance bytes : JsonLoadsBytes := fun b => @loads _ JsonParse.Toy.parse b.
#[export] Instance decoder : JsonLoads := @stdlib_loads _ JsonParse.Toy.parse.
#[export] Instance ids : UuidText := {
  str_uuid i := [65 + i mod 26; i];
  parse_uuid s := match s with [_; i] => Some i | _ => None end;
  parse_str_uuid i := eq_refl
}.

(** The plain object is coerced, anything else is refused. *)
Definition toy_coerce (j : json) : option event_fields :=
  match j with
  | JObj [(_, JStr a); (_, JStr v); (_, JInt s); (_, JStr c); (_, JBool e); (_, JStr t)] =>
      match parse_uuid a, parse_uuid v with
      | Some a, Some v => Some {| f_alert_id := a; f_verdict_id := v; f_severity := s;
                                  f_category := c; f_escalate := e; f_summary := t; f_extra := [] |}
      | _, _ => None
      end
  | _ => None
  end.
Definition toy_dump (e : VerdictCreatedEvent) : pystr := encode default_args 0 (JObj (event_json e)).
Lemma toy_dump_printed e : Forall (fun c => 32 <= c) (toy_dump e).
Proof. apply encode_one_line; [done|..]; repeat constructor; done. Qed.
Lemma toy_dump_nonempty e : toy_dump e <> [].
Proof. discriminate. Qed.
#[export] Instance model : EventModel := {
  event_coerce := toy_coerce;
  model_dump_json := toy_dump;
  event_coerce_typed e := eq_refl;
  model_dump_json_printed := toy_dump_printed;
  model_dump_json_nonempty := toy_dump_nonempty
}.

Definition message : raw_message :=
  RBytes (encode default_args 0 (JObj (verdict_created_payload 1 2 Verdict.toy_verdict))).
(** A message, a malformed one, silence, and then Redis goes away. *)
#[export] Instance pubsub_script : PubSub (list (outcome exn (option raw_message))) := {
  pubsub := mret tt;
  subscribe _ := mret tt;
  get_message _ w := match w with o :: w' => (o, w') | [] => (Raise RedisError, []) end;
  unsubscribe := raise RedisError;
  aclose := mret tt;
  deliver _ := mret tt;
  cancelled _ := false
}.
Definition script : list (outcome exn (option raw_message)) :=
  [Ret (Some message); Ret (Some (RStr (u "x"))); Ret None; Raise RedisTimeoutError].
Definition busy : StreamGate := {| limit := 1; active := 1 |}.
Definition run : outcome exn progress * stream _ :=
  verdict_event_stream (flt 15) true 9 (Stream script busy [] []).
Lemma run_eq : verdict_event_stream (flt 15) true 9 (Stream script busy [] []) = (run.1, run.2).
Proof. unfold run. apply surjective_pairing. Qed.
Definition idle : StreamGate := {| limit := 1; active := 0 |}.
Lemma run_ends : suspended run.1 = false /\ gate run.2 = idle.
Proof. vm_compute. split; reflexivity. Qed.
End Toy.
Import Toy.

Lemma stream_faithful_witness :
  length (sse (concat (sent run.2))) = 1%nat /\ active (gate run.2) = 0.
Proof.
  destruct (stream_faithful (flt 15) true 9 script busy run.1 run.2 run_eq) as [Hs Hg].
  rewrite Hs, Hg. vm_compute. split; reflexivity.
Defined.

Lemma published_event_reaches_browser_witness :
  match dumps default_args (JObj (verdict_created_payload 1 2 Verdict.toy_verdict)) with
  | Ret text => exists frame, render_verdict_event (RBytes text) = Some frame /\
      sse frame = [(VERDICT_CREATED_EVENT, model_dump_json (announced 1 2 Verdict.toy_verdict))]
  | Raise _ => False
  end.
Proof.
  destruct (dumps _ _) as [text|e] eqn:E; [|vm_compute in E; discriminate E].
  apply (published_event_reaches_browser 1 2 Verdict.toy_verdict text (RBytes text)).
  - intros s _. reflexivity.
  - apply Verdict.toy_verdict_wf.
  - reflexivity.
  - reflexivity.
  - reflexivity.
  - exact E.
  - right. reflexivity.
Defined.

(** One client connects, streams and is gone; the next is admitted. *)
Lemma one_visit : rtc (site_step (W := list (outcome exn (option raw_message))) (flt 15))
                    (Site idle [] 0) (Site idle [] 0).
Proof.
  eapply rtc_l; [eapply (SConnect _ true); reflexivity|].
  eapply rtc_l; [apply (SEnter _ _ [] [])|].
  destruct run_ends as [He Hg]. eapply rtc_l; [|apply rtc_refl]. rewrite <- Hg.
  exact (SFinish (flt 15) busy [] [] 0 9 script run.1 run.2 run_eq He).
Qed.

Lemma gate_counts_clients_witness : is_ret (stream_verdicts true idle).1 = true.
Proof.
  destruct (gate_counts_clients (flt 15) 1 (Site idle [] 0) ltac:(lia) one_visit) as (_ & _ & H).
  apply (H eq_refl). vm_compute. reflexivity.
Defined.

(** The slot of a response dropped before its first step is never given back. *)
Example abandoned_slot :
  rtc (site_step (W := list (outcome exn (option raw_message))) (flt 15))
    (Site idle [] 0) (Site busy [] 1) /\
  (stream_verdicts true busy).1
    = Raise (RateLimitedError (u "too many concurrent stream clients") None).
Proof.
  split; [|reflexivity].
  eapply rtc_l; [eapply (SConnect _ true); reflexivity|].
  eapply rtc_l; [apply (SAbandon _ _ [] [])|]. apply rtc_refl.
Qed.
