(* ===== verification/Reads.v ===== *)
(** * Reads: the public read side

    [core/services/alerts_read.py], [core/schemas/alerts_read.py],
    [core/schemas/pagination.py] and [api/routes/alerts_read.py]: the alert list with its
    filters, order and pages, the alert detail, the dashboard statistics, and the cache
    in front of the list and the statistics.  Statements of one request read the tables
    of its session; Postgres's [avg] and pydantic's serializer are parameters. *)

From S2P Require Import Prelude Errors Cache Json Datetime Text JsonParse Schemas Llm Budget Policy Database History Job.
#[local] Open Scope Z_scope.
#[local] Existing Instance Verdict.category_eq_dec.

(** ** [core/schemas/alerts_read.py] *)

Definition is_upper (c : Z) : bool := (65 <=? c) && (c <=? 90).

(** [COUNTRY_CODE_RE.fullmatch]. *)
Definition country_code (s : pystr) : bool :=
  match s with [a; b] => is_upper a && is_upper b | _ => false end.

Definition normalize_country (value : option json) : option pystr :=
  match value with
  | Some (JStr s) => if country_code s then Some s else None
  | _ => None
  end.

Record VerdictSummary : Type := {
  vs_severity : Z;
  vs_category : Verdict.VerdictCategory;
  vs_confidence : float;
  vs_escalate : bool;
  vs_reasoning_excerpt : pystr;
  vs_created_at : Z
}.

(** The fields every alert view shares. *)
Record AlertBase : Type := {
  ab_id : uuid;
  ab_source : pystr;
  ab_src_ip : pystr;
  ab_sensor : pystr;
  ab_event_time : datetime;
  ab_received_at : Z;
  ab_status : AlertStatus;
  ab_country : option pystr
}.

Record AlertSummary : Type := { as_base : AlertBase; as_verdict : option VerdictSummary }.

(** The verdict of a detail is its row; a tool call is its record. *)
Record AlertDetail : Type := {
  ad_base : AlertBase;
  ad_raw : jobj;
  ad_verdict : option VerdictRow;
  ad_tool_calls : list ToolCallRecord
}.

Record ListFilters : Type := {
  severity_gte : option Z;
  filter_category : option Verdict.VerdictCategory;
  since : option datetime;
  filter_escalate : option bool
}.

Definition _since_naive_is_utc (value : option datetime) : option datetime :=
  match value with
  | Some d => if is_aware d then Some d else Some (Datetime (local_us d) (Some 0))
  | None => None
  end.

Definition make_filters (f : ListFilters) : outcome exn ListFilters :=
  if match severity_gte f with Some n => (1 <=? n) && (n <=? 5) | None => true end
  then Ret {| severity_gte := severity_gte f; filter_category := filter_category f;
              since := _since_naive_is_utc (since f); filter_escalate := filter_escalate f |}
  else Raise ValidationError.

Record DayVolume : Type := { dv_day : Z; dv_count : Z }.
Record DayCost : Type := { dc_day : Z; dc_alerts : Z; dc_cost_usd : Z; dc_mean_cost_usd : Z }.

Record StatsOut : Type := {
  total_alerts : Z;
  by_status : list (pystr * Z);
  by_severity : list (pystr * Z);
  by_category : list (pystr * Z);
  escalated_count : Z;
  volume_by_day : list DayVolume;
  cost_total_usd : Z;
  cost_mean_usd : Z;
  latency_p50_ms : Z;
  latency_p95_ms : Z;
  last_alert_at : option Z;
  cost_by_day : list DayCost;
  budget_exhausted : bool;
  tokens_today : Z;
  st_daily_token_budget : Z
}.

(** ** [core/schemas/pagination.py] *)

Record PaginatedResponse (A : Type) : Type := Paginated {
  pr_items : list A;
  pr_total : Z;
  pr_page : Z;
  pr_page_size : Z
}.
Arguments Paginated {A}. Arguments pr_items {A}. Arguments pr_total {A}.
Arguments pr_page {A}. Arguments pr_page_size {A}.

(** ** [core/services/alerts_read.py]: the queries on the tables *)

Definition GEO_TOOL_NAME : pystr := u "get_ip_geo_asn".

(** A row of the outer join of [alerts] with [latest_verdicts_subquery]. *)
Definition joined : Type := AlertRow * option VerdictRow.
Definition base_rows (ts : tables) : list joined :=
  map (fun r => (r, latest_verdict ts (a_id r))) (alerts ts).

(** The [WHERE] clauses: a comparison with [NULL] keeps no row. *)
Definition on_verdict (v : option VerdictRow) (P : Verdict.Verdict -> bool) : bool :=
  match v with Some r => P (v_verdict r) | None => false end.

Definition matches (f : ListFilters) (row : joined) : bool :=
  match severity_gte f with
  | Some n => on_verdict row.2 (fun v => n <=? Verdict.severity v)
  | None => true
  end
  && match filter_category f with
     | Some c => on_verdict row.2 (fun v => bool_decide (Verdict.category v = c))
     | None => true
     end
  && match filter_escalate f with
     | Some b => on_verdict row.2 (fun v => eqb (Verdict.escalate v) b)
     | None => true
     end
  && match since f with
     | Some d => instant d <=? a_received_at row.1
     | None => true
     end.

(** [severity DESC NULLS LAST]: the severity, below every severity when there is none. *)
Definition severity_key (row : joined) : Z :=
  match row.2 with Some v => Verdict.severity (v_verdict v) | None => -1 end.

(** [severity DESC NULLS LAST, received_at DESC, id DESC]. *)
Definition listed_before (x y : joined) : Prop :=
  severity_key y < severity_key x \/
  (severity_key x = severity_key y /\
   (a_received_at y.1 < a_received_at x.1 \/
    (a_received_at x.1 = a_received_at y.1 /\ a_id y.1 <= a_id x.1))).
#[export] Instance listed_before_dec : RelDecision listed_before.
Proof. intros x y. unfold listed_before. apply _. Defined.

Definition listing (f : ListFilters) (ts : tables) : list joined :=
  merge_sort listed_before (List.filter (matches f) (base_rows ts)).

(** [OFFSET (page - 1) * page_size LIMIT page_size]. *)
Definition page_of {A} (page page_size : Z) (l : list A) : list A :=
  take (Z.to_nat page_size) (drop (Z.to_nat ((page - 1) * page_size)) l).

(** The calls of a verdict in [seq] order. *)
Definition calls_of (vid : uuid) (ts : tables) : list ToolCallRecord :=
  py_sorted seq (map t_record (filter (fun r => t_verdict_id r = vid) (tool_calls ts))).

(** [result ->> 'country'] of the first [GEO_TOOL_NAME] call; the text of a value that is
    not a string is never a country code. *)
Definition first_geo (calls : list ToolCallRecord) : option ToolCallRecord :=
  find (fun c => bool_decide (tool_name c = GEO_TOOL_NAME)) calls.
Definition geo_country (vid : uuid) (ts : tables) : option json :=
  c ← first_geo (calls_of vid ts); dget (u "country") (result c).

Definition summary_of (ts : tables) (row : joined) : AlertSummary :=
  let '(r, v) := row in
  {| as_base :=
       {| ab_id := a_id r; ab_source := a_source r;
          ab_src_ip := default [] (raw_text (u "src_ip") (a_raw r));
          ab_sensor := default [] (raw_text (u "sensor") (a_raw r));
          ab_event_time := a_event_time r; ab_received_at := a_received_at r;
          ab_status := a_status r;
          ab_country := normalize_country (v ← v; geo_country (v_id v) ts) |};
     as_verdict :=
       (fun vr => {| vs_severity := Verdict.severity (v_verdict vr);
                     vs_category := Verdict.category (v_verdict vr);
                     vs_confidence := Verdict.confidence (v_verdict vr);
                     vs_escalate := Verdict.escalate (v_verdict vr);
                     vs_reasoning_excerpt := reasoning_excerpt (Verdict.reasoning (v_verdict vr));
                     vs_created_at := v_created_at vr |}) <$> v |}.

(** [raw.get(key, "")] as a field declared [str]: another JSON value fails validation. *)
Definition raw_str (key : pystr) (raw : jobj) : outcome exn pystr :=
  match dget key raw with
  | None => Ret []
  | Some (JStr s) => Ret s
  | Some _ => Raise ValidationError
  end.

Section service.
Context {W : Type} {PG : Postgres W} {SR : StrRepr} (str_uuid : uuid -> pystr).

(** One statement that reads the session's tables. *)
Definition query {A} (f : tables -> A) : M exn (db W) A :=
  _ ← execute_statement; d ← get; mret (f (working d)).

(** The driver refuses an [OFFSET] that is no [bigint]. *)
Definition list_alerts (f : ListFilters) (page page_size : Z)
    : M exn (db W) (list AlertSummary * Z) :=
  total ← query (fun ts => py_len (List.filter (matches f) (base_rows ts)));
  items ← (if (page - 1) * page_size <? 2 ^ 63
           then query (fun ts => map (summary_of ts) (page_of page page_size (listing f ts)))
           else refused);
  mret (items, total).

Definition get_alert_detail (id : uuid) : M exn (db W) AlertDetail :=
  row ← get_alert str_uuid id;
  latest ← query (fun ts => latest_verdict ts id);
  calls ← (match latest with
           | Some v => query (calls_of (v_id v))
           | None => mret []
           end);
  src_ip ← lift (raw_str (u "src_ip") (a_raw row));
  sensor ← lift (raw_str (u "sensor") (a_raw row));
  mret {| ad_base :=
            {| ab_id := a_id row; ab_source := a_source row; ab_src_ip := src_ip;
               ab_sensor := sensor; ab_event_time := a_event_time row;
               ab_received_at := a_received_at row; ab_status := a_status row;
               ab_country := normalize_country
                 (c ← first_geo calls; dget (u "country") (result c)) |};
          ad_raw := a_raw row; ad_verdict := latest; ad_tool_calls := calls |}.
End service.

(** *** [get_stats] *)

(** [get_args(AlertStatus)] and the other zero-filled keys. *)
Definition status_text (s : AlertStatus) : pystr :=
  match s with pending => u "pending" | triaged => u "triaged" | failed => u "failed" end.
Definition status_keys : list pystr := map status_text [pending; triaged; failed].
Definition severity_keys : list pystr := map str_of_Z [1; 2; 3; 4; 5].
Definition category_keys : list pystr := map fst Verdict.category_literals.

(** [{k: 0 for k in keys}], then [d[k] = count] for the groups of [ks]. *)
Definition zero_filled (keys : list pystr) : list (pystr * Z) := map (fun k => (k, 0)) keys.
Definition fill (keys ks : list pystr) : list (pystr * Z) :=
  foldl (fun d kc => dset kc.1 kc.2 d) (zero_filled keys) (group_count ks).

(** The rows of [DISTINCT ON (alert_id)]. *)
Definition latest_rows (ts : tables) : list VerdictRow :=
  omap (latest_verdict ts) (remove_dups (map v_alert_id (verdicts ts))).

(** [CAST(timezone('UTC', received_at) AS DATE)], and its groups in order. *)
Definition day_of (r : AlertRow) : Z := a_received_at r / US_PER_DAY.
Definition days (ts : tables) : list Z := py_sorted (fun d => d) (remove_dups (map day_of (alerts ts))).
Definition day_alerts (ts : tables) (day : Z) : list AlertRow :=
  filter (fun r => day_of r = day) (alerts ts).

Definition cost_of (ts : tables) (aid : uuid) : Z :=
  zsum (map v_cost_usd (filter (fun r => v_alert_id r = aid) (verdicts ts))).

(** [percentile_disc(p / 100)]: the first value whose cumulative share reaches it, that is
    the one of rank [ceil(p * n / 100)]. *)
Definition percentile_rank (p n : Z) : Z := (p * n + 99) / 100.
Definition percentile_disc (p : Z) (l : list Z) : option Z :=
  nth_error (py_sorted (fun x => x) l) (Z.to_nat (percentile_rank p (py_len l) - 1)).

Definition max_of (l : list Z) : option Z :=
  foldr (fun x acc => Some (match acc with Some y => Z.max x y | None => x end)) None l.

(** A [Decimal] of micro-dollars, [mant / 10 ^ scale]. *)
Record decimal : Type := Decimal { mant : Z; dscale : nat }.
Definition quantize_six (d : decimal) : Z := round_half_up (mant d) (10 ^ Z.of_nat (dscale d)).

(** [avg] of a non-empty [numeric] column: the mean, rounded to nearest at a scale of the
    server's choice. *)
Class PgAvg : Type := {
  pg_avg : list Z -> decimal;
  pg_avg_rounds : forall l, l <> [] ->
    2 * Z.abs (py_len l * mant (pg_avg l) - zsum l * 10 ^ Z.of_nat (dscale (pg_avg l))) <= py_len l
}.

Section stats.
Context {W : Type} {PG : Postgres W} {AV : PgAvg} {RC : RedisCounters W} {PI : PyInt}.

Definition scalar_avg (ts : tables) : Z :=
  match map v_cost_usd (verdicts ts) with [] => 0 | l => quantize_six (pg_avg l) end.

(** [cost_usd / alerts] to 28 digits, quantized: the quotient is far coarser than the
    places that rounding drops, so the two roundings are one. *)
Definition day_cost (ts : tables) (day : Z) : DayCost :=
  let rows := day_alerts ts day in
  let n := py_len (remove_dups (map a_id rows)) in
  let cost := zsum (map (fun r => cost_of ts (a_id r)) rows) in
  {| dc_day := day; dc_alerts := n; dc_cost_usd := cost; dc_mean_cost_usd := round_half_up cost n |}.

(** [redis] is whether a client is wired. *)
Definition get_stats (redis : bool) (daily_token_budget : Z) : M exn (db W) StatsOut :=
  total ← query (fun ts => py_len (alerts ts));
  statuses ← query (fun ts => fill status_keys (map (fun r => status_text (a_status r)) (alerts ts)));
  severities ← query (fun ts =>
    fill severity_keys (map (fun v => str_of_Z (Verdict.severity (v_verdict v))) (latest_rows ts)));
  categories ← query (fun ts =>
    fill category_keys
      (map (fun v => Verdict.category_str (Verdict.category (v_verdict v))) (latest_rows ts)));
  escalated ← query (fun ts =>
    py_len (List.filter (fun v => Verdict.escalate (v_verdict v)) (latest_rows ts)));
  volume ← query (fun ts =>
    map (fun d => {| dv_day := d; dv_count := py_len (day_alerts ts d) |}) (days ts));
  cost_total ← query (fun ts => zsum (map v_cost_usd (verdicts ts)));
  cost_mean ← query scalar_avg;
  p50 ← query (fun ts => percentile_disc 50 (map v_latency_ms (verdicts ts)));
  p95 ← query (fun ts => percentile_disc 95 (map v_latency_ms (verdicts ts)));
  last_at ← query (fun ts => max_of (map a_received_at (alerts ts)));
  costs ← query (fun ts => map (day_cost ts) (days ts));
  tokens ← on_outer (read_tokens_today redis);
  mret {| total_alerts := total; by_status := statuses; by_severity := severities;
          by_category := categories; escalated_count := escalated; volume_by_day := volume;
          cost_total_usd := cost_total; cost_mean_usd := cost_mean;
          latency_p50_ms := default 0 p50; latency_p95_ms := default 0 p95;
          last_alert_at := last_at; cost_by_day := costs;
          budget_exhausted := (0 <? daily_token_budget) && (daily_token_budget <=? tokens);
          tokens_today := tokens; st_daily_token_budget := daily_token_budget |}.
End stats.

(** ** [api/routes/alerts_read.py] *)

(** [quote_plus]: the unreserved characters, a plus for a space, the other bytes escaped. *)
Definition is_unreserved (c : Z) : bool :=
  is_upper c || ((97 <=? c) && (c <=? 122)) || is_ascii_digit c
  || (c =? 95) || (c =? 46) || (c =? 45) || (c =? 126).
Definition upper_hex (n : Z) : Z := if n <? 10 then 48 + n else 55 + n.
Definition quote_byte (c : Z) : pystr :=
  if is_unreserved c then [c] else if c =? 32 then [43]
  else [37; upper_hex (c / 16); upper_hex (c mod 16)].
Definition quote_plus (s : pystr) : outcome exn pystr :=
  bs ← utf8_encode s; Ret (concat (map quote_byte bs)).

Fixpoint urlencode (pairs : list (pystr * pystr)) : outcome exn (list pystr) :=
  match pairs with
  | [] => Ret []
  | (k, v) :: rest =>
      qk ← quote_plus k; qv ← quote_plus v; r ← urlencode rest; Ret ((qk ++ [61] ++ qv) :: r)
  end.

(** [datetime.isoformat()]. *)
Definition iso_seconds (us : Z) : pystr :=
  let '(y, m, d) := civil_from_days (us / US_PER_DAY) in
  let t := us mod US_PER_DAY in
  digits 4 y ++ u "-" ++ digits 2 m ++ u "-" ++ digits 2 d ++ u "T" ++
  digits 2 (t / 3600000000) ++ u ":" ++ digits 2 (t / 60000000 mod 60) ++ u ":" ++
  digits 2 (t / US_PER_SECOND mod 60).
Definition iso_fraction (us : Z) : pystr :=
  let t := us mod US_PER_DAY in
  if t mod US_PER_SECOND =? 0 then [] else u "." ++ digits 6 (t mod US_PER_SECOND).
Definition iso_local (us : Z) : pystr := iso_seconds us ++ iso_fraction us.
Definition iso_offset (off : Z) : pystr :=
  let t := Z.abs off in
  (if off <? 0 then u "-" else u "+") ++
  digits 2 (t / 3600000000) ++ u ":" ++ digits 2 (t / 60000000 mod 60) ++
  (if t mod 60000000 =? 0 then []
   else u ":" ++ digits 2 (t / US_PER_SECOND mod 60) ++
        (if t mod US_PER_SECOND =? 0 then [] else u "." ++ digits 6 (t mod US_PER_SECOND))).
Definition isoformat (d : datetime) : pystr :=
  iso_local (local_us d) ++ match utcoffset d with Some off => iso_offset off | None => [] end.

Inductive param : Type :=
| PNone | PBool (b : bool) | PDatetime (d : datetime) | PInt (n : Z) | PStr (s : pystr).
Definition param_text (v : param) : option pystr :=
  match v with
  | PNone => None
  | PBool b => Some (if b then u "true" else u "false")
  | PDatetime d => Some (isoformat d)
  | PInt n => Some (str_of_Z n)
  | PStr s => Some s
  end.

(** [pairs.sort()]: the names of a mapping are distinct, so the values never decide. *)
Definition key_pairs (params : list (pystr * param)) : list (pystr * pystr) :=
  sort_items (omap (fun kv => (fun t => (kv.1, t)) <$> param_text kv.2) params).

Definition cache_key (path : pystr) (params : list (pystr * param)) : outcome exn pystr :=
  match key_pairs params with
  | [] => Ret path
  | pairs => parts ← urlencode pairs; Ret (path ++ u "?" ++ py_join (u "&") parts)
  end.

Section routes.
Context {C : Type} {TC : TTLCache C} {S : Type}.

Definition on_cache {A} (m : M exn C A) : M exn (C * S) A := fun s =>
  let '(o, c) := m s.1 in (o, (c, s.2)).
Definition on_app {A} (m : M exn S A) : M exn (C * S) A := fun s =>
  let '(o, a) := m s.2 in (o, (s.1, a)).

(** The clock at the read, at the purge and at the expiry of the store; [to_json] is
    [model_dump_json().encode()]. *)
Record instants : Type := { read_at : float; purge_at : float; store_at : float }.

Definition _cached_json {A} (to_json : A -> pybytes) (t : instants) (path : pystr) (ttl_s : Z)
    (produce : M exn S A) (params : list (pystr * param)) : M exn (C * S) pybytes :=
  key ← lift (cache_key path params);
  hit ← on_cache (cache_get (read_at t) key);
  match hit with
  | Some b => mret b
  | None =>
      model ← on_app produce;
      let body := to_json model in
      _ ← on_cache (cache_set (purge_at t) (store_at t) key body ttl_s);
      mret body
  end.
End routes.

(** The declared query parameters of the list, after FastAPI's coercion. *)
Record ListQuery : Type := { q_page : Z; q_page_size : Z; q_filters : ListFilters }.

(** [Query(..., ge=, le=)]: [None] is a 422. *)
Definition valid_query (q : ListQuery) : bool :=
  (1 <=? q_page q) && (1 <=? q_page_size q) && (q_page_size q <=? 100)
  && match severity_gte (q_filters q) with Some n => (1 <=? n) && (n <=? 5) | None => true end.

Definition list_params (q : ListQuery) : list (pystr * param) :=
  [(u "page", PInt (q_page q)); (u "page_size", PInt (q_page_size q));
   (u "severity_gte", from_option PInt PNone (severity_gte (q_filters q)));
   (u "category", from_option (fun c => PStr (Verdict.category_str c)) PNone
                    (filter_category (q_filters q)));
   (u "since", from_option PDatetime PNone (since (q_filters q)));
   (u "escalate", from_option PBool PNone (filter_escalate (q_filters q)))].

Section handlers.
Context {W : Type} {PG : Postgres W} {AV : PgAvg} {RC : RedisCounters W} {PI : PyInt}.
Context {C : Type} {TC : TTLCache C}.
Variables (list_json : PaginatedResponse AlertSummary -> pybytes) (stats_json : StatsOut -> pybytes).
Variables (list_path stats_path : pystr).

Definition produce_list (q : ListQuery) (filters : ListFilters)
    : M exn (db W) (PaginatedResponse AlertSummary) :=
  r ← list_alerts filters (q_page q) (q_page_size q);
  mret (Paginated r.1 r.2 (q_page q) (q_page_size q)).

Definition list_alerts_route (t : instants) (ttl_s : Z) (q : ListQuery)
    : M exn (C * db W) pybytes :=
  if negb (valid_query q) then raise ValidationError
  else
    filters ← lift (make_filters (q_filters q));
    _cached_json list_json t list_path ttl_s (produce_list q filters) (list_params q).

Definition get_stats_route (t : instants) (ttl_s : Z) (redis : bool) (daily_token_budget : Z)
    : M exn (C * db W) pybytes :=
  _cached_json stats_json t stats_path ttl_s (get_stats redis daily_token_budget) [].
End handlers.

(** ** The list *)

#[export] Instance listed_before_total : Total listed_before.
Proof. intros x y. unfold listed_before. lia. Qed.
#[export] Instance listed_before_trans : Transitive listed_before.
Proof. intros x y z. unfold listed_before. lia. Qed.

Lemma listing_perm f ts : listing f ts ≡ₚ List.filter (matches f) (base_rows ts).
Proof. apply merge_sort_Permutation. Qed.

Lemma listing_sorted f ts : StronglySorted listed_before (listing f ts).
Proof. apply StronglySorted_merge_sort; apply _. Qed.

(** Consecutive pages, put end to end, are a prefix of the whole. *)
Lemma pages_concat {A} (l : list A) page_size k :
  0 <= page_size ->
  concat (map (fun i => page_of (Z.of_nat i + 1) page_size l) (List.seq 0 k)) =
  take (Z.to_nat (Z.of_nat k * page_size)) l.
Proof.
  intros Hp. induction k as [|k IH]; [done|].
  rewrite seq_S, map_app, concat_app, IH. simpl. rewrite app_nil_r. unfold page_of.
  replace (Z.of_nat k + 1 - 1) with (Z.of_nat k) by lia.
  replace (Z.to_nat (Z.of_nat (S k) * page_size))
    with (Z.to_nat (Z.of_nat k * page_size) + Z.to_nat page_size)%nat by lia.
  by rewrite take_take_drop.
Qed.

Lemma page_of_length {A} (l : list A) page page_size :
  0 <= page_size -> py_len (page_of page page_size l) <= page_size.
Proof. intros. unfold page_of, py_len. rewrite length_take. lia. Qed.

Lemma base_rows_ids ts : map (fun row => a_id row.1) (base_rows ts) = map a_id (alerts ts).
Proof. unfold base_rows. by rewrite map_map. Qed.

Lemma filter_ids_NoDup f ts :
  NoDup (map a_id (alerts ts)) ->
  NoDup (map (fun row => a_id row.1) (List.filter (matches f) (base_rows ts))).
Proof.
  rewrite <- base_rows_ids. intros Hnd. eapply sublist_NoDup; [exact Hnd|].
  apply fmap_sublist. clear Hnd. induction (base_rows ts) as [|x l IH]; cbn [List.filter]; [constructor|].
  destruct (matches f x); [by apply sublist_skip|by apply sublist_cons].
Qed.

Section list_facts.
Context {W : Type} {PG : Postgres W}.

Lemma query_spec {A} (f : tables -> A) (d : db W) o d' :
  query f d = (o, d') -> same_tables d d' /\ forall a, o = Ret a -> a = f (working d).
Proof.
  unfold query. intros [([] & d1 & [[Hd1 Hw1] _]%execute_statement_spec & H2)
                       |(e & [[Hd1 Hw1] _]%execute_statement_spec & ->)]%bind_inv.
  - unfold mbind, M_bind, get, mret, M_ret in H2. injection H2 as <- <-.
    split; [done|]. intros a [= <-]. by rewrite Hw1.
  - done.
Qed.

(** The page the service answers is that page of the listing, and the total counts every
    matching row. *)
Lemma list_alerts_spec f page page_size (d : db W) o d' :
  list_alerts f page page_size d = (o, d') ->
  same_tables d d' /\
  forall items total, o = Ret (items, total) ->
    total = py_len (List.filter (matches f) (base_rows (working d))) /\
    items = map (summary_of (working d)) (page_of page page_size (listing f (working d))).
Proof.
  unfold list_alerts. intros [(n & d1 & [[Hd1 Hw1] Hn]%query_spec & H2)
                             |(e & [? _]%query_spec & ->)]%bind_inv; [|done].
  specialize (Hn n eq_refl). apply bind_inv in H2 as [(items & d2 & H2 & H3)|(e & H2 & ->)].
  - unfold mret, M_ret in H3. injection H3 as <- <-. case_match; [|done].
    apply query_spec in H2 as [[Hd2 Hw2] Hi]. specialize (Hi items eq_refl).
    split; [by split; congruence|]. intros items' total [= <- <-]. by rewrite Hi, Hn, Hw1.
  - split; [|done]. case_match.
    + apply query_spec in H2 as [[Hd2 Hw2] _]. by split; congruence.
    + unfold refused in H2. injection H2 as _ <-. by split.
Qed.

(** C27: paging the list drops and repeats nothing: over unchanged tables, the pages from the
    first until they cover the total are, end to end, the matching alerts, each once with its
    latest verdict, by severity with the unjudged last, then newest first; every page has at
    most [page_size] rows and the same total. *)
Theorem pages_partition_list f page_size k (d : db W) (items : nat -> list AlertSummary) totals ds ds' :
  1 <= page_size -> NoDup (map a_id (alerts (working d))) ->
  (forall i, (i < k)%nat -> working (ds i) = working d /\
     list_alerts f (Z.of_nat i + 1) page_size (ds i) = (Ret (items i, totals i), ds' i)) ->
  let matching := List.filter (matches f) (base_rows (working d)) in
  py_len matching <= Z.of_nat k * page_size ->
  (forall i, (i < k)%nat -> totals i = py_len matching /\ py_len (items i) <= page_size) /\
  exists rows, concat (map items (List.seq 0 k)) = map (summary_of (working d)) rows /\
    rows ≡ₚ matching /\ StronglySorted listed_before rows /\
    NoDup (map (fun s => ab_id (as_base s)) (concat (map items (List.seq 0 k)))).
Proof.
  intros Hp Hnd Hcalls matching Hk.
  assert (Hi : forall i, (i < k)%nat -> totals i = py_len matching /\
    items i = map (summary_of (working d)) (page_of (Z.of_nat i + 1) page_size (listing f (working d)))).
  { intros i Hik. destruct (Hcalls i Hik) as [Hw [_ Hl]%list_alerts_spec]. rewrite Hw in Hl.
    exact (Hl _ _ eq_refl). }
  split.
  { intros i [-> ->]%Hi. split; [done|]. unfold py_len. rewrite length_map.
    apply page_of_length. lia. }
  assert (Hc : concat (map items (List.seq 0 k)) = map (summary_of (working d)) (listing f (working d))).
  { rewrite (map_ext_in items (fun i => map (summary_of (working d))
        (page_of (Z.of_nat i + 1) page_size (listing f (working d)))) (List.seq 0 k)).
    2: { intros i Hin%in_seq. apply Hi. lia. }
    rewrite <- map_map, <- concat_map, pages_concat by lia. f_equal. apply take_ge.
    unfold py_len in Hk. rewrite listing_perm. fold matching. lia. }
  exists (listing f (working d)). split; [done|]. split; [apply listing_perm|].
  split; [apply listing_sorted|]. rewrite Hc, map_map.
  rewrite (map_ext _ (fun row : joined => a_id row.1)) by (by intros []).
  rewrite listing_perm. by apply filter_ids_NoDup.
Qed.
End list_facts.

(** ** The detail *)

Section detail_facts.
Context {W : Type} {PG : Postgres W} {SR : StrRepr} (str_uuid : uuid -> pystr).

Lemma bind_ret {A B} (m : M exn (db W) A) (f : A -> M exn (db W) B) d b d' :
  (x ← m; f x) d = (Ret b, d') -> exists a d1, m d = (Ret a, d1) /\ f a d1 = (Ret b, d').
Proof. intros [?|(e & _ & ?)]%bind_inv; [done|done]. Qed.

Lemma raw_str_text key raw s : raw_str key raw = Ret s -> s = default [] (raw_text key raw).
Proof. unfold raw_str, raw_text. destruct (dget key raw) as [[]|]; intros [= <-]; done. Qed.

Lemma first_geo_country ts (v : option VerdictRow) :
  (v ← v; geo_country (v_id v) ts) =
  (c ← first_geo (from_option (fun v => calls_of (v_id v) ts) [] v); dget (u "country") (result c)).
Proof. by destruct v. Qed.

(** The two views of an alert agree: a detail carries the envelope, country included,
    that the alert's row in the list carries, with the same latest verdict, the newest of
    the alert's, and that verdict's tool calls in [seq] order. *)
Theorem detail_agrees_with_list id (d d' : db W) det :
  get_alert_detail str_uuid id d = (Ret det, d') ->
  let ts := working d in
  same_tables d d' /\
  exists r, find_alert id ts = Some r /\ ad_raw det = a_raw r /\
    ad_base det = as_base (summary_of ts (r, latest_verdict ts id)) /\
    ad_verdict det = latest_verdict ts id /\
    ad_tool_calls det = from_option (fun v => calls_of (v_id v) ts) [] (latest_verdict ts id) /\
    (forall v, v ∈ verdicts ts -> v_alert_id v = id ->
       exists best, ad_verdict det = Some best /\ newer v best = false).
Proof.
  intros H ts.
  apply bind_ret in H as (r & d1 & [[Hd1 Hw1] Hr]%get_alert_spec & H).
  specialize (Hr r eq_refl).
  apply bind_ret in H as (latest & d2 & [[Hd2 Hw2] Hl]%query_spec & H).
  specialize (Hl latest eq_refl). rewrite Hw1 in Hl. fold ts in Hl.
  apply bind_ret in H as (calls & d3 & H3 & H).
  assert (Hc : same_tables d2 d3 /\ calls = from_option (fun v => calls_of (v_id v) ts) [] latest).
  { destruct latest as [v|].
    - apply query_spec in H3 as [Hs Hc]. split; [done|]. rewrite (Hc calls eq_refl). simpl. by rewrite Hw2, Hw1.
    - unfold mret, M_ret in H3. by injection H3 as <- <-. }
  destruct Hc as [[Hd3 Hw3] Hc].
  apply bind_ret in H as (ip & d4 & H4 & H). unfold lift in H4. injection H4 as Hip <-.
  apply bind_ret in H as (sn & d5 & H5 & H). unfold lift in H5. injection H5 as Hsn <-.
  unfold mret, M_ret in H. injection H as <- <-.
  split; [by split; congruence|]. exists r. apply raw_str_text in Hip, Hsn.
  split_and!; [done|done| |done|by rewrite Hc, Hl|].
  - simpl. rewrite first_geo_country, Hip, Hsn, Hc, Hl. done.
  - intros v Hv Ha. simpl. pose proof (latest_of_spec (filter (fun r => v_alert_id r = id) (verdicts ts))) as Hs.
    fold (latest_verdict ts id) in Hs. rewrite <- Hl in Hs.
    assert (Hin : v ∈ filter (fun r => v_alert_id r = id) (verdicts ts)) by (by apply list_elem_of_filter).
    destruct latest as [best|]; [|rewrite Hs in Hin; by apply not_elem_of_nil in Hin].
    exists best. split; [done|]. by apply Hs.
Qed.
End detail_facts.

(** ** The statistics *)

(** Splitting a sum by the groups of a key. *)
Lemma sum_by_groups {A K} `{EqDecision K} (g : A -> K) (m : A -> Z) (keys : list K) (l : list A) :
  NoDup keys -> (forall x, x ∈ l -> g x ∈ keys) ->
  zsum (map (fun k => zsum (map m (filter (fun x => g x = k) l))) keys) = zsum (map m l).
Proof.
  intros Hnd. induction l as [|x l IH]; intros Hin.
  - clear. rewrite (map_ext _ (fun _ => 0)) by done. induction keys; simpl in *; lia.
  - simpl. rewrite <- IH by (intros y Hy; apply Hin; by right).
    assert (Hx : g x ∈ keys) by (apply Hin; left). clear IH Hin.
    apply list_elem_of_split in Hx as (k1 & k2 & ->).
    apply NoDup_app in Hnd as (_ & Hd & Hnd). apply NoDup_cons in Hnd as [Hn2 _].
    assert (Hother : forall ks, g x ∉ ks ->
      map (fun k => zsum (map m (filter (fun y => g y = k) (x :: l)))) ks =
      map (fun k => zsum (map m (filter (fun y => g y = k) l))) ks).
    { intros ks Hks. apply map_ext_in. intros k Hk%list_elem_of_In.
      rewrite filter_cons, decide_False; [done|]. by intros <-. }
    rewrite !map_app, !zsum_app. cbn [map]. rewrite !Hother; [|done|].
    + rewrite filter_cons, decide_True by done. simpl. lia.
    + intros Hk. apply (Hd _ Hk). left.
Qed.

(** Assignments to a dict, one per distinct key. *)
Lemma foldl_dset_dget {V} (l d : list (pystr * V)) k :
  NoDup (dkeys l) ->
  dget k (foldl (fun d kc => dset kc.1 kc.2 d) d l) =
    match dget k l with Some v => Some v | None => dget k d end.
Proof.
  revert d. induction l as [|[k' v] l IH]; intros d; simpl; [done|].
  intros [Hn Hnd]%NoDup_cons. rewrite IH by done. case_decide as Hk.
  - subst k'. rewrite (proj2 (dget_None k l)) by done. apply dget_dset_eq.
  - destruct (dget k l); [done|]. by rewrite dget_dset_ne by congruence.
Qed.

Lemma foldl_dset_keys {V} (l d : list (pystr * V)) :
  (forall k, k ∈ dkeys l -> k ∈ dkeys d) ->
  dkeys (foldl (fun d kc => dset kc.1 kc.2 d) d l) = dkeys d.
Proof.
  revert d. induction l as [|[k v] l IH]; intros d Hin; simpl; [done|].
  assert (Hk : dkeys (dset k v d) = dkeys d) by (apply dset_keys_in, Hin; left).
  rewrite IH; [done|]. intros k' Hk'. rewrite Hk. apply Hin. by right.
Qed.

Lemma group_count_keys ks : NoDup (dkeys (group_count ks)) /\ forall k, k ∈ dkeys (group_count ks) <-> k ∈ ks.
Proof.
  unfold group_count. enough (H : forall d, NoDup (dkeys d) ->
    NoDup (dkeys (foldl count_key d ks)) /\
    forall k, k ∈ dkeys (foldl count_key d ks) <-> k ∈ dkeys d \/ k ∈ ks).
  { destruct (H [] (NoDup_nil_2)) as [H1 H2]. split; [done|]. intros k. rewrite H2.
    split; [intros [?%not_elem_of_nil|?]; done|by right]. }
  induction ks as [|x ks IH]; intros d Hd; simpl.
  - split; [done|]. intros k. split; [by left|intros [?|?%not_elem_of_nil]; done].
  - destruct (IH (count_key d x)) as [H1 H2]; [by apply dset_NoDup|]. split; [done|].
    intros k. rewrite H2. unfold count_key. rewrite dset_keys_elem, elem_of_cons. tauto.
Qed.

Lemma zero_filled_keys keys : dkeys (zero_filled keys) = keys.
Proof. unfold dkeys, zero_filled. rewrite map_map. apply map_id. Qed.

Lemma dget_zero_filled keys k : k ∈ keys -> dget k (zero_filled keys) = Some 0.
Proof.
  induction keys as [|k' keys IH]; [by intros ?%not_elem_of_nil|]. simpl.
  intros [->|Hk]%elem_of_cons; [by rewrite decide_True|]. case_decide; [done|auto].
Qed.

(** The keys of [d[k] = count] assignments to present keys, and the counts they leave. *)
Lemma fill_spec keys ks :
  (forall k, k ∈ ks -> k ∈ keys) ->
  dkeys (fill keys ks) = keys /\
  forall k, k ∈ keys -> dget k (fill keys ks) = Some (occurrences k ks).
Proof.
  intros Hin. destruct (group_count_keys ks) as [Hnd Hkeys]. unfold fill. split.
  - rewrite foldl_dset_keys; rewrite zero_filled_keys; [done|]. intros k Hk%Hkeys. auto.
  - intros k Hk. rewrite foldl_dset_dget by done. pose proof (group_count_spec ks k) as Hs.
    destruct (dget k (group_count ks)); simpl in Hs; [by rewrite Hs|].
    by rewrite dget_zero_filled, Hs.
Qed.

Lemma dict_values {V} (d : list (pystr * V)) (f : pystr -> V) :
  NoDup (dkeys d) -> (forall k, k ∈ dkeys d -> dget k d = Some (f k)) -> map snd d = map f (dkeys d).
Proof.
  intros Hnd Hf. unfold dkeys in *. rewrite map_map. apply map_ext_in. intros [k v] Hin%list_elem_of_In.
  simpl. pose proof (elem_of_dget _ _ _ Hnd Hin) as Hg. rewrite Hf in Hg; [congruence|].
  by apply (list_elem_of_fmap_2 fst) in Hin.
Qed.

(** A zero-filled count over all the groups adds up to what was counted. *)
Lemma fill_total {A} (g : A -> pystr) keys (l : list A) :
  NoDup keys -> (forall x, x ∈ l -> g x ∈ keys) ->
  dkeys (fill keys (map g l)) = keys /\ zsum (map snd (fill keys (map g l))) = py_len l.
Proof.
  intros Hnd Hin. destruct (fill_spec keys (map g l)) as [Hk Hv].
  { intros k (x & -> & Hx)%list_elem_of_fmap. auto. }
  split; [done|]. rewrite (dict_values _ (fun k => occurrences k (map g l)));
    [|by rewrite Hk|intros k; rewrite Hk; apply Hv].
  rewrite Hk, <- (zsum_ones l), <- (sum_by_groups g (fun _ => 1) keys l Hnd Hin).
  f_equal. apply map_ext. intros k. unfold occurrences. rewrite zsum_ones. unfold py_len. f_equal.
  clear. induction l as [|x l IH]; [done|]. simpl map. rewrite !filter_cons.
  case_decide; simpl; by rewrite IH.
Qed.

Lemma remove_dups_id {A} `{EqDecision A} (l : list A) : NoDup l -> remove_dups l = l.
Proof.
  induction 1 as [|x l Hx _ IH]; [done|]. cbn [remove_dups].
  case_decide; [done|]. by rewrite IH.
Qed.

(** *** What the tables guarantee *)

(** Primary keys, the foreign key of the verdicts and their severity check. *)
Record tables_ok (ts : tables) : Prop := {
  ok_ids : NoDup (map a_id (alerts ts));
  ok_fk : forall v, v ∈ verdicts ts -> v_alert_id v ∈ map a_id (alerts ts);
  ok_severity : forall v, v ∈ verdicts ts -> 1 <= Verdict.severity (v_verdict v) <= 5
}.

Lemma latest_rows_in ts v : v ∈ latest_rows ts -> v ∈ verdicts ts.
Proof.
  unfold latest_rows. intros (aid & _ & H%latest_verdict_spec)%list_elem_of_omap. naive_solver.
Qed.

(** The alerts that have a verdict. *)
Definition judged (ts : tables) : Z := py_len (remove_dups (map v_alert_id (verdicts ts))).

Lemma latest_rows_length ts : py_len (latest_rows ts) = judged ts.
Proof.
  unfold latest_rows, judged, py_len. f_equal.
  assert (Hin : forall aid, aid ∈ remove_dups (map v_alert_id (verdicts ts)) ->
    is_Some (latest_verdict ts aid)).
  { intros aid (v & -> & Hv)%elem_of_remove_dups%list_elem_of_fmap.
    unfold latest_verdict. pose proof (latest_of_spec
      (filter (fun r => v_alert_id r = v_alert_id v) (verdicts ts))) as H.
    destruct (latest_of _); [by eexists|].
    assert (Hin : v ∈ filter (fun r => v_alert_id r = v_alert_id v) (verdicts ts))
      by (by apply list_elem_of_filter). rewrite H in Hin. by apply not_elem_of_nil in Hin. }
  induction (remove_dups _) as [|aid l IH]; [done|]. simpl.
  destruct (Hin aid) as [v ->]; [left|]. simpl. f_equal. apply IH. intros a Ha. apply Hin. by right.
Qed.

Section stats_facts.
Context {W : Type} {PG : Postgres W} {AV : PgAvg} {RC : RedisCounters W} {PI : PyInt}.

(** The statistics of the tables and the day's counter. *)
Definition stats_of (ts : tables) (tokens daily_token_budget : Z) : StatsOut :=
  {| total_alerts := py_len (alerts ts);
     by_status := fill status_keys (map (fun r => status_text (a_status r)) (alerts ts));
     by_severity := fill severity_keys
       (map (fun v => str_of_Z (Verdict.severity (v_verdict v))) (latest_rows ts));
     by_category := fill category_keys
       (map (fun v => Verdict.category_str (Verdict.category (v_verdict v))) (latest_rows ts));
     escalated_count := py_len (List.filter (fun v => Verdict.escalate (v_verdict v)) (latest_rows ts));
     volume_by_day := map (fun d => {| dv_day := d; dv_count := py_len (day_alerts ts d) |}) (days ts);
     cost_total_usd := zsum (map v_cost_usd (verdicts ts));
     cost_mean_usd := scalar_avg ts;
     latency_p50_ms := default 0 (percentile_disc 50 (map v_latency_ms (verdicts ts)));
     latency_p95_ms := default 0 (percentile_disc 95 (map v_latency_ms (verdicts ts)));
     last_alert_at := max_of (map a_received_at (alerts ts));
     cost_by_day := map (day_cost ts) (days ts);
     budget_exhausted := (0 <? daily_token_budget) && (daily_token_budget <=? tokens);
     tokens_today := tokens; st_daily_token_budget := daily_token_budget |}.

Lemma query_bind {A B} ts (f : tables -> A) (k : A -> M exn (db W) B) d b d' :
  working d = ts -> (x ← query f; k x) d = (Ret b, d') ->
  exists d1, durable d1 = durable d /\ working d1 = ts /\ k (f ts) d1 = (Ret b, d').
Proof.
  intros <- (a & d1 & [[Hd Hw] Ha]%query_spec & H)%bind_ret. exists d1.
  split; [done|]. split; [done|]. by rewrite <- (Ha a eq_refl).
Qed.

Lemma get_stats_spec redis budget (d d' : db W) st :
  get_stats redis budget d = (Ret st, d') ->
  same_tables d d' /\ exists tokens w,
    (read_tokens_today redis w).1 = Ret tokens /\ st = stats_of (working d) tokens budget.
Proof.
  intros H. remember (working d) as ts eqn:Hts. symmetry in Hts. unfold get_stats in H.
  do 12 (eapply query_bind in H; [destruct H as (? & ? & ? & H)|eassumption]).
  apply bind_ret in H as (tokens & dt & Htok & H).
  unfold on_outer in Htok.
  match type of Htok with context [read_tokens_today redis ?w] =>
    destruct (read_tokens_today redis w) as [o w'] eqn:E end.
  injection Htok as -> <-. injection H as <- <-.
  split; [split; simpl; congruence|]. do 2 eexists. split; [by rewrite E|done].
Qed.

Lemma days_spec ts : NoDup (days ts) /\ forall r, r ∈ alerts ts -> day_of r ∈ days ts.
Proof.
  unfold days. split.
  - rewrite py_sorted_perm. apply NoDup_remove_dups.
  - intros r Hr. rewrite py_sorted_perm. apply elem_of_remove_dups. by apply list_elem_of_fmap_2.
Qed.

Lemma day_cost_alerts ts day :
  NoDup (map a_id (alerts ts)) -> dc_alerts (day_cost ts day) = py_len (day_alerts ts day).
Proof.
  intros Hnd. unfold day_cost. cbn [dc_alerts]. unfold py_len. f_equal.
  rewrite remove_dups_id; [unfold day_alerts; by rewrite length_map|].
  eapply sublist_NoDup; [exact Hnd|]. apply fmap_sublist, sublist_filter.
Qed.

Lemma percentile_in p l x : percentile_disc p l = Some x -> x ∈ l.
Proof.
  unfold percentile_disc. intros H%nth_error_In%list_elem_of_In. by rewrite py_sorted_perm in H.
Qed.

(** C28: the dashboard's figures add up: every distribution has all its keys and sums to what
    it distributes (the status counts to the alerts, the severities and the categories to
    the alerts with a verdict, each once however often it was retriaged), the daily volumes
    and the daily alert counts to the alerts, the daily costs to the total spend, and the
    budget is reported exhausted exactly when a positive one has been reached. *)
Theorem stats_consistent redis budget (d d' : db W) st :
  tables_ok (working d) -> get_stats redis budget d = (Ret st, d') ->
  let ts := working d in
  same_tables d d' /\
  total_alerts st = py_len (alerts ts) /\
  (dkeys (by_status st) = status_keys /\ zsum (map snd (by_status st)) = total_alerts st) /\
  (dkeys (by_severity st) = severity_keys /\ zsum (map snd (by_severity st)) = judged ts) /\
  (dkeys (by_category st) = category_keys /\ zsum (map snd (by_category st)) = judged ts) /\
  escalated_count st <= judged ts /\
  zsum (map dv_count (volume_by_day st)) = total_alerts st /\
  zsum (map dc_alerts (cost_by_day st)) = total_alerts st /\
  zsum (map dc_cost_usd (cost_by_day st)) = cost_total_usd st /\
  (budget_exhausted st = true <-> 0 < budget <= tokens_today st).
Proof.
  intros Hok (Hs & tokens & w & _ & ->)%get_stats_spec ts. fold ts in Hok.
  pose proof (ok_ids _ Hok) as Hids. destruct (days_spec ts) as [Hdays Hday].
  split; [done|]. split; [done|]. cbn [by_status by_severity by_category escalated_count
    volume_by_day cost_by_day total_alerts cost_total_usd budget_exhausted tokens_today stats_of].
  split; [apply fill_total; [apply (bool_decide_unpack _); vm_compute; exact I|]|].
  { intros r _. destruct (a_status r); apply (bool_decide_unpack _); vm_compute; exact I. }
  split; [rewrite <- latest_rows_length; apply fill_total;
          [apply (bool_decide_unpack _); vm_compute; exact I|]|].
  { intros v Hv%latest_rows_in%(ok_severity _ Hok). apply list_elem_of_fmap_2.
    rewrite !elem_of_cons. lia. }
  split; [rewrite <- latest_rows_length; apply fill_total;
          [apply (bool_decide_unpack _); vm_compute; exact I|]|].
  { intros v _. destruct (Verdict.category (v_verdict v)); apply (bool_decide_unpack _);
      vm_compute; exact I. }
  split; [rewrite <- latest_rows_length; apply inj_le, filter_length_le|].
  assert (Hone : zsum (map (fun d => py_len (day_alerts ts d)) (days ts)) = py_len (alerts ts)).
  { rewrite <- zsum_ones, <- (sum_by_groups day_of (fun _ => 1) (days ts)) by done.
    f_equal. apply map_ext. intros k. by rewrite zsum_ones. }
  split; [by rewrite map_map|].
  split; [rewrite map_map; rewrite (map_ext _ (fun d => py_len (day_alerts ts d)));
          [done|intros k; by apply day_cost_alerts]|].
  split; [|rewrite andb_true_iff, Z.ltb_lt, Z.leb_le; done].
  rewrite map_map. cbn [dc_cost_usd day_cost].
  transitivity (zsum (map (fun r => cost_of ts (a_id r)) (alerts ts))).
  { by rewrite <- (sum_by_groups day_of _ (days ts)). }
  rewrite <- (map_map a_id (cost_of ts)). unfold cost_of.
  apply (sum_by_groups v_alert_id v_cost_usd); [done|apply (ok_fk _ Hok)].
Qed.
End stats_facts.

(** ** The cache key *)

(** *** [isoformat] is injective *)

Lemma isoformat_utc_local us : isoformat_utc us = iso_local us ++ u "+00:00".
Proof.
  unfold isoformat_utc, iso_local, iso_seconds, iso_fraction.
  destruct (civil_from_days (us / US_PER_DAY)) as [[y m] d]. cbv zeta.
  by rewrite <- !app_assoc.
Qed.

(** A fraction: nothing, or a point and six digits. *)
Definition fraction (s : pystr) : Prop := s = [] \/ exists n, s = 46 :: digits 6 n.
(** What may follow one: the end, a sign. *)
Definition no_point (s : pystr) : Prop := head s <> Some 46.

Lemma fraction_app a b x y :
  fraction a -> fraction b -> no_point x -> no_point y -> a ++ x = b ++ y -> a = b /\ x = y.
Proof.
  intros [->|[n ->]] [->|[m ->]] Hx Hy E.
  - done.
  - simpl in E. rewrite E in Hx. by destruct Hx.
  - simpl in E. rewrite <- E in Hy. by destruct Hy.
  - apply app_inj_1 in E; [done|]. cbn [length]. by rewrite !digits_length.
Qed.

Lemma iso_seconds_length us : length (iso_seconds us) = 19%nat.
Proof.
  unfold iso_seconds. destruct (civil_from_days (us / US_PER_DAY)) as [[y m] d]. cbv zeta.
  rewrite !length_app, !digits_length. done.
Qed.

Lemma iso_fraction_shape us : fraction (iso_fraction us).
Proof. unfold iso_fraction. cbv zeta. case_match; [by left|right; by eexists]. Qed.

Lemma iso_offset_head off : exists c s, iso_offset off = c :: s /\ c <> 46.
Proof. unfold iso_offset. destruct (off <? 0); by do 2 eexists. Qed.

Definition offset_text (o : option Z) : pystr := match o with Some off => iso_offset off | None => [] end.

Lemma offset_text_no_point o : no_point (offset_text o).
Proof.
  destruct o as [off|]; [|done]. simpl. destruct (iso_offset_head off) as (c & s & -> & Hc).
  unfold no_point. simpl. congruence.
Qed.

Definition minute_tail (t : Z) : pystr :=
  if t mod 60000000 =? 0 then []
  else u ":" ++ digits 2 (t / US_PER_SECOND mod 60) ++
       (if t mod US_PER_SECOND =? 0 then [] else u "." ++ digits 6 (t mod US_PER_SECOND)).

Lemma minute_tail_inj s t :
  0 <= s -> 0 <= t -> minute_tail s = minute_tail t -> s mod 60000000 = t mod 60000000.
Proof.
  intros Hs Ht. unfold minute_tail, US_PER_SECOND.
  assert (Hsplit : forall x, 0 <= x -> x mod 60000000 = x / 1000000 mod 60 * 1000000 + x mod 1000000)
    by (intros x Hx; pose proof (Z.rem_mul_r x 1000000 60 ltac:(done) ltac:(done)) as Hm;
        change (1000000 * 60) with 60000000 in Hm; lia).
  destruct (Z.eqb_spec (s mod 60000000) 0), (Z.eqb_spec (t mod 60000000) 0); [lia|done|done|].
  intros E. apply (app_inj_1 (u ":") (u ":")) in E as [_ E]; [|done].
  apply app_inj_1 in E as [E1 E2]; [|by rewrite !digits_length].
  apply (f_equal undigits) in E1.
  pose proof (Z.mod_pos_bound (s / 1000000) 60 eq_refl). pose proof (Z.mod_pos_bound (t / 1000000) 60 eq_refl).
  rewrite !undigits_digits in E1 by (simpl; lia).
  rewrite (Hsplit s Hs), (Hsplit t Ht), E1. f_equal.
  pose proof (Z.mod_pos_bound s 1000000 eq_refl). pose proof (Z.mod_pos_bound t 1000000 eq_refl).
  destruct (Z.eqb_spec (s mod 1000000) 0), (Z.eqb_spec (t mod 1000000) 0); [lia|done|done|].
  apply (app_inj_1 (u ".") (u ".")) in E2 as [_ E2]; [|done].
  apply (f_equal undigits) in E2. rewrite !undigits_digits in E2 by (simpl; lia). done.
Qed.

(** The offsets a [timezone] has. *)
Definition offset_ok (o : option Z) : Prop :=
  match o with Some off => Z.abs off < US_PER_DAY | None => True end.

Lemma iso_offset_inj a b :
  Z.abs a < US_PER_DAY -> Z.abs b < US_PER_DAY -> iso_offset a = iso_offset b -> a = b.
Proof.
  intros Ha Hb. unfold iso_offset. fold (minute_tail (Z.abs a)) (minute_tail (Z.abs b)). intros E.
  assert (Hsign : (a <? 0) = (b <? 0)) by (destruct (a <? 0), (b <? 0); done).
  apply app_inj_1 in E as [_ E]; [|by rewrite Hsign].
  apply app_inj_1 in E as [E1 E]; [|by rewrite !digits_length].
  apply (app_inj_1 (u ":") (u ":")) in E as [_ E]; [|done].
  apply app_inj_1 in E as [E2 E]; [|by rewrite !digits_length].
  apply minute_tail_inj in E; [|lia|lia]. apply (f_equal undigits) in E1, E2.
  unfold US_PER_DAY, US_PER_SECOND in *.
  pose proof (Z.mod_pos_bound (Z.abs a / 60000000) 60 eq_refl).
  pose proof (Z.mod_pos_bound (Z.abs b / 60000000) 60 eq_refl).
  rewrite !undigits_digits in E2 by (simpl; lia).
  assert (Hh : forall x, 0 <= x < 86400 * 1000000 -> 0 <= x / 3600000000 < 24)
    by (intros x Hx; split; [apply Z.div_pos|apply Z.div_lt_upper_bound]; lia).
  pose proof (Hh (Z.abs a) ltac:(lia)). pose proof (Hh (Z.abs b) ltac:(lia)).
  rewrite !undigits_digits in E1 by (simpl; lia).
  assert (Hsplit : forall x, 0 <= x -> x = x / 3600000000 * 3600000000
    + x / 60000000 mod 60 * 60000000 + x mod 60000000)
    by (intros x Hx; pose proof (Z.rem_mul_r x 60000000 60 ltac:(done) ltac:(done)) as Hm;
        pose proof (Z.div_mod x 3600000000 ltac:(done)) as Hd;
        change (60000000 * 60) with 3600000000 in Hm; lia).
  assert (Z.abs a = Z.abs b) by (rewrite (Hsplit (Z.abs a)), (Hsplit (Z.abs b)) by lia; lia).
  destruct (Z.ltb_spec a 0), (Z.ltb_spec b 0); lia || done.
Qed.

Definition datetime_ok (d : datetime) : Prop := in_range (local_us d) /\ offset_ok (utcoffset d).

Lemma isoformat_inj a b : datetime_ok a -> datetime_ok b -> isoformat a = isoformat b -> a = b.
Proof.
  intros [Ha Hoa] [Hb Hob]. unfold isoformat. fold (offset_text (utcoffset a)) (offset_text (utcoffset b)).
  unfold iso_local. rewrite <- !app_assoc. intros [Hh E]%app_inj_1; [|by rewrite !iso_seconds_length].
  apply fraction_app in E as [Hf E];
    [|apply iso_fraction_shape..|apply offset_text_no_point|apply offset_text_no_point].
  assert (Hus : local_us a = local_us b).
  { apply isoformat_utc_inj; [done|done|].
    rewrite !isoformat_utc_local. unfold iso_local. by rewrite Hh, Hf. }
  assert (Hoff : utcoffset a = utcoffset b).
  { destruct (utcoffset a) as [x|], (utcoffset b) as [y|]; simpl in *; [f_equal; by apply iso_offset_inj| | |done].
    - destruct (iso_offset_head x) as (c & s & Hx & _). congruence.
    - destruct (iso_offset_head y) as (c & s & Hy & _). congruence. }
  destruct a, b; simpl in *; congruence.
Qed.

(** *** Quoting is undone by unquoting *)

Definition unhex (c : Z) : Z := if c <? 58 then c - 48 else c - 55.
Fixpoint unquote (s : pystr) : pystr :=
  match s with
  | [] => []
  | c :: r =>
      if c =? 37 then
        match r with
        | a :: b :: r' => unhex a * 16 + unhex b :: unquote r'
        | _ => []
        end
      else if c =? 43 then 32 :: unquote r
      else c :: unquote r
  end.

Lemma unhex_upper n : 0 <= n < 16 -> unhex (upper_hex n) = n.
Proof. intros. unfold unhex, upper_hex. destruct (Z.ltb_spec n 10); z_decide; lia. Qed.

Lemma unreserved_range c : is_unreserved c = true -> 45 <= c <= 126 /\ c <> 61.
Proof.
  unfold is_unreserved, is_upper, is_ascii_digit. intros H. py_reflect.
  repeat match goal with Hor : _ \/ _ |- _ => destruct Hor; py_reflect end; lia.
Qed.

Lemma unquote_byte c s : 0 <= c < 256 -> unquote (quote_byte c ++ s) = c :: unquote s.
Proof.
  intros Hc. unfold quote_byte. destruct (is_unreserved c) eqn:Hu.
  - apply unreserved_range in Hu as [Hr _]. simpl. by rewrite !(proj2 (Z.eqb_neq _ _)) by lia.
  - destruct (Z.eqb_spec c 32) as [->|]; [done|]. simpl.
    rewrite !unhex_upper.
    + f_equal. pose proof (Z.div_mod c 16). lia.
    + by apply Z.mod_pos_bound.
    + split; [apply Z.div_pos|apply Z.div_lt_upper_bound]; lia.
Qed.

Lemma unquote_quoted bs :
  Forall (fun c => 0 <= c < 256) bs -> unquote (concat (map quote_byte bs)) = bs.
Proof. induction 1 as [|c bs Hc _ IH]; [done|]. cbn [map concat]. by rewrite unquote_byte, IH. Qed.

Definition ascii_text (s : pystr) : Prop := Forall (fun c => 0 <= c < 128) s.

Lemma utf8_encode_ascii s : ascii_text s -> utf8_encode s = Ret s.
Proof.
  induction 1 as [|c s Hc _ IH]; [done|]. simpl. unfold utf8_char, is_scalar, is_surrogate.
  rewrite (proj2 (Z.leb_le 0 c)), (proj2 (Z.leb_le c 1114111)), (proj2 (Z.leb_gt 55296 c)),
    (proj2 (Z.ltb_lt c 128)) by lia. simpl. by rewrite IH.
Qed.

Definition quoted (s : pystr) : pystr := concat (map quote_byte s).

Lemma quoted_inj s t : ascii_text s -> ascii_text t -> quoted s = quoted t -> s = t.
Proof.
  intros Hs Ht E. rewrite <- (unquote_quoted s), <- (unquote_quoted t);
    [unfold quoted in E; by rewrite E|..]; (eapply Forall_impl; [eassumption|simpl; lia]).
Qed.

(** The separators of a query string never appear in a quoted text. *)
Lemma quoted_chars s c : ascii_text s -> c ∈ quoted s -> c <> 38 /\ c <> 61.
Proof.
  intros Hs. unfold quoted. induction Hs as [|x s Hx _ IH]; [by intros ?%not_elem_of_nil|].
  cbn [map concat]. intros [Hc|Hc]%elem_of_app; [|auto]. unfold quote_byte in Hc.
  assert (Hhex : forall n, 0 <= n < 16 -> 48 <= upper_hex n <= 70 /\ upper_hex n <> 61)
    by (intros n Hn; unfold upper_hex; destruct (Z.ltb_spec n 10); lia).
  destruct (is_unreserved x) eqn:Hu.
  - apply unreserved_range in Hu. apply list_elem_of_singleton in Hc as ->. lia.
  - destruct (x =? 32); [apply list_elem_of_singleton in Hc as ->; lia|].
    pose proof (Hhex (x / 16) ltac:(split; [apply Z.div_pos|apply Z.div_lt_upper_bound]; lia)).
    pose proof (Hhex (x mod 16) ltac:(by apply Z.mod_pos_bound)).
    rewrite !elem_of_cons in Hc. destruct_or! Hc; subst; try lia. by apply not_elem_of_nil in Hc.
Qed.

Lemma split_first_sep (c : Z) a b x y :
  c ∉ a -> c ∉ b -> a ++ c :: x = b ++ c :: y -> a = b /\ x = y.
Proof.
  revert b. induction a as [|d a IH]; intros [|e b] Ha Hb E; simplify_eq/=.
  - done.
  - destruct Hb. left.
  - destruct Ha. left.
  - destruct (IH b) as [-> ->]; [set_solver|set_solver|done|done].
Qed.

Definition pair_text (kv : pystr * pystr) : pystr := quoted kv.1 ++ [61] ++ quoted kv.2.
Definition ascii_pair (kv : pystr * pystr) : Prop := ascii_text kv.1 /\ ascii_text kv.2.

Lemma pair_text_inj p q : ascii_pair p -> ascii_pair q -> pair_text p = pair_text q -> p = q.
Proof.
  destruct p as [k v], q as [k' v']. intros [Hk Hv] [Hk' Hv']. simpl in *.
  intros [E1 E2]%split_first_sep.
  - apply quoted_inj in E1; [|done|done]. apply quoted_inj in E2; [|done|done]. simpl in *. congruence.
  - intros Hin. by destruct (quoted_chars k 61 Hk Hin).
  - intros Hin. by destruct (quoted_chars k' 61 Hk' Hin).
Qed.

Lemma pair_text_no_amp p : ascii_pair p -> 38 ∉ pair_text p.
Proof.
  intros [Hk Hv]. unfold pair_text. rewrite !elem_of_app.
  intros [Hin|[Hin|Hin]]; [by destruct (quoted_chars _ _ Hk Hin)|
    by apply list_elem_of_singleton in Hin|by destruct (quoted_chars _ _ Hv Hin)].
Qed.

Lemma urlencode_ascii pairs :
  Forall ascii_pair pairs -> urlencode pairs = Ret (map pair_text pairs).
Proof.
  induction 1 as [|[k v] pairs [Hk Hv] _ IH]; [done|]. simpl in *. unfold quote_plus.
  rewrite !utf8_encode_ascii by done. cbn [mbind outcome_bind]. by rewrite IH.
Qed.

Lemma join_pairs_inj ps qs :
  Forall ascii_pair ps -> Forall ascii_pair qs ->
  py_join (u "&") (map pair_text ps) = py_join (u "&") (map pair_text qs) ->
  ps <> [] -> qs <> [] -> ps = qs.
Proof.
  intros Hps. revert qs. induction Hps as [|p ps Hp Hps IH]; intros qs Hqs E; [done|].
  intros _ Hne. destruct Hqs as [|q qs Hq Hqs]; [done|]. clear Hne.
  pose proof (pair_text_no_amp p Hp) as Hnp. pose proof (pair_text_no_amp q Hq) as Hnq.
  destruct Hps as [|p2 ps Hp2 Hps], Hqs as [|q2 qs Hq2 Hqs]; cbn [map] in E.
  - f_equal. by apply pair_text_inj.
  - rewrite py_join_cons in E. cbn [py_join] in E. rewrite E in Hnp. destruct Hnp.
    rewrite !elem_of_app. right; left. left.
  - rewrite py_join_cons in E. cbn [py_join] in E. rewrite <- E in Hnq. destruct Hnq.
    rewrite !elem_of_app. right; left. left.
  - rewrite !py_join_cons in E. apply split_first_sep in E as [E1 E2]; [|done..].
    apply pair_text_inj in E1; [|done..]. subst q. f_equal. apply IH; [by constructor|done|done|done].
Qed.

(** *** One key, one query *)

Lemma ascii_check s : forallb (fun c => (0 <=? c) && (c <? 128)) s = true -> ascii_text s.
Proof.
  rewrite forallb_forall. intros Hs. apply Forall_forall.
  intros c Hc%list_elem_of_In%Hs. apply andb_prop in Hc as [?%Z.leb_le ?%Z.ltb_lt]. done.
Qed.

Lemma iso_offset_ascii off : ascii_text (iso_offset off).
Proof.
  assert (Hd : forall w n, ascii_text (digits w n)).
  { intros w n. apply Forall_forall. intros c Hc%digits_chars. lia. }
  unfold iso_offset, ascii_text. cbv zeta.
  repeat case_match; rewrite ?Forall_app; split_and!;
    first [apply Hd | by apply ascii_check | constructor].
Qed.

Lemma isoformat_ascii d : ascii_text (isoformat d).
Proof.
  unfold isoformat. apply Forall_app. split.
  - apply Forall_forall. intros c Hc. assert (Hin : c ∈ isoformat_utc (local_us d)).
    { rewrite isoformat_utc_local. apply elem_of_app. by left. }
    apply isoformat_utc_chars in Hin. lia.
  - destruct (utcoffset d); [apply iso_offset_ascii|constructor].
Qed.

Lemma category_str_ascii c : ascii_text (Verdict.category_str c).
Proof. destruct c; by apply ascii_check. Qed.

(** A query whose timestamp is a reading [datetime] has. *)
Definition query_ok (q : ListQuery) : Prop :=
  match since (q_filters q) with Some d => datetime_ok d | None => True end.

Definition query_pairs (q : ListQuery) : list (pystr * pystr) :=
  omap (fun kv => (fun t => (kv.1, t)) <$> param_text kv.2) (list_params q).

Lemma param_ascii v t :
  match v with PStr s => ascii_text s | _ => True end -> param_text v = Some t -> ascii_text t.
Proof.
  destruct v; simpl; intros Hs E; simplify_eq.
  - destruct b; by apply ascii_check.
  - apply isoformat_ascii.
  - apply Forall_forall. intros c Hc%str_of_Z_elem. lia.
  - done.
Qed.

Lemma query_pairs_ascii q : Forall ascii_pair (query_pairs q).
Proof.
  apply Forall_forall. intros [k t] ([k' v] & Hin & E)%list_elem_of_omap.
  simpl in E. destruct (param_text v) as [t'|] eqn:Ht; [|done]. injection E as -> ->.
  assert (Hk : ascii_text k /\ match v with PStr s => ascii_text s | _ => True end).
  { unfold list_params in Hin. rewrite !elem_of_cons in Hin.
    destruct_or! Hin; simplify_eq; [..|by apply not_elem_of_nil in Hin].
    all: split; [by apply ascii_check|].
    all: repeat match goal with |- context [from_option _ _ ?o] => destruct o; simpl end; try done.
    apply category_str_ascii. }
  destruct Hk as [Hk Hv]. split; [done|]. by eapply param_ascii.
Qed.

Lemma dget_omap {A B} (f : A -> option B) (l : list (pystr * A)) k :
  NoDup (dkeys l) ->
  dget k (omap (fun kv => (fun t => (kv.1, t)) <$> f kv.2) l) = x ← dget k l; f x.
Proof.
  set (g := fun kv : pystr * A => (fun t => (kv.1, t)) <$> f kv.2).
  induction l as [|[k' x] l IH]; [done|]. intros [Hn Hnd]%NoDup_cons. specialize (IH Hnd).
  cbn [omap list_omap dget].
  assert (Hg : g (k', x) = (fun t => (k', t)) <$> f x) by done. rewrite Hg. clear Hg.
  destruct (decide (k = k')) as [<-|Hne].
  - cbn [mbind option_bind]. destruct (f x) as [t|]; cbn [fmap option_fmap option_map].
    + cbn [dget]. by rewrite decide_True.
    + rewrite IH, (proj2 (dget_None k l)) by done. done.
  - destruct (f x); cbn [fmap option_fmap option_map]; [|done]. cbn [dget]. by rewrite decide_False.
Qed.

Lemma list_params_nodup q : NoDup (dkeys (list_params q)).
Proof. apply (bool_decide_unpack _). vm_compute. exact I. Qed.

Lemma query_pairs_nodup q : NoDup (dkeys (query_pairs q)).
Proof.
  unfold query_pairs, dkeys. pose proof (list_params_nodup q) as H. unfold dkeys in H.
  eapply sublist_NoDup; [exact H|]. clear H. induction (list_params q) as [|[k v] l IH]; [done|].
  simpl. destruct (param_text v); simpl; [by apply sublist_skip|by apply sublist_cons].
Qed.

Lemma sorted_pairs_nonempty q : sort_items (query_pairs q) <> [].
Proof.
  intros E. pose proof (sort_items_perm (query_pairs q)) as Hp. rewrite E in Hp.
  by apply Permutation_nil_l in Hp.
Qed.

Lemma query_key path q :
  cache_key path (list_params q) =
    Ret (path ++ u "?" ++ py_join (u "&") (map pair_text (sort_items (query_pairs q)))).
Proof.
  unfold cache_key, key_pairs. fold (query_pairs q).
  pose proof (sorted_pairs_nonempty q) as Hne.
  destruct (sort_items (query_pairs q)) as [|p l] eqn:E; [done|].
  rewrite urlencode_ascii; [done|]. rewrite <- E, sort_items_perm. apply query_pairs_ascii.
Qed.

Lemma str_of_Z_inj a b : str_of_Z a = str_of_Z b -> a = b.
Proof.
  intros E. destruct (scan_number_int a) as [_ Ha], (scan_number_int b) as [_ Hb].
  by rewrite <- Ha, <- Hb, E.
Qed.

Lemma category_str_inj a b : Verdict.category_str a = Verdict.category_str b -> a = b.
Proof.
  intros E. pose proof (Verdict.category_literals_str a) as Ha.
  rewrite E, Verdict.category_literals_str in Ha. congruence.
Qed.

(** An optional parameter whose text determines it. *)
Lemma param_inj {A} (f : A -> param) (a b : option A) :
  (forall x, is_Some (param_text (f x))) ->
  (forall x y, a = Some x -> b = Some y -> param_text (f x) = param_text (f y) -> x = y) ->
  param_text (from_option f PNone a) = param_text (from_option f PNone b) -> a = b.
Proof.
  intros Hs Hf. destruct a as [x|], b as [y|]; simpl; [..|done].
  - intros E. f_equal. by apply Hf.
  - intros E. destruct (Hs x) as [? H]. congruence.
  - intros E. destruct (Hs y) as [? H]. congruence.
Qed.

(** Two list queries share a cache key only when they are the same query. *)
Lemma cache_key_inj path q1 q2 :
  query_ok q1 -> query_ok q2 ->
  cache_key path (list_params q1) = cache_key path (list_params q2) -> q1 = q2.
Proof.
  intros H1 H2. rewrite !query_key. intros E. injection E as E.
  apply app_inv_head in E. injection E as E.
  assert (Hp : sort_items (query_pairs q1) = sort_items (query_pairs q2)).
  { apply join_pairs_inj; [| |exact E|apply sorted_pairs_nonempty..];
      rewrite sort_items_perm; apply query_pairs_ascii. }
  assert (Hg : forall k, (x ← dget k (list_params q1); param_text x) =
                         (x ← dget k (list_params q2); param_text x)).
  { intros k. rewrite <- !dget_omap by apply list_params_nodup.
    fold (query_pairs q1) (query_pairs q2).
    assert (Hs : forall q, dget k (sort_items (query_pairs q)) = dget k (query_pairs q)).
    { intros q. pose proof (query_pairs_nodup q) as Hnd.
      assert (Hnd' : NoDup (dkeys (sort_items (query_pairs q))))
        by (unfold dkeys; by rewrite sort_items_perm).
      destruct (dget k (query_pairs q)) as [t|] eqn:Eq.
      - apply elem_of_dget; [done|]. rewrite sort_items_perm. by apply dget_elem.
      - apply dget_None. unfold dkeys. rewrite sort_items_perm. by apply dget_None. }
    by rewrite <- !Hs, Hp. }
  pose proof (Hg (u "page")) as Hpage. pose proof (Hg (u "page_size")) as Hsize.
  pose proof (Hg (u "severity_gte")) as Hsev. pose proof (Hg (u "category")) as Hcat.
  pose proof (Hg (u "since")) as Hsince. pose proof (Hg (u "escalate")) as Hesc.
  clear Hg Hp E. destruct q1 as [p1 z1 [s1 c1 d1 e1]], q2 as [p2 z2 [s2 c2 d2 e2]].
  unfold query_ok in H1, H2. cbn [q_filters since] in H1, H2.
  change (Some (str_of_Z p1) = Some (str_of_Z p2)) in Hpage.
  change (Some (str_of_Z z1) = Some (str_of_Z z2)) in Hsize.
  change (param_text (from_option PInt PNone s1) = param_text (from_option PInt PNone s2)) in Hsev.
  change (param_text (from_option (fun c => PStr (Verdict.category_str c)) PNone c1) =
          param_text (from_option (fun c => PStr (Verdict.category_str c)) PNone c2)) in Hcat.
  change (param_text (from_option PDatetime PNone d1) = param_text (from_option PDatetime PNone d2))
    in Hsince.
  change (param_text (from_option PBool PNone e1) = param_text (from_option PBool PNone e2)) in Hesc.
  assert (Hp1 : p1 = p2) by (apply str_of_Z_inj; congruence).
  assert (Hz : z1 = z2) by (apply str_of_Z_inj; congruence).
  apply param_inj in Hsev; [|by eexists|intros x y _ _ [= E']; by apply str_of_Z_inj].
  apply param_inj in Hcat; [|by eexists|intros x y _ _ [= E']; by apply category_str_inj].
  apply param_inj in Hsince; [|by eexists|].
  2: { intros x y -> -> E'. apply isoformat_inj; [exact H1|exact H2|]. by apply (inj Some). }
  apply param_inj in Hesc; [|by eexists|intros [] [] _ _ E'; [done|discriminate E'|discriminate E'|done]].
  by subst.
Qed.

(** ** The cached routes *)

Section cached.
Context {C : Type} {TC : TTLCache C} {T : Type}.

(** Nothing becomes servable. *)
Definition no_new (c c' : C) : Prop := forall t k v, live c' t k v -> live c t k v.

Lemma cached_json_spec {A} (to_json : A -> pybytes) t path ttl (produce : M exn T A) params key
    c s o c' s' :
  cache_key path params = Ret key ->
  _cached_json to_json t path ttl produce params (c, s) = (o, (c', s')) ->
  (s' = s /\ no_new c c' /\ forall b, o = Ret b -> live c (read_at t) key b) \/
  (exists e, produce s = (Raise e, s') /\ o = Raise e /\ no_new c c') \/
  (exists m, produce s = (Ret m, s') /\ (forall b, o = Ret b -> b = to_json m) /\
     forall t' k v, live c' t' k v -> live c t' k v \/
       (k = key /\ v = to_json m /\ t' < store_at t + flt ttl)).
Proof.
  intros Hk. unfold _cached_json, mbind, M_bind, lift, mret, M_ret. rewrite Hk.
  unfold on_cache at 1. cbn [fst snd].
  destruct (cache_get (read_at t) key c) as [[[b|]|e] c1] eqn:Eg.
  - intros [= <- <- <-]. left. split; [done|]. split.
    + intros t' k v Hl. eapply cache_get_frame. rewrite Eg. exact Hl.
    + intros b' [= <-]. by eapply cache_get_live.
  - assert (Hn : no_new c c1) by (intros t' k v Hl; eapply cache_get_frame; rewrite Eg; exact Hl).
    unfold on_app. cbn [fst snd]. destruct (produce s) as [[m|e] s1] eqn:Ep.
    + unfold on_cache. cbn [fst snd].
      destruct (cache_set (purge_at t) (store_at t) key (to_json m) ttl c1) as [o2 c2] eqn:Es.
      intros H. right; right. exists m.
      assert (Hs : s' = s1 /\ c' = c2 /\ forall b, o = Ret b -> b = to_json m)
        by (destruct o2; injection H as <- <- <-; (split; [done|]; split; [done|]); by intros b [= <-]).
      destruct Hs as (-> & -> & Hb). split; [done|]. split; [done|]. intros t' k v Hl.
      pose proof (cache_set_live (purge_at t) (store_at t) key (to_json m) ttl c1 t' k v) as Hset.
      rewrite Es in Hset. destruct (Hset Hl) as [(-> & -> & _ & Ht)|Hl']; [by right|left; by apply Hn].
    + intros [= <- <- <-]. right; left. exists e. done.
  - intros [= <- <- <-]. left. split; [done|]. split; [|done].
    intros t' k v Hl. eapply cache_get_frame. rewrite Eg. exact Hl.
Qed.
End cached.

Section sound.
Context {W : Type} {PG : Postgres W} {C : Type} {TC : TTLCache C}.
Variables (list_json : PaginatedResponse AlertSummary -> pybytes) (list_path : pystr).

(** [b] is the page [q] asks for, over some state of the tables. *)
Definition answers_on (q : ListQuery) (ts : tables) (b : pybytes) : Prop :=
  exists filters, make_filters (q_filters q) = Ret filters /\
    b = list_json (Paginated
          (map (summary_of ts) (page_of (q_page q) (q_page_size q) (listing filters ts)))
          (py_len (List.filter (matches filters) (base_rows ts))) (q_page q) (q_page_size q)).

(** What the cache may serve for a list query answers that query. *)
Definition cache_sound (c : C) : Prop := forall q t v key,
  query_ok q -> cache_key list_path (list_params q) = Ret key -> live c t key v ->
  exists ts, answers_on q ts v.

Lemma produce_list_spec q filters (d : db W) o d' :
  make_filters (q_filters q) = Ret filters -> produce_list q filters d = (o, d') ->
  same_tables d d' /\ forall m, o = Ret m -> answers_on q (working d) (list_json m).
Proof.
  intros Hf. unfold produce_list.
  intros [([items total] & d1 & [Hs Hl]%list_alerts_spec & H2)|(e & [Hs _]%list_alerts_spec & ->)]%bind_inv;
    [|done].
  unfold mret, M_ret in H2. injection H2 as <- <-. split; [done|]. intros m [= <-].
  destruct (Hl _ _ eq_refl) as [-> ->]. by exists filters.
Qed.

Lemma valid_query_filters q :
  valid_query q = true -> exists filters, make_filters (q_filters q) = Ret filters.
Proof.
  unfold valid_query, make_filters. intros [_ ->]%andb_prop. by eexists.
Qed.

(** The cache never mixes queries and never keeps a failure: over a sound cache, a list
    request answers with a page for exactly its own parameters, over the present tables on a
    miss, changes no table, and leaves the cache sound; parameters out of range are refused
    before the cache is consulted. *)
Theorem list_cache_sound t ttl q c (d : db W) o c' d' :
  query_ok q -> cache_sound c ->
  list_alerts_route list_json list_path t ttl q (c, d) = (o, (c', d')) ->
  cache_sound c' /\ same_tables d d' /\
  (valid_query q = false -> o = Raise ValidationError /\ c' = c) /\
  (forall b, o = Ret b -> exists ts, answers_on q ts b) /\
  (forall b, o = Ret b -> (forall v, ~ (exists key, cache_key list_path (list_params q) = Ret key /\
                                         live c (read_at t) key v)) ->
     answers_on q (working d) b).
Proof.
  intros Hq Hc. unfold list_alerts_route. destruct (valid_query q) eqn:Hv; simpl.
  2: { unfold raise. intros [= <- <- <-]. split_and!; try done. }
  destruct (valid_query_filters q Hv) as [filters Hf]. rewrite Hf.
  unfold lift, mbind, M_bind. pose proof (query_key list_path q) as Hkey.
  set (key := list_path ++ _) in Hkey.
  intros H. apply (cached_json_spec _ _ _ _ _ _ key) in H; [|done].
  assert (Hold : forall b t', live c t' key b -> exists ts, answers_on q ts b)
    by (intros b t' Hl; by eapply Hc).
  destruct H as [(-> & Hn & Hb)|[(e & Hp & -> & Hn)|(m & Hp & Hb & Hn)]].
  - split; [intros q' t' v key' Hq' Hk' Hl; eapply Hc; [done|done|by apply Hn]|].
    split; [done|]. split; [done|]. split; [intros b E; by eapply Hold, Hb|].
    intros b E Hmiss. destruct (Hmiss b). exists key. split; [done|by apply Hb].
  - apply (produce_list_spec q filters) in Hp as [Hs _]; [|done].
    split; [intros q' t' v key' Hq' Hk' Hl; eapply Hc; [done|done|by apply Hn]|].
    split_and!; done.
  - apply (produce_list_spec q filters) in Hp as [Hs Ha]; [|done]. specialize (Ha m eq_refl).
    split; [|split; [done|split; [done|]]].
    + intros q' t' v key' Hq' Hk' Hl. destruct (Hn _ _ _ Hl) as [Hl'|(-> & -> & _)].
      * by eapply Hc.
      * assert (q' = q) as -> by (apply (cache_key_inj list_path); [done|done|congruence]).
        by exists (working d).
    + split; intros b E; [exists (working d)|intros _]; by rewrite (Hb b E).
Qed.
End sound.

(** ** A small database *)

Module Toy.
Export Database.Toy.
Definition alert_row (i t : Z) (s : AlertStatus) : AlertRow :=
  {| a_id := i; a_fingerprint := [i]; a_source := u "cowrie"; a_event_time := Datetime t (Some 0);
     a_received_at := t; a_raw := [(u "src_ip", JStr (u "203.0.113.7")); (u "sensor", JStr (u "hp"))];
     a_status := s |}.
Definition verdict_of (i aid t cost : Z) : VerdictRow :=
  {| v_id := i; v_alert_id := aid; v_verdict := Verdict.toy_verdict; v_model_primary := u "m";
     v_model_final := u "m"; v_escalated_model := false; v_prompt_version := u "v1";
     v_input_tokens := 10; v_output_tokens := 5; v_cost_usd := cost; v_latency_ms := t;
     v_created_at := t |}.
Definition geo_call : ToolCallRow :=
  {| t_id := 1; t_verdict_id := 2;
     t_record := {| seq := 0; tool_name := GEO_TOOL_NAME; arguments := [];
                    result := [(u "country", JStr (u "DE"))]; tc_latency_ms := 1 |} |}.
(** Alert 1 was triaged twice, alert 2 not at all. *)
Definition toy_tables : tables :=
  Tables [alert_row 1 5 triaged; alert_row 2 US_PER_DAY pending]
         [verdict_of 1 1 10 3; verdict_of 2 1 20 4] [geo_call].
Definition start : db world := Db ([], 0) toy_tables toy_tables false.

#[export] Program Instance average : PgAvg := {
  pg_avg l := Decimal (round_half_up (zsum l * 10 ^ 6) (py_len l)) 6
}.
Next Obligation.
  intros l Hl. cbn [mant dscale]. change (10 ^ Z.of_nat 6) with (10 ^ 6).
  pose proof (round_half_up_error (zsum l * 10 ^ 6) (py_len l)) as H.
  assert (0 < py_len l) by (unfold py_len; destruct l; [done|simpl length; lia]). lia.
Qed.
#[export] Instance counter : RedisCounters world := {
  utc_now w := (0, w);
  counter_get _ := mret (Some [55]);
  incrby_expire _ n _ := mret n
}.
#[export] Instance to_int : PyInt := fun b => Some (undigits b).
#[export] Instance text : StrRepr := fun s => s.

Definition everything : ListFilters :=
  {| severity_gte := None; filter_category := None; since := None; filter_escalate := None |}.
Definition page_items (i : nat) : list AlertSummary :=
  match list_alerts everything (Z.of_nat i + 1) 1 start with (Ret r, _) => r.1 | _ => [] end.
Lemma page_ok i : (i < 2)%nat ->
  working start = working start /\
  list_alerts everything (Z.of_nat i + 1) 1 start = (Ret (page_items i, 2), start).
Proof.
  intros Hi. split; [reflexivity|].
  destruct i as [|[|i]]; [vm_compute; reflexivity..|lia].
Qed.
Lemma toy_tables_ok : tables_ok toy_tables.
Proof.
  split; simpl.
  - apply (bool_decide_unpack _). vm_compute. exact I.
  - intros v. rewrite !elem_of_cons. intros Hv.
    destruct_or! Hv; subst; [by left|by left|by apply not_elem_of_nil in Hv].
  - intros v. rewrite !elem_of_cons. intros Hv.
    destruct_or! Hv; subst; [simpl; lia..|by apply not_elem_of_nil in Hv].
Qed.
End Toy.
Import Toy.

Lemma pages_partition_list_witness :
  exists rows, page_items 0 ++ page_items 1 = map (summary_of toy_tables) rows /\ length rows = 2%nat.
Proof.
  destruct (pages_partition_list everything 1 2 start page_items (fun _ => 2) (fun _ => start)
              (fun _ => start) ltac:(lia) (ok_ids _ toy_tables_ok) page_ok ltac:(vm_compute; congruence))
    as (_ & rows & H & Hp & _).
  exists rows. split; [transitivity (concat (map page_items (List.seq 0 2))); [vm_compute; reflexivity|exact H]|]. rewrite Hp. vm_compute. reflexivity.
Defined.

Definition detail : outcome exn AlertDetail * db world := get_alert_detail str_of_Z 1 start.
Lemma detail_agrees_with_list_witness :
  match detail with
  | (Ret det, _) => ad_base det = as_base (summary_of toy_tables (alert_row 1 5 triaged, Some (verdict_of 2 1 20 4)))
  | _ => False
  end.
Proof.
  destruct detail as [[det|e] d'] eqn:E; [|vm_compute in E; discriminate E].
  destruct (detail_agrees_with_list str_of_Z 1 start d' det E) as (_ & r & Hr & _ & Hb & _).
  rewrite Hb. vm_compute in Hr. injection Hr as <-. vm_compute. reflexivity.
Defined.

Lemma stats_consistent_witness :
  match get_stats true 5 start with
  | (Ret st, _) => zsum (map dc_cost_usd (cost_by_day st)) = 7 /\ budget_exhausted st = true
  | _ => False
  end.
Proof.
  destruct (get_stats true 5 start) as [[st|e] d'] eqn:E; [|vm_compute in E; discriminate E].
  destruct (stats_consistent true 5 start d' st toy_tables_ok E)
    as (_ & _ & _ & _ & _ & _ & _ & _ & Hc & Hb).
  rewrite Hc, Hb. vm_compute in E. injection E as <- _. vm_compute. split; [reflexivity|].
  split; [reflexivity|discriminate].
Defined.

(** Two severities asked of an empty in-memory cache, one after the other. *)
Definition ask (n : Z) : ListQuery :=
  {| q_page := 1; q_page_size := 25;
     q_filters := {| severity_gte := Some n; filter_category := None; since := None;
                     filter_escalate := None |} |}.
Definition json_size (p : PaginatedResponse AlertSummary) : pybytes := [pr_total p].
Definition at_zero : instants := {| read_at := 0; purge_at := 0; store_at := 0 |}.
Definition asked : outcome exn pybytes * (Memory.t * db world) :=
  list_alerts_route json_size (u "/api/v1/alerts") at_zero 30 (ask 5)
    (Memory.InMemoryTTLCache 8 [], start).

Lemma list_cache_sound_witness :
  cache_sound json_size (u "/api/v1/alerts") asked.2.1 /\ asked.1 = Ret [0].
Proof.
  assert (E : list_alerts_route json_size (u "/api/v1/alerts") at_zero 30 (ask 5)
                (Memory.InMemoryTTLCache 8 [], start) = (asked.1, (asked.2.1, asked.2.2)))
    by (vm_compute; reflexivity).
  destruct (list_cache_sound json_size (u "/api/v1/alerts") at_zero 30 (ask 5)
              (Memory.InMemoryTTLCache 8 []) start asked.1 asked.2.1 asked.2.2 I) as [H _].
  - intros q t v key _ _ (x & Hin & _). by apply not_elem_of_nil in Hin.
  - exact E.
  - split; [exact H|vm_compute; reflexivity].
Defined.
