(* ===== verification/Api.v ===== *)
(** * Api: the HTTP boundary

    [api/deps.py] and the ingest and retriage routes ([api/routes/alerts.py],
    [api/routes/admin.py]) with the request-scoped session, opened once the body is valid
    (FastAPI enters it before, and sends no statement).  HMAC-SHA256, the JSON body
    parser, [ipaddress] and the Redis pipeline are parameters; [enqueue] is the seam
    [create_app] is given. *)

From S2P Require Import Prelude Errors Cache Json Datetime Text Signing Schemas Policy Budget Database Job.
#[local] Open Scope Z_scope.

(** ** The request *)

(** Header names are lower-case, values decoded as latin-1. *)
Record Request : Type := {
  headers : list (pystr * pystr);
  rq_body : pybytes;
  client_host : option pystr
}.

Record ApiSettings : Type := {
  ingest_hmac_secret : pystr;
  ingest_max_body_bytes : Z;
  admin_token : pystr;
  retriage_per_day : Z;
  public_rate_limit_per_min : Z
}.

(** ** [api/deps.py] *)

Section deps.
Context {HM : Hmac}.
Variable settings : ApiSettings.

Definition require_content_length (request : Request) : outcome exn unit :=
  match dget (u "content-length") (headers request) with
  | None => Raise (LengthRequiredError (u "Content-Length required"))
  | Some header =>
      if negb (isdigit header) then Raise (LengthRequiredError (u "Content-Length required"))
      else
        n ← int_of_digits header;
        if ingest_max_body_bytes settings <? n
        then Raise (PayloadTooLargeError
               (u "body exceeds " ++ str_of_Z (ingest_max_body_bytes settings) ++ u " bytes"))
        else Ret tt
  end.

Definition require_signature (request : Request) : outcome exn unit :=
  ok ← verify_signature (ingest_hmac_secret settings) (rq_body request)
         (dget SIGNATURE_HEADER (headers request));
  if (ok : bool) then Ret tt else Raise (SignatureError (u "missing or invalid signature")).

(** [s.partition(" ")]: what precedes the first space and what follows it. *)
Fixpoint partition_space (s : pystr) : pystr * pystr :=
  match s with
  | [] => ([], [])
  | c :: s' => if c =? 32 then ([], s') else let '(a, b) := partition_space s' in (c :: a, b)
  end.

Definition require_admin_token (request : Request) : outcome exn unit :=
  let configured := admin_token settings in
  let '(scheme, token) :=
    partition_space (default [] (dget (u "authorization") (headers request))) in
  if bool_decide (configured = []) || negb (bool_decide (scheme = u "Bearer"))
  then Raise (SignatureError (u "missing or invalid admin token"))
  else
    ok ← compare_digest token configured;
    if (ok : bool) then Ret tt
    else Raise (SignatureError (u "missing or invalid admin token")).
End deps.

(** *** The rate limiter *)

(** [ipaddress.ip_address]: the version and the number, [None] for a [ValueError]. *)
Class IpParse : Type := ip_address : pystr -> option (Z * Z).

(** A network: version, address, host bits. *)
Definition network : Type := Z * Z * Z.
Definition v4 (a b c d prefix : Z) : network :=
  (4, ((a * 256 + b) * 256 + c) * 256 + d, 32 - prefix).
Definition _NON_PUBLIC_NETWORKS : list network :=
  [v4 10 0 0 0 8; v4 172 16 0 0 12; v4 192 168 0 0 16; v4 127 0 0 0 8; v4 169 254 0 0 16;
   (6, 1, 0); (6, 252 * 2 ^ 120, 121); (6, (254 * 256 + 128) * 2 ^ 112, 118)].

Definition in_network (ip : Z * Z) (n : network) : bool :=
  let '(version, base, host_bits) := n in
  (ip.1 =? version) && (Z.shiftr ip.2 host_bits =? Z.shiftr base host_bits).

Definition _is_non_public_client_ip `{IpParse} (host : pystr) : bool :=
  match ip_address host with
  | None => true
  | Some ip => existsb (in_network ip) _NON_PUBLIC_NETWORKS
  end.

(** [time.time()] in whole seconds, and the [INCR]/[EXPIRE] pipeline, answering [INCR]'s
    result. *)
Class RedisIncr (W : Type) : Type := {
  time_now : W -> Z * W;
  incr_expire : pystr -> Z -> M exn W Z
}.

Section limits.
Context {W : Type} {RI : RedisIncr W} {IP : IpParse}.
Variable settings : ApiSettings.

Definition rate_key (host : pystr) (minute_bucket : Z) : pystr :=
  u "rl:" ++ host ++ u ":" ++ str_of_Z minute_bucket.

(** [redis] is whether a client is wired. *)
Definition rate_limit (redis : bool) (request : Request) : M exn W unit :=
  if (public_rate_limit_per_min settings <=? 0) || negb redis then mret tt
  else
    match client_host request with
    | None => mret tt
    | Some host =>
        if _is_non_public_client_ip host then mret tt
        else
          now ← (fun w => let '(t, w') := time_now w in (Ret t, w'));
          count ← try_except (n ← incr_expire (rate_key host (now / 60)) 60; mret (Some n))
                    (fun e => if is_redis_failure e then Some (mret None) else None);
          match count with
          | Some n =>
              if public_rate_limit_per_min settings <? n
              then raise (RateLimitedError (u "public rate limit exceeded")
                            (Some (60 - now mod 60)))
              else mret tt
          | None => mret tt
          end
    end.

Definition _RETRIAGE_COUNTER_TTL_S : Z := 172800.
Definition retriage_key (now_us : Z) : pystr := u "retriage:" ++ date_isoformat now_us.

Definition _check_daily_retriage_cap (redis : bool) (now_us : Z) : M exn W unit :=
  if negb redis then raise (QueueUnavailableError (u "retriage counter unavailable"))
  else
    count ← try_except (incr_expire (retriage_key now_us) _RETRIAGE_COUNTER_TTL_S)
              (fun e => if is_redis_failure e
                        then Some (raise (QueueUnavailableError
                                            (u "retriage counter unavailable")))
                        else None);
    if retriage_per_day settings <? count
    then raise (RateLimitedError (u "daily retriage cap exceeded") None)
    else mret tt.
End limits.

(** ** The routes *)

Record IngestResponse : Type := {
  ir_status_code : Z;
  ir_id : uuid;
  ir_status : AlertStatus;
  ir_created : bool
}.

(** FastAPI's body parser: [json.loads], and pydantic's description of what it refused. *)
Class BodyParser : Type := {
  parse_body : pybytes -> option jobj;
  describe_errors : pybytes -> list ApiErrors.request_error
}.

Section routes.
Context {W : Type} {PG : Postgres W} {LZ : LocalZone} {SH : Sha256} {AC : AlertCodec}
  {UT : UuidText} {HM : Hmac} {BP : BodyParser} {RI : RedisIncr W}.
Variable settings : ApiSettings.
(** [EnqueueFn]. *)
Variable enqueue : uuid -> M exn (db W) unit.

(** [SessionDep]: commit on success, roll back on an [Exception]. *)
Definition with_request_session {A} (m : M exn (db W) A) : M exn (db W) A :=
  in_session
    (try_except (r ← m; _ ← commit; mret r)
       (fun e => if is_exception e then Some (_ ← rollback; raise e) else None)).

Definition ingest_alert (payload : Alert.SessionAlert) : M exn (db W) IngestResponse :=
  result ← insert_alert payload;
  _ ← (if created result || bool_decide (status result = pending)
       then _ ← commit; enqueue (alert_id result)
       else mret tt);
  mret {| ir_status_code := if created result then 202 else 200; ir_id := alert_id result;
          ir_status := status result; ir_created := created result |}.

(** An exception of a route, as what the handlers see. *)
Definition as_failure {S A} (m : M exn S A) : M ApiErrors.route_failure S A := fun s =>
  match m s with
  | (Ret a, s') => (Ret a, s')
  | (Raise e, s') => (Raise (ApiErrors.FExn e), s')
  end.

(** The body as a [SessionAlert]: a pydantic rejection is a 422, a validator's [TypeError]
    is not. *)
Definition parse_payload (body : pybytes) : outcome ApiErrors.route_failure Alert.SessionAlert :=
  match parse_body body with
  | None => Raise (ApiErrors.FRequestValidation (describe_errors body))
  | Some raw =>
      match model_validate raw with
      | Ret a => Ret a
      | Raise ValidationError => Raise (ApiErrors.FRequestValidation (describe_errors body))
      | Raise e => Raise (ApiErrors.FExn e)
      end
  end.

(** [SignedRoute]: the length, then the signature, then FastAPI's own handling. *)
Definition custom_handler (request : Request) : M ApiErrors.route_failure (db W) IngestResponse :=
  _ ← as_failure (lift (require_content_length settings request));
  _ ← as_failure (lift (require_signature settings request));
  payload ← lift (parse_payload (rq_body request));
  as_failure (with_request_session (ingest_alert payload)).

(** *** [api/routes/admin.py] *)

(** The class of a lock timeout among the SQLAlchemy errors. *)
Variable is_operational : exn -> bool.

Definition not_eligible (id : uuid) (s : AlertStatus) : exn :=
  ConflictError (u "alert " ++ str_uuid id ++ u " is not eligible for retriage (status="
    ++ match s with pending => u "pending" | triaged => u "triaged" | failed => u "failed" end
    ++ u ")").

Definition on_world {A} (m : M exn W A) : M exn (db W) A := fun d =>
  let '(o, w) := m (outer d) in (o, Db w (durable d) (working d) (aborted d)).

Record RetriageResponse : Type := {
  rr_id : uuid;
  rr_status : AlertStatus;
  retriaged : bool
}.

(** The route's body, under the request session. *)
Definition retriage_body (redis : bool) (now_us : Z) (id : uuid) : M exn (db W) RetriageResponse :=
  _ ← on_world (_check_daily_retriage_cap settings redis now_us);
  row ← get_alert_for_retriage_update str_uuid is_operational id;
  if bool_decide (a_status row = pending) then raise (not_eligible id (a_status row))
  else
    _ ← flip_alert_to_pending row;
    _ ← commit;
    _ ← enqueue id;
    mret {| rr_id := id; rr_status := pending; retriaged := true |}.

Definition retriage_alert (request : Request) (redis : bool) (now_us : Z) (id : uuid)
    : M exn (db W) RetriageResponse :=
  _ ← lift (require_admin_token settings request);
  with_request_session (retriage_body redis now_us id).
End routes.

(** [api/main.py]: the queue [create_app] is given. *)
Definition enqueue {W : Type} {QU : Queue W} {UT : UuidText} (id : uuid) : M exn (db W) unit :=
  on_world (_ ← enqueue_triage id; mret tt).

(** ** The gates *)

Section gates.
Context {HM : Hmac}.
Variable settings : ApiSettings.

Lemma partition_space_spec s a b :
  partition_space s = (a, b) -> (32 ∉ a) /\ (s = a /\ b = [] \/ s = a ++ 32 :: b).
Proof.
  revert a b. induction s as [|c s IH]; intros a b; simpl.
  - intros [= <- <-]. split; [apply not_elem_of_nil|by left].
  - destruct (Z.eqb_spec c 32) as [->|Hc].
    + intros [= <- <-]. split; [apply not_elem_of_nil|by right].
    + destruct (partition_space s) as [a' b']. intros [= <- <-].
      destruct (IH a' b' eq_refl) as [Hn Hs].
      split; [rewrite not_elem_of_cons; split; [congruence|done]|]. naive_solver.
Qed.

Lemma partition_bearer s token :
  token <> [] -> partition_space s = (u "Bearer", token) <-> s = u "Bearer " ++ token.
Proof.
  intros Ht. split.
  - intros [_ [[_ ->]| ->]]%partition_space_spec; done.
  - by intros ->.
Qed.

(** The admin gate opens exactly for [Bearer] and the configured, non-empty, ASCII
    token; every other request is refused with a [SignatureError], but for a [Bearer]
    token with a non-ASCII character (or one configured so): the comparison itself raises
    [TypeError], which the API answers as an internal error instead of a 401. *)
Theorem admin_gate_exact request :
  let header := default [] (dget (u "authorization") (headers request)) in
  let configured := admin_token settings in
  let '(scheme, token) := partition_space header in
  (require_admin_token settings request = Ret tt <->
     configured <> [] /\ is_ascii configured = true /\ header = u "Bearer " ++ configured) /\
  (forall e, require_admin_token settings request = Raise e ->
     e = SignatureError (u "missing or invalid admin token") \/
     (e = TypeError /\ scheme = u "Bearer" /\ configured <> [] /\
        (is_ascii token = false \/ is_ascii configured = false))).
Proof.
  cbv zeta. unfold require_admin_token.
  set (header := default [] (dget (u "authorization") (headers request))).
  destruct (partition_space header) as [scheme token] eqn:Hp.
  case_bool_decide as Hc; cbn [orb]; [naive_solver|].
  case_bool_decide as Hb; cbn [negb].
  2: { split; [|naive_solver]. split; [done|]. intros (_ & _ & Hh). exfalso. apply Hb.
       rewrite <- (partition_bearer header _ Hc) in Hh. congruence. }
  subst scheme. unfold compare_digest. destruct (is_ascii token) eqn:Ht; cbn [andb].
  - destruct (is_ascii (admin_token settings)) eqn:Hac; simpl; [|naive_solver].
    case_bool_decide as He; [subst token|].
    + split; [|done]. split; [|done]. intros _. split_and!; [done..|]. by apply partition_bearer.
    + split; [|naive_solver]. split; [done|]. intros (_ & _ & Hh).
      rewrite <- (partition_bearer header _ Hc) in Hh. congruence.
  - simpl. split; [|naive_solver]. split; [done|]. intros (_ & Hac & Hh).
    rewrite <- (partition_bearer header _ Hc) in Hh. congruence.
Qed.

Lemma require_signature_spec request :
  require_signature settings request = Ret tt <->
  ingest_hmac_secret settings <> [] /\
  exists h, dget SIGNATURE_HEADER (headers request) = Some h /\
    sign_body (ingest_hmac_secret settings) (rq_body request) = Ret h.
Proof.
  rewrite <- verify_signature_iff. unfold require_signature.
  destruct (verify_signature _ _ _) as [[]|e]; simpl; naive_solver.
Qed.

Lemma require_content_length_spec request :
  require_content_length settings request = Ret tt ->
  exists header, dget (u "content-length") (headers request) = Some header /\
    header <> [] /\ forallb is_ascii_digit header = true /\
    undigits header <= ingest_max_body_bytes settings.
Proof.
  unfold require_content_length, int_of_digits.
  destruct (dget _ _) as [header|]; [|done]. destruct (isdigit header) eqn:Hd; simpl; [|done].
  destruct (forallb is_ascii_digit header) eqn:Ha; simpl; [|done].
  destruct (4300 <? py_len header); simpl; [done|].
  destruct (Z.ltb_spec (ingest_max_body_bytes settings) (undigits header)); [done|].
  intros _. exists header. split_and!; try done. by destruct header.
Qed.
End gates.

(** ** The ingest route *)

Section ingest.
Context {W : Type} {PG : Postgres W} {LZ : LocalZone} {SH : Sha256} {AC : AlertCodec}
  {UT : UuidText} {HM : Hmac} {BP : BodyParser} {RI : RedisIncr W}.
Variable settings : ApiSettings.
Implicit Types (enq : uuid -> M exn (db W) unit) (d : db W).

(** A declared length within the cap and the signature of the exact body. *)
Definition authenticated (request : Request) : Prop :=
  (exists header, dget (u "content-length") (headers request) = Some header /\
     header <> [] /\ forallb is_ascii_digit header = true /\
     undigits header <= ingest_max_body_bytes settings) /\
  ingest_hmac_secret settings <> [] /\
  exists h, dget SIGNATURE_HEADER (headers request) = Some h /\
    sign_body (ingest_hmac_secret settings) (rq_body request) = Ret h.

(** C15: ingest fails closed: a request whose declared length or signature does not hold
    (an unset secret included), or whose body is no alert, raises before any session is
    opened and leaves every state as it was; only an authenticated one reaches the
    route. *)
Theorem ingest_fail_closed enq request d o d' :
  custom_handler settings enq request d = (o, d') ->
  (d' = d /\ exists f, o = Raise f) \/
  (authenticated request /\ exists a, parse_payload (rq_body request) = Ret a /\
     as_failure (with_request_session (ingest_alert enq a)) d = (o, d')).
Proof.
  unfold custom_handler, mbind, M_bind, as_failure at 1 2, lift.
  destruct (require_content_length settings request) as [[]|e] eqn:Hl;
    [|intros [= <- <-]; left; eauto].
  destruct (require_signature settings request) as [[]|e] eqn:Hs;
    [|intros [= <- <-]; left; eauto].
  destruct (parse_payload (rq_body request)) as [a|f] eqn:Hp; [|intros [= <- <-]; left; eauto].
  intros H. right. split; [|eauto]. split; [by apply require_content_length_spec|].
  by apply require_signature_spec.
Qed.

Lemma inserted_present a d r d' :
  insert_alert a d = (Ret r, d') -> is_Some (find_alert (alert_id r) (working d')).
Proof.
  intros (_ & fp & _ & Hins)%insert_alert_spec. unfold inserted in Hins.
  destruct (find_alert (alert_id r) (working d')) eqn:E; [done|]. exfalso.
  apply find_alert_None in E. destruct E. apply list_elem_of_fmap. destruct (created r).
  - destruct Hins as (_ & _ & row & -> & <- & _). exists row. simpl. set_solver.
  - destruct Hins as (-> & row & [Hin _]%find_fingerprint_Some & -> & _). by exists row.
Qed.

(** The explicit commit makes the row durable before [enqueue] runs. *)
Lemma committed_before_enqueue a d r d1 d2 :
  aborted d = false -> insert_alert a d = (Ret r, d1) -> commit d1 = (Ret tt, d2) ->
  is_Some (find_alert (alert_id r) (durable d2)) /\ durable d2 = working d1.
Proof.
  intros Ha Hi Hc. pose proof (insert_alert_open a _ _ _ Ha Hi) as Ha1.
  apply inserted_present in Hi. apply commit_spec in Hc as [->|[_ [e ?]]]; done.
Qed.

Lemma ingest_alert_congr enq1 enq2 a d :
  (forall id d, is_Some (find_alert id (durable d)) -> enq1 id d = enq2 id d) ->
  aborted d = false -> ingest_alert enq1 a d = ingest_alert enq2 a d.
Proof.
  intros Henq Ha. unfold ingest_alert, mbind, M_bind.
  destruct (insert_alert a d) as [[r|e] d1] eqn:Hi; [|done].
  destruct (created r || bool_decide (status r = pending)); [|done].
  destruct (commit d1) as [[[]|e] d2] eqn:Hc; [|done].
  rewrite Henq; [done|]. by eapply committed_before_enqueue.
Qed.

Lemma commit_settles d o d' : commit d = (o, d') -> working d' = durable d'.
Proof.
  unfold commit. destruct (aborted d); [by intros [= _ <-]|].
  by destruct (commit_statement (outer d)) as [[o1 []] w]; intros [= _ <-].
Qed.

(** What an ingest leaves durable: nothing new, or the alert's own [pending] row. *)
Definition ingested (a : Alert.SessionAlert) (ts ts' : tables) : Prop :=
  ts' = ts \/
  exists fp row, Alert.fingerprint a = Some fp /\ (fp ∉ map a_fingerprint (alerts ts)) /\
    ts' = add_alert row ts /\ a_fingerprint row = fp /\ a_status row = pending /\
    a_raw row = alert_dump a /\ (a_id row ∉ map a_id (alerts ts)).

Lemma inserted_ingested a fp d d' r :
  Alert.fingerprint a = Some fp -> inserted a fp d d' r -> ingested a (working d) (working d').
Proof.
  intros Hfp. unfold inserted. destruct (created r).
  - intros (Hn & _ & row & -> & _ & Hf & Hs & Hraw & Hi). right. exists fp, row. by split_and!.
  - intros [-> _]. by left.
Qed.

(** The request session after its body. *)
Lemma request_session_spec {A} (m : M exn (db W) A) d o d' :
  with_request_session m d = (o, d') ->
  exists o1 d1, m (Db (outer d) (durable d) (durable d) false) = (o1, d1) /\
  match o1 with
  | Raise _ => durable d' = durable d1 /\ exists e, o = Raise e
  | Ret a => exists oc d2, commit d1 = (oc, d2) /\ durable d' = durable d2 /\
      match oc with Ret _ => o = Ret a | Raise _ => exists e, o = Raise e end
  end.
Proof.
  unfold with_request_session, in_session, try_except.
  set (d0 := Db (outer d) (durable d) (durable d) false). unfold mbind at 1, M_bind at 1.
  assert (Hroll : forall (e : exn) d1 (oa : outcome exn A) d2,
    match (if is_exception e then Some (_ ← rollback; raise e) else None) with
    | Some k => k d1
    | None => (Raise e, d1)
    end = (oa, d2) -> durable d2 = durable d1 /\ exists e', oa = Raise e').
  { intros e d1 oa d2. destruct (is_exception e); [|intros [= <- <-]; eauto].
    intros [([] & d3 & Hr%rollback_spec & H)|(e' & Hr%rollback_spec & ->)]%bind_inv; [|eauto].
    unfold raise in H. simplify_eq. eauto. }
  destruct (m d0) as [[a|e] d1] eqn:Em; intros H; eexists _, d1; (split; [reflexivity|]).
  - destruct ((_ ← commit; mret a) d1) as [o2 d2] eqn:Ec.
    apply bind_inv in Ec as [([] & d3 & Hc & Hr)|(e & Hc & ->)].
    + unfold mret, M_ret in Hr. injection Hr as <- <-. injection H as <- <-. by exists (Ret tt), d3.
    + exists (Raise e), d2. split; [done|].
      match type of H with (let '(_, _) := ?x in _) = _ => destruct x as [oa d4] eqn:E end.
      apply Hroll in E as [E [e' ->]]. injection H as <- <-. simpl. eauto.
  - match type of H with (let '(_, _) := ?x in _) = _ => destruct x as [oa d4] eqn:E end.
    apply Hroll in E as [E [e' ->]]. injection H as <- <-. simpl. eauto.
Qed.
(** The queue is not the database. *)
Definition frames {A} (m : M exn (db W) A) : Prop :=
  forall d o d', m d = (o, d') -> durable d' = durable d /\ working d' = working d.

Lemma on_world_frames {A} (m : M exn W A) : frames (on_world m).
Proof. intros d o d'. unfold on_world. destruct (m (outer d)). by intros [= _ <-]. Qed.

Lemma enqueue_frames {QU : Queue W} id : frames (@enqueue W QU UT id).
Proof. apply on_world_frames. Qed.

(** The reply describes a durable row. *)
Definition reply_holds (a : Alert.SessionAlert) (ts ts' : tables) (r : IngestResponse) : Prop :=
  exists fp row, Alert.fingerprint a = Some fp /\ row ∈ alerts ts' /\ a_id row = ir_id r /\
    a_fingerprint row = fp /\ a_status row = ir_status r /\
    if ir_created r
    then ir_status_code r = 202 /\ ir_status r = pending /\ (fp ∉ map a_fingerprint (alerts ts)) /\
         ts' = add_alert row ts /\ a_raw row = alert_dump a
    else ir_status_code r = 200 /\ ts' = ts.

(** The route on a fresh session: its view is committed when it ends, and a [pending] reply
    comes from an [enqueue] that saw it so. *)
Lemma ingest_alert_spec enq a d o d' :
  (forall id, frames (enq id)) -> aborted d = false -> working d = durable d ->
  ingest_alert enq a d = (o, d') ->
  working d' = durable d' /\ (ingested a (durable d) (durable d')) /\
  (wf_tables (durable d) -> wf_tables (durable d')) /\
  (forall r, o = Ret r -> reply_holds a (durable d) (durable d') r /\
     (ir_status r = pending -> exists d1, enq (ir_id r) d1 = (Ret tt, d') /\ durable d1 = durable d') /\
     (ir_status r <> pending -> forall enq2, ingest_alert enq2 a d = (o, d'))).
Proof.
  intros Henq Ha Hset H. unfold ingest_alert in H |- *.
  apply bind_inv in H as [(r1 & d1 & Hi & H)|(e & Hi & ->)].
  2: { apply insert_alert_spec in Hi as [Hd Hw]. rewrite Hw, Hd, Hset. by split_and!; [|left| |]. }
  pose proof (committed_before_enqueue a d r1 d1) as Hcommit.
  pose proof Hi as (Hd1 & fp & Hfp & Hins)%insert_alert_spec.
  pose proof (inserted_ingested _ _ _ _ _ Hfp Hins) as Hing. rewrite Hset in Hing.
  assert (Hwf : wf_tables (durable d) -> wf_tables (working d1)).
  { rewrite <- Hset. intros ?. by eapply inserted_wf. }
  assert (Hreply : reply_holds a (durable d) (working d1)
    {| ir_status_code := if created r1 then 202 else 200; ir_id := alert_id r1;
       ir_status := status r1; ir_created := created r1 |}).
  { unfold inserted in Hins. exists fp. simpl. rewrite <- Hset. destruct (created r1).
    - destruct Hins as (Hn & Hs & row & Hw1 & ? & ? & ? & ? & _). exists row. rewrite Hs, Hw1.
      split_and!; try done. simpl. set_solver.
    - destruct Hins as (Hw1 & row & [Hin Hf]%find_fingerprint_Some & -> & ->). exists row.
      rewrite Hw1. by split_and!. }
  assert (Hbr : created r1 || bool_decide (status r1 = pending) = true <-> status r1 = pending).
  { unfold inserted in Hins. rewrite orb_true_iff, bool_decide_eq_true.
    destruct (created r1); [|naive_solver]. split; [naive_solver|by left]. }
  destruct (created r1 || bool_decide (status r1 = pending)) eqn:Eb.
  - assert (Hpend : status r1 = pending) by by apply Hbr.
    apply bind_inv in H as [([] & d3 & H & Hret)|(e & H & ->)].
    + apply bind_inv in H as [([] & d2 & Hc & He)|(e & _ & ?)]; [|done].
      destruct (Hcommit d2 Ha Hi Hc) as [_ Hd2]. pose proof (commit_settles _ _ _ Hc) as Hw2.
      apply Henq in He as Hf. destruct Hf as [Hd3 Hw3].
      unfold mret, M_ret in Hret. injection Hret as <- <-.
      rewrite Hd3, Hw3, Hw2, Hd2. split_and!; [done..|]. intros r [= <-].
      split_and!; [done|intros _|done]. by exists d2.
    + assert (Hend : durable d' = durable d1 \/ durable d' = working d1).
      { apply bind_inv in H as [([] & d2 & Hc & He)|(e' & Hc & _)].
        - apply Hcommit in Hc as [_ Hc]; [|done..]. apply Henq in He as [-> _]. by right.
        - apply commit_spec in Hc as [?|[? _]]; [by right|by left|by eapply insert_alert_open]. }
      assert (Hw : working d' = durable d').
      { apply bind_inv in H as [([] & d2 & Hc & [Hd3 Hw3]%Henq)|(e' & Hc & _)];
          [rewrite Hd3, Hw3|]; by eapply commit_settles. }
      split_and!; [done| | |done]; destruct Hend as [-> | ->]; try done; rewrite Hd1; [by left|done].
  - assert (Hnp : status r1 <> pending) by (by intros ?%Hbr).
    apply bind_inv in H as [([] & d2 & H & Hret)|(e & [= ] & _)].
    unfold mret, M_ret in H, Hret. injection H as <-. injection Hret as <- <-.
    assert (Hw1 : working d1 = durable d1).
    { unfold inserted in Hins. destruct (created r1); [naive_solver|].
      destruct Hins as [-> _]. by rewrite Hd1. }
    rewrite Hw1 in *. split_and!; [done..|]. intros r [= <-]. split_and!; [done|done|].
    intros _ enq2. unfold mbind, M_bind. rewrite Hi, Eb. done.
Qed.
Lemma session_settled {A} (m : M exn (db W) A) d o d' :
  (forall o1 d1, m (Db (outer d) (durable d) (durable d) false) = (o1, d1) ->
     working d1 = durable d1) ->
  with_request_session m d = (o, d') ->
  exists o1 d1, m (Db (outer d) (durable d) (durable d) false) = (o1, d1) /\
    durable d' = durable d1 /\ (forall a, o = Ret a -> o1 = Ret a).
Proof.
  intros Hm (o1 & d1 & E & H)%request_session_spec. exists o1, d1. split; [done|].
  specialize (Hm _ _ E). destruct o1 as [a|e].
  - destruct H as (oc & d2 & Hc & -> & Ho). split; [by eapply commit_same|].
    intros b ->. destruct oc; [by injection Ho as ->|by destruct Ho].
  - destruct H as [-> [e' ->]]. done.
Qed.

(** A fresh session on [d]'s tables. *)
Definition opened d : db W := Db (outer d) (durable d) (durable d) false.

Lemma custom_handler_session enq request d o d' :
  (forall id, frames (enq id)) -> custom_handler settings enq request d = (o, d') ->
  (d' = d /\ exists f, o = Raise f) \/
  exists a o1 d1, parse_payload (rq_body request) = Ret a /\
    ingest_alert enq a (opened d) = (o1, d1) /\ durable d' = durable d1 /\
    (forall r, o = Ret r -> o1 = Ret r).
Proof.
  intros Henq. unfold custom_handler, mbind, M_bind, as_failure at 1 2, lift.
  destruct (require_content_length settings request) as [[]|e]; [|intros [= <- <-]; left; eauto].
  destruct (require_signature settings request) as [[]|e]; [|intros [= <- <-]; left; eauto].
  destruct (parse_payload (rq_body request)) as [a|f]; [|intros [= <- <-]; left; eauto].
  unfold as_failure. destruct (with_request_session (ingest_alert enq a) d) as [o2 d2] eqn:E.
  intros H. right. apply session_settled in E as (o1 & d1 & E & Hd & Ho).
  2: { intros o1 d1 H1. by apply (ingest_alert_spec enq a (opened d)) in H1 as [? _]. }
  exists a, o1, d1. split_and!; [done..| |]; destruct o2 as [r2|e2]; injection H as <- <-;
    try done. by intros r [= <-]; apply Ho.
Qed.

Lemma custom_handler_congr enq1 enq2 request d :
  (forall a, parse_payload (rq_body request) = Ret a ->
     ingest_alert enq1 a (opened d) = ingest_alert enq2 a (opened d)) ->
  custom_handler settings enq1 request d = custom_handler settings enq2 request d.
Proof.
  intros Ha. unfold custom_handler, mbind, M_bind, as_failure at 1 2 4 5, lift.
  destruct (require_content_length settings request) as [[]|e]; [|done].
  destruct (require_signature settings request) as [[]|e]; [|done].
  destruct (parse_payload (rq_body request)) as [a|f]; [|done]. specialize (Ha a eq_refl).
  unfold as_failure, with_request_session, in_session, try_except, mbind, M_bind.
  unfold opened in Ha. by rewrite Ha.
Qed.

(** Whatever the database and the queue do, an ingest leaves the committed tables as
    they were or with exactly this alert's own new [pending] row, their constraints hold,
    and its reply is true of them: 202 exactly when this request created the row, 200 with
    the existing row's id and status for a known fingerprint. *)
Theorem ingest_reply_truthful enq request d o d' :
  (forall id, frames (enq id)) -> custom_handler settings enq request d = (o, d') ->
  (durable d' = durable d /\ exists f, o = Raise f) \/
  exists a, parse_payload (rq_body request) = Ret a /\
    ingested a (durable d) (durable d') /\
    (wf_tables (durable d) -> wf_tables (durable d')) /\
    (forall r, o = Ret r -> reply_holds a (durable d) (durable d') r).
Proof.
  intros Henq [[-> Hf]|(a & o1 & d1 & Hp & E & -> & Ho)]%custom_handler_session; [by left| |done].
  right. exists a. apply ingest_alert_spec in E as (_ & ? & ? & Hr); [|done..].
  split_and!; [done..|]. intros r Hret. by apply (Hr r (Ho r Hret)).
Qed.

(** C14: the job is queued only for a row already durable, so a worker never misses it: two
    queues that agree on durable ids cannot be told apart; an alert answered [pending] was
    accepted by the queue while durable, and one answered otherwise never reached it. *)
Theorem ingest_enqueues_durable_pending enq request d :
  (forall enq2, (forall id d1, is_Some (find_alert id (durable d1)) -> enq id d1 = enq2 id d1) ->
     custom_handler settings enq request d = custom_handler settings enq2 request d) /\
  ((forall id, frames (enq id)) ->
   forall r d', custom_handler settings enq request d = (Ret r, d') ->
   (ir_status r = pending -> exists d1 d2, enq (ir_id r) d1 = (Ret tt, d2) /\
      durable d1 = durable d') /\
   (ir_status r <> pending -> forall enq2, custom_handler settings enq2 request d = (Ret r, d'))).
Proof.
  split.
  - intros enq2 Hagree. apply custom_handler_congr. intros a _. by apply ingest_alert_congr.
  - intros Henq r d' H.
    pose proof H as [[_ [f ?]]|(a & o1 & d1 & Hp & E & -> & Ho)]%custom_handler_session; [done| |done].
    rewrite (Ho r eq_refl) in E. pose proof E as (_ & _ & _ & Hr)%ingest_alert_spec; [|done..].
    destruct (Hr r eq_refl) as (_ & Hpend & Hnot). split.
    + intros (d2 & He & Hd)%Hpend. by exists d2, d1.
    + intros Hs enq2. rewrite <- H. apply custom_handler_congr. intros a' Hp'.
      assert (a' = a) as -> by congruence. rewrite E. by apply Hnot.
Qed.
End ingest.

(** ** The retriage route *)

Section retriage.
Context {W : Type} {PG : Postgres W} {UT : UuidText} {RI : RedisIncr W}.
Variable settings : ApiSettings.
Variable is_operational : exn -> bool.
Implicit Types (enq : uuid -> M exn (db W) unit) (d : db W).

(** The day's counter, after this request, is within the cap. *)
Definition within_cap (now_us : Z) (w : W) : Prop :=
  exists n w', incr_expire (retriage_key now_us) _RETRIAGE_COUNTER_TTL_S w = (Ret n, w') /\
    n <= retriage_per_day settings.

Lemma check_cap_spec redis now_us w w' :
  _check_daily_retriage_cap settings redis now_us w = (Ret tt, w') ->
  redis = true /\ within_cap now_us w.
Proof.
  unfold _check_daily_retriage_cap, within_cap, mbind, M_bind, try_except.
  destruct redis; simpl; [|done].
  destruct (incr_expire _ _ w) as [[n|e] w1]; [|by destruct (is_redis_failure e)].
  destruct (Z.ltb_spec (retriage_per_day settings) n); [done|]. intros _. split; [done|]. eauto.
Qed.

Lemma get_alert_for_retriage_update_spec id d o d' :
  get_alert_for_retriage_update str_uuid is_operational id d = (o, d') ->
  same_tables d d' /\
  (forall row, o = Ret row -> find_alert id (working d) = Some row /\ aborted d' = false).
Proof.
  unfold get_alert_for_retriage_update.
  intros [([] & d1 & [[Hd1 Hw1] _]%execute_statement_spec & H)
         |(e & H1%execute_statement_spec & ->)]%bind_inv; [|naive_solver].
  unfold same_tables. rewrite <- Hd1, <- Hw1. clear Hd1 Hw1 d. unfold mbind, M_bind, try_except in H.
  destruct (execute_statement d1) as [[[]|e] d2] eqn:E;
    apply execute_statement_spec in E as [[Hd Hw] Ha].
  - unfold mbind, M_bind, get in H. rewrite Hw in H. destruct (Ha eq_refl) as [_ Ha2].
    destruct (find_alert id (working d1)); unfold mret, M_ret, raise in H; injection H as <- <-;
      (split; [done|]); [|done]. intros row [= <-]. done.
  - destruct (is_operational e); [unfold raise in H|]; injection H as <- <-; done.
Qed.

Lemma retriage_body_spec enq redis now_us id d o d' :
  (forall id, frames (enq id)) -> working d = durable d -> aborted d = false ->
  retriage_body settings enq is_operational redis now_us id d = (o, d') ->
  (durable d' = durable d /\ (exists e, o = Raise e)) \/
  (redis = true /\ within_cap now_us (outer d) /\
   (exists row, find_alert id (durable d) = Some row /\ a_status row <> pending) /\
   durable d' = update_status id pending (durable d) /\ working d' = durable d' /\
   (forall r, o = Ret r -> r = {| rr_id := id; rr_status := pending; retriaged := true |} /\
      exists d1, enq id d1 = (Ret tt, d') /\ durable d1 = durable d')).
Proof.
  intros Henq Hset Hab H. unfold retriage_body in H.
  apply bind_inv in H as [([] & d1 & H1 & H)|(e & H1 & ->)];
    pose proof (on_world_frames _ _ _ _ H1) as [Hd1 Hw1]; [|left; eauto].
  assert (Hcap : redis = true /\ within_cap now_us (outer d)).
  { unfold on_world in H1. destruct (_check_daily_retriage_cap _ _ _ _) as [oc w] eqn:E.
    injection H1 as -> _. by apply check_cap_spec in E. }
  apply bind_inv in H as [(row & d2 & [[Hd2 Hw2] Hr]%get_alert_for_retriage_update_spec & H)
    |(e & [[Hd2 _] _]%get_alert_for_retriage_update_spec & ->)]; [|left; split; [congruence|eauto]].
  destruct (Hr row eq_refl) as [Hrow Ha2]. rewrite Hw1, Hset in Hrow.
  case_bool_decide as Hp; [unfold raise in H; injection H as <- <-; left; split; [congruence|eauto]|].
  apply find_alert_Some in Hrow as Hi. destruct Hi as [_ Hi].
  apply bind_inv in H as [([] & d3 & H3 & H)|(e & H3 & ->)]; unfold flip_alert_to_pending in H3;
    apply bind_inv in H3 as [([] & d4 & [[Hd4 Hw4] Ha4]%execute_statement_spec & H3)
                            |(e' & [[Hd4 Hw4] _]%execute_statement_spec & H3)]; try done.
  2: { left. split; [congruence|eauto]. }
  unfold set_working in H3. injection H3 as <-. destruct (Ha4 eq_refl) as [_ Ha].
  apply bind_inv in H as [([] & d5 & Hc & H)|(e & Hc & ->)];
    pose proof (commit_settles _ _ _ Hc) as Hw5; apply commit_spec in Hc; try done; simpl in Hc;
    rewrite Hw4, Hw2, Hw1, Hset, Hd4, Hd2, Hd1, Hi in Hc.
  2: { destruct Hc as [Hc|[Hc _]]; [right|left; eauto]. destruct Hcap. split_and!; eauto. done. }
  destruct Hc as [Hc|[_ [e ?]]]; [|done].
  assert (Hend : durable d' = durable d5 /\ working d' = working d5 /\ forall r, o = Ret r ->
    r = {| rr_id := id; rr_status := pending; retriaged := true |} /\ enq id d5 = (Ret tt, d')).
  { apply bind_inv in H as [([] & d6 & He & Hret)|(e & He & ->)];
      pose proof (Henq _ _ _ _ He) as [? ?]; [|done].
    unfold mret, M_ret in Hret. injection Hret as <- <-. split_and!; [done..|]. by intros r [= <-]. }
  destruct Hend as (Hd6 & Hw6 & Hret). right. destruct Hcap. rewrite Hd6, Hw6, Hw5.
  split_and!; try done; [by eauto|]. intros r [? ?]%Hret. split; [done|]. by exists d5.
Qed.
Lemma retriage_body_settled enq redis now_us id d o d' :
  (forall id, frames (enq id)) -> working d = durable d ->
  retriage_body settings enq is_operational redis now_us id d = (o, d') -> working d' = durable d'.
Proof.
  intros Henq Hset H. unfold retriage_body in H.
  apply bind_inv in H as [([] & d1 & H1 & H)|(e & H1 & ->)];
    pose proof (on_world_frames _ _ _ _ H1) as [Hd1 Hw1]; [|congruence].
  apply bind_inv in H as [(row & d2 & [[Hd2 Hw2] _]%get_alert_for_retriage_update_spec & H)
    |(e & [[Hd2 Hw2] _]%get_alert_for_retriage_update_spec & ->)]; [|congruence].
  case_bool_decide as Hp; [unfold raise in H; injection H as <- <-; congruence|].
  apply bind_inv in H as [([] & d3 & _ & H)|(e & H & ->)].
  - apply bind_inv in H as [([] & d4 & Hc%commit_settles & H)|(e & Hc%commit_settles & ->)]; [|done].
    apply bind_inv in H as [([] & d5 & [Hd5 Hw5]%Henq & H)|(e & [Hd5 Hw5]%Henq & ->)]; [|congruence].
    unfold mret, M_ret in H. injection H as <- <-. congruence.
  - unfold flip_alert_to_pending in H.
    apply bind_inv in H as [([] & d4 & _ & H)|(e' & [[Hd4 Hw4] _]%execute_statement_spec & H)];
      [done|congruence].
Qed.

Lemma retriage_session enq request redis now_us id d o d' :
  (forall id, frames (enq id)) ->
  retriage_alert settings enq is_operational request redis now_us id d = (o, d') ->
  (require_admin_token settings request <> Ret tt /\ d' = d /\ exists e, o = Raise e) \/
  (require_admin_token settings request = Ret tt /\ exists o1 d1,
     retriage_body settings enq is_operational redis now_us id (opened d) = (o1, d1) /\
     durable d' = durable d1 /\ (forall r, o = Ret r -> o1 = Ret r)).
Proof.
  intros Henq. unfold retriage_alert, mbind at 1, M_bind at 1, lift.
  destruct (require_admin_token settings request) as [[]|e]; [|intros [= <- <-]; left; eauto].
  intros H. right. split; [done|]. apply session_settled in H; [done|].
  intros o1 d1 E. eapply retriage_body_settled; [..|exact E]; done.
Qed.

(** Retriage only ever sends a settled alert back to [pending]. *)
Lemma retriage_effect enq request redis now_us id d o d' :
  retriage_alert settings enq is_operational request redis now_us id d = (o, d') ->
  (forall id, frames (enq id)) ->
  durable d' = durable d \/
  exists row, find_alert id (durable d) = Some row /\ a_status row <> pending /\
    durable d' = update_status id pending (durable d).
Proof.
  intros H Henq. apply retriage_session in H as [(_ & -> & _)|(_ & o1 & d1 & H & -> & _)];
    [by left| |done].
  apply retriage_body_spec in H as [[Hd _]|(_ & _ & (row & ? & ?) & Hd & _)]; try done; [by left|].
  right. by exists row.
Qed.

(** C20: retriage happens only behind the gate and under the cap: without the admin token
    nothing at all is touched, the day's counter included; otherwise the tables change in
    one way, an alert that was [triaged] or [failed] going back to [pending], and only when
    this request's count is within the day's cap; the reply says so, and the queue accepted
    the job when the [pending] status was already durable. *)
Theorem retriage_guarded enq request redis now_us id d o d' :
  (forall id, frames (enq id)) ->
  retriage_alert settings enq is_operational request redis now_us id d = (o, d') ->
  (require_admin_token settings request <> Ret tt -> d' = d /\ exists e, o = Raise e) /\
  ((durable d' = durable d /\ exists e, o = Raise e) \/
   (require_admin_token settings request = Ret tt /\ redis = true /\
    within_cap now_us (outer d) /\
    (exists row, find_alert id (durable d) = Some row /\ a_status row <> pending) /\
    durable d' = update_status id pending (durable d) /\
    (forall r, o = Ret r -> r = {| rr_id := id; rr_status := pending; retriaged := true |} /\
       exists d1 d2, enq id d1 = (Ret tt, d2) /\ durable d1 = durable d'))).
Proof.
  intros Henq [(Hn & -> & He)|(Ha & o1 & d1 & H & -> & Ho)]%retriage_session; [by eauto| |done].
  split; [done|].
  apply retriage_body_spec in H as [[Hd [e ->]]|(? & ? & ? & ? & _ & Hr)]; try done.
  - left. split; [done|]. destruct o as [r|e']; [by specialize (Ho r eq_refl)|eauto].
  - right. split_and!; [done..|]. intros r [? (d2 & ? & ?)]%Ho%Hr. split; [done|]. by exists d2, d1.
Qed.
End retriage.

(** ** Signed requests *)

Module Toy.
Export Job.Toy.

Lemma toy_hex_ascii (k b : pybytes) : is_ascii (map (fun c => c mod 128) (k ++ b)) = true.
Proof.
  unfold is_ascii. apply forallb_forall. intros c (x & <- & _)%in_map_iff.
  pose proof (Z.mod_pos_bound x 128). lia.
Qed.
#[export] Instance hmac : Hmac :=
  {| hmac_hexdigest k b := map (fun c => c mod 128) (k ++ b); hmac_hexdigest_ascii := toy_hex_ascii |}.
(** One body is an alert. *)
#[export] Instance bodies : BodyParser := {
  parse_body b := match b with [1] => Some (alert_dump session_alert) | _ => None end;
  describe_errors _ := []
}.
#[export] Instance redis : RedisIncr world := {
  time_now w := (0, w);
  incr_expire _ _ := mret 1
}.

Definition settings : ApiSettings :=
  {| ingest_hmac_secret := u "k"; ingest_max_body_bytes := 100; admin_token := u "t";
     retriage_per_day := 1; public_rate_limit_per_min := 5 |}.
Definition signed (body : pybytes) : Request :=
  {| headers := [(u "content-length", u "1"); (u "x-signature", u "sha256=k" ++ body);
                 (u "authorization", u "Bearer t")];
     rq_body := body; client_host := None |}.
Definition unsigned (body : pybytes) : Request :=
  {| headers := [(u "content-length", u "1")]; rq_body := body; client_host := None |}.
(** The queue unreachable. *)
Definition down : uuid -> M exn (db world) unit := fun _ => raise (QueueUnavailableError (u "down")).
Lemma down_frames id : frames (down id).
Proof. intros d o d'. by intros [= _ <-]. Qed.

Definition accepted : db world := (custom_handler settings enqueue (signed [1]) start).2.
Definition reply : IngestResponse :=
  {| ir_status_code := 202; ir_id := 7; ir_status := pending; ir_created := true |}.
Lemma accepted_run : custom_handler settings enqueue (signed [1]) start = (Ret reply, accepted).
Proof. vm_compute. reflexivity. Qed.
Definition parked : db world := (custom_handler settings down (signed [1]) start).2.
Definition unavailable : exn := QueueUnavailableError (u "down").
Lemma parked_run : custom_handler settings down (signed [1]) start =
  (Raise (ApiErrors.FExn unavailable), parked).
Proof. vm_compute. reflexivity. Qed.

Definition flipped : db world :=
  (retriage_alert settings enqueue (fun _ => false) (signed []) true 0 7 Job.Toy.d1).2.
Definition retriage_reply : RetriageResponse :=
  {| rr_id := 7; rr_status := pending; retriaged := true |}.
Lemma flipped_run :
  retriage_alert settings enqueue (fun _ => false) (signed []) true 0 7 Job.Toy.d1 =
  (Ret retriage_reply, flipped).
Proof. vm_compute. reflexivity. Qed.
End Toy.
Import Toy.

(** The signature is missing. *)
Lemma ingest_fail_closed_witness :
  exists f, custom_handler Toy.settings enqueue (unsigned [1]) start = (Raise f, start).
Proof.
  destruct (custom_handler Toy.settings enqueue (unsigned [1]) start) as [o d'] eqn:E.
  destruct (ingest_fail_closed Toy.settings enqueue (unsigned [1]) start o d' E)
    as [[-> [f ->]]|[(_ & _ & h & Hh & _) _]]; [by exists f|].
  vm_compute in Hh. discriminate Hh.
Defined.

(** The queue is down: the caller sees the failure, the row stays. *)
Lemma ingest_reply_truthful_witness :
  ingested session_alert (durable start) (durable parked) /\ durable parked <> durable start.
Proof.
  assert (Hne : durable parked <> durable start) by (vm_compute; discriminate).
  destruct (ingest_reply_truthful Toy.settings down (signed [1]) start _ parked down_frames parked_run)
    as [[Hd _]|(a & Ha & Hi & _)]; [destruct (Hne Hd)|].
  assert (parse_payload (signed [1]).(rq_body) = Ret session_alert) as E by (vm_compute; reflexivity).
  rewrite E in Ha. injection Ha as <-. by split.
Defined.

Lemma ingest_enqueues_durable_pending_witness :
  exists d1 d2, @enqueue world queue uuids 7 d1 = (Ret tt, d2) /\ durable d1 = durable accepted.
Proof.
  destruct (ingest_enqueues_durable_pending Toy.settings enqueue (signed [1]) start) as [_ H].
  destruct (H enqueue_frames reply accepted accepted_run) as [Hp _]. exact (Hp eq_refl).
Defined.

Lemma retriage_guarded_witness :
  durable flipped = update_status 7 pending (durable Job.Toy.d1).
Proof.
  destruct (retriage_guarded Toy.settings (fun _ => false) enqueue (signed []) true 0 7 Job.Toy.d1
              _ flipped enqueue_frames flipped_run) as [_ [[_ [e He]]|(_ & _ & _ & _ & Hd & _)]].
  - discriminate He.
  - exact Hd.
Defined.
