(* ===== verification/Scripts.v ===== *)
(** * Scripts: fetching the GeoLite2 files, and posting one alert

    [scripts/fetch_geoip.py] and [scripts/post_alert.py].  The HTTP client, the tar reader
    and the file system are parameters. *)

From S2P Require Import Prelude Errors Cli Command Text Signing Schemas Policy Budget Database Job Api.
#[local] Open Scope Z_scope.

(** [text.endswith(suffix)]. *)
Definition ends_with (suffix text : pystr) : bool := prefixb (rev suffix) (rev text).

Lemma ends_with_spec suffix text : ends_with suffix text = true <-> exists before, text = before ++ suffix.
Proof.
  unfold ends_with. rewrite prefixb_spec. split.
  - intros [t E]. exists (rev t). apply (f_equal (@rev Z)) in E. by rewrite rev_involutive, rev_app_distr, rev_involutive in E.
  - intros [b ->]. exists (rev b). by rewrite rev_app_distr.
Qed.

(** ** [scripts/fetch_geoip.py] *)

Definition EDITIONS : list pystr := map u ["GeoLite2-Country"; "GeoLite2-ASN"]%string.
Definition DOWNLOAD_URL : pystr := u "https://download.maxmind.com/app/geoip_download".
Definition mmdb (edition : pystr) : pystr := edition ++ u ".mmdb".

Definition _member_matching_edition (names : list pystr) (edition : pystr) : option pystr :=
  find (fun name => bool_decide (name = mmdb edition) || ends_with (u "/" ++ mmdb edition) name) names.

(** A member of an archive: its name, and its bytes when it is a regular file. *)
Definition member : Type := pystr * option pybytes.

(** [tar.getmember]: of several members of one name, the last. *)
Definition getmember (name : pystr) (members : list member) : option member :=
  find (fun m => bool_decide (m.1 = name)) (rev members).

(** A download: an [httpx.HTTPError]'s class, or the reply. *)
Inductive download : Type := Failed (class : pystr) | Answered (status : Z) (content : pybytes).

Section fetch.
Context {W : Type}.
(** [client.get(DOWNLOAD_URL, params=...)] for an edition and a key; what [tarfile] reads of
    an archive, [None] for a [TarError] or a [KeyError], [Raise] for what else reading it
    raises (a truncated gzip's [EOFError]); [mkdir] and [write_bytes]; the path of a
    name in a directory. *)
Variable http_get : pystr -> pystr -> W -> download * W.
Variable tar_members : pybytes -> outcome exn (option (list member)).
Variable write_bytes : pystr -> pybytes -> M exn W unit.
Variable join_path : pystr -> pystr -> pystr.
Variable out_dir : pystr.

(** The bytes, or an [_ArchiveError]'s reason. *)
Definition archived (archive : pybytes) (edition : pystr) : outcome exn (pystr + pybytes) :=
  match tar_members archive with
  | Raise e => Raise e
  | Ret None => Ret (inl (u "bad archive"))
  | Ret (Some members) =>
      match _member_matching_edition (map fst members) edition with
      | None => Ret (inl (u "no .mmdb in archive"))
      | Some name =>
          match getmember name members with
          | Some (_, Some data) => Ret (inr data)
          | _ => Ret (inl (u "bad archive"))
          end
      end
  end.

Definition target (edition : pystr) : pystr := join_path out_dir (mmdb edition).

Definition _extract_mmdb (archive : pybytes) (edition : pystr) : M exn W (pystr + Z) :=
  found ← lift (archived archive edition);
  match found with
  | inl reason => mret (inl reason)
  | inr data => _ ← write_bytes (target edition) data; mret (inr (py_len data))
  end.

Definition download_failed (edition reason : pystr) : pystr :=
  u "error: download_failed: " ++ edition ++ u ": " ++ reason.

(** One round: the line of stderr, or that of stdout. *)
Definition fetch_one (key edition : pystr) : M exn W (pystr + pystr) := fun w =>
  let '(reply, w1) := http_get edition key w in
  match reply with
  | Failed class => (Ret (inl (download_failed edition class)), w1)
  | Answered status content =>
      if negb ((200 <=? status) && (status <? 300))
      then (Ret (inl (download_failed edition (u "HTTP " ++ str_of_Z status))), w1)
      else
        (extracted ← _extract_mmdb content edition;
         mret (match extracted with
               | inl reason => inl (download_failed edition reason)
               | inr size => inr (edition ++ u ": " ++ str_of_Z size ++ u " bytes -> " ++ target edition)
               end)) w1
  end.

Fixpoint fetch_loop (key : pystr) (editions printed : list pystr) : M exn W ended :=
  match editions with
  | [] => mret {| exit_code := 0; stdout := printed; stderr := [] |}
  | edition :: editions' =>
      line ← fetch_one key edition;
      match line with
      | inl problem => mret {| exit_code := 1; stdout := printed; stderr := [problem] |}
      | inr report => fetch_loop key editions' (printed ++ [report])
      end
  end.

(** [main] after [argparse], whose [choices] are [EDITIONS]: [Settings()] is outside every [try]. *)
Definition fetch_main (settings_key : outcome exn pystr) (chosen : list pystr) : M exn W ended :=
  key ← lift settings_key;
  match key with
  | [] => mret (refuse (u "error: config_error: MAXMIND_LICENSE_KEY is not set"))
  | _ => fetch_loop key (match chosen with [] => EDITIONS | _ => chosen end) []
  end.

(** *** What it promises *)

(** The bytes are those of a regular member of the edition's name. *)
Lemma archived_spec archive edition data : archived archive edition = Ret (inr data) ->
  exists members name, tar_members archive = Ret (Some members) /\ (name, Some data) ∈ members /\
    (name = mmdb edition \/ exists dir, name = dir ++ u "/" ++ mmdb edition).
Proof.
  unfold archived. destruct (tar_members archive) as [[members|]|e]; [|done..].
  destruct (_member_matching_edition (map fst members) edition) as [name|] eqn:E1; [|done].
  destruct (getmember name members) as [[n' [d|]]|] eqn:E2; [|done..]. intros [= <-].
  apply find_some in E1 as [_ H1], E2 as [H2 H3]. apply bool_decide_eq_true in H3. simpl in H3. subst n'.
  exists members, name. split_and!; [done|by apply list_elem_of_In, in_rev|].
  apply orb_prop in H1 as [H1%bool_decide_eq_true|H1]; [by left|right; by apply ends_with_spec].
Qed.

(** The frame: whatever relation the requests respect, and the writing of an edition's own
    file, relates the worlds before and after. *)
Section frame.
Variable R : W -> W -> Prop.
Context {R_pre : PreOrder R}.
Hypothesis get_keeps : forall edition key w, R w (http_get edition key w).2.

Lemma fetch_one_frame key edition w :
  (forall data w, R w (write_bytes (target edition) data w).2) -> R w (fetch_one key edition w).2.
Proof.
  intros Hw. unfold fetch_one. pose proof (get_keeps edition key w) as Hg.
  destruct (http_get edition key w) as [[class|status content] w1]; simpl in *; [done|]. case_match; [done|].
  unfold _extract_mmdb. m_unfold. destruct (archived content edition) as [[reason|data]|e]; [done| |done].
  specialize (Hw data w1). destruct (write_bytes _ data w1) as [[[]|e] w2]; simpl in *; by etrans.
Qed.

Lemma fetch_loop_frame key editions printed w :
  (forall edition data w, edition ∈ editions -> R w (write_bytes (target edition) data w).2) ->
  R w (fetch_loop key editions printed w).2.
Proof.
  revert printed w. induction editions as [|e es IH]; intros printed w Hw; cbn [fetch_loop]; [done|].
  pose proof (fetch_one_frame key e w (fun data w => Hw e data w (list_elem_of_here _ _))) as H1. m_unfold.
  destruct (fetch_one key e w) as [[[line|line]|x] w1]; simpl in *; [done| |done].
  etrans; [exact H1|]. apply IH. intros. apply Hw. by right.
Qed.
End frame.

(** How the loop ends: a line for every edition and exit 0, or the first failure alone on
    stderr after a line for each edition before it. *)
Lemma fetch_loop_ends key editions printed w r w' :
  fetch_loop key editions printed w = (Ret r, w') ->
  exists lines, stdout r = printed ++ lines /\
    (exit_code r = 0 /\ stderr r = [] /\ length lines = length editions \/
     exit_code r = 1 /\ (length lines < length editions)%nat /\ exists line, stderr r = [line]).
Proof.
  revert printed w. induction editions as [|e es IH]; intros printed w; cbn [fetch_loop]; m_unfold.
  { intros [= <- _]. exists []. simpl. rewrite app_nil_r. split; [done|by left]. }
  destruct (fetch_one key e w) as [[[line|line]|x] w1]; [| |done].
  - intros [= <- _]. exists []. simpl. rewrite app_nil_r. split; [done|]. right. split_and!; [done|lia|by eexists].
  - intros H. apply IH in H as (lines & -> & H). exists (line :: lines). rewrite <- app_assoc. split; [done|].
    simpl. destruct H as [(? & ? & ?)|(? & ? & ?)]; [left|right]; split_and!; try done; lia.
Qed.
End fetch.

(** Two networks that answer alike whatever the key give one run: no key reaches an output. *)
Lemma fetch_loop_withholds {W} (get1 get2 : pystr -> pystr -> W -> download * W) k1 k2 tar write join out editions printed w :
  (forall edition w, get1 edition k1 w = get2 edition k2 w) ->
  fetch_loop get1 tar write join out k1 editions printed w = fetch_loop get2 tar write join out k2 editions printed w.
Proof.
  intros Hg. revert printed w. induction editions as [|e es IH]; intros printed w; cbn [fetch_loop]; [done|]. m_unfold.
  assert (E : fetch_one get1 tar write join out k1 e w = fetch_one get2 tar write join out k2 e w)
    by (unfold fetch_one; by rewrite Hg).
  rewrite E. destruct (fetch_one get2 _ _ _ _ _ _ _) as [[[line|line]|x] w1]; [done|apply IH|done].
Qed.

(** The fetch writes nothing but the editions' own two files, whatever the archives name
    their members: any relation that requests and the writing of those files respect relates
    the worlds before and after.  Without a key nothing is asked; a run that answers ends
    with exit 0 and a line per edition, or with exit 1 and one problem; and what it does
    and prints is the same under any key for which the network answers alike. *)
Theorem fetch_confined {W} (R : W -> W -> Prop) `{!PreOrder R} get tar write join out key chosen w :
  (forall edition k w, R w (get edition k w).2) ->
  (forall edition data w, edition ∈ (match chosen with [] => EDITIONS | _ => chosen end) ->
     R w (write (join out (mmdb edition)) data w).2) ->
  let run := fetch_main get tar write join out in
  R w (run (Ret key) chosen w).2 /\
  (key = [] -> (run (Ret key) chosen w).2 = w /\ exists line, (run (Ret key) chosen w).1 = Ret (refuse line)) /\
  (forall r w', run (Ret key) chosen w = (Ret r, w') ->
     exit_code r = 0 /\ stderr r = [] /\ length (stdout r) = length (match chosen with [] => EDITIONS | _ => chosen end) \/
     exit_code r = 1 /\ exists line, stderr r = [line]) /\
  (forall get' key', key <> [] -> key' <> [] -> (forall edition w, get edition key w = get' edition key' w) ->
     run (Ret key) chosen w = fetch_main get' tar write join out (Ret key') chosen w).
Proof.
  intros Hg Hw run. subst run. unfold fetch_main. m_unfold. split_and!.
  - destruct key as [|c key]; [done|]. apply fetch_loop_frame; [done..|]. intros. by apply Hw.
  - intros ->. split; [done|]. by eexists.
  - intros r w' H. destruct key as [|c key].
    { injection H as <- _. right. split; [done|]. by eexists. }
    apply fetch_loop_ends in H as (lines & -> & [(? & ? & Hl)|(? & _ & ?)]); [left|right]; by split_and!.
  - intros get' key' Hk Hk' He. destruct key, key'; try done. by apply fetch_loop_withholds.
Qed.

(** ** [scripts/post_alert.py] *)

Section post.
Context {W : Type} {HM : Hmac}.
(** [client.post(url, content, headers)]: status and text. *)
Variable http_post : pystr -> pybytes -> list (pystr * pystr) -> M exn W (Z * pystr).
Variable exn_text : exn -> pystr.

(** [text.rstrip("/")]. *)
Fixpoint lstrip_slash (s : pystr) : pystr :=
  match s with 47 :: s' => lstrip_slash s' | _ => s end.
Definition rstrip_slash (s : pystr) : pystr := rev (lstrip_slash (rev s)).

Definition post_headers (signature : pystr) : list (pystr * pystr) :=
  [(SIGNATURE_HEADER, signature); (u "content-type", u "application/json")].

(** [main] after [argparse]: the environment's secret, and the fixture's bytes. *)
Definition post_main (secret : option pystr) (path url : pystr) (file : outcome exn pybytes) : M exn W ended :=
  match secret with
  | None | Some [] => mret (refuse (u "error: INGEST_HMAC_SECRET is not set"))
  | Some secret =>
      match file with
      | Raise e =>
          if is_os_error e then mret (refuse (u "error: could not read " ++ path ++ u ": " ++ exn_text e)) else raise e
      | Ret body =>
          signature ← lift (sign_body secret body);
          response ← http_post (rstrip_slash url ++ u "/api/v1/alerts") body (post_headers signature);
          mret {| exit_code := if (200 <=? response.1) && (response.1 <? 300) then 0 else 1;
                  stdout := [str_of_Z response.1 ++ u " " ++ response.2]; stderr := [] |}
      end
  end.

(** What it posts, with the headers the client adds of its own, passes the API's signature gate
    exactly under the same secret's signature of those bytes. *)
Lemma posted_signature_accepted settings secret body signature more host :
  secret <> [] -> ingest_hmac_secret settings = secret -> sign_body secret body = Ret signature ->
  require_signature settings {| headers := post_headers signature ++ more; rq_body := body; client_host := host |} = Ret tt.
Proof.
  intros Hne <- Hs. unfold require_signature. cbn [rq_body headers].
  change (dget SIGNATURE_HEADER (post_headers signature ++ more)) with (Some signature).
  rewrite (proj2 (verify_signature_iff _ _ _)); [done|]. split; [done|]. by exists signature.
Qed.
End post.

Lemma post_refuses {W} {HM : Hmac} post text secret path url file (w : W) :
  (secret = None \/ secret = Some [] \/ exists e, file = Raise e /\ is_os_error e = true) ->
  exists line, post_main post text secret path url file w = (Ret (refuse line), w).
Proof.
  intros [->|[->|(e & -> & He)]]; cbn [post_main]; [by eexists..|].
  destruct secret as [[]|]; [by eexists| |by eexists]. cbn [post_main]. rewrite He. by eexists.
Qed.

(** ** A fetch of one file *)

Module Toy.
(** The paths written; an archive is its one member's path. *)
Definition written : Type := list pystr.
Definition get (edition key : pystr) (w : written) : download * written := (Answered 200 (u "GeoLite2-Country_2026/" ++ mmdb edition), w).
Definition tar (archive : pybytes) : outcome exn (option (list member)) := Ret (Some [(archive, Some archive)]).
Definition write (path : pystr) (data : pybytes) : M exn written unit := fun w => (Ret tt, w ++ [path]).
Definition join (dir name : pystr) : pystr := dir ++ u "/" ++ name.
Definition only_geo (w w' : written) : Prop := exists more, w' = w ++ more /\ more ⊆ map (fun e => join (u "d") (mmdb e)) EDITIONS.
#[export] Instance only_geo_pre : PreOrder only_geo.
Proof.
  split; [intros w; exists []; rewrite app_nil_r; split; [done|by intros ? ?%not_elem_of_nil]|].
  intros w1 w2 w3 (m1 & -> & H1) (m2 & -> & H2). exists (m1 ++ m2). rewrite app_assoc. split; [done|set_solver].
Qed.
End Toy.
Import Toy.

Lemma fetch_confined_witness :
  Toy.only_geo [] (fetch_main Toy.get Toy.tar Toy.write Toy.join (u "d") (Ret (u "key")) [] []).2 /\
  (fetch_main Toy.get Toy.tar Toy.write Toy.join (u "d") (Ret (u "key")) [] []).2 =
    [u "d/GeoLite2-Country.mmdb"; u "d/GeoLite2-ASN.mmdb"].
Proof.
  split; [|vm_compute; reflexivity].
  refine (proj1 (fetch_confined Toy.only_geo Toy.get Toy.tar Toy.write Toy.join (u "d") (u "key") [] [] _ _)).
  - intros edition k w. exists []. rewrite app_nil_r. split; [done|by intros ? ?%not_elem_of_nil].
  - intros edition data w He. eexists. split; [done|]. intros x ->%list_elem_of_singleton.
    apply list_elem_of_fmap. by exists edition.
Defined.
