(* ===== verification/Lifecycle.v ===== *)
(** * Lifecycle: an alert under concurrent requests and workers

    Ingest requests, triage attempts, terminal writes and retriages interleave.  An attempt
    holds its alert's row lock ([SELECT ... FOR UPDATE]) from its read to its commit or
    rollback; every other write of that row waits for it.  The transition system below
    interleaves them; the refinement shows each handler to be a run of it, and the
    invariant bounds what an alert can be billed for. *)

From S2P Require Import Prelude Errors Json Datetime Signing Schemas Policy Budget Database Job Api.
#[local] Open Scope Z_scope.

Section lifecycle.
Context {W : Type} {PG : Postgres W} {LZ : LocalZone} {SH : Sha256} {AC : AlertCodec}.
Variable pipeline : Pipeline W.
Implicit Types (ts : tables) (id : uuid).

(** The committed tables, the rows locked by the running attempts, as they read them, and
    how often each alert was retriaged. *)
Record sys : Type := Sys {
  tbl : tables;
  held : gmap uuid AlertRow;
  retriages : uuid -> nat
}.

Definition bump id (f : uuid -> nat) : uuid -> nat :=
  fun id' => if decide (id' = id) then S (f id') else f id'.

Inductive step : sys -> sys -> Prop :=
| ingest_step a s ts' :
    ingested a (tbl s) ts' -> step s (Sys ts' (held s) (retriages s))
| lock_step id row s :
    held s !! id = None -> find_alert id (tbl s) = Some row -> a_status row = pending ->
    step s (Sys (tbl s) (<[id := row]> (held s)) (retriages s))
| finish_step id row a d1 d2 vid out s ts' :
    held s !! id = Some row -> model_validate (a_raw row) = Ret a ->
    pipeline_run pipeline a d1 = (Ret out, d2) -> recorded id vid out (tbl s) ts' ->
    step s (Sys ts' (delete id (held s)) (retriages s))
| abort_step id s : step s (Sys (tbl s) (delete id (held s)) (retriages s))
| fail_step id s :
    held s !! id = None ->
    step s (Sys (update_status id failed (tbl s)) (held s) (retriages s))
| retriage_step id row s :
    held s !! id = None -> find_alert id (tbl s) = Some row -> a_status row <> pending ->
    step s (Sys (update_status id pending (tbl s)) (held s) (bump id (retriages s))).

Definition initial : sys := Sys (Tables [] [] []) ∅ (fun _ => O).
Definition steps : sys -> sys -> Prop := rtc step.

(** ** The quantities *)

Definition verdict_count id ts : nat := length (filter (fun v => v_alert_id v = id) (verdicts ts)).
Definition pending_count id ts : nat :=
  match find_alert id ts with Some row => if decide (a_status row = pending) then 1 else 0 | None => 0 end.

(** A verdict row is what the pipeline answered for the alert as it is stored. *)
Definition genuine ts (v : VerdictRow) : Prop :=
  exists row a d1 d2 out, row ∈ alerts ts /\ a_id row = v_alert_id v /\
    model_validate (a_raw row) = Ret a /\ pipeline_run pipeline a d1 = (Ret out, d2) /\
    v = verdict_row (v_id v) (v_alert_id v) out (effective_model_primary out)
          (escalated_model out) (v_created_at v).

Record invariant (s : sys) : Prop := {
  inv_wf : wf_tables (tbl s);
  inv_held : forall id row, held s !! id = Some row ->
    find_alert id (tbl s) = Some row /\ a_status row = pending;
  inv_billed : forall id,
    (verdict_count id (tbl s) + pending_count id (tbl s) <= S (retriages s id))%nat;
  inv_triaged : forall row, row ∈ alerts (tbl s) -> a_status row = triaged ->
    exists v, v ∈ verdicts (tbl s) /\ v_alert_id v = a_id row;
  inv_genuine : forall v, v ∈ verdicts (tbl s) -> genuine (tbl s) v
}.

(** ** Facts on the tables *)

Lemma find_update_ne id id' st ts :
  id' <> id -> find_alert id' (update_status id st ts) = find_alert id' ts.
Proof.
  intros Hne. rewrite find_update_status. destruct (find_alert id' ts) as [row|] eqn:E; [|done].
  apply find_alert_Some in E as [_ Hi]. simpl. by rewrite decide_False by congruence.
Qed.

Lemma find_update_eq id st ts row :
  find_alert id ts = Some row -> find_alert id (update_status id st ts) = Some (with_status row st).
Proof.
  intros Hr. rewrite find_update_status, Hr. simpl. apply find_alert_Some in Hr as [_ Hi].
  by rewrite decide_True.
Qed.

Lemma find_update_None id st ts : find_alert id ts = None -> update_status id st ts = ts.
Proof.
  intros Hn%find_alert_None. destruct ts as [al vs tc]. unfold update_status. simpl in *. f_equal.
  induction al as [|r al IH]; simpl in *; [done|].
  apply not_elem_of_cons in Hn as [Hr Hn]. by rewrite decide_False, IH by congruence.
Qed.

Lemma find_add_alert id row ts :
  (a_id row ∉ map a_id (alerts ts)) ->
  find_alert id (add_alert row ts) = if decide (a_id row = id) then Some row else find_alert id ts.
Proof.
  intros Hn. unfold find_alert, add_alert. simpl. induction (alerts ts) as [|r al IH]; simpl in *.
  - by repeat case_decide; repeat case_bool_decide.
  - apply not_elem_of_cons in Hn as [Hr Hn]. case_bool_decide as Hi; [|by apply IH].
    by rewrite decide_False by congruence.
Qed.

Lemma update_status_alerts id st ts row :
  row ∈ alerts (update_status id st ts) ->
  exists row0, row0 ∈ alerts ts /\ (row = with_status row0 st /\ a_id row0 = id \/
                                     row = row0 /\ a_id row0 <> id).
Proof.
  intros (row0 & -> & Hin)%list_elem_of_fmap. exists row0. split; [done|]. case_decide; auto.
Qed.

(** Rows persist with their identity and payload. *)
Definition kept ts ts' : Prop :=
  forall row, row ∈ alerts ts -> exists row', row' ∈ alerts ts' /\ a_id row' = a_id row /\
    a_raw row' = a_raw row /\ a_fingerprint row' = a_fingerprint row.

Lemma update_kept id st ts : kept ts (update_status id st ts).
Proof.
  intros row Hin. exists (if decide (a_id row = id) then with_status row st else row).
  split; [apply list_elem_of_fmap; eauto|]. by case_decide.
Qed.

Lemma genuine_kept ts ts' v : kept ts ts' -> genuine ts v -> genuine ts' v.
Proof.
  intros Hk (row & a & d1 & d2 & out & Hin & Hi & Hv & Hp & Heq).
  destruct (Hk row Hin) as (row' & Hin' & Hi' & Hr' & _).
  exists row', a, d1, d2, out. rewrite Hi', Hr'. by split_and!.
Qed.

(** ** The steps preserve the invariant *)

Lemma verdict_count_none id ts : wf_tables ts -> find_alert id ts = None -> verdict_count id ts = O.
Proof.
  intros [_ _ _ Hv _] Hn%find_alert_None. unfold verdict_count. rewrite Forall_forall in Hv.
  destruct (filter _ _) as [|v l] eqn:E; [done|].
  assert (Hin : v ∈ filter (fun v => v_alert_id v = id) (verdicts ts)) by (rewrite E; left).
  apply list_elem_of_filter in Hin as [<- Hin]. by destruct (Hv v Hin).
Qed.

(** A step that writes one alert's status, away from any lock on it. *)
Lemma write_status_inv id st s (f : uuid -> nat) :
  invariant s -> held s !! id = None -> st <> triaged ->
  (forall id', (verdict_count id' (tbl s) + pending_count id' (update_status id st (tbl s))
                <= S (f id'))%nat) ->
  invariant (Sys (update_status id st (tbl s)) (held s) f).
Proof.
  intros [Hwf Hheld _ Htri Hgen] Hfree Hst Hcount. split; simpl.
  - by apply update_status_wf.
  - intros id' row Hrow. assert (id' <> id) by congruence.
    rewrite find_update_ne by done. by apply Hheld.
  - intros id'. apply Hcount.
  - intros row (row0 & Hin & [[-> _]|[-> _]])%update_status_alerts; simpl; [done|]. by apply Htri.
  - intros v Hv. eapply genuine_kept; [apply update_kept|by apply Hgen].
Qed.

Lemma pending_count_le id ts : (pending_count id ts <= 1)%nat.
Proof. unfold pending_count. destruct (find_alert id ts); [case_decide|]; lia. Qed.

Lemma fail_inv id s :
  invariant s -> held s !! id = None ->
  invariant (Sys (update_status id failed (tbl s)) (held s) (retriages s)).
Proof.
  intros Hi Hfree. apply write_status_inv; [done..|]. intros id'.
  transitivity (verdict_count id' (tbl s) + pending_count id' (tbl s))%nat; [|apply Hi].
  apply Nat.add_le_mono_l. unfold pending_count. rewrite find_update_status.
  destruct (find_alert id' (tbl s)) as [row|]; simpl; [|done].
  destruct (decide (a_id row = id)); simpl; repeat case_decide; done || lia.
Qed.

Lemma retriage_inv id row s :
  invariant s -> held s !! id = None -> find_alert id (tbl s) = Some row -> a_status row <> pending ->
  invariant (Sys (update_status id pending (tbl s)) (held s) (bump id (retriages s))).
Proof.
  intros Hi Hfree Hrow Hp. apply write_status_inv; [done..|]. intros id'.
  pose proof (inv_billed s Hi id') as Hb. unfold bump. case_decide as Hd; [subst id'|].
  - pose proof (pending_count_le id (update_status id pending (tbl s))).
    unfold pending_count at 1 in Hb. rewrite Hrow, decide_False in Hb by done. lia.
  - unfold pending_count at 1. by rewrite find_update_ne.
Qed.

Lemma ingest_inv a s ts' :
  invariant s -> ingested a (tbl s) ts' -> invariant (Sys ts' (held s) (retriages s)).
Proof.
  intros Hi [->|(fp & row & Hfp & Hn & -> & Hf & Hst & Hraw & Hid)]; [by destruct s|].
  destruct Hi as [Hwf Hheld Hb Htri Hgen]. split; simpl.
  - apply add_alert_wf; [done..|]. by rewrite Hf.
  - intros id r Hr. destruct (Hheld id r Hr) as [Hr' ?]. rewrite find_add_alert by done.
    rewrite decide_False; [done|]. intros <-. apply find_alert_None in Hid. congruence.
  - intros id. specialize (Hb id). unfold pending_count. rewrite find_add_alert by done.
    change (verdict_count id (add_alert row (tbl s))) with (verdict_count id (tbl s)).
    case_decide as Hd; [|exact Hb]. subst id. apply find_alert_None in Hid.
    rewrite verdict_count_none by done. case_decide; lia.
  - intros r [Hin|Hin%list_elem_of_singleton]%elem_of_app; [by apply Htri|]. subst r. congruence.
  - intros v Hv. eapply genuine_kept; [|by apply Hgen]. intros r Hr. exists r. set_solver.
Qed.

Lemma verdict_count_persisted id vid out mp em rs ts ts' id' :
  persisted id vid out mp em rs ts ts' ->
  verdict_count id' ts' = (verdict_count id' ts + if decide (id' = id) then 1 else 0)%nat.
Proof.
  intros (t & rows & _ & _ & _ & ->). unfold verdict_count. simpl.
  rewrite filter_app, length_app. f_equal. rewrite filter_cons, filter_nil. simpl.
  by repeat case_decide.
Qed.

Lemma persisted_find id vid out mp em rs ts ts' id' :
  persisted id vid out mp em rs ts ts' ->
  find_alert id' ts' = find_alert id' (update_status id triaged ts).
Proof. by intros (t & rows & _ & _ & _ & ->). Qed.

Lemma finish_inv id row a d1 d2 vid out s ts' :
  invariant s -> held s !! id = Some row -> model_validate (a_raw row) = Ret a ->
  pipeline_run pipeline a d1 = (Ret out, d2) -> recorded id vid out (tbl s) ts' ->
  wf_tables ts' -> invariant (Sys ts' (delete id (held s)) (retriages s)).
Proof.
  intros [Hwf Hheld Hb Htri Hgen] Hh Hv Hp Hrec Hwf'. unfold recorded in Hrec.
  destruct (Hheld id row Hh) as [Hrow Hpend]. split; simpl; [done|..].
  - intros id' r [Hne Hr]%lookup_delete_Some. rewrite (persisted_find _ _ _ _ _ _ _ _ _ Hrec).
    rewrite find_update_ne by done. by apply Hheld.
  - intros id'. rewrite (verdict_count_persisted _ _ _ _ _ _ _ _ _ Hrec). specialize (Hb id').
    unfold pending_count in *. rewrite (persisted_find _ _ _ _ _ _ _ _ _ Hrec).
    case_decide as Hd; [subst id'|].
    + rewrite (find_update_eq _ _ _ _ Hrow). rewrite Hrow, decide_True in Hb by done. simpl. lia.
    + rewrite find_update_ne by done. lia.
  - destruct Hrec as (t & rows & _ & _ & _ & ->).
    intros r (r0 & Hin & [[-> Hi]|[-> Hi]])%update_status_alerts Hs; simpl in *.
    + eexists. split; [apply elem_of_app; right; by apply list_elem_of_singleton|]. done.
    + destruct (Htri r0 Hin Hs) as (v & Hv' & ?). exists v. set_solver.
  - destruct Hrec as (t & rows & _ & _ & _ & ->).
    pose proof (update_kept id triaged (tbl s)) as Hk. apply find_alert_Some in Hrow as [Hin Hid].
    intros v [Hin'|Hin'%list_elem_of_singleton]%elem_of_app; [eapply genuine_kept; [exact Hk|by apply Hgen]|].
    destruct (Hk row Hin) as (row' & Hr' & Hi' & Hraw & _).
    subst v. exists row', a, d1, d2, out. rewrite Hi', Hraw. by split_and!.
Qed.

Lemma persisted_wf id vid out mp em rs ts ts' :
  wf_tables ts -> persisted id vid out mp em rs ts ts' -> wf_tables ts'.
Proof.
  intros Hwf (t & rows & Hok & _ & Hvs & ->). apply update_status_wf.
  destruct (add_verdict_wf _ _ Hwf Hok) as [Hi Hf Hv Hva Ht]. split; simpl in *; [done..|].
  apply Forall_app. split; [done|]. eapply Forall_impl; [exact Hvs|]. simpl. intros r ->.
  rewrite map_app. set_solver.
Qed.

Lemma step_inv s s' : step s s' -> invariant s -> invariant s'.
Proof.
  intros Hs Hi. destruct Hs as [a s ts' H|id row s Hfree Hrow Hp|id row a d1 d2 vid out s ts' Hh Hv Hp Hr
                            |id s|id s Hfree|id row s Hfree Hrow Hp].
  - by eapply ingest_inv.
  - destruct Hi as [Hwf Hheld ???]. split; simpl; [done| |done..].
    intros id' r [[<- <-]|[_ Hr]]%lookup_insert_Some; [done|by apply Hheld].
  - eapply finish_inv; [done..|]. eapply persisted_wf; [apply Hi|exact Hr].
  - destruct Hi as [Hwf Hheld ???]. split; simpl; [done| |done..].
    intros id' r [_ Hr]%lookup_delete_Some. by apply Hheld.
  - by apply fail_inv.
  - by eapply retriage_inv.
Qed.

Lemma initial_inv : invariant initial.
Proof.
  split; simpl.
  - split; constructor.
  - intros id row Hr. by rewrite lookup_empty in Hr.
  - intros id. unfold verdict_count, pending_count. simpl. lia.
  - intros row Hr. by apply not_elem_of_nil in Hr.
  - intros v Hv. by apply not_elem_of_nil in Hv.
Qed.

Lemma steps_inv s s' : steps s s' -> invariant s -> invariant s'.
Proof. induction 1 as [|s1 s2 s3 Hs _ IH]; eauto using step_inv. Qed.

(** C2: however ingests, attempts, terminal writes and retriages interleave, an alert never
    has more verdicts than one and its retriages, less one while it is pending; a
    [triaged] alert has a verdict, every stored verdict is what the pipeline answered for
    the alert as stored, an attempt's alert stays as it was read under the lock, and the
    tables keep their constraints. *)
Theorem lifecycle_safe s : steps initial s ->
  (forall id, (verdict_count id (tbl s) + pending_count id (tbl s) <= S (retriages s id))%nat) /\
  (forall row, row ∈ alerts (tbl s) -> a_status row = triaged ->
     exists v, v ∈ verdicts (tbl s) /\ v_alert_id v = a_id row) /\
  (forall v, v ∈ verdicts (tbl s) -> genuine (tbl s) v) /\
  (forall id row, held s !! id = Some row ->
     find_alert id (tbl s) = Some row /\ a_status row = pending) /\
  wf_tables (tbl s).
Proof. intros [?????]%steps_inv; [by split_and!|apply initial_inv]. Qed.

(** Nothing recorded is ever lost: along any run every alert keeps its id, fingerprint
    and payload, and the verdicts and tool calls only grow at their end. *)
Theorem record_append_only s s' : steps s s' ->
  kept (tbl s) (tbl s') /\ (exists vs, verdicts (tbl s') = verdicts (tbl s) ++ vs) /\
  (exists cs, tool_calls (tbl s') = tool_calls (tbl s) ++ cs).
Proof.
  assert (Hrefl : forall ts, kept ts ts) by (intros ts row ?; by exists row).
  induction 1 as [s|s1 s2 s3 Hs _ (Hk & [vs Hv] & [cs Hc])].
  { split_and!; [done| |]; exists []; by rewrite app_nil_r. }
  assert (H12 : kept (tbl s1) (tbl s2) /\ (exists vs, verdicts (tbl s2) = verdicts (tbl s1) ++ vs) /\
                (exists cs, tool_calls (tbl s2) = tool_calls (tbl s1) ++ cs)).
  { destruct Hs as [a s ts' [->|(fp & row & _ & _ & -> & _)]| |id row a d1 d2 vid out s ts' _ _ _
      (t & rows & _ & _ & _ & ->)| | |]; simpl; split_and!; try apply update_kept; try done;
      try (by eexists); try (by exists []; rewrite app_nil_r).
    - intros r Hr. exists r. set_solver.
    - exact (update_kept id triaged (tbl s)). }
  destruct H12 as (Hk1 & [vs1 Hv1] & [cs1 Hc1]). split_and!.
  - intros row (r1 & Hr1 & Hi1 & Hw1 & Hf1)%Hk1. destruct (Hk r1 Hr1) as (r2 & ? & ? & ? & ?).
    exists r2. split_and!; congruence.
  - exists (vs1 ++ vs). by rewrite Hv, Hv1, (assoc_L (++)).
  - exists (cs1 ++ cs). by rewrite Hc, Hc1, (assoc_L (++)).
Qed.

(** ** The handlers are runs of the system *)

Context {UT : UuidText} {QU : Queue W} {FR : FloatRepr} {DL : Deadline W} {RC : RedisCounters W}
  {HM : Hmac} {BP : BodyParser} {RI : RedisIncr W}.

(** A worker's job, a signed ingest or a retriage that runs from the tables of [s], its
    alert's row not locked by another attempt. *)
Inductive handler_run (s : sys) : db W -> db W -> Prop :=
| job_run settings raw text id d o d' :
    policy_ok settings -> 1 <= job_try_of raw -> parse_uuid text = Some id ->
    held s !! id = None -> triage_alert_job pipeline settings raw text d = (o, d') ->
    handler_run s d d'
| ingest_run settings enq request d o d' :
    (forall id, frames (enq id)) -> custom_handler settings enq request d = (o, d') ->
    handler_run s d d'
| retriage_run settings enq is_op request redis now_us id d o d' :
    (forall id, frames (enq id)) -> held s !! id = None ->
    retriage_alert settings enq is_op request redis now_us id d = (o, d') ->
    handler_run s d d'.

Lemma attempt_steps id s ts' :
  held s !! id = None -> attempt_effect pipeline id (tbl s) ts' ->
  steps s (Sys ts' (held s) (retriages s)).
Proof.
  intros Hfree [->|(vid & out & row & a & d1 & d2 & Hrow & Hpend & Hv & Hp & Hrec)].
  { destruct s. apply rtc_refl. }
  eapply rtc_l; [by apply (lock_step id row)|].
  pose proof (finish_step id row a d1 d2 vid out (Sys (tbl s) (<[id := row]> (held s)) (retriages s))
    ts' (lookup_insert_eq _ _ _) Hv Hp Hrec) as Hf. simpl in Hf.
  rewrite delete_insert_id in Hf by done. by apply rtc_once.
Qed.

(** C3: every handler, whatever happens inside it, is a run of the transition system: what
    it leaves committed is reached from what it found by locked attempts, terminal writes,
    one insert or one retriage. *)
Theorem handlers_refine s d d' :
  handler_run s d d' -> durable d = tbl s ->
  exists f, steps s (Sys (durable d') (held s) f) /\
    (f = retriages s \/ exists id, f = bump id (retriages s)).
Proof.
  intros Hrun Hd. destruct Hrun as [settings raw text id d o d' Hp Hj Hid Hfree H
    |settings enq request d o d' Henq H|settings enq is_op request redis now_us id d o d' Henq Hfree H].
  - apply (triage_alert_job_cases _ _ _ _ _ _ _ _ Hid) in H as (o1 & d1 & H1 & -> & _).
    apply run_attempt_spec in H1 as ((ts1 & Heff & Hts) & _); [|done..]. rewrite Hd in Heff.
    exists (retriages s). split; [|by left]. destruct Hts as [->|[_ ->]].
    + by eapply attempt_steps.
    + eapply rtc_r; [by eapply attempt_steps|]. by apply (fail_step id (Sys ts1 _ _)).
  - exists (retriages s). split; [|by left].
    apply custom_handler_session in H as [[-> _]|(a & o1 & d1 & _ & E & -> & _)]; [..|done].
    + rewrite Hd. destruct s. apply rtc_refl.
    + apply ingest_alert_spec in E as (_ & Hing & _); [|done..]. simpl in Hing. rewrite Hd in Hing.
      apply rtc_once. by eapply ingest_step.
  - apply retriage_effect in H as [->|(row & Hrow & Hp & ->)]; [| |done].
    + exists (retriages s). split; [|by left]. rewrite Hd. destruct s. apply rtc_refl.
    + exists (bump id (retriages s)). split; [|by right; exists id]. rewrite Hd in *.
      apply rtc_once. by eapply retriage_step.
Qed.
End lifecycle.

(** ** One alert, triaged and sent back *)

Module Toy.
Export Job.Toy.

Definition row0 : AlertRow :=
  default settled (find_alert 7 (durable d0)).
Definition s0 : sys := Sys (durable d0) ∅ (fun _ => O).
Definition s1 : sys := Sys (durable d1) ∅ (fun _ => O).
Definition s2 : sys := Sys (update_status 7 pending (durable d1)) ∅ (bump 7 (fun _ => O)).

Lemma to_s0 : steps answers initial s0.
Proof.
  apply rtc_once. apply (ingest_step _ session_alert initial). right.
  exists (default [] (Alert.fingerprint session_alert)), row0.
  split_and!; try (vm_compute; reflexivity); intros H; by apply not_elem_of_nil in H.
Qed.

Lemma to_s1 : steps answers s0 s1.
Proof.
  assert (E : guarded_attempt answers 7 d0 =
    ((guarded_attempt answers 7 d0).1, (guarded_attempt answers 7 d0).2)) by by destruct (guarded_attempt _ _ _).
  apply guarded_attempt_effect, (attempt_steps _ 7 s0) in E; [|done].
  assert (Hd : durable (guarded_attempt answers 7 d0).2 = durable d1) by (vm_compute; reflexivity).
  rewrite Hd in E. exact E.
Qed.

Lemma to_s2 : steps answers initial s2.
Proof.
  etrans; [apply to_s0|]. eapply rtc_r; [apply to_s1|].
  apply (retriage_step _ 7 settled s1); [done|apply settled_found..].
Qed.
End Toy.
Import Toy.

(** One verdict, pending again after one retriage: the bound is met. *)
Lemma lifecycle_safe_witness :
  (verdict_count 7 (tbl Toy.s2) + pending_count 7 (tbl Toy.s2) <= 2)%nat /\
  verdict_count 7 (tbl Toy.s2) = 1%nat /\ pending_count 7 (tbl Toy.s2) = 1%nat.
Proof.
  destruct (lifecycle_safe Job.Toy.answers Toy.s2 Toy.to_s2) as (H & _).
  split; [exact (H 7)|]. split; vm_compute; reflexivity.
Defined.

Lemma record_append_only_witness :
  exists vs, verdicts (tbl Toy.s1) = verdicts (tbl Toy.s0) ++ vs.
Proof.
  destruct (record_append_only Job.Toy.answers Toy.s0 Toy.s1 Toy.to_s1) as (_ & Hv & _). exact Hv.
Defined.

Lemma handlers_refine_witness :
  exists f : uuid -> nat, @steps Toy.world Toy.postgres Toy.zone Toy.sha Toy.codec Job.Toy.answers Toy.s0
    (Sys (durable Job.Toy.d1) ∅ f).
Proof.
  destruct (handlers_refine (UT := Job.Toy.uuids) (HM := Api.Toy.hmac) (BP := Api.Toy.bodies)
              (RI := Api.Toy.redis) Job.Toy.answers Toy.s0 Job.Toy.d0 Job.Toy.d1) as (f & H & _).
  - apply (job_run _ _ Job.Toy.settings None [7] 7 Job.Toy.d0 (Ret JTriaged) Job.Toy.d1).
    + exact Job.Toy.settings_ok.
    + simpl. lia.
    + reflexivity.
    + reflexivity.
    + exact Job.Toy.answered.
  - reflexivity.
  - exists f. exact H.
Defined.
