(* ===== verification/Progress.v ===== *)
(** * Progress: with the database up and the model answering, every alert gets its verdict

    The other files say what cannot happen; here, what does.  Nothing between the commit of an
    alert and the commit of its verdict needs luck: with a server that carries out its
    statements and a pipeline that answers, one job per pending alert empties the backlog,
    in any order, with Redis up or down. *)

From S2P Require Import Prelude Errors Cache Json Datetime Schemas Llm Policy Budget Database Triage TriageFrame Job Lifecycle.
#[local] Open Scope Z_scope.

(** The uuids a server must not give out again: those of verdicts and tool calls. *)
Definition used (ts : tables) : list uuid := map v_id (verdicts ts) ++ map t_id (tool_calls ts).

(** What an answer needs to be stored: the ranges of the columns. *)
Definition call_fits (r : ToolCallRecord) : bool := int4 (seq r) && int4 (tc_latency_ms r).
Definition fits (o : TriageOutcome) : bool :=
  (1 <=? Verdict.severity (o_verdict o)) && (Verdict.severity (o_verdict o) <=? 5)
  && int4 (o_input_tokens o) && int4 (o_output_tokens o) && int4 (o_latency_ms o)
  && numeric_10_6 (o_cost_usd o) && forallb call_fits (o_tool_calls o).

Section progress.
Context {W : Type} {PG : Postgres W} {LZ : LocalZone} {SH : Sha256} {AC : AlertCodec}
  {UT : UuidText} {QU : Queue W} {FR : FloatRepr} {DL : Deadline W} {RC : RedisCounters W}.
Variable pipeline : Pipeline W.

(** [good w taken]: from [w] on the server carries out every statement and commit, gives out
    uuids that are not [taken], the pipeline answers what the columns hold, and a
    publication, if it fails, fails as Redis does. *)
Record healthy (good : W -> list uuid -> Prop) : Prop := {
  h_statement : forall w l, good w l -> exists w', statement w = (Ret tt, w') /\ good w' l;
  h_commit : forall w l, good w l -> exists w', commit_statement w = (Ret tt, true, w') /\ good w' l;
  h_uuid : forall w l, good w l -> ((gen_uuid w).1 ∉ l) /\ good (gen_uuid w).2 ((gen_uuid w).1 :: l);
  h_taken : forall w l l', good w l -> l' ⊆ l -> good w l';
  h_pipeline : forall a d l, good (outer d) l -> aborted d = false ->
    exists out d', pipeline_run pipeline a d = (Ret out, d') /\ fits out = true /\
      aborted d' = false /\ good (outer d') l;
  h_publish : forall channel text w l, good w l ->
    good (redis_publish channel text w).2 l /\
    forall e, (redis_publish channel text w).1 = Raise e -> is_redis_failure e = true
}.

Context (good : W -> list uuid -> Prop) (H : healthy good).
Implicit Types (d : db W) (ts : tables).

Lemma execute_ok w du wo l : good w l ->
  exists w', execute_statement (Db w du wo false) = (Ret tt, Db w' du wo false) /\ good w' l.
Proof.
  intros Hg. destruct (h_statement _ H w l Hg) as (w' & E & Hg'). exists w'. split; [|done].
  unfold execute_statement. cbn [aborted outer]. by rewrite E.
Qed.

Lemma get_alert_ok id w du wo l row : good w l -> find_alert id wo = Some row ->
  exists w', get_alert str_uuid id (Db w du wo false) = (Ret row, Db w' du wo false) /\ good w' l.
Proof.
  intros Hg Hr. destruct (execute_ok w du wo l Hg) as (w' & E & Hg'). exists w'. split; [|done].
  unfold get_alert, mbind, M_bind, get. rewrite E. cbn [working]. by rewrite Hr.
Qed.

Lemma commit_ok w du wo l : good w l ->
  exists w', commit (Db w du wo false) = (Ret tt, Db w' wo wo false) /\ good w' l.
Proof.
  intros Hg. destruct (h_commit _ H w l Hg) as (w' & E & Hg'). exists w'. split; [|done].
  unfold commit. cbn [aborted outer]. by rewrite E.
Qed.

(** ** Persisting a verdict *)

Lemma insert_verdict_ok aid out mp em w du wo row :
  good w (used wo) -> find_alert aid wo = Some row -> fits out = true ->
  exists w' vid t, insert_verdict aid out mp em (Db w du wo false) =
      (Ret vid, Db w' du (add_verdict (verdict_row vid aid out mp em t) wo) false) /\
    good w' (used (add_verdict (verdict_row vid aid out mp em t) wo)).
Proof.
  intros Hg Hr Hf. destruct (execute_ok w du wo _ Hg) as (w1 & E & Hg1).
  destruct (h_uuid _ H w1 _ Hg1) as [Hfresh Hg2].
  unfold insert_verdict, fresh_uuid, now, get, mbind, M_bind. rewrite E. cbn [outer].
  destruct (gen_uuid w1) as [i w2]. cbn [outer working fst snd] in *.
  exists w2, i, (server_now w2).
  assert (Hok : verdict_row_ok wo (verdict_row i aid out mp em (server_now w2)) = true).
  { unfold verdict_row_ok, verdict_row, fits in *. cbn [v_alert_id v_id v_verdict v_input_tokens v_output_tokens
      v_latency_ms v_cost_usd Verdict.severity]. apply find_alert_Some in Hr as [Hin <-].
    repeat rewrite andb_true_iff in *. rewrite !bool_decide_eq_true. destruct Hf as [[[[[[? ?] ?] ?] ?] ?] _].
    split_and!; try done; [by apply list_elem_of_fmap_2|]. unfold used in Hfresh. set_solver. }
  rewrite Hok. split; [reflexivity|]. eapply (h_taken _ H); [exact Hg2|].
  unfold used. cbn [add_verdict verdicts tool_calls verdict_row]. rewrite map_app. cbn [map v_id]. set_solver.
Qed.

Lemma insert_tool_calls_ok vid rs w du wo :
  good w (used wo) -> vid ∈ map v_id (verdicts wo) -> forallb call_fits rs = true ->
  exists w' rows, foldM (insert_tool_call vid) rs tt (Db w du wo false) =
      (Ret tt, Db w' du (Tables (alerts wo) (verdicts wo) (tool_calls wo ++ rows)) false) /\
    good w' (used (Tables (alerts wo) (verdicts wo) (tool_calls wo ++ rows))).
Proof.
  revert w wo. induction rs as [|r rs IH]; intros w wo Hg Hv Hf.
  { exists w, []. rewrite app_nil_r. by destruct wo. }
  cbn [forallb] in Hf. apply andb_true_iff in Hf as [Hr Hf].
  destruct (execute_ok w du wo _ Hg) as (w1 & E & Hg1). destruct (h_uuid _ H w1 _ Hg1) as [Hfresh Hg2].
  cbn [foldM]. unfold mbind at 1, M_bind at 1, insert_tool_call at 1, fresh_uuid, get, mbind, M_bind.
  rewrite E. cbn [outer]. destruct (gen_uuid w1) as [i w2]. cbn [outer working fst snd durable aborted] in *.
  set (row := {| t_id := i; t_verdict_id := vid; t_record := r |}).
  assert (Hok : tool_call_row_ok wo row = true).
  { unfold tool_call_row_ok, row, call_fits in *. cbn [t_id t_verdict_id t_record].
    rewrite !andb_true_iff, !bool_decide_eq_true in *. unfold used in Hfresh. split_and!; naive_solver set_solver. }
  rewrite Hok. unfold set_working. cbn [outer durable working aborted].
  destruct (IH w2 (add_tool_call row wo)) as (w' & rows & E' & Hg'); [|done|done|].
  - eapply (h_taken _ H); [exact Hg2|]. unfold used, row. cbn [add_tool_call verdicts tool_calls]. rewrite map_app. cbn [map t_id].
    set_solver.
  - exists w', (row :: rows). rewrite E'. cbn [add_tool_call alerts verdicts tool_calls] in *.
    rewrite <- (assoc_L (++)) in *. split; [reflexivity|done].
Qed.

Lemma persist_ok aid out mp em w du wo row :
  good w (used wo) -> find_alert aid wo = Some row -> fits out = true ->
  exists w' wo' vid, persist_verdict str_uuid aid out mp em (o_tool_calls out) (Db w du wo false) =
      (Ret vid, Db w' du wo' false) /\ good w' (used wo').
Proof.
  intros Hg Hr Hf. destruct (insert_verdict_ok aid out mp em w du wo row Hg Hr Hf) as (w1 & vid & t & E1 & Hg1).
  destruct (get_alert_ok aid w1 du (add_verdict (verdict_row vid aid out mp em t) wo) _ row Hg1 Hr) as (w2 & E2 & Hg2).
  destruct (insert_tool_calls_ok vid (o_tool_calls out) w2 du _ Hg2) as (w3 & rows & E3 & Hg3).
  { cbn [add_verdict verdicts]. rewrite map_app. cbn [map verdict_row v_id]. set_solver. }
  { unfold fits in Hf. by apply andb_true_iff in Hf as [_ ?]. }
  match type of Hg3 with good _ (used ?ts) => destruct (execute_ok w3 du ts _ Hg3) as (w4 & E4 & Hg4) end.
  unfold persist_verdict, mbind, M_bind. rewrite E1, E2, E3, E4. by eexists w4, _, vid.
Qed.

(** ** The job *)

Lemma attempt_ok id w ts row a :
  good w (used ts) -> find_alert id ts = Some row -> a_status row = pending ->
  model_validate (a_raw row) = Ret a ->
  exists r w' ts', triage_attempt pipeline id (Db w ts ts false) = (Ret r, Db w' ts' ts' false) /\
    at_status r = at_triaged /\ good w' (used ts').
Proof.
  intros Hg Hr Hp Hv. destruct (get_alert_ok id w ts ts _ row Hg Hr) as (w1 & E1 & Hg1).
  destruct (h_pipeline _ H a (Db w1 ts ts false) _ Hg1 eq_refl) as (out & d2 & E2 & Hf & Ha2 & Hg2).
  pose proof (pipeline_frame pipeline a (Db w1 ts ts false)) as [Hd2 Hw2]. rewrite E2 in Hd2, Hw2.
  destruct d2 as [w2 du2 wo2 ab2]. cbn [snd durable working aborted outer] in *. subst du2 wo2 ab2.
  destruct (persist_ok id out (effective_model_primary out) (escalated_model out) w2 ts ts row Hg2 Hr Hf)
    as (w3 & ts' & vid & E3 & Hg3).
  destruct (commit_ok w3 ts ts' _ Hg3) as (w4 & E4 & Hg4).
  unfold triage_attempt, get_alert_for_update, mbind at 1, M_bind at 1. rewrite E1.
  rewrite bool_decide_false by (by intros []). unfold try_except, attempt_body, mbind, M_bind, lift.
  rewrite Hv, E2, E3, E4. by eexists _, w4, ts'.
Qed.

Lemma publish_ok aid vid v w l : good w l ->
  exists b w', publish_verdict_created aid vid v w = (Ret b, w') /\ good w' l.
Proof.
  intros Hg. unfold publish_verdict_created, try_except, mbind, M_bind, lift, dumps.
  replace (serializable (JObj (verdict_created_payload aid vid v))) with true
    by (by destruct v as [? ? ? ? ? []]).
  match goal with |- context [redis_publish ?c ?t w] => destruct (h_publish _ H c t w l Hg) as [Hg' He] end.
  destruct (redis_publish _ _ w) as [[[]|e] w']; cbn [fst snd] in *; [by eexists _, w'|].
  rewrite (He e eq_refl). by eexists _, w'.
Qed.

Lemma run_attempt_ok settings id n d o da :
  guarded_attempt pipeline id d = (o, da) ->
  match o with
  | Ret r => run_attempt pipeline settings id n d = (Ret (inl r), da)
  | Raise e => is_not_found e = true -> run_attempt pipeline settings id n d = (Ret (inr JMissing), da)
  end.
Proof.
  intros Eg. destruct (run_attempt pipeline settings id n d) as [o' d'] eqn:E.
  apply run_attempt_cases in E as (oa & da' & Eg' & Hcase). rewrite Eg in Eg'. injection Eg' as <- <-.
  destruct o as [r|e]; [by destruct Hcase as [-> ->]|]. intros He. rewrite He in Hcase. by destruct Hcase as [-> ->].
Qed.

Lemma job_ok settings raw text id d row a :
  good (outer d) (used (durable d)) -> parse_uuid text = Some id ->
  find_alert id (durable d) = Some row -> a_status row = pending -> model_validate (a_raw row) = Ret a ->
  exists d' vid out, triage_alert_job pipeline settings raw text d = (Ret JTriaged, d') /\
    committed pipeline id (durable d) (durable d') vid out /\ good (outer d') (used (durable d')).
Proof.
  intros Hg Ht Hr Hp Hv.
  destruct (attempt_ok id (outer d) (durable d) row a Hg Hr Hp Hv) as (r & w' & ts' & E & Hst & Hg').
  assert (Eg : guarded_attempt pipeline id d = (Ret r, Db w' ts' ts' false)).
  { unfold guarded_attempt, in_session, wait_for. by rewrite E. }
  pose proof (guarded_attempt_spec pipeline id d (Ret r) _ Eg) as (_ & Hcase & _).
  destruct Hcase as [[_ [e [=]]]|[(_ & [= ->] & _)|(vid & out & Hc & Ha)]]; [done|].
  specialize (Ha r eq_refl). cbn [durable] in Hc.
  destruct (publish_ok id vid (o_verdict out) w' _ Hg') as (b & w2 & Ep & Hg2).
  exists (Db w2 ts' ts' false), vid, out. split; [|done].
  pose proof (run_attempt_ok settings id (job_try_of raw) d _ _ Eg) as Er. cbn in Er.
  unfold triage_alert_job. rewrite Ht. unfold mbind at 1, M_bind at 1. rewrite Er, Ha.
  cbn [at_status at_verdict_id at_outcome]. unfold mbind, M_bind, on_outer. cbn [outer durable working aborted].
  by rewrite Ep.
Qed.

(** An alert that is settled, or not there, costs one read. *)
Lemma job_idle settings raw text id d :
  good (outer d) (used (durable d)) -> parse_uuid text = Some id -> pending_count id (durable d) = O ->
  exists r w', triage_alert_job pipeline settings raw text d = (Ret r, Db w' (durable d) (durable d) false) /\
    good w' (used (durable d)).
Proof.
  intros Hg Ht Hp. set (ts := durable d) in *.
  destruct (execute_ok (outer d) ts ts _ Hg) as (w1 & E1 & Hg1).
  assert (Hatt : exists o w', guarded_attempt pipeline id d = (o, Db w' ts ts false) /\ good w' (used ts) /\
    (o = Ret skipped \/ exists e, o = Raise e /\ is_not_found e = true)).
  { unfold guarded_attempt, in_session, wait_for, triage_attempt, get_alert_for_update, get_alert, get, mbind, M_bind.
    fold ts. rewrite E1. cbn [working]. unfold pending_count in Hp. destruct (find_alert id ts) as [row|].
    - unfold mret, M_ret. rewrite bool_decide_true by (intros Hs; by rewrite decide_True in Hp).
      destruct (h_statement _ H w1 _ Hg1) as (w2 & E2 & Hg2). unfold rollback. cbn [outer durable]. rewrite E2.
      cbn [outer durable]. exists (Ret skipped), w2. eauto.
    - unfold raise. cbn [outer durable deadline_exn]. eexists _, w1. split; [reflexivity|]. split; [done|].
      right. by eexists. }
  destruct Hatt as (o & w' & Eg & Hg' & Ho).
  destruct Ho as [->|(e & -> & He)].
  - exists JSkipped, w'. split; [|done]. pose proof (run_attempt_ok settings id (job_try_of raw) d _ _ Eg) as Er. cbn in Er.
    unfold triage_alert_job. rewrite Ht. unfold mbind at 1, M_bind at 1. by rewrite Er.
  - exists JMissing, w'. split; [|done].
    pose proof (run_attempt_ok settings id (job_try_of raw) d _ _ Eg He) as Er.
    unfold triage_alert_job. rewrite Ht. unfold mbind at 1, M_bind at 1. by rewrite Er.
Qed.

(** ** The backlog *)

(** The worker takes one message after the other. *)
Fixpoint work (settings : JobSettings) (jobs : list (option Z * pystr)) : M exn (db W) (list JobResult) :=
  match jobs with
  | [] => mret []
  | (raw, text) :: jobs' =>
      r ← triage_alert_job pipeline settings raw text;
      rs ← work settings jobs';
      mret (r :: rs)
  end.

Definition payloads_validate ts : Prop :=
  forall row, row ∈ alerts ts -> a_status row = pending -> exists a, model_validate (a_raw row) = Ret a.
Definition named (jobs : list (option Z * pystr)) : list uuid := omap (fun j => parse_uuid j.2) jobs.

Lemma any_job settings raw text id d :
  good (outer d) (used (durable d)) -> parse_uuid text = Some id -> payloads_validate (durable d) ->
  exists r d', triage_alert_job pipeline settings raw text d = (Ret r, d') /\
    good (outer d') (used (durable d')) /\ payloads_validate (durable d') /\
    forall id', verdict_count id' (durable d') =
        (verdict_count id' (durable d) + if decide (id' = id) then pending_count id (durable d) else 0)%nat /\
      pending_count id' (durable d') = (if decide (id' = id) then O else pending_count id' (durable d)).
Proof.
  intros Hg Ht Hval. destruct (decide (pending_count id (durable d) = O)) as [Hp|Hp].
  { destruct (job_idle settings raw text id d Hg Ht Hp) as (r & w' & E & Hg').
    eexists r, _. split; [exact E|]. cbn [outer durable]. split_and!; [done..|].
    intros id'. case_decide as Hd; [subst id'; lia|]. split; [lia|done]. }
  assert (Hrow : exists row, find_alert id (durable d) = Some row /\ a_status row = pending).
  { unfold pending_count in Hp. destruct (find_alert id (durable d)) as [row|]; [|done].
    exists row. split; [done|]. by case_decide. }
  destruct Hrow as (row & Hr & Hs). pose proof (find_alert_Some _ _ _ Hr) as [Hin _].
  destruct (Hval row Hin Hs) as [a Ha].
  destruct (job_ok settings raw text id d row a Hg Ht Hr Hs Ha) as (d' & vid & out & E & Hc & Hg').
  exists JTriaged, d'. split; [exact E|]. destruct Hc as (_ & _ & _ & _ & _ & _ & _ & _ & Hrec).
  assert (Hfind : forall id', find_alert id' (durable d') = find_alert id' (update_status id triaged (durable d)))
    by (intros id'; eapply persisted_find; exact Hrec).
  split; [done|]. split.
  - destruct Hrec as (t & rows & _ & _ & _ & Ets). rewrite Ets. intros row' Hin' Hs'.
    change (alerts (update_status id triaged _)) with (alerts (update_status id triaged (durable d))) in Hin'.
    apply update_status_alerts in Hin' as (row0 & Hin0 & [[-> _]|[-> _]]); [done|]. by apply Hval.
  - intros id'. rewrite (verdict_count_persisted _ _ _ _ _ _ _ _ id' Hrec).
    unfold pending_count. rewrite Hfind, Hr, find_update_status, (decide_True (P := a_status row = pending)) by done.
    destruct (decide (id' = id)) as [->|Hne]; [rewrite Hr|destruct (find_alert id' (durable d)) as [row'|] eqn:Er'];
      cbn [fmap option_fmap option_map]; [| |by split; [lia|]].
    + apply find_alert_Some in Hr as [_ Hid]. rewrite (decide_True (P := a_id row = id)) by done. cbn [with_status a_status].
      split; [lia|]. by rewrite decide_False.
    + apply find_alert_Some in Er' as [_ Hid']. rewrite (decide_False (P := a_id row' = id)) by congruence.
      by split; [lia|].
Qed.

(** C4: the backlog empties: with a server that carries out its statements and a model that
    answers, the messages of the queue, in any order, with repetitions, unknown alerts and
    a failing Redis, are all processed without a retry; afterwards no alert they name is
    pending, and each that was has exactly one verdict more, however often it was named;
    no other alert gains or loses anything. *)
Theorem backlog_drains settings jobs d :
  good (outer d) (used (durable d)) -> payloads_validate (durable d) ->
  Forall (fun j => is_Some (parse_uuid j.2)) jobs ->
  exists rs d', work settings jobs d = (Ret rs, d') /\ length rs = length jobs /\
    forall id, pending_count id (durable d') =
        (if decide (id ∈ named jobs) then O else pending_count id (durable d)) /\
      verdict_count id (durable d') =
        (verdict_count id (durable d) + if decide (id ∈ named jobs) then pending_count id (durable d) else 0)%nat.
Proof.
  intros Hg Hval Hp. revert d Hg Hval. induction Hp as [|[raw text] jobs [id Hid] _ IH]; intros d Hg Hval; cbn [work].
  { exists [], d. split_and!; [done..|]. intros id. rewrite decide_False by (intros []%not_elem_of_nil). split; [done|].
    rewrite decide_False by (intros []%not_elem_of_nil). lia. }
  cbn [snd] in Hid. destruct (any_job settings raw text id d Hg Hid Hval) as (r & d1 & E1 & Hg1 & Hval1 & Hstep).
  destruct (IH d1 Hg1 Hval1) as (rs & d' & E & Hl & Hrest). exists (r :: rs), d'.
  split; [unfold mbind, M_bind; by rewrite E1, E|]. split; [cbn [length]; lia|].
  intros id'. destruct (Hrest id') as [Hp' Hv']. destruct (Hstep id') as [Hp1 Hv1].
  assert (Hn : named ((raw, text) :: jobs) = id :: named jobs) by (unfold named; cbn [omap list_omap snd]; by rewrite Hid).
  rewrite Hn, Hp', Hv', Hp1, Hv1. clear - id'.
  destruct (decide (id' = id)) as [->|Hne]; [rewrite !(decide_True (P := id ∈ id :: _)) by left; case_decide; lia|].
  destruct (decide (id' ∈ named jobs)) as [Hin|Hin].
  - rewrite !(decide_True (P := id' ∈ id :: _)) by (by right). lia.
  - rewrite !(decide_False (P := id' ∈ id :: _)) by (intros [?|?]%elem_of_cons; done). lia.
Qed.
End progress.

(** ** Alert 7, named twice, with an unknown one *)

Module ProgressToy.
Export Job.Toy.
(** The server has no failure ahead, and its next uuid is above every one taken. *)
Definition good (w : world) (l : list uuid) : Prop := w.1 = [] /\ Forall (fun i => i < w.2) l.

Lemma is_healthy : healthy answers good.
Proof.
  split.
  - intros [[|x xs] n] l [E ?]; [|done]. by eexists.
  - intros [[|x xs] n] l [E ?]; [|done]. by eexists.
  - intros [os n] l [E Hl]. cbn [gen_uuid postgres fst snd] in *. split.
    + intros Hin. rewrite Forall_forall in Hl. specialize (Hl n Hin). lia.
    + split; [done|]. constructor; [cbn [snd]; lia|]. eapply Forall_impl; [exact Hl|]. cbn [snd]. lia.
  - intros w l l' [E Hl] Hsub. split; [done|]. rewrite Forall_forall in *. eauto.
  - intros a d l Hg Ha. exists outcome_ok, d. by split_and!.
  - intros channel text w l Hg. split; [done|]. by intros e [= <-].
Qed.
End ProgressToy.
Import ProgressToy.

Lemma backlog_drains_witness :
  exists rs d', work answers Job.Toy.settings [(None, [7]); (Some 2, [9]); (Some 2, [7])] Job.Toy.d0 = (Ret rs, d') /\
    pending_count 7 (durable d') = O /\ verdict_count 7 (durable d') = 1%nat.
Proof.
  destruct (backlog_drains (UT := uuids) answers ProgressToy.good ProgressToy.is_healthy Job.Toy.settings
    [(None, [7]); (Some 2, [9]); (Some 2, [7])] Job.Toy.d0) as (rs & d' & E & _ & Hall).
  - split; [reflexivity|]. constructor.
  - intros row Hin _. vm_compute in Hin. apply list_elem_of_singleton in Hin as ->. eexists. vm_compute. reflexivity.
  - repeat constructor; eexists; reflexivity.
  - exists rs, d'. split; [exact E|]. destruct (Hall 7) as [Hp Hv].
    split; [rewrite Hp; reflexivity|rewrite Hv; reflexivity].
Defined.
