(* ===== verification/Tail.v ===== *)
(** * Tail: following Cowrie's log

    [honeypot/shipper/sentinelbrief_shipper/tail.py].  A file is its bytes; the directory
    (which file the path names, what each file holds, the saved position) is a parameter
    whose contents change between calls.  Byte counts and positions are [nat]: the source
    only adds them and subtracts a part from its whole. *)

From S2P Require Import Prelude Errors Json JsonParse Text.
#[local] Open Scope Z_scope.

(** ** Bytes *)

Definition NL : Z := 10.

(** [bs.split(b"\n")], its last element apart: the complete lines and the partial one. *)
Fixpoint split_nl (bs : pybytes) : list pybytes * pybytes :=
  match bs with
  | [] => ([], [])
  | b :: bs' =>
      let '(parts, partial) := split_nl bs' in
      if b =? NL then ([] :: parts, partial)
      else match parts with
           | [] => ([], b :: partial)
           | p :: ps => ((b :: p) :: ps, partial)
           end
  end.

Definition lines_of (bs : pybytes) : list pybytes := (split_nl bs).1.
Definition partial_of (bs : pybytes) : pybytes := (split_nl bs).2.

(** [b"".join(part + b"\n" for part in parts)]. *)
Definition join_nl (parts : list pybytes) : pybytes := concat (map (fun p => p ++ [NL]) parts).

(** [bs.find(b"\n")]. *)
Fixpoint find_nl (bs : pybytes) : option nat :=
  match bs with
  | [] => None
  | b :: bs' => if b =? NL then Some O else S <$> find_nl bs'
  end.

Record TailState : Type := { ts_inode : Z; ts_offset : Z }.

(** Where reading stands in the open file. *)
Record cursor : Type := Cursor {
  pos : nat;
  buffer : pybytes;
  dropping_bytes : option nat;
  dropped_lines : nat
}.

Section drain.
Variables read_chunk_bytes max_batch_lines : nat.
Local Abbreviation max_line_bytes := (4 * read_chunk_bytes)%nat.

(** The remainder of the chunk, how much of it was discarded, and the cursor. *)
Definition _skip_dropped_line (chunk : pybytes) (c : cursor) : pybytes * nat * cursor :=
  match dropping_bytes c with
  | None => (chunk, O, c)
  | Some d =>
      match find_nl chunk with
      | None => ([], length chunk, Cursor (pos c) (buffer c) (Some (d + length chunk)%nat) (dropped_lines c))
      | Some n => (drop (S n) chunk, S n, Cursor (pos c) (buffer c) None (S (dropped_lines c)))
      end
  end.

(** [rfind(b"\n") + 1] is where the partial line starts. *)
Definition _drop_oversize_partial (c : cursor) : nat * cursor :=
  let partial_len := length (partial_of (buffer c)) in
  let partial_start := (length (buffer c) - partial_len)%nat in
  if (partial_len <=? max_line_bytes)%nat then (O, c)
  else (partial_len, Cursor (pos c) (take partial_start (buffer c)) (Some partial_len) (dropped_lines c)).

(** [f.read(n)] at the cursor. *)
Definition read_chunk (content : pybytes) (c : cursor) : pybytes :=
  take read_chunk_bytes (drop (pos c) content).

(** The body of the loop, for a chunk that is not empty. *)
Definition take_chunk (chunk : pybytes) (c : cursor) : nat * cursor :=
  let c := Cursor (pos c + length chunk) (buffer c) (dropping_bytes c) (dropped_lines c) in
  let '(rest, consumed, c) := _skip_dropped_line chunk c in
  let c := Cursor (pos c) (buffer c ++ rest) (dropping_bytes c) (dropped_lines c) in
  let '(n, c) := _drop_oversize_partial c in
  ((consumed + n)%nat, c).

(** [while self._buffer.count(b"\n") < self._max_batch_lines]: whether it ended at the end
    of the file, the bytes dropped, the cursor.  Every round reads at least a byte. *)
Fixpoint read_loop (fuel : nat) (content : pybytes) (dropped : nat) (c : cursor) : bool * nat * cursor :=
  match fuel with
  | O => (false, dropped, c)
  | S fuel' =>
      if (length (lines_of (buffer c)) <? max_batch_lines)%nat then
        let chunk := read_chunk content c in
        match chunk with
        | [] => (true, dropped, c)
        | _ => let '(n, c') := take_chunk chunk c in read_loop fuel' content (dropped + n) c'
        end
      else (false, dropped, c)
  end.

Definition fits (line : pybytes) : bool := (length line <=? max_line_bytes)%nat.

(** What follows the loop: the lines returned, still encoded. *)
Definition take_batch (dropped : nat) (c : cursor) : list pybytes * nat * cursor :=
  let parts := lines_of (buffer c) in
  let oversize := List.filter (fun p => negb (fits p)) parts in
  let kept := List.filter fits parts in
  let held_back := drop max_batch_lines kept in
  (take max_batch_lines kept,
   (dropped + list_sum (map (fun p => S (length p)) oversize))%nat,
   Cursor (pos c) (join_nl held_back ++ partial_of (buffer c)) (dropping_bytes c)
     (dropped_lines c + length oversize)).

Definition drain_bytes (content : pybytes) (c : cursor) : bool * list pybytes * nat * cursor :=
  let '(at_eof, dropped, c) := read_loop (S (length content)) content O c in
  let '(kept, dropped, c) := take_batch dropped c in
  (at_eof, kept, dropped, c).
End drain.

(** ** Lines *)

Lemma split_nl_app a b :
  split_nl (a ++ b) =
  match lines_of b with
  | [] => (lines_of a, partial_of a ++ partial_of b)
  | p :: ps => (lines_of a ++ (partial_of a ++ p) :: ps, partial_of b)
  end.
Proof.
  unfold lines_of, partial_of. induction a as [|x a IH]; simpl.
  - by destruct (split_nl b) as [[|p ps] q].
  - rewrite IH. destruct (split_nl b) as [pb qb], (split_nl a) as [pa qa]; simpl.
    destruct pb; (destruct (x =? NL); [done|]); by destruct pa.
Qed.

Lemma lines_of_app a b :
  lines_of (a ++ b) =
  match lines_of b with [] => lines_of a | p :: ps => lines_of a ++ (partial_of a ++ p) :: ps end.
Proof. unfold lines_of at 1. rewrite split_nl_app. by destruct (lines_of b). Qed.

Lemma partial_of_app a b :
  partial_of (a ++ b) = match lines_of b with [] => partial_of a ++ partial_of b | _ => partial_of b end.
Proof. unfold partial_of at 1. rewrite split_nl_app. by destruct (lines_of b). Qed.

Lemma lines_of_complete a b : partial_of a = [] -> lines_of (a ++ b) = lines_of a ++ lines_of b.
Proof. intros Ha. rewrite lines_of_app, Ha. destruct (lines_of b); by rewrite ?app_nil_r. Qed.

Lemma partial_of_complete a b : partial_of a = [] -> partial_of (a ++ b) = partial_of b.
Proof. intros Ha. rewrite partial_of_app, Ha. by destruct (lines_of b). Qed.

Lemma split_join bs : bs = join_nl (lines_of bs) ++ partial_of bs.
Proof.
  unfold lines_of, partial_of, join_nl. induction bs as [|b bs IH]; simpl; [done|].
  destruct (split_nl bs) as [ps q]; simpl in *. destruct (Z.eqb_spec b NL) as [->|]; simpl.
  - by f_equal.
  - destruct ps; simpl in *; by f_equal.
Qed.

(** A line holds no newline. *)
Lemma lines_no_nl bs : Forall (fun p => NL ∉ p) (lines_of bs) /\ (NL ∉ partial_of bs).
Proof.
  unfold lines_of, partial_of. induction bs as [|b bs [Hp Hq]]; simpl.
  - split; [constructor|apply not_elem_of_nil].
  - destruct (split_nl bs) as [ps q]; simpl in *. destruct (Z.eqb_spec b NL) as [->|Hb]; simpl.
    + split; [|done]. constructor; [apply not_elem_of_nil|done].
    + destruct ps as [|p ps]; simpl.
      * split; [constructor|]. rewrite not_elem_of_cons. naive_solver.
      * split; [|done]. inv Hp. constructor; [|done]. rewrite not_elem_of_cons. naive_solver.
Qed.

Lemma split_no_nl p b : (NL ∉ p) -> split_nl (p ++ NL :: b) = (p :: lines_of b, partial_of b).
Proof.
  intros Hp. unfold lines_of, partial_of. induction p as [|x p IH]; simpl.
  - by destruct (split_nl b).
  - apply not_elem_of_cons in Hp as [Hx Hp]. rewrite (IH Hp).
    by destruct (Z.eqb_spec x NL).
Qed.

Lemma partial_no_nl q : (NL ∉ q) -> split_nl q = ([], q).
Proof.
  induction q as [|x q IH]; simpl; [done|]. intros [Hx Hq]%not_elem_of_cons.
  rewrite (IH Hq). by destruct (Z.eqb_spec x NL).
Qed.

Lemma split_join_nl ps q :
  Forall (fun p => NL ∉ p) ps -> (NL ∉ q) -> split_nl (join_nl ps ++ q) = (ps, q).
Proof.
  intros Hps Hq. induction Hps as [|p ps Hp _ IH]; simpl; [by apply partial_no_nl|].
  replace (join_nl (p :: ps) ++ q) with (p ++ NL :: (join_nl ps ++ q))
    by (unfold join_nl; simpl; by rewrite <- !(assoc_L (++))).
  rewrite split_no_nl by done.
  unfold lines_of, partial_of. by rewrite IH.
Qed.

Lemma find_nl_Some bs n :
  find_nl bs = Some n -> exists p rest, bs = p ++ NL :: rest /\ length p = n /\ (NL ∉ p) /\
    drop (S n) bs = rest.
Proof.
  revert n. induction bs as [|b bs IH]; intros n; simpl; [done|].
  destruct (Z.eqb_spec b NL) as [->|Hb].
  - intros [= <-]. exists [], bs. split_and!; [done..|apply not_elem_of_nil|done].
  - destruct (find_nl bs) as [m|]; simpl; [|done]. intros [= <-].
    destruct (IH m eq_refl) as (p & rest & -> & <- & Hp & Hd). exists (b :: p), rest.
    split_and!; [done|done|by rewrite not_elem_of_cons; naive_solver|done].
Qed.

Lemma find_nl_None bs : find_nl bs = None -> (NL ∉ bs).
Proof.
  induction bs as [|b bs IH]; simpl; [by intros _ ?%not_elem_of_nil|].
  destruct (Z.eqb_spec b NL); [done|]. destruct (find_nl bs); [done|].
  intros _. rewrite not_elem_of_cons. naive_solver.
Qed.

(** ** What a drain does to a file *)

Section drain_facts.
Variables chunk_bytes batch : nat.
Hypothesis chunk_pos : (1 <= chunk_bytes)%nat.
Hypothesis batch_pos : (1 <= batch)%nat.
Implicit Types (content done bs : pybytes) (c : cursor) (L : list pybytes).

(** The reference: the complete lines within the bound. *)
Definition good bs : list pybytes := List.filter (fits chunk_bytes) (lines_of bs).

(** The bytes read since the cursor was opened at [start]. *)
Definition read_since (start : nat) content c : pybytes := take (pos c - start) (drop start content).

(** The lines [L] returned so far and the good lines of the buffer are the good lines of
    what was read.  The buffer is [pre], at most a batch of good lines, then [suf], literally
    the end of what was read; no partial line is longer than the bound, unless it is being
    dropped. *)
Record consistent_with done c L pre suf : Prop := {
  cw_good : good done = L ++ good (buffer c);
  cw_buffer : buffer c = pre ++ suf;
  cw_pre : partial_of pre = [];
  cw_pre_batch : (length (good pre) <= batch)%nat;
  cw_suf : Forall (fun p => fits chunk_bytes p = true) (lines_of suf);
  cw_partial : fits chunk_bytes (partial_of suf) = true;
  cw_dropping : match dropping_bytes c with
    | None => exists x, done = x ++ suf /\ partial_of x = []
    | Some d => suf = [] /\ d = length (partial_of done) /\ (4 * chunk_bytes < d)%nat /\
                (length (lines_of (buffer c)) < batch)%nat
    end
}.
Definition consistent done c L : Prop := exists pre suf, consistent_with done c L pre suf.

Lemma good_complete a b : partial_of a = [] -> good (a ++ b) = good a ++ good b.
Proof. intros Ha. unfold good. by rewrite lines_of_complete, List.filter_app. Qed.

Lemma good_all bs : Forall (fun p => fits chunk_bytes p = true) (lines_of bs) -> good bs = lines_of bs.
Proof.
  unfold good. induction 1 as [|p ps Hp _ IH]; simpl; [done|]. by rewrite Hp, IH.
Qed.

Lemma fits_spec p : fits chunk_bytes p = true <-> (length p <= 4 * chunk_bytes)%nat.
Proof. apply Nat.leb_le. Qed.

(** A chunk's own lines are within the bound. *)
Lemma chunk_fits bs p : (length bs <= chunk_bytes)%nat ->
  p ∈ lines_of bs \/ p = partial_of bs -> fits chunk_bytes p = true.
Proof.
  intros Hl Hp. apply fits_spec. transitivity (length bs); [|lia].
  rewrite (split_join bs), length_app. destruct Hp as [Hp| ->]; [|lia].
  apply list_elem_of_split in Hp as (l1 & l2 & ->). unfold join_nl.
  rewrite map_app, concat_app, length_app. simpl. rewrite !length_app. simpl. lia.
Qed.

Lemma lines_of_line q p : (NL ∉ p) -> lines_of (p ++ NL :: q) = p :: lines_of q.
Proof. intros Hp. unfold lines_of at 1. by rewrite split_no_nl. Qed.

Lemma partial_of_line q p : (NL ∉ p) -> partial_of (p ++ NL :: q) = partial_of q.
Proof. intros Hp. unfold partial_of at 1. by rewrite split_no_nl. Qed.

Lemma join_complete ps : Forall (fun p => NL ∉ p) ps -> lines_of (join_nl ps) = ps /\ partial_of (join_nl ps) = [].
Proof.
  intros Hps. pose proof (split_join_nl ps [] Hps (not_elem_of_nil _)) as E.
  rewrite app_nil_r in E. unfold lines_of, partial_of. by rewrite E.
Qed.

Lemma lines_complete bs : lines_of (join_nl (lines_of bs)) = lines_of bs /\
  partial_of (join_nl (lines_of bs)) = [].
Proof. apply join_complete, lines_no_nl. Qed.

(** Only the line a chunk completes can be over the bound: it and what precedes it can be
    set apart. *)
Lemma extend_suffix suf chunk :
  Forall (fun p => fits chunk_bytes p = true) (lines_of suf) ->
  (length chunk <= chunk_bytes)%nat ->
  exists y suf', suf ++ chunk = y ++ suf' /\ partial_of y = [] /\
    Forall (fun p => fits chunk_bytes p = true) (lines_of suf') /\
    (y = [] \/ good y = lines_of suf).
Proof.
  intros Hs Hl.
  assert (Hc : Forall (fun p => fits chunk_bytes p = true) (lines_of chunk)).
  { apply Forall_forall. intros p Hp. eapply chunk_fits; eauto. }
  pose proof (lines_of_app suf chunk) as Hsc.
  destruct (lines_of chunk) as [|p ps] eqn:Ec; [exists [], (suf ++ chunk); rewrite Hsc; by split_and!; auto|].
  apply Forall_cons in Hc as [Hp Hps].
  destruct (fits chunk_bytes (partial_of suf ++ p)) eqn:Hf.
  { exists [], (suf ++ chunk). rewrite Hsc. split_and!; auto. apply Forall_app. auto. }
  pose proof (split_join chunk) as Hj. rewrite Ec in Hj.
  destruct (lines_no_nl chunk) as [Hnp Hnq]. rewrite Ec in Hnp. apply Forall_cons in Hnp as [Hnp Hnps].
  assert (Hjoin : join_nl (p :: ps) = p ++ NL :: join_nl ps)
    by (unfold join_nl; simpl; by rewrite <- (assoc_L (++))).
  exists (suf ++ p ++ [NL]), (join_nl ps ++ partial_of chunk). split_and!.
  - rewrite Hj at 1. rewrite Hjoin, <- !(assoc_L (++)). done.
  - by rewrite partial_of_app, lines_of_line, partial_of_line.
  - unfold lines_of. by rewrite split_join_nl.
  - right. unfold good. rewrite lines_of_app, lines_of_line by done. simpl.
    rewrite List.filter_app. simpl. rewrite Hf, app_nil_r. by apply good_all.
Qed.

(** A chunk read while nothing is being dropped. *)
Lemma append_consistent done chunk c L :
  consistent done c L -> dropping_bytes c = None -> (length chunk <= chunk_bytes)%nat ->
  (length (lines_of (buffer c)) < batch)%nat ->
  fits chunk_bytes (partial_of (buffer c ++ chunk)) = true ->
  consistent (done ++ chunk) (Cursor (pos c + length chunk) (buffer c ++ chunk) None (dropped_lines c)) L.
Proof.
  intros (pre & suf & [Hg Hb Hp Hpb Hs _ Hd]) Hn Hl Hc Hf. rewrite Hn in Hd.
  destruct Hd as (x & -> & Hx). destruct (extend_suffix suf chunk Hs Hl) as (y & suf' & E & Hy & Hs' & Hgy).
  rewrite good_complete, Hb, good_complete, (assoc_L (++)) in Hg by done. apply app_inv_tail in Hg.
  assert (Hpb' : (length (good pre) + length (lines_of suf) < batch)%nat).
  { rewrite Hb, lines_of_complete, length_app in Hc by done.
    pose proof (List.filter_length_le (fits chunk_bytes) (lines_of pre)). unfold good in *. lia. }
  assert (Hpy : partial_of (pre ++ y) = []) by by rewrite partial_of_complete.
  exists (pre ++ y), suf'. split; simpl; [| |done| |done| |].
  - rewrite <- (assoc_L (++)), Hb, <- (assoc_L (++)), E.
    rewrite (good_complete x), (good_complete pre), Hg by done. by rewrite (assoc_L (++)).
  - by rewrite Hb, <- !(assoc_L (++)), E.
  - rewrite good_complete, length_app by done. destruct Hgy as [->| ->]; simpl; lia.
  - rewrite Hb, <- (assoc_L (++)), E, (assoc_L (++)), partial_of_complete in Hf by done. exact Hf.
  - exists (x ++ y). rewrite <- !(assoc_L (++)), E. split; [done|]. by rewrite partial_of_complete.
Qed.

(** A partial line grown past the bound starts being dropped. *)
Lemma grow_consistent done chunk c L :
  consistent done c L -> dropping_bytes c = None -> (length chunk <= chunk_bytes)%nat ->
  (length (lines_of (buffer c)) < batch)%nat ->
  fits chunk_bytes (partial_of (buffer c ++ chunk)) = false ->
  consistent (done ++ chunk)
    (Cursor (pos c + length chunk) (join_nl (lines_of (buffer c ++ chunk)))
       (Some (length (partial_of (buffer c ++ chunk)))) (dropped_lines c)) L.
Proof.
  intros (pre & suf & [Hg Hb Hp Hpb Hs _ Hd]) Hn Hl Hc Hf. rewrite Hn in Hd.
  destruct Hd as (x & -> & Hx).
  destruct (lines_complete (buffer c ++ chunk)) as [Hj Hjp].
  assert (Hnl : lines_of chunk = []).
  { destruct (lines_of chunk) as [|p ps] eqn:E; [done|]. rewrite partial_of_app, E in Hf.
    rewrite (chunk_fits chunk) in Hf; auto. done. }
  assert (Hpart : partial_of ((x ++ suf) ++ chunk) = partial_of (buffer c ++ chunk)).
  { by rewrite Hb, <- !(assoc_L (++)), (partial_of_complete x), (partial_of_complete pre). }
  assert (Hlines : forall b, lines_of (b ++ chunk) = lines_of b) by (intros b; by rewrite lines_of_app, Hnl).
  exists (join_nl (lines_of (buffer c ++ chunk))), []. split; simpl.
  - unfold good at 1 2. rewrite Hj, !Hlines. exact Hg.
  - by rewrite app_nil_r.
  - done.
  - unfold good. rewrite Hj, Hlines.
    pose proof (List.filter_length_le (fits chunk_bytes) (lines_of (buffer c))). lia.
  - constructor.
  - done.
  - split_and!; [done|by rewrite Hpart| |by rewrite Hj, Hlines].
    apply not_true_iff_false in Hf. rewrite fits_spec in Hf. lia.
Qed.

(** A line being dropped goes on, or ends in the chunk. *)
Lemma skip_consistent done chunk c L d :
  consistent done c L -> dropping_bytes c = Some d -> find_nl chunk = None ->
  consistent (done ++ chunk)
    (Cursor (pos c + length chunk) (buffer c) (Some (d + length chunk)%nat) (dropped_lines c)) L.
Proof.
  intros (pre & suf & [Hg Hb Hp Hpb Hs Hf Hd]) Hn Hno%find_nl_None%partial_no_nl. rewrite Hn in Hd.
  destruct Hd as (-> & -> & Hm & Hcount).
  assert (Hc : lines_of chunk = []) by (unfold lines_of; by rewrite Hno).
  exists pre, []. split; simpl; try done.
  - unfold good at 1. by rewrite lines_of_app, Hc.
  - rewrite partial_of_app, Hc, length_app. split_and!; [done| |lia|done].
    unfold partial_of at 3. by rewrite Hno.
Qed.

Lemma resume_consistent done p rest c L d :
  consistent done c L -> dropping_bytes c = Some d -> (NL ∉ p) ->
  (length (p ++ NL :: rest) <= chunk_bytes)%nat ->
  consistent (done ++ p ++ NL :: rest)
    (Cursor (pos c + length (p ++ NL :: rest)) (buffer c ++ rest) None (S (dropped_lines c))) L.
Proof.
  intros (pre & suf & [Hg Hb Hp Hpb Hs Hf Hd]) Hn Hnp Hl. rewrite Hn in Hd.
  destruct Hd as (-> & -> & Hm & _). rewrite app_nil_r in Hb.
  assert (Hr : (length rest <= chunk_bytes)%nat) by (rewrite length_app in Hl; simpl in Hl; lia).
  set (x := done ++ p ++ [NL]).
  assert (Hx : partial_of x = [] /\ good x = good done).
  { unfold x, good. rewrite (partial_of_app done), (lines_of_app done), lines_of_line, partial_of_line by done.
    split; [done|]. rewrite List.filter_app. simpl.
    replace (fits chunk_bytes (partial_of done ++ p)) with false; [by rewrite app_nil_r|].
    symmetry. apply not_true_iff_false. rewrite fits_spec, length_app. lia. }
  assert (E : done ++ p ++ NL :: rest = x ++ rest) by (unfold x; by rewrite <- !(assoc_L (++))).
  destruct Hx as [Hx Hgx]. rewrite E. exists pre, rest. split; simpl.
  - rewrite good_complete, Hgx, Hg, Hb by done. by rewrite good_complete, (assoc_L (++)).
  - by rewrite Hb.
  - done.
  - done.
  - apply Forall_forall. intros q Hq. eapply chunk_fits; eauto.
  - apply (chunk_fits rest); auto.
  - exists x. done.
Qed.

Lemma drop_oversize_eq c :
  _drop_oversize_partial chunk_bytes c =
  if fits chunk_bytes (partial_of (buffer c)) then (O, c)
  else (length (partial_of (buffer c)),
        Cursor (pos c) (join_nl (lines_of (buffer c))) (Some (length (partial_of (buffer c))))
          (dropped_lines c)).
Proof.
  unfold _drop_oversize_partial. fold (fits chunk_bytes (partial_of (buffer c))).
  destruct (fits _ _); [done|]. do 3 f_equal. pose proof (split_join (buffer c)) as E.
  set (j := join_nl _) in *. set (q := partial_of _) in *. clearbody j q. rewrite E.
  by rewrite length_app, Nat.add_sub, take_app_length.
Qed.

Lemma take_chunk_consistent done chunk c L :
  consistent done c L -> (length chunk <= chunk_bytes)%nat ->
  (length (lines_of (buffer c)) < batch)%nat ->
  consistent (done ++ chunk) (take_chunk chunk_bytes chunk c).2 L /\
  pos (take_chunk chunk_bytes chunk c).2 = (pos c + length chunk)%nat.
Proof.
  intros Hc Hl Hb. unfold take_chunk, _skip_dropped_line. cbn [dropping_bytes buffer pos dropped_lines].
  destruct (dropping_bytes c) as [d|] eqn:Hd.
  - assert (Hfit : partial_of (buffer c) = []).
    { destruct Hc as (pre & suf & [? Hbuf Hp ? ? ? Hdr]). rewrite Hd in Hdr.
      destruct Hdr as [-> _]. by rewrite Hbuf, app_nil_r. }
    destruct (find_nl chunk) as [n|] eqn:Hf; cbn [dropping_bytes buffer pos dropped_lines];
      rewrite drop_oversize_eq; cbn [dropping_bytes buffer pos dropped_lines].
    + apply find_nl_Some in Hf as (p & rest & -> & <- & Hnp & ->).
      rewrite partial_of_complete by done.
      rewrite (chunk_fits rest); [|rewrite length_app in Hl; simpl in Hl; lia|by right].
      split; [|done]. by eapply resume_consistent.
    + rewrite app_nil_r, Hfit. split; [|done]. by eapply skip_consistent.
  - rewrite drop_oversize_eq. cbn [dropping_bytes buffer pos dropped_lines]. split; [|by destruct (fits _ _)].
    destruct (fits chunk_bytes (partial_of (buffer c ++ chunk))) eqn:Hf.
    + by apply append_consistent.
    + by apply grow_consistent.
Qed.

Lemma good_pre_batch done c L pre suf : consistent_with done c L pre suf ->
  take batch (good (buffer c)) = good pre ++ take (batch - length (good pre)) (lines_of suf) /\
  drop batch (good (buffer c)) = drop (batch - length (good pre)) (lines_of suf).
Proof.
  intros [_ Hb Hp Hpb Hs _ _]. rewrite Hb, good_complete, (good_all suf) by done.
  rewrite take_app, drop_app, take_ge, drop_ge by done. done.
Qed.

(** Handing out a batch: what stays buffered is literally the end of what was read. *)
Lemma take_batch_spec done c L dropped kept dropped' c' :
  consistent done c L -> take_batch chunk_bytes batch dropped c = (kept, dropped', c') ->
  consistent done c' (L ++ kept) /\ (length kept <= batch)%nat /\
  (dropping_bytes c' = None -> exists x, done = x ++ buffer c' /\ partial_of x = [] /\
     good x = L ++ kept) /\
  ((length (lines_of (buffer c)) < batch)%nat -> good (buffer c') = []) /\ pos c' = pos c.
Proof.
  intros (pre & suf & H). pose proof (good_pre_batch _ _ _ _ _ H) as [Ht Hdr].
  unfold take_batch. intros [= <- _ <-]. fold (good (buffer c)). rewrite Ht, Hdr.
  destruct H as [Hg Hb Hp Hpb Hs Hf Hd].
  set (K := take _ (lines_of suf)). set (H := drop _ (lines_of suf)).
  assert (HKH : lines_of suf = K ++ H) by (symmetry; apply take_drop).
  assert (Hq : partial_of (buffer c) = partial_of suf) by by rewrite Hb, partial_of_complete.
  destruct (lines_no_nl suf) as [Hnl Hnq]. rewrite HKH in Hnl, Hs.
  apply Forall_app in Hnl as [HnK HnH]. apply Forall_app in Hs as [HsK HsH].
  pose proof (split_join_nl H _ HnH Hnq) as Hbuf.
  assert (Hlb : lines_of (join_nl H ++ partial_of suf) = H) by (unfold lines_of at 1; by rewrite Hbuf).
  assert (Hpb' : partial_of (join_nl H ++ partial_of suf) = partial_of suf)
    by (unfold partial_of at 1; by rewrite Hbuf).
  assert (Hgb : good (join_nl H ++ partial_of suf) = H) by (rewrite good_all; by rewrite Hlb).
  assert (Hgd : good done = (L ++ good pre ++ K) ++ H).
  { rewrite Hg, Hb, good_complete, (good_all suf), HKH by (done || by rewrite HKH; apply Forall_app).
    by rewrite <- !(assoc_L (++)). }
  assert (HK : (length (good pre ++ K) <= batch)%nat).
  { unfold K. rewrite length_app, length_take. lia. }
  rewrite Hq. cbn [buffer dropping_bytes pos]. rewrite Hgb. split_and!; [|done| | |done].
  - exists [], (join_nl H ++ partial_of suf). split; cbn [buffer dropping_bytes].
    + by rewrite Hgb.
    + done.
    + done.
    + simpl. lia.
    + by rewrite Hlb.
    + by rewrite Hpb'.
    + destruct (dropping_bytes c) as [d|].
      * destruct Hd as (-> & Hd & Hm & _). simpl in HKH.
        assert (H = []) as -> by (destruct K; [by destruct H|done]). simpl. split_and!; done || lia.
      * destruct Hd as (x & -> & Hx). exists (x ++ join_nl K).
        destruct (join_complete K HnK) as [_ HpK]. rewrite partial_of_complete by done.
        split; [|done]. rewrite <- (assoc_L (++)). f_equal. rewrite (split_join suf) at 1.
        rewrite HKH. unfold join_nl. by rewrite map_app, concat_app, <- (assoc_L (++)).
  - intros Hn. rewrite Hn in Hd. destruct Hd as (x & -> & Hx).
    destruct (join_complete K HnK) as [HlK HpK]. exists (x ++ join_nl K). split_and!.
    + rewrite <- (assoc_L (++)). f_equal. rewrite (split_join suf) at 1.
      rewrite HKH. unfold join_nl. by rewrite map_app, concat_app, <- (assoc_L (++)).
    + by rewrite partial_of_complete.
    + rewrite good_complete in Hgd |- * by done. rewrite (good_all suf) in Hgd by (rewrite HKH; by apply Forall_app).
      rewrite HKH, (assoc_L (++)) in Hgd. apply app_inv_tail in Hgd.
      rewrite (good_all (join_nl K)) by by rewrite HlK. by rewrite HlK.
  - intros Hc. rewrite Hb, lines_of_complete, length_app, HKH in Hc by done.
    apply length_zero_iff_nil. unfold H. rewrite length_drop, HKH.
    pose proof (List.filter_length_le (fits chunk_bytes) (lines_of pre)).
    rewrite !length_app in *. unfold good in *. lia.
Qed.

(** A drain in progress over [content], from [start]. *)
Definition follows (start : nat) content c L : Prop :=
  (start <= pos c <= length content)%nat /\ consistent (read_since start content c) c L.

Lemma follows_extend start content more c L :
  follows start content c L -> follows start (content ++ more) c L.
Proof.
  intros [Hp Hc]. split; [rewrite length_app; lia|]. unfold read_since.
  rewrite drop_app_le, take_app_le; [done|rewrite length_drop; lia|lia].
Qed.

Lemma follows_fresh start content : (start <= length content)%nat ->
  follows start content (Cursor start [] None O) [].
Proof.
  intros Hs. split; simpl; [lia|]. unfold read_since. simpl. rewrite Nat.sub_diag, take_0.
  exists [], []. split; simpl; first [lia|by exists []|by constructor|done].
Qed.

Lemma read_chunk_spec start content c :
  (start <= pos c <= length content)%nat ->
  let chunk := read_chunk chunk_bytes content c in
  (length chunk <= chunk_bytes)%nat /\ (pos c + length chunk <= length content)%nat /\
  (chunk = [] -> pos c = length content) /\
  forall c', pos c' = (pos c + length chunk)%nat ->
    read_since start content c' = read_since start content c ++ chunk.
Proof.
  intros Hp chunk. unfold chunk, read_chunk. rewrite length_take, length_drop. split_and!; [lia..| |].
  - intros E%(f_equal length). rewrite length_take, length_drop in E. simpl in E. lia.
  - intros c' Hc'. unfold read_since. rewrite Hc'.
    replace (drop (pos c) content) with (drop (pos c - start) (drop start content))
      by (rewrite drop_drop; f_equal; lia).
    replace (pos c + _ - start)%nat with
      ((pos c - start) + (chunk_bytes `min` (length content - pos c)))%nat by lia.
    rewrite take_take_drop.
    destruct (Nat.min_spec chunk_bytes (length content - pos c)) as [[_ ->]|[? ->]]; [done|].
    rewrite !take_ge; [done|rewrite !length_drop; lia..].
Qed.

(** The loop ends, at the end of the file or with a full batch in the buffer. *)
Lemma read_loop_spec fuel start content dropped c L at_eof dropped' c' :
  follows start content c L -> (length content - pos c < fuel)%nat ->
  read_loop chunk_bytes batch fuel content dropped c = (at_eof, dropped', c') ->
  follows start content c' L /\
  (if at_eof then pos c' = length content /\ (length (lines_of (buffer c')) < batch)%nat
   else (batch <= length (lines_of (buffer c')))%nat).
Proof.
  revert dropped c. induction fuel as [|fuel IH]; intros dropped c [Hp Hc] Hfuel; [lia|]. simpl.
  destruct (Nat.ltb_spec (length (lines_of (buffer c))) batch) as [Hb|Hb].
  2: { intros [= <- _ <-]. by split; [split|]. }
  destruct (read_chunk_spec start content c Hp) as (Hl & Hle & Hend & Hread).
  destruct (read_chunk chunk_bytes content c) as [|b bs] eqn:Ec.
  { intros [= <- _ <-]. split; [by split|]. auto. }
  destruct (take_chunk chunk_bytes (b :: bs) c) as [n c1] eqn:Et.
  pose proof (take_chunk_consistent _ _ _ _ Hc Hl Hb) as [Hc1 Hp1]. rewrite Et in Hc1, Hp1. simpl in Hc1, Hp1.
  apply IH; [|simpl in Hle; lia]. split; [simpl in Hle; lia|]. by rewrite (Hread c1).
Qed.

Lemma drain_lossless_aux start content c L at_eof kept dropped c' :
  follows start content c L ->
  drain_bytes chunk_bytes batch content c = (at_eof, kept, dropped, c') ->
  (forall more, follows start (content ++ more) c' (L ++ kept)) /\
  (length kept <= batch)%nat /\
  (at_eof = true -> L ++ kept = good (drop start content)) /\
  (dropping_bytes c' = None -> exists x, read_since start content c' = x ++ buffer c' /\
     partial_of x = [] /\ good x = L ++ kept).
Proof.
  intros Hf. unfold drain_bytes.
  destruct (read_loop _ _ _ _ _ _) as [[eof d1] c1] eqn:El.
  destruct (take_batch _ _ d1 c1) as [[kept1 d2] c2] eqn:Et. intros [= <- <- <- <-].
  apply (read_loop_spec _ _ _ _ _ _ _ _ _ Hf) in El as [[Hp1 Hc1] Hend]; [|lia].
  apply (take_batch_spec _ _ _ _ _ _ _ Hc1) in Et as (Hc2 & Hlen & Hsuf & Hrest & Hp2).
  assert (Hr : read_since start content c2 = read_since start content c1)
    by (unfold read_since; by rewrite Hp2).
  assert (Hf2 : follows start content c2 (L ++ kept1)) by (split; [by rewrite Hp2|by rewrite Hr]).
  split_and!; [intros more; by apply follows_extend|done| |].
  - intros ->. destruct Hend as [He Hcount]. specialize (Hrest Hcount).
    destruct Hc2 as (pre & suf & [Hg _ _ _ _ _ _]). rewrite Hrest, app_nil_r in Hg. rewrite <- Hg.
    unfold read_since. rewrite He, take_ge; [done|]. rewrite length_drop. lia.
  - intros Hn. rewrite Hr. by apply Hsuf.
Qed.

(** C13: draining loses, repeats and reorders nothing: whatever the chunk size, the batch
    limit and the way the file grows, the lines of successive drains are the complete
    lines of the bytes read that are within the bound, in order; a drain that reaches the
    end of the file has returned all of them, at most a batch at a time; and, unless an
    over-long line is being dropped, reading again from the offset it commits yields
    exactly the lines not yet returned. *)
Theorem drain_lossless start content c L at_eof kept dropped c' :
  follows start content c L ->
  drain_bytes chunk_bytes batch content c = (at_eof, kept, dropped, c') ->
  (forall more, follows start (content ++ more) c' (L ++ kept)) /\
  (length kept <= batch)%nat /\
  (at_eof = true -> L ++ kept = good (drop start content)) /\
  (dropping_bytes c' = None -> forall more,
     (L ++ kept) ++ good (drop (pos c' - length (buffer c')) (content ++ more)) =
     good (drop start (content ++ more))).
Proof.
  intros Hf Ed. pose proof (drain_lossless_aux _ _ _ _ _ _ _ _ Hf Ed) as (Hf2 & Hlen & Heof & Hsuf).
  split_and!; [done..|]. intros Hn more. destruct (Hsuf Hn) as (x & Hx & Hpx & <-).
  destruct (Hf2 []) as [Hp _]. rewrite app_nil_r in Hp. unfold read_since in Hx.
  assert (Hd : drop start (content ++ more) =
               (x ++ buffer c') ++ drop (pos c') (content ++ more)).
  { rewrite <- Hx, (drop_app_le _ more) by lia.
    rewrite <- (take_drop (pos c' - start) (drop start content)) at 1. rewrite <- (assoc_L (++)). f_equal.
    rewrite drop_drop, (drop_app_le _ more) by lia. f_equal. f_equal. lia. }
  rewrite Hd, <- (assoc_L (++)), (good_complete x) by done. f_equal. f_equal.
  apply (f_equal length) in Hx. rewrite length_take, length_drop, length_app in Hx.
  replace (drop (pos c' - length (buffer c')) (content ++ more)) with
    (drop (length x) (drop start (content ++ more))) by (rewrite drop_drop; f_equal; lia).
  by rewrite Hd, <- (assoc_L (++)), drop_app_length.
Qed.
End drain_facts.

(** ** The tailer *)

(** What the operating system answers, an errno for an [OSError]: the file the path names,
    the file an [open] gives, the bytes of a file, the saved position's text ([None] when
    it is absent, unreadable or not UTF-8), the outcome of replacing it; and what other
    processes do to all this between two calls. *)
Class LogDir (W : Type) : Type := {
  path_stat : W -> outcome Z Z;
  path_open : W -> outcome Z Z;
  content : W -> Z -> pybytes;
  state_text : W -> option pystr;
  write_state : pystr -> W -> outcome exn unit * W;
  elsewhere : W -> W
}.

(** [int(v)] of a JSON value. *)
Class IntOf : Type := {
  int_of : json -> outcome exn Z;
  int_of_int : forall n, int_of (JInt n) = Ret n
}.

Record LogTailer : Type := Tailer {
  _file : option Z;
  _inode : option Z;
  cur : cursor;
  _last_open_errno : option Z;
  _pending_state : option TailState;
  _at_eof : bool
}.

Definition ENOENT : Z := 2.
Definition EINVAL : Z := 22.
Definition fresh (n : nat) (dropped : nat) : cursor := Cursor n [] None dropped.

(** [LogTailer(...)]. *)
Definition tailer0 : LogTailer := Tailer None None (fresh 0 0) None None false.

(** A [ValueError] (its subclasses included) or a [KeyError]. *)
Definition is_value_or_key_error (e : exn) : bool :=
  match e with
  | ValueError _ | UnicodeDecodeError | JSONDecodeError | ValidationError | KeyError => true
  | _ => false
  end.

Section tailer.
Context {W : Type} {LD : LogDir W} {JL : JsonLoads} {IO : IntOf} {FR : FloatRepr}.
Variables read_chunk_bytes max_batch_lines : nat.

(** The object and the machine around it. *)
Record tail : Type := Tail { self : LogTailer; dir : W }.

Definition update (f : LogTailer -> LogTailer) (s : tail) : tail := Tail (f (self s)) (dir s).

Definition warn_once_per_errno (errno : Z) (t : LogTailer) : LogTailer :=
  Tailer (_file t) (_inode t) (cur t) (Some errno) (_pending_state t) (_at_eof t).

Definition _load_state (w : W) : outcome exn (option TailState) :=
  match state_text w with
  | None => Ret None
  | Some text =>
      match json_loads text with
      | None => Ret None
      | Some (JObj kvs) =>
          let field k := match dget (u k) kvs with Some j => int_of j | None => Raise KeyError end in
          match (i ← field "inode"; o ← field "offset"; Ret {| ts_inode := i; ts_offset := o |}) with
          | Ret ts => Ret (Some ts)
          | Raise e => if is_value_or_key_error e then Ret None else Raise e
          end
      | Some _ => Raise TypeError
      end
  end.

Definition _persist_state (ts : TailState) : M exn tail unit := fun s =>
  match dumps default_args (JObj [(u "inode", JInt (ts_inode ts)); (u "offset", JInt (ts_offset ts))]) with
  | Ret text => let '(o, w) := write_state text (dir s) in (o, Tail (self s) w)
  | Raise e => (Raise e, s)
  end.

Definition commit_offset : M exn tail unit := fun s =>
  match _pending_state (self s) with
  | None => (Ret tt, s)
  | Some ts =>
      _persist_state ts (update (fun t =>
        Tailer (_file t) (_inode t) (cur t) (_last_open_errno t) None (_at_eof t)) s)
  end.

(** An [OSError] is left to the caller as its errno. *)
Definition _open_at_saved_offset : M (exn + Z) tail unit := fun s =>
  match path_open (dir s) with
  | Raise errno => (Raise (inr errno), s)
  | Ret file =>
      let s := Tail (self s) (elsewhere (dir s)) in
      match path_stat (dir s) with
      | Raise errno => (Raise (inr errno), s)
      | Ret inode =>
          let opened n := (Ret tt, update (fun t =>
            Tailer (Some file) (Some inode) (Cursor n (buffer (cur t)) (dropping_bytes (cur t))
              (dropped_lines (cur t))) (_last_open_errno t) (_pending_state t) (_at_eof t)) s) in
          match _load_state (dir s) with
          | Raise e => (Raise (inl e), s)
          | Ret None => opened O
          | Ret (Some ts) =>
              if bool_decide (ts_inode ts = inode) then
                let size := py_len (content (dir s) inode) in
                let target := if ts_offset ts <=? size then ts_offset ts else 0 in
                if target <? 0 then (Raise (inr EINVAL), s) else opened (Z.to_nat target)
              else opened O
          end
      end
  end.

Definition _drain_open_file : M exn tail (list pystr) := fun s =>
  let t := self s in
  match _file t with
  | None => (Raise AssertionError, s)
  | Some file =>
      let '(at_eof, kept, dropped, c) :=
        drain_bytes read_chunk_bytes max_batch_lines (content (dir s) file) (cur t) in
      let t1 := Tailer (_file t) (_inode t) c (_last_open_errno t) (_pending_state t) at_eof in
      match mapM utf8_decode kept with
      | Raise e => (Raise e, Tail t1 (dir s))
      | Ret lines =>
          if bool_decide (lines = []) && (dropped =? 0)%nat then (Ret lines, Tail t1 (dir s))
          else
            match _inode t with
            | None => (Raise AssertionError, Tail t1 (dir s))
            | Some inode =>
                let offset := (pos c - length (buffer c))%nat in
                (Ret lines, Tail (Tailer (_file t) (_inode t) c (_last_open_errno t)
                   (Some {| ts_inode := inode; ts_offset := Z.of_nat offset |}) at_eof) (dir s))
            end
      end
  end.

Definition close_file (t : LogTailer) : LogTailer :=
  Tailer None None (Cursor (pos (cur t)) [] None (dropped_lines (cur t))) (_last_open_errno t)
    (_pending_state t) (_at_eof t).

Definition read_new_lines (persist : bool) : M exn tail (list pystr) :=
  let finish (lines : list pystr) : M exn tail (list pystr) :=
    _ ← (if persist then commit_offset else mret tt); mret lines in
  s ← get;
  match _file (self s) with
  | Some _ =>
      let current := match path_stat (dir s) with Ret i => Some i | Raise _ => None end in
      _ ← (match path_stat (dir s) with
           | Ret _ => mret tt
           | Raise errno => modify (update (warn_once_per_errno errno))
           end);
      lines ← _drain_open_file;
      s ← get;
      _ ← (if negb (bool_decide (current = _inode (self s))) && _at_eof (self s)
           then modify (update close_file) else mret tt);
      finish lines
  | None =>
      match _open_at_saved_offset s with
      | (Raise (inr errno), s1) =>
          if errno =? ENOENT then _ ← put s1; mret []
          else _ ← put (update (warn_once_per_errno errno) s1); mret []
      | (Raise (inl e), s1) => _ ← put s1; raise e
      | (Ret _, s1) =>
          _ ← put (update (fun t => Tailer (_file t) (_inode t) (cur t) None (_pending_state t)
                                      (_at_eof t)) s1);
          lines ← _drain_open_file;
          finish lines
      end
  end.
End tailer.
Arguments tail : clear implicits.
Arguments Tail {W}. Arguments self {W}. Arguments dir {W}.

Section tailer_facts.
Context {W : Type} {LD : LogDir W} {JL : JsonLoads} {IO : IntOf} {FR : FloatRepr}.
Variables chunk_bytes batch : nat.
Hypothesis chunk_pos : (1 <= chunk_bytes)%nat.
Hypothesis batch_pos : (1 <= batch)%nat.
Implicit Types (s : tail W).

Lemma drain_open_file_spec f s o s' :
  _file (self s) = Some f -> _drain_open_file chunk_bytes batch s = (o, s') ->
  exists at_eof kept dropped c,
    drain_bytes chunk_bytes batch (content (dir s) f) (cur (self s)) = (at_eof, kept, dropped, c) /\
    _file (self s') = Some f /\ _inode (self s') = _inode (self s) /\ dir s' = dir s /\
    cur (self s') = c /\ _at_eof (self s') = at_eof /\
    (forall lines, o = Ret lines -> mapM utf8_decode kept = Ret lines) /\
    (forall e, o = Raise e -> mapM utf8_decode kept = Raise e \/ _inode (self s) = None).
Proof.
  intros Hf. unfold _drain_open_file. rewrite Hf.
  destruct (drain_bytes _ _ _ _) as [[[at_eof kept] dropped] c] eqn:Ed. intros H.
  exists at_eof, kept, dropped, c. destruct (mapM utf8_decode kept) as [lines|e] eqn:Em.
  2: { injection H as <- <-. simpl. split_and!; naive_solver. }
  destruct (_ && _); [injection H as <- <-; simpl; split_and!; naive_solver|].
  destruct (_inode (self s)) eqn:Ei; injection H as <- <-; simpl; split_and!; naive_solver.
Qed.

Lemma commit_offset_frame s o s' : commit_offset s = (o, s') ->
  _file (self s') = _file (self s) /\ _inode (self s') = _inode (self s) /\ cur (self s') = cur (self s).
Proof.
  unfold commit_offset, _persist_state. destruct (_pending_state (self s)); [|by intros [= _ <-]].
  simpl. destruct (write_state _ _). by intros [= _ <-].
Qed.

(** One call on an open file. *)
Lemma read_open_spec p f s lines s' :
  _file (self s) = Some f -> read_new_lines chunk_bytes batch p s = (Ret lines, s') ->
  exists at_eof kept dropped c,
    drain_bytes chunk_bytes batch (content (dir s) f) (cur (self s)) = (at_eof, kept, dropped, c) /\
    mapM utf8_decode kept = Ret lines /\
    (_file (self s') = Some f /\ _inode (self s') = _inode (self s) /\ cur (self s') = c \/
     _file (self s') = None /\ at_eof = true /\ forall i, path_stat (dir s) = Ret i -> _inode (self s) <> Some i).
Proof.
  intros Hf. unfold read_new_lines, mbind, M_bind, get. rewrite Hf.
  set (s1 := (match path_stat (dir s) with
              | Ret _ => s
              | Raise errno => update (warn_once_per_errno errno) s
              end)).
  assert (H1 : (match path_stat (dir s) with
                | Ret _ => mret tt
                | Raise errno => modify (update (warn_once_per_errno errno))
                end : M exn (tail W) unit) s = (Ret tt, s1)).
  { unfold s1. by destruct (path_stat (dir s)). }
  rewrite H1. assert (Hs1 : _file (self s1) = Some f /\ _inode (self s1) = _inode (self s) /\
    dir s1 = dir s /\ cur (self s1) = cur (self s)) by (unfold s1; by destruct (path_stat (dir s))).
  destruct Hs1 as (Hf1 & Hi1 & Hd1 & Hc1). clearbody s1. clear H1.
  destruct (_drain_open_file chunk_bytes batch s1) as [[ls|e] s2] eqn:E; [|done].
  apply drain_open_file_spec with (f := f) in E as (at_eof & kept & dropped & c & Ed & Hf2 & Hi2 & _ & Hc2 & He2 & Hl & _);
    [|done]. rewrite Hd1, Hc1 in Ed. specialize (Hl ls eq_refl).
  set (cur_i := match path_stat (dir s) with Ret i => Some i | Raise _ => None end).
  intros H. exists at_eof, kept, dropped, c. split; [done|].
  destruct (negb (bool_decide (cur_i = _inode (self s2))) && _at_eof (self s2)) eqn:Eb;
    unfold modify, mret, M_ret in H.
  - apply andb_true_iff in Eb as [Eb%negb_true_iff%bool_decide_eq_false Heof].
    destruct p.
    + destruct (commit_offset _) as [[[]|e] s3] eqn:Ec; [|done]. apply commit_offset_frame in Ec as (Hf3 & _ & _).
      injection H as -> <-. split; [done|]. right. rewrite Hf3. split_and!; [done|congruence|].
      intros i Hi Hsome. apply Eb. unfold cur_i. by rewrite Hi, Hi2, Hi1.
    + injection H as -> <-. split; [done|]. right. split_and!; [done|congruence|].
      intros i Hi Hsome. apply Eb. unfold cur_i. by rewrite Hi, Hi2, Hi1.
  - destruct p.
    + destruct (commit_offset _) as [[[]|e] s3] eqn:Ec; [|done]. apply commit_offset_frame in Ec as (Hf3 & Hi3 & Hc3).
      injection H as -> <-. split; [done|]. left. by rewrite Hf3, Hi3, Hc3, Hf2, Hi2, Hi1, Hc2.
    + injection H as -> <-. split; [done|]. left. by rewrite Hf2, Hi2, Hi1, Hc2.
Qed.

(** A rotation loses nothing: while the path names another file, or none, each call
    still returns lines of the file that was open, and it is closed only when every
    complete line of it within the bound has been returned. *)
Theorem rotation_drains_first p f start L s lines s' :
  _file (self s) = Some f -> follows chunk_bytes batch start (content (dir s) f) (cur (self s)) L ->
  read_new_lines chunk_bytes batch p s = (Ret lines, s') ->
  exists kept, mapM utf8_decode kept = Ret lines /\ (length kept <= batch)%nat /\
    match _file (self s') with
    | Some f' => f' = f /\ forall more,
        follows chunk_bytes batch start (content (dir s) f ++ more) (cur (self s')) (L ++ kept)
    | None => (forall i, path_stat (dir s) = Ret i -> _inode (self s) <> Some i) /\
        L ++ kept = good chunk_bytes (drop start (content (dir s) f))
    end.
Proof.
  intros Hf Hfol (at_eof & kept & dropped & c & Ed & Hl & H)%(read_open_spec _ f); [|done].
  exists kept. split; [done|].
  destruct (drain_lossless_aux chunk_bytes batch chunk_pos batch_pos _ _ _ _ _ _ _ _ Hfol Ed) as (H1 & H2 & H3 & _).
  split; [done|]. destruct H as [(-> & _ & ->)|(-> & -> & Hne)]; [done|]. by split; [|apply H3].
Qed.
End tailer_facts.

(** ** Restarting from the saved position *)

Section restart.
Context {W : Type} {LD : LogDir W} {IO : IntOf} {FR : FloatRepr} {FP : FloatParse}.

(** [os.replace] of a written file: the position reads back, whatever other processes do
    to the log meanwhile. *)
Definition state_kept : Prop :=
  (forall text (w w' : W), write_state text w = (Ret tt, w') -> state_text w' = Some text) /\
  (forall w : W, state_text (elsewhere w) = state_text w).

Definition position_ok (ts : TailState) : Prop :=
  0 <= ts_inode ts < 2 ^ 64 /\ 0 <= ts_offset ts < 2 ^ 64.

Definition state_json (ts : TailState) : json :=
  JObj [(u "inode", JInt (ts_inode ts)); (u "offset", JInt (ts_offset ts))].

Lemma int_digits_64 n : 0 <= n < 2 ^ 64 -> (int_digits n <=? MAX_INT_DIGITS) = true.
Proof.
  intros Hn. apply Z.leb_le. transitivity 20; [|done].
  apply int_digits_bound; [lia|]. change (10 ^ 20) with 100000000000000000000. lia.
Qed.

Lemma persisted_state_loads ts (s s' : tail W) :
  state_kept -> position_ok ts -> _persist_state ts s = (Ret tt, s') ->
  _load_state (JL := stdlib_loads) (dir s') = Ret (Some ts).
Proof.
  intros [Hw _] [Hi Ho]. unfold _persist_state, dumps. fold (state_json ts).
  change (serializable (state_json ts)) with true. cbv iota.
  destruct (write_state _ (dir s)) as [o w] eqn:E. intros [= -> <-].
  apply Hw in E. unfold _load_state. cbn [dir]. rewrite E.
  unfold json_loads, stdlib_loads.
  rewrite <- (app_nil_r (encode _ _ _)), loads_encode;
    [|apply default_separators_ok| |constructor].
  2: { unfold state_json. cbn [printable forallb fst snd].
       rewrite !int_digits_64 by done. reflexivity. }
  change (canon (sort_keys default_args) (state_json ts)) with (state_json ts).
  unfold state_json. cbv beta iota zeta.
  change (dget (u "inode") _) with (Some (JInt (ts_inode ts))).
  change (dget (u "offset") _) with (Some (JInt (ts_offset ts))). cbv iota.
  rewrite !int_of_int. by destruct ts.
Qed.

(** C23: a restart resumes where the last commit left off: after [commit_offset], a new
    tailer that opens the committed file starts at the committed byte, and one that finds
    another file, or a file shorter than the position, starts at its first byte. *)
Theorem restart_resumes ts s s' file inode :
  state_kept -> position_ok ts ->
  _pending_state (self s) = Some ts -> commit_offset s = (Ret tt, s') ->
  path_open (dir s') = Ret file -> path_stat (elsewhere (dir s')) = Ret inode ->
  let size := py_len (content (elsewhere (dir s')) inode) in
  exists s'', _open_at_saved_offset (JL := stdlib_loads) (Tail tailer0 (dir s')) = (Ret tt, s'') /\
    _file (self s'') = Some file /\ _inode (self s'') = Some inode /\
    cur (self s'') =
      fresh (if bool_decide (ts_inode ts = inode) && (ts_offset ts <=? size)
             then Z.to_nat (ts_offset ts) else 0) 0.
Proof.
  intros Hk Hts Hp Hc Hopen Hstat size. unfold commit_offset in Hc. rewrite Hp in Hc.
  pose proof (persisted_state_loads _ _ _ Hk Hts Hc) as Hload.
  assert (Hload' : _load_state (JL := stdlib_loads) (elsewhere (dir s')) = Ret (Some ts)).
  { unfold _load_state in *. by rewrite (proj2 Hk). }
  destruct Hts as [_ Ho]. unfold _open_at_saved_offset. cbn [dir self].
  rewrite Hopen, Hstat, Hload'. fold size.
  case_bool_decide; [|by eexists]. destruct (Z.leb_spec (ts_offset ts) size); simpl.
  - rewrite (proj2 (Z.ltb_ge _ _)) by lia. by eexists.
  - by eexists.
Qed.
End restart.

(** ** Two files *)

Module Toy.
(** The file the path names, and what it will name after the next system call. *)
Definition world : Type := Z * Z.

#[export] Instance log : LogDir world := {
  path_stat w := Ret w.1;
  path_open w := Ret w.1;
  content w i := if i =? 1 then u "ab" ++ [NL] ++ u "c" ++ [NL] ++ u "d" else u "new" ++ [NL];
  state_text _ := None;
  write_state _ w := (Ret tt, w);
  elsewhere w := (w.2, w.2)
}.
#[export] Instance loads : JsonLoads := fun _ => None.
#[export] Instance ints : IntOf := {
  int_of j := match j with JInt n => Ret n | _ => Raise TypeError end;
  int_of_int n := eq_refl
}.
#[export] Existing Instance toy_float_repr.

(** File 1 is open while the path names file 2. *)
Definition s0 : tail world :=
  Tail (Tailer (Some 1) (Some 1) (fresh 0 0) None None false) (2, 2).
Definition s1 : tail world := (read_new_lines 8 1 false s0).2.
Definition one : pybytes := u "ab" ++ [NL] ++ u "c" ++ [NL] ++ u "d".
Definition after_one : cursor := (drain_bytes 1 1 one (fresh 0 0)).2.
End Toy.
Import Toy.

(** Byte by byte, one line a call. *)
Lemma drain_lossless_witness :
  good 1 (drop (pos after_one - length (buffer after_one)) (one ++ [NL])) = [u "c"; u "d"].
Proof.
  destruct (drain_lossless 1 1 ltac:(lia) ltac:(lia) 0 one (fresh 0 0) [] false [u "ab"] 0 after_one
              ltac:(apply follows_fresh; simpl; lia) ltac:(reflexivity)) as (_ & _ & _ & H).
  specialize (H eq_refl [NL]). change ([] ++ [u "ab"]) with [u "ab"] in H.
  apply (f_equal (drop 1)) in H. exact H.
Defined.

Lemma rotation_drains_first_witness :
  _file (self s1) = Some 1 /\
  (read_new_lines 8 1 false s0).1 = Ret [u "ab"] /\ (read_new_lines 8 1 false s1).1 = Ret [u "c"].
Proof.
  assert (E : read_new_lines 8 1 false s0 = (Ret [u "ab"], s1)) by reflexivity.
  destruct (rotation_drains_first 8 1 ltac:(lia) ltac:(lia) false 1 0 [] s0 [u "ab"] s1 eq_refl
              ltac:(apply follows_fresh; simpl; lia) E) as (kept & _ & _ & H).
  destruct (_file (self s1)) as [f|] eqn:Ef.
  - destruct H as [-> _]. split_and!; reflexivity.
  - discriminate Ef.
Defined.

(** While an over-long line is being dropped (five bytes without a newline, a bound of four)
    the offset to commit lies inside it; the line's end, read again from there by a restart,
    is returned as a line of its own, which the running tailer never returns. *)
Definition long_start : pybytes := u "abcde".
Definition long_line : pybytes := long_start ++ u "fg" ++ [NL].
Example oversize_commit_resumes_inside :
  let c := (drain_bytes 1 1 long_start (fresh 0 0)).2 in
  dropping_bytes c <> None /\ (pos c - length (buffer c) = 5)%nat /\
  good 1 (drop 5 long_line) = [u "fg"] /\ good 1 long_line = [] /\
  (drain_bytes 1 1 long_line c).1.1.2 = [].
Proof. vm_compute. by split_and!. Qed.

(** A rotation between the [open] and the [stat] of [_open_at_saved_offset] pairs the old
    file with the new inode: the path's file is then never opened. *)
Example open_race_keeps_old_file :
  let s := (read_new_lines 8 1 false (Tail tailer0 (1, 2))).2 in
  _file (self s) = Some 1 /\ _inode (self s) = Some 2 /\ path_stat (dir s) = Ret 2 /\
  forall p lines s', read_new_lines 8 1 p s = (Ret lines, s') -> _file (self s') = Some 1.
Proof.
  split_and!; [reflexivity..|]. intros p lines s' H.
  apply read_open_spec with (f := 1) in H as (? & ? & ? & ? & _ & _ & [(Hf & _)|(_ & _ & Hne)]);
    [exact Hf| |reflexivity].
  destruct (Hne 2); reflexivity.
Qed.

(** One log file, inode 7, and the position file. *)
Module Saved.
#[export] Instance log : LogDir (option pystr) := {
  path_stat _ := Ret 7;
  path_open _ := Ret 7;
  content _ _ := u "ab" ++ [NL] ++ u "c" ++ [NL];
  state_text w := w;
  write_state text _ := (Ret tt, Some text);
  elsewhere w := w
}.
Lemma kept : @state_kept _ log.
Proof. split; [intros text w w' E; injection E as <-; reflexivity|reflexivity]. Qed.

(** A tailer that has returned the first line. *)
Definition position : TailState := {| ts_inode := 7; ts_offset := 3 |}.
Definition running : tail (option pystr) :=
  Tail (Tailer (Some 7) (Some 7) (fresh 5 0) None (Some position) false) None.
Definition stopped : tail (option pystr) := (@commit_offset _ log JsonParse.Toy.repr running).2.
End Saved.

Lemma restart_resumes_witness :
  exists s'', @_open_at_saved_offset _ Saved.log (@stdlib_loads _ JsonParse.Toy.parse) Toy.ints
                (Tail tailer0 (dir Saved.stopped)) = (Ret tt, s'') /\
    cur (self s'') = fresh 3 0.
Proof.
  destruct (@restart_resumes _ Saved.log Toy.ints JsonParse.Toy.repr JsonParse.Toy.parse
              Saved.position Saved.running Saved.stopped 7 7 Saved.kept) as (s'' & H & _ & _ & Hc).
  - split; split; vm_compute; congruence.
  - reflexivity.
  - reflexivity.
  - reflexivity.
  - reflexivity.
  - exists s''. split; [exact H|exact Hc].
Defined.
