(* ===== verification/Assemble.v ===== *)
(** * Assemble: Cowrie events grouped into payloads

    [honeypot/shipper/sentinelbrief_shipper/assemble.py].  Sessions are keyed by the JSON
    value of an event's [session] under Python's equality and hashing (floats are finite: a
    NaN or an infinity is [JOther], which has no key here, while CPython would take it as
    one); the clock and [json.loads] are parameters.  Counts of events are [nat]. *)

From S2P Require Import Prelude Errors Json Text.
#[local] Open Scope Z_scope.

Definition CLOSED_EVENT : pystr := u "cowrie.session.closed".
Definition CONNECT_EVENT : pystr := u "cowrie.session.connect".
Definition _REQUIRED_FIELDS : list pystr :=
  [u "eventid"; u "session"; u "src_ip"; u "sensor"; u "timestamp"].

(** A hashable value up to [==]: [True], [1] and [1.0] are one key. *)
Inductive key : Type := KNull | KNum (x : float) | KStr (s : pystr).
#[export] Instance key_eq_dec : EqDecision key.
Proof. solve_decision. Defined.

Definition key_of (j : json) : option key :=
  match j with
  | JNull => Some KNull
  | JBool b => Some (KNum (flt (Z.b2z b)))
  | JInt n => Some (KNum (flt n))
  | JFloat x => Some (KNum x)
  | JStr s => Some (KStr s)
  | JArr _ | JObj _ | JOther => None
  end.

Record OpenSession : Type := {
  session_id : json;
  src_ip : json;
  sensor : json;
  events : list jobj;
  last_seen : float;
  has_connect : bool;
  dropped_events : nat
}.

Record AssemblerStats : Type := {
  parse_errors : nat;
  dropped_no_connect : nat;
  truncated_sessions : nat
}.

Record SessionAssembler : Type := Assembler {
  _sessions : list (key * OpenSession);
  stats : AssemblerStats
}.

(** [time.monotonic]. *)
Class Clock (W : Type) : Type := clock : W -> float * W.

Definition IndexError : exn := OtherException (u "IndexError").
Definition __version__ : pystr := u "0.1.0".

(** [events[:n - 1] + [events[-1]]]: the first [n - 1] and the newest. *)
Definition keep_ends {A} (n : nat) (es : list A) : list A :=
  take (n - 1) es ++ match last es with Some e => [e] | None => [] end.

(** [del l[-2]]. *)
Definition del_second_last {A} (l : list A) : option (list A) :=
  match rev l with e :: _ :: rest => Some (rev rest ++ [e]) | _ => None end.

Definition field (name : string) (event : jobj) : json := default JNull (dget (u name) event).

(** [event["eventid"] == name]. *)
Definition is_event (name : pystr) (event : jobj) : bool :=
  match field "eventid" event with JStr s => bool_decide (s = name) | _ => false end.

Section assembler.
Context {W : Type} {CL : Clock W} {JL : JsonLoads} {FR : FloatRepr}.
Variables (idle_flush_s : float) (max_events : nat) (max_payload_bytes : Z).

(** The object and the clock's world. *)
Definition state : Type := SessionAssembler * W.

Definition set_sessions (f : list (key * OpenSession) -> list (key * OpenSession)) (s : state) : state :=
  (Assembler (f (_sessions s.1)) (stats s.1), s.2).
Definition set_stats (f : AssemblerStats -> AssemblerStats) (s : state) : state :=
  (Assembler (_sessions s.1) (f (stats s.1)), s.2).
Definition tick : M exn state float := fun s =>
  let '(t, w) := clock s.2 in (Ret t, (s.1, w)).

(** A line that is an event: a JSON object with the required fields. *)
Definition parse_event (line : pystr) : option jobj :=
  match json_loads line with
  | Some (JObj event) =>
      if forallb (fun f => bool_decide (f ∈ dkeys event)) _REQUIRED_FIELDS then Some event else None
  | _ => None
  end.

Definition payload_args : dumps_args := DumpsArgs true false None (u ",") (u ":").

Definition _dumps (envelope : jobj) : outcome exn pybytes :=
  text ← dumps payload_args (JObj envelope); utf8_encode text.

Definition envelope (s : OpenSession) (es : list jobj) : jobj :=
  [(u "source", JStr (u "cowrie")); (u "session_id", session_id s); (u "src_ip", src_ip s);
   (u "sensor", sensor s); (u "events", JArr (map JObj es))].

(** The same with its ["shipper"] key. *)
Definition shipper_envelope (s : OpenSession) (es : list jobj) (truncated : nat) : jobj :=
  envelope s es ++
  [(u "shipper", JObj [(u "version", JStr __version__); (u "truncated_events", JInt (Z.of_nat truncated))])].

(** The loop of cap 2; every round drops an event. *)
Fixpoint shrink (fuel : nat) (s : OpenSession) (total : nat) (es : list jobj) (payload : pybytes)
    : outcome exn (list jobj * pybytes) :=
  match fuel with
  | O => Ret (es, payload)
  | S fuel' =>
      if (max_payload_bytes <? py_len payload) && (2 <? length es)%nat then
        let es' := keep_ends (2 `max` (length es / 2)) es in
        payload' ← _dumps (shipper_envelope s es' (total - length es'));
        shrink fuel' s total es' payload'
      else Ret (es, payload)
  end.

Definition cap1 (es : list jobj) : list jobj :=
  if (max_events <? length es)%nat then keep_ends max_events es else es.

(** The payload, and whether events were dropped. *)
Definition payload_of (s : OpenSession) : outcome exn (pybytes * bool) :=
  let total := (length (events s) + dropped_events s)%nat in
  let es := cap1 (events s) in
  payload ← _dumps (shipper_envelope s es (total - length es));
  '(es, payload) ← shrink (length es) s total es payload;
  if (0 <? total - length es)%nat then Ret (payload, true)
  else payload ← _dumps (envelope s es); Ret (payload, false).

Definition build_payload (s : OpenSession) : M exn state pybytes :=
  '(payload, truncated) ← lift (payload_of s);
  _ ← (if (truncated : bool)
       then modify (set_stats (fun st =>
              {| parse_errors := parse_errors st; dropped_no_connect := dropped_no_connect st;
                 truncated_sessions := S (truncated_sessions st) |}))
       else mret tt);
  mret payload.

Definition no_connect : M exn state unit :=
  modify (set_stats (fun st =>
    {| parse_errors := parse_errors st; dropped_no_connect := S (dropped_no_connect st);
       truncated_sessions := truncated_sessions st |})).

(** The appended event, under cap 1. *)
Definition push (event : jobj) (t : float) (s : OpenSession) : outcome exn OpenSession :=
  let es := events s ++ [event] in
  let with_events es dropped :=
    {| session_id := session_id s; src_ip := src_ip s; sensor := sensor s; events := es;
       last_seen := t; has_connect := has_connect s; dropped_events := dropped |} in
  if (max_events <? length es)%nat then
    match del_second_last es with
    | Some es' => Ret (with_events es' (S (dropped_events s)))
    | None => Raise IndexError
    end
  else Ret (with_events es (dropped_events s)).

Definition open_session (event : jobj) (t : float) : OpenSession :=
  {| session_id := field "session" event; src_ip := field "src_ip" event;
     sensor := field "sensor" event; events := []; last_seen := t;
     has_connect := is_event CONNECT_EVENT event; dropped_events := O |}.

Definition feed_event (k : key) (event : jobj) : M exn state (list pybytes) :=
  st ← get;
  session ← (match dget k (_sessions st.1) with
             | Some session => mret session
             | None =>
                 t ← tick;
                 let session := open_session event t in
                 _ ← modify (set_sessions (dset k session));
                 mret session
             end);
  t ← tick;
  session ← lift (push event t session);
  _ ← modify (set_sessions (dset k session));
  if negb (is_event CLOSED_EVENT event) then mret []
  else
    _ ← modify (set_sessions (ddel k));
    if negb (has_connect session) then _ ← no_connect; mret []
    else payload ← build_payload session; mret [payload].

Definition feed (line : pystr) : M exn state (list pybytes) :=
  match parse_event line with
  | None =>
      _ ← modify (set_stats (fun st =>
            {| parse_errors := S (parse_errors st); dropped_no_connect := dropped_no_connect st;
               truncated_sessions := truncated_sessions st |}));
      mret []
  | Some event =>
      match key_of (field "session" event) with
      | None => raise TypeError
      | Some k => feed_event k event
      end
  end.

Definition flush_one (payloads : list pybytes) (k : key) : M exn state (list pybytes) :=
  st ← get;
  match dget k (_sessions st.1) with
  | None => raise KeyError
  | Some session =>
      _ ← modify (set_sessions (ddel k));
      if negb (has_connect session) then _ ← no_connect; mret payloads
      else payload ← build_payload session; mret (payloads ++ [payload])
  end.

Definition _flush (ids : list key) : M exn state (list pybytes) := foldM flush_one ids [].

Definition flush_idle : M exn state (list pybytes) :=
  now ← tick;
  st ← get;
  _flush (map fst (List.filter (fun kv => idle_flush_s <=? now - last_seen kv.2) (_sessions st.1))).

Definition flush_all : M exn state (list pybytes) :=
  st ← get; _flush (dkeys (_sessions st.1)).
End assembler.
Arguments state : clear implicits.

(** ** Cap 1, incrementally *)

Lemma keep_ends_snoc {A} n (es : list A) e : (length es >= n - 1)%nat ->
  keep_ends n (es ++ [e]) = take (n - 1) es ++ [e].
Proof. intros Hn. unfold keep_ends. rewrite last_snoc, take_app_le by lia. done. Qed.

Lemma keep_ends_length {A} n (es : list A) : (1 <= n <= length es)%nat -> length (keep_ends n es) = n.
Proof.
  intros Hn. destruct es as [|e es _] using rev_ind; [simpl in Hn; lia|].
  rewrite length_app in Hn. simpl in Hn. rewrite keep_ends_snoc by lia.
  rewrite length_app, length_take. simpl. lia.
Qed.

Lemma keep_ends_keep {A} m n (es : list A) : (2 <= m <= n)%nat -> (n <= length es)%nat ->
  keep_ends m (keep_ends n es) = keep_ends m es.
Proof.
  intros Hm Hn. destruct es as [|e es _] using rev_ind; [simpl in Hn; lia|].
  rewrite length_app in Hn. simpl in Hn. rewrite !keep_ends_snoc by (rewrite ?length_take; lia).
  by rewrite take_take, Nat.min_l by lia.
Qed.

Lemma del_second_last_app {A} (l : list A) x e : del_second_last (l ++ [x; e]) = Some (l ++ [e]).
Proof. unfold del_second_last. rewrite rev_app_distr. simpl. by rewrite rev_involutive. Qed.

Section caps.
Context {W : Type} {CL : Clock W} {JL : JsonLoads} {FR : FloatRepr}.
Variables (idle_flush_s : float) (max_events : nat) (max_payload_bytes : Z).
Hypothesis max_events_ok : (2 <= max_events)%nat.
Implicit Types (es : list jobj) (s : OpenSession).

Lemma cap1_length es : (length (cap1 max_events es) <= max_events)%nat /\
  (length (cap1 max_events es) <= length es)%nat.
Proof.
  unfold cap1. destruct (Nat.ltb_spec max_events (length es)); [|lia].
  rewrite keep_ends_length; lia.
Qed.

Lemma cap1_idem es : cap1 max_events (cap1 max_events es) = cap1 max_events es.
Proof.
  pose proof (cap1_length es) as [Hl _]. unfold cap1 at 1.
  by rewrite (proj2 (Nat.ltb_ge _ _)) by done.
Qed.

(** A session that holds what cap 1 keeps of [es]. *)
Record represents (sess : OpenSession) es : Prop := {
  rep_events : events sess = cap1 max_events es;
  rep_dropped : dropped_events sess = (length es - length (events sess))%nat;
  rep_first : exists e rest, es = e :: rest /\ session_id sess = field "session" e /\
    src_ip sess = field "src_ip" e /\ sensor sess = field "sensor" e /\
    has_connect sess = is_event CONNECT_EVENT e
}.

(** The session as it would be with no cap while it is open. *)
Definition whole es : OpenSession :=
  match es with
  | [] => open_session [] 0
  | e :: _ =>
      {| session_id := field "session" e; src_ip := field "src_ip" e; sensor := field "sensor" e;
         events := es; last_seen := 0; has_connect := is_event CONNECT_EVENT e; dropped_events := O |}
  end.

(** Dropping the second-newest event on every arrival keeps what cap 1 keeps at the end. *)
Lemma push_cap1 e t s es :
  events s = cap1 max_events es -> dropped_events s = (length es - length (events s))%nat ->
  exists s', push max_events e t s = Ret s' /\ events s' = cap1 max_events (es ++ [e]) /\
    dropped_events s' = (length (es ++ [e]) - length (events s'))%nat /\
    session_id s' = session_id s /\ src_ip s' = src_ip s /\ sensor s' = sensor s /\
    has_connect s' = has_connect s /\ last_seen s' = t.
Proof.
  intros He Hd. pose proof (cap1_length es) as [Hl Hle]. rewrite <- He in Hl, Hle. unfold push.
  destruct (Nat.ltb_spec max_events (length (events s ++ [e]))) as [Hlt|Hge];
    rewrite length_app in *; simpl length in *.
  - assert (Hfull : length (events s) = max_events) by lia.
    destruct (events s) as [|x l _] eqn:Ee using rev_ind; [simpl in Hfull; lia|].
    rewrite length_app in Hfull. simpl in Hfull.
    rewrite <- (assoc_L (++)). change ([x] ++ [e]) with [x; e]. rewrite del_second_last_app.
    eexists. split; [reflexivity|]. cbn [events dropped_events session_id src_ip sensor has_connect last_seen].
    assert (Hcap : cap1 max_events (es ++ [e]) = l ++ [e]).
    { unfold cap1 in He |- *. destruct (Nat.ltb_spec max_events (length es)) as [Hm|Hm].
      - rewrite (proj2 (Nat.ltb_lt _ _)) by (rewrite length_app; simpl; lia).
        rewrite keep_ends_snoc by lia. f_equal.
        destruct es as [|y es _] using rev_ind; [simpl in Hm; lia|].
        rewrite length_app in Hm. simpl in Hm. rewrite keep_ends_snoc in He by lia.
        apply app_inj_tail in He as [-> _]. by rewrite take_app_le by lia.
      - subst es. rewrite !length_app in Hm. simpl in Hm.
        rewrite (proj2 (Nat.ltb_lt _ _)) by (rewrite !length_app; simpl; lia).
        rewrite keep_ends_snoc by (rewrite length_app; simpl; lia). f_equal.
        rewrite take_app_le by lia. apply take_ge. lia. }
    rewrite Hcap. split_and!; try done. rewrite Hd, !length_app. simpl. rewrite !length_app in Hle. simpl in Hle. lia.
  - eexists. split; [reflexivity|]. cbn [events dropped_events session_id src_ip sensor has_connect last_seen].
    assert (Hes : events s = es).
    { rewrite He. unfold cap1 in *. destruct (Nat.ltb_spec max_events (length es)) as [Hm|]; [|done].
      rewrite He, keep_ends_length in Hge by lia. lia. }
    rewrite Hes in *. unfold cap1. rewrite (proj2 (Nat.ltb_ge _ _)) by (rewrite length_app; simpl; lia).
    split_and!; try done. rewrite Hd, length_app. simpl. lia.
Qed.
End caps.

(** ** Sizes *)

Definition usize (c : Z) : nat := match utf8_char c with Some b => length b | None => O end.
Definition text_size (s : pystr) : nat := list_sum (map usize s).

Lemma utf8_size s b : utf8_encode s = Ret b -> length b = text_size s.
Proof.
  unfold text_size. revert b. induction s as [|c s IH]; intros b; simpl; [by intros [= <-]|].
  unfold usize at 1. destruct (utf8_char c) as [bs|]; [|done]. unfold mbind, outcome_bind.
  destruct (utf8_encode s) as [rest|]; [|done]. intros [= <-]. by rewrite length_app, (IH rest).
Qed.

Lemma text_size_app a b : text_size (a ++ b) = (text_size a + text_size b)%nat.
Proof. unfold text_size. by rewrite map_app, list_sum_app. Qed.

Lemma join_size sep items : items <> [] ->
  text_size (py_join sep items) =
  (list_sum (map text_size items) + (length items - 1) * text_size sep)%nat.
Proof.
  induction items as [|p ps IH]; [done|]. intros _. destruct ps as [|q ps]; [simpl; lia|].
  change (py_join sep (p :: q :: ps)) with (p ++ sep ++ py_join sep (q :: ps)).
  rewrite !text_size_app, IH by done. simpl. lia.
Qed.

Lemma list_sum_perm (l l' : list nat) : l ≡ₚ l' -> list_sum l = list_sum l'.
Proof. unfold list_sum. induction 1; simpl; lia. Qed.

Lemma utf8_encode_raises s e : utf8_encode s = Raise e -> e = UnicodeEncodeError.
Proof.
  induction s as [|c s IH]; simpl; [intros H; discriminate H|].
  destruct (utf8_char c); [|intros H; by injection H as <-].
  destruct (utf8_encode s) as [b|e']; intros H; [discriminate H|].
  injection H as <-. by apply IH.
Qed.

Section envelopes.
Context {FR : FloatRepr}.

Definition members (kvs : jobj) : list (pystr * pystr) :=
  map (fun kv => (kv.1, encode payload_args 1 kv.2)) kvs.
Definition member_text (kv : pystr * pystr) : pystr := escape_str false kv.1 ++ u ":" ++ kv.2.

Lemma object_size kvs : kvs <> [] ->
  text_size (encode payload_args 0 (JObj kvs)) =
  (2 + list_sum (map (fun kv => text_size (member_text kv)) (members kvs)) + (length kvs - 1))%nat.
Proof.
  intros Hne. change (encode payload_args 0 (JObj kvs)) with
    (container payload_args 0 123 125 (map member_text (sort_items (members kvs)))).
  assert (Hperm : sort_items (members kvs) ≡ₚ members kvs) by apply merge_sort_Permutation.
  assert (Hitems : map member_text (sort_items (members kvs)) <> []).
  { intros E%map_eq_nil. rewrite E in Hperm. apply Permutation_nil_l in Hperm. by destruct kvs. }
  assert (Hl : length (map member_text (sort_items (members kvs))) = length kvs).
  { rewrite length_map, Hperm. apply length_map. }
  assert (Hsum : list_sum (map text_size (map member_text (sort_items (members kvs)))) =
                 list_sum (map (fun kv => text_size (member_text kv)) (members kvs))).
  { rewrite map_map. apply list_sum_perm. by apply Permutation_map. }
  destruct (map member_text (sort_items (members kvs))) as [|p ps] eqn:E; [done|].
  unfold container, newline. cbn [indent payload_args item_separator app].
  change (123 :: py_join (u "," ++ []) (p :: ps) ++ [125]) with
    ([123] ++ py_join (u ",") (p :: ps) ++ [125]).
  rewrite !text_size_app, join_size, Hsum, Hl by done. change (text_size (u ",")) with 1%nat.
  change (text_size [123]) with 1%nat. change (text_size [125]) with 1%nat. lia.
Qed.

(** An object with more members is no shorter, whatever the order of its keys. *)
Lemma object_size_mono kvs more b1 b2 : kvs <> [] ->
  _dumps kvs = Ret b1 -> _dumps (kvs ++ more) = Ret b2 -> (length b1 <= length b2)%nat.
Proof.
  intros Hne. unfold _dumps, dumps. destruct (serializable _); [|done]. destruct (serializable _); [|done].
  unfold mbind, outcome_bind. intros ->%utf8_size ->%utf8_size.
  rewrite !object_size by (done || by destruct kvs). unfold members.
  rewrite !map_app, list_sum_app, length_app. lia.
Qed.

End envelopes.

(** ** The payload *)

Section payload.
Context {W : Type} {CL : Clock W} {JL : JsonLoads} {FR : FloatRepr}.
Variables (idle_flush_s : float) (max_events : nat) (max_payload_bytes : Z).
Hypothesis max_events_ok : (2 <= max_events)%nat.
Implicit Types (es : list jobj) (s : OpenSession).

(** Some of the events: all, or the first ones and the last. *)
Definition kept_of es kept : Prop :=
  kept = es \/ exists n, (2 <= n < length es)%nat /\ kept = keep_ends n es.

Lemma kept_of_length es kept : kept_of es kept -> (length kept <= length es)%nat /\
  (length kept = length es -> kept = es).
Proof. intros [->|(n & Hn & ->)]; [done|]. rewrite keep_ends_length by lia. split; [lia|lia]. Qed.

Lemma kept_of_trans es1 es2 es3 : kept_of es1 es2 -> kept_of es2 es3 -> kept_of es1 es3.
Proof.
  intros [->|(n & Hn & ->)] H; [done|]. destruct H as [->|(m & Hm & ->)]; [right; by exists n|].
  rewrite keep_ends_length in Hm by lia. right. exists m. split; [lia|]. apply keep_ends_keep; lia.
Qed.

Lemma cap1_kept es : kept_of es (cap1 max_events es).
Proof.
  unfold cap1. destruct (Nat.ltb_spec max_events (length es)); [|by left].
  right. by exists max_events.
Qed.

(** The loop of cap 2 ends within the cap or at two events. *)
Lemma shrink_spec fuel s total es p es' p' : (length es <= fuel)%nat ->
  _dumps (shipper_envelope s es (total - length es)) = Ret p ->
  shrink max_payload_bytes fuel s total es p = Ret (es', p') ->
  _dumps (shipper_envelope s es' (total - length es')) = Ret p' /\
  (py_len p' <= max_payload_bytes \/ (length es' <= 2)%nat) /\ kept_of es es'.
Proof.
  revert es p. induction fuel as [|fuel IH]; intros es p Hf Hp; cbn [shrink].
  { intros [= <- <-]. split_and!; [done|right; lia|by left]. }
  destruct (Z.ltb_spec max_payload_bytes (py_len p)); cbn [andb].
  2: { intros [= <- <-]. split_and!; [done|by left|by left]. }
  destruct (Nat.ltb_spec 2 (length es)) as [Hl|Hl].
  2: { intros [= <- <-]. split_and!; [done|right; lia|by left]. }
  set (n := (2 `max` (length es / 2))%nat).
  assert (Hn : (2 <= n < length es)%nat).
  { unfold n. pose proof (Nat.div_lt (length es) 2). lia. }
  destruct (_dumps (shipper_envelope s (keep_ends n es) _)) as [p1|e] eqn:E; simpl; [|done].
  intros H'. apply IH in H' as (? & ? & Hk); [|rewrite keep_ends_length; lia|done].
  split_and!; [done..|]. eapply kept_of_trans; [|exact Hk]. right. by exists n.
Qed.

(** A payload carries all the session's events or the first ones and the last, at most
    [max_events] of them, in at most [max_payload_bytes] bytes unless only two are left;
    it says how many were dropped exactly when some were, whether while the session was
    open or by either cap at its end. *)
Theorem payload_capped s es p truncated :
  represents max_events s es -> payload_of max_events max_payload_bytes s = Ret (p, truncated) ->
  exists kept, kept_of es kept /\ (length kept <= max_events)%nat /\
    (py_len p <= max_payload_bytes \/ (length kept <= 2)%nat) /\
    (truncated = true <-> (length kept < length es)%nat) /\
    _dumps (if truncated then shipper_envelope s kept (length es - length kept) else envelope s kept) = Ret p.
Proof.
  intros [He Hd _]. unfold payload_of. rewrite He, cap1_idem by done.
  pose proof (cap1_length max_events max_events_ok es) as [Hl Hle].
  set (es0 := cap1 max_events es) in *.
  replace (length es0 + dropped_events s)%nat with (length es) by (rewrite Hd, He; fold es0; lia).
  destruct (_dumps (shipper_envelope s es0 _)) as [p0|e] eqn:E0; [|done]. simpl.
  destruct (shrink _ _ _ _ _ _) as [[kept p1]|e] eqn:Es; [|done]. simpl.
  apply shrink_spec in Es as (E1 & Hcap & Hk); [|done..].
  pose proof (kept_of_length _ _ Hk) as [Hkl _].
  assert (Hkept : kept_of es kept) by (eapply kept_of_trans; [apply cap1_kept|done]).
  destruct (Nat.ltb_spec 0 (length es - length kept)) as [Ht|Ht].
  - intros [= <- <-]. exists kept. split_and!; [done|lia|done|split; [lia|done]|done].
  - destruct (_dumps (envelope s kept)) as [p2|e] eqn:E2; simpl; [|done]. intros [= <- <-].
    exists kept. split_and!; [done|lia| |split; [done|lia]|done].
    destruct Hcap as [Hcap|?]; [left|by right].
    pose proof (object_size_mono (envelope s kept) _ _ _ ltac:(done) E2 E1).
    unfold py_len in *. lia.
Qed.

Lemma dumps_raises kvs e : _dumps kvs = Raise e -> e = UnicodeEncodeError \/ e = TypeError.
Proof.
  unfold _dumps, dumps. destruct (serializable _); simpl; [|intros [= <-]; by right].
  intros H. left. by apply utf8_encode_raises in H.
Qed.

Lemma payload_raises s e : payload_of max_events max_payload_bytes s = Raise e ->
  e = UnicodeEncodeError \/ e = TypeError.
Proof.
  unfold payload_of. destruct (_dumps (shipper_envelope s _ _)) as [p0|e0] eqn:E0; simpl.
  2: { intros [= <-]. by eapply dumps_raises. }
  set (total := (_ + _)%nat). clearbody total. generalize (length (cap1 max_events (events s))) as fuel.
  clear E0. intros fuel. generalize (cap1 max_events (events s)) as es. revert p0.
  enough (Hs : forall p0 es e, shrink max_payload_bytes fuel s total es p0 = Raise e ->
             e = UnicodeEncodeError \/ e = TypeError).
  { intros p0 es. destruct (shrink _ _ _ _ _ _) as [[kept p1]|e1] eqn:Es; simpl.
    - destruct (0 <? _)%nat; [done|]. destruct (_dumps (envelope s kept)) as [|e2] eqn:E2; simpl; [done|].
      intros [= <-]. by eapply dumps_raises.
    - intros [= <-]. by eapply Hs. }
  induction fuel as [|fuel IH]; intros p0 es e0; simpl; [done|].
  destruct (_ && _); [|done]. destruct (_dumps (shipper_envelope s _ _)) as [p1|e1] eqn:E1; simpl; [apply IH|].
  intros [= <-]. by eapply dumps_raises.
Qed.
End payload.

(** ** Feeding *)

Section feeding.
Context {W : Type} {CL : Clock W} {JL : JsonLoads} {FR : FloatRepr}.
Variables (max_events : nat) (max_payload_bytes : Z).
Hypothesis max_events_ok : (2 <= max_events)%nat.
Implicit Types (es : list jobj) (s : OpenSession) (st : state W).

(** The reference: for each key, every event since its session last closed. *)
Definition journal : Type := key -> list jobj.
Definition record (k : key) (e : jobj) (j : journal) : journal := fun k' =>
  if decide (k' = k) then (if is_event CLOSED_EVENT e then [] else j k ++ [e]) else j k'.

(** The assembler holds what cap 1 keeps of the journal, and nothing else. *)
Record assembling st (j : journal) : Prop := {
  as_keys : NoDup (dkeys (_sessions st.1));
  as_sessions : forall k,
    match dget k (_sessions st.1) with
    | Some s => represents max_events s (j k)
    | None => j k = []
    end
}.

(** What closing a session ships: the payload of all its events, if it began by a connect. *)
Definition shipped es : outcome exn (list pybytes) :=
  if has_connect (whole es)
  then '(p, _) ← payload_of max_events max_payload_bytes (whole es); Ret [p]
  else Ret [].

Lemma shrink_congr s1 s2 fuel total es p :
  (forall es n, shipper_envelope s1 es n = shipper_envelope s2 es n) ->
  shrink max_payload_bytes fuel s1 total es p = shrink max_payload_bytes fuel s2 total es p.
Proof.
  intros He. revert es p. induction fuel as [|fuel IH]; intros es p; simpl; [done|].
  rewrite He. destruct (_ && _); [|done].
  destruct (_dumps (shipper_envelope s2 _ _)); simpl; [apply IH|done].
Qed.

(** The caps applied along the way change no byte of the payload. *)
Lemma payload_of_represents s es : represents max_events s es ->
  payload_of max_events max_payload_bytes s = payload_of max_events max_payload_bytes (whole es) /\
  has_connect s = has_connect (whole es).
Proof.
  intros [He Hd (e & rest & -> & Hi & Hip & Hse & Hc)]. split; [|done].
  pose proof (cap1_length max_events max_events_ok (e :: rest)) as [_ Hle].
  set (es := e :: rest) in *. unfold payload_of.
  change (events (whole es)) with es. change (dropped_events (whole es)) with O.
  rewrite He, cap1_idem by done.
  replace (length (cap1 max_events es) + dropped_events s)%nat with (length es + 0)%nat by (rewrite Hd, He; lia).
  assert (Henv : forall es', envelope s es' = envelope (whole es) es')
    by (intros es'; unfold envelope; by rewrite Hi, Hip, Hse).
  assert (Hsh : forall es' n, shipper_envelope s es' n = shipper_envelope (whole es) es' n)
    by (intros es' n; unfold shipper_envelope; by rewrite Henv).
  rewrite Hsh. destruct (_dumps (shipper_envelope (whole es) _ _)); [|done]. simpl.
  rewrite (shrink_congr s (whole es)) by done.
  destruct (shrink _ _ _ _ _ _) as [[es1 p1]|]; [|done]. simpl. by rewrite Henv.
Qed.

Lemma push_represents e t s es :
  represents max_events s es -> exists s', push max_events e t s = Ret s' /\
    represents max_events s' (es ++ [e]).
Proof.
  intros [He Hd (e0 & rest & Hes & Hi & Hip & Hse & Hc)].
  destruct (push_cap1 max_events max_events_ok e t s es He Hd) as (s' & -> & He' & Hd' & Hi' & Hip' & Hse' & Hc' & _).
  exists s'. split; [done|]. split; [done..|]. exists e0, (rest ++ [e]).
  rewrite Hi', Hip', Hse', Hc', Hes. by split_and!.
Qed.

Lemma push_open e t t' : exists s', push max_events e t' (open_session e t) = Ret s' /\
  represents max_events s' [e].
Proof.
  destruct (push_cap1 max_events max_events_ok e t' (open_session e t) []) as (s' & -> & He & Hd & Hi & Hip & Hse & Hc & _);
    [unfold cap1; simpl; by destruct (max_events <? 0)%nat|done|].
  exists s'. split; [done|]. split; [done..|]. exists e, []. rewrite Hi, Hip, Hse, Hc. by split_and!.
Qed.

(** Storing a session under its key. *)
Lemma assembling_set k s st st' (j j' : journal) :
  assembling st j -> represents max_events s (j' k) -> (forall k', k' <> k -> j' k' = j k') ->
  _sessions st'.1 = dset k s (_sessions st.1) -> assembling st' j'.
Proof.
  intros [Hn Hs] Hr Hj Hst. split.
  - rewrite Hst. by apply dset_NoDup.
  - intros k'. rewrite Hst. destruct (decide (k' = k)) as [->|Hne]; [by rewrite dget_dset_eq|].
    rewrite Hj, dget_dset_ne by done. apply Hs.
Qed.

Lemma assembling_del k st st' (j j' : journal) :
  assembling st j -> j' k = [] -> (forall k', k' <> k -> j' k' = j k') ->
  _sessions st'.1 = ddel k (_sessions st.1) -> assembling st' j'.
Proof.
  intros [Hn Hs] Hr Hj Hst. split.
  - rewrite Hst. by apply ddel_NoDup.
  - intros k'. rewrite Hst. destruct (decide (k' = k)) as [->|Hne]; [by rewrite dget_ddel_eq|].
    rewrite dget_ddel_ne, Hj by done. apply Hs.
Qed.

Lemma dset_dset (k : key) (s1 s2 : OpenSession) d : dset k s2 (dset k s1 d) = dset k s2 d.
Proof.
  induction d as [|[k' v] d IH]; simpl; [by rewrite decide_True|].
  destruct (decide (k = k')) as [->|Hne]; simpl; [by rewrite decide_True|].
  by rewrite decide_False, IH.
Qed.

Lemma record_eq k e j : record k e j k = if is_event CLOSED_EVENT e then [] else j k ++ [e].
Proof. unfold record. by rewrite decide_True. Qed.
Lemma record_ne k e j k' : k' <> k -> record k e j k' = j k'.
Proof. intros. unfold record. by rewrite decide_False. Qed.

(** When a line of [k] is heard: a session it opens reads the clock once more before. *)
Definition stamp (k : key) st : float :=
  let '(t, w) := clock st.2 in
  match dget k (_sessions st.1) with Some _ => t | None => (clock w).1 end.

Lemma push_last_seen e t s s' : push max_events e t s = Ret s' -> last_seen s' = t.
Proof.
  unfold push. destruct (_ <? _)%nat; [|by intros [= <-]]. destruct (del_second_last _); [by intros [= <-]|done].
Qed.

(** The session the event lands in, and the state that holds it. *)
Lemma land k e st j : assembling st j ->
  exists s st1, represents max_events s (j k ++ [e]) /\ last_seen s = stamp k st /\
    _sessions st1.1 = dset k s (_sessions st.1) /\
    feed_event max_events max_payload_bytes k e st =
    (if negb (is_event CLOSED_EVENT e) then mret []
     else _ ← modify (set_sessions (ddel k));
          if negb (has_connect s) then _ ← no_connect; mret []
          else payload ← build_payload max_events max_payload_bytes s; mret [payload]) st1.
Proof.
  intros [Hn Hs]. specialize (Hs k). unfold feed_event, stamp. m_unfold. unfold set_sessions, tick.
  destruct (dget k (_sessions st.1)) as [s|].
  - destruct (clock st.2) as [t w] eqn:Ec. destruct (push_represents e t s _ Hs) as (s' & Hp & Hr).
    exists s', (Assembler (dset k s' (_sessions st.1)) (stats st.1), w).
    split_and!; [done|by eapply push_last_seen|done|]. simpl. by rewrite Hp.
  - destruct (clock st.2) as [t w] eqn:Ec. destruct (clock w) as [t' w'] eqn:Ec'.
    destruct (push_open e t t') as (s' & Hp & Hr).
    exists s', (Assembler (dset k s' (_sessions st.1)) (stats st.1), w').
    split_and!; [by rewrite Hs|rewrite ?Ec; simpl; rewrite ?Ec'; by eapply push_last_seen|done|]. simpl. rewrite Ec'. simpl. rewrite Hp. simpl.
    by rewrite dset_dset.
Qed.

Lemma ddel_dset k s (d : list (key * OpenSession)) : NoDup (dkeys d) -> forall k',
  dget k' (ddel k (dset k s d)) = dget k' (ddel k d).
Proof.
  intros Hn k'. destruct (decide (k' = k)) as [->|Hne].
  - by rewrite !dget_ddel_eq by (try apply dset_NoDup; done).
  - by rewrite !dget_ddel_ne, dget_dset_ne.
Qed.

Lemma feed_event_spec k e st j o st' : assembling st j ->
  feed_event max_events max_payload_bytes k e st = (o, st') ->
  assembling st' (record k e j) /\
  o = if is_event CLOSED_EVENT e then shipped (j k ++ [e]) else Ret [].
Proof.
  intros Ha H. destruct (land k e st j Ha) as (s & st1 & Hr & _ & Hst1 & E). rewrite E in H. clear E.
  destruct (is_event CLOSED_EVENT e) eqn:Hc; cbn [negb] in H.
  2: { injection H as <- <-. split; [|done]. eapply assembling_set; [exact Ha| | |exact Hst1].
       - by rewrite record_eq, Hc.
       - intros k' Hne. by apply record_ne. }
  destruct (payload_of_represents _ _ Hr) as [Hp Hcon].
  assert (Hend : forall st2, _sessions st2.1 = ddel k (_sessions st1.1) -> assembling st2 (record k e j)).
  { intros st2 Hst2.
    assert (Ha1 : assembling st1 (fun k' => if decide (k' = k) then j k ++ [e] else j k')).
    { eapply assembling_set; [exact Ha|by rewrite decide_True|intros; by rewrite decide_False|exact Hst1]. }
    eapply assembling_del; [exact Ha1|by rewrite record_eq, Hc| |exact Hst2].
    intros k' Hne. by rewrite record_ne, decide_False. }
  unfold shipped. rewrite <- Hcon, <- Hp. unfold mbind at 1, M_bind at 1, modify in H.
  destruct (has_connect s); cbn [negb] in H; m_unfold.
  - unfold build_payload in H. m_unfold.
    destruct (payload_of max_events max_payload_bytes s) as [[p tr]|err]; simpl in H |- *.
    + destruct tr; injection H as <- <-; (split; [by apply Hend|done]).
    + injection H as <- <-. split; [by apply Hend|done].
  - unfold no_connect, modify in H. injection H as <- <-. split; [by apply Hend|done].
Qed.

Lemma feed_is_reference_aux line st j o st' : assembling st j ->
  feed max_events max_payload_bytes line st = (o, st') ->
  match parse_event line with
  | None => o = Ret [] /\ assembling st' j
  | Some e =>
      match key_of (field "session" e) with
      | None => o = Raise TypeError /\ st' = st
      | Some k => assembling st' (record k e j) /\
          o = if is_event CLOSED_EVENT e then shipped (j k ++ [e]) else Ret []
      end
  end.
Proof.
  intros Ha H. unfold feed in H. destruct (parse_event line) as [e|].
  2: { m_unfold. injection H as <- <-. split; [done|]. by destruct Ha. }
  destruct (key_of (field "session" e)) as [k|]; [by eapply feed_event_spec|].
  unfold raise in H. by injection H as <- <-.
Qed.

(** What is held of a session is within the cap. *)
Lemma assembling_bound st j k s : assembling st j -> dget k (_sessions st.1) = Some s ->
  (length (events s) <= max_events)%nat.
Proof. intros [_ Hs] E. specialize (Hs k). rewrite E in Hs. destruct Hs as [-> _ _]. by apply cap1_length. Qed.

(** C12: feeding is the per-session reference, however sessions interleave: an event joins
    the journal of its own session only; what is held of it is within [max_events] and
    closing it ships exactly the payload of the whole journal, although events were dropped
    on the way; a line that is no event, and a session without a connect, ship nothing. *)
Theorem feed_is_reference line st j o st' : assembling st j ->
  feed max_events max_payload_bytes line st = (o, st') ->
  (forall k s, dget k (_sessions st'.1) = Some s -> (length (events s) <= max_events)%nat) /\
  match parse_event line with
  | None => o = Ret [] /\ assembling st' j
  | Some e =>
      match key_of (field "session" e) with
      | None => o = Raise TypeError /\ st' = st
      | Some k => assembling st' (record k e j) /\
          o = if is_event CLOSED_EVENT e then shipped (j k ++ [e]) else Ret []
      end
  end.
Proof.
  intros Ha H%(feed_is_reference_aux _ _ j); [|done]. split; [|exact H]. intros k0 s0.
  destruct (parse_event line) as [e|]; [|destruct H as [_ Ha']; by eapply assembling_bound].
  destruct (key_of (field "session" e)) as [k|]; [destruct H as [Ha' _]|destruct H as [_ ->]];
    by eapply assembling_bound.
Qed.
End feeding.

(** ** One session *)

Module Toy.
#[export] Instance monotonic : Clock Z := fun w => (flt w, w + 1).
#[export] Existing Instance toy_float_repr.
Definition event (name : string) (n : Z) : jobj :=
  [(u "eventid", JStr (u name)); (u "session", JStr (u "s")); (u "src_ip", JNull);
   (u "sensor", JNull); (u "timestamp", JInt n)].
(** A line is one character: what it stands for. *)
#[export] Instance loads : JsonLoads := fun line =>
  match line with
  | [0] => Some (JObj (event "cowrie.session.connect" 0))
  | [1] => Some (JObj (event "cowrie.session.closed" 1))
  | [n] => Some (JObj (event "cowrie.command.input" n))
  | _ => None
  end.
Definition start : state Z := (Assembler [] {| parse_errors := 0; dropped_no_connect := 0;
                                               truncated_sessions := 0 |}, 0).
Definition feeds (lines : list pystr) : state Z :=
  (foldM (fun (_ : list pybytes) l => feed 3 1000 l) lines [] start).2.
Definition log : journal := fun k =>
  if decide (k = KStr (u "s"))
  then [event "cowrie.session.connect" 0; event "cowrie.command.input" 2;
        event "cowrie.command.input" 3; event "cowrie.command.input" 4]
  else [].
Definition four : state Z := feeds [[0]; [2]; [3]; [4]].

Lemma four_assembling : assembling 3 four log.
Proof.
  assert (E : dkeys (_sessions four.1) = [KStr (u "s")]) by reflexivity.
  split; [rewrite E; apply NoDup_singleton|]. intros k. unfold log.
  destruct (decide (k = KStr (u "s"))) as [->|Hk].
  - split; [reflexivity..|]. eexists _, _. split_and!; reflexivity.
  - destruct (dget k (_sessions four.1)) eqn:Ed; [|done].
    apply dget_Some_key in Ed. rewrite E in Ed. by apply list_elem_of_singleton in Ed.
Qed.
End Toy.
Import Toy.

(** Five events with a cap of three: the payload is that of the five. *)
Lemma feed_is_reference_witness :
  (feed 3 1000 [1] four).1 =
  shipped 3 1000 (log (KStr (u "s")) ++ [event "cowrie.session.closed" 1]).
Proof.
  destruct (feed 3 1000 [1] four) as [o st'] eqn:E.
  destruct (feed_is_reference 3 1000 ltac:(lia) [1] four log o st' four_assembling E) as [_ H].
  destruct H as [_ H]. exact H.
Defined.

(** Two events are left of five when the payload is to fit one byte. *)
Lemma payload_capped_witness :
  exists p kept, payload_of 3 1 (whole (log (KStr (u "s")))) = Ret (p, true) /\ length kept = 2%nat /\
    _dumps (shipper_envelope (whole (log (KStr (u "s")))) kept 2) = Ret p.
Proof.
  assert (Hrep : represents 3 {| session_id := JStr (u "s"); src_ip := JNull; sensor := JNull;
      events := cap1 3 (log (KStr (u "s"))); last_seen := 0; has_connect := true; dropped_events := 1 |}
    (log (KStr (u "s")))).
  { split; [reflexivity..|]. eexists _, _. split_and!; reflexivity. }
  pose (s := {| session_id := JStr (u "s"); src_ip := JNull; sensor := JNull;
      events := cap1 3 (log (KStr (u "s"))); last_seen := 0; has_connect := true; dropped_events := 1 |}).
  destruct (payload_of 3 1 s) as [[p []]|e] eqn:E; [|vm_compute in E; discriminate E..].
  destruct (payload_capped 3 1 ltac:(lia) s _ p true Hrep E) as (kept & Hk & _ & Hcap & _ & Hd).
  assert (Hlen : length kept = 2%nat).
  { destruct Hcap as [Hcap|Hcap].
    - vm_compute in E. injection E as <-. vm_compute in Hcap. destruct Hcap. reflexivity.
    - destruct Hk as [->|(n & Hn & ->)]; [vm_compute in Hcap; lia|].
      rewrite keep_ends_length in Hcap |- * by lia. lia. }
  exists p, kept. split_and!; [vm_compute in E |- *; exact E|exact Hlen|].
  rewrite Hlen in Hd. exact Hd.
Defined.
