(* ===== verification/Delivery.v ===== *)
(** * Delivery: what the shipper ships is what the API ingests, once

    The shipper's [assemble.py] against the API's [core/schemas/alert.py] and
    [core/services/alerts.py]: a session that begins with its connect event is accepted
    whatever the two caps cut out of it, under a fingerprint that its first event decides, so
    that a session shipped again (after a crash, an idle flush or under other caps) is
    found where it is.  The request's JSON is read by [loads] ([JsonParse]); pydantic's
    reading of an event is a parameter. *)

From S2P Require Import Prelude Errors Json Datetime Text JsonParse Schemas Database Api Tail Assemble.
#[local] Open Scope Z_scope.

(** A dict as it comes out of its text: members by key, and so below. *)
Definition sorted (d : jobj) : jobj := sort_items (map (fun kv => (kv.1, canon true kv.2)) d).

(** [json.loads(body)], when it is an object. *)
Definition read_body `{FloatParse} (body : pybytes) : option jobj :=
  match utf8_decode body with
  | Ret text => match loads text with Some (JObj d) => Some d | _ => None end
  | Raise _ => None
  end.

(** pydantic's reading of the models' fields: an event it accepts has its required texts, the
    order of a dict's members is no matter, and an alert's events are read one by one. *)
Class ReadsModel `{AlertCodec} : Type := {
  event_read : jobj -> option Alert.CowrieEvent;
  event_read_texts : forall e ev, event_read e = Some ev ->
    field "eventid" e = JStr (Alert.eventid ev) /\ field "session" e = JStr (Alert.session ev) /\
    field "src_ip" e = JStr (Alert.ev_src_ip ev) /\ field "sensor" e = JStr (Alert.ev_sensor ev);
  event_read_sorted : forall e, printable (JObj e) = true -> event_read (sorted e) = event_read e;
  coerce_members : forall d so si ip se es evs,
    dget (u "source") d = Some (JStr so) -> dget (u "session_id") d = Some (JStr si) ->
    dget (u "src_ip") d = Some (JStr ip) -> dget (u "sensor") d = Some (JStr se) ->
    dget (u "events") d = Some (JArr (map JObj es)) -> mapM event_read es = Some evs ->
    alert_coerce d = Some {| Alert.source := so; Alert.session_id := si; Alert.src_ip := ip;
                             Alert.sensor := se; Alert.events := evs |}
}.

(** ** Members *)

Lemma dget_map {A B} (f : A -> B) k (d : list (pystr * A)) :
  dget k (map (fun kv => (kv.1, f kv.2)) d) = f <$> dget k d.
Proof. induction d as [|[k' x] d IH]; simpl; [done|]. by case_decide. Qed.

Lemma dget_canonical k d : NoDup (dkeys d) -> dget k (sorted d) = canon true <$> dget k d.
Proof.
  intros Hnd. rewrite <- dget_map. unfold sorted.
  assert (Hnd' : NoDup (dkeys (map (fun kv : pystr * json => (kv.1, canon true kv.2)) d)))
    by (unfold dkeys; by rewrite map_map).
  revert Hnd'. generalize (map (fun kv : pystr * json => (kv.1, canon true kv.2)) d) as l. intros l Hl.
  pose proof (sort_items_perm l) as Hp. assert (Hs : NoDup (dkeys (sort_items l))) by (unfold dkeys; by rewrite Hp).
  apply option_eq. intros x. split; intros E%dget_elem; apply elem_of_dget; try done; [rewrite Hp in E|rewrite Hp]; exact E.
Qed.

Lemma payload_separators_ok : separators_ok payload_args.
Proof. split; exists [], []; split_and!; repeat constructor; done. Qed.

(** Reading back what [_dumps] wrote. *)
Lemma read_dumps `{FloatParse} d p :
  printable (JObj d) = true -> _dumps d = Ret p -> read_body p = Some (sorted d).
Proof.
  intros Hp. unfold _dumps, mbind, outcome_bind. destruct (dumps payload_args (JObj d)) as [text|] eqn:E; [|done].
  intros Hu. unfold read_body. rewrite (utf8_decode_encode _ _ Hu).
  rewrite <- (app_nil_r text). erewrite loads_dumps; [|exact payload_separators_ok|exact Hp|constructor|exact E].
  done.
Qed.

(** ** A session's first event *)

(** A list sorted by a key whose first element has the least one begins with it. *)
Lemma py_sorted_min {A} (f : A -> Z) x l :
  (forall y, y ∈ l -> f x <= f y) -> py_sorted f (x :: l) = x :: py_sorted f l.
Proof.
  intros H. simpl. destruct (py_sorted f l) as [|y l'] eqn:E; [done|]. simpl.
  rewrite (proj2 (Z.leb_le _ _)); [done|]. apply H. rewrite <- (py_sorted_perm f l), E. by left.
Qed.

(** What the caps leave begins with the first event and is of the session. *)
Lemma kept_head e es kept : kept_of (e :: es) kept ->
  exists rest, kept = e :: rest /\ rest ⊆ es /\ (length rest <= length es)%nat.
Proof.
  intros [->|(n & Hn & ->)]; [by exists es|]. unfold keep_ends.
  destruct n as [|[|n]]; [lia|lia|]. simpl length in Hn.
  replace (S (S n) - 1)%nat with (S n) by lia. cbn [take app].
  eexists. split; [reflexivity|]. destruct es as [|x es _] using rev_ind; [simpl in Hn; lia|].
  rewrite app_comm_cons, last_snoc. rewrite length_app in Hn. simpl in Hn. split.
  - intros y [Hy|Hy]%elem_of_app; [|apply elem_of_app; by right].
    rewrite <- (take_drop n (es ++ [x])). apply elem_of_app. by left.
  - rewrite !length_app, length_take. simpl. lia.
Qed.

Section delivery.
Context {FR : FloatRepr} {FP : FloatParse} {AC : AlertCodec} {RM : ReadsModel} {LZ : LocalZone} {SH : Sha256}
  {BP : BodyParser}.
Hypothesis parse_body_loads : forall p d, read_body p = Some d -> parse_body p = Some d.

(** The events of one session, as the sensor wrote them: each is one the API reads, and the
    first is the connect, which no other precedes. *)
Record session_log (es : list jobj) (evs : list Alert.CowrieEvent) (ev0 : Alert.CowrieEvent) : Prop := {
  log_reads : mapM event_read es = Some evs;
  log_printable : Forall (fun e => printable (JObj e) = true) es;
  log_comparable : comparable (map Alert.timestamp evs) = true;
  log_first : head evs = Some ev0;
  log_connect : Alert.eventid ev0 = Alert.CONNECT;
  log_order : forall ev, ev ∈ evs -> instant (Alert.timestamp ev0) <= instant (Alert.timestamp ev);
  log_size : Z.of_nat (length es) < 2 ^ 64
}.

(** The fingerprint the first event decides. *)
Definition session_fingerprint (ev0 : Alert.CowrieEvent) : pystr :=
  sha256_text (py_join (u "|") [u "cowrie"; Alert.session ev0; isoformat_utc (astimezone_utc (Alert.timestamp ev0))]).

Lemma field_dget name e j : field name e = j -> j <> JNull -> dget (u name) e = Some j.
Proof. unfold field. destruct (dget (u name) e); simpl; congruence. Qed.

Lemma printable_field name e t : printable (JObj e) = true -> field name e = JStr t -> text_ok t = true.
Proof.
  intros Hp Ht. apply field_dget in Ht; [|done]. apply dget_elem in Ht. simpl in Hp.
  apply andb_prop in Hp as [_ Hp]. rewrite forallb_forall in Hp.
  apply list_elem_of_In, Hp, andb_prop in Ht as [_ Ht]. exact Ht.
Qed.

Lemma mapM_sorted es :
  Forall (fun e => printable (JObj e) = true) es -> mapM event_read (map sorted es) = mapM event_read es.
Proof. induction 1 as [|e es He _ IH]; [done|]. simpl. by rewrite event_read_sorted, IH. Qed.

Lemma mapM_subset {A B} (f : A -> option B) l l' ys :
  mapM f l = Some ys -> l' ⊆ l -> exists ys', mapM f l' = Some ys' /\ ys' ⊆ ys.
Proof.
  intros Hl%mapM_Some. induction l' as [|x l' IH]; intros Hs; [exists []; split; [done|by intros ? ?%not_elem_of_nil]|].
  destruct IH as (ys' & E & Hy); [by intros z Hz; apply Hs; right|].
  assert (Hx : x ∈ l) by (apply Hs; by left). apply list_elem_of_lookup in Hx as [i Hi].
  destruct (Forall2_lookup_l _ _ _ _ _ Hl Hi) as (y & Hyi & Ex). exists (y :: ys'). simpl. rewrite Ex, E. split; [done|].
  intros z [->|Hz]%elem_of_cons; [by eapply list_elem_of_lookup_2|by apply Hy].
Qed.

Lemma kept_sub es kept : kept_of es kept -> kept ⊆ es.
Proof.
  intros [->|(n & Hn & ->)]; [done|]. unfold keep_ends. intros y [Hy|Hy]%elem_of_app.
  - rewrite <- (take_drop (n - 1) es). apply elem_of_app. by left.
  - destruct (last es) as [z|] eqn:E; [|by apply not_elem_of_nil in Hy].
    apply list_elem_of_singleton in Hy as ->. by eapply last_Some_elem_of.
Qed.

Lemma comparable_subset ts ts' : ts' ⊆ ts -> comparable ts = true -> comparable ts' = true.
Proof.
  unfold comparable. rewrite !orb_true_iff, !forallb_forall. setoid_rewrite <- list_elem_of_In. intros Hs.
  intros [H|H]; [left|right]; intros x Hx; by apply H, Hs.
Qed.

(** The events that are left are read as events of the log, the connect first. *)
Lemma kept_read es evs ev0 kept : session_log es evs ev0 -> kept_of es kept ->
  exists kevs, mapM event_read (map sorted kept) = Some (ev0 :: kevs) /\ ev0 :: kevs ⊆ evs /\
    (kept = es -> ev0 :: kevs = evs).
Proof.
  intros [Hr Hp _ Hf _ _ _] Hk. pose proof (kept_sub _ _ Hk) as Hsub.
  destruct (mapM_subset _ _ _ _ Hr Hsub) as (kevs & E & Hs).
  destruct es as [|e es]; [injection Hr as <-; discriminate Hf|].
  apply kept_head in Hk as (rest & -> & _ & _).
  rewrite mapM_sorted by (apply Forall_forall; rewrite Forall_forall in Hp; auto).
  simpl in Hr, E. destruct (event_read e) as [ev|] eqn:E0; [|done]. simpl in Hr, E.
  destruct (mapM event_read es) as [evs1|] eqn:E1; [|done]. simpl in Hr. injection Hr as <-. simpl in Hf. injection Hf as <-.
  destruct (mapM event_read rest) as [kevs1|] eqn:E2; [|done]. simpl in E. injection E as <-.
  exists kevs1. simpl. rewrite E0, E2. split_and!; [done|done|]. intros [= ->]. congruence.
Qed.

(** Reading the envelope of events that are left. *)
Lemma envelope_accepted s es evs ev0 kept extra p me :
  session_log es evs ev0 -> represents me s es -> kept_of es kept ->
  printable (JObj (envelope s kept ++ extra)) = true ->
  _dumps (envelope s kept ++ extra) = Ret p ->
  exists a, parse_payload p = Ret a /\ Alert.source a = u "cowrie" /\ Alert.session_id a = Alert.session ev0 /\
    Alert.connect_time a = Some (Alert.timestamp ev0) /\ Alert.events a ⊆ evs /\
    (kept = es -> Alert.events a ≡ₚ evs).
Proof.
  intros Hlog [_ _ (e & rest & Hes & Hi & Hip & Hse & _)] Hk Hp Hd.
  destruct (kept_read _ _ _ _ Hlog Hk) as (kevs & Hread & Hsub & Hall).
  destruct Hlog as [Hr _ Hc Hf Hcon Hord _].
  assert (Htexts : event_read e = Some ev0).
  { subst es. simpl in Hr. destruct (event_read e); [|done]. simpl in Hr.
    destruct (mapM event_read rest); [|done]. simpl in Hr. injection Hr as <-. exact Hf. }
  apply event_read_texts in Htexts as (_ & Hses & Hsrc & Hsen).
  pose proof (read_dumps _ _ Hp Hd) as Hbody. apply parse_body_loads in Hbody.
  assert (Hnd : NoDup (dkeys (envelope s kept ++ extra))).
  { simpl in Hp. by apply andb_prop in Hp as [?%bool_decide_eq_true _]. }
  set (a0 := {| Alert.source := u "cowrie"; Alert.session_id := Alert.session ev0;
                Alert.src_ip := Alert.ev_src_ip ev0; Alert.sensor := Alert.ev_sensor ev0;
                Alert.events := ev0 :: kevs |}).
  assert (Hco : alert_coerce (sorted (envelope s kept ++ extra)) = Some a0).
  { eapply (coerce_members _ _ _ _ _ (map sorted kept)); rewrite ?dget_canonical by done; try exact Hread; simpl.
    - done.
    - by rewrite Hi, Hses.
    - by rewrite Hip, Hsrc.
    - by rewrite Hse, Hsen.
    - do 2 f_equal. by rewrite !map_map. }
  exists (Alert.with_events a0 (ev0 :: py_sorted (fun e => instant (Alert.timestamp e)) kevs)).
  unfold parse_payload. rewrite Hbody. unfold model_validate. rewrite Hco.
  assert (Hv : Alert.validate a0 = Ret (Alert.with_events a0 (ev0 :: py_sorted (fun e => instant (Alert.timestamp e)) kevs))).
  { unfold Alert.validate, Alert._sort_and_require_connect_first, Alert.sort_events.
    rewrite bool_decide_true by done. change (Alert.events a0) with (ev0 :: kevs).
    rewrite (proj2 (Z.leb_le _ _)) by (unfold py_len; simpl; lia). cbn [andb].
    rewrite (comparable_subset (map Alert.timestamp evs)) by
      (done || by (intros t (ev & -> & Hev)%list_elem_of_fmap; apply list_elem_of_fmap; exists ev; split; [done|by apply Hsub])).
    rewrite py_sorted_min by (intros y Hy; apply Hord, Hsub; by right).
    cbn [mbind outcome_bind]. by rewrite bool_decide_true. }
  rewrite Hv. split_and!; try done.
  - simpl. intros y [->|Hy]%elem_of_cons; [apply Hsub; by left|]. rewrite py_sorted_perm in Hy. apply Hsub. by right.
  - intros ->. rewrite <- (Hall eq_refl). simpl. by rewrite py_sorted_perm.
Qed.

Lemma printable_obj kvs : NoDup (dkeys kvs) ->
  Forall (fun kv => text_ok kv.1 = true /\ printable kv.2 = true) kvs -> printable (JObj kvs) = true.
Proof.
  intros Hn H. simpl. rewrite bool_decide_true by done. apply forallb_forall. intros kv Hkv%list_elem_of_In.
  rewrite Forall_forall in H. by destruct (H kv Hkv) as [-> ->].
Qed.

Lemma envelope_printable s es evs ev0 kept me :
  session_log es evs ev0 -> represents me s es -> kept_of es kept ->
  printable (JObj (envelope s kept)) = true /\
  printable (JObj (shipper_envelope s kept (length es - length kept))) = true.
Proof.
  intros [Hr Hp _ Hf _ _ Hsz] [_ _ (e & rest & -> & Hi & Hip & Hse & _)] Hk.
  assert (He : event_read e = Some ev0).
  { simpl in Hr. destruct (event_read e); [|done]. simpl in Hr.
    destruct (mapM event_read rest); [|done]. simpl in Hr. injection Hr as <-. exact Hf. }
  apply event_read_texts in He as (_ & Hses & Hsrc & Hsen).
  assert (Hpe : printable (JObj e) = true) by (by apply Forall_cons in Hp as [? _]).
  pose proof (printable_field _ _ _ Hpe Hses) as T1. pose proof (printable_field _ _ _ Hpe Hsrc) as T2.
  pose proof (printable_field _ _ _ Hpe Hsen) as T3.
  assert (Hes : forallb printable (map JObj kept) = true).
  { apply forallb_forall. intros j (x & <- & Hx%list_elem_of_In)%in_map_iff.
    rewrite Forall_forall in Hp. apply Hp. by apply (kept_sub _ _ Hk). }
  assert (Hn : (int_digits (Z.of_nat (length (e :: rest) - length kept)) <=? MAX_INT_DIGITS) = true)
    by (apply int_digits_64; lia).
  assert (Henv : Forall (fun kv => text_ok kv.1 = true /\ printable kv.2 = true) (envelope s kept)).
  { unfold envelope. rewrite Hi, Hip, Hse, Hses, Hsrc, Hsen. repeat (constructor; [by split|]). constructor. }
  split; (apply printable_obj; [apply (bool_decide_unpack _); vm_compute; exact I|]); [exact Henv|].
  apply Forall_app. split; [done|]. constructor; [|constructor]. split; [done|].
  apply printable_obj; [apply (bool_decide_unpack _); vm_compute; exact I|]. repeat (constructor; [by split|]). constructor.
Qed.

(** Whatever the caps cut, the payload is an alert of the session, whole when nothing was. *)
Lemma payload_accepted me mb s es evs ev0 p truncated :
  (2 <= me)%nat -> session_log es evs ev0 -> represents me s es -> payload_of me mb s = Ret (p, truncated) ->
  exists a, parse_payload p = Ret a /\ Alert.source a = u "cowrie" /\ Alert.session_id a = Alert.session ev0 /\
    Alert.connect_time a = Some (Alert.timestamp ev0) /\ Alert.events a ⊆ evs /\
    (truncated = false -> Alert.events a ≡ₚ evs).
Proof.
  intros Hme Hlog Hrep Hpay. destruct (payload_capped me mb Hme s es p truncated Hrep Hpay) as (kept & Hk & _ & _ & Ht & Hd).
  destruct (envelope_printable _ _ _ _ _ _ Hlog Hrep Hk) as [P1 P2].
  assert (Hfull : truncated = false -> kept = es).
  { intros ->. destruct (kept_of_length me Hme _ _ Hk) as [Hl He]. apply He.
    destruct (Nat.lt_ge_cases (length kept) (length es)) as [H|H]; [by apply Ht in H|lia]. }
  assert (Hacc : exists extra, printable (JObj (envelope s kept ++ extra)) = true /\ _dumps (envelope s kept ++ extra) = Ret p).
  { destruct truncated; [by eexists|]. exists []. by rewrite app_nil_r. }
  destruct Hacc as (extra & Hp & Hx).
  destruct (envelope_accepted _ _ _ _ _ _ _ _ Hlog Hrep Hk Hp Hx) as (a & ? & ? & ? & ? & ? & Hall).
  exists a. split_and!; try done. intros E. by apply Hall, Hfull.
Qed.

Lemma fingerprint_of_first a ev0 :
  Alert.source a = u "cowrie" -> Alert.session_id a = Alert.session ev0 ->
  Alert.connect_time a = Some (Alert.timestamp ev0) -> Alert.fingerprint a = Some (session_fingerprint ev0).
Proof. intros Hs Hi Hc. unfold Alert.fingerprint, Alert.fingerprint_raw. by rewrite Hc, Hs, Hi. Qed.

(** The rows of the first tables are still there, under their fingerprints. *)
Definition rows_stay (ts ts' : tables) : Prop := forall row, row ∈ alerts ts ->
  exists row', row' ∈ alerts ts' /\ a_id row' = a_id row /\ a_fingerprint row' = a_fingerprint row.

Context {W : Type} {PG : Postgres W}.

Lemma known_fingerprint (a1 a2 : Alert.SessionAlert) (d d1 d2 d3 : db W) r1 r2 :
  Alert.fingerprint a1 = Alert.fingerprint a2 -> insert_alert a1 d = (Ret r1, d1) ->
  rows_stay (working d1) (working d2) -> wf_tables (working d2) -> insert_alert a2 d2 = (Ret r2, d3) ->
  created r2 = false /\ alert_id r2 = alert_id r1 /\ working d3 = working d2.
Proof.
  intros Hfp [_ (fp & Hf1 & Hi1)]%insert_alert_spec Hstay Hwf [_ (fp2 & Hf2 & Hi2)]%insert_alert_spec.
  assert (fp2 = fp) as -> by congruence.
  assert (Hknown : exists row, row ∈ alerts (working d1) /\ a_fingerprint row = fp /\ a_id row = alert_id r1).
  { unfold inserted in Hi1. destruct (created r1).
    - destruct Hi1 as (_ & _ & row & -> & Hi & Hf & _). exists row. set_solver.
    - destruct Hi1 as (-> & row & [Hin Hf]%find_fingerprint_Some & -> & _). by exists row. }
  destruct Hknown as (row & Hin & Hf & Hi). destruct (Hstay row Hin) as (row' & Hin' & Hi' & Hf').
  unfold inserted in Hi2. destruct (created r2).
  { destruct Hi2 as [Hn _]. destruct Hn. apply list_elem_of_fmap. exists row'. by rewrite Hf', Hf. }
  destruct Hi2 as (-> & row2 & [Hin2 Hf2']%find_fingerprint_Some & -> & _). split_and!; [done| |done].
  rewrite <- Hi, <- Hi'. f_equal.
  apply (NoDup_map_inj a_fingerprint (alerts (working d2))); [by apply fingerprints|done..|by rewrite Hf', Hf, Hf2'].
Qed.

(** C11: a session is ingested once however often and in whatever part it is shipped: each
    payload the assembler builds of its events, under any caps, is an alert the API accepts,
    of that session, with every event when none was cut; and once one of them is inserted,
    each later one, of a longer or shorter log from the same connect, finds that row and
    changes nothing, whatever happened to the tables meanwhile that keeps the rows. *)
Theorem reshipped_session_ingested_once me1 mb1 s1 es1 evs1 me2 mb2 s2 es2 evs2 ev0 p1 t1 p2 t2 :
  (2 <= me1)%nat -> (2 <= me2)%nat -> session_log es1 evs1 ev0 -> session_log es2 evs2 ev0 ->
  represents me1 s1 es1 -> represents me2 s2 es2 ->
  payload_of me1 mb1 s1 = Ret (p1, t1) -> payload_of me2 mb2 s2 = Ret (p2, t2) ->
  exists a1 a2, parse_payload p1 = Ret a1 /\ parse_payload p2 = Ret a2 /\
    Alert.session_id a1 = Alert.session ev0 /\ Alert.events a1 ⊆ evs1 /\ (t1 = false -> Alert.events a1 ≡ₚ evs1) /\
    forall (d d1 d2 d3 : db W) r1 r2, insert_alert a1 d = (Ret r1, d1) ->
      rows_stay (working d1) (working d2) -> wf_tables (working d2) -> insert_alert a2 d2 = (Ret r2, d3) ->
      created r2 = false /\ alert_id r2 = alert_id r1 /\ working d3 = working d2.
Proof.
  intros Hm1 Hm2 Hl1 Hl2 Hr1 Hr2 Hp1 Hp2.
  destruct (payload_accepted _ _ _ _ _ _ _ _ Hm1 Hl1 Hr1 Hp1) as (a1 & Ha1 & Hs1 & Hi1 & Hc1 & He1 & Hall1).
  destruct (payload_accepted _ _ _ _ _ _ _ _ Hm2 Hl2 Hr2 Hp2) as (a2 & Ha2 & Hs2 & Hi2 & Hc2 & _ & _).
  exists a1, a2. split_and!; try done. intros d d1 d2 d3 r1 r2. apply known_fingerprint.
  by rewrite !(fingerprint_of_first _ ev0).
Qed.
End delivery.

(** ** A session shipped twice *)

Module Toy.
Import JsonParse.Toy Database.Toy.

(** A field that holds a text, or an integer. *)
Definition text (name : string) (e : jobj) : option pystr := j ← dget (u name) e; to_str j.
Definition int (name : string) (e : jobj) : option Z := j ← dget (u name) e; to_int j.
Definition time (e : jobj) : option datetime :=
  match dget (u "timestamp") e with
  | Some (JArr [JInt us; JInt off]) => Some (Datetime us (Some off))
  | Some (JArr [JInt us; JNull]) => Some (Datetime us None)
  | _ => None
  end.
Definition event_json (ev : Alert.CowrieEvent) : jobj :=
  [(u "eventid", JStr (Alert.eventid ev));
   (u "timestamp", JArr [JInt (local_us (Alert.timestamp ev)); opt_json JInt (utcoffset (Alert.timestamp ev))]);
   (u "session", JStr (Alert.session ev)); (u "src_ip", JStr (Alert.ev_src_ip ev)); (u "sensor", JStr (Alert.ev_sensor ev));
   (u "message", JStr (Alert.message ev)); (u "username", opt_json JStr (Alert.username ev));
   (u "password", opt_json JStr (Alert.password ev)); (u "input", opt_json JStr (Alert.input ev));
   (u "url", opt_json JStr (Alert.url ev)); (u "outfile", opt_json JStr (Alert.outfile ev));
   (u "shasum", opt_json JStr (Alert.shasum ev)); (u "duration_ms", opt_json JInt (Alert.ev_duration_ms ev));
   (u "version", opt_json JStr (Alert.version ev))].
Definition read_event (e : jobj) : option Alert.CowrieEvent :=
  match text "eventid" e, time e, text "session" e, text "src_ip" e, text "sensor" e with
  | Some id, Some t, Some s, Some ip, Some se =>
      Some {| Alert.eventid := id; Alert.timestamp := t; Alert.session := s; Alert.ev_src_ip := ip; Alert.ev_sensor := se;
              Alert.message := default [] (text "message" e); Alert.username := text "username" e;
              Alert.password := text "password" e; Alert.input := text "input" e; Alert.url := text "url" e;
              Alert.outfile := text "outfile" e; Alert.shasum := text "shasum" e;
              Alert.ev_duration_ms := int "duration_ms" e; Alert.version := text "version" e |}
  | _, _, _, _, _ => None
  end.
Definition read_json (j : json) : option Alert.CowrieEvent := match j with JObj e => read_event e | _ => None end.

Lemma read_event_json ev : read_event (event_json ev) = Some ev.
Proof. destruct ev as [? [? []] ? ? ? ? [] [] [] [] [] [] [] []]; reflexivity. Qed.

Lemma text_sorted name e : NoDup (dkeys e) -> text name (sorted e) = text name e.
Proof. intros Hn. unfold text. rewrite dget_canonical by done. by destruct (dget _ e) as [[]|]. Qed.
Lemma int_sorted name e : NoDup (dkeys e) -> int name (sorted e) = int name e.
Proof. intros Hn. unfold int. rewrite dget_canonical by done. by destruct (dget _ e) as [[]|]. Qed.
Lemma time_sorted e : NoDup (dkeys e) -> time (sorted e) = time e.
Proof.
  intros Hn. unfold time. rewrite dget_canonical by done.
  destruct (dget _ e) as [[| | | | |l| |]|]; try done. by destruct l as [|[] [|[] [|]]].
Qed.

Definition dump_object (a : Alert.SessionAlert) : jobj :=
  [(u "source", JStr (Alert.source a)); (u "session_id", JStr (Alert.session_id a)); (u "src_ip", JStr (Alert.src_ip a));
   (u "sensor", JStr (Alert.sensor a)); (u "events", JArr (map JObj (map event_json (Alert.events a))))].
Definition coerce_object (d : jobj) : option Alert.SessionAlert :=
  so ← text "source" d; si ← text "session_id" d; ip ← text "src_ip" d; se ← text "sensor" d;
  evs ← (match dget (u "events") d with Some (JArr es) => mapM read_json es | _ => None end);
  Some {| Alert.source := so; Alert.session_id := si; Alert.src_ip := ip; Alert.sensor := se; Alert.events := evs |}.

Lemma coerce_dump_object a : coerce_object (dump_object a) = Some a.
Proof.
  assert (E : mapM read_json (map JObj (map event_json (Alert.events a))) = Some (Alert.events a)).
  { rewrite map_map. apply mapM_fmap_Some. intros ev. apply read_event_json. }
  unfold coerce_object, dump_object. simpl. rewrite E. by destruct a.
Qed.

#[export] Program Instance object_codec : AlertCodec := {
  alert_dump := dump_object; alert_coerce := coerce_object; alert_coerce_dump := coerce_dump_object
}.
Solve All Obligations with done.

#[export] Program Instance reads : ReadsModel := { event_read := read_event }.
Next Obligation.
  intros e ev. unfold read_event, text. intros H. unfold field.
  destruct (dget (u "eventid") e) as [[]|]; simpl in *; try done.
  destruct (time e); [|done].
  destruct (dget (u "session") e) as [[]|]; simpl in *; try done.
  destruct (dget (u "src_ip") e) as [[]|]; simpl in *; try done.
  destruct (dget (u "sensor") e) as [[]|]; simpl in *; try done. by injection H as <-.
Qed.
Next Obligation.
  intros e Hp. simpl in Hp. apply andb_prop in Hp as [Hn%bool_decide_eq_true _].
  unfold read_event. by rewrite !text_sorted, int_sorted, time_sorted.
Qed.
Next Obligation.
  intros d so si ip se es evs H1 H2 H3 H4 H5 H6. simpl. unfold coerce_object, text. rewrite H1, H2, H3, H4, H5. simpl.
  assert (E : mapM read_json (map JObj es) = Some evs).
  { rewrite <- H6. clear. induction es as [|e es IH]; [done|]. simpl. by rewrite IH. }
  by rewrite E.
Qed.

#[export] Instance parser : BodyParser := { parse_body := read_body; describe_errors _ := [] }.

Definition event (id : pystr) (t : Z) : jobj := event_json (Alert.toy_event id t).
Definition connect : jobj := event Alert.CONNECT 0.
Definition busy : list jobj := [connect; event (u "cowrie.command.input") 1; event Alert.CLOSED 5].
Definition open : list jobj := [connect; event (u "cowrie.command.input") 1].
(** What an assembler with a cap of two holds of the one, and one without of the other. *)
Definition held (me : nat) (es : list jobj) : OpenSession :=
  {| session_id := JStr (u "s"); src_ip := JStr []; sensor := JStr []; events := cap1 me es; last_seen := 0;
     has_connect := true; dropped_events := length es - length (cap1 me es) |}.

Lemma held_represents me es rest : es = connect :: rest -> represents me (held me es) es.
Proof. intros ->. split; [done..|]. by exists connect, rest. Qed.
End Toy.
Import JsonParse.Toy Database.Toy Toy.

#[local] Ltac logged := split; [vm_compute; reflexivity|repeat (constructor; [vm_compute; reflexivity|]); constructor|reflexivity..| |vm_compute; reflexivity];
  apply Forall_forall; repeat (constructor; [vm_compute; discriminate|]); constructor.

(** Shipped with one of its three events cut, then as it was when it was still open. *)
Lemma reshipped_session_ingested_once_witness :
  exists p1 p2 a1 a2 r1 d1, payload_of 2 1000 (held 2 busy) = Ret (p1, true) /\ payload_of 9 1000 (held 9 open) = Ret (p2, false) /\
    parse_payload p1 = Ret a1 /\ parse_payload p2 = Ret a2 /\
    insert_alert a1 start = (Ret r1, d1) /\ created r1 = true /\
    forall r2 d2, insert_alert a2 d1 = (Ret r2, d2) -> created r2 = false /\ alert_id r2 = alert_id r1.
Proof.
  destruct (payload_of 2 1000 (held 2 busy)) as [[p1 []]|e] eqn:E1; [|vm_compute in E1; discriminate E1..].
  destruct (payload_of 9 1000 (held 9 open)) as [[p2 []]|e] eqn:E2; [vm_compute in E2; discriminate E2| |vm_compute in E2; discriminate E2].
  assert (L1 : session_log busy (map (fun '(i, t) => Alert.toy_event i t)
     [(Alert.CONNECT, 0); (u "cowrie.command.input", 1); (Alert.CLOSED, 5)]) (Alert.toy_event Alert.CONNECT 0)) by logged.
  assert (L2 : session_log open (map (fun '(i, t) => Alert.toy_event i t)
     [(Alert.CONNECT, 0); (u "cowrie.command.input", 1)]) (Alert.toy_event Alert.CONNECT 0)) by logged.
  destruct (reshipped_session_ingested_once (W := world) (AC := object_codec) (BP := parser) (fun p d H => H) 2 1000 (held 2 busy) busy _ 9 1000 (held 9 open) open _
    _ p1 true p2 false ltac:(lia) ltac:(lia) L1 L2 (held_represents _ _ _ eq_refl) (held_represents _ _ _ eq_refl) E1 E2)
    as (a1 & a2 & H1 & H2 & _ & _ & _ & Hins).
  assert (Ei : exists r1 d1, insert_alert a1 start = (Ret r1, d1) /\ created r1 = true /\ wf_tables (working d1)).
  { vm_compute in E1. injection E1 as <-. vm_compute in H1. injection H1 as <-.
    destruct (insert_alert _ _) as [[r1|e] d1] eqn:Ei; [|vm_compute in Ei; discriminate Ei].
    exists r1, d1. pose proof (insert_alert_spec _ _ _ _ Ei) as (_ & fp & _ & Hi).
    split_and!; [done|vm_compute in Ei; injection Ei as <- _; reflexivity|by apply (inserted_wf _ _ _ _ _ Hi), empty_wf]. }
  destruct Ei as (r1 & d1 & Ei & Hc & Hwf). exists p1, p2, a1, a2, r1, d1. split_and!; try done.
  intros r2 d2 E. destruct (Hins start d1 d1 d2 r1 r2 Ei ltac:(by intros row; exists row) Hwf E) as (H3 & H4 & _). done.
Defined.
