(* ===== verification/Shipper.v ===== *)
(** * Shipper: spool, delivery and the poll loop

    [honeypot/shipper/sentinelbrief_shipper/]: [spool.py], [post.py], [config.py] and
    [main.py] over the tailer ([Tail]) and the assembler ([Assemble]).  The spool directory
    is its files by name; whether an operation on it fails, the clocks, the HTTP client and
    the wait are parameters.  Nothing else writes the spool. *)

From S2P Require Import Prelude Errors Json Datetime Text Signing Tail Assemble.
#[local] Open Scope Z_scope.

(** The machine: the log directory and the clock of [Tail] and [Assemble], the fate of one
    operation on the spool directory, [time.time_ns], the HTTP client answering a status,
    and the wait. *)
Class Machine (W : Type) : Type := {
  machine_log :: LogDir W;
  machine_clock :: Clock W;
  disk_op : W -> outcome exn unit * W;
  time_ns : W -> Z * W;
  client_post : pystr -> pybytes -> list (pystr * pystr) -> M exn W Z;
  sleep : float -> M exn W unit
}.

(** ** [spool.py] *)

Record Spool : Type := {
  files : list (pystr * pybytes);
  dead_files : list (pystr * pybytes)
}.

(** [self._directory.glob("*.json")], sorted: the spool holds no other visible file. *)
Definition pending (sp : Spool) : list pystr := map fst (sort_items (files sp)).

(** [hashlib.sha256(payload).hexdigest()]. *)
Class Sha256Hex : Type := sha256_hex : pybytes -> pystr.

(** [f"{time.time_ns():020d}-{digest}.json"]. *)
Definition spool_name `{Sha256Hex} (ns : Z) (payload : pybytes) : pystr :=
  digits 20 ns ++ u "-" ++ take 8 (sha256_hex payload) ++ u ".json".

Record shipper (W : Type) : Type := Shipper {
  tailer : LogTailer;
  assembler : SessionAssembler;
  spool : Spool;
  consecutive : Z;
  machine : W
}.
Arguments Shipper {W}. Arguments tailer {W}. Arguments assembler {W}. Arguments spool {W}.
Arguments consecutive {W}. Arguments machine {W}.

Section ops.
Context {W : Type} {MA : Machine W} {SH : Sha256Hex}.

(** An operation of the machine alone. *)
Definition on_machine {A} (m : M exn W A) : M exn (shipper W) A := fun s =>
  let '(o, w) := m (machine s) in
  (o, Shipper (tailer s) (assembler s) (spool s) (consecutive s) w).

Definition set_spool (f : Spool -> Spool) : M exn (shipper W) unit :=
  modify (fun s => Shipper (tailer s) (assembler s) (f (spool s)) (consecutive s) (machine s)).
Definition set_consecutive (f : Z -> Z) : M exn (shipper W) unit :=
  modify (fun s => Shipper (tailer s) (assembler s) (spool s) (f (consecutive s)) (machine s)).

(** [os.unlink] and [os.replace] of a spool file. *)
Definition remove (name : pystr) : M exn (shipper W) unit :=
  _ ← on_machine disk_op;
  set_spool (fun sp => {| files := ddel name (files sp); dead_files := dead_files sp |}).

(** The oldest pending file makes room for the next. *)
Definition drop_oldest (max_files : Z) : M exn (shipper W) unit :=
  s ← get;
  match pending (spool s) with
  | oldest :: _ => if max_files <=? py_len (pending (spool s)) then remove oldest else mret tt
  | [] => if max_files <=? 0 then raise IndexError else mret tt
  end.

Definition put (max_files : Z) (payload : pybytes) : M exn (shipper W) unit :=
  _ ← drop_oldest max_files;
  ns ← on_machine (fun w => let '(n, w') := time_ns w in (Ret n, w'));
  _ ← on_machine disk_op;
  _ ← try_except (on_machine disk_op)
        (fun e => match e with
                  | OSError => Some (_ ← on_machine disk_op; raise e)
                  | _ => None
                  end);
  set_spool (fun sp => {| files := dset (spool_name ns payload) payload (files sp);
                          dead_files := dead_files sp |}).

Definition dead (name : pystr) : M exn (shipper W) unit :=
  _ ← on_machine disk_op;
  set_spool (fun sp =>
    match dget name (files sp) with
    | Some payload => {| files := ddel name (files sp);
                         dead_files := dset name payload (dead_files sp) |}
    | None => sp
    end).

(** ** [main.py]: [Backoff] *)

Variables (base_s max_s : float).

(** [2.0**n] raises for [n >= 1024]; below, the scaling is exact up to an overflow to
    infinity, which [min] caps. *)
Definition wait : M exn (shipper W) float :=
  s ← get;
  if 1024 <=? consecutive s then raise OverflowError
  else
    let delay := Z.min (base_s * 2 ^ consecutive s) max_s in
    _ ← set_consecutive (fun n => n + 1);
    _ ← on_machine (sleep delay);
    mret delay.

Definition reset : M exn (shipper W) unit := set_consecutive (fun _ => 0).

(** ** [post.py] *)

Context {HM : Hmac}.
Variables (url secret : pystr).

(** The vendored copy of [signing.py]. *)
Definition sign_body (body : pybytes) : outcome exn pystr :=
  key ← utf8_encode secret;
  Ret (u "sha256=" ++ hmac_hexdigest key body).

Record PostResult : Type := { status : option Z; retry : bool }.

Definition _RETRYABLE_STATUSES : list Z := [408; 425; 429].

(** The outcome of one response status. *)
Definition result_of (status : Z) : PostResult :=
  if bool_decide (status ∈ [200; 202]) then {| status := Some status; retry := false |}
  else if bool_decide (status ∈ _RETRYABLE_STATUSES) || (500 <=? status)
  then {| status := Some status; retry := true |}
  else {| status := Some status; retry := false |}.

Definition post_headers (signature : pystr) : list (pystr * pystr) :=
  [(u "X-Signature", signature); (u "content-type", u "application/json");
   (u "user-agent", u "sentinelbrief-shipper/" ++ __version__)].

Definition post (payload : pybytes) : M exn (shipper W) PostResult :=
  signature ← lift (sign_body payload);
  status ← try_except (st ← on_machine (client_post url payload (post_headers signature)); mret (Some st))
             (fun e => match e with HTTPError => Some (mret None) | _ => None end);
  match status with
  | None => mret {| status := None; retry := true |}
  | Some st => mret (result_of st)
  end.

(** ** [main.py]: [drain] *)

Definition drain_one (name : pystr) : M exn (shipper W) (option bool) :=
  s ← get;
  _ ← on_machine disk_op;
  match dget name (files (spool s)) with
  | None => raise OSError
  | Some payload =>
      result ← post payload;
      if retry result then _ ← wait; mret None
      else
        match status result with
        | None => raise AssertionError
        | Some st =>
            if (200 <=? st) && (st <? 300)
            then _ ← remove name; _ ← reset; mret (Some true)
            else _ ← dead name; mret (Some false)
        end
  end.

(** The loop over the names listed at its start. *)
Fixpoint drain_names (names : list pystr) (delivered : Z) : M exn (shipper W) Z :=
  match names with
  | [] => mret delivered
  | name :: names' =>
      r ← drain_one name;
      match r with
      | None => mret delivered
      | Some ok => drain_names names' (if (ok : bool) then delivered + 1 else delivered)
      end
  end.

Definition drain : M exn (shipper W) Z :=
  s ← get; drain_names (pending (spool s)) 0.
End ops.

(** ** [main.py]: one iteration and the loop *)

Record ShipperConfig : Type := {
  ingest_url : pystr;
  hmac_secret : pystr;
  cfg_idle_flush_s : float;
  cfg_max_events : nat;
  cfg_max_payload_bytes : Z;
  backoff_base_s : float;
  backoff_max_s : float;
  spool_max_files : Z;
  poll_interval_s : float;
  cfg_read_chunk_bytes : nat;
  cfg_max_batch_lines : nat
}.

Record RunOnceResult : Type := { lines_read : Z; delivered : Z }.

Section loop.
Context {W : Type} {MA : Machine W} {SH : Sha256Hex} {HM : Hmac} {JL : JsonLoads} {IO : IntOf}
  {FR : FloatRepr}.
Variable config : ShipperConfig.

Definition on_tailer {A} (m : M exn (tail W) A) : M exn (shipper W) A := fun s =>
  let '(o, t) := m (Tail (tailer s) (machine s)) in
  (o, Shipper (self t) (assembler s) (spool s) (consecutive s) (dir t)).
Definition on_assembler {A} (m : M exn (Assemble.state W) A) : M exn (shipper W) A := fun s =>
  let '(o, a) := m (assembler s, machine s) in
  (o, Shipper (tailer s) a.1 (spool s) (consecutive s) a.2).

Definition put_all (payloads : list pybytes) : M exn (shipper W) unit :=
  foldM (fun _ p => put (spool_max_files config) p) payloads tt.

Definition feed_line (_ : unit) (line : pystr) : M exn (shipper W) unit :=
  payloads ← on_assembler (feed (cfg_max_events config) (cfg_max_payload_bytes config) line);
  put_all payloads.

Definition _spool_new_payloads (lines : list pystr) : M exn (shipper W) unit :=
  _ ← foldM feed_line lines tt;
  payloads ← on_assembler (flush_idle (cfg_idle_flush_s config) (cfg_max_events config)
                             (cfg_max_payload_bytes config));
  put_all payloads.

Definition _spool_open_sessions : M exn (shipper W) unit :=
  payloads ← on_assembler (flush_all (cfg_max_events config) (cfg_max_payload_bytes config));
  put_all payloads.

Definition run_once : M exn (shipper W) RunOnceResult :=
  lines ← on_tailer (read_new_lines (cfg_read_chunk_bytes config) (cfg_max_batch_lines config) false);
  _ ← _spool_new_payloads lines;
  _ ← on_tailer commit_offset;
  n ← drain (backoff_base_s config) (backoff_max_s config) (ingest_url config) (hmac_secret config);
  mret {| lines_read := py_len lines; delivered := n |}.

(** The loop of [main], for at most [iterations] of them ([max_iterations]; unbounded in
    production); [stop] reads the stop event. *)
Fixpoint main_loop (stop : W -> bool) (once : bool) (iterations : nat) : M exn (shipper W) unit :=
  match iterations with
  | O => mret tt
  | S n =>
      result ← run_once;
      s ← get;
      if once || (n =? 0)%nat then mret tt
      else if stop (machine s) then _spool_open_sessions
      else
        _ ← (if lines_read result =? 0 then on_machine (sleep (poll_interval_s config)) else mret tt);
        main_loop stop once n
  end.
End loop.

(** ** The drain *)

Section drain_facts.
Context {W : Type} {MA : Machine W} {SH : Sha256Hex} {HM : Hmac}.
Variables (base_s max_s : float) (url secret : pystr).
Implicit Types (s : shipper W) (sp : Spool).

Definition accepted (st : Z) : bool := (200 <=? st) && (st <? 300).

(** The API answered [st] to this payload, signed. *)
Definition answered (payload : pybytes) (st : Z) : Prop :=
  exists sig (w w' : W), sign_body secret payload = Ret sig /\
    client_post url payload (post_headers sig) w = (Ret st, w').

Lemma on_machine_spec {A} (m : M exn W A) s o s' : on_machine m s = (o, s') ->
  spool s' = spool s /\ consecutive s' = consecutive s /\ tailer s' = tailer s /\
  assembler s' = assembler s /\ exists w', m (machine s) = (o, w').
Proof. unfold on_machine. destruct (m (machine s)) as [o1 w1]. intros [= <- <-]. eauto 10. Qed.

Lemma post_spec payload s o s' : post url secret payload s = (o, s') ->
  spool s' = spool s /\ consecutive s' = consecutive s /\
  forall r, o = Ret r -> (r = {| status := None; retry := true |} \/
                          exists st, r = result_of st /\ answered payload st).
Proof.
  unfold post. m_unfold. destruct (sign_body secret payload) as [sig|e] eqn:Es; [|intros [= <- <-]; done].
  destruct (on_machine (client_post url payload (post_headers sig)) s) as [[st|e] s1] eqn:E;
    apply on_machine_spec in E as (Hsp & Hc & _ & _ & w' & Hw).
  - intros [= <- <-]. split_and!; [done..|]. intros r [= <-]. right. exists st. split; [done|].
    by exists sig, (machine s), w'.
  - destruct e; intros [= <- <-]; (split_and!; [done..|]); try done. intros r [= <-]. by left.
Qed.

Lemma wait_spec s o s' : wait base_s max_s s = (o, s') ->
  spool s' = spool s /\ tailer s' = tailer s /\ assembler s' = assembler s /\
  if 1024 <=? consecutive s then o = Raise OverflowError /\ s' = s
  else consecutive s' = consecutive s + 1 /\
       (forall d, o = Ret d -> d = Z.min (base_s * 2 ^ consecutive s) max_s).
Proof.
  unfold wait, set_consecutive. m_unfold. destruct (1024 <=? consecutive s); [intros [= <- <-]; done|].
  destruct (on_machine _ _) as [[[]|e] s1] eqn:E; apply on_machine_spec in E as (Hs & Hc & Ht & Ha & _);
    simpl in *; intros [= <- <-]; split_and!; try done. by intros d [= <-].
Qed.

Lemma retry_result_of st : retry (result_of st) = true <->
  st = 408 \/ st = 425 \/ st = 429 \/ 500 <= st.
Proof.
  unfold result_of. case_bool_decide as H1; simpl.
  - split; [done|]. intros H. exfalso. set_unfold in H1. lia.
  - destruct (bool_decide (st ∈ _RETRYABLE_STATUSES) || (500 <=? st)) eqn:E; simpl.
    + split; [intros _|done]. apply orb_true_iff in E as [E|E]; py_reflect; [|lia].
      unfold _RETRYABLE_STATUSES in E. set_unfold in E. lia.
    + split; [done|]. intros H. exfalso. py_reflect. unfold _RETRYABLE_STATUSES in *.
      match goal with H : ~ (_ ∈ _) |- _ => apply H end. set_unfold. lia.
Qed.

Lemma status_result_of st : status (result_of st) = Some st.
Proof. unfold result_of. repeat (case_match; [done|]). done. Qed.

(** One payload: kept on a retryable answer or an exception, removed or moved otherwise. *)
Lemma drain_one_spec name payload s o s' :
  dget name (files (spool s)) = Some payload ->
  drain_one base_s max_s url secret name s = (o, s') ->
  match o with
  | Raise _ => spool s' = spool s
  | Ret None => spool s' = spool s /\ consecutive s' = consecutive s + 1
  | Ret (Some ok) =>
      exists st, answered payload st /\ retry (result_of st) = false /\ ok = accepted st /\
        files (spool s') = ddel name (files (spool s)) /\
        dead_files (spool s') =
          (if ok then dead_files (spool s) else dset name payload (dead_files (spool s))) /\
        consecutive s' = if ok then 0 else consecutive s
  end.
Proof.
  intros Hp. unfold drain_one, remove, dead, reset, set_consecutive, set_spool. m_unfold.
  destruct (on_machine disk_op s) as [[[]|e] s1] eqn:E1;
    apply on_machine_spec in E1 as (Hs1 & Hc1 & _); [|by intros [= <- <-]].
  rewrite Hp. destruct (post url secret payload s1) as [[r|e] s2] eqn:E2;
    apply post_spec in E2 as (Hs2 & Hc2 & Hr); [|intros [= <- <-]; congruence].
  destruct (retry r) eqn:Hret.
  - destruct (wait base_s max_s s2) as [[d|e] s3] eqn:E3; apply wait_spec in E3 as (Hs3 & _ & _ & H3);
      intros [= <- <-]; [split; [congruence|]|congruence].
    destruct (1024 <=? consecutive s2); [by destruct H3|]. destruct H3 as [-> _]. congruence.
  - destruct (Hr r eq_refl) as [->|(st & -> & Ha)]; [done|]. rewrite status_result_of.
    fold (accepted st). destruct (accepted st) eqn:Hok.
    + destruct (on_machine disk_op s2) as [[[]|e] s3] eqn:E3;
        apply on_machine_spec in E3 as (Hs3 & Hc3 & _); intros [= <- <-]; [|congruence].
      exists st. simpl. rewrite Hs3, Hs2, Hs1. by split_and!.
    + destruct (on_machine disk_op s2) as [[[]|e] s3] eqn:E3;
        apply on_machine_spec in E3 as (Hs3 & Hc3 & _); intros [= <- <-]; [|congruence].
      exists st. simpl. rewrite Hs3, Hs2, Hs1, Hp. simpl. split_and!; try done. congruence.
Qed.

(** What the drain did with the names it finished. *)
Record done_with sp sp' (settled : list (pystr * pybytes * Z)) : Prop := {
  dw_each : Forall (fun '(name, payload, st) =>
    dget name (files sp) = Some payload /\ answered payload st /\ retry (result_of st) = false /\
    dget name (files sp') = None /\ (accepted st = false -> dget name (dead_files sp') = Some payload)) settled;
  dw_others : forall name, name ∉ map (fun d => d.1.1) settled ->
    dget name (files sp') = dget name (files sp) /\ dget name (dead_files sp') = dget name (dead_files sp)
}.

Definition accepts (settled : list (pystr * pybytes * Z)) : Z :=
  py_len (List.filter (fun d => accepted d.2) settled).

(** The consecutive waits left by the finished payloads. *)
Definition waits_after (settled : list (pystr * pybytes * Z)) (c : Z) : Z :=
  foldl (fun c d => if accepted d.2 then 0 else c) c settled.

Lemma done_with_nil sp : done_with sp sp [].
Proof. split; [constructor|done]. Qed.

(** One more payload in front. *)
Lemma done_with_cons name payload st sp sp1 sp' settled :
  NoDup (dkeys (files sp)) -> name ∉ map (fun d => d.1.1) settled ->
  dget name (files sp) = Some payload -> answered payload st -> retry (result_of st) = false ->
  files sp1 = ddel name (files sp) ->
  dead_files sp1 = (if accepted st then dead_files sp else dset name payload (dead_files sp)) ->
  done_with sp1 sp' settled -> done_with sp sp' ((name, payload, st) :: settled).
Proof.
  intros Hn Hnot Hp Ha Hr Hf Hd [Heach Hothers]. split.
  - destruct (Hothers name Hnot) as [Hf' Hd']. constructor.
    + split_and!; [done..| |].
      * by rewrite Hf', Hf, dget_ddel_eq.
      * intros Hacc. by rewrite Hd', Hd, Hacc, dget_dset_eq.
    + rewrite Forall_forall in Heach |- *. intros [[name1 p1] st1] Hin.
      destruct (Heach _ Hin) as (H1 & ? & ? & ? & ?). split_and!; [|done..].
      rewrite Hf, dget_ddel_ne in H1; [done|]. intros <-. apply Hnot.
      apply list_elem_of_fmap. by exists (name, p1, st1).
  - intros name1. simpl. rewrite not_elem_of_cons. intros [Hne Hnot1].
    destruct (Hothers name1 Hnot1) as [-> ->]. rewrite Hf, Hd, dget_ddel_ne by congruence.
    split; [done|]. destruct (accepted st); [done|]. by rewrite dget_dset_ne by congruence.
Qed.

Lemma drain_names_spec names k s o s' :
  NoDup (dkeys (files (spool s))) -> NoDup names ->
  (forall name, name ∈ names -> is_Some (dget name (files (spool s)))) ->
  drain_names base_s max_s url secret names k s = (o, s') ->
  exists settled rest, names = map (fun d => d.1.1) settled ++ rest /\
    done_with (spool s) (spool s') settled /\
    (forall n, o = Ret n -> n = k + accepts settled /\
       consecutive s' = waits_after settled (consecutive s) + (if bool_decide (rest = []) then 0 else 1)).
Proof.
  revert k s. induction names as [|name names IH]; intros k s Hn Hnames Hin; simpl.
  { unfold mret, M_ret. intros [= <- <-]. exists [], []. split_and!; [done|apply done_with_nil|].
    intros n [= <-]. rewrite bool_decide_true by done. unfold accepts, py_len. simpl. lia. }
  apply NoDup_cons in Hnames as [Hnot Hnames].
  destruct (Hin name) as [payload Hp]; [left|]. unfold mbind, M_bind.
  destruct (drain_one base_s max_s url secret name s) as [[[ok|]|e] s1] eqn:E;
    apply (drain_one_spec name payload) in E; try done.
  - destruct E as (st & Ha & Hr & -> & Hf & Hd & Hc). intros H.
    apply IH in H as (settled & rest & -> & Hdone & Hret); [..|done| ].
    + exists ((name, payload, st) :: settled), rest. split; [done|]. split.
      * eapply done_with_cons; try done. intros Hx. apply Hnot, elem_of_app. by left.
      * intros n [-> ->]%Hret. simpl. rewrite Hc. split; [|done].
        unfold accepts, py_len. simpl. destruct (accepted st); simpl; lia.
    + rewrite Hf. by apply ddel_NoDup.
    + intros name1 Hin1. rewrite Hf, dget_ddel_ne by congruence. apply Hin. by right.
  - destruct E as [Hs Hc]. unfold mret, M_ret. intros [= <- <-]. exists [], (name :: names).
    split_and!; [done|rewrite Hs; apply done_with_nil|]. intros n [= <-].
    rewrite bool_decide_false by done. unfold accepts, py_len. simpl. split; [lia|done].
  - intros [= <- <-]. exists [], (name :: names). split_and!; [done|rewrite E; apply done_with_nil|done].
Qed.

Lemma pending_perm sp : pending sp ≡ₚ dkeys (files sp).
Proof. unfold pending, dkeys, sort_items. apply Permutation_map, merge_sort_Permutation. Qed.

(** C16: a drain handles a prefix of the spool in FIFO order and loses nothing: each payload
    of the prefix was answered a status that is not to be retried and is gone from the
    spool, moved to [dead/] unless the API accepted it; every other file is untouched,
    whatever fails; the number returned is that of the accepted, and the backoff starts
    over at each acceptance and has waited once more if the drain stopped early. *)
Theorem drain_fifo_nothing_lost s o s' :
  NoDup (dkeys (files (spool s))) -> drain base_s max_s url secret s = (o, s') ->
  exists settled rest, pending (spool s) = map (fun d => d.1.1) settled ++ rest /\
    done_with (spool s) (spool s') settled /\
    (forall n, o = Ret n -> n = accepts settled /\
       consecutive s' = waits_after settled (consecutive s) + (if bool_decide (rest = []) then 0 else 1)).
Proof.
  intros Hn. unfold drain, mbind, M_bind, get. intros H. apply drain_names_spec in H; [done|done|..].
  - by rewrite pending_perm.
  - intros name Hin. rewrite pending_perm in Hin.
    destruct (dget name (files (spool s))) eqn:E; [done|]. by apply dget_None in E.
Qed.
End drain_facts.

(** The backoff doubles from [base_s] up to [max_s], but only 1024 times in a row: the
    next wait raises [OverflowError] whatever the cap, so an outage with more retries than
    that ends the process. *)
Theorem backoff_wait_bounded {W} {MA : Machine W} base_s max_s (s : shipper W) o s' :
  0 <= base_s -> 0 <= max_s -> 0 <= consecutive s -> wait base_s max_s s = (o, s') ->
  spool s' = spool s /\
  (1024 <= consecutive s -> o = Raise OverflowError /\ s' = s) /\
  (consecutive s < 1024 -> consecutive s' = consecutive s + 1 /\
     forall d, o = Ret d -> 0 <= d <= max_s /\
       (base_s * 2 ^ consecutive s <= max_s -> d = base_s * 2 ^ consecutive s)).
Proof.
  intros Hb Hm Hc (Hs & _ & _ & H)%wait_spec. split; [done|].
  destruct (Z.leb_spec 1024 (consecutive s)); [split; [done|lia]|]. split; [lia|].
  intros _. destruct H as [-> Hd]. split; [done|]. intros d ->%Hd.
  pose proof (Z.pow_nonneg 2 (consecutive s)). split; nia.
Qed.

(** ** At least once *)

(** A quantity no outcome of [m] changes. *)
Definition stable {S A B} (f : S -> B) (m : M exn S A) : Prop :=
  forall s o s', m s = (o, s') -> f s' = f s.

Section stable.
Context {S B : Type} (f : S -> B).

Lemma stable_ret {A} (a : A) : stable f (mret a : M exn S A).
Proof. intros s o s'. by intros [= _ <-]. Qed.
Lemma stable_raise {A} e : stable f (raise e : M exn S A).
Proof. intros s o s'. by intros [= _ <-]. Qed.
Lemma stable_lift {A} (x : outcome exn A) : stable f (lift x : M exn S A).
Proof. intros s o s'. by intros [= _ <-]. Qed.
Lemma stable_get : stable f (get : M exn S S).
Proof. intros s o s'. by intros [= _ <-]. Qed.
Lemma stable_modify g : (forall s, f (g s) = f s) -> stable f (modify g : M exn S unit).
Proof. intros Hg s o s'. by intros [= _ <-]. Qed.

Lemma stable_bind {A A'} (m : M exn S A) (k : A -> M exn S A') :
  stable f m -> (forall a, stable f (k a)) -> stable f (x ← m; k x).
Proof.
  intros Hm Hk s o s'. unfold mbind, M_bind. destruct (m s) as [[a|e] s1] eqn:E; apply Hm in E.
  - intros H%Hk. congruence.
  - by intros [= _ <-].
Qed.

Lemma stable_try {A} (m : M exn S A) h :
  stable f m -> (forall e k, h e = Some k -> stable f k) -> stable f (try_except m h).
Proof.
  intros Hm Hh s o s'. unfold try_except. destruct (m s) as [[a|e] s1] eqn:E; apply Hm in E.
  - by intros [= _ <-].
  - destruct (h e) as [k|] eqn:Ek; [|by intros [= _ <-]]. intros H%(Hh _ _ Ek). congruence.
Qed.

Lemma stable_foldM {A A'} (g : A' -> A -> M exn S A') l b :
  (forall b a, stable f (g b a)) -> stable f (foldM g l b).
Proof.
  intros Hg. revert b. induction l as [|a l IH]; intros b; simpl; [apply stable_ret|].
  apply stable_bind; auto.
Qed.
End stable.
#[local] Hint Resolve stable_ret stable_raise stable_lift stable_get stable_modify stable_bind stable_try stable_foldM : core.

Section at_least_once.
Context {W : Type} {MA : Machine W} {SH : Sha256Hex} {HM : Hmac} {JL : JsonLoads} {IO : IntOf}
  {FR : FloatRepr}.
Variable config : ShipperConfig.
Local Abbreviation max_events := (cfg_max_events config).
Local Abbreviation max_bytes := (cfg_max_payload_bytes config).
Local Abbreviation max_files := (spool_max_files config).
Implicit Types (s : shipper W) (sp : Spool).

(** Only the tailer writes the saved position. *)
Record quiet : Prop := {
  quiet_disk : forall w : W, state_text (disk_op w).2 = state_text w;
  quiet_time : forall w : W, state_text (time_ns w).2 = state_text w;
  quiet_clock : forall w : W, state_text (clock w).2 = state_text w;
  quiet_elsewhere : forall w : W, state_text (elsewhere w) = state_text w;
  quiet_sleep : forall d (w : W), state_text (sleep d w).2 = state_text w;
  quiet_post : forall url body headers (w : W), state_text (client_post url body headers w).2 = state_text w
}.
Hypothesis Hquiet : quiet.

Definition saved s : option pystr := state_text (machine s).

Lemma stable_machine {A} (m : M exn W A) : stable state_text m -> stable saved (on_machine m).
Proof.
  intros Hm s o s'. unfold on_machine, saved. destruct (m (machine s)) as [o1 w] eqn:E.
  intros [= _ <-]. simpl. by apply Hm in E.
Qed.

Lemma stable_disk : stable saved (on_machine (W := W) disk_op).
Proof. apply stable_machine. intros w o w' E. pose proof (quiet_disk Hquiet w) as H. by rewrite E in H. Qed.

Lemma stable_remove name : stable saved (remove (W := W) name).
Proof. unfold remove, set_spool. apply stable_bind; [apply stable_disk|intros _]. by apply stable_modify. Qed.

Lemma stable_put payload : stable saved (put (W := W) max_files payload).
Proof.
  unfold put, drop_oldest. apply stable_bind.
  { apply stable_bind; [auto|intros s]. destruct (pending (spool s)); case_match; auto using stable_remove. }
  intros _. apply stable_bind.
  { apply stable_machine. intros w o w' E. pose proof (quiet_time Hquiet w) as H.
    destruct (time_ns w) as [n w1]. injection E as _ <-. exact H. }
  intros ns. apply stable_bind; [apply stable_disk|intros _]. apply stable_bind.
  - apply stable_try; [apply stable_disk|]. intros e k Hk. destruct e; try done. injection Hk as <-.
    apply stable_bind; [apply stable_disk|auto].
  - intros _. by apply stable_modify.
Qed.

Lemma stable_tick : stable (fun st : Assemble.state W => state_text st.2) tick.
Proof.
  intros st o st'. unfold tick. pose proof (quiet_clock Hquiet st.2) as H.
  destruct (clock st.2) as [t w]. by intros [= _ <-].
Qed.

Lemma stable_build sess : stable (fun st : Assemble.state W => state_text st.2) (build_payload max_events max_bytes sess).
Proof.
  unfold build_payload. apply stable_bind; [auto|intros [p tr]].
  apply stable_bind; [destruct tr; auto|auto].
Qed.

Lemma stable_feed line : stable (fun st : Assemble.state W => state_text st.2) (feed max_events max_bytes line).
Proof.
  unfold feed, no_connect. destruct (parse_event line) as [e|].
  2: { apply stable_bind; [by apply stable_modify|auto]. }
  destruct (key_of _) as [k|]; [|auto]. unfold feed_event. apply stable_bind; [auto|intros st].
  apply stable_bind; [|intros sess].
  { destruct (dget k _); [auto|]. apply stable_bind; [apply stable_tick|intros t].
    apply stable_bind; [by apply stable_modify|auto]. }
  apply stable_bind; [apply stable_tick|intros t]. apply stable_bind; [auto|intros sess'].
  apply stable_bind; [by apply stable_modify|intros _].
  destruct (negb (is_event _ _)); [auto|]. apply stable_bind; [by apply stable_modify|intros _].
  destruct (negb _); (apply stable_bind; [|auto]); [by apply stable_modify|apply stable_build].
Qed.

Lemma stable_flush ids : stable (fun st : Assemble.state W => state_text st.2) (_flush max_events max_bytes ids).
Proof.
  apply stable_foldM. intros b k. unfold flush_one. apply stable_bind; [auto|intros st].
  destruct (dget k _) as [sess|]; [|auto]. apply stable_bind; [by apply stable_modify|intros _].
  destruct (negb _); (apply stable_bind; [|auto]); [by apply stable_modify|apply stable_build].
Qed.

Lemma stable_assembler {A} (m : M exn (Assemble.state W) A) :
  stable (fun st => state_text st.2) m -> stable saved (on_assembler m).
Proof.
  intros Hm s o s'. unfold on_assembler, saved. destruct (m (assembler s, machine s)) as [o1 a] eqn:E.
  intros [= _ <-]. simpl. by apply Hm in E.
Qed.

Lemma stable_spool lines : stable saved (_spool_new_payloads config lines).
Proof.
  assert (Hput : forall ps, stable saved (put_all (W := W) config ps)).
  { intros ps. apply stable_foldM. intros _ p. apply stable_put. }
  unfold _spool_new_payloads, feed_line. apply stable_bind.
  - apply stable_foldM. intros _ line. apply stable_bind; [apply stable_assembler, stable_feed|auto].
  - intros _. apply stable_bind; [|auto]. apply stable_assembler. unfold flush_idle.
    apply stable_bind; [apply stable_tick|intros now]. apply stable_bind; [auto|intros st]. apply stable_flush.
Qed.
Lemma drain_open_dir c b (t t' : tail W) o : _drain_open_file c b t = (o, t') -> dir t' = dir t.
Proof.
  unfold _drain_open_file. destruct (_file (self t)) as [f|]; [|by intros [= _ <-]].
  destruct (drain_bytes _ _ _ _) as [[[at_eof kept] dropped] cur].
  repeat case_match; by intros [= _ <-].
Qed.

Lemma open_dir (t t' : tail W) o : _open_at_saved_offset t = (o, t') ->
  state_text (dir t') = state_text (dir t).
Proof.
  unfold _open_at_saved_offset. destruct (path_open (dir t)); [|by intros [= _ <-]]. simpl.
  rewrite <- (quiet_elsewhere Hquiet (dir t)).
  destruct (path_stat _); [|by intros [= _ <-]].
  destruct (_load_state _) as [[ts|]|]; [|by intros [= _ <-]..].
  repeat case_match; by intros [= _ <-].
Qed.

(** Reading with the commit left for later writes nothing. *)
Lemma stable_read c b : stable (fun t : tail W => state_text (dir t)) (read_new_lines c b false).
Proof.
  assert (Hdrain : stable (fun t : tail W => state_text (dir t)) (_drain_open_file c b)).
  { intros t1 o t2 E%drain_open_dir. by rewrite E. }
  intros t o t'. unfold read_new_lines. unfold mbind at 1, M_bind at 1, get at 1.
  destruct (_file (self t)).
  - lazymatch goal with |- ?m t = _ -> _ =>
      enough (Hk : stable (fun t : tail W => state_text (dir t)) m) by (intros E; by apply Hk in E) end.
    apply stable_bind; [destruct (path_stat _); auto|intros _].
    apply stable_bind; [done|intros ls]. apply stable_bind; [auto|intros t1].
    apply stable_bind; [case_match; auto|auto].
  - destruct (_open_at_saved_offset t) as [o1 t1] eqn:E. apply open_dir in E.
    unfold mbind, M_bind, Prelude.put, raise, mret, M_ret. destruct o1 as [[]|[e|errno]].
    + destruct (_drain_open_file c b _) as [[ls|e] t2] eqn:Ed; apply Hdrain in Ed;
        intros [= _ <-]; by rewrite Ed.
    + by intros [= _ <-].
    + case_match; by intros [= _ <-].
Qed.

(** One [put], and a sequence of them. *)
Definition put_effect sp payload sp' : Prop :=
  exists ns base, files sp' = dset (spool_name ns payload) payload base /\
    dead_files sp' = dead_files sp /\
    (base = files sp \/ max_files <= py_len (files sp) /\
       exists oldest rest, pending sp = oldest :: rest /\ base = ddel oldest (files sp)).
Inductive spooled : Spool -> list pybytes -> Spool -> Prop :=
| spooled_nil sp : spooled sp [] sp
| spooled_cons sp p sp1 ps sp2 : put_effect sp p sp1 -> spooled sp1 ps sp2 -> spooled sp (p :: ps) sp2.

Lemma spooled_app sp1 ps sp2 qs sp3 : spooled sp1 ps sp2 -> spooled sp2 qs sp3 -> spooled sp1 (ps ++ qs) sp3.
Proof. induction 1; simpl; [done|]. intros. econstructor; eauto. Qed.

Lemma pending_length sp : py_len (pending sp) = py_len (files sp).
Proof. unfold py_len. rewrite (pending_perm sp). unfold dkeys. by rewrite length_map. Qed.

Lemma remove_spec name s o s' : remove name s = (o, s') ->
  tailer s' = tailer s /\ assembler s' = assembler s /\ consecutive s' = consecutive s /\
  (o = Ret tt -> files (spool s') = ddel name (files (spool s)) /\
                 dead_files (spool s') = dead_files (spool s)).
Proof.
  unfold remove, set_spool. m_unfold. destruct (on_machine disk_op s) as [[[]|e] s1] eqn:E;
    apply on_machine_spec in E as (Hs & Hc & Ht & Ha & _); intros [= <- <-]; simpl; [|done].
  by rewrite Hs, Hc, Ht, Ha.
Qed.

Lemma put_spec p s s' : put max_files p s = (Ret tt, s') ->
  tailer s' = tailer s /\ assembler s' = assembler s /\ consecutive s' = consecutive s /\
  put_effect (spool s) p (spool s').
Proof.
  unfold put, set_spool. unfold mbind at 1, M_bind at 1.
  destruct (drop_oldest max_files s) as [[[]|e] s1] eqn:E1; [|done].
  assert (H1 : tailer s1 = tailer s /\ assembler s1 = assembler s /\ consecutive s1 = consecutive s /\
    dead_files (spool s1) = dead_files (spool s) /\
    (files (spool s1) = files (spool s) \/ max_files <= py_len (files (spool s)) /\
       exists oldest rest, pending (spool s) = oldest :: rest /\ files (spool s1) = ddel oldest (files (spool s)))).
  { unfold drop_oldest, mbind, M_bind, get in E1. rewrite <- pending_length.
    destruct (pending (spool s)) as [|oldest rest] eqn:Ep.
    - destruct (max_files <=? 0); unfold raise, mret, M_ret in E1; [done|].
      injection E1 as <-. split_and!; auto.
    - destruct (Z.leb_spec max_files (py_len (oldest :: rest))).
      + apply remove_spec in E1 as (? & ? & ? & Hr). destruct (Hr eq_refl). split_and!; auto.
        right. eauto.
      + unfold mret, M_ret in E1. injection E1 as <-. split_and!; auto. }
  clear E1. m_unfold.
  destruct (on_machine (fun w => let '(n, w') := time_ns w in (Ret n, w')) s1) as [[ns|e] s2] eqn:E2; [|done].
  destruct (on_machine disk_op s2) as [[[]|e] s3] eqn:E3; [|done].
  apply on_machine_spec in E2 as (Hs2 & Hc2 & Ht2 & Ha2 & _).
  apply on_machine_spec in E3 as (Hs3 & Hc3 & Ht3 & Ha3 & _).
  destruct (on_machine disk_op s3) as [[[]|e] s4] eqn:E4.
  2: { destruct e; try done. by destruct (on_machine disk_op s4) as [[[]|e] s5]. }
  apply on_machine_spec in E4 as (Hs4 & Hc4 & Ht4 & Ha4 & _).
  intros [= <-]. simpl. destruct H1 as (? & ? & ? & ? & Hf).
  split_and!; [congruence..|]. exists ns, (files (spool s1)). simpl.
  rewrite Hs4, Hs3, Hs2. by split_and!.
Qed.

Lemma put_all_spec ps s s' : put_all config ps s = (Ret tt, s') ->
  tailer s' = tailer s /\ assembler s' = assembler s /\ consecutive s' = consecutive s /\
  spooled (spool s) ps (spool s').
Proof.
  unfold put_all. revert s. induction ps as [|p ps IH]; intros s; simpl.
  { unfold mret, M_ret. intros [= <-]. split_and!; [done..|constructor]. }
  unfold mbind, M_bind. destruct (put max_files p s) as [[[]|e] s1] eqn:E; [|done].
  apply put_spec in E as (Ht & Ha & Hc & He). intros (Ht' & Ha' & Hc' & Hs)%IH.
  split_and!; [congruence..|]. by econstructor.
Qed.
(** What the lines call for: the payload of each session they close, in order. *)
Fixpoint reference (lines : list pystr) (j : journal) : outcome exn (list pybytes * journal) :=
  match lines with
  | [] => Ret ([], j)
  | line :: lines' =>
      match parse_event line with
      | None => reference lines' j
      | Some e =>
          match key_of (field "session" e) with
          | None => Raise TypeError
          | Some k =>
              ps ← (if is_event CLOSED_EVENT e then shipped max_events max_bytes (j k ++ [e]) else Ret []);
              '(qs, j') ← reference lines' (record k e j);
              Ret (ps ++ qs, j')
          end
      end
  end.

Hypothesis max_events_ok : (2 <= max_events)%nat.

Lemma assembling_any a (w w' : W) j : assembling max_events (a, w) j -> assembling max_events (a, w') j.
Proof. intros [Hk Hs]. by split. Qed.

Lemma feed_lines_spec lines s s' j :
  assembling max_events (assembler s, machine s) j -> foldM (feed_line config) lines tt s = (Ret tt, s') ->
  exists ps j', reference lines j = Ret (ps, j') /\ spooled (spool s) ps (spool s') /\
    assembling max_events (assembler s', machine s') j' /\ tailer s' = tailer s.
Proof.
  revert s j. induction lines as [|line lines IH]; intros s j Ha.
  { simpl. unfold mret, M_ret. intros [= <-]. exists [], j. split_and!; [done|constructor|done..]. }
  cbn [foldM]. unfold mbind at 1, M_bind at 1.
  destruct (feed_line config tt line s) as [[[]|e] s1] eqn:E; [|done].
  unfold feed_line, mbind, M_bind, on_assembler in E.
  destruct (feed max_events max_bytes line (assembler s, machine s)) as [o1 [a1 w1]] eqn:Ef.
  apply feed_is_reference_aux with (j := j) in Ef; [|done..]. destruct o1 as [payloads|e]; [|done].
  apply put_all_spec in E as (Ht1 & Ha1 & Hc1 & Hs1). simpl in Ht1, Ha1, Hs1.
  intros H.
  assert (Hone : exists ps j1, payloads = ps /\ assembling max_events (assembler s1, machine s1) j1 /\
    reference (line :: lines) j = ('(qs, j') ← reference lines j1; Ret (ps ++ qs, j'))).
  { cbn [reference]. destruct (parse_event line) as [e|].
    - destruct (key_of (field "session" e)) as [k|]; [|by destruct Ef].
      destruct Ef as [Has Hp]. exists payloads, (record k e j). split_and!; [done| |].
      + rewrite Ha1. by eapply assembling_any.
      + by rewrite <- Hp.
    - destruct Ef as [[= ->] Has]. exists [], j. split_and!; [done| |].
      + rewrite Ha1. by eapply assembling_any.
      + by destruct (reference lines j) as [[qs j']|]. }
  destruct Hone as (ps & j1 & -> & Has & ->).
  destruct (IH s1 j1 Has H) as (qs & j' & -> & Hs & Ha' & Ht). exists (ps ++ qs), j'.
  split_and!; [done|by eapply spooled_app|done|congruence].
Qed.

(** C9: delivery is at least once from the moment a line is read: the saved position moves
    only after every payload the lines call for, and those of idle sessions, has been
    written to the spool in order, each in its own file; if anything fails before that, a
    restart reads the same lines again. *)
Theorem run_once_at_least_once s o s' j :
  assembling max_events (assembler s, machine s) j -> run_once config s = (o, s') ->
  saved s' = saved s \/
  exists lines s1 s2 ps j' idle,
    on_tailer (read_new_lines (cfg_read_chunk_bytes config) (cfg_max_batch_lines config) false) s = (Ret lines, s1) /\
    _spool_new_payloads config lines s1 = (Ret tt, s2) /\
    reference lines j = Ret (ps, j') /\ spooled (spool s) (ps ++ idle) (spool s2) /\
    saved s2 = saved s.
Proof.
  intros Ha. unfold run_once. unfold mbind at 1, M_bind at 1.
  destruct (on_tailer _ s) as [[lines|e] s1] eqn:Et.
  - assert (Hs1 : saved s1 = saved s /\ assembler s1 = assembler s /\ spool s1 = spool s).
    { unfold on_tailer in Et. destruct (read_new_lines _ _ _ _) as [o1 t1] eqn:Er.
      apply stable_read in Er. injection Et as _ <-. done. }
    destruct Hs1 as (Hs1 & Ha1 & Hsp1).
    unfold mbind at 1, M_bind at 1.
    destruct (_spool_new_payloads config lines s1) as [[[]|e] s2] eqn:Es.
    + intros _. right. pose proof (stable_spool lines _ _ _ Es) as Hs2.
      pose proof Es as Es'. unfold _spool_new_payloads, mbind, M_bind in Es'.
      destruct (foldM (feed_line config) lines tt s1) as [[[]|e] s3] eqn:Ef; [|done].
      apply feed_lines_spec with (j := j) in Ef as (ps & j' & Hr & Hsp & _);
        [|rewrite Ha1; by eapply assembling_any].
      destruct (on_assembler _ s3) as [[idle|e] s4] eqn:Ei; [|done].
      assert (Hsp4 : spool s4 = spool s3).
      { unfold on_assembler in Ei. destruct (flush_idle _ _ _ _) as [oi ai]. by injection Ei as _ <-. }
      apply put_all_spec in Es' as (_ & _ & _ & Hidle).
      exists lines, s1, s2, ps, j', idle. split_and!; [done..| |congruence].
      rewrite <- Hsp1. eapply spooled_app; [done|]. by rewrite <- Hsp4.
    + intros [= _ <-]. left. apply stable_spool in Es. congruence.
  - intros [= _ <-]. left. unfold on_tailer in Et.
    destruct (read_new_lines _ _ _ _) as [o1 t1] eqn:Er. apply stable_read in Er. by injection Et as _ <-.
Qed.
End at_least_once.

(** ** [config.py] *)

(** A binary64: a [float] as the library has it, an infinity or a NaN. *)
Inductive pyfloat : Type := Fin (x : float) | PosInf | NegInf | NaN.

(** [float(text)] and [int(text)], [None] for a [ValueError]. *)
Class NumberText : Type := {
  parse_float : pystr -> option pyfloat;
  parse_int : pystr -> option Z
}.

(** [value <= 0], false of a NaN. *)
Definition le_zero (v : pyfloat) : bool :=
  match v with Fin x => x <=? 0 | NegInf => true | PosInf | NaN => false end.

Record EnvConfig : Type := {
  env_ingest_url : pystr;
  env_hmac_secret : pystr;
  env_log_path : pystr;
  env_state_dir : pystr;
  env_idle_flush_s : pyfloat;
  env_max_events : Z;
  env_max_payload_bytes : Z;
  env_post_timeout_s : pyfloat;
  env_backoff_base_s : pyfloat;
  env_backoff_max_s : pyfloat;
  env_spool_max_files : Z;
  env_poll_interval_s : pyfloat;
  env_read_chunk_bytes : Z;
  env_max_batch_lines : Z
}.

Definition _LOG_PATH_DEFAULT : pystr := u "/opt/sentinelbrief-honeypot/data/log/cowrie.json".
Definition _STATE_DIR_DEFAULT : pystr := u "/var/lib/sentinelbrief-shipper".

Section config.
Context {NT : NumberText}.
Variable env : list (pystr * pystr).

Definition _positive_float (name : pystr) (dflt : pyfloat) : outcome exn pyfloat :=
  match dget name env with
  | None => Ret dflt
  | Some raw =>
      match parse_float raw with
      | None => Raise (ValueError (name ++ u " must be a positive number"))
      | Some value =>
          if le_zero value then Raise (ValueError (name ++ u " must be a positive number")) else Ret value
      end
  end.

Definition _positive_int (name : pystr) (dflt minimum : Z) : outcome exn Z :=
  match dget name env with
  | None => Ret dflt
  | Some raw =>
      let message := if minimum <=? 1 then name ++ u " must be a positive number"
                     else name ++ u " must be an integer >= " ++ str_of_Z minimum in
      match parse_int raw with
      | None => Raise (ValueError message)
      | Some value => if value <? minimum then Raise (ValueError message) else Ret value
      end
  end.

Definition required (name : pystr) : outcome exn pystr :=
  match dget name env with
  | None | Some [] => Raise (ValueError (name ++ u " is required"))
  | Some v => Ret v
  end.

Definition from_env : outcome exn EnvConfig :=
  ingest_url ← required (u "SHIPPER_INGEST_URL");
  hmac_secret ← required (u "INGEST_HMAC_SECRET");
  let log_path := default _LOG_PATH_DEFAULT (dget (u "SHIPPER_LOG_PATH") env) in
  let state_dir := default _STATE_DIR_DEFAULT (dget (u "SHIPPER_STATE_DIR") env) in
  idle_flush_s ← _positive_float (u "SHIPPER_IDLE_FLUSH_S") (Fin (flt 900));
  max_events ← _positive_int (u "SHIPPER_MAX_EVENTS") 2000 2;
  max_payload_bytes ← _positive_int (u "SHIPPER_MAX_PAYLOAD_BYTES") 1500000 1;
  post_timeout_s ← _positive_float (u "SHIPPER_POST_TIMEOUT_S") (Fin (flt 10));
  backoff_base_s ← _positive_float (u "SHIPPER_BACKOFF_BASE_S") (Fin (flt 2));
  backoff_max_s ← _positive_float (u "SHIPPER_BACKOFF_MAX_S") (Fin (flt 300));
  spool_max_files ← _positive_int (u "SHIPPER_SPOOL_MAX_FILES") 10000 1;
  poll_interval_s ← _positive_float (u "SHIPPER_POLL_INTERVAL_S") (Fin (flt 1));
  read_chunk_bytes ← _positive_int (u "SHIPPER_READ_CHUNK_BYTES") (8 * 1024 * 1024) 1;
  max_batch_lines ← _positive_int (u "SHIPPER_MAX_BATCH_LINES") 2000 1;
  Ret {| env_ingest_url := ingest_url; env_hmac_secret := hmac_secret; env_log_path := log_path;
         env_state_dir := state_dir; env_idle_flush_s := idle_flush_s; env_max_events := max_events;
         env_max_payload_bytes := max_payload_bytes; env_post_timeout_s := post_timeout_s;
         env_backoff_base_s := backoff_base_s; env_backoff_max_s := backoff_max_s;
         env_spool_max_files := spool_max_files; env_poll_interval_s := poll_interval_s;
         env_read_chunk_bytes := read_chunk_bytes; env_max_batch_lines := max_batch_lines |}.

Lemma positive_float_spec name x v : _positive_float name (Fin (flt x)) = Ret v -> 0 < x ->
  le_zero v = false.
Proof.
  unfold _positive_float. intros H Hx. destruct (dget name env).
  - destruct (parse_float _) as [w|]; [|done]. destruct (le_zero w) eqn:E; [done|]. by injection H as <-.
  - injection H as <-. simpl. pose proof fone_pos. unfold flt. nia.
Qed.

Lemma positive_int_spec name n m v : _positive_int name n m = Ret v -> m <= n -> m <= v.
Proof.
  unfold _positive_int. intros H Hn. destruct (dget name env); [|by injection H as <-].
  destruct (parse_int _) as [w|]; [|done]. destruct (Z.ltb_spec w m); [done|]. by injection H as <-.
Qed.

(** Exactly the variables a message may name: it holds no configured value. *)
Definition numeric_message (name : pystr) (msg : pystr) : Prop :=
  msg = name ++ u " must be a positive number" \/
  (exists m, msg = name ++ u " must be an integer >= " ++ str_of_Z m).

(** A configuration that starts has a URL, a secret and every bound the components
    rely on: at least two events a session, positive sizes, no float at or below zero (a
    NaN passes the test, as it compares false); any other environment is refused with a
    [ValueError] whose message holds the variable's name and none of its value. *)
Theorem from_env_validates o : from_env = o ->
  match o with
  | Ret c =>
      env_ingest_url c <> [] /\ env_hmac_secret c <> [] /\ 2 <= env_max_events c /\
      1 <= env_max_payload_bytes c /\ 1 <= env_spool_max_files c /\ 1 <= env_read_chunk_bytes c /\
      1 <= env_max_batch_lines c /\
      Forall (fun v => le_zero v = false)
        [env_idle_flush_s c; env_post_timeout_s c; env_backoff_base_s c; env_backoff_max_s c;
         env_poll_interval_s c]
  | Raise e =>
      exists name msg, e = ValueError msg /\ name ∈ [u "SHIPPER_INGEST_URL"; u "INGEST_HMAC_SECRET";
        u "SHIPPER_IDLE_FLUSH_S"; u "SHIPPER_MAX_EVENTS"; u "SHIPPER_MAX_PAYLOAD_BYTES";
        u "SHIPPER_POST_TIMEOUT_S"; u "SHIPPER_BACKOFF_BASE_S"; u "SHIPPER_BACKOFF_MAX_S";
        u "SHIPPER_SPOOL_MAX_FILES"; u "SHIPPER_POLL_INTERVAL_S"; u "SHIPPER_READ_CHUNK_BYTES";
        u "SHIPPER_MAX_BATCH_LINES"] /\ (msg = name ++ u " is required" \/ numeric_message name msg)
  end.
Proof.
  assert (Hreq : forall name e, required name = Raise e -> e = ValueError (name ++ u " is required")).
  { intros name e. unfold required. destruct (dget name env) as [[|]|]; congruence. }
  assert (Hreq' : forall name v, required name = Ret v -> v <> []).
  { intros name v. unfold required. by destruct (dget name env) as [[|]|]; intros [= <-]. }
  assert (Hfl : forall name d e, _positive_float name d = Raise e ->
            exists msg, e = ValueError msg /\ numeric_message name msg).
  { intros name d e. unfold _positive_float, numeric_message. repeat case_match; intros [= <-]; eauto. }
  assert (Hin : forall name d m e, _positive_int name d m = Raise e ->
            exists msg, e = ValueError msg /\ numeric_message name msg).
  { intros name d m e. unfold _positive_int, numeric_message. repeat case_match; intros [= <-]; eauto. }
  intros <-. unfold from_env, mbind, outcome_bind. cbv zeta.
  repeat match goal with
    | |- context [match required ?n with _ => _ end] => destruct (required n) as [?|?] eqn:?
    | |- context [match _positive_float ?n ?d with _ => _ end] => destruct (_positive_float n d) as [?|?] eqn:?
    | |- context [match _positive_int ?n ?d ?m with _ => _ end] => destruct (_positive_int n d m) as [?|?] eqn:?
    end.
  all: try solve [match goal with
    | H : required ?n = Raise _ |- _ => apply Hreq in H as ->; exists n; eexists; split; [done|]
    | H : _positive_float ?n _ = Raise _ |- _ => apply Hfl in H as (msg & -> & Hm); exists n, msg; split; [done|]
    | H : _positive_int ?n _ _ = Raise _ |- _ => apply Hin in H as (msg & -> & Hm); exists n, msg; split; [done|]
    end; (split; [rewrite !elem_of_cons; tauto|auto])].
  assert (Hp : forall n x v, _positive_float n (Fin (flt x)) = Ret v -> 0 < x -> le_zero v = false)
    by apply positive_float_spec.
  simpl. split_and!; try (eapply Hreq'; eassumption); try (eapply positive_int_spec; [eassumption|lia]).
  repeat constructor; eapply Hp; try eassumption; lia.
Qed.
End config.

(** ** The API's side of a delivery *)

(** What the shipper sends passes the API's signature check under the same secret: the
    vendored signature is the header [verify_signature] accepts, for every body, and under
    any secret it accepts no other. *)
Theorem post_signature_verifies {HM : Hmac} secret body h :
  secret <> [] -> sign_body secret body = Ret h ->
  dget (u "X-Signature") (post_headers h) = Some h /\
  forall h', Signing.verify_signature secret body (Some h') = Ret true <-> h' = h.
Proof.
  intros Hs Hh. split; [reflexivity|]. intros h'. rewrite verify_signature_iff.
  change (Signing.sign_body secret body) with (sign_body secret body). rewrite Hh. naive_solver.
Qed.

(** ** One delivery *)

Module Toy.
Export Assemble.Toy.

(** The statuses the API answers next (none: the connection fails), the time and the saved
    position. *)
Record world : Type := World { replies : list Z; at_ns : Z; position : option pystr }.

#[export] Instance log : LogDir world := {
  path_stat _ := Ret 1; path_open _ := Ret 1; content _ _ := [0; NL; 2; NL; 1; NL];
  state_text := position; write_state t w := (Ret tt, World (replies w) (at_ns w) (Some t));
  elsewhere w := w
}.
#[export] Instance now : Clock world := fun w => (0, w).
#[export] Instance machine : Machine world := {
  disk_op w := (Ret tt, w);
  time_ns w := (at_ns w, World (replies w) (at_ns w + 1) (position w));
  client_post _ _ _ w :=
    match replies w with
    | [] => (Raise HTTPError, w)
    | st :: rest => (Ret st, World rest (at_ns w) (position w))
    end;
  sleep _ w := (Ret tt, w)
}.
#[export] Instance sha : Sha256Hex := fun _ => u "00000000".
Lemma hex_ascii (k b : pybytes) : is_ascii (u "ab") = true.
Proof. reflexivity. Qed.
#[export] Instance hmac : Hmac := {| hmac_hexdigest _ _ := u "ab"; hmac_hexdigest_ascii := hex_ascii |}.
#[export] Instance ints : IntOf := {
  int_of j := match j with JInt n => Ret n | _ => Raise TypeError end; int_of_int n := eq_refl
}.
#[export] Instance numbers : NumberText := {
  parse_float t := if bool_decide (t = u "nan") then Some NaN else None;
  parse_int t := match t with [c] => Some (c - 48) | _ => None end
}.

Definition config : ShipperConfig :=
  {| ingest_url := u "u"; hmac_secret := u "k"; cfg_idle_flush_s := flt 900; cfg_max_events := 2000;
     cfg_max_payload_bytes := 1500000; backoff_base_s := flt 2; backoff_max_s := flt 300;
     spool_max_files := 10; poll_interval_s := flt 1; cfg_read_chunk_bytes := 64;
     cfg_max_batch_lines := 10 |}.
Definition empty_assembler : SessionAssembler :=
  Assembler [] {| parse_errors := 0; dropped_no_connect := 0; truncated_sessions := 0 |}.
Definition spooled_files : Spool :=
  {| files := [(u "b.json", [2]); (u "a.json", [1]); (u "c.json", [3])]; dead_files := [] |}.
Definition with_replies (rs : list Z) (n : Z) : shipper world :=
  Shipper tailer0 empty_assembler spooled_files n (World rs 0 None).
Definition start : shipper world :=
  Shipper tailer0 empty_assembler {| files := []; dead_files := [] |} 0 (World [202] 0 None).
Lemma all_quiet : quiet (W := world).
Proof. split; try done. intros url body headers w. simpl. by destruct (replies w). Qed.
Lemma empty_assembling (w : world) : assembling 2000 (empty_assembler, w) (fun _ => []).
Proof. split; [constructor|done]. Qed.
End Toy.
Import Toy.

(** Accepted, refused for good, then busy: the third stays, the second is in [dead/]. *)
Lemma drain_fifo_nothing_lost_witness :
  let s' := (drain (flt 2) (flt 300) (u "u") (u "k") (with_replies [202; 422; 503] 5)).2 in
  dead_files (spool s') = [(u "b.json", [2])] /\ files (spool s') = [(u "c.json", [3])] /\
  dget (u "c.json") (files (spool s')) = Some [3].
Proof.
  intros s'.
  assert (Hn : NoDup (dkeys (files (spool (with_replies [202; 422; 503] 5))))).
  { apply (bool_decide_unpack _). vm_compute. exact I. }
  assert (E : drain (flt 2) (flt 300) (u "u") (u "k") (with_replies [202; 422; 503] 5) = (Ret 1, s'))
    by (vm_compute; reflexivity).
  destruct (drain_fifo_nothing_lost (flt 2) (flt 300) (u "u") (u "k") _ _ s' Hn E)
    as (settled & rest & Hp & [_ Hothers] & Hret).
  split_and!; vm_compute; reflexivity.
Defined.

(** The wait after 1024 of them. *)
Lemma backoff_wait_bounded_witness :
  (wait (flt 2) (flt 300) (with_replies [] 1024)).1 = Raise OverflowError.
Proof.
  destruct (wait (flt 2) (flt 300) (with_replies [] 1024)) as [o s'] eqn:E.
  pose proof fone_pos as Hf.
  destruct (backoff_wait_bounded (flt 2) (flt 300) (with_replies [] 1024) o s' ltac:(unfold flt; lia) ltac:(unfold flt; lia)
              ltac:(simpl; lia) E) as (_ & H & _).
  apply H. simpl. lia.
Defined.

Lemma run_once_at_least_once_witness :
  let s' := (run_once config start).2 in
  saved s' <> saved start /\ exists lines s1 s2,
    _spool_new_payloads config lines s1 = (Ret tt, s2) /\ saved s2 = None.
Proof.
  intros s'. destruct (run_once config start) as [o s2] eqn:E.
  assert (Hne : saved s2 <> None).
  { assert (Hs : saved (run_once config start).2 <> None) by (vm_compute; discriminate).
    rewrite E in Hs. exact Hs. }
  split; [exact Hne|].
  destruct (run_once_at_least_once config all_quiet ltac:(simpl; lia) start o s2 _ (empty_assembling _) E)
    as [H|(lines & s3 & s4 & ps & j' & idle & _ & Hs & _ & _ & Hsaved)]; [destruct (Hne H)|].
  exists lines, s3, s4. split; [exact Hs|exact Hsaved].
Defined.

Lemma from_env_validates_witness :
  exists c, from_env [(u "SHIPPER_INGEST_URL", u "u"); (u "INGEST_HMAC_SECRET", u "k");
                      (u "SHIPPER_POLL_INTERVAL_S", u "nan"); (u "SHIPPER_MAX_EVENTS", u "2")] = Ret c /\
    env_poll_interval_s c = NaN /\ 2 <= env_max_events c.
Proof.
  destruct (from_env [(u "SHIPPER_INGEST_URL", u "u"); (u "INGEST_HMAC_SECRET", u "k");
                      (u "SHIPPER_POLL_INTERVAL_S", u "nan"); (u "SHIPPER_MAX_EVENTS", u "2")]) as [c|e] eqn:E.
  - exists c. pose proof (from_env_validates _ _ E) as (_ & _ & Hm & _).
    split_and!; [reflexivity| |exact Hm]. vm_compute in E. injection E as <-. reflexivity.
  - vm_compute in E. discriminate E.
Defined.

Lemma post_signature_verifies_witness :
  Signing.verify_signature (u "k") [1] (Some (u "sha256=ab")) = Ret true.
Proof.
  destruct (post_signature_verifies (HM := hmac) (u "k") [1] (u "sha256=ab") ltac:(discriminate) eq_refl) as [_ H].
  apply H. reflexivity.
Defined.
