(* ===== verification/Service.v ===== *)
(** * Service: the shipper from its start to its stop

    [honeypot/shipper/sentinelbrief_shipper/main.py]'s [main]: the environment, the
    directories, the loop over any number of rounds, and the flush of a requested stop. *)

From S2P Require Import Prelude Errors Json Datetime Text Signing Cli Command Tail Assemble Shipper.
#[local] Open Scope Z_scope.

(** ** Flushing *)

Section flushing.
Context {W : Type} {CL : Clock W} {JL : JsonLoads} {FR : FloatRepr}.
Variables (max_events : nat) (max_payload_bytes : Z).
Hypothesis max_events_ok : (2 <= max_events)%nat.
Implicit Types (st : Assemble.state W) (j : journal).

(** The journals once the sessions of [ids] are forgotten, and what flushing them ships. *)
Definition forget (ids : list key) j : journal := fun k => if decide (k ∈ ids) then [] else j k.
Fixpoint ship_all (ids : list key) j : outcome exn (list pybytes) :=
  match ids with
  | [] => Ret []
  | k :: ids' =>
      ps ← shipped max_events max_payload_bytes (j k);
      qs ← ship_all ids' j;
      Ret (ps ++ qs)
  end.

Lemma ship_all_congr ids j j' : (forall k, k ∈ ids -> j k = j' k) -> ship_all ids j = ship_all ids j'.
Proof.
  induction ids as [|k ids IH]; intros H; simpl; [done|]. rewrite (H k) by (by left).
  by rewrite IH by (intros k' Hk; apply H; by right).
Qed.

Lemma flush_one_spec k ps st j out st' : assembling max_events st j -> k ∈ dkeys (_sessions st.1) ->
  flush_one max_events max_payload_bytes ps k st = (Ret out, st') ->
  exists qs, shipped max_events max_payload_bytes (j k) = Ret qs /\ out = ps ++ qs /\
    assembling max_events st' (forget [k] j) /\ _sessions st'.1 = ddel k (_sessions st.1).
Proof.
  intros Ha Hk H. pose proof (as_sessions _ _ _ Ha k) as Hs. unfold flush_one in H. m_unfold.
  destruct (dget k (_sessions st.1)) as [s|] eqn:E; [|done].
  destruct (payload_of_represents max_events max_payload_bytes max_events_ok _ _ Hs) as [Hp Hc].
  assert (Hend : forall st2, _sessions st2.1 = ddel k (_sessions st.1) -> assembling max_events st2 (forget [k] j)).
  { intros st2 Hst2. eapply (assembling_del max_events k); [exact Ha| | |exact Hst2]; unfold forget.
    - by rewrite decide_True by (by left).
    - intros k' Hne. by rewrite decide_False by (by intros ->%list_elem_of_singleton). }
  unfold shipped. rewrite <- Hc, <- Hp.
  destruct (has_connect s); cbn [negb] in H.
  - unfold build_payload in H. m_unfold.
    destruct (payload_of max_events max_payload_bytes s) as [[p tr]|e]; simpl in H |- *; [|done].
    destruct tr; injection H as <- <-; eexists; (split_and!; [done|done|by apply Hend|done]).
  - unfold no_connect, modify in H. injection H as <- <-. exists []. rewrite app_nil_r. by split_and!; [| |apply Hend|].
Qed.

Lemma flush_spec ids ps st j out st' : assembling max_events st j -> NoDup ids -> ids ⊆ dkeys (_sessions st.1) ->
  foldM (flush_one max_events max_payload_bytes) ids ps st = (Ret out, st') ->
  exists qs, ship_all ids j = Ret qs /\ out = ps ++ qs /\ assembling max_events st' (forget ids j) /\
    forall k s, dget k (_sessions st'.1) = Some s -> dget k (_sessions st.1) = Some s.
Proof.
  revert ps st j. induction ids as [|k ids IH]; intros ps st j Ha Hn Hin.
  { simpl. unfold mret, M_ret. intros [= <- <-]. exists []. rewrite app_nil_r. split_and!; [done..| |done].
    destruct Ha as [Hk Hs]. by split. }
  apply NoDup_cons in Hn as [Hk Hn]. cbn [foldM]. unfold mbind at 1, M_bind at 1.
  destruct (flush_one _ _ ps k st) as [[ps1|e] st1] eqn:E; [|done].
  apply flush_one_spec with (j := j) in E as (qs & Hq & -> & Ha1 & Hs1); [|done|apply Hin; by left].
  intros H. apply IH with (j := forget [k] j) in H as (rs & Hr & -> & Ha2 & Hkept); [|done..|].
  - exists (qs ++ rs). cbn [ship_all]. rewrite Hq. simpl.
    rewrite (ship_all_congr ids j (forget [k] j)), Hr.
    2:{ intros k' Hk'. unfold forget. by rewrite decide_False by (by intros ->%list_elem_of_singleton). }
    rewrite app_assoc. split_and!; [done..| |].
    2:{ intros k' s Hd%Hkept. rewrite Hs1 in Hd. destruct (decide (k' = k)) as [->|Hne]; [|by rewrite dget_ddel_ne in Hd].
        rewrite dget_ddel_eq in Hd; [done|apply (as_keys _ _ _ Ha)]. }
    destruct Ha2 as [H1 H2]. split; [done|]. intros k'. specialize (H2 k').
    unfold forget in *. destruct (decide (k' ∈ k :: ids)) as [Hx|Hx].
    + destruct (decide (k' ∈ ids)); [done|]. apply elem_of_cons in Hx as [->|]; [|done].
      by rewrite decide_True in H2 by (by left).
    + rewrite not_elem_of_cons in Hx. destruct Hx as [Hx1 Hx2]. rewrite decide_False in H2 by done.
      by rewrite decide_False in H2 by (by intros ->%list_elem_of_singleton).
  - intros k' Hk'. rewrite Hs1. assert (Hd : k' ∈ dkeys (_sessions st.1)) by (apply Hin; by right).
    destruct (dget k' (ddel k (_sessions st.1))) eqn:Ed; [by eapply dget_Some_key|].
    rewrite dget_ddel_ne in Ed by congruence. by apply dget_None in Ed.
Qed.

(** [h] is when each open session last heard a line. *)
Definition hears st (h : key -> float) : Prop :=
  forall k s, dget k (_sessions st.1) = Some s -> last_seen s = h k.

(** The sessions an idle flush takes, each once, are those with a line in their journal and
    none for [idle] seconds by the clock it reads. *)
Lemma flush_idle_spec idle st j h out st' : assembling max_events st j -> hears st h ->
  flush_idle idle max_events max_payload_bytes st = (Ret out, st') ->
  exists ids, ship_all ids j = Ret out /\ assembling max_events st' (forget ids j) /\ hears st' h /\ NoDup ids /\
    forall k, k ∈ ids <-> j k <> [] /\ idle <= (clock st.2).1 - h k.
Proof.
  intros Ha Hh. unfold flush_idle, _flush. m_unfold. unfold tick. destruct (clock st.2) as [t w].
  set (ids := map fst _). intros H.
  assert (Ha' : assembling max_events (st.1, w) j) by (destruct Ha; by split).
  assert (Hids : NoDup ids).
  { subst ids. pose proof (as_keys _ _ _ Ha) as Hk. unfold dkeys in Hk. simpl.
    induction (_sessions st.1) as [|kv l IH]; simpl; [constructor|]. apply NoDup_cons in Hk as [Hx Hk].
    destruct (_ <=? _); [|by apply IH]. simpl. apply NoDup_cons. split; [|by apply IH].
    intros (kv' & E & Hin%list_elem_of_In)%list_elem_of_fmap. apply filter_In in Hin as [Hin _].
    apply Hx. rewrite E. apply list_elem_of_fmap. exists kv'. split; [done|by apply list_elem_of_In]. }
  apply flush_spec with (j := j) in H as (qs & Hq & -> & Ha2 & Hkept); [|done..|].
  - exists ids. split_and!; [done|done|by intros k s Hd%Hkept; apply Hh|done|]. intros k. subst ids. simpl.
    pose proof (as_keys _ _ _ Ha) as Hk. pose proof (as_sessions _ _ _ Ha k) as Hs. simpl. split.
    + intros (kv & -> & Hin%list_elem_of_In)%list_elem_of_fmap. apply filter_In in Hin as [Hin%list_elem_of_In Ht%Z.leb_le].
      destruct kv as [k s]. apply elem_of_dget in Hin; [|done]. simpl in *. rewrite <- (Hh k s Hin). rewrite Hin in Hs.
      split; [|done]. by destruct Hs as [_ _ (e & rest & -> & _)].
    + intros [Hne Ht]. destruct (dget k (_sessions st.1)) as [s|] eqn:Ed; [|done]. rewrite <- (Hh k s Ed) in Ht.
      apply list_elem_of_fmap. exists (k, s). split; [done|]. apply list_elem_of_In, filter_In.
      split; [by apply list_elem_of_In, dget_elem|by apply Z.leb_le].
  - subst ids. simpl. intros k (kv & -> & Hin%list_elem_of_In)%list_elem_of_fmap. apply filter_In in Hin as [Hin _].
    apply list_elem_of_fmap. exists kv. split; [done|by apply list_elem_of_In].
Qed.

(** The flush of a stop takes every open session: no journal is left. *)
Lemma flush_all_spec st j out st' : assembling max_events st j ->
  flush_all max_events max_payload_bytes st = (Ret out, st') ->
  exists ids, ship_all ids j = Ret out /\ assembling max_events st' (forget ids j) /\ forall k, forget ids j k = [].
Proof.
  intros Ha. unfold flush_all, _flush. m_unfold. intros H.
  apply flush_spec with (j := j) in H as (qs & Hq & -> & Ha2 & _); [|done|apply (as_keys _ _ _ Ha)|done].
  exists (dkeys (_sessions st.1)). split_and!; [done..|]. intros k. unfold forget. case_decide as Hk; [done|].
  pose proof (as_sessions _ _ _ Ha k) as Hs. by destruct (dget k (_sessions st.1)) eqn:E; [apply dget_Some_key in E|].
Qed.

(** The line's session, when it has one, was last heard now. *)
Definition hear (line : pystr) st (h : key -> float) : key -> float := fun k' =>
  match parse_event line with
  | Some e => match key_of (field "session" e) with
              | Some k => if decide (k' = k) then stamp k st else h k'
              | None => h k'
              end
  | None => h k'
  end.

Lemma hears_dset k s st st1 h : hears st h -> _sessions st1.1 = dset k s (_sessions st.1) ->
  hears st1 (fun k' => if decide (k' = k) then last_seen s else h k').
Proof.
  intros Hh E k' s'. rewrite E. destruct (decide (k' = k)) as [->|Hne]; [by rewrite dget_dset_eq; intros [= <-]|].
  rewrite dget_dset_ne by done. apply Hh.
Qed.
Lemma hears_ddel k st st1 h : NoDup (dkeys (_sessions st.1)) -> hears st h -> _sessions st1.1 = ddel k (_sessions st.1) ->
  hears st1 h.
Proof.
  intros Hn Hh E k' s'. rewrite E. destruct (decide (k' = k)) as [->|Hne]; [by rewrite dget_ddel_eq|].
  rewrite dget_ddel_ne by done. apply Hh.
Qed.

Lemma feed_hears line st j h out st' : assembling max_events st j -> hears st h ->
  feed max_events max_payload_bytes line st = (Ret out, st') -> hears st' (hear line st h).
Proof.
  intros Ha Hh. unfold feed, hear. destruct (parse_event line) as [e|].
  2: { m_unfold. unfold set_stats. by intros [= _ <-]. }
  destruct (key_of (field "session" e)) as [k|]; [|done].
  destruct (land max_events max_payload_bytes max_events_ok k e st j Ha) as (s & st1 & _ & <- & Hst1 & ->).
  pose proof (hears_dset k s st st1 h Hh Hst1) as H1.
  destruct (is_event CLOSED_EVENT e); cbn [negb]; [|by intros [= _ <-]].
  assert (Hn : NoDup (dkeys (_sessions st1.1))) by (rewrite Hst1; apply dset_NoDup, (as_keys _ _ _ Ha)).
  unfold mbind at 1, M_bind at 1, modify. destruct (has_connect s); cbn [negb]; m_unfold.
  - unfold build_payload. m_unfold. destruct (payload_of max_events max_payload_bytes s) as [[p tr]|err]; simpl; [|done].
    destruct tr; intros [= _ <-]; by eapply hears_ddel.
  - unfold no_connect, modify. intros [= _ <-]. by eapply hears_ddel.
Qed.
End flushing.

(** ** The rounds *)

Section rounds.
Context {W : Type} {MA : Machine W} {SH : Sha256Hex} {HM : Hmac} {JL : JsonLoads} {IO : IntOf}
  {FR : FloatRepr}.
Variable config : ShipperConfig.
Local Abbreviation max_events := (cfg_max_events config).
Local Abbreviation max_bytes := (cfg_max_payload_bytes config).
Local Abbreviation ship_lines := (reference config).
Hypothesis max_events_ok : (2 <= max_events)%nat.
Implicit Types (s : shipper W) (sp : Spool) (j : journal).

(** A round: the lines read, and the sessions found idle. *)
Definition round : Type := list pystr * list key.

(** What rounds ship in order, and the journals they leave. *)
Fixpoint ship (rounds : list round) j : outcome exn (list pybytes * journal) :=
  match rounds with
  | [] => Ret ([], j)
  | (lines, idle) :: rounds' =>
      '(ps, j1) ← ship_lines lines j;
      qs ← ship_all max_events max_bytes idle j1;
      '(rs, j2) ← ship rounds' (forget idle j1);
      Ret (ps ++ qs ++ rs, j2)
  end.

(** The spool's life: payloads put, and drains in between. *)
Inductive served : Spool -> list pybytes -> Spool -> Prop :=
| served_nil sp : served sp [] sp
| served_put sp p sp1 ps sp2 : put_effect config sp p sp1 -> served sp1 ps sp2 -> served sp (p :: ps) sp2
| served_drain sp settled sp1 ps sp2 :
    done_with (W := W) (ingest_url config) (hmac_secret config) sp sp1 settled -> served sp1 ps sp2 -> served sp ps sp2.

Lemma served_app sp1 ps sp2 qs sp3 : served sp1 ps sp2 -> served sp2 qs sp3 -> served sp1 (ps ++ qs) sp3.
Proof. induction 1; simpl; intros; [done|econstructor; eauto..]. Qed.

Lemma spooled_served sp ps sp' : spooled config sp ps sp' -> served sp ps sp'.
Proof. induction 1; [constructor|by econstructor]. Qed.

Definition spool_names s : list pystr := dkeys (files (spool s)).

Lemma put_effect_nodup sp p sp' : put_effect config sp p sp' -> NoDup (dkeys (files sp)) -> NoDup (dkeys (files sp')).
Proof.
  intros (ns & base & -> & _ & Hb) Hn. apply dset_NoDup.
  destruct Hb as [->|(_ & oldest & rest & _ & ->)]; [done|by apply ddel_NoDup].
Qed.

Lemma spooled_nodup sp ps sp' : spooled config sp ps sp' -> NoDup (dkeys (files sp)) -> NoDup (dkeys (files sp')).
Proof. induction 1; [done|]. intros Hn. apply IHspooled. by eapply put_effect_nodup. Qed.

Lemma drain_names_nodup base_s max_s names k s o s' :
  drain_names base_s max_s (ingest_url config) (hmac_secret config) names k s = (o, s') ->
  NoDup (spool_names s) -> NoDup (spool_names s').
Proof.
  revert k s. induction names as [|name names IH]; intros k s; simpl; [by intros [= _ <-]|].
  unfold mbind, M_bind. destruct (drain_one _ _ _ _ name s) as [o1 s1] eqn:E. intros H Hn.
  assert (H1 : NoDup (spool_names s1)).
  { destruct (dget name (files (spool s))) as [payload|] eqn:Ed.
    - eapply drain_one_spec in E; [|exact Ed]. destruct o1 as [[ok|]|e]; unfold spool_names.
      + destruct E as (st & _ & _ & _ & -> & _). by apply ddel_NoDup.
      + by destruct E as [-> _].
      + by rewrite E.
    - unfold drain_one, mbind, M_bind, get in E. destruct (on_machine disk_op s) as [[[]|e] s2] eqn:Em;
        apply on_machine_spec in Em as (Hs & _); [rewrite Ed in E; unfold raise in E|];
        injection E as _ <-; unfold spool_names; by rewrite Hs. }
  destruct o1 as [[ok|]|e]; [by eapply IH|by injection H as _ <-..].
Qed.

#[local] Hint Resolve stable_ret stable_raise stable_lift stable_get stable_modify stable_bind stable_try : core.

Lemma stable_on_machine {A} (m : M exn W A) : stable assembler (on_machine m).
Proof. intros s o s' E. by apply on_machine_spec in E as (_ & _ & _ & -> & _). Qed.
#[local] Hint Resolve stable_on_machine : core.

(** A drain leaves the open sessions alone. *)
Lemma stable_drain base_s max_s url secret : stable assembler (drain (W := W) base_s max_s url secret).
Proof.
  assert (Hspool : forall f, stable assembler (set_spool (W := W) f)) by (intros f; by apply stable_modify).
  assert (Hcons : forall f, stable assembler (set_consecutive (W := W) f)) by (intros f; by apply stable_modify).
  assert (Hone : forall name, stable assembler (drain_one (W := W) base_s max_s url secret name)).
  { intros name. unfold drain_one, post, wait, remove, dead, reset.
    repeat (first [apply stable_bind; [|intros ?] | apply stable_try; [|intros [] ? [= <-]] | progress auto | case_match]). }
  unfold drain. apply stable_bind; [auto|intros s0]. generalize (pending (spool s0)) 0.
  intros names. induction names as [|name names IH]; intros k; simpl; [auto|].
  apply stable_bind; [auto|intros [ok|]]; auto.
Qed.

(** When each session was last heard, once the lines are fed from [s]. *)
Fixpoint heard (lines : list pystr) s (h : key -> float) : key -> float :=
  match lines with
  | [] => h
  | line :: lines' => heard lines' (feed_line config tt line s).2 (hear line (assembler s, machine s) h)
  end.

Lemma feed_line_hears line s s' j h : assembling max_events (assembler s, machine s) j -> hears (assembler s, machine s) h ->
  feed_line config tt line s = (Ret tt, s') ->
  (exists j', assembling max_events (assembler s', machine s') j') /\
  hears (assembler s', machine s') (hear line (assembler s, machine s) h).
Proof.
  intros Ha Hh E. split.
  - destruct (feed_lines_spec config max_events_ok [line] s s' j Ha) as (_ & j' & _ & _ & Ha' & _); [|by exists j'].
    cbn [foldM]. unfold mbind, M_bind. by rewrite E.
  - unfold feed_line, mbind, M_bind, on_assembler in E.
    destruct (feed max_events max_bytes line (assembler s, machine s)) as [o1 [a1 w1]] eqn:Ef.
    destruct o1 as [payloads|e]; [|done]. eapply feed_hears in Ef; [|done..].
    apply put_all_spec in E as (_ & -> & _). simpl. exact Ef.
Qed.

Lemma heard_hears lines s s' j h : assembling max_events (assembler s, machine s) j -> hears (assembler s, machine s) h ->
  foldM (feed_line config) lines tt s = (Ret tt, s') -> hears (assembler s', machine s') (heard lines s h).
Proof.
  revert s j h. induction lines as [|line lines IH]; intros s j h Ha Hh.
  { simpl. unfold mret, M_ret. by intros [= <-]. }
  cbn [foldM heard]. unfold mbind, M_bind. destruct (feed_line config tt line s) as [[[]|e] s1] eqn:E; [|done].
  destruct (feed_line_hears line s s1 j h Ha Hh E) as [[j1 Ha1] Hh1]. by eapply IH.
Qed.

(** The sessions to flush after feeding [lines] from [s1]: those with a line in their journal
    and none heard for [idle_flush_s], by the clock read once the lines are fed. *)
Definition idle_after (lines : list pystr) s1 (j : journal) (h : key -> float) (idle : list key) : Prop :=
  NoDup idle /\ exists s2 ps j1,
    foldM (feed_line config) lines tt s1 = (Ret tt, s2) /\ ship_lines lines j = Ret (ps, j1) /\
    forall k, k ∈ idle <-> j1 k <> [] /\ cfg_idle_flush_s config <= (clock (machine s2)).1 - heard lines s1 h k.

(** A round reads, ships what its lines close and what is idle, and drains. *)
Lemma run_once_spec s r s' j h : assembling max_events (assembler s, machine s) j ->
  hears (assembler s, machine s) h -> NoDup (spool_names s) ->
  run_once config s = (Ret r, s') ->
  exists lines s1 idle ps j1 qs,
    on_tailer (read_new_lines (cfg_read_chunk_bytes config) (cfg_max_batch_lines config) false) s = (Ret lines, s1) /\
    ship_lines lines j = Ret (ps, j1) /\ idle_after lines s1 j h idle /\
    hears (assembler s', machine s') (heard lines s1 h) /\ ship_all max_events max_bytes idle j1 = Ret qs /\
    served (spool s) (ps ++ qs) (spool s') /\
    assembling max_events (assembler s', machine s') (forget idle j1) /\ NoDup (spool_names s').
Proof.
  intros Ha Hh Hn. unfold run_once. unfold mbind at 1, M_bind at 1.
  destruct (on_tailer _ s) as [[lines|e] s1] eqn:Et; [|done].
  assert (H1 : assembler s1 = assembler s /\ spool s1 = spool s).
  { unfold on_tailer in Et. destruct (read_new_lines _ _ _ _). by injection Et as _ <-. }
  destruct H1 as [Ha1 Hs1]. unfold mbind at 1, M_bind at 1.
  destruct (_spool_new_payloads config lines s1) as [[[]|e] s2] eqn:Es; [|done].
  unfold _spool_new_payloads, mbind, M_bind in Es.
  destruct (foldM (feed_line config) lines tt s1) as [[[]|e] s3] eqn:Ef; [|done].
  assert (Hs1' : assembling max_events (assembler s1, machine s1) j) by (rewrite Ha1; destruct Ha; by split).
  assert (Hh1 : hears (assembler s1, machine s1) h) by (intros k se; rewrite Ha1; apply Hh).
  pose proof (heard_hears lines s1 s3 j h Hs1' Hh1 Ef) as Hh3. pose proof Ef as Hfed.
  apply feed_lines_spec with (j := j) in Ef as (ps & j1 & Hr & Hsp & Ha3 & _); [|done|done].
  destruct (on_assembler _ s3) as [[qs|e] s4] eqn:Ei; [|done]. unfold on_assembler in Ei.
  destruct (flush_idle _ _ _ _) as [oi [ai wi]] eqn:Efl. injection Ei as -> <-.
  apply flush_idle_spec with (j := j1) (h := heard lines s1 h) in Efl as (idle & Hq & Ha4 & Hh4 & Hnd & Hids); [|done..].
  apply put_all_spec in Es as (_ & Ha5 & _ & Hidle). simpl in Ha5, Hidle.
  unfold mbind at 1, M_bind at 1. destruct (on_tailer commit_offset s2) as [[[]|e] s5] eqn:Ec; [|done].
  assert (H5 : assembler s5 = assembler s2 /\ spool s5 = spool s2).
  { unfold on_tailer in Ec. destruct (commit_offset _). by injection Ec as _ <-. }
  destruct H5 as [Ha6 Hs6]. unfold mbind, M_bind. destruct (drain _ _ _ _ s5) as [[n|e] s6] eqn:Ed; [|done].
  unfold mret, M_ret. intros [= <- <-].
  assert (Hn5 : NoDup (spool_names s5)).
  { unfold spool_names. rewrite Hs6. eapply spooled_nodup; [exact Hidle|]. eapply spooled_nodup; [exact Hsp|]. by rewrite Hs1. }
  assert (H6 : assembler s6 = assembler s5 /\ NoDup (spool_names s6)).
  { split; [by apply stable_drain in Ed|]. unfold drain, mbind, M_bind, get in Ed. by eapply drain_names_nodup. }
  apply drain_fifo_nothing_lost in Ed as (settled & _ & _ & Hd & _); [|done].
  exists lines, s1, idle, ps, j1, qs. split_and!; [done|done| | |done| | |].
  - split; [done|]. by exists s3, ps, j1.
  - destruct H6 as [H6 _]. intros k se. rewrite H6, Ha6, Ha5. apply Hh4.
  - apply served_app with (sp2 := spool s3); [rewrite <- Hs1; by apply spooled_served|].
    rewrite <- (app_nil_r qs). eapply served_app; [apply spooled_served; exact Hidle|].
    rewrite <- Hs6. eapply served_drain; [exact Hd|constructor].
  - destruct H6 as [H6 _]. rewrite H6, Ha6, Ha5. destruct Ha4; by split.
  - by destruct H6.
Qed.

(** The lines each round read and the sessions it found idle, from one state to the next,
    with the journals and the times of the last lines; an empty round sleeps. *)
Definition rested (r : RunOnceResult) s s' : Prop :=
  s' = s \/ lines_read r = 0 /\ on_machine (sleep (poll_interval_s config)) s = (Ret tt, s').
Inductive reading : shipper W -> journal -> (key -> float) -> list round -> shipper W -> Prop :=
| reading_nil s j h : reading s j h [] s
| reading_round s j h lines idle s1 ps j1 r s2 s3 more s4 :
    on_tailer (read_new_lines (cfg_read_chunk_bytes config) (cfg_max_batch_lines config) false) s = (Ret lines, s1) ->
    ship_lines lines j = Ret (ps, j1) -> idle_after lines s1 j h idle ->
    run_once config s = (Ret r, s2) -> rested r s2 s3 ->
    reading s3 (forget idle j1) (heard lines s1 h) more s4 -> reading s j h ((lines, idle) :: more) s4.

(** The flush of a stop: every open session is shipped, and none is left. *)
Lemma spool_open_sessions_spec s s' j : assembling max_events (assembler s, machine s) j ->
  _spool_open_sessions config s = (Ret tt, s') ->
  exists open qs, ship_all max_events max_bytes open j = Ret qs /\ served (spool s) qs (spool s') /\
    assembling max_events (assembler s', machine s') (forget open j) /\ forall k, forget open j k = [].
Proof.
  intros Ha. unfold _spool_open_sessions, mbind, M_bind, on_assembler.
  destruct (flush_all _ _ _) as [oi [ai wi]] eqn:Efl. destruct oi as [qs|e]; [|done].
  apply flush_all_spec with (j := j) in Efl as (open & Hq & Ha1 & Hnil); [|done..].
  intros (_ & Ha2 & _ & Hsp)%put_all_spec. simpl in Ha2, Hsp. exists open, qs.
  split_and!; [done|by apply spooled_served| |done]. rewrite Ha2. destruct Ha1; by split.
Qed.

Lemma service_ships_what_it_read_aux stop once n s s' j h :
  assembling max_events (assembler s, machine s) j -> hears (assembler s, machine s) h -> NoDup (spool_names s) ->
  main_loop config stop once n s = (Ret tt, s') ->
  exists rounds s1 ps j1 open qs,
    reading s j h rounds s1 /\ ship rounds j = Ret (ps, j1) /\
    ship_all max_events max_bytes open j1 = Ret qs /\ served (spool s) (ps ++ qs) (spool s') /\
    assembling max_events (assembler s', machine s') (forget open j1) /\
    (length rounds <= n)%nat /\
    (once = false -> (length rounds < n)%nat -> forall k, forget open j1 k = []).
Proof.
  revert s j h. induction n as [|n IH]; intros s j h Ha Hh Hn; cbn [main_loop].
  { unfold mret, M_ret. intros [= <-]. exists [], s, [], j, [], [].
    split_and!; [constructor|done|done|constructor| |done|simpl; lia]. destruct Ha as [H1 H2]. by split. }
  unfold mbind at 1, M_bind at 1. destruct (run_once config s) as [[r|e] s1] eqn:E; [|done].
  destruct (run_once_spec s r s1 j h Ha Hh Hn E) as (lines & t1 & idle & ps & j1 & qs & Ht & Hr & Hidle & Hh1 & Hq & Hs & Ha1 & Hn1).
  assert (Hfinish : forall open rs s2, ship_all max_events max_bytes open (forget idle j1) = Ret rs ->
    served (spool s1) rs (spool s2) -> assembling max_events (assembler s2, machine s2) (forget open (forget idle j1)) ->
    (once = false -> (1 < S n)%nat -> forall k, forget open (forget idle j1) k = []) ->
    exists rounds s1 ps j1 open qs,
      reading s j h rounds s1 /\ ship rounds j = Ret (ps, j1) /\
      ship_all max_events max_bytes open j1 = Ret qs /\ served (spool s) (ps ++ qs) (spool s2) /\
      assembling max_events (assembler s2, machine s2) (forget open j1) /\
      (length rounds <= S n)%nat /\
      (once = false -> (length rounds < S n)%nat -> forall k, forget open j1 k = [])).
  { intros open rs s2 Hrs Hsv Ha2 Hnil. exists [(lines, idle)], s1, (ps ++ qs), (forget idle j1), open, rs.
    split_and!; [|cbn [ship]; rewrite Hr; simpl; by rewrite Hq; simpl; rewrite app_nil_r|done| |done|simpl; lia|done].
    - eapply reading_round; [exact Ht|exact Hr|exact Hidle|exact E|by left|constructor].
    - by eapply served_app. }
  unfold mbind at 1, M_bind at 1, get. destruct (once || (n =? 0)%nat) eqn:Eo.
  { unfold mret, M_ret. intros [= <-]. eapply (Hfinish []); [done|constructor|destruct Ha1; by split|].
    intros -> Hlt. apply orb_prop in Eo as [?|?%Nat.eqb_eq]; [done|lia]. }
  destruct (stop (machine s1)).
  { intros Hf. destruct (spool_open_sessions_spec _ _ _ Ha1 Hf) as (open & rs & H1 & H2 & H3 & H4). by eapply Hfinish. }
  unfold mbind, M_bind. 
  destruct ((if lines_read r =? 0 then on_machine (sleep (poll_interval_s config)) else mret tt) s1)
    as [[[]|e] s2] eqn:Ew; [|done]. intros H.
  assert (H2 : rested r s1 s2 /\ spool s2 = spool s1 /\ assembler s2 = assembler s1).
  { destruct (Z.eqb_spec (lines_read r) 0) as [El|]; [|unfold mret, M_ret in Ew; injection Ew as <-; split; [by left|done]].
    split; [by right|]. by apply on_machine_spec in Ew as (? & _ & _ & ? & _). }
  destruct H2 as (Hrest & Hsp & Has). apply IH with (j := forget idle j1) (h := heard lines t1 h) in H; cycle 1.
  { rewrite Has. destruct Ha1; by split. } { intros k se. rewrite Has. apply Hh1. } { unfold spool_names. by rewrite Hsp. }
  destruct H as (rounds & s3 & ps' & j2 & open & rs & Hrd & Hsh & Hsa & Hsv & Ha2 & Hl & Hnil).
  exists ((lines, idle) :: rounds), s3, (ps ++ qs ++ ps'), j2, open, rs.
  split_and!; [| |done| |done|simpl; lia|intros; apply Hnil; simpl in *; [done|lia]].
  - simpl. by eapply reading_round.
  - cbn [ship]. rewrite Hr. simpl. rewrite Hq. simpl. by rewrite Hsh.
  - rewrite app_assoc, <- app_assoc. eapply served_app; [exact Hs|]. by rewrite <- Hsp.
Qed.
(** When each open session was last heard before the loop. *)
Definition last_heard s : key -> float := fun k =>
  match dget k (_sessions (assembler s)) with Some se => last_seen se | None => 0 end.

(** C10: The whole run of the service, up to its stop: however many rounds it makes, every
    payload that the lines read and the idle sessions call for is put in the spool, the drains
    in between removing only what was answered for good; the sessions a round flushes as idle
    are exactly those with a line in their journal and none heard for [idle_flush_s] when its
    lines are fed; and when a stop is requested, the sessions still open are put there too, so
    that nothing read is left in memory.  A single round and an exhausted count leave the open
    sessions in memory. *)
Theorem service_ships_what_it_read stop once n s s' j :
  assembling max_events (assembler s, machine s) j -> NoDup (spool_names s) ->
  main_loop config stop once n s = (Ret tt, s') ->
  exists rounds s1 ps j1 open qs,
    reading s j (last_heard s) rounds s1 /\ ship rounds j = Ret (ps, j1) /\
    ship_all max_events max_bytes open j1 = Ret qs /\ served (spool s) (ps ++ qs) (spool s') /\
    assembling max_events (assembler s', machine s') (forget open j1) /\
    (length rounds <= n)%nat /\
    (once = false -> (length rounds < n)%nat -> forall k, forget open j1 k = []).
Proof. intros Ha Hn. apply service_ships_what_it_read_aux; [done| |done]. intros k se Hd. unfold last_heard. simpl in Hd. by rewrite Hd. Qed.
End rounds.

(** ** [main] *)

(** The parsed arguments; an empty path is as none. *)
Record ServiceArgs : Type := { sv_once : bool; sv_state_dir : option pystr; sv_log_path : option pystr }.
Definition overridden (argument : option pystr) (configured : pystr) : pystr :=
  match argument with Some (_ :: _ as path) => path | _ => configured end.

Definition finite (v : pyfloat) : option float := match v with Fin x => Some x | _ => None end.

(** What the loop reads of the environment's settings; its times are finite here. *)
Definition loop_config (c : EnvConfig) : option ShipperConfig :=
  idle ← finite (env_idle_flush_s c);
  base ← finite (env_backoff_base_s c);
  cap ← finite (env_backoff_max_s c);
  poll ← finite (env_poll_interval_s c);
  Some {| ingest_url := env_ingest_url c; hmac_secret := env_hmac_secret c; cfg_idle_flush_s := idle;
          cfg_max_events := Z.to_nat (env_max_events c); cfg_max_payload_bytes := env_max_payload_bytes c;
          backoff_base_s := base; backoff_max_s := cap; spool_max_files := env_spool_max_files c;
          poll_interval_s := poll; cfg_read_chunk_bytes := Z.to_nat (env_read_chunk_bytes c);
          cfg_max_batch_lines := Z.to_nat (env_max_batch_lines c) |}.

(** [SessionAssembler(...)]. *)
Definition assembler0 : SessionAssembler :=
  Assembler [] {| parse_errors := 0; dropped_no_connect := 0; truncated_sessions := 0 |}.

Section service.
Context {W : Type} {SH : Sha256Hex} {HM : Hmac} {JL : JsonLoads} {IO : IntOf} {FR : FloatRepr} {NT : NumberText}.
(** The machine over a log path and a state directory; [mkdir(parents=True, exist_ok=True)];
    the path of a name in a directory; the stop event; [str(exc)]. *)
Variable machine_at : pystr -> pystr -> Machine W.
Variable mkdir : pystr -> M exn W unit.
Variable join_path : pystr -> pystr -> pystr.
Variable stop : W -> bool.
Variable exn_text : exn -> pystr.

(** The machine, and the spool under each state directory. *)
Definition disk : Type := W * (pystr -> Spool).

Definition on_world {A} (m : M exn W A) : M exn disk A := fun d => let '(o, w) := m d.1 in (o, (w, d.2)).

Definition make_directories (state_dir : pystr) : M exn W unit :=
  _ ← mkdir state_dir;
  _ ← mkdir (join_path state_dir (u "spool"));
  mkdir (join_path (join_path state_dir (u "spool")) (u "dead")).

(** The loop over the collaborators just built, and the exit code. *)
Definition serve_loop (config : ShipperConfig) (log_path state_dir : pystr) (once : bool) (iterations : nat) : M exn disk ended :=
  fun d =>
    let '(o, s) := main_loop (MA := machine_at log_path state_dir) config stop once iterations
                     (Shipper tailer0 assembler0 (d.2 state_dir) 0 d.1) in
    (_ ← o; Ret {| exit_code := 0; stdout := []; stderr := [] |},
     (machine s, fun path => if decide (path = state_dir) then spool s else d.2 path)).

(** [main] after [argparse], for at most [iterations] rounds; [None] for a time that is not
    finite. *)
Definition service_main (args : ServiceArgs) (env : list (pystr * pystr)) (iterations : nat) : option (M exn disk ended) :=
  match from_env env with
  | Raise e => Some (if is_value_error e then mret (refuse (u "error: " ++ exn_text e)) else raise e)
  | Ret c =>
      config ← loop_config c;
      let state_dir := overridden (sv_state_dir args) (env_state_dir c) in
      let log_path := overridden (sv_log_path args) (env_log_path c) in
      Some (made ← try_except (_ ← on_world (make_directories state_dir); mret None)
                     (fun e => if is_os_error e
                               then Some (mret (Some (refuse (u "error: state dir unreadable: " ++ exn_text e))))
                               else None);
            match made with
            | Some r => mret r
            | None => serve_loop config log_path state_dir (sv_once args) iterations
            end)
  end.

(** How it answers: a refusal, which leaves every spool as it was; or exit 0 and silence,
    under a configuration within the components' bounds, after a run that put in the spool
    of its own state directory what the lines it read call for, no other being touched. *)
Lemma service_main_spec args env iterations m d r d' :
  service_main args env iterations = Some m -> m d = (Ret r, d') -> NoDup (dkeys (files (d.2 (overridden (sv_state_dir args)
    match from_env env with Ret c => env_state_dir c | Raise _ => [] end)))) ->
  (exists line, r = refuse line) /\ d'.2 = d.2 \/
  r = {| exit_code := 0; stdout := []; stderr := [] |} /\
  exists c config, from_env env = Ret c /\ loop_config c = Some config /\ 2 <= env_max_events c /\
    (forall path, path <> overridden (sv_state_dir args) (env_state_dir c) -> d'.2 path = d.2 path) /\
    exists rounds ps j1 open qs (MA := machine_at (overridden (sv_log_path args) (env_log_path c))
                                         (overridden (sv_state_dir args) (env_state_dir c))),
      ship config rounds (fun _ => []) = Ret (ps, j1) /\
      ship_all (cfg_max_events config) (cfg_max_payload_bytes config) open j1 = Ret qs /\
      served config (d.2 (overridden (sv_state_dir args) (env_state_dir c))) (ps ++ qs)
        (d'.2 (overridden (sv_state_dir args) (env_state_dir c))) /\
      (sv_once args = false -> (length rounds < iterations)%nat -> forall k, forget open j1 k = []).
Proof.
  unfold service_main. pose proof (from_env_validates env _ eq_refl) as Hv. destruct (from_env env) as [c|e].
  2: { intros [= <-]. destruct Hv as (name & msg & -> & _). cbn [is_value_error]. unfold mret, M_ret.
       intros [= <- <-] _. left. split; [by eexists|done]. }
  destruct Hv as (_ & _ & Hmax & _). destruct (loop_config c) as [config|] eqn:Ec; [|done]. intros [= <-].
  set (state_dir := overridden (sv_state_dir args) (env_state_dir c)). set (log_path := overridden (sv_log_path args) (env_log_path c)).
  assert (Hcfg : (2 <= cfg_max_events config)%nat).
  { unfold loop_config in Ec. destruct (finite (env_idle_flush_s c)), (finite (env_backoff_base_s c)),
      (finite (env_backoff_max_s c)), (finite (env_poll_interval_s c)); simpl in Ec; try done.
    injection Ec as <-. simpl. lia. }
  unfold mbind at 1, M_bind at 1, try_except. unfold mbind at 1, M_bind at 1. unfold on_world.
  destruct (make_directories state_dir d.1) as [[[]|e] w1]; cbv beta iota zeta.
  2: { destruct (is_os_error e); [|by intros [=]]. unfold mret, M_ret. intros [= <- <-] _. left. split; [by eexists|done]. }
  unfold mret at 1, M_ret at 1. unfold serve_loop. cbn [fst snd].
  destruct (main_loop _ _ _ _ _) as [[[]|e] s] eqn:El; [|done]. intros [= <- <-] Hn. right. split; [done|].
  exists c, config. split_and!; [done..| |].
  - intros path Hne. simpl. by rewrite decide_False.
  - apply service_ships_what_it_read_aux with (j := fun _ => []) (h := fun _ => 0) in El
      as (rounds & s1 & ps & j1 & open & qs & _ & H1 & H2 & H3 & _ & _ & H4); [|done|split; [constructor|done]|done..].
    exists rounds, ps, j1, open, qs. simpl. rewrite decide_True by done. split_and!; done.
Qed.
End service.

(** ** A stop in the middle of a session *)

Module Toy.
Export Shipper.Toy.
(** Two lines a round: the connect and a command, not the close. *)
Definition two_lines : ShipperConfig :=
  {| ingest_url := u "u"; hmac_secret := u "k"; cfg_idle_flush_s := flt 900; cfg_max_events := 2000;
     cfg_max_payload_bytes := 1500000; backoff_base_s := flt 2; backoff_max_s := flt 300;
     spool_max_files := 10; poll_interval_s := flt 1; cfg_read_chunk_bytes := 4;
     cfg_max_batch_lines := 2 |}.
End Toy.
Import Toy.

(** The open session is in the spool, and in no journal. *)
Lemma service_ships_what_it_read_witness :
  let s' := (main_loop two_lines (fun _ => true) false 5 start).2 in
  length (files (spool s')) = 1%nat /\ _sessions (assembler s') = [] /\
  exists rounds ps j1 open qs,
    ship two_lines rounds (fun _ => []) = Ret (ps, j1) /\
    ship_all (cfg_max_events two_lines) (cfg_max_payload_bytes two_lines) open j1 = Ret qs /\
    served two_lines (spool start) (ps ++ qs) (spool s').
Proof.
  intros s'. split; [vm_compute; reflexivity|]. split; [vm_compute; reflexivity|].
  assert (E : main_loop two_lines (fun _ => true) false 5 start = (Ret tt, s')) by (vm_compute; reflexivity).
  assert (H2 : (2 <= cfg_max_events two_lines)%nat) by (simpl; lia).
  assert (Hn : NoDup (spool_names start)) by constructor.
  destruct (service_ships_what_it_read two_lines H2 (fun _ => true) false 5 start s' (fun _ => [])
              (empty_assembling _) Hn E) as (rounds & s1 & ps & j1 & open & qs & _ & H3 & H4 & H5 & _).
  exists rounds, ps, j1, open, qs. split; [exact H3|]. split; [exact H4|exact H5].
Defined.
