(* ===== verification/Floats.v ===== *)
(** * Floats: binary64 arithmetic, [math.ceil], [sum] and [.2f]

    The rounding of a quotient, a product or a sum to the nearest float, ties to even, on
    the representation of the prelude (an integer count of [2^-1074]); overflow is not
    modelled.  [evals/] computes its rates with it. *)

From S2P Require Import Prelude Datetime.
#[local] Open Scope Z_scope.

(** ** Rounding *)

(** The integer nearest to [n / d], ties to even, for [0 < d]. *)
Definition round_half_even (n d : Z) : Z :=
  let q := n / d in
  let r := n mod d in
  if 2 * r <? d then q else if d <? 2 * r then q + 1 else if Z.even q then q else q + 1.

(** The float nearest to [n / d] units, for [0 <= n]: 53 significant bits. *)
Definition exponent (n d : Z) : Z := Z.max 0 (Z.log2 (n / d) - 52).
Definition nearest (n d : Z) : Z :=
  round_half_even n (d * 2 ^ exponent n d) * 2 ^ exponent n d.
Definition fround (n d : Z) : float := Z.sgn n * nearest (Z.abs n) d.

(** The operations of the source: [int / int], and [+], [-], [*], [/] of two floats. *)
Definition int_div (n d : Z) : float := fround (n * fone) d.
Definition fadd (a b : float) : float := fround (a + b) 1.
Definition fsub (a b : float) : float := fround (a - b) 1.
Definition fmul (a b : float) : float := fround (a * b) fone.
Definition fdiv (a b : float) : float := fround (Z.sgn b * a * fone) (Z.abs b).

(** [math.ceil]. *)
Definition fceil (x : float) : Z := (x + fone - 1) / fone.

(** [sum] of floats: Neumaier's compensated summation. *)
Definition sum_step (acc : float * float) (x : float) : float * float :=
  let '(f, c) := acc in
  let t := fadd f x in
  (t, fadd c (if Z.abs x <=? Z.abs f then fadd (fsub f t) x else fadd (fsub x t) f)).
Definition float_sum (l : list float) : float :=
  match l with
  | [] => 0
  | x :: l' => let '(f, c) := foldl sum_step (x, 0) l' in if c =? 0 then f else fadd f c
  end.

(** [f"{x:.2f}"]. *)
Definition fixed_two (x : float) : pystr :=
  let c := round_half_even (Z.abs x * 100) fone in
  (if x <? 0 then u "-" else []) ++ str_of_Z (c / 100) ++ u "." ++ digits 2 (c mod 100).

(** A value that 53 bits hold. *)
Definition is_float (x : Z) : Prop := exists m e, 0 <= m <= 2 ^ 53 /\ 0 <= e /\ x = m * 2 ^ e.

(** ** [round_half_even] *)

Lemma round_half_even_spec n d :
  0 < d ->
  let r := round_half_even n d in
  2 * Z.abs (n - d * r) <= d /\ (2 * Z.abs (n - d * r) = d -> Z.even r = true).
Proof.
  intros Hd. unfold round_half_even.
  pose proof (Z.div_mod n d ltac:(lia)) as E. pose proof (Z.mod_pos_bound n d Hd) as Hb.
  set (q := n / d) in *. set (r := n mod d) in *.
  destruct (Z.ltb_spec (2 * r) d); [simpl; split; [nia|lia]|].
  destruct (Z.ltb_spec d (2 * r)); [simpl; split; [nia|lia]|].
  destruct (Z.even q) eqn:He; simpl; split; try nia; [done|].
  intros _. replace (q + 1) with (Z.succ q) by lia. by rewrite Z.even_succ, <- Z.negb_even, He.
Qed.

Lemma round_half_even_mono n1 d1 n2 d2 :
  0 < d1 -> 0 < d2 -> n1 * d2 <= n2 * d1 -> round_half_even n1 d1 <= round_half_even n2 d2.
Proof.
  intros H1 H2 Hle.
  destruct (round_half_even_spec n1 d1 H1) as [Ha1 Ht1].
  destruct (round_half_even_spec n2 d2 H2) as [Ha2 Ht2].
  set (r1 := round_half_even n1 d1) in *. set (r2 := round_half_even n2 d2) in *.
  destruct (Z.le_gt_cases r1 r2) as [|Hgt]; [done|exfalso].
  assert (Hl1 : (2 * r1 - 1) * d1 <= 2 * n1) by lia.
  assert (Hl2 : 2 * n2 <= (2 * r2 + 1) * d2) by lia.
  assert (Hc : (2 * r1 - 1) * (d1 * d2) <= (2 * r2 + 1) * (d1 * d2)) by nia.
  assert (Hdd : 0 < d1 * d2) by nia.
  assert (r1 = r2 + 1) as -> by nia.
  assert (E1 : (2 * r2 + 1) * d1 = 2 * n1) by nia.
  assert (E2 : (2 * r2 + 1) * d2 = 2 * n2) by nia.
  assert (T1 : Z.even (r2 + 1) = true) by (apply Ht1; lia).
  assert (T2 : Z.even r2 = true) by (apply Ht2; lia).
  rewrite Z.add_1_r, Z.even_succ, <- Z.negb_even, T2 in T1. done.
Qed.

Lemma round_half_even_exact q d : 0 < d -> round_half_even (q * d) d = q.
Proof.
  intros Hd. unfold round_half_even. rewrite Z.div_mul, Z_mod_mult by lia.
  by rewrite (proj2 (Z.ltb_lt _ _)) by lia.
Qed.

Lemma round_half_even_le n d q : 0 < d -> n <= q * d -> round_half_even n d <= q.
Proof.
  intros Hd H. rewrite <- (round_half_even_exact q d) by done.
  apply round_half_even_mono; nia.
Qed.

Lemma round_half_even_ge n d q : 0 < d -> q * d <= n -> q <= round_half_even n d.
Proof.
  intros Hd H. rewrite <- (round_half_even_exact q d) at 1 by done.
  apply round_half_even_mono; nia.
Qed.

(** ** [nearest] *)

Lemma exponent_nonneg n d : 0 <= exponent n d.
Proof. unfold exponent. lia. Qed.

Lemma exponent_mono n1 d1 n2 d2 :
  0 < d1 -> 0 < d2 -> n1 * d2 <= n2 * d1 -> exponent n1 d1 <= exponent n2 d2.
Proof.
  intros H1 H2 Hle. unfold exponent.
  assert (Hq : n1 / d1 <= n2 / d2).
  { apply Z.div_le_lower_bound; [done|].
    assert (d1 * (n1 / d1) <= n1) by (apply Z.mul_div_le; lia). nia. }
  pose proof (Z.log2_le_mono _ _ Hq). lia.
Qed.

(** A quotient of exponent [e] is below [2^(e + 53)], and at least [2^(e + 52)] when [e] is
    positive. *)
Lemma exponent_upper n d : 0 < d -> n < d * 2 ^ (exponent n d + 53).
Proof.
  intros Hd. pose proof (Z.div_mod n d ltac:(lia)) as E. pose proof (Z.mod_pos_bound n d Hd).
  unfold exponent. set (q := n / d) in *.
  assert (Hq : q < 2 ^ (Z.max 0 (Z.log2 q - 52) + 53)); [|nia].
  destruct (Z.le_gt_cases q 0) as [|Hpos].
  { pose proof (Z.pow_pos_nonneg 2 (Z.max 0 (Z.log2 q - 52) + 53)). lia. }
  pose proof (Z.log2_spec q Hpos) as [_ Hl]. eapply Z.lt_le_trans; [exact Hl|].
  apply Z.pow_le_mono_r; lia.
Qed.

Lemma exponent_lower n d : 0 < d -> 0 < exponent n d -> d * 2 ^ (exponent n d + 52) <= n.
Proof.
  intros Hd. pose proof (Z.div_mod n d ltac:(lia)) as E. pose proof (Z.mod_pos_bound n d Hd).
  unfold exponent. set (q := n / d) in *. intros He.
  assert (Hq : 2 ^ (Z.max 0 (Z.log2 q - 52) + 52) <= q); [|nia].
  assert (Hpos : 0 < q).
  { destruct (Z.le_gt_cases q 0); [|done]. rewrite Z.log2_nonpos in He by done. lia. }
  pose proof (Z.log2_spec q Hpos) as [Hl _].
  replace (Z.max 0 (Z.log2 q - 52) + 52) with (Z.log2 q) by lia. done.
Qed.

Lemma nearest_mono n1 d1 n2 d2 :
  0 < d1 -> 0 < d2 -> n1 * d2 <= n2 * d1 -> nearest n1 d1 <= nearest n2 d2.
Proof.
  intros H1 H2 Hle. unfold nearest.
  pose proof (exponent_mono _ _ _ _ H1 H2 Hle) as He.
  pose proof (exponent_nonneg n1 d1) as Hn1. pose proof (exponent_nonneg n2 d2) as Hn2.
  pose proof (exponent_upper n1 d1 H1) as Hu. pose proof (exponent_lower n2 d2 H2) as Hl.
  set (e1 := exponent n1 d1) in *. set (e2 := exponent n2 d2) in *.
  assert (Hp1 : 0 < 2 ^ e1) by (apply Z.pow_pos_nonneg; lia).
  assert (Hp2 : 0 < 2 ^ e2) by (apply Z.pow_pos_nonneg; lia).
  destruct (Z.eq_dec e1 e2) as [->|Hne].
  { apply Z.mul_le_mono_nonneg_r; [lia|]. apply round_half_even_mono; nia. }
  transitivity (2 ^ (e2 + 52)).
  - replace (2 ^ (e2 + 52)) with (2 ^ (e2 + 52 - e1) * 2 ^ e1)
      by (rewrite <- Z.pow_add_r by lia; f_equal; lia).
    apply Z.mul_le_mono_nonneg_r; [lia|]. apply round_half_even_le; [nia|].
    replace (2 ^ (e2 + 52 - e1) * (d1 * 2 ^ e1)) with (d1 * (2 ^ (e2 + 52 - e1) * 2 ^ e1)) by ring.
    rewrite <- Z.pow_add_r by lia. transitivity (d1 * 2 ^ (e1 + 53)); [lia|].
    apply Z.mul_le_mono_nonneg_l; [lia|]. apply Z.pow_le_mono_r; lia.
  - rewrite Z.pow_add_r, Z.mul_comm by lia. apply Z.mul_le_mono_nonneg_r; [lia|].
    apply round_half_even_ge; [nia|]. specialize (Hl ltac:(lia)).
    rewrite Z.pow_add_r in Hl by lia. lia.
Qed.

(** A float rounds to itself. *)
Lemma nearest_exact x d : is_float x -> 0 < d -> nearest (x * d) d = x.
Proof.
  intros (m & e & Hm & He & ->) Hd. unfold nearest.
  pose proof (exponent_lower (m * 2 ^ e * d) d Hd) as Hl.
  pose proof (exponent_nonneg (m * 2 ^ e * d) d) as Hn.
  set (k := exponent (m * 2 ^ e * d) d) in *.
  assert (Hpe : 0 < 2 ^ e) by (apply Z.pow_pos_nonneg; lia).
  assert (Hpk : 0 < 2 ^ k) by (apply Z.pow_pos_nonneg; lia).
  destruct (Z.le_gt_cases k e) as [Hke|Hke].
  - replace (2 ^ e) with (2 ^ (e - k) * 2 ^ k) by (rewrite <- Z.pow_add_r by lia; f_equal; lia).
    replace (m * (2 ^ (e - k) * 2 ^ k) * d) with (m * 2 ^ (e - k) * (d * 2 ^ k)) by ring.
    rewrite round_half_even_exact by nia. ring.
  - specialize (Hl ltac:(lia)).
    assert (H53 : m * 2 ^ e <= 2 ^ (e + 53)).
    { rewrite (Z.pow_add_r 2 e 53) by lia. nia. }
    assert (Hk : 2 ^ (k + 52) <= m * 2 ^ e) by nia.
    assert (Hk2 : k + 52 <= e + 53) by (apply (Z.pow_le_mono_r_iff 2); lia).
    assert (Hkk : k = e + 1) by lia. clearbody k. subst k.
    replace (e + 1 + 52) with (e + 53) in Hk by lia.
    assert (E : m * 2 ^ e = 2 ^ 52 * 2 ^ (e + 1)).
    { rewrite <- Z.pow_add_r by lia. replace (52 + (e + 1)) with (e + 53) by lia. lia. }
    rewrite E. replace (2 ^ 52 * 2 ^ (e + 1) * d) with (2 ^ 52 * (d * 2 ^ (e + 1))) by ring.
    rewrite round_half_even_exact by nia. done.
Qed.

Lemma nearest_le n d x : is_float x -> 0 < d -> n <= x * d -> nearest n d <= x.
Proof. intros Hx Hd H. rewrite <- (nearest_exact x d) by done. apply nearest_mono; nia. Qed.

Lemma nearest_ge n d x : is_float x -> 0 < d -> x * d <= n -> x <= nearest n d.
Proof.
  intros Hx Hd H. rewrite <- (nearest_exact x d) at 1 by done. apply nearest_mono; nia.
Qed.

Lemma is_float_0 : is_float 0.
Proof. exists 0, 0. split_and!; [lia..|done]. Qed.

Lemma is_float_int n k : 0 <= n <= 2 ^ 53 -> 0 <= k <= 1074 -> is_float (n * 2 ^ k).
Proof. intros Hn Hk. exists n, k. split_and!; [lia..|done]. Qed.

Lemma fone_pow : fone = 2 ^ 1074.
Proof. vm_compute. reflexivity. Qed.

Lemma is_float_flt n : 0 <= n <= 2 ^ 53 -> is_float (flt n).
Proof. intros Hn. unfold flt. rewrite fone_pow. apply is_float_int; lia. Qed.

Lemma is_float_fone : is_float fone.
Proof. rewrite <- (Z.mul_1_l fone). apply (is_float_flt 1). lia. Qed.

Lemma nearest_nonneg n d : 0 <= n -> 0 < d -> 0 <= nearest n d.
Proof. intros. apply nearest_ge; [apply is_float_0|done|lia]. Qed.

Lemma fround_nonneg n d : 0 <= n -> 0 < d -> fround n d = nearest n d.
Proof.
  intros Hn Hd. unfold fround. rewrite Z.abs_eq by done.
  destruct (Z.eq_dec n 0) as [->|]; [|by rewrite Z.sgn_pos, Z.mul_1_l by lia].
  symmetry. apply (nearest_exact 0); [apply is_float_0|done].
Qed.

(** What rounding answers is a float. *)
Lemma nearest_is_float n d : 0 <= n -> 0 < d -> is_float (nearest n d).
Proof.
  intros Hn Hd. unfold nearest. pose proof (exponent_upper n d Hd) as Hu.
  pose proof (exponent_nonneg n d) as He. set (e := exponent n d) in *.
  assert (Hp : 0 < 2 ^ e) by (apply Z.pow_pos_nonneg; lia).
  eexists _, e. split_and!; [| |lia|reflexivity].
  - apply round_half_even_ge; nia.
  - apply round_half_even_le; [nia|]. rewrite Z.pow_add_r in Hu by lia. lia.
Qed.

Lemma int_div_is_float n d : 0 <= n -> 0 < d -> is_float (fround (n * fone) d).
Proof.
  intros Hn Hd. pose proof fone_pos. rewrite fround_nonneg by nia. apply nearest_is_float; nia.
Qed.

(** ** Quotients of counts *)

Lemma int_div_nearest n d : 0 <= n -> 0 < d -> int_div n d = nearest (n * fone) d.
Proof. intros. unfold int_div. apply fround_nonneg; [|done]. pose proof fone_pos. nia. Qed.

Lemma int_div_mono n1 d1 n2 d2 :
  0 <= n1 -> 0 <= n2 -> 0 < d1 -> 0 < d2 -> n1 * d2 <= n2 * d1 -> int_div n1 d1 <= int_div n2 d2.
Proof.
  intros. rewrite !int_div_nearest by done. pose proof fone_pos. apply nearest_mono; [done|done|nia].
Qed.

Lemma int_div_bounds n d : 0 <= n <= d -> 0 < d -> 0 <= int_div n d <= fone.
Proof.
  intros Hn Hd. pose proof fone_pos. rewrite int_div_nearest by lia. split.
  - apply nearest_nonneg; [nia|done].
  - apply nearest_le; [apply is_float_fone|done|nia].
Qed.

Lemma int_div_0 d : 0 < d -> int_div 0 d = 0.
Proof. intros Hd. rewrite int_div_nearest by lia. change (nearest (0 * d) d = 0). apply nearest_exact; [apply is_float_0|done]. Qed.

Lemma int_div_self d : 0 < d -> int_div d d = fone.
Proof.
  intros Hd. rewrite int_div_nearest, Z.mul_comm by lia.
  apply (nearest_exact fone); [apply is_float_fone|done].
Qed.

(** The largest float below one. *)
Lemma is_float_pred_one : is_float (fone - 2 ^ 1021).
Proof.
  exists (2 ^ 53 - 1), 1021. split_and!; [lia|lia|lia|]. rewrite fone_pow.
  rewrite Z.mul_sub_distr_r, <- Z.pow_add_r by lia. lia.
Qed.

(** A count below the total is a rate below one. *)
Lemma int_div_lt_one n d : 0 <= n < d -> d <= 2 ^ 53 -> int_div n d < fone.
Proof.
  intros Hn Hd. rewrite int_div_nearest by lia.
  assert (Hp : 0 < 2 ^ 1021) by (apply Z.pow_pos_nonneg; lia).
  assert (E : fone = 2 ^ 53 * 2 ^ 1021) by (rewrite fone_pow, <- Z.pow_add_r by lia; done).
  eapply Z.le_lt_trans; [apply (nearest_le _ _ (fone - 2 ^ 1021)); [apply is_float_pred_one|lia|]|lia].
  rewrite E. nia.
Qed.

Lemma int_div_one_iff n d : 0 <= n <= d -> 0 < d <= 2 ^ 53 -> int_div n d = fone <-> n = d.
Proof.
  intros Hn Hd. split; [|intros ->; apply int_div_self; lia].
  intros E. destruct (Z.eq_dec n d); [done|]. pose proof (int_div_lt_one n d ltac:(lia) ltac:(lia)). lia.
Qed.

Lemma int_div_pos n d : 0 < n -> 0 < d <= 2 ^ 53 -> 0 < int_div n d.
Proof.
  intros Hn Hd. rewrite int_div_nearest by lia.
  assert (Hp : 0 < 2 ^ 1021) by (apply Z.pow_pos_nonneg; lia).
  assert (E : fone = 2 ^ 53 * 2 ^ 1021) by (rewrite fone_pow, <- Z.pow_add_r by lia; done).
  eapply Z.lt_le_trans; [exact Hp|]. apply nearest_ge; [|lia|rewrite E; nia].
  exists 1, 1021. lia.
Qed.

(** ** Products and quotients of floats *)

Lemma fmul_mono a b c d : 0 <= a -> 0 <= c -> a * b <= c * d -> 0 <= b -> 0 <= d -> fmul a b <= fmul c d.
Proof.
  intros. pose proof fone_pos. unfold fmul. rewrite !fround_nonneg by nia.
  apply nearest_mono; nia.
Qed.

Lemma fdiv_pos a b : 0 <= a -> 0 < b -> fdiv a b = nearest (a * fone) b.
Proof.
  intros Ha Hb. pose proof fone_pos. unfold fdiv. rewrite Z.sgn_pos, Z.abs_eq, Z.mul_1_l by lia.
  apply fround_nonneg; [nia|done].
Qed.

Lemma fdiv_bounds a b : 0 <= a <= b -> 0 < b -> 0 <= fdiv a b <= fone.
Proof.
  intros Ha Hb. pose proof fone_pos. rewrite fdiv_pos by lia. split.
  - apply nearest_nonneg; [nia|done].
  - apply nearest_le; [apply is_float_fone|done|nia].
Qed.
