(* ===== verification/Golden.v ===== *)
(** * Golden: the labelled cases of an evaluation

    [evals/golden/__init__.py]: labels, cases and the loader of a JSONL file.  Pydantic's
    coercion of a row is a parameter: [case_coerce] answers the coerced values, on which
    the declared validators run here. *)

From S2P Require Import Prelude Errors Json Datetime Text Schemas.
#[local] Open Scope Z_scope.
#[local] Existing Instance Verdict.category_eq_dec.

(** ** [str.splitlines] *)

Definition is_break (c : Z) : bool :=
  ((10 <=? c) && (c <=? 13)) || ((28 <=? c) && (c <=? 30)) || (c =? 133)
  || (c =? 8232) || (c =? 8233).

Fixpoint lines_from (line s : pystr) : list pystr :=
  match s with
  | [] => match line with [] => [] | _ => [line] end
  | c :: s' =>
      if is_break c then
        line :: match s' with
                | d :: s'' => if (c =? 13) && (d =? 10) then lines_from [] s'' else lines_from [] s'
                | [] => []
                end
      else lines_from (line ++ [c]) s'
  end.
Definition splitlines (s : pystr) : list pystr := lines_from [] s.

(** A line without a break, and a text that is one per line. *)
Definition unbroken (l : pystr) : Prop := Forall (fun c => is_break c = false) l.

Lemma lines_from_app line l s :
  unbroken l -> lines_from line (l ++ s) = lines_from (line ++ l) s.
Proof.
  intros Hl. revert line. induction Hl as [|c l Hc _ IH]; intros line; simpl; [by rewrite app_nil_r|].
  rewrite Hc, IH, <- app_assoc. done.
Qed.

Lemma lines_from_newline line s : lines_from line (10 :: s) = line :: lines_from [] s.
Proof. simpl. by destruct s. Qed.

Lemma splitlines_joined ls :
  Forall unbroken ls -> splitlines (concat (map (fun l => l ++ [10]) ls)) = ls.
Proof.
  unfold splitlines. induction 1 as [|l ls Hl _ IH]; [done|]. cbn [map concat].
  rewrite <- app_assoc, lines_from_app by done. cbn [app]. by rewrite lines_from_newline, IH.
Qed.

(** ["\n".join(lines) + "\n"] of a non-empty list. *)
Lemma join_lines ls :
  ls <> [] -> py_join [10] ls ++ [10] = concat (map (fun l => l ++ [10]) ls).
Proof.
  induction ls as [|l ls IH]; [done|]. intros _. destruct ls as [|l' ls]; [simpl; by rewrite app_nil_r|].
  change (py_join [10] (l :: l' :: ls)) with (l ++ [10] ++ py_join [10] (l' :: ls)).
  cbn [map concat] in *. rewrite <- !app_assoc, IH by done. by rewrite <- !app_assoc.
Qed.

Lemma lines_from_unbroken line s : unbroken line -> Forall unbroken (lines_from line s).
Proof.
  enough (H : forall n line s, (length s <= n)%nat -> unbroken line -> Forall unbroken (lines_from line s))
    by (by apply (H (length s))).
  clear. induction n as [|n IH]; intros line s Hn Hl.
  { destruct s; [|simpl in Hn; lia]. simpl. destruct line; [constructor|by apply Forall_singleton]. }
  destruct s as [|c s]; simpl in *; [destruct line; [constructor|by apply Forall_singleton]|].
  destruct (is_break c) eqn:Hc.
  - constructor; [done|]. destruct s as [|d s]; [constructor|]. simpl in Hn.
    case_match; (apply IH; [simpl; lia|apply List.Forall_nil]).
  - apply IH; [lia|]. apply Forall_app. split; [done|by apply Forall_singleton].
Qed.

Lemma splitlines_unbroken s : Forall unbroken (splitlines s).
Proof. apply lines_from_unbroken, List.Forall_nil. Qed.

(** ** Labels and cases *)

Record GoldenLabel : Type := {
  l_severity : Z;
  l_category : Verdict.VerdictCategory;
  l_escalate : bool
}.
#[export] Instance label_eq_dec : EqDecision GoldenLabel.
Proof. solve_decision. Defined.

Inductive labeler : Type := human | ai.
#[export] Instance labeler_eq_dec : EqDecision labeler.
Proof. solve_decision. Defined.

Record GoldenCase : Type := {
  g_alert : Alert.SessionAlert;
  g_label : GoldenLabel;
  labeler_note : pystr;
  g_tags : list pystr;
  labeled_by : option labeler;
  labeled_at : option datetime
}.

(** The coerced values of a row. *)
Record case_fields : Type := {
  cf_alert : Alert.SessionAlert;
  cf_severity : Z;
  cf_category : pystr;
  cf_escalate : bool;
  cf_note : pystr;
  cf_tags : list pystr;
  cf_labeled_by : option pystr;
  cf_labeled_at : option datetime
}.

Definition label_escalate_required_for_high_severity (l : GoldenLabel) : outcome exn GoldenLabel :=
  if (4 <=? l_severity l) && negb (l_escalate l) then Raise ValidationError else Ret l.

Definition make_label (severity : Z) (category : pystr) (escalate : bool) : outcome exn GoldenLabel :=
  match dget category Verdict.category_literals with
  | None => Raise ValidationError
  | Some c =>
      if (1 <=? severity) && (severity <=? 5)
      then label_escalate_required_for_high_severity
             {| l_severity := severity; l_category := c; l_escalate := escalate |}
      else Raise ValidationError
  end.

Definition labeler_literals : list (pystr * labeler) := [(u "human", human); (u "ai", ai)].

Definition make_labeler (s : option pystr) : outcome exn (option labeler) :=
  match s with
  | None => Ret None
  | Some s => match dget s labeler_literals with Some l => Ret (Some l) | None => Raise ValidationError end
  end.

Definition make_case (f : case_fields) : outcome exn GoldenCase :=
  a ← Alert.validate (cf_alert f);
  l ← make_label (cf_severity f) (cf_category f) (cf_escalate f);
  by_ ← make_labeler (cf_labeled_by f);
  if py_len (cf_note f) <? 10 then Raise ValidationError
  else Ret {| g_alert := a; g_label := l; labeler_note := cf_note f; g_tags := cf_tags f;
              labeled_by := by_; labeled_at := cf_labeled_at f |}.

(** Pydantic's coercion of a row, [None] for a [ValidationError], and the text of the
    error a line gives. *)
Class CaseModel : Type := {
  case_coerce : json -> option case_fields;
  row_error : pystr -> pystr
}.

Section load.
Context {CM : CaseModel} {JL : JsonLoads} {LZ : LocalZone} {SH : Sha256} {SR : StrRepr}.

(** A validated alert has a first event, so its fingerprint is defined. *)
Definition case_id (c : GoldenCase) : pystr := default [] (Alert.fingerprint (g_alert c)).

(** [GoldenCase.model_validate(json.loads(line))]. *)
Definition load_case (line : pystr) : outcome exn GoldenCase :=
  match json_loads line with
  | None => Raise JSONDecodeError
  | Some payload =>
      match case_coerce payload with
      | None => Raise ValidationError
      | Some f => make_case f
      end
  end.

Definition row_prefix (n : Z) : pystr := u "row " ++ str_of_Z n.

(** One non-empty line, the [row_number]-th: the case, or what [load_golden] raises. *)
Definition load_row (require_human : bool) (row_number : Z) (rows : list (pystr * Z)) (line : pystr)
    : outcome exn GoldenCase :=
  match load_case line with
  | Raise JSONDecodeError | Raise ValidationError =>
      Raise (ValueError (row_prefix row_number ++ u ": " ++ row_error line))
  | Raise e => Raise e
  | Ret case =>
      if require_human && bool_decide (labeled_by case <> Some human)
      then Raise (ValueError (row_prefix row_number ++ u " is not human-labeled (PRD "
                              ++ [167] ++ u "13)"))
      else match dget (case_id case) rows with
           | Some first =>
               Raise (ValueError (row_prefix row_number ++ u ": duplicate case_id "
                        ++ str_repr (case_id case) ++ u " (first seen at row "
                        ++ str_of_Z first ++ u ")"))
           | None => Ret case
           end
  end.

Fixpoint load_rows (require_human : bool) (row_number : Z) (rows : list (pystr * Z))
    (cases : list GoldenCase) (lines : list pystr) : outcome exn (list GoldenCase) :=
  match lines with
  | [] => Ret cases
  | line :: lines' =>
      if bool_decide (strip line = []) then load_rows require_human row_number rows cases lines'
      else
        let n := row_number + 1 in
        case ← load_row require_human n rows line;
        load_rows require_human n (dset (case_id case) n rows) (cases ++ [case]) lines'
  end.

(** [text] is [path.read_text()]. *)
Definition load_golden (text : outcome exn pystr) (require_human : bool)
    : outcome exn (list GoldenCase) :=
  t ← text; load_rows require_human 0 [] [] (splitlines t).

(** ** What a loaded file is *)

Definition rows_of (t : pystr) : list pystr :=
  filter (fun l => strip l <> []) (splitlines t).

Definition label_ok (l : GoldenLabel) : Prop :=
  1 <= l_severity l <= 5 /\ (4 <= l_severity l -> l_escalate l = true).

Lemma make_label_ok s c e l : make_label s c e = Ret l -> label_ok l /\ l_severity l = s /\ l_escalate l = e.
Proof.
  unfold make_label, label_escalate_required_for_high_severity, label_ok.
  destruct (dget c _) as [k|]; [|done]. case_match eqn:Hs; [|done]. simpl.
  case_match eqn:He; [done|]. intros; simplify_eq/=. py_reflect. split_and!; try done.
  intros. destruct He; py_reflect; [lia|done].
Qed.

Lemma load_case_label line c : load_case line = Ret c -> label_ok (g_label c).
Proof.
  unfold load_case. repeat (case_match; [|done]). unfold make_case, mbind, outcome_bind.
  destruct (Alert.validate _); [|done]. destruct (make_label _ _ _) eqn:Hl; [|done].
  destruct (make_labeler _); [|done]. case_match; [done|]. intros; simplify_eq/=.
  by apply make_label_ok in Hl as [? _].
Qed.

Lemma load_row_iff rh n rows line c :
  load_row rh n rows line = Ret c <->
  load_case line = Ret c /\ (rh = true -> labeled_by c = Some human) /\ case_id c ∉ dkeys rows.
Proof.
  unfold load_row. rewrite <- dget_None. destruct (load_case line) as [c'|e]; [|by destruct e; naive_solver].
  destruct rh; simpl.
  - destruct (decide (labeled_by c' = Some human)) as [Hh|Hh];
      [rewrite bool_decide_false by tauto|rewrite bool_decide_true by done; naive_solver].
    destruct (dget (case_id c') rows) eqn:E; naive_solver.
  - destruct (dget (case_id c') rows) eqn:E; naive_solver.
Qed.

(** The state of the loop: the rows seen are those of the cases loaded. *)
Lemma load_rows_iff rh n rows cases lines out :
  (forall k, k ∈ dkeys rows <-> k ∈ map case_id cases) ->
  load_rows rh n rows cases lines = Ret out <->
  exists new, out = cases ++ new /\
    Forall2 (fun line c => load_case line = Ret c) (filter (fun l => strip l <> []) lines) new /\
    (rh = true -> Forall (fun c => labeled_by c = Some human) new) /\
    NoDup (map case_id new) /\ (forall c, c ∈ new -> case_id c ∉ map case_id cases).
Proof.
  revert n rows cases. induction lines as [|line lines IH]; intros n rows cases Hrows.
  { simpl. split.
    - intros [= <-]. exists []. rewrite app_nil_r. split_and!; try done; [constructor|].
      by intros c ?%not_elem_of_nil.
    - intros (new & -> & H%Forall2_nil_inv_l & _). subst. by rewrite app_nil_r. }
  cbn [load_rows]. rewrite filter_cons. case_bool_decide as Hb.
  { rewrite decide_False by (by intros H). by apply IH. }
  rewrite decide_True by done. unfold mbind, outcome_bind.
  assert (Hstep : forall c, load_row rh (n + 1) rows line = Ret c ->
    forall k, k ∈ dkeys (dset (case_id c) (n + 1) rows) <-> k ∈ map case_id (cases ++ [c])).
  { intros c _ k. rewrite dset_keys_elem, Hrows, map_app, elem_of_app. simpl.
    rewrite list_elem_of_singleton. naive_solver. }
  split.
  - destruct (load_row rh (n + 1) rows line) as [c|] eqn:E; [|done]. intros H.
    apply IH in H as (new & -> & Hf & Hh & Hnd & Hnew); [|by apply Hstep].
    apply load_row_iff in E as (Hc & Hch & Hk). exists (c :: new).
    rewrite <- app_assoc. split_and!; [done|by constructor|intros; constructor; auto| |].
    + simpl. constructor; [|done]. intros (c' & E & Hin)%list_elem_of_fmap.
      apply (Hnew c' Hin). rewrite <- E, map_app. apply elem_of_app. right. by left.
    + intros c' [->|Hin]%elem_of_cons; [by rewrite <- Hrows|].
      intros Hc'. apply (Hnew c' Hin). rewrite map_app. apply elem_of_app. by left.
  - intros (new & -> & Hf & Hh & Hnd & Hnew). inversion Hf as [|? c ? new' Hc Hf' Hl Hn]; subst.
    simpl in Hnd. apply NoDup_cons in Hnd as [Hni Hnd].
    assert (E : load_row rh (n + 1) rows line = Ret c).
    { apply load_row_iff. split_and!; [done|intros Hrh; specialize (Hh Hrh); by inversion Hh|].
      rewrite Hrows. apply Hnew. left. }
    rewrite E. apply IH; [by apply Hstep|]. exists new'. rewrite <- app_assoc. split_and!; try done.
    + intros Hrh. specialize (Hh Hrh). by inversion Hh.
    + intros c' Hin. rewrite map_app, elem_of_app. simpl. intros [Hc'|Hc'].
      * apply (Hnew c'); [by right|done].
      * apply list_elem_of_singleton in Hc'. apply Hni. rewrite <- Hc'. by apply list_elem_of_fmap_2.
Qed.

(** A golden file loads exactly when each of its non-blank lines is a valid case, no
    two of them the same session and, under [require_human], all labelled by a person;
    the cases are then those of the lines in file order, every label within the rubric. *)
Theorem load_golden_exactly t rh cases :
  load_golden (Ret t) rh = Ret cases <->
  Forall2 (fun line c => load_case line = Ret c /\ label_ok (g_label c)) (rows_of t) cases /\
  NoDup (map case_id cases) /\
  (rh = true -> Forall (fun c => labeled_by c = Some human) cases).
Proof.
  unfold load_golden, mbind, outcome_bind. rewrite load_rows_iff by (simpl; done).
  assert (Hl : forall ls cs, Forall2 (fun line c => load_case line = Ret c) ls cs <->
    Forall2 (fun line c => load_case line = Ret c /\ label_ok (g_label c)) ls cs).
  { intros ls cs. split; intros H; (eapply Forall2_impl; [exact H|]); simpl; [|naive_solver].
    intros line c Hc. split; [done|by eapply load_case_label]. }
  setoid_rewrite Hl. split.
  - intros (new & -> & Hf & Hh & Hnd & _). done.
  - intros (Hf & Hnd & Hh). exists cases. split_and!; try done. by intros c _ ?%not_elem_of_nil.
Qed.
End load.
