(* ===== verification/Seed.v ===== *)
(** * Seed: the development database

    [scripts/seed_dev.py]: the canned verdicts, the candidates, [seed] over the production write
    path of [Database] and [Job], and [main] once its arguments and settings are read.  The
    pipeline a candidate gets is a parameter, given what its client is scripted with. *)

From S2P Require Import Prelude Errors Cli Json Datetime Schemas Floats Policy Triage TriageFrame Golden Database Job.
#[local] Open Scope Z_scope.

Definition FAKE_MODEL : pystr := u "seed-fake".

Definition FIXTURE_TOOL_TURNS : list (pystr * list pystr) :=
  [(u "alert1", [u "get_ip_geo_asn"]); (u "alert2", [u "get_ip_geo_asn"]); (u "alert3", [u "get_ip_geo_asn"]);
   (u "alert4", [u "get_session_commands"; u "get_ip_geo_asn"]);
   (u "alert5", [u "get_session_commands"; u "get_ip_geo_asn"])].

(** Severity, category, escalation. *)
Definition canned_label : Type := Z * Verdict.VerdictCategory * bool.
Definition FIXTURE_LABELS : list (pystr * canned_label) :=
  [(u "alert1", (1, Verdict.scanning, false)); (u "alert2", (2, Verdict.brute_force, false));
   (u "alert3", (3, Verdict.brute_force, false)); (u "alert4", (4, Verdict.successful_intrusion, true));
   (u "alert5", (5, Verdict.malware_delivery, true))].
Definition DEFAULT_FIXTURE_LABEL : canned_label := (2, Verdict.other, false).

(** The literals in hundredths, rounded as the parser rounds them. *)
Definition CONFIDENCE_BY_SEVERITY : list (Z * float) :=
  map (fun kv => (kv.1, int_div kv.2 100)) [(1, 85); (2, 80); (3, 75); (4, 90); (5, 95)].
Definition PHRASE_BY_CATEGORY (c : Verdict.VerdictCategory) : pystr :=
  match c with
  | Verdict.scanning => u "probed the SSH service and disconnected"
  | Verdict.brute_force => u "attempted repeated credential logins"
  | Verdict.successful_intrusion => u "logged in and ran commands"
  | Verdict.malware_delivery => u "logged in and fetched a remote payload"
  | Verdict.persistence_attempt => u "logged in and installed a persistence mechanism"
  | Verdict.reconnaissance => u "enumerated the host"
  | Verdict.other => u "produced an unclassified session"
  end.
Definition ACTION_BY_CATEGORY (c : Verdict.VerdictCategory) : pystr :=
  match c with
  | Verdict.scanning => u "No action; keep monitoring the source range."
  | Verdict.brute_force => u "Block the source IP at the edge and confirm no login succeeded."
  | Verdict.successful_intrusion =>
      u "Isolate the host, rotate the exposed credentials, and review the command history."
  | Verdict.malware_delivery =>
      u "Isolate the host, capture the downloaded payload hash, and block the download URL."
  | Verdict.persistence_attempt =>
      u "Isolate the host and remove the persistence mechanism (cron, keys, services)."
  | Verdict.reconnaissance => u "Review what was enumerated and watch the source IP for follow-up activity."
  | Verdict.other => u "Review the session manually."
  end.

Section seed_dev.
Context {SR : StrRepr}.

Definition first_username (a : Alert.SessionAlert) : pystr :=
  match omap Alert.username (Alert.events a) with n :: _ => n | [] => u "(none)" end.
Definition canned_reasoning (a : Alert.SessionAlert) (c : Verdict.VerdictCategory) : pystr :=
  Alert.src_ip a ++ u " " ++ PHRASE_BY_CATEGORY c ++ u " against sensor " ++ Alert.sensor a ++ u " in session "
  ++ Alert.session_id a ++ u ". Username " ++ str_repr (first_username a) ++ u " was observed; "
  ++ str_of_Z (py_len (Alert.events a)) ++ u " events were recorded.".

(** [verdict.model_dump_json()]. *)
Variable verdict_json : Verdict.Verdict -> pystr.
Definition canned_verdict (a : Alert.SessionAlert) (l : canned_label) : outcome exn pystr :=
  let '(severity, category, escalate) := l in
  match dget severity CONFIDENCE_BY_SEVERITY with
  | None => Raise (OtherException (u "KeyError"))
  | Some confidence =>
      v ← Verdict.validate
            {| Verdict.f_severity := severity; Verdict.f_category := Verdict.category_str category;
               Verdict.f_confidence := confidence; Verdict.f_reasoning := canned_reasoning a category;
               Verdict.f_recommended_action := ACTION_BY_CATEGORY category; Verdict.f_escalate := escalate;
               Verdict.f_extra := [] |};
      Ret (verdict_json v)
  end.

Definition arguments_by_name (a : Alert.SessionAlert) : list (pystr * jobj) :=
  [(u "get_ip_geo_asn", [(u "ip", JStr (Alert.src_ip a))]);
   (u "get_session_commands", [(u "session_id", JStr (Alert.session_id a))])].
Fixpoint scripted_tool_turn (a : Alert.SessionAlert) (names : list pystr) : outcome exn (list (pystr * jobj)) :=
  match names with
  | [] => Ret []
  | n :: names' =>
      match dget n (arguments_by_name a) with
      | None => Raise (OtherException (u "KeyError"))
      | Some args => turn ← scripted_tool_turn a names'; Ret ((n, args) :: turn)
      end
  end.

(** ** The candidates *)

Record candidate : Type := Seeded {
  sd_alert : Alert.SessionAlert;
  sd_canned : pystr;
  sd_names : list pystr
}.

(** The [*.json] files of the fixtures directory, [None] when it is none. *)
Abbreviation files := (list (pystr * outcome exn pystr)) (only parsing).
Definition sorted_files (fs : files) : files := sort_items fs.
(** The name without [.json]. *)
Definition stem (name : pystr) : pystr := take (length name - 5) name.

(** [SessionAlert.model_validate_json]. *)
Variable alert_of_text : pystr -> outcome exn Alert.SessionAlert.
Definition read_fixture (f : pystr * outcome exn pystr) : outcome exn Alert.SessionAlert :=
  t ← f.2; alert_of_text t.
Definition fixture_candidate (f : pystr * outcome exn pystr) : outcome exn candidate :=
  a ← read_fixture f;
  canned ← canned_verdict a (default DEFAULT_FIXTURE_LABEL (dget (stem f.1) FIXTURE_LABELS));
  Ret (Seeded a canned (default [] (dget (stem f.1) FIXTURE_TOOL_TURNS))).
Definition golden_candidate (c : GoldenCase) : outcome exn candidate :=
  let l := g_label c in
  canned ← canned_verdict (g_alert c) (l_severity l, l_category l, l_escalate l);
  Ret (Seeded (g_alert c) canned []).
Fixpoint map_ret {A B} (f : A -> outcome exn B) (l : list A) : outcome exn (list B) :=
  match l with [] => Ret [] | x :: l' => y ← f x; ys ← map_ret f l'; Ret (y :: ys) end.

Context {CM : CaseModel} {JL : JsonLoads} {LZ : LocalZone} {SH : Sha256}.
Definition load_candidates (golden : outcome exn pystr) (fixtures : option files) : outcome exn (list candidate) :=
  match fixtures with
  | None => Raise OSError
  | Some fs =>
      from_fixtures ← map_ret fixture_candidate (sorted_files fs);
      cases ← load_golden golden false;
      from_golden ← map_ret golden_candidate cases;
      Ret (from_fixtures ++ from_golden)
  end.

(** ** [seed] *)

Record SeedCounts : Type := Counts { sc_created : Z; sc_skipped : Z; sc_failed : Z }.

Context {W : Type} {PG : Postgres W} {AC : AlertCodec} {UT : UuidText}.
(** A client is given, or each candidate has a fake of its own. *)
Variable injected : bool.
(** [TriagePipeline] over the client: the given one, or a fake that answers the tool turn, if any,
    and then the canned verdict; the constructor may raise (an unknown prompt, say). *)
Variable pipeline_of : option (list (pystr * jobj) * pystr) -> outcome exn (Pipeline W).

Definition script_of (c : candidate) : outcome exn (option (list (pystr * jobj) * pystr)) :=
  if injected then Ret None
  else turn ← scripted_tool_turn (sd_alert c) (sd_names c); Ret (Some (turn, sd_canned c)).

Definition seed_one (n : SeedCounts) (c : candidate) : M exn (db W) SeedCounts :=
  result ← insert_alert (sd_alert c);
  _ ← commit;
  if negb (created result) then mret (Counts (sc_created n) (sc_skipped n + 1) (sc_failed n))
  else
    script ← lift (script_of c);
    pipeline ← lift (pipeline_of script);
    status ← triage_alert pipeline (alert_id result);
    mret (Counts (sc_created n + 1) (sc_skipped n)
            (sc_failed n + (if bool_decide (status = failed) then 1 else 0))).

Definition seed_session (candidates : list candidate) : M exn (db W) SeedCounts :=
  in_session (foldM seed_one candidates (Counts 0 0 0)).

(** [build_registry], then the session; the engine is disposed of on every path. *)
Variable registry_built : outcome exn unit.
Definition seed (candidates : list candidate) : M exn (db W) SeedCounts :=
  _ ← lift registry_built; seed_session candidates.

(** ** [main], once the arguments and the settings are read and a database is named *)

Record SeedArgs : Type := {
  live : bool;
  has_api_key : bool;
  cheap_model : pystr;
  strong_model : pystr;
  client_built : outcome exn unit;
  golden_text : outcome exn pystr;
  fixture_files : option files;
  fixtures_name : pystr
}.
Variable exn_text : exn -> pystr.

Definition seed_model (a : SeedArgs) : pystr := if live a then cheap_model a else FAKE_MODEL.
Definition seed_strong (a : SeedArgs) : option pystr :=
  if live a then match strong_model a with [] => None | s => Some s end else None.

(** [except (ValueError, OSError)]. *)
Definition file_error (e : exn) : bool :=
  match e with
  | OSError | TimeoutError | ValueError _ | JSONDecodeError | UnicodeDecodeError | ValidationError => true
  | _ => false
  end.
Definition database_error (e : exn) : bool :=
  match e with OSError | TimeoutError | SQLAlchemyError => true | _ => false end.

(** [fail(code, message)], or the exception that is not caught: left, what ends [main] early. *)
Definition stopped : Type := exn + (pystr * pystr).
Definition guard_files {A} (code : pystr) (o : outcome exn A) : outcome stopped unit :=
  match o with
  | Ret _ => Ret tt
  | Raise e => Raise (if file_error e then inr (code, exn_text e) else inl e)
  end.
Definition uncaught {A} (o : outcome exn A) : outcome stopped A :=
  match o with Ret x => Ret x | Raise e => Raise (inl e) end.
Definition refuse_when (b : bool) (code message : pystr) : outcome stopped unit :=
  if b then Raise (inr (code, message)) else Ret tt.

Definition seed_checks (a : SeedArgs) : outcome stopped (list candidate) :=
  _ ← refuse_when (live a && negb (has_api_key a)) (u "config_error") (u "--live requires LLM_API_KEY");
  _ ← refuse_when (live a && bool_decide (seed_strong a = Some (seed_model a))) (u "config_error")
        (u "STRONG_MODEL must differ from CHEAP_MODEL");
  _ ← (if negb injected && live a then
         match client_built a with
         | Ret _ => Ret tt
         | Raise e => Raise (if isinstance e CConfigError
                             then inr (match sb_class_of e with Some c => code c | None => [] end, exn_text e)
                             else inl e)
         end
       else Ret tt);
  _ ← guard_files (u "invalid_golden") (load_golden (golden_text a) false);
  _ ← match fixture_files a with
      | None => refuse_when true (u "invalid_fixtures") (fixtures_name a ++ u " is not a directory")
      | Some fs => guard_files (u "invalid_fixtures") (map_ret read_fixture (sorted_files fs))
      end;
  uncaught (load_candidates (golden_text a) (fixture_files a)).

Definition counts_line (n : SeedCounts) : pystr :=
  u "created=" ++ str_of_Z (sc_created n) ++ u " skipped=" ++ str_of_Z (sc_skipped n) ++ u " failed="
  ++ str_of_Z (sc_failed n).

(** The exit code, with the line on stdout or on stderr. *)
Definition seed_main (a : SeedArgs) : M exn (db W) (Z * (pystr + pystr)) :=
  match seed_checks a with
  | Raise (inl e) => raise e
  | Raise (inr (code, message)) => mret (1, inr (error_line code message))
  | Ret candidates =>
      try_except (n ← seed candidates; mret (0, inl (counts_line n)))
        (fun e => if database_error e then Some (mret (1, inr (error_line (u "database_error") (exn_text e)))) else None)
  end.
End seed_dev.

(** ** The canned verdicts *)

Lemma action_fits c : py_len (ACTION_BY_CATEGORY c) <= 300.
Proof. by destruct c. Qed.
Lemma confidence_fits s : 1 <= s <= 5 -> exists x, dget s CONFIDENCE_BY_SEVERITY = Some x /\ flt 0 <= x <= flt 1.
Proof.
  intros Hs. assert (s = 1 \/ s = 2 \/ s = 3 \/ s = 4 \/ s = 5) as Hc by lia.
  destruct Hc as [-> |[-> |[-> |[-> | ->]]]]; eexists; (split; [vm_compute; reflexivity|]); vm_compute; split; discriminate.
Qed.

(** A canned verdict exists exactly when its reasoning fits: a long enough username, sensor or
    session id makes it a [ValidationError]. *)
Lemma canned_verdict_iff {SR : StrRepr} verdict_json a s c e :
  1 <= s <= 5 -> (4 <= s -> e = true) ->
  (exists t, canned_verdict verdict_json a (s, c, e) = Ret t) <-> py_len (canned_reasoning a c) <= 1200.
Proof.
  intros Hs He. unfold canned_verdict. destruct (confidence_fits s Hs) as (x & -> & Hx). unfold mbind, outcome_bind.
  destruct (Verdict.validate _) as [v|err] eqn:E.
  - split; [|by eexists]. intros _. apply Verdict.verdict_validate_inv in E as [(_ & _ & Hr & _) Ev].
    injection Ev as _ _ _ Er _ _. by rewrite Er.
  - split; [by intros [t [=]]|]. intros Hl. exfalso.
    pose proof (Verdict.validate_model_dump {| Verdict.severity := s; Verdict.category := c; Verdict.confidence := x;
      Verdict.reasoning := canned_reasoning a c; Verdict.recommended_action := ACTION_BY_CATEGORY c;
      Verdict.escalate := e |}) as H.
    unfold Verdict.model_dump in H. cbn [Verdict.severity Verdict.category Verdict.confidence Verdict.reasoning
      Verdict.recommended_action Verdict.escalate] in H. rewrite H in E; [done|].
    pose proof (action_fits c). unfold Verdict.wf. cbn. split_and!; try done; tauto.
Qed.

(** ** Operations that leave the fingerprints alone *)

Section fingerprints.
Context {W : Type} {PG : Postgres W} {LZ : LocalZone} {SH : Sha256} {AC : AlertCodec} {UT : UuidText}.

Definition fps (ts : tables) : list pystr := map a_fingerprint (alerts ts).

(** Whatever happens, committed and seen fingerprints stay those they were. *)
Definition keeps {A} (m : M exn (db W) A) : Prop := forall d o d' l,
  m d = (o, d') -> fps (durable d) = l -> fps (working d) = l -> fps (durable d') = l /\ fps (working d') = l.

Lemma fps_bind {A B} (m : M exn (db W) A) (k : A -> M exn (db W) B) :
  keeps m -> (forall a, keeps (k a)) -> keeps (a ← m; k a).
Proof.
  intros Hm Hk d o d' l [(a & d1 & H1 & H2)|(e & H1 & ->)]%bind_inv Hd Hw.
  - destruct (Hm d _ d1 l H1 Hd Hw). by apply (Hk a d1 o d' l H2).
  - by apply (Hm d _ d' l H1).
Qed.
Lemma fps_try {A} (m : M exn (db W) A) h :
  keeps m -> (forall e k, h e = Some k -> keeps k) -> keeps (try_except m h).
Proof.
  intros Hm Hh d o d' l H Hd Hw. unfold try_except in H. destruct (m d) as [[a|e] d1] eqn:E;
    destruct (Hm d _ d1 l E Hd Hw) as [Hd1 Hw1]; [by injection H as <- <-|].
  destruct (h e) as [k|] eqn:Eh; [by apply (Hh e k Eh d1 o d' l H)|by injection H as <- <-].
Qed.
Lemma fps_pure {A} (o1 : outcome exn A) : keeps (lift o1).
Proof. by intros d o d' l [= <- <-]. Qed.
Lemma fps_same {A} (m : M exn (db W) A) : (forall d, same_tables d (m d).2) -> keeps m.
Proof. intros H d o d' l E Hd Hw. destruct (H d) as [H1 H2]. rewrite E in H1, H2. cbn [snd] in *. by rewrite H1, H2. Qed.
Lemma fps_execute : keeps execute_statement.
Proof. apply fps_same. intros d. destruct (execute_statement d) as [o d'] eqn:E. by apply execute_statement_spec in E as [? _]. Qed.
Lemma fps_get_alert id : keeps (get_alert str_uuid id).
Proof. apply fps_same. intros d. destruct (get_alert str_uuid id d) as [o d'] eqn:E. by apply get_alert_spec in E as [? _]. Qed.
Lemma fps_commit : keeps commit.
Proof.
  intros d o d' l E Hd Hw. unfold commit in E. destruct (aborted d); [by injection E as <- <-|].
  destruct (commit_statement (outer d)) as [[o' []] w]; by injection E as <- <-.
Qed.
Lemma fps_rollback : keeps rollback.
Proof. intros d o d' l E Hd Hw. unfold rollback in E. destruct (statement (outer d)). by injection E as <- <-. Qed.
Lemma fps_set_working f : (forall ts, fps (f ts) = fps ts) -> keeps (set_working f).
Proof. intros Hf d o d' l [= <- <-] Hd Hw. cbn [durable working]. by rewrite Hf. Qed.
Lemma fps_uuid : keeps fresh_uuid.
Proof. apply fps_same. intros d. unfold fresh_uuid. by destruct (gen_uuid (outer d)). Qed.
Lemma fps_refused {A} : keeps (@refused W A).
Proof. by apply fps_same. Qed.
Lemma fps_get : keeps get.
Proof. by apply fps_same. Qed.
Lemma fps_now : keeps Database.now.
Proof. by apply fps_same. Qed.
End fingerprints.
#[local] Hint Resolve fps_pure fps_execute fps_get_alert fps_commit fps_rollback fps_uuid fps_refused
  fps_get fps_now : keeps.
Ltac keeps :=
  repeat first
    [ progress eauto with keeps
    | apply fps_bind; [|intros ?]
    | apply fps_set_working; intros ?
    | case_match ].

Section attempts.
Context {W : Type} {PG : Postgres W} {LZ : LocalZone} {SH : Sha256} {AC : AlertCodec} {UT : UuidText}.

Lemma fps_fold {A B} (f : B -> A -> M exn (db W) B) l b : (forall b a, keeps (f b a)) -> keeps (foldM f l b).
Proof.
  intros Hf. revert b. induction l as [|x l IH]; intros b; cbn [foldM]; [apply (fps_pure (Ret b))|].
  apply fps_bind; [apply Hf|apply IH].
Qed.
Lemma fps_mret {A} (a : A) : keeps (mret a : M exn (db W) A).
Proof. apply (fps_pure (Ret a)). Qed.
Lemma fps_raise {A} e : keeps (raise e : M exn (db W) A).
Proof. apply (fps_pure (Raise e)). Qed.
#[local] Hint Resolve fps_mret fps_raise : keeps.

Lemma fps_persist aid out mp em rs : keeps (persist_verdict str_uuid aid out mp em rs).
Proof.
  unfold persist_verdict, insert_verdict. keeps; try done.
  - apply fps_fold. intros [] r. unfold insert_tool_call. by keeps.
  - apply update_status_fps.
Qed.

Lemma fps_triage_attempt p id : keeps (triage_attempt p id).
Proof.
  unfold triage_attempt, attempt_body, get_alert_for_update. apply fps_bind; [keeps|intros row].
  case_bool_decide; [keeps|]. apply fps_try.
  - apply fps_bind; [keeps|intros a]. apply fps_bind; [|intros out].
    + apply fps_same. apply pipeline_frame.
    + apply fps_bind; [apply fps_persist|intros vid]. keeps.
  - intros e k [= <-]. keeps.
Qed.

Lemma fps_triage_alert p id : keeps (triage_alert p id).
Proof.
  unfold triage_alert, set_alert_status. apply fps_try.
  - apply fps_bind; [apply fps_triage_attempt|intros ?; keeps].
  - intros e k. destruct (is_llm_failure e); [|done]. intros [= <-]. keeps; apply update_status_fps.
Qed.

(** The session after a commit or a rollback that was carried out. *)
Definition settled (d : db W) : Prop := working d = durable d /\ aborted d = false.
Lemma commit_leaves_settled d d' : commit d = (Ret tt, d') -> settled d'.
Proof.
  unfold commit, settled. destruct (aborted d); [by intros [= <-]|].
  destruct (commit_statement (outer d)) as [[o []] w]; by intros [= -> <-].
Qed.
Lemma rollback_settles d o d' : rollback d = (o, d') -> settled d'.
Proof. unfold rollback, settled. destruct (statement (outer d)). by intros [= _ <-]. Qed.

Lemma triage_attempt_settles p id d a d' : triage_attempt p id d = (Ret a, d') -> settled d'.
Proof.
  unfold triage_attempt. intros [(row & d1 & _ & H)|(e & _ & [=])]%bind_inv. case_bool_decide.
  - apply bind_inv in H as [([] & d2 & H2%rollback_settles & [= _ <-])|(e & _ & [=])]. done.
  - unfold try_except in H. destruct (attempt_body p id row d1) as [[a1|e] d2] eqn:E.
    + injection H as <- <-. unfold attempt_body in E.
      apply bind_inv in E as [(a2 & d3 & _ & E)|(e & _ & [=])].
      apply bind_inv in E as [(out & d4 & _ & E)|(e & _ & [=])].
      apply bind_inv in E as [(vid & d5 & _ & E)|(e & _ & [=])].
      apply bind_inv in E as [([] & d6 & E%commit_leaves_settled & [= _ <-])|(e & _ & [=])]. done.
    + apply rollback_then_raise in H as (_ & e' & [=] & _).
Qed.

Lemma triage_alert_settles p id d s d' : triage_alert p id d = (Ret s, d') -> settled d'.
Proof.
  unfold triage_alert, try_except. destruct ((_ ← triage_attempt p id; mret triaged) d) as [[s1|e] d1] eqn:E.
  - intros [= <- <-]. apply bind_inv in E as [(a & d2 & E%triage_attempt_settles & [= _ <-])|(e & _ & [=])]. done.
  - destruct (is_llm_failure e); [|done].
    intros [([] & d2 & _ & H)|(e' & _ & [=])]%bind_inv.
    apply bind_inv in H as [([] & d3 & H%commit_leaves_settled & [= _ <-])|(e' & _ & [=])]. done.
Qed.

Definition total (n : SeedCounts) : Z := sc_created n + sc_skipped n.

(** One candidate: it is in the table afterwards, whoever put it there. *)
Lemma seed_one_ret injected p n c d n' d' :
  seed_one injected p n c d = (Ret n', d') -> settled d ->
  settled d' /\ fps (durable d) ⊆ fps (durable d') /\ total n' = total n + 1 /\
  (sc_failed n' - sc_failed n = 0 \/ sc_failed n' - sc_failed n = 1 /\ sc_created n' = sc_created n + 1) /\
  sc_created n <= sc_created n' /\
  exists fp, Alert.fingerprint (sd_alert c) = Some fp /\ fp ∈ fps (durable d').
Proof.
  unfold seed_one, total. intros [(r & d1 & Hi & H)|(e & _ & [=])]%bind_inv [Hw Ha].
  pose proof (insert_alert_spec _ _ _ _ Hi) as [Hd1 (fp & Hfp & Hins)].
  pose proof (insert_alert_open _ _ _ _ Ha Hi) as Hopen.
  apply bind_inv in H as [([] & d2 & Hc & H)|(e & _ & [=])]. pose proof (commit_leaves_settled _ _ Hc) as Hs2.
  assert (Hd2 : durable d2 = working d1).
  { destruct (commit_spec _ _ _ Hc Hopen) as [E|[_ [e [=]]]]. exact E. }
  assert (Hin : fps (durable d) ⊆ fps (durable d2) /\ fp ∈ fps (durable d2)).
  { rewrite Hd2. unfold inserted in Hins. rewrite Hw in Hins. destruct (created r).
    - destruct Hins as (_ & _ & row & -> & _ & <- & _). unfold fps. cbn [add_alert alerts]. rewrite map_app. set_solver.
    - destruct Hins as (-> & row & Hrow & _). split; [done|]. apply find_fingerprint_Some in Hrow as [Hr <-].
      by apply list_elem_of_fmap_2. }
  destruct (created r); cbn [negb] in H.
  2: { injection H as <- <-. cbn [sc_created sc_skipped sc_failed]. destruct Hin.
       split_and!; try done; [lia|left; lia|by exists fp]. }
  apply bind_inv in H as [(script & d3' & [= Hsc ->] & H)|(e & _ & [=])].
  apply bind_inv in H as [(pipeline & d3 & [= Hp ->] & H)|(e & _ & [=])].
  apply bind_inv in H as [(s & d4 & Ht & [= <- <-])|(e & _ & [=])].
  pose proof (triage_alert_settles _ _ _ _ _ Ht) as Hs4.
  destruct (fps_triage_alert _ _ _ _ _ (fps (durable d3)) Ht eq_refl) as [Hk _]; [by destruct Hs2 as [-> _]|].
  rewrite Hk. cbn [sc_created sc_skipped sc_failed]. destruct Hin.
  split_and!; try done; [lia|case_bool_decide; [right|left]; lia|lia|by exists fp].
Qed.

Lemma seed_fold_ret injected p cs n d n' d' :
  foldM (seed_one injected p) cs n d = (Ret n', d') -> settled d ->
  settled d' /\ fps (durable d) ⊆ fps (durable d') /\ total n' = total n + py_len cs /\
  sc_failed n <= sc_failed n' /\ sc_failed n' - sc_failed n <= sc_created n' - sc_created n /\
  Forall (fun c => exists fp, Alert.fingerprint (sd_alert c) = Some fp /\ fp ∈ fps (durable d')) cs.
Proof.
  revert n d. induction cs as [|c cs IH]; intros n d H Hs; cbn [foldM] in H.
  { injection H as <- <-. unfold py_len. cbn [length]. split_and!; try done; lia. }
  apply bind_inv in H as [(n1 & d1 & H1 & H)|(e & _ & [=])].
  apply seed_one_ret in H1 as (Hs1 & Hsub & Ht & Hf & Hc & fp & Hfp & Hin); [|done].
  destruct (IH n1 d1 H Hs1) as (Hs' & Hsub' & Ht' & Hf' & Hfc & Hall). unfold py_len in *. cbn [length].
  split_and!; try done; [set_solver|lia|lia|lia|]. constructor; [|done]. exists fp. split; [done|]. by apply Hsub'.
Qed.

(** A candidate whose fingerprint is in the table is skipped, at no cost. *)
Lemma seed_known injected p n c d fp :
  Alert.fingerprint (sd_alert c) = Some fp -> fp ∈ fps (durable d) -> settled d ->
  let '(o, d') := seed_one injected p n c d in
  durable d' = durable d /\
  (forall n', o = Ret n' -> settled d' /\ n' = Counts (sc_created n) (sc_skipped n + 1) (sc_failed n)) /\
  forall injected2 q, seed_one injected2 q n c d = (o, d').
Proof.
  intros Hfp Hin [Hw Ha]. unfold seed_one, mbind, M_bind.
  destruct (insert_alert (sd_alert c) d) as [[r|e] d1] eqn:Hi.
  2: { apply insert_alert_spec in Hi as [Hd _]. by split_and!. }
  pose proof (insert_alert_spec _ _ _ _ Hi) as [Hd1 (fp' & Hfp' & Hins)]. simplify_eq.
  unfold inserted in Hins. rewrite Hw in Hins. destruct (created r) eqn:Hcr.
  { by destruct Hins as [Hn _]. }
  destruct Hins as [Hw1 _]. destruct (commit d1) as [[[]|e] d2] eqn:Hc;
    pose proof (commit_same _ _ _ Hc ltac:(congruence)) as Hd2; cbn [negb].
  - split; [unfold mret, M_ret in *; congruence|]. split; [|done]. intros n' [= <-]. split; [|done].
    by eapply commit_leaves_settled.
  - split; [congruence|]. by split.
Qed.

Lemma seed_again injected p cs n d :
  Forall (fun c => exists fp, Alert.fingerprint (sd_alert c) = Some fp /\ fp ∈ fps (durable d)) cs -> settled d ->
  let '(o, d') := foldM (seed_one injected p) cs n d in
  durable d' = durable d /\
  (forall n', o = Ret n' -> n' = Counts (sc_created n) (sc_skipped n + py_len cs) (sc_failed n)) /\
  forall injected2 q, foldM (seed_one injected2 q) cs n d = (o, d').
Proof.
  intros Hall. revert n d Hall. induction cs as [|c cs IH]; intros n d Hall Hs; cbn [foldM].
  { split_and!; try done. intros n' [= <-]. unfold py_len. cbn [length]. destruct n. f_equal. cbn. lia. }
  apply Forall_cons in Hall as [(fp & Hfp & Hin) Hall]. unfold mbind at 1, M_bind at 1.
  pose proof (seed_known injected p n c d fp Hfp Hin Hs) as H1.
  destruct (seed_one injected p n c d) as [[n1|e] d1]; destruct H1 as (Hd1 & Hr1 & Hq1).
  - destruct (Hr1 n1 eq_refl) as [Hs1 ->]. specialize (IH (Counts (sc_created n) (sc_skipped n + 1) (sc_failed n)) d1).
    rewrite Hd1 in IH. specialize (IH Hall Hs1). destruct (foldM (seed_one injected p) cs _ d1) as [o d'].
    destruct IH as (Hd & Hr & Hq). split; [congruence|]. split.
    + intros n' Ho. rewrite (Hr n' Ho). cbn [sc_created sc_skipped sc_failed]. unfold py_len. cbn [length]. f_equal. lia.
    + intros i2 q. unfold mbind at 1, M_bind at 1. by rewrite Hq1.
  - split_and!; try done. intros i2 q. unfold mbind at 1, M_bind at 1. by rewrite Hq1.
Qed.

(** C40: seeding is idempotent and costs nothing twice: a run that ends counts every candidate
    once, as created or skipped, and as failed only what it created; from then on, whatever
    else was committed in between without removing an alert, a run over the same candidates
    commits nothing, consults no pipeline (it is the same with any other), and if it ends
    reports every candidate skipped. *)
Theorem seed_idempotent injected p injected2 q cs d n d' d2 :
  seed_session injected p cs d = (Ret n, d') -> fps (durable d') ⊆ fps (durable d2) ->
  sc_created n + sc_skipped n = py_len cs /\ 0 <= sc_failed n <= sc_created n /\
  let '(o, d3) := seed_session injected2 q cs d2 in
  durable d3 = durable d2 /\ (forall n2, o = Ret n2 -> n2 = Counts 0 (py_len cs) 0) /\
  forall injected3 q3, seed_session injected3 q3 cs d2 = (o, d3).
Proof.
  unfold seed_session at 1, in_session. set (d0 := Db (outer d) (durable d) (durable d) false).
  destruct (foldM (seed_one injected p) cs (Counts 0 0 0) d0) as [o1 d1] eqn:E. intros [= -> <-] Hsub. cbn [durable] in Hsub.
  destruct (seed_fold_ret _ _ _ _ _ _ _ E) as (_ & _ & Ht & Hf & Hfc & Hall); [done|].
  unfold total in Ht. cbn [sc_created sc_skipped sc_failed] in *. split; [lia|]. split; [lia|].
  unfold seed_session, in_session. set (d02 := Db (outer d2) (durable d2) (durable d2) false).
  pose proof (seed_again injected2 q cs (Counts 0 0 0) d02) as H2.
  destruct (foldM (seed_one injected2 q) cs (Counts 0 0 0) d02) as [o3 d3].
  destruct H2 as (Hd3 & Hr3 & Hq3).
  - eapply Forall_impl; [exact Hall|]. intros c (fp & Hfp & Hin). exists fp. split; [done|]. by apply Hsub.
  - done.
  - cbn [durable]. split; [done|]. split.
    + intros n2 Ho. rewrite (Hr3 n2 Ho). cbn [sc_created sc_skipped sc_failed]. done.
    + intros i3 q3. by rewrite Hq3.
Qed.
End attempts.

(** ** One candidate, twice *)

Module SeedToy.
Export Job.Toy.
#[export] Instance str_reprs : StrRepr := fun s => s.
Definition candidates : list candidate :=
  [Seeded session_alert (u "{}") [u "get_ip_geo_asn"]; Seeded session_alert (u "{}") []].
Definition first : outcome exn SeedCounts * db world := seed_session false (fun _ => Ret answers) candidates start.
End SeedToy.
Import SeedToy.

(** The second candidate is the first one's session; the second run creates nothing. *)
Lemma seed_idempotent_witness :
  SeedToy.first.1 = Ret (Counts 1 1 0) /\
  seed_session false (fun _ => Ret refuses) SeedToy.candidates SeedToy.first.2 =
    (Ret (Counts 0 2 0), (seed_session false (fun _ => Ret answers) SeedToy.candidates SeedToy.first.2).2).
Proof.
  assert (E : SeedToy.first = (Ret (Counts 1 1 0), SeedToy.first.2)) by (vm_compute; reflexivity).
  destruct (seed_idempotent false (fun _ => Ret answers) false (fun _ => Ret answers) SeedToy.candidates start
    (Counts 1 1 0) SeedToy.first.2 SeedToy.first.2 E ltac:(done)) as (_ & _ & H).
  split; [vm_compute; reflexivity|].
  destruct (seed_session false (fun _ => Ret answers) SeedToy.candidates SeedToy.first.2) as [o d3] eqn:E2.
  destruct H as (_ & Hr & Hq). rewrite Hq. f_equal.
  vm_compute in E2. injection E2 as <- _. reflexivity.
Defined.
