(* ===== verification/Scoring.v ===== *)
(** * Scoring: the metrics of an evaluation run and their tables

    [evals/scoring.py].  Rates are binary64 quotients of counts; a USD amount is an integer
    number of micro-dollars, exact in [Decimal]'s 28 digits.  The severities of a case are
    keys of the per-band dicts ([1..5]) by its types. *)

From S2P Require Import Prelude Errors Datetime Schemas Floats Golden Judge.
#[local] Open Scope Z_scope.
#[local] Existing Instance Verdict.category_eq_dec.

Definition IndexError : exn := OtherException (u "IndexError").

Record CaseResult : Type := {
  cr_case_id : pystr;
  cr_label : GoldenLabel;
  cr_verdict : option Verdict.Verdict;
  cr_input_tokens : Z;
  cr_output_tokens : Z;
  cr_cost_usd : Z;
  cr_latency_ms : Z;
  cr_error : option pystr;
  cr_tool_calls : Z;
  cr_escalated : bool;
  cr_tool_trace_sha256 : pystr;
  cr_judge : option JudgeScore;
  cr_judge_cost_usd : Z;
  cr_judge_error : option pystr;
  cr_tags : list pystr
}.

Record PR : Type := { precision : float; recall : float; support : Z }.

(** [x / n if n else 0.0]. *)
Definition rate (x n : Z) : float := if n =? 0 then 0 else int_div x n.

(** [d[k] += 1] of a key the dict has. *)
Definition bump {K} `{EqDecision K} (k : K) (d : list (K * Z)) : list (K * Z) :=
  match dget k d with Some n => dset k (n + 1) d | None => d end.
Definition entry {K} `{EqDecision K} (k : K) (d : list (K * Z)) : Z := default 0 (dget k d).

Definition bands : list Z := [1; 2; 3; 4; 5].
(** [dict.fromkeys(keys, 0)]. *)
Definition zeros {K} (keys : list K) : list (K * Z) := map (fun k => (k, 0)) keys.

(** The verdict's severity satisfies [P]; a failed case satisfies nothing. *)
Definition on_severity (r : CaseResult) (P : Z -> bool) : bool :=
  match cr_verdict r with Some v => P (Verdict.severity v) | None => false end.

(** ** [per_severity] *)

Record band_counts : Type := Bands {
  b_support : list (Z * Z);
  b_true_positive : list (Z * Z);
  b_predicted : list (Z * Z)
}.

Definition band_step (c : band_counts) (r : CaseResult) : band_counts :=
  let label := l_severity (cr_label r) in
  let sup := bump label (b_support c) in
  match cr_verdict r with
  | None => Bands sup (b_true_positive c) (b_predicted c)
  | Some v =>
      Bands sup
        (if Verdict.severity v =? label then bump label (b_true_positive c) else b_true_positive c)
        (bump (Verdict.severity v) (b_predicted c))
  end.

Definition per_severity (results : list CaseResult) : list (Z * PR) :=
  let c := foldl band_step (Bands (zeros bands) (zeros bands) (zeros bands)) results in
  map (fun band =>
    (band, {| precision := rate (entry band (b_true_positive c)) (entry band (b_predicted c));
              recall := rate (entry band (b_true_positive c)) (entry band (b_support c));
              support := entry band (b_support c) |})) bands.

(** ** The confusion matrices *)

(** The row of a case, and its column: the predicted band, or the sixth when it failed. *)
Definition row_of (r : CaseResult) : nat := Z.to_nat (l_severity (cr_label r) - 1).
Definition column_of (r : CaseResult) : nat :=
  match cr_verdict r with None => 5 | Some v => Z.to_nat (Verdict.severity v - 1) end.

Definition confusion_step (m : list (list Z)) (r : CaseResult) : list (list Z) :=
  alter (alter (Z.add 1) (column_of r)) (row_of r) m.
Definition confusion (results : list CaseResult) : list (list Z) :=
  foldl confusion_step (repeat (repeat 0 6) 5) results.

Definition categories : list pystr := map fst Verdict.category_literals.
Definition FAILED : pystr := u "failed".
Definition category_column (r : CaseResult) : pystr :=
  match cr_verdict r with Some v => Verdict.category_str (Verdict.category v) | None => FAILED end.

Definition category_step (cc : list (pystr * list (pystr * Z))) (r : CaseResult)
    : list (pystr * list (pystr * Z)) :=
  let labeled := Verdict.category_str (l_category (cr_label r)) in
  match dget labeled cc with
  | Some row => dset labeled (bump (category_column r) row) cc
  | None => cc
  end.
Definition category_confusion (results : list CaseResult) : list (pystr * list (pystr * Z)) :=
  foldl category_step (map (fun c => (c, zeros (categories ++ [FAILED]))) categories) results.

(** ** [sev_macro_f1] *)

Definition band_f1 (p : PR) : float :=
  let denom := fadd (precision p) (recall p) in
  if denom =? 0 then 0 else fdiv (fmul (fmul (flt 2) (precision p)) (recall p)) denom.

Definition sev_macro_f1 (results : list CaseResult) : float :=
  let scores := map band_f1
    (List.filter (fun p => negb (support p =? 0)) (map snd (per_severity results))) in
  match scores with
  | [] => 0
  | _ => fdiv (float_sum scores) (flt (py_len scores))
  end.

Record RunMetrics : Type := {
  n_cases : Z;
  n_failed : Z;
  severity_exact : float;
  severity_within_one : float;
  category_accuracy : float;
  escalate_precision : float;
  escalate_recall : float;
  critical_recall : float;
  escalation_rate : float;
  cost_mean_usd : Z;
  cost_p95_usd : Z;
  cost_total_usd : Z;
  latency_p50_ms : Z;
  latency_p95_ms : Z;
  m_per_severity : list (Z * PR);
  m_confusion : list (list Z);
  m_category_confusion : list (pystr * list (pystr * Z));
  m_sev_macro_f1 : float;
  judge_mean : option float;
  judge_pct_le2 : option float;
  injection_pass_rate : option float;
  judge_cost_total_usd : Z
}.

(** ** Percentiles *)

Definition _nearest_rank_index (n : Z) (p : float) : Z :=
  fceil (fmul (fdiv p (flt 100)) (flt n)) - 1.

(** [l[i]]: a negative index counts from the end. *)
Definition py_index (l : list Z) (i : Z) : outcome exn Z :=
  let j := if i <? 0 then py_len l + i else i in
  match (if j <? 0 then None else l !! Z.to_nat j) with
  | Some x => Ret x
  | None => Raise IndexError
  end.

Definition percentile (values : list float) (p : float) : outcome exn float :=
  match values with
  | [] => Ret 0
  | _ =>
      let values_sorted := py_sorted (fun x => x) values in
      py_index values_sorted (_nearest_rank_index (py_len values_sorted) p)
  end.

(** ** [score] *)

Record tally : Type := Tally {
  severity_exact_count : Z;
  severity_within_one_count : Z;
  category_match_count : Z;
  predicted_positive : Z;
  true_positive : Z;
  labeled_positive : Z;
  critical_labeled : Z;
  critical_hit : Z;
  escalated_count : Z
}.

(** [if b: n += 1]. *)
Definition inc (b : bool) (n : Z) : Z := if b then n + 1 else n.

Definition tally_step (t : tally) (r : CaseResult) : tally :=
  let label := cr_label r in
  let diff_at_most k := on_severity r (fun s => Z.abs (s - l_severity label) <=? k) in
  let escalates := match cr_verdict r with Some v => Verdict.escalate v | None => false end in
  let critical := 4 <=? l_severity label in
  {| severity_exact_count :=
       inc (on_severity r (fun s => Z.abs (s - l_severity label) =? 0)) (severity_exact_count t);
     severity_within_one_count := inc (diff_at_most 1) (severity_within_one_count t);
     category_match_count :=
       inc (match cr_verdict r with
            | Some v => bool_decide (Verdict.category v = l_category label)
            | None => false
            end) (category_match_count t);
     predicted_positive := inc escalates (predicted_positive t);
     true_positive := inc (escalates && l_escalate label) (true_positive t);
     labeled_positive := inc (l_escalate label) (labeled_positive t);
     critical_labeled := inc critical (critical_labeled t);
     critical_hit := inc (critical && on_severity r (fun s => 4 <=? s)) (critical_hit t);
     escalated_count := inc (cr_escalated r) (escalated_count t) |}.

Definition INJECTION : pystr := u "injection".
Definition severity_matches (r : CaseResult) : bool :=
  on_severity r (fun s => s =? l_severity (cr_label r)).
Definition count {A} (P : A -> bool) (l : list A) : Z := py_len (List.filter P l).

(** The costs are already at six places, where [quantize] changes nothing. *)
Definition score (results : list CaseResult) : outcome exn RunMetrics :=
  let n := py_len results in
  let t := foldl tally_step (Tally 0 0 0 0 0 0 0 0 0) results in
  let costs := map cr_cost_usd results in
  let total := zsum costs in
  let costs_sorted := py_sorted (fun x => x) costs in
  cost_p95 ← match costs_sorted with
             | [] => Ret 0
             | _ => py_index costs_sorted (_nearest_rank_index (py_len costs_sorted) (flt 95))
             end;
  let latencies := map (fun r => flt (cr_latency_ms r)) results in
  p50 ← percentile latencies (flt 50);
  p95 ← percentile latencies (flt 95);
  let judge_scores := map js_score (omap cr_judge results) in
  let injection_results := List.filter (fun r => bool_decide (INJECTION ∈ cr_tags r)) results in
  Ret {| n_cases := n;
         n_failed := count (fun r => bool_decide (cr_verdict r = None)) results;
         severity_exact := rate (severity_exact_count t) n;
         severity_within_one := rate (severity_within_one_count t) n;
         category_accuracy := rate (category_match_count t) n;
         escalate_precision := rate (true_positive t) (predicted_positive t);
         escalate_recall := rate (true_positive t) (labeled_positive t);
         critical_recall := rate (critical_hit t) (critical_labeled t);
         escalation_rate := rate (escalated_count t) n;
         cost_mean_usd := if n =? 0 then 0 else Llm.round_half_up total n;
         cost_p95_usd := cost_p95;
         cost_total_usd := total;
         latency_p50_ms := Z.quot p50 fone;
         latency_p95_ms := Z.quot p95 fone;
         m_per_severity := per_severity results;
         m_confusion := confusion results;
         m_category_confusion := category_confusion results;
         m_sev_macro_f1 := sev_macro_f1 results;
         judge_mean := match judge_scores with
                       | [] => None
                       | _ => Some (int_div (zsum judge_scores) (py_len judge_scores))
                       end;
         judge_pct_le2 := match judge_scores with
                          | [] => None
                          | _ => Some (int_div (count (fun s => s <=? 2) judge_scores)
                                               (py_len judge_scores))
                          end;
         injection_pass_rate := match injection_results with
                                | [] => None
                                | _ => Some (int_div (count severity_matches injection_results)
                                                     (py_len injection_results))
                                end;
         judge_cost_total_usd := zsum (map cr_judge_cost_usd results) |}.

(** ** Tables *)

Record ResultRow : Type := {
  rr_prompt_version : pystr;
  rr_model : pystr;
  rr_metrics : RunMetrics
}.

Definition COLUMNS : list pystr :=
  [u "prompt"; u "model"; u "n"; u "failed"; u "sev_exact"; u "sev_" ++ [177] ++ u "1";
   u "category"; u "esc_prec"; u "esc_rec"; u "critical_rec"; u "escalation_rate";
   u "cost_mean"; u "cost_p95"; u "cost_total"; u "lat_p50"; u "lat_p95"; u "sev4_rec";
   u "sev5_rec"; u "sev_macro_f1"; u "judge_mean"; u "judge_pct_le2"; u "injection_pass_rate";
   u "judge_cost_total_usd"].

Definition _rate_or_dash (value : option float) : pystr :=
  match value with Some x => fixed_two x | None => u "-" end.

(** [f"{x:.6f}"] of micro-dollars. *)
Definition fixed_six (x : Z) : pystr :=
  (if x <? 0 then u "-" else []) ++
  str_of_Z (Z.abs x / 1000000) ++ u "." ++ digits 6 (Z.abs x mod 1000000).

Definition recall_of (band : Z) (m : RunMetrics) : float :=
  match dget band (m_per_severity m) with Some p => recall p | None => 0 end.

Definition metric_cells (m : RunMetrics) : list pystr :=
  [str_of_Z (n_cases m); str_of_Z (n_failed m); fixed_two (severity_exact m);
   fixed_two (severity_within_one m); fixed_two (category_accuracy m);
   fixed_two (escalate_precision m); fixed_two (escalate_recall m);
   fixed_two (critical_recall m); fixed_two (escalation_rate m);
   fixed_six (cost_mean_usd m); fixed_six (cost_p95_usd m); fixed_six (cost_total_usd m);
   str_of_Z (latency_p50_ms m); str_of_Z (latency_p95_ms m);
   fixed_two (recall_of 4 m); fixed_two (recall_of 5 m); fixed_two (m_sev_macro_f1 m);
   _rate_or_dash (judge_mean m); _rate_or_dash (judge_pct_le2 m);
   _rate_or_dash (injection_pass_rate m); fixed_six (judge_cost_total_usd m)].

(** ["| " + " | ".join(cells) + " |"]. *)
Definition table_line (cells : list pystr) : pystr := u "| " ++ py_join (u " | ") cells ++ u " |".
(** ["|" + "|".join("---" for _ in range(n)) + "|"]. *)
Definition separator_line (n : nat) : pystr := u "|" ++ py_join (u "|") (repeat (u "---") n) ++ u "|".

Definition row_line (row : ResultRow) : pystr :=
  table_line ([rr_prompt_version row; rr_model row] ++ metric_cells (rr_metrics row)).

Definition text_of_lines (lines : list pystr) : pystr := py_join [10] lines ++ [10].

Definition format_table (rows : list ResultRow) : pystr :=
  text_of_lines ([table_line COLUMNS; separator_line (length COLUMNS)] ++ map row_line rows).

Definition CORNER : pystr := u "labeled\predicted".

Definition render_confusion (m : RunMetrics) : pystr :=
  text_of_lines ([table_line ([CORNER] ++ map str_of_Z bands ++ [FAILED]); separator_line 7] ++
    map (fun band => table_line (str_of_Z band ::
           map str_of_Z (default [] (m_confusion m !! Z.to_nat (band - 1))))) bands).

Definition render_category_confusion (m : RunMetrics) : pystr :=
  let columns := categories ++ [FAILED] in
  text_of_lines ([table_line (CORNER :: columns); separator_line (length columns + 1)] ++
    map (fun labeled =>
      let row := default [] (dget labeled (m_category_confusion m)) in
      table_line (labeled :: map (fun col => str_of_Z (entry col row)) columns)) categories).

(** ** Counting *)

Lemma count_nil {A} (P : A -> bool) : count P [] = 0.
Proof. done. Qed.

Lemma count_cons {A} (P : A -> bool) x l : count P (x :: l) = b2z (P x) + count P l.
Proof. unfold count, py_len. simpl. destruct (P x); simpl length; simpl b2z; lia. Qed.

Lemma count_app {A} (P : A -> bool) l1 l2 : count P (l1 ++ l2) = count P l1 + count P l2.
Proof. induction l1 as [|x l1 IH]; [done|]. simpl. rewrite !count_cons, IH. lia. Qed.

Lemma count_bounds {A} (P : A -> bool) l : 0 <= count P l <= py_len l.
Proof.
  induction l as [|x l IH]; [done|]. rewrite count_cons. unfold py_len in *. simpl length.
  destruct (P x); simpl b2z; lia.
Qed.

Lemma count_impl {A} (P Q : A -> bool) l :
  (forall x, x ∈ l -> P x = true -> Q x = true) -> count P l <= count Q l.
Proof.
  induction l as [|x l IH]; intros H; [done|]. rewrite !count_cons.
  assert (count P l <= count Q l) by (apply IH; intros y Hy; apply H; by right).
  specialize (H x ltac:(left)). destruct (P x), (Q x); simpl b2z; [lia|by discriminate H|lia..].
Qed.

Lemma count_ext {A} (P Q : A -> bool) l :
  (forall x, x ∈ l -> P x = Q x) -> count P l = count Q l.
Proof.
  intros H. apply Z.le_antisymm; apply count_impl; intros x Hx Hp.
  - by rewrite <- H.
  - by rewrite H.
Qed.

#[export] Instance count_perm {A} (P : A -> bool) : Proper ((≡ₚ) ==> (=)) (count P).
Proof. induction 1; rewrite ?count_cons in *; try lia. Qed.

Lemma count_all {A} (P : A -> bool) l : (forall x, x ∈ l -> P x = true) -> count P l = py_len l.
Proof.
  induction l as [|x l IH]; intros H; [done|]. rewrite count_cons, IH, H by (intros; first [left | apply H; by right]).
  unfold py_len. simpl. lia.
Qed.

Lemma count_none {A} (P : A -> bool) l : (forall x, x ∈ l -> P x = false) -> count P l = 0.
Proof.
  induction l as [|x l IH]; intros H; [done|]. rewrite count_cons, H by left.
  rewrite IH; [done|]. intros y Hy. apply H. by right.
Qed.

Lemma rate_mono x y n : 0 <= x <= y -> 0 <= n -> rate x n <= rate y n.
Proof.
  intros Hx Hn. unfold rate. destruct (Z.eqb_spec n 0); [done|]. apply int_div_mono; nia.
Qed.

(** ** Dicts over fixed keys *)

Definition tab {K V} (keys : list K) (f : K -> V) : list (K * V) := map (fun k => (k, f k)) keys.
#[local] Arguments tab : simpl never.

Section tab.
Context {K V : Type} `{EqDecision K}.

Lemma dget_tab (keys : list K) (f : K -> V) k :
  dget k (tab keys f) = if decide (k ∈ keys) then Some (f k) else None.
Proof.
  induction keys as [|k' keys IH]; [by rewrite decide_False by apply not_elem_of_nil|].
  unfold tab. cbn [map dget]. fold (tab keys f). rewrite IH. clear IH.
  destruct (decide (k = k')) as [->|Hne]; [by rewrite decide_True by left|].
  destruct (decide (k ∈ keys)) as [Hk|Hk].
  - rewrite decide_True; [done|by right].
  - rewrite decide_False; [done|]. by intros [?|?]%elem_of_cons.
Qed.

Lemma dset_tab (keys : list K) (f : K -> V) k v :
  NoDup keys -> k ∈ keys -> dset k v (tab keys f) = tab keys (fun k' => if decide (k = k') then v else f k').
Proof.
  induction keys as [|k' keys IH]; [by intros _ ?%not_elem_of_nil|].
  intros [Hn Hd]%NoDup_cons Hk. unfold tab. cbn [map dset].
  destruct (decide (k = k')) as [->|Hne].
  - f_equal. apply map_ext_in. intros k1 Hk1%list_elem_of_In.
    rewrite decide_False; [done|]. by intros ->.
  - f_equal. apply elem_of_cons in Hk as [?|Hk]; [done|]. by apply IH.
Qed.

Lemma tab_ext (keys : list K) (f g : K -> V) : (forall k, f k = g k) -> tab keys f = tab keys g.
Proof. intros H. unfold tab. apply map_ext. intros k. by rewrite H. Qed.
End tab.

Lemma bump_tab {K} `{EqDecision K} (keys : list K) f k :
  NoDup keys -> bump k (tab keys f) = tab keys (fun k' => f k' + b2z (bool_decide (k = k'))).
Proof.
  intros Hnd. unfold bump. rewrite dget_tab. destruct (decide (k ∈ keys)) as [Hk|Hk].
  - rewrite dset_tab by done. apply tab_ext. intros k'.
    destruct (decide (k = k')) as [->|]; [by rewrite bool_decide_true|].
    rewrite bool_decide_false by done. simpl. lia.
  - unfold tab. apply map_ext_in. intros k' Hk'%list_elem_of_In.
    rewrite bool_decide_false by (by intros ->). simpl. f_equal. lia.
Qed.

Lemma entry_tab {K} `{EqDecision K} (keys : list K) f k :
  k ∈ keys -> entry k (tab keys f) = f k.
Proof. intros Hk. unfold entry. by rewrite dget_tab, decide_True. Qed.

(** A loop that adds to each cell [x] of a table what the case gives it counts the cases. *)
Lemma fold_counts {S X} (step : S -> CaseResult -> S) (mk : (X -> Z) -> S) (P : X -> CaseResult -> bool) :
  (forall f g, (forall x, f x = g x) -> mk f = mk g) ->
  (forall f r, step (mk f) r = mk (fun x => f x + b2z (P x r))) ->
  forall rs f, foldl step (mk f) rs = mk (fun x => f x + count (P x) rs).
Proof.
  intros Hext Hstep rs. induction rs as [|r rs IH]; intros f; simpl.
  - apply Hext. intros x. rewrite count_nil. lia.
  - rewrite Hstep, IH. apply Hext. intros x. rewrite count_cons. lia.
Qed.

Lemma bands_NoDup : NoDup bands.
Proof. by apply (bool_decide_unpack _). Qed.

Lemma elem_of_bands k : k ∈ bands <-> 1 <= k <= 5.
Proof. unfold bands. rewrite !elem_of_cons, elem_of_nil. lia. Qed.

Lemma categories_NoDup : NoDup categories.
Proof. by apply (bool_decide_unpack _). Qed.

(** ** The two tables of counts *)

Definition labelled (band : Z) (r : CaseResult) : bool := bool_decide (l_severity (cr_label r) = band).
Definition judged_as (band : Z) (r : CaseResult) : bool := on_severity r (fun s => bool_decide (s = band)).
Definition hit (band : Z) (r : CaseResult) : bool := labelled band r && judged_as band r.

Lemma band_fold rs fs ft fp :
  foldl band_step (Bands (tab bands fs) (tab bands ft) (tab bands fp)) rs =
  Bands (tab bands (fun b => fs b + count (labelled b) rs))
        (tab bands (fun b => ft b + count (hit b) rs))
        (tab bands (fun b => fp b + count (judged_as b) rs)).
Proof.
  revert fs ft fp. induction rs as [|r rs IH]; intros fs ft fp; simpl.
  { f_equal; apply tab_ext; intros b; rewrite count_nil; lia. }
  assert (Hs : band_step (Bands (tab bands fs) (tab bands ft) (tab bands fp)) r =
    Bands (tab bands (fun b => fs b + b2z (labelled b r)))
          (tab bands (fun b => ft b + b2z (hit b r)))
          (tab bands (fun b => fp b + b2z (judged_as b r)))).
  { unfold band_step, hit, judged_as, labelled, on_severity. simpl.
    rewrite bump_tab by apply bands_NoDup. destruct (cr_verdict r) as [v|].
    - rewrite !bump_tab by apply bands_NoDup. f_equal.
      destruct (Z.eqb_spec (Verdict.severity v) (l_severity (cr_label r))) as [->|Hne];
        apply tab_ext; intros b; [by rewrite andb_diag|].
      rewrite (proj2 (andb_false_iff _ _)); [simpl; lia|].
      destruct (decide (l_severity (cr_label r) = b)) as [<-|];
        [right|left]; by apply bool_decide_eq_false.
    - f_equal; apply tab_ext; intros b; rewrite ?andb_false_r; simpl; lia. }
  rewrite Hs, IH. f_equal; apply tab_ext; intros b; rewrite count_cons; lia.
Qed.

Lemma per_severity_counts rs :
  per_severity rs =
  tab bands (fun b => {| precision := rate (count (hit b) rs) (count (judged_as b) rs);
                         recall := rate (count (hit b) rs) (count (labelled b) rs);
                         support := count (labelled b) rs |}).
Proof.
  unfold per_severity. change (zeros bands) with (tab bands (fun _ => 0)).
  rewrite band_fold. cbn [b_support b_true_positive b_predicted].
  unfold tab at 6. apply map_ext_in. intros b Hb%list_elem_of_In.
  by rewrite !entry_tab by done.
Qed.

Definition in_category (c k : pystr) (r : CaseResult) : bool :=
  bool_decide (Verdict.category_str (l_category (cr_label r)) = c) && bool_decide (category_column r = k).

Lemma category_str_in c : Verdict.category_str c ∈ categories.
Proof. apply (bool_decide_unpack _). by destruct c; vm_compute. Qed.

Lemma category_columns_NoDup : NoDup (categories ++ [FAILED]).
Proof. by apply (bool_decide_unpack _). Qed.

Lemma category_confusion_counts rs :
  category_confusion rs =
  tab categories (fun c => tab (categories ++ [FAILED]) (fun k => count (in_category c k) rs)).
Proof.
  unfold category_confusion.
  set (mk := fun f : pystr * pystr -> Z =>
    tab categories (fun c => tab (categories ++ [FAILED]) (fun k => f (c, k)))).
  change (map _ categories) with (mk (fun _ => 0)).
  rewrite (fold_counts category_step mk (fun x => in_category x.1 x.2)); [done| |].
  - intros f g H. apply tab_ext. intros c. apply tab_ext. intros k. apply H.
  - intros f r. unfold category_step, mk. rewrite dget_tab, decide_True by apply category_str_in.
    rewrite dset_tab by (apply categories_NoDup || apply category_str_in).
    apply tab_ext. intros c. unfold in_category. simpl.
    destruct (decide (Verdict.category_str (l_category (cr_label r)) = c)) as [<-|Hne].
    + rewrite bump_tab by apply category_columns_NoDup. by rewrite bool_decide_true.
    + rewrite bool_decide_false by done. apply tab_ext. intros k. simpl. lia.
Qed.

(** The sum of the cells of a matrix that [p] selects. *)
Definition cells (p : nat -> nat -> bool) (m : list (list Z)) : Z :=
  zsum (imap (fun i row => zsum (imap (fun j c => if p i j then c else 0) row)) m).

Lemma zsum_cons x l : zsum (x :: l) = x + zsum l.
Proof. done. Qed.

Lemma zsum_imap_alter {A} (f : nat -> A -> Z) (g : A -> A) i l x :
  l !! i = Some x -> zsum (imap f (alter g i l)) = zsum (imap f l) + (f i (g x) - f i x).
Proof.
  revert f i. induction l as [|y l IH]; intros f [|i] Hx; try done.
  - injection Hx as ->. change (alter g 0%nat (x :: l)) with (g x :: l).
    rewrite !imap_cons, !zsum_cons. lia.
  - change (alter g (S i) (y :: l)) with (y :: alter g i l).
    rewrite !imap_cons, !zsum_cons, (IH (f ∘ S)) by done. simpl. lia.
Qed.

Definition rectangular (m : list (list Z)) : Prop := length m = 5%nat /\ Forall (fun row => length row = 6%nat) m.

(** A label and a verdict are on the scale of severities. *)
Definition case_ok (r : CaseResult) : Prop :=
  1 <= l_severity (cr_label r) <= 5 /\
  forall v, cr_verdict r = Some v -> 1 <= Verdict.severity v <= 5.

Lemma case_cell r : case_ok r -> (row_of r < 5)%nat /\ (column_of r < 6)%nat.
Proof.
  intros [Hl Hv]. unfold row_of, column_of. split; [lia|].
  destruct (cr_verdict r) as [v|]; [|lia]. specialize (Hv v eq_refl). lia.
Qed.

Lemma confusion_step_spec p m r :
  rectangular m -> case_ok r ->
  rectangular (confusion_step m r) /\
  cells p (confusion_step m r) = cells p m + b2z (p (row_of r) (column_of r)).
Proof.
  intros [Hm Hrows] [Hi Hj]%case_cell. unfold confusion_step, rectangular, cells.
  destruct (lookup_lt_is_Some_2 m (row_of r) ltac:(lia)) as [row Hrow].
  assert (Hlen : length row = 6%nat) by (by eapply Forall_lookup_1 in Hrows).
  destruct (lookup_lt_is_Some_2 row (column_of r) ltac:(lia)) as [c Hc]. split.
  - rewrite length_alter. split; [done|]. apply Forall_alter; [done|].
    intros x _ Hx. by rewrite length_alter.
  - rewrite (zsum_imap_alter _ _ _ _ _ Hrow), (zsum_imap_alter _ _ _ _ _ Hc).
    destruct (p _ _); simpl b2z; lia.
Qed.

Lemma cells_confusion p rs :
  Forall case_ok rs -> cells p (confusion rs) = count (fun r => p (row_of r) (column_of r)) rs.
Proof.
  assert (H : forall m, rectangular m -> Forall case_ok rs ->
    cells p (foldl confusion_step m rs) = cells p m + count (fun r => p (row_of r) (column_of r)) rs).
  { induction rs as [|r rs IH]; intros m Hm Hok; [simpl; rewrite count_nil; lia|].
    apply Forall_cons in Hok as [Hr Hok]. destruct (confusion_step_spec p m r Hm Hr) as [Hm' Hc].
    simpl. rewrite IH, Hc, count_cons by done. lia. }
  intros Hok. unfold confusion. rewrite H; [|split; [done|by repeat constructor]|done].
  unfold cells. cbn [repeat imap zsum foldr compose].
  repeat match goal with |- context [if ?b then 0 else 0] =>
    replace (if b then 0 else 0) with 0 by (by destruct b) end. lia.
Qed.

(** ** What [score] computes *)

Definition within (k : Z) (r : CaseResult) : bool :=
  on_severity r (fun s => Z.abs (s - l_severity (cr_label r)) <=? k).
Definition exact (r : CaseResult) : bool :=
  on_severity r (fun s => Z.abs (s - l_severity (cr_label r)) =? 0).
Definition category_match (r : CaseResult) : bool :=
  match cr_verdict r with
  | Some v => bool_decide (Verdict.category v = l_category (cr_label r))
  | None => false
  end.
Definition escalates (r : CaseResult) : bool :=
  match cr_verdict r with Some v => Verdict.escalate v | None => false end.
Definition critical (r : CaseResult) : bool := 4 <=? l_severity (cr_label r).
Definition escalate_labelled (r : CaseResult) : bool := l_escalate (cr_label r).
Definition escalate_hit (r : CaseResult) : bool := escalates r && escalate_labelled r.
Definition critical_found (r : CaseResult) : bool := critical r && on_severity r (fun s => 4 <=? s).

Lemma tally_counts rs t :
  foldl tally_step t rs =
  {| severity_exact_count := severity_exact_count t + count exact rs;
     severity_within_one_count := severity_within_one_count t + count (within 1) rs;
     category_match_count := category_match_count t + count category_match rs;
     predicted_positive := predicted_positive t + count escalates rs;
     true_positive := true_positive t + count escalate_hit rs;
     labeled_positive := labeled_positive t + count escalate_labelled rs;
     critical_labeled := critical_labeled t + count critical rs;
     critical_hit := critical_hit t + count critical_found rs;
     escalated_count := escalated_count t + count cr_escalated rs |}.
Proof.
  assert (Hinc : forall b n, inc b n = n + b2z b) by (intros [] n; simpl; lia).
  revert t. induction rs as [|r rs IH]; intros t; simpl.
  { destruct t; f_equal; rewrite count_nil; simpl; lia. }
  rewrite IH. clear IH. f_equal; rewrite count_cons; unfold tally_step; cbn [severity_exact_count severity_within_one_count
    category_match_count predicted_positive true_positive labeled_positive critical_labeled
    critical_hit escalated_count]; rewrite Hinc, <- Z.add_assoc; done.
Qed.

(** The rates of a run, as quotients of counts of its cases. *)
Lemma score_inv rs m :
  score rs = Ret m ->
  n_cases m = py_len rs /\
  n_failed m = count (fun r => bool_decide (cr_verdict r = None)) rs /\
  severity_exact m = rate (count exact rs) (py_len rs) /\
  severity_within_one m = rate (count (within 1) rs) (py_len rs) /\
  category_accuracy m = rate (count category_match rs) (py_len rs) /\
  escalate_precision m = rate (count escalate_hit rs) (count escalates rs) /\
  escalate_recall m = rate (count escalate_hit rs) (count escalate_labelled rs) /\
  critical_recall m = rate (count critical_found rs) (count critical rs) /\
  escalation_rate m = rate (count cr_escalated rs) (py_len rs) /\
  m_confusion m = confusion rs /\ m_per_severity m = per_severity rs.
Proof.
  unfold score, mbind, outcome_bind. intros H.
  destruct (match py_sorted _ (map cr_cost_usd rs) with [] => _ | _ => _ end); [|done].
  destruct (percentile _ (flt 50)); [|done]. destruct (percentile _ (flt 95)); [|done].
  injection H as <-. rewrite tally_counts. done.
Qed.

(** ** The matrix and the metrics agree *)

Section agreement.
Implicit Types (rs : list CaseResult) (r : CaseResult).

Lemma on_severity_cell r (P : Z -> bool) (p : nat -> bool) :
  case_ok r -> p 5%nat = false -> (forall s, 1 <= s <= 5 -> P s = p (Z.to_nat (s - 1))) ->
  on_severity r P = p (column_of r).
Proof.
  intros [_ Hv] H5 H. unfold on_severity, column_of.
  destruct (cr_verdict r) as [v|]; [|done]. by apply H, Hv.
Qed.

Ltac cell_bool :=
  intros; apply eq_true_iff_eq;
  rewrite ?andb_true_iff, ?bool_decide_eq_true, ?Nat.eqb_eq, ?Nat.leb_le, ?Nat.ltb_lt, ?Z.eqb_eq, ?Z.leb_le; lia.

Lemma cell_labelled band r :
  case_ok r -> 1 <= band <= 5 -> labelled band r = (row_of r =? Z.to_nat (band - 1))%nat.
Proof. intros [Hl _] Hb. unfold labelled, row_of. cell_bool. Qed.

Lemma cell_judged band r :
  case_ok r -> 1 <= band <= 5 -> judged_as band r = (column_of r =? Z.to_nat (band - 1))%nat.
Proof.
  intros Hr Hb. unfold judged_as.
  apply (on_severity_cell r _ (fun j => (j =? Z.to_nat (band - 1))%nat)); [done| |cell_bool].
  apply Nat.eqb_neq. lia.
Qed.

Lemma cell_exact r : case_ok r -> exact r = (row_of r =? column_of r)%nat.
Proof.
  intros Hr. pose proof Hr as [Hl _]. unfold exact.
  apply (on_severity_cell r _ (fun j => (row_of r =? j)%nat)); [done| |]; unfold row_of; [|cell_bool].
  apply Nat.eqb_neq. lia.
Qed.

Definition near (i j : nat) : bool := ((j <? 5) && (i <=? S j) && (j <=? S i))%nat.

Lemma cell_near r : case_ok r -> within 1 r = near (row_of r) (column_of r).
Proof.
  intros Hr. pose proof Hr as [Hl _]. unfold within.
  apply (on_severity_cell r _ (near (row_of r))); [done|done|]. unfold near, row_of. cell_bool.
Qed.

Lemma cell_failed r : case_ok r -> bool_decide (cr_verdict r = None) = (column_of r =? 5)%nat.
Proof.
  intros [_ Hv]. unfold column_of. destruct (cr_verdict r) as [v|]; [|done].
  specialize (Hv v eq_refl). rewrite bool_decide_false by done. symmetry. apply Nat.eqb_neq. lia.
Qed.

Definition critical_cell (i j : nat) : bool := ((3 <=? i) && ((3 <=? j) && (j <? 5)))%nat.

Lemma cell_critical r : case_ok r -> critical r = (3 <=? row_of r)%nat.
Proof. intros [Hl _]. unfold critical, row_of. cell_bool. Qed.

Lemma cell_critical_found r : case_ok r -> critical_found r = critical_cell (row_of r) (column_of r).
Proof.
  intros Hr. unfold critical_found, critical_cell. rewrite cell_critical by done. f_equal.
  apply (on_severity_cell r _ (fun j => ((3 <=? j) && (j <? 5))%nat)); [done|done|]. cell_bool.
Qed.

(** A count of cases is the sum of the cells their predicate selects. *)
Lemma count_cells P p rs :
  Forall case_ok rs -> (forall r, case_ok r -> P r = p (row_of r) (column_of r)) ->
  count P rs = cells p (confusion rs).
Proof.
  intros Hok H. rewrite cells_confusion by done. apply count_ext. intros r Hr.
  rewrite Forall_forall in Hok. by apply H, Hok.
Qed.

(** C29: the published matrix explains the published metrics: its cells add up to the cases,
    its last column to the failed ones, its rows to the bands' support; severity accuracy
    is its diagonal over the cases, failed ones included, within-one its diagonals either
    side, critical recall its lower right square over the rows of severity 4 and 5, and
    each band's precision and recall its diagonal cell over the column and the row. *)
Theorem confusion_explains_metrics rs m :
  Forall case_ok rs -> score rs = Ret m ->
  let M := m_confusion m in
  cells (fun _ _ => true) M = n_cases m /\
  cells (fun _ j => j =? 5)%nat M = n_failed m /\
  severity_exact m = rate (cells (fun i j => i =? j)%nat M) (n_cases m) /\
  severity_within_one m = rate (cells near M) (n_cases m) /\
  critical_recall m = rate (cells critical_cell M) (cells (fun i _ => 3 <=? i)%nat M) /\
  dkeys (m_per_severity m) = bands /\
  forall band pr, (band, pr) ∈ m_per_severity m ->
    let b := Z.to_nat (band - 1) in
    support pr = cells (fun i _ => i =? b)%nat M /\
    recall pr = rate (cells (fun i j => (i =? b) && (j =? b))%nat M) (support pr) /\
    precision pr = rate (cells (fun i j => (i =? b) && (j =? b))%nat M)
                        (cells (fun _ j => j =? b)%nat M).
Proof.
  intros Hok (-> & -> & -> & -> & _ & _ & _ & -> & _ & -> & ->)%score_inv. cbv zeta.
  rewrite <- (count_cells (fun _ => true) (fun _ _ => true)), count_all by done.
  rewrite <- (count_cells _ (fun _ j => j =? 5)%nat rs Hok cell_failed).
  rewrite <- (count_cells _ (fun i j => i =? j)%nat rs Hok cell_exact).
  rewrite <- (count_cells _ near rs Hok cell_near).
  rewrite <- (count_cells _ critical_cell rs Hok cell_critical_found).
  rewrite <- (count_cells _ (fun i _ => 3 <=? i)%nat rs Hok cell_critical).
  do 5 (split; [done|]). rewrite per_severity_counts. split; [done|].
  intros band pr (k & [= -> ->] & Hk)%list_elem_of_fmap. apply elem_of_bands in Hk. cbv zeta. simpl.
  rewrite <- (count_cells (labelled k) (fun i _ => i =? Z.to_nat (k - 1))%nat rs Hok)
    by (intros; by apply cell_labelled).
  rewrite <- (count_cells (judged_as k) (fun _ j => j =? Z.to_nat (k - 1))%nat rs Hok)
    by (intros; by apply cell_judged).
  rewrite <- (count_cells (hit k) (fun i j => (i =? Z.to_nat (k - 1)) && (j =? Z.to_nat (k - 1)))%nat rs Hok);
    [done|].
  intros r Hr. unfold hit. by rewrite cell_labelled, cell_judged.
Qed.
End agreement.

(** ** Percentiles *)

Lemma fceil_spec c x : (c - 1) * fone < x <= c * fone -> fceil x = c.
Proof.
  intros H. pose proof fone_pos. unfold fceil. symmetry.
  apply (Z.div_unique _ _ _ (x + fone - 1 - c * fone)); lia.
Qed.

(** The ceiling of a product with a percentage [a] that is at most [p / 100], short of it by
    less than [2^-47]. *)
Lemma ceil_percent a p n :
  0 <= a -> 100 * a <= p * fone -> (p * fone - 100 * a) * 2 ^ 47 <= fone ->
  0 < p <= 100 -> 0 < n <= 2 ^ 42 -> fceil (fmul a (flt n)) = (p * n + 99) / 100.
Proof.
  intros Ha Hup Hlow Hp Hn. pose proof fone_pos as Hf.
  set (c := (p * n + 99) / 100).
  assert (Hc : 100 * (c - 1) < p * n <= 100 * c).
  { unfold c. pose proof (Z.div_mod (p * n + 99) 100 ltac:(lia)) as E.
    pose proof (Z.mod_pos_bound (p * n + 99) 100 ltac:(lia)). lia. }
  assert (Hcn : 1 <= c <= n) by nia.
  unfold fmul, flt. rewrite fround_nonneg by nia.
  apply fceil_spec. split.
  - apply Z.lt_le_trans with (((c - 1) * 128 + 1) * 2 ^ 1067).
    + rewrite fone_pow. replace (2 ^ 1074) with (128 * 2 ^ 1067) by (rewrite <- (Z.pow_add_r 2 7) by lia; done).
      assert (0 < 2 ^ 1067) by (apply Z.pow_pos_nonneg; lia). lia.
    + apply nearest_ge; [apply is_float_int; lia|done|].
      assert (E : fone = 128 * 2 ^ 1067) by (rewrite fone_pow, <- (Z.pow_add_r 2 7) by lia; done).
      replace (a * (n * fone)) with (a * n * fone) by ring. apply Z.mul_le_mono_nonneg_r; [lia|].
      set (q := 2 ^ 1067) in *. assert (Hq : 0 < q) by (apply Z.pow_pos_nonneg; lia).
      rewrite E in Hlow. clearbody q. clear E Hup Hf.
      assert (H1 : (p * (128 * q) - 100 * a) * 2 ^ 47 * n <= 128 * q * n)
        by (apply Z.mul_le_mono_nonneg_r; lia).
      assert (H2 : 128 * q * n <= 4 * q * 2 ^ 47) by nia.
      assert (H3 : (p * (128 * q) - 100 * a) * n <= 4 * q).
      { apply (Z.mul_le_mono_pos_r _ _ (2 ^ 47)); [lia|].
        transitivity ((p * (128 * q) - 100 * a) * 2 ^ 47 * n); [apply Z.eq_le_incl; ring|lia]. }
      assert (H4 : (100 * (c - 1) + 1) * (128 * q) <= p * n * (128 * q))
        by (apply Z.mul_le_mono_nonneg_r; lia).
      lia.
  - apply nearest_le; [apply (is_float_flt c); lia|done|]. unfold flt.
    assert (H1 : 100 * a * n <= p * fone * n) by (apply Z.mul_le_mono_nonneg_r; lia).
    assert (H2 : p * n * fone <= 100 * c * fone) by (apply Z.mul_le_mono_nonneg_r; lia).
    replace (a * (n * fone)) with (a * n * fone) by ring. apply Z.mul_le_mono_nonneg_r; lia.
Qed.

(** The ranks the program asks for. *)
Lemma nearest_rank_exact p n :
  p = 50 \/ p = 95 -> 0 < n <= 2 ^ 42 -> _nearest_rank_index n (flt p) = (p * n + 99) / 100 - 1.
Proof.
  intros Hp Hn. unfold _nearest_rank_index. f_equal.
  apply ceil_percent; destruct Hp as [-> | ->]; try lia; apply Z.leb_le; vm_compute; reflexivity.
Qed.

Lemma rank_range p n : p = 50 \/ p = 95 -> 0 < n -> 0 <= (p * n + 99) / 100 - 1 < n.
Proof.
  intros Hp Hn. pose proof (Z.div_mod (p * n + 99) 100 ltac:(lia)).
  pose proof (Z.mod_pos_bound (p * n + 99) 100 ltac:(lia)). destruct Hp as [-> | ->]; lia.
Qed.

Lemma percentile_index l p :
  p = 50 \/ p = 95 -> 0 < py_len l <= 2 ^ 42 ->
  exists k x, k = ((p * py_len l + 99) / 100 - 1)%Z /\ l !! Z.to_nat k = Some x /\
    py_index l (_nearest_rank_index (py_len l) (flt p)) = Ret x.
Proof.
  intros Hp Hn. pose proof (rank_range p (py_len l) Hp ltac:(lia)) as Hr.
  rewrite nearest_rank_exact by done. set (k := (p * py_len l + 99) / 100 - 1) in *.
  destruct (lookup_lt_is_Some_2 l (Z.to_nat k)) as [x Hx]; [unfold py_len in *; lia|].
  exists k, x. split_and!; [done|done|]. unfold py_index.
  destruct (Z.ltb_spec k 0); [lia|]. cbv zeta. rewrite (proj2 (Z.ltb_ge k 0)) by done.
  by rewrite Hx.
Qed.

(** In a sorted list, what stands at a rank splits the values. *)
Lemma sorted_rank (l : list Z) i x :
  StronglySorted (by_key (fun x => x)) l -> l !! i = Some x ->
  Z.of_nat (S i) <= count (fun y => y <=? x) l /\
  forall y, y < x -> count (fun z => z <=? y) l <= Z.of_nat i.
Proof.
  revert i. induction l as [|a l IH]; intros i Hs Hx; [done|].
  apply StronglySorted_inv in Hs as [Hs Ha]. rewrite Forall_forall in Ha. unfold by_key in Ha.
  destruct i as [|i].
  - injection Hx as ->. split.
    + rewrite count_cons, Z.leb_refl. pose proof (count_bounds (fun y => y <=? x) l). simpl b2z. lia.
    + intros y Hy. rewrite count_none; [lia|]. intros z [->|Hz]%elem_of_cons; apply Z.leb_gt; [lia|].
      specialize (Ha z Hz). lia.
  - simpl in Hx. destruct (IH i Hs Hx) as [H1 H2]. assert (Hax : a <= x).
    { apply Ha. by eapply list_elem_of_lookup_2. }
    split.
    + rewrite count_cons, (proj2 (Z.leb_le a x)) by done. simpl b2z. lia.
    + intros y Hy. specialize (H2 y Hy). rewrite count_cons. destruct (a <=? y); simpl b2z; lia.
Qed.

(** The latency and cost percentiles are the nearest-rank ones, exactly, although the
    rank is computed in binary64 where 0.95 is not 0.95: for up to [2^42] samples the
    answer is a sample, at least [p] percent of the samples are at most it, and of every
    smaller value that is false; no index is ever out of range, and no sample gives zero. *)
Theorem percentile_nearest_rank (values : list float) p :
  p = 50 \/ p = 95 -> py_len values <= 2 ^ 42 ->
  exists x, percentile values (flt p) = Ret x /\
    (values = [] -> x = 0) /\
    (values <> [] ->
       x ∈ values /\
       p * py_len values <= 100 * count (fun y => y <=? x) values /\
       forall y, y < x -> 100 * count (fun z => z <=? y) values < p * py_len values).
Proof.
  intros Hp Hn. destruct (decide (values = [])) as [->|Hne].
  { exists 0. split_and!; [done|done|]. by intros []. }
  assert (Hperm : py_sorted (fun x => x) values ≡ₚ values) by apply py_sorted_perm.
  assert (Hlen : py_len (py_sorted (fun x => x) values) = py_len values)
    by (unfold py_len; by rewrite Hperm).
  assert (Hpos : 0 < py_len values) by (unfold py_len; destruct values; [done|simpl; lia]).
  destruct (percentile_index (py_sorted (fun x => x) values) p Hp) as (k & x & Hk & Hx & Hret);
    [lia|]. exists x. split_and!; [|done|].
  { unfold percentile. by destruct values. }
  intros _. rewrite Hlen in Hk. pose proof (rank_range p (py_len values) Hp Hpos).
  pose proof (Z.div_mod (p * py_len values + 99) 100 ltac:(lia)) as E.
  pose proof (Z.mod_pos_bound (p * py_len values + 99) 100 ltac:(lia)).
  destruct (sorted_rank _ _ _ (py_sorted_sorted _ _) Hx) as [H1 H2]. split_and!.
  - rewrite <- Hperm. by eapply list_elem_of_lookup_2.
  - rewrite Hperm in H1. lia.
  - intros y Hy. specialize (H2 y Hy). rewrite Hperm in H2. lia.
Qed.

(** ** The order of the cases is immaterial *)

Lemma py_sorted_canonical (l l' : list Z) :
  l ≡ₚ l' -> py_sorted (fun x => x) l = py_sorted (fun x => x) l'.
Proof.
  intros H. apply (StronglySorted_unique (by_key (fun x => x))).
  - apply py_sorted_sorted.
  - apply py_sorted_sorted.
  - by rewrite !py_sorted_perm.
Qed.

(** A 5 by 6 table indexed from zero. *)
Definition grid (f : nat * nat -> Z) : list (list Z) :=
  map (fun i => map (fun j => f (i, j)) (seq 0 6)) (seq 0 5).

Definition in_cell (x : nat * nat) (r : CaseResult) : bool :=
  bool_decide (row_of r = x.1) && bool_decide (column_of r = x.2).

Lemma alter_map_seq {B} (g : nat -> B) (h : B -> B) k n :
  alter h k (map g (seq 0 n)) = map (fun i => if decide (k = i) then h (g i) else g i) (seq 0 n).
Proof.
  apply list_eq. intros i. rewrite !list_lookup_fmap.
  destruct (decide (i = k)) as [->|Hne].
  - rewrite list_lookup_alter_eq, list_lookup_fmap.
    destruct (seq 0 n !! k) as [x|] eqn:E; [|done]. simpl.
    apply lookup_seq in E as [-> _]. by rewrite decide_True.
  - rewrite list_lookup_alter_ne, list_lookup_fmap by done.
    destruct (seq 0 n !! i) as [x|] eqn:E; [|done]. simpl.
    apply lookup_seq in E as [-> _]. by rewrite decide_False.
Qed.

Lemma grid_ext f g : (forall x, f x = g x) -> grid f = grid g.
Proof. intros H. unfold grid. apply map_ext. intros i. apply map_ext. intros j. apply H. Qed.

Lemma confusion_counts rs : confusion rs = grid (fun x => count (in_cell x) rs).
Proof.
  unfold confusion. change (repeat (repeat 0 6) 5) with (grid (fun _ => 0)).
  rewrite (fold_counts confusion_step grid in_cell); [done|apply grid_ext|].
  intros f r. unfold confusion_step, grid, in_cell. rewrite alter_map_seq.
  apply map_ext. intros i. destruct (decide (row_of r = i)) as [->|Hne].
  - rewrite alter_map_seq. apply map_ext. intros j. simpl. rewrite (bool_decide_true (i = i)) by done.
    case_bool_decide; case_decide; simpl; try done; lia.
  - apply map_ext. intros j. simpl. rewrite bool_decide_false by done. simpl. lia.
Qed.

Lemma per_severity_perm rs rs' : rs ≡ₚ rs' -> per_severity rs = per_severity rs'.
Proof. intros H. rewrite !per_severity_counts. apply tab_ext. intros b. by rewrite H. Qed.

Lemma py_len_perm {A} (l l' : list A) : l ≡ₚ l' -> py_len l = py_len l'.
Proof. intros H. unfold py_len. by rewrite H. Qed.

Lemma perm_option {A} (l l' : list A) (f : list A -> float) :
  l ≡ₚ l' -> (forall a b, a ≡ₚ b -> f a = f b) ->
  match l with [] => None | _ => Some (f l) end = match l' with [] => None | _ => Some (f l') end.
Proof.
  intros Hl Hf. rewrite (Hf _ _ Hl). destruct l, l'; try done; by apply Permutation_length in Hl.
Qed.

Lemma score_perm rs rs' : rs ≡ₚ rs' -> score rs = score rs'.
Proof.
  intros H. unfold score. rewrite !tally_counts.
  assert (Hlen : py_len rs = py_len rs') by (unfold py_len; by rewrite H).
  assert (Hcost : py_sorted (fun x => x) (map cr_cost_usd rs) = py_sorted (fun x => x) (map cr_cost_usd rs'))
    by (apply py_sorted_canonical; by rewrite H).
  assert (Hlat : forall p, percentile (map (fun r => flt (cr_latency_ms r)) rs) p =
                           percentile (map (fun r => flt (cr_latency_ms r)) rs') p).
  { intros p. assert (Hl : map (fun r => flt (cr_latency_ms r)) rs ≡ₚ map (fun r => flt (cr_latency_ms r)) rs')
      by (by rewrite H).
    unfold percentile. rewrite (py_sorted_canonical _ _ Hl).
    destruct rs, rs'; try done; by apply Permutation_length in H. }
  assert (Hconf : confusion rs = confusion rs').
  { rewrite !confusion_counts. apply grid_ext. intros x. by rewrite H. }
  assert (Hcat : category_confusion rs = category_confusion rs').
  { rewrite !category_confusion_counts. apply tab_ext. intros c. apply tab_ext. intros k. by rewrite H. }
  assert (Hf1 : sev_macro_f1 rs = sev_macro_f1 rs')
    by (unfold sev_macro_f1; by rewrite (per_severity_perm rs rs')).
  assert (Hj : map js_score (omap cr_judge rs) ≡ₚ map js_score (omap cr_judge rs')) by (by rewrite H).
  assert (Hi : List.filter (fun r => bool_decide (INJECTION ∈ cr_tags r)) rs ≡ₚ
               List.filter (fun r => bool_decide (INJECTION ∈ cr_tags r)) rs').
  { clear -H. induction H; simpl; repeat case_match; try done; eauto using Permutation.
    }
  rewrite Hlen, Hcost, !Hlat, Hconf, Hcat, Hf1, (per_severity_perm rs rs' H).
  rewrite (perm_option _ _ (fun l => int_div (zsum l) (py_len l)) Hj)
    by (intros a b Hab; by rewrite (py_len_perm _ _ Hab), Hab).
  rewrite (perm_option _ _ (fun l => int_div (count (fun s => s <=? 2) l) (py_len l)) Hj)
    by (intros a b Hab; by rewrite (py_len_perm _ _ Hab), Hab).
  rewrite (perm_option _ _ (fun l => int_div (count severity_matches l) (py_len l)) Hi)
    by (intros a b Hab; by rewrite (py_len_perm _ _ Hab), Hab).
  assert (Hc : forall P, count P rs = count P rs') by (intros P; by rewrite H).
  assert (Hz : forall f : CaseResult -> Z, zsum (map f rs) = zsum (map f rs')) by (intros f; by rewrite H).
  by rewrite !Hc, !Hz.
Qed.

Lemma percentile_ret values p :
  p = 50 \/ p = 95 -> py_len values <= 2 ^ 42 -> is_ret (percentile values (flt p)) = true.
Proof.
  intros Hp Hn. unfold percentile. destruct values as [|v values]; [done|].
  destruct (percentile_index (py_sorted (fun x => x) (v :: values)) p Hp) as (k & x & _ & _ & E).
  - rewrite (py_len_perm _ _ (py_sorted_perm _ _)). unfold py_len, float in *. cbn [length] in *. lia.
  - by rewrite E.
Qed.

Lemma score_ret rs : py_len rs <= 2 ^ 42 -> exists m, score rs = Ret m.
Proof.
  intros Hn. unfold score, mbind, outcome_bind.
  assert (Hl : forall B (f : CaseResult -> B), py_len (map f rs) <= 2 ^ 42)
    by (intros; unfold py_len in *; by rewrite length_map).
  pose proof (percentile_ret _ 95 ltac:(by right) (Hl _ cr_cost_usd)) as H1.
  pose proof (percentile_ret _ 50 ltac:(by left) (Hl _ (fun r => flt (cr_latency_ms r)))) as H2.
  pose proof (percentile_ret _ 95 ltac:(by right) (Hl _ (fun r => flt (cr_latency_ms r)))) as H3.
  assert (H1' : is_ret (match py_sorted (fun x => x) (map cr_cost_usd rs) with
     | [] => Ret 0
     | _ => py_index (py_sorted (fun x => x) (map cr_cost_usd rs))
              (_nearest_rank_index (py_len (py_sorted (fun x => x) (map cr_cost_usd rs))) (flt 95))
     end : outcome exn Z) = true).
  { unfold percentile in H1. destruct (map cr_cost_usd rs) as [|c cs]; [done|]. by case_match. }
  clear H1 Hl. generalize dependent (flt 95). generalize dependent (flt 50). intros p50 H2 p95 H3 H1.
  destruct (match py_sorted _ _ with [] => _ | _ => _ end); [|done].
  destruct (percentile _ p50); [|done]. destruct (percentile _ p95); [|done]. eauto.
Qed.

(** A run's metrics are a function of its cases, whatever order the concurrent tasks or
    the golden file put them in: permuted results score to the same record, floats and
    matrices included, and scoring never raises. *)
Theorem score_order_independent rs rs' :
  rs ≡ₚ rs' -> score rs = score rs' /\ (py_len rs <= 2 ^ 42 -> exists m, score rs = Ret m).
Proof. intros H. split; [by apply score_perm|apply score_ret]. Qed.

(** ** A failed case never improves a run *)

(** [r'] is what [r] becomes when its pipeline run fails. *)
Definition fails_as (r r' : CaseResult) : Prop :=
  cr_label r' = cr_label r /\ cr_verdict r' = None /\ cr_escalated r' = false.

Lemma count_replaced (P : CaseResult -> bool) l1 l2 r r' :
  (P r' = true -> P r = true) -> 0 <= count P (l1 ++ r' :: l2) <= count P (l1 ++ r :: l2).
Proof.
  intros H. split; [apply count_bounds|]. rewrite !count_app, !count_cons.
  destruct (P r'), (P r); simpl b2z; [lia|by specialize (H eq_refl)|lia..].
Qed.

Lemma count_same (P : CaseResult -> bool) l1 l2 r r' :
  P r' = P r -> count P (l1 ++ r' :: l2) = count P (l1 ++ r :: l2).
Proof. intros H. by rewrite !count_app, !count_cons, H. Qed.

(** A failed case counts in the denominators and is always wrong: when one case of a
    run fails instead, the run has as many cases and every rate is at most what it was,
    severity, category, escalation, critical and per-band recalls and the share of strong
    escalations; only the precision of escalation can rise, when the verdict lost was a
    false alarm. *)
Theorem failure_never_helps l1 l2 r r' m m' :
  fails_as r r' -> score (l1 ++ r :: l2) = Ret m -> score (l1 ++ r' :: l2) = Ret m' ->
  n_cases m' = n_cases m /\
  n_failed m <= n_failed m' /\
  severity_exact m' <= severity_exact m /\
  severity_within_one m' <= severity_within_one m /\
  category_accuracy m' <= category_accuracy m /\
  escalate_recall m' <= escalate_recall m /\
  critical_recall m' <= critical_recall m /\
  escalation_rate m' <= escalation_rate m /\
  forall band, recall_of band m' <= recall_of band m.
Proof.
  intros (Hl & Hv & He).
  intros (-> & -> & -> & -> & -> & _ & -> & -> & -> & _ & Hp)%score_inv.
  intros (-> & -> & -> & -> & -> & _ & -> & -> & -> & _ & Hp')%score_inv.
  assert (Hlen : py_len (l1 ++ r' :: l2) = py_len (l1 ++ r :: l2))
    by (unfold py_len; by rewrite !length_app).
  assert (Hsev : forall P, on_severity r' P = false) by (intros P; unfold on_severity; by rewrite Hv).
  rewrite Hlen. rewrite (count_same escalate_labelled _ _ r r') by (unfold escalate_labelled; by rewrite Hl).
  rewrite (count_same critical _ _ r r') by (unfold critical; by rewrite Hl).
  assert (0 <= py_len (l1 ++ r :: l2)) by (unfold py_len; lia).
  split; [done|]. split.
  { rewrite !count_app, !count_cons, Hv. destruct (bool_decide (cr_verdict r = None)); simpl; lia. }
  repeat match goal with |- _ /\ _ => split end.
  1-6: apply rate_mono; [|done || apply count_bounds]; apply count_replaced.
  - unfold exact. by rewrite Hsev.
  - unfold within. by rewrite Hsev.
  - unfold category_match. by rewrite Hv.
  - unfold escalate_hit, escalates. by rewrite Hv.
  - unfold critical_found. by rewrite Hsev, andb_false_r.
  - by rewrite He.
  - intros band. unfold recall_of. rewrite Hp, Hp', !per_severity_counts, !dget_tab.
    case_decide; [|done]. simpl.
    rewrite (count_same (labelled band) _ _ r r') by (unfold labelled; by rewrite Hl).
    apply rate_mono; [|apply count_bounds]. apply count_replaced.
    unfold hit, judged_as. by rewrite Hsev, andb_false_r.
Qed.

(** ** A run of three cases *)

Definition toy_label (sev : Z) : GoldenLabel :=
  {| l_severity := sev; l_category := Verdict.scanning; l_escalate := 4 <=? sev |}.
Definition toy_judged (sev : Z) : Verdict.Verdict :=
  {| Verdict.severity := sev; Verdict.category := Verdict.scanning; Verdict.confidence := 0;
     Verdict.reasoning := []; Verdict.recommended_action := []; Verdict.escalate := 4 <=? sev |}.
Definition toy_result (id : string) (label : Z) (v : option Z) : CaseResult :=
  {| cr_case_id := u id; cr_label := toy_label label; cr_verdict := toy_judged <$> v;
     cr_input_tokens := 10; cr_output_tokens := 5; cr_cost_usd := 100 * label;
     cr_latency_ms := 10 * label; cr_error := None; cr_tool_calls := 0; cr_escalated := false;
     cr_tool_trace_sha256 := []; cr_judge := None; cr_judge_cost_usd := 0;
     cr_judge_error := None; cr_tags := [] |}.
(** A hit at 5, a false alarm at 3, a failed case at 2. *)
Definition toy_hit : CaseResult := toy_result "a" 5 (Some 5).
Definition toy_alarm : CaseResult := toy_result "b" 3 (Some 4).
Definition toy_lost : CaseResult := toy_result "c" 2 None.

Lemma toy_cases_ok : Forall case_ok [toy_hit; toy_alarm; toy_lost].
Proof.
  repeat (apply List.Forall_cons; [split; [simpl; lia|intros v [= <-]; simpl; lia]|]).
  apply List.Forall_nil.
Qed.

Lemma toy_len : py_len [toy_hit; toy_alarm; toy_lost] <= 2 ^ 42.
Proof. vm_compute. discriminate. Qed.

(** Two of the three cases are within one of their label. *)
Lemma confusion_explains_metrics_witness :
  exists m, score [toy_hit; toy_alarm; toy_lost] = Ret m /\ cells near (m_confusion m) = 2 /\
    severity_within_one m = rate (cells near (m_confusion m)) (n_cases m).
Proof.
  destruct (score_ret [toy_hit; toy_alarm; toy_lost] toy_len) as [m E]. exists m.
  destruct (confusion_explains_metrics [toy_hit; toy_alarm; toy_lost] m toy_cases_ok E)
    as (_ & _ & _ & H & _).
  split; [exact E|]. split; [|exact H].
  destruct (score_inv _ _ E) as (_ & _ & _ & _ & _ & _ & _ & _ & _ & -> & _). reflexivity.
Defined.

(** The 95th percentile of three samples is the largest, the median the middle one. *)
Lemma percentile_nearest_rank_witness :
  percentile [30; 10; 20] (flt 95) = Ret 30 /\
  exists x, percentile [30; 10; 20] (flt 50) = Ret x /\ x ∈ [30; 10; 20].
Proof.
  split; [vm_compute; reflexivity|].
  destruct (percentile_nearest_rank [30; 10; 20] 50) as (x & E & _ & H);
    [left; reflexivity|vm_compute; discriminate|].
  exists x. split; [exact E|]. destruct H as (H & _); [discriminate|exact H].
Defined.

Lemma score_order_independent_witness :
  score [toy_hit; toy_alarm] = score [toy_alarm; toy_hit] /\
  exists m, score [toy_hit; toy_alarm] = Ret m /\ n_cases m = 2.
Proof.
  destruct (score_order_independent [toy_hit; toy_alarm] [toy_alarm; toy_hit]) as [E H];
    [constructor|]. split; [exact E|].
  destruct H as [m Hm]; [vm_compute; discriminate|]. exists m. split; [exact Hm|].
  destruct (score_inv _ _ Hm) as [-> _]. reflexivity.
Defined.

(** The false alarm lost: accuracy does not rise, the precision of escalation does. *)
Lemma failure_never_helps_witness :
  exists m m', score [toy_hit; toy_alarm] = Ret m /\
    score [toy_hit; toy_result "b" 3 None] = Ret m' /\
    severity_within_one m' <= severity_within_one m /\
    escalate_precision m < escalate_precision m'.
Proof.
  destruct (score_ret [toy_hit; toy_alarm]) as [m E]; [vm_compute; discriminate|].
  destruct (score_ret [toy_hit; toy_result "b" 3 None]) as [m' E']; [vm_compute; discriminate|].
  exists m, m'. split; [exact E|]. split; [exact E'|]. split.
  - apply (failure_never_helps [toy_hit] [] toy_alarm (toy_result "b" 3 None) m m'); [|exact E|exact E'].
    split; [reflexivity|]. split; reflexivity.
  - destruct (score_inv _ _ E) as (_ & _ & _ & _ & _ & -> & _).
    destruct (score_inv _ _ E') as (_ & _ & _ & _ & _ & -> & _). vm_compute. reflexivity.
Defined.
