(* ===== verification/Publish.v ===== *)
(** * Publish: the metrics payload, the results table and the artifact rows

    [evals/publish.py], less [write_eval_run_row] (one insert).  [Decimal(text)] and
    [int(text)] are parameters.  An amount is micro-dollars, printed with its six places
    (the total of a run that billed nothing at all is [Decimal("0")], whose text is "0"). *)

From S2P Require Import Prelude Errors Json Datetime Text JsonParse Schemas Floats Golden Scoring.
#[local] Open Scope Z_scope.

Definition InvalidOperation : exn := OtherException (u "InvalidOperation").

(** [Decimal(text)] in micro-dollars, [None] for an [InvalidOperation], and [int(text)],
    [None] for a [ValueError]. *)
Class Numerals : Type := {
  decimal_of : pystr -> option Z;
  int_text : pystr -> option Z;
  decimal_of_fixed : forall x, decimal_of (fixed_six x) = Some x;
  int_text_str : forall z, int_text (str_of_Z z) = Some z
}.

(** ** [metrics_payload] *)

Definition opt_json (x : option float) : json := match x with Some y => JFloat y | None => JNull end.

Definition pr_json (p : PR) : json :=
  JObj [(u "precision", JFloat (precision p)); (u "recall", JFloat (recall p));
        (u "support", JInt (support p))].

Definition counts_json (row : list (pystr * Z)) : json := JObj (map (fun kv => (kv.1, JInt kv.2)) row).

Definition metrics_payload (m : RunMetrics) : jobj :=
  [(u "n_cases", JInt (n_cases m)); (u "n_failed", JInt (n_failed m));
   (u "severity_exact", JFloat (severity_exact m));
   (u "severity_within_one", JFloat (severity_within_one m));
   (u "category_accuracy", JFloat (category_accuracy m));
   (u "escalate_precision", JFloat (escalate_precision m));
   (u "escalate_recall", JFloat (escalate_recall m));
   (u "critical_recall", JFloat (critical_recall m));
   (u "escalation_rate", JFloat (escalation_rate m));
   (u "cost_mean_usd", JStr (fixed_six (cost_mean_usd m)));
   (u "cost_p95_usd", JStr (fixed_six (cost_p95_usd m)));
   (u "cost_total_usd", JStr (fixed_six (cost_total_usd m)));
   (u "latency_p50_ms", JInt (latency_p50_ms m)); (u "latency_p95_ms", JInt (latency_p95_ms m));
   (u "per_severity", JObj (map (fun kv => (str_of_Z kv.1, pr_json kv.2)) (m_per_severity m)));
   (u "confusion", JArr (map (fun row => JArr (map JInt row)) (m_confusion m)));
   (u "category_confusion", JObj (map (fun kv => (kv.1, counts_json kv.2)) (m_category_confusion m)));
   (u "sev_macro_f1", JFloat (m_sev_macro_f1 m));
   (u "judge_mean", opt_json (judge_mean m)); (u "judge_pct_le2", opt_json (judge_pct_le2 m));
   (u "injection_pass_rate", opt_json (injection_pass_rate m));
   (u "judge_cost_total_usd", JStr (fixed_six (judge_cost_total_usd m)))].

(** ** [metrics_from_payload]

    A field of a JSON type the record does not declare is a [TypeError] here; the dataclass
    would keep it. *)

(** [data[k]]. *)
Definition item (k : pystr) (d : jobj) : outcome exn json :=
  match dget k d with Some j => Ret j | None => Raise KeyError end.

(** A keyword argument of a dataclass: missing is a [TypeError], unless it has a default. *)
Definition arg {A} (k : string) (conv : json -> outcome exn A) (d : jobj) : outcome exn A :=
  match dget (u k) d with Some j => conv j | None => Raise TypeError end.
Definition arg_or {A} (default : A) (k : string) (conv : json -> outcome exn A) (d : jobj)
    : outcome exn A :=
  match dget (u k) d with Some j => conv j | None => Ret default end.

Definition as_int (j : json) : outcome exn Z := match j with JInt n => Ret n | _ => Raise TypeError end.
Definition as_float (j : json) : outcome exn float :=
  match j with JFloat x => Ret x | JInt n => Ret (flt n) | _ => Raise TypeError end.
Definition as_opt_float (j : json) : outcome exn (option float) :=
  match j with JNull => Ret None | _ => x ← as_float j; Ret (Some x) end.

(** [f(x) for x in l], stopping at the first exception. *)
Fixpoint traverse {A B} (f : A -> outcome exn B) (l : list A) : outcome exn (list B) :=
  match l with [] => Ret [] | x :: l' => y ← f x; ys ← traverse f l'; Ret (y :: ys) end.

(** Unknown keyword arguments are refused. *)
Definition only (keys : list string) (d : jobj) : outcome exn unit :=
  if forallb (fun k => bool_decide (k ∈ map u keys)) (dkeys d) then Ret tt else Raise TypeError.

Definition pr_of (j : json) : outcome exn PR :=
  match j with
  | JObj d =>
      _ ← only ["precision"; "recall"; "support"]%string d;
      p ← arg "precision" as_float d; r ← arg "recall" as_float d; s ← arg "support" as_int d;
      Ret {| precision := p; recall := r; support := s |}
  | _ => Raise TypeError
  end.

Definition counts_of (j : json) : outcome exn (list (pystr * Z)) :=
  match j with
  | JObj d => traverse (fun kv => n ← as_int kv.2; Ret (kv.1, n)) d
  | _ => Raise TypeError
  end.

Definition metric_fields : list string :=
  ["n_cases"; "n_failed"; "severity_exact"; "severity_within_one"; "category_accuracy";
   "escalate_precision"; "escalate_recall"; "critical_recall"; "escalation_rate";
   "cost_mean_usd"; "cost_p95_usd"; "cost_total_usd"; "latency_p50_ms"; "latency_p95_ms";
   "per_severity"; "confusion"; "category_confusion"; "sev_macro_f1"; "judge_mean";
   "judge_pct_le2"; "injection_pass_rate"; "judge_cost_total_usd"]%string.

Section numerals.
Context {NU : Numerals}.

Definition as_decimal (j : json) : outcome exn Z :=
  match j with
  | JStr s => match decimal_of s with Some x => Ret x | None => Raise InvalidOperation end
  | _ => Raise TypeError
  end.

Definition bands_of (j : json) : outcome exn (list (Z * PR)) :=
  match j with
  | JObj d =>
      kvs ← traverse (fun kv =>
        match int_text kv.1 with
        | Some band => p ← pr_of kv.2; Ret (band, p)
        | None => Raise (ValueError [])
        end) d;
      Ret (foldl (fun acc kv => dset kv.1 kv.2 acc) [] kvs)
  | _ => Raise TypeError
  end.

Definition matrix_of (j : json) : outcome exn (list (list Z)) :=
  match j with
  | JArr rows =>
      traverse (fun row => match row with JArr l => traverse as_int l | _ => Raise TypeError end) rows
  | _ => Raise TypeError
  end.

Definition metrics_from_payload (payload : jobj) : outcome exn RunMetrics :=
  per ← (j ← item (u "per_severity") payload; bands_of j);
  conf ← (j ← item (u "confusion") payload; matrix_of j);
  mean ← (j ← item (u "cost_mean_usd") payload; as_decimal j);
  p95 ← (j ← item (u "cost_p95_usd") payload; as_decimal j);
  total ← (j ← item (u "cost_total_usd") payload; as_decimal j);
  judge ← (j ← item (u "judge_cost_total_usd") payload; as_decimal j);
  _ ← only metric_fields payload;
  a1 ← arg "n_cases" as_int payload; a2 ← arg "n_failed" as_int payload;
  a3 ← arg "severity_exact" as_float payload; a4 ← arg "severity_within_one" as_float payload;
  a5 ← arg "category_accuracy" as_float payload; a6 ← arg "escalate_precision" as_float payload;
  a7 ← arg "escalate_recall" as_float payload; a8 ← arg "critical_recall" as_float payload;
  a9 ← arg "escalation_rate" as_float payload;
  a10 ← arg "latency_p50_ms" as_int payload; a11 ← arg "latency_p95_ms" as_int payload;
  cats ← arg "category_confusion" (fun j => match j with
           | JObj d => traverse (fun kv => row ← counts_of kv.2; Ret (kv.1, row)) d
           | _ => Raise TypeError
           end) payload;
  a12 ← arg "sev_macro_f1" as_float payload;
  a13 ← arg_or None "judge_mean" as_opt_float payload;
  a14 ← arg_or None "judge_pct_le2" as_opt_float payload;
  a15 ← arg_or None "injection_pass_rate" as_opt_float payload;
  Ret {| n_cases := a1; n_failed := a2; severity_exact := a3; severity_within_one := a4;
         category_accuracy := a5; escalate_precision := a6; escalate_recall := a7;
         critical_recall := a8; escalation_rate := a9; cost_mean_usd := mean;
         cost_p95_usd := p95; cost_total_usd := total; latency_p50_ms := a10;
         latency_p95_ms := a11; m_per_severity := per; m_confusion := conf;
         m_category_confusion := cats; m_sev_macro_f1 := a12; judge_mean := a13;
         judge_pct_le2 := a14; injection_pass_rate := a15; judge_cost_total_usd := judge |}.

Lemma traverse_map {A B C} (f : B -> outcome exn C) (g : A -> B) (h : A -> C) l :
  (forall x, x ∈ l -> f (g x) = Ret (h x)) -> traverse f (map g l) = Ret (map h l).
Proof.
  induction l as [|x l IH]; intros H; [done|]. simpl. unfold mbind, outcome_bind.
  rewrite H by left. rewrite IH; [done|]. intros y Hy. apply H. by right.
Qed.

Lemma traverse_id {A B} (f : B -> outcome exn A) (g : A -> B) l :
  (forall x, f (g x) = Ret x) -> traverse f (map g l) = Ret l.
Proof. intros H. rewrite (traverse_map f g (fun x => x)) by done. by rewrite map_id. Qed.

Lemma dict_of_pairs {V} (l : list (Z * V)) :
  NoDup (dkeys l) -> foldl (fun acc kv => dset kv.1 kv.2 acc) [] l = l.
Proof.
  enough (Hg : forall d, NoDup (dkeys (d ++ l)) ->
    foldl (fun d kv => dset kv.1 kv.2 d) d l = d ++ l) by (intros; by apply (Hg [])).
  induction l as [|[k x] l IH]; intros d Hnd; simpl; [by rewrite app_nil_r|].
  assert (E : dset k x d = d ++ [(k, x)]); [|rewrite E, IH; by rewrite <- app_assoc].
  assert (Hk : k ∉ dkeys d).
  { intros Hk. unfold dkeys in Hnd. rewrite map_app in Hnd. apply NoDup_app in Hnd as (_ & Hd & _).
    apply (Hd k Hk). by left. }
  clear -Hk. induction d as [|[k' x'] d IHd]; simpl; [done|]. unfold dkeys in Hk. simpl in Hk.
  rewrite decide_False by set_solver. f_equal. apply IHd. set_solver.
Qed.

Lemma pr_of_json p : pr_of (pr_json p) = Ret p.
Proof. destruct p. reflexivity. Qed.

Lemma counts_of_json row : counts_of (counts_json row) = Ret row.
Proof. unfold counts_of, counts_json. by apply traverse_id; intros []. Qed.

Lemma opt_json_float x : as_opt_float (opt_json x) = Ret x.
Proof. by destruct x. Qed.

(** [metrics_from_payload] is the inverse of [metrics_payload]. *)
Lemma metrics_payload_inverse m :
  NoDup (dkeys (m_per_severity m)) -> metrics_from_payload (metrics_payload m) = Ret m.
Proof.
  intros Hnd. unfold metrics_from_payload.
  assert (Hper : bands_of (JObj (map (fun kv => (str_of_Z kv.1, pr_json kv.2)) (m_per_severity m)))
                 = Ret (m_per_severity m)).
  { unfold bands_of. rewrite traverse_id.
    - unfold mbind, outcome_bind. by rewrite dict_of_pairs.
    - intros [band p]. cbn [fst snd]. by rewrite int_text_str, pr_of_json. }
  assert (Hconf : matrix_of (JArr (map (fun row => JArr (map JInt row)) (m_confusion m)))
                  = Ret (m_confusion m)).
  { unfold matrix_of. apply traverse_id. intros row. by apply traverse_id. }
  assert (Hcat : traverse (fun kv => row ← counts_of kv.2; Ret (kv.1, row))
    (map (fun kv => (kv.1, counts_json kv.2)) (m_category_confusion m)) = Ret (m_category_confusion m)).
  { apply traverse_id. intros [c row]. cbn [fst snd]. by rewrite counts_of_json. }
  assert (Honly : only metric_fields (metrics_payload m) = Ret tt) by reflexivity.
  assert (exists d, d = metrics_payload m /\
    Forall (fun kv => dget kv.1 d = Some kv.2) (metrics_payload m)) as (d & Ed & Hf).
  { eexists. split; [reflexivity|].
    repeat (apply List.Forall_cons; [reflexivity|]). apply List.Forall_nil. }
  unfold item, arg, arg_or, mbind, outcome_bind in *. rewrite Honly. clear Honly.
  rewrite <- Ed. clear Ed. unfold metrics_payload in Hf. repeat (apply Forall_cons in Hf as [? Hf]). clear Hf. cbn [fst snd] in *.
  repeat match goal with H : dget _ d = Some _ |- _ => rewrite H; clear H end.
  rewrite Hper, Hconf. cbn [as_decimal as_int as_float]. rewrite !decimal_of_fixed, Hcat, !opt_json_float.
  by destruct m.
Qed.
End numerals.

(** ** [docs/results.md] *)

Definition PIPE : Z := 124.
Definition ARROW : Z := 8594.
(** [s.strip("|")] and [s.split("|")]. *)
Fixpoint lstrip_pipe (s : pystr) : pystr :=
  match s with [] => [] | c :: s' => if c =? PIPE then lstrip_pipe s' else s end.
Definition strip_pipe (s : pystr) : pystr := rev (lstrip_pipe (rev (lstrip_pipe s))).
Fixpoint split_pipe (s : pystr) : list pystr :=
  match s with
  | [] => [[]]
  | c :: s' =>
      if c =? PIPE then [] :: split_pipe s'
      else match split_pipe s' with p :: ps => (c :: p) :: ps | [] => [[c]] end
  end.

Definition render_header : pystr :=
  table_line ([u "date"; u "git_sha"; u "prompt_version"; u "models"] ++ drop 2 COLUMNS).

Definition models_cell (model strong_model : pystr) : pystr :=
  if bool_decide (strong_model = []) then model else model ++ [ARROW] ++ strong_model.

(** [date] is [date.isoformat()]. *)
Definition render_row (row : ResultRow) (date git_sha models : pystr) : outcome exn pystr :=
  match splitlines (format_table [row]) !! 2%nat with
  | None => Raise IndexError
  | Some body_line =>
      let cells := drop 2 (map strip (split_pipe (strip_pipe (strip body_line)))) in
      Ret (table_line ([date; git_sha; rr_prompt_version row; models] ++ cells))
  end.

Definition RUNS : pystr := u "## Runs".
Definition is_row (ln : pystr) : bool := prefixb [PIPE] (strip ln).

(** The first position whose element satisfies [P]. *)
Fixpoint index_of {A} (P : A -> bool) (l : list A) : option nat :=
  match l with [] => None | x :: l' => if P x then Some 0%nat else S <$> index_of P l' end.
(** The rows at the head of [l]: the [while] loop's steps. *)
Fixpoint leading_rows (l : list pystr) : nat :=
  match l with [] => 0 | ln :: l' => if is_row ln then S (leading_rows l') else 0 end.

(** The refusals' messages hold the path and the header found. *)
Definition no_table : exn := ValueError (u "no '## Runs' section").
Definition column_drift : exn := ValueError (u "column drift").

(** Where [append_result_row] inserts into [lines]. *)
Definition insertion_point (lines : list pystr) : outcome exn nat :=
  match index_of (fun ln => bool_decide (strip ln = RUNS)) lines with
  | None => Raise no_table
  | Some runs_idx =>
      if bool_decide (find is_row (drop runs_idx lines) <> Some render_header) then Raise column_drift
      else match index_of (fun ln => bool_decide (ln = render_header)) (drop runs_idx lines) with
           | None => Raise column_drift
           | Some k => let first_row := (runs_idx + k + 2)%nat in
                       Ret (first_row + leading_rows (drop first_row lines))%nat
           end
  end.

Definition insert_line (line : pystr) (lines : list pystr) : outcome exn (list pystr) :=
  i ← insertion_point lines; Ret (take i lines ++ [line] ++ drop i lines).

(** The text file at a path. *)
Class TextFile (W : Type) : Type := {
  file_text : W -> outcome exn pystr;
  write_file : pystr -> M exn W unit
}.

Definition append_result_row {W} `{TextFile W} (line : pystr) : M exn W unit := fun w =>
  match file_text w with
  | Raise e => (Raise e, w)
  | Ret text =>
      match insert_line line (splitlines text) with
      | Raise e => (Raise e, w)
      | Ret new_lines => write_file (text_of_lines new_lines) w
      end
  end.

Definition regenerate_header_lines (lines : list pystr) : outcome exn (list pystr) :=
  match index_of (fun ln => bool_decide (strip ln = RUNS)) lines with
  | None => Raise (OtherException (u "StopIteration"))
  | Some runs_idx =>
      match index_of is_row (drop runs_idx lines) with
      | None => Raise (OtherException (u "StopIteration"))
      | Some k =>
          let header_idx := (runs_idx + k)%nat in
          Ret (take header_idx lines ++ [render_header; separator_line (length COLUMNS + 2)]
               ++ drop (header_idx + 2) lines)
      end
  end.

Definition regenerate_header {W} `{TextFile W} : M exn W unit := fun w =>
  match file_text w with
  | Raise e => (Raise e, w)
  | Ret text =>
      match regenerate_header_lines (splitlines text) with
      | Raise e => (Raise e, w)
      | Ret new_lines => write_file (text_of_lines new_lines) w
      end
  end.

(** ** [row_from_artifact] *)

(** [PurePath(text).name] is the last component of a path. *)
Definition slash : Z := 47.
Fixpoint last_component (cur s : pystr) : pystr :=
  match s with
  | [] => cur
  | c :: s' => if c =? slash then last_component (match s' with [] => cur | _ => [] end) s'
               else last_component (cur ++ [c]) s'
  end.
Definition _is_v2_golden (path : pystr) : bool := prefixb (u "v2") (last_component [] path).

Record PublishedRun : Type := {
  pub_row : ResultRow;
  pub_date : pystr;
  pub_git_sha : pystr;
  pub_models : pystr
}.

(** [datetime.fromisoformat(text).date().isoformat()], [None] for a [ValueError]. *)
Class IsoDate : Type := iso_date : pystr -> option pystr.

Definition as_str (j : json) : outcome exn pystr := match j with JStr s => Ret s | _ => Raise TypeError end.

Section artifact.
Context {NU : Numerals} {JL : JsonLoads} {ID : IsoDate}.

(** A missing or ill-typed field is the [ValueError] the docstring promises. *)
Definition malformed (o : outcome exn PublishedRun) : outcome exn PublishedRun :=
  match o with
  | Raise KeyError | Raise TypeError => Raise (ValueError (u "malformed artifact"))
  | _ => o
  end.

Definition artifact_row (payload : jobj) : outcome exn PublishedRun :=
  golden ← (j ← item (u "golden") payload; as_str j);
  if negb (_is_v2_golden golden) then Raise (ConfigError (u "golden set is not v2"))
  else
    metrics ← (j ← item (u "metrics") payload;
               match j with JObj d => metrics_from_payload d | _ => Raise TypeError end);
    prompt ← (j ← item (u "prompt_version") payload; as_str j);
    model ← (j ← item (u "model") payload; as_str j);
    strong ← match dget (u "strong_model") payload with Some j => as_str j | None => Ret [] end;
    started ← (j ← item (u "started_at") payload; as_str j);
    match iso_date started with
    | None => Raise (ValueError (u "Invalid isoformat string"))
    | Some date =>
        sha ← (j ← item (u "git_sha") payload; as_str j);
        Ret {| pub_row := {| rr_prompt_version := prompt; rr_model := model; rr_metrics := metrics |};
               pub_date := date; pub_git_sha := sha; pub_models := models_cell model strong |}
    end.

(** A payload that is no object has no items to subscript by name. *)
Definition row_from_artifact (text : outcome exn pystr) : outcome exn PublishedRun :=
  t ← text;
  match json_loads t with
  | None => Raise JSONDecodeError
  | Some (JObj payload) => malformed (artifact_row payload)
  | Some _ => Raise (ValueError (u "malformed artifact"))
  end.
End artifact.

(** ** Rows and cells *)

Definition no_pipe (s : pystr) : Prop := PIPE ∉ s.

Lemma split_pipe_app p s :
  no_pipe p -> split_pipe (p ++ PIPE :: s) = p :: split_pipe s.
Proof.
  unfold no_pipe. induction p as [|c p IH]; intros Hp; [done|]. apply not_elem_of_cons in Hp as [Hc Hp].
  simpl. rewrite (proj2 (Z.eqb_neq _ _)) by done. by rewrite IH.
Qed.

Lemma split_pipe_last p : no_pipe p -> split_pipe p = [p].
Proof.
  unfold no_pipe. induction p as [|c p IH]; intros Hp; [done|]. apply not_elem_of_cons in Hp as [Hc Hp].
  simpl. rewrite (proj2 (Z.eqb_neq _ _)) by done. by rewrite IH.
Qed.

Lemma split_pipe_join ps : ps <> [] -> Forall no_pipe ps -> split_pipe (py_join [PIPE] ps) = ps.
Proof.
  induction ps as [|p ps IH]; [done|]. intros _ [Hp Hps]%Forall_cons.
  destruct ps as [|q ps]; [by apply split_pipe_last|].
  change (py_join [PIPE] (p :: q :: ps)) with (p ++ PIPE :: py_join [PIPE] (q :: ps)).
  by rewrite split_pipe_app, IH.
Qed.

(** A table line is its padded cells between pipes. *)
Definition padded (c : pystr) : pystr := 32 :: c ++ [32].

Lemma table_line_padded cells :
  cells <> [] -> table_line cells = PIPE :: py_join [PIPE] (map padded cells) ++ [PIPE].
Proof.
  intros Hc. unfold table_line. change (u "| ") with [PIPE; 32]. change (u " |") with [32; PIPE].
  change (u " | ") with [32; PIPE; 32]. cbn [app]. f_equal.
  induction cells as [|c cells IH]; [done|]. destruct cells as [|d cells].
  - simpl. unfold padded. simpl. by rewrite <- app_assoc.
  - change (py_join [32; PIPE; 32] (c :: d :: cells)) with
      (c ++ [32; PIPE; 32] ++ py_join [32; PIPE; 32] (d :: cells)).
    change (py_join [PIPE] (map padded (c :: d :: cells))) with
      (padded c ++ PIPE :: py_join [PIPE] (map padded (d :: cells))).
    rewrite <- (app_assoc (padded c)). cbn [app]. rewrite <- (IH ltac:(done)).
    unfold padded. cbn [app]. rewrite <- !app_assoc. done.
Qed.

Lemma lstrip_stop c s : is_space c = false -> lstrip (c :: s) = c :: s.
Proof. simpl. by intros ->. Qed.

(** A text whose ends are no blanks. *)
Definition edged (s : pystr) : Prop :=
  exists c d m, s = [c] /\ is_space c = false \/
                s = c :: m ++ [d] /\ is_space c = false /\ is_space d = false.

Lemma edged_ends s : edged s -> exists c s', s = c :: s' /\ is_space c = false /\
  exists d s'', rev s = d :: s'' /\ is_space d = false.
Proof.
  intros (c & d & m & [[-> Hc]|(-> & Hc & Hd)]).
  - exists c, []. split_and!; [done|done|]. exists c, []. done.
  - exists c, (m ++ [d]). split_and!; [done|done|]. simpl. rewrite rev_app_distr. simpl. eauto.
Qed.

Lemma strip_edged s : edged s -> strip s = s.
Proof.
  intros (c & s' & E & Hc & d & s'' & E' & Hd)%edged_ends. unfold strip.
  rewrite E, lstrip_stop, <- E, E', lstrip_stop, <- E' by done. apply rev_involutive.
Qed.

Lemma strip_padded s : edged s -> strip (padded s) = s.
Proof.
  intros (c & s' & E & Hc & d & s'' & E' & Hd)%edged_ends. unfold strip, padded.
  change (lstrip (32 :: s ++ [32])) with (lstrip (s ++ [32])). rewrite E. cbn [app].
  rewrite lstrip_stop by done. change (c :: s' ++ [32]) with ((c :: s') ++ [32]).
  rewrite <- E, rev_app_distr. change (lstrip (rev [32] ++ rev s)) with (lstrip (rev s)).
  rewrite E', lstrip_stop, <- E' by done. apply rev_involutive.
Qed.

(** What the format specifications print: digits, a sign, a point. *)
Definition numeric (c : pystr) : Prop := c <> [] /\ Forall (fun x => 45 <= x <= 57) c.

Lemma numeric_edged c : numeric c -> edged c.
Proof.
  intros [Hne Hc]. unfold edged. rewrite Forall_forall in Hc.
  assert (Hs : forall x, x ∈ c -> is_space x = false).
  { intros x Hx%Hc. unfold is_space. z_decide. simpl.
    rewrite !(proj2 (Z.eqb_neq _ _)) by lia. done. }
  destruct c as [|a c]; [done|]. destruct c as [|b c _] using rev_ind.
  - exists a, a, []. left. split; [done|]. apply Hs. left.
  - exists a, b, c. right. split; [done|]. split; apply Hs; [left|].
    right. apply elem_of_app. right. by left.
Qed.

Lemma numeric_no_pipe c : numeric c -> no_pipe c.
Proof. intros [_ Hc] H. rewrite Forall_forall in Hc. apply Hc in H. unfold PIPE in H. lia. Qed.

Lemma numeric_unbroken c : numeric c -> unbroken c.
Proof.
  intros [_ Hc]. unfold unbroken. eapply Forall_impl; [exact Hc|]. intros x Hx. simpl in *.
  unfold is_break. z_decide. simpl. rewrite !(proj2 (Z.eqb_neq _ _)) by lia. done.
Qed.

Lemma numeric_app a b : numeric a -> numeric b -> numeric (a ++ b).
Proof. intros [Ha1 Ha] [Hb1 Hb]. split; [by destruct a|by apply Forall_app]. Qed.

Lemma numeric_str z : numeric (str_of_Z z).
Proof.
  split; [|apply Forall_forall; apply str_of_Z_elem].
  destruct (str_of_Z_shape z) as (sg & ds & -> & [_ Hd] & _).
  destruct Hd as [->|(c & r & -> & _)]; by destruct sg.
Qed.

Lemma numeric_digits w n : numeric (digits (S w) n).
Proof.
  split; [by intros H%(f_equal length); rewrite digits_length in H|].
  apply Forall_forall. intros c Hc%digits_chars. lia.
Qed.

Lemma numeric_point s z w n (b : bool) :
  s = (if b then u "-" else []) ++ str_of_Z z ++ u "." ++ digits (S w) n -> numeric s.
Proof.
  intros ->. assert (H : numeric (str_of_Z z ++ u "." ++ digits (S w) n)).
  { apply numeric_app; [apply numeric_str|]. apply numeric_app; [|apply numeric_digits].
    split; [done|]. by apply Forall_singleton. }
  destruct b; [|done]. apply numeric_app; [|done]. split; [done|]. by apply Forall_singleton.
Qed.

Lemma numeric_fixed_two x : numeric (fixed_two x).
Proof. by eapply numeric_point. Qed.

Lemma numeric_fixed_six x : numeric (fixed_six x).
Proof. by eapply numeric_point. Qed.

Lemma numeric_dash x : numeric (_rate_or_dash x).
Proof.
  destruct x; [apply numeric_fixed_two|]. split; [done|]. by apply Forall_singleton.
Qed.

Lemma metric_cells_numeric m : Forall numeric (metric_cells m).
Proof.
  unfold metric_cells.
  repeat (apply List.Forall_cons;
    [first [apply numeric_str | apply numeric_fixed_two | apply numeric_fixed_six | apply numeric_dash]|]).
  apply List.Forall_nil.
Qed.

(** A cell that stays within its cell: no pipe, no line break. *)
Definition cell_ok (c : pystr) : Prop := no_pipe c /\ unbroken c.

Lemma unbroken_app a b : unbroken (a ++ b) <-> unbroken a /\ unbroken b.
Proof. apply Forall_app. Qed.

Lemma unbroken_join sep ps : unbroken sep -> Forall unbroken ps -> unbroken (py_join sep ps).
Proof.
  intros Hs. induction ps as [|p ps IH]; intros Hp; [constructor|]. apply Forall_cons in Hp as [Hp Hps].
  destruct ps as [|q ps]; [done|]. change (py_join sep (p :: q :: ps)) with (p ++ sep ++ py_join sep (q :: ps)).
  rewrite !unbroken_app. auto.
Qed.

Lemma unbroken_check s : forallb (fun c => negb (is_break c)) s = true -> unbroken s.
Proof.
  rewrite forallb_forall. intros H. apply Forall_forall. intros c Hc%list_elem_of_In.
  by apply negb_true_iff, H.
Qed.

Lemma table_line_unbroken cells : Forall unbroken cells -> unbroken (table_line cells).
Proof.
  intros H. unfold table_line. rewrite !unbroken_app. split; [by apply unbroken_check|].
  split; [|by apply unbroken_check]. apply unbroken_join; [by apply unbroken_check|done].
Qed.

Lemma splitlines_text lines :
  lines <> [] -> Forall unbroken lines -> splitlines (text_of_lines lines) = lines.
Proof. intros Hne Hl. unfold text_of_lines. rewrite join_lines by done. by apply splitlines_joined. Qed.

Lemma Forall_impl_cells {P Q : pystr -> Prop} l : (forall c, P c -> Q c) -> Forall P l -> Forall Q l.
Proof. intros H Hl. by eapply Forall_impl. Qed.

Lemma strip_pipe_line s c d m :
  s = c :: m ++ [d] -> c <> PIPE -> d <> PIPE -> strip_pipe (PIPE :: s ++ [PIPE]) = s.
Proof.
  intros -> Hc Hd. unfold strip_pipe.
  assert (E : lstrip_pipe (PIPE :: (c :: m ++ [d]) ++ [PIPE]) = (c :: m ++ [d]) ++ [PIPE]).
  { simpl. by rewrite (proj2 (Z.eqb_neq _ _)) by done. }
  rewrite E. set (body := c :: m ++ [d]).
  assert (Hb : rev body = d :: rev (c :: m)) by apply (rev_app_distr (c :: m) [d]).
  assert (Hd' : forall r, lstrip_pipe (d :: r) = d :: r)
    by (intros r; simpl; by rewrite (proj2 (Z.eqb_neq d PIPE)) by done).
  rewrite (rev_app_distr body [PIPE]), Hb.
  change (lstrip_pipe (rev [PIPE] ++ d :: rev (c :: m))) with (lstrip_pipe (d :: rev (c :: m))).
  rewrite Hd', <- Hb. apply rev_involutive.
Qed.

(** The line between its first and its last pipe. *)
Lemma padded_ends cells :
  cells <> [] -> exists m, py_join [PIPE] (map padded cells) = 32 :: m ++ [32].
Proof.
  induction cells as [|c cells IH]; [done|]. intros _. destruct cells as [|d cells].
  - by exists c.
  - destruct (IH ltac:(done)) as [m Hm].
    change (py_join [PIPE] (map padded (c :: d :: cells))) with
      (padded c ++ PIPE :: py_join [PIPE] (map padded (d :: cells))).
    rewrite Hm. exists (c ++ [32; PIPE; 32] ++ m). unfold padded. cbn [app].
    rewrite <- !app_assoc. done.
Qed.

Lemma row_cells_back cells :
  cells <> [] -> Forall no_pipe cells ->
  split_pipe (strip_pipe (strip (table_line cells))) = map padded cells.
Proof.
  intros Hne Hp. destruct (padded_ends cells Hne) as [m Hm].
  assert (Hs : strip (table_line cells) = table_line cells).
  { apply strip_edged. rewrite table_line_padded by done. exists PIPE, PIPE.
    eexists. right. split; [reflexivity|done]. }
  rewrite Hs, table_line_padded, Hm by done.
  rewrite (strip_pipe_line _ 32 32 m) by done. rewrite <- Hm.
  apply split_pipe_join; [by destruct cells|]. apply Forall_map. eapply Forall_impl; [exact Hp|].
  intros c Hc. unfold no_pipe, padded. rewrite elem_of_cons, elem_of_app, list_elem_of_singleton.
  unfold PIPE in *. intros [H|[H|H]]; [lia|by apply Hc|lia].
Qed.

(** A published row is the run's own table row under the published header: whatever
    the run's numbers, its cells are the date, the commit, the prompt and the models, then
    the very metric cells [format_table] prints, as many as the header has, on one line. *)
Theorem render_row_cells row date sha models :
  cell_ok (rr_prompt_version row) -> cell_ok (rr_model row) ->
  render_row row date sha models =
    Ret (table_line ([date; sha; rr_prompt_version row; models] ++ metric_cells (rr_metrics row))) /\
  length (metric_cells (rr_metrics row)) = length (drop 2 COLUMNS) /\
  (unbroken date -> unbroken sha -> unbroken models -> forall line,
     render_row row date sha models = Ret line -> splitlines (line ++ [10]) = [line]).
Proof.
  intros [Hp1 Hp2] [Hm1 Hm2].
  pose proof (metric_cells_numeric (rr_metrics row)) as Hn.
  assert (Hrow : unbroken (row_line row)).
  { unfold row_line. apply table_line_unbroken. apply Forall_app. split; [by repeat constructor|].
    eapply Forall_impl; [exact Hn|]. apply numeric_unbroken. }
  assert (Hlines : splitlines (format_table [row]) =
    [table_line COLUMNS; separator_line (length COLUMNS); row_line row]).
  { unfold format_table. cbn [map app]. apply splitlines_text; [done|].
    repeat (apply List.Forall_cons; [first [exact Hrow | by apply unbroken_check]|]). apply List.Forall_nil. }
  assert (E : render_row row date sha models =
    Ret (table_line ([date; sha; rr_prompt_version row; models] ++ metric_cells (rr_metrics row)))).
  { unfold render_row. rewrite Hlines. cbn [lookup list_lookup]. unfold row_line.
    rewrite row_cells_back; [|done|].
    - rewrite map_map. cbn [app map drop].
      rewrite (map_ext_in (fun c => strip (padded c)) (fun c => c)), map_id; [done|].
      intros c Hc%list_elem_of_In. rewrite Forall_forall in Hn. by apply strip_padded, numeric_edged, Hn.
    - apply Forall_app. split; [by repeat constructor|]. eapply Forall_impl; [exact Hn|]. apply numeric_no_pipe. }
  split; [exact E|]. split; [done|].
  intros Hd Hs Hmo line Hline. rewrite E in Hline. injection Hline as <-.
  rewrite <- (app_nil_r (_ ++ [10])) at 1.
  apply (splitlines_joined [_]). apply Forall_singleton, table_line_unbroken.
  repeat (apply List.Forall_cons; [done|]). eapply Forall_impl; [exact Hn|]. apply numeric_unbroken.
Qed.

(** ** Appending *)

Lemma index_of_spec {A} (P : A -> bool) l k :
  index_of P l = Some k -> (k < length l)%nat /\
  forall i b, (k < i)%nat -> index_of P (take i l ++ b) = Some k.
Proof.
  revert k. induction l as [|x l IH]; intros k; simpl; [done|]. destruct (P x) eqn:Hx.
  - intros [= <-]. split; [lia|]. intros [|i] b Hi; [lia|]. simpl. by rewrite Hx.
  - destruct (index_of P l) as [k'|]; [|done]. intros [= <-]. destruct (IH k' eq_refl) as [H1 H2].
    split; [lia|]. intros [|i] b Hi; [lia|]. simpl. by rewrite Hx, H2 by lia.
Qed.

Lemma index_of_lookup {A} (P : A -> bool) l k :
  index_of P l = Some k -> exists x, l !! k = Some x /\ P x = true.
Proof.
  revert k. induction l as [|x l IH]; intros k; simpl; [done|]. destruct (P x) eqn:Hx.
  - intros [= <-]. eauto.
  - destruct (index_of P l) as [k'|]; [|done]. intros [= <-]. by apply IH.
Qed.

(** A found element is found in any prefix that holds its position. *)
Lemma find_prefix {A} (P : A -> bool) l x k i b :
  find P l = Some x -> l !! k = Some x -> (k < i)%nat -> find P (take i l ++ b) = Some x.
Proof.
  revert k i. induction l as [|y l IH]; intros k i; simpl; [done|].
  destruct (P y) eqn:Hy.
  - intros [= ->] _ Hi. destruct i; [lia|]. simpl. by rewrite Hy.
  - intros Hf Hk Hi. destruct i; [lia|]. simpl. rewrite Hy. destruct k as [|k].
    + injection Hk as ->. apply find_some in Hf as [_ Hf]. congruence.
    + eapply IH; [done|done|lia].
Qed.

Lemma leading_rows_spec l :
  let n := leading_rows l in
  (n <= length l)%nat /\ Forall (fun ln => is_row ln = true) (take n l) /\
  (forall a l', drop n l = a :: l' -> is_row a = false).
Proof.
  cbv zeta. induction l as [|ln l IH]; simpl; [split; [lia|]; by split|]. destruct (is_row ln) eqn:H; simpl.
  - destruct IH as (H1 & H2 & H3). split; [lia|]. split; [by constructor|done].
  - split; [lia|]. split; [constructor|]. by intros a l' [= <- _].
Qed.

Lemma leading_rows_app rows x rest :
  Forall (fun ln => is_row ln = true) rows -> is_row x = true ->
  (forall a l', rest = a :: l' -> is_row a = false) ->
  leading_rows (rows ++ x :: rest) = S (length rows).
Proof.
  intros Hr Hx Hrest. induction Hr as [|y rows Hy _ IH]; simpl; [|by rewrite Hy, IH].
  rewrite Hx. destruct rest as [|a rest]; simpl; [done|]. by rewrite (Hrest a rest eq_refl).
Qed.

Lemma drop_take_app {A} r i (l b : list A) :
  (r <= i)%nat -> (r <= length l)%nat -> drop r (take i l ++ b) = take (i - r) (drop r l) ++ b.
Proof.
  intros Hr Hl. rewrite drop_app_le by (rewrite length_take; lia).
  by rewrite skipn_firstn_comm.
Qed.

(** What an insertion point is, and where the next one is after a row has gone in. *)
Lemma insertion_point_spec lines i :
  insertion_point lines = Ret i ->
  render_header ∈ take i lines /\
  (forall a l, drop i lines = a :: l -> is_row a = false) /\
  forall line, is_row line = true ->
    insertion_point (take i lines ++ line :: drop i lines) = Ret (S (length (take i lines))).
Proof.
  unfold insertion_point.
  destruct (index_of _ lines) as [r|] eqn:Hr; [|done].
  case_bool_decide as Hf; [done|].
  assert (Hfind : find is_row (drop r lines) = Some render_header)
    by (destruct (decide (find is_row (drop r lines) = Some render_header)); tauto).
  destruct (index_of _ (drop r lines)) as [k|] eqn:Hk; [|done].
  destruct (index_of_spec _ _ _ Hr) as [Hr1 Hr2]. destruct (index_of_spec _ _ _ Hk) as [Hk1 Hk2].
  destruct (index_of_lookup _ _ _ Hk) as (h & Hh & ->%bool_decide_eq_true).
  rewrite length_drop in Hk1. set (f := (r + k + 2)%nat). intros [= <-].
  destruct (leading_rows_spec (drop f lines)) as (Hn & Hrows & Hnext).
  set (n := leading_rows (drop f lines)) in *. rewrite length_drop in Hn.
  rewrite lookup_drop in Hh. split; [|split].
  - apply list_elem_of_lookup. exists (r + k)%nat. rewrite lookup_take_lt by lia. done.
  - intros a l Hd. apply (Hnext a l). by rewrite drop_drop.
  - intros line Hline. rewrite Hr2 by lia. rewrite drop_take_app by lia.
    rewrite (find_prefix is_row _ render_header k), bool_decide_false;
      [|naive_solver|done|by rewrite lookup_drop|lia].
    rewrite Hk2 by lia. fold f. f_equal. rewrite length_take.
    destruct (decide (f <= length lines)%nat) as [Hfl|Hfl].
    + rewrite drop_take_app by lia. replace (f + n - f)%nat with n by lia.
      rewrite <- drop_drop. rewrite leading_rows_app by done. rewrite length_take, length_drop. lia.
    + rewrite (drop_ge _ (f + n)) by lia. rewrite take_ge by lia.
      rewrite drop_ge by (rewrite length_app; simpl; lia). simpl. lia.
Qed.

Section append.
Context {W : Type} {TF : TextFile W}.

(** A written file reads back. *)
Definition writes_kept : Prop := forall text (w w' : W),
  write_file text w = (Ret tt, w') -> file_text w' = Ret text.

(** The results file is append-only: publishing a row under the current header keeps
    every line of the file, in order, and puts the row after the table's last one, where
    the next row will follow it; a file without the table, or with another header, is
    refused before anything is written. *)
Theorem results_append_only line w :
  writes_kept -> unbroken line -> is_row line = true ->
  match append_result_row line w with
  | (Ret _, w') => exists text text' before after,
      file_text w = Ret text /\ splitlines text = before ++ after /\
      file_text w' = Ret text' /\ splitlines text' = before ++ line :: after /\
      render_header ∈ before /\ (forall a l, after = a :: l -> is_row a = false) /\
      insertion_point (splitlines text') = Ret (S (length before))
  | (Raise e, w') =>
      w' = w \/ exists new, insert_line line (splitlines (default [] (match file_text w with
        Ret t => Some t | Raise _ => None end))) = Ret new /\ write_file (text_of_lines new) w = (Raise e, w')
  end.
Proof.
  intros Hk Hline Hrow. unfold append_result_row. destruct (file_text w) as [text|e]; [|by left].
  simpl. unfold insert_line, mbind, outcome_bind.
  destruct (insertion_point (splitlines text)) as [i|e] eqn:Hi; [|by left].
  destruct (insertion_point_spec _ _ Hi) as (Hh & Hafter & Hnext).
  set (new := take i (splitlines text) ++ [line] ++ drop i (splitlines text)).
  destruct (write_file (text_of_lines new) w) as [[[]|e] w'] eqn:Hw; [|right; by exists new].
  assert (Hnew : splitlines (text_of_lines new) = new).
  { apply splitlines_text; [by destruct (take i (splitlines text))|].
    unfold new. pose proof (splitlines_unbroken text) as Hu. apply Forall_app. split; [by apply Forall_take|].
    apply Forall_app. split; [by apply Forall_singleton|by apply Forall_drop]. }
  exists text, (text_of_lines new), (take i (splitlines text)), (drop i (splitlines text)).
  rewrite Hnew, take_drop. split_and!; try done; [exact (Hk _ _ _ Hw)|]. by apply Hnext.
Qed.
End append.

(** ** A results file *)

Module ResultsToy.
Definition metrics : RunMetrics :=
  {| n_cases := 2; n_failed := 0; severity_exact := fone; severity_within_one := fone;
     category_accuracy := fone; escalate_precision := 0; escalate_recall := 0;
     critical_recall := 0; escalation_rate := 0; cost_mean_usd := 1500; cost_p95_usd := 2000;
     cost_total_usd := 3000; latency_p50_ms := 10; latency_p95_ms := 20;
     m_per_severity := per_severity []; m_confusion := confusion [];
     m_category_confusion := category_confusion []; m_sev_macro_f1 := 0; judge_mean := None;
     judge_pct_le2 := None; injection_pass_rate := None; judge_cost_total_usd := 0 |}.
Definition row : ResultRow :=
  {| rr_prompt_version := u "v2"; rr_model := u "m"; rr_metrics := metrics |}.
Definition published : pystr :=
  table_line ([u "2026-01-01"; u "abc"; u "v2"; u "m"] ++ metric_cells metrics).

#[export] Instance file : TextFile pystr := {
  file_text w := Ret w;
  write_file text _ := (Ret tt, text)
}.
(** Prose, the table without a row, and prose after it. *)
Definition page : pystr :=
  text_of_lines [u "# Results"; RUNS; []; render_header; separator_line 25; []; u "end"].
End ResultsToy.
#[local] Existing Instance ResultsToy.file.

Lemma render_row_cells_witness :
  render_row ResultsToy.row (u "2026-01-01") (u "abc") (u "m") = Ret ResultsToy.published.
Proof.
  apply (render_row_cells ResultsToy.row (u "2026-01-01") (u "abc") (u "m")).
  - split; [|apply unbroken_check; reflexivity].
    unfold no_pipe. apply (bool_decide_unpack _). vm_compute. exact I.
  - split; [|apply unbroken_check; reflexivity].
    unfold no_pipe. apply (bool_decide_unpack _). vm_compute. exact I.
Defined.

(** The row lands between the separator and the prose. *)
Lemma results_append_only_witness :
  exists w', append_result_row ResultsToy.published ResultsToy.page = (Ret tt, w') /\
    (exists before after, splitlines w' = before ++ ResultsToy.published :: after /\
       render_header ∈ before /\ splitlines ResultsToy.page = before ++ after).
Proof.
  pose proof (results_append_only ResultsToy.published ResultsToy.page) as H.
  destruct (append_result_row ResultsToy.published ResultsToy.page) as [o w'] eqn:E.
  assert (Ho : o = Ret tt) by (change o with (o, w').1; rewrite <- E; vm_compute; reflexivity).
  subst o. exists w'. split; [reflexivity|].
  destruct H as (text & text' & before & after & Ht & Hs & Ht' & Hs' & Hh & _).
  - intros text w1 w2 [= <-]. reflexivity.
  - apply unbroken_check. vm_compute. reflexivity.
  - vm_compute. reflexivity.
  - injection Ht as <-. injection Ht' as <-. exists before, after.
    split; [exact Hs'|]. split; [exact Hh|exact Hs].
Defined.
