(* ===== verification/Gate.v ===== *)
(** * Gate: the nightly regression gate

    [evals/gate.py]: the baseline file and the comparison of a run with it.  A [Decimal] is
    a coefficient over a power of ten, exact in the 28 digits of the source's context;
    [str(float)], [str(Decimal)] and [datetime.fromisoformat] are parameters. *)

From S2P Require Import Prelude Errors Json Datetime Text JsonParse Schemas Floats Golden Judge Scoring Recorder Publish.
#[local] Open Scope Z_scope.

(** [Decimal(str(x))] of a float: its [repr] reads back as [x]. *)
Class FloatDecimal : Type := {
  repr_mant : float -> Z;
  repr_scale : float -> nat;
  repr_reads_back : forall x, 0 <= x -> is_float x ->
    0 <= repr_mant x /\ nearest (repr_mant x * fone) (10 ^ Z.of_nat (repr_scale x)) = x
}.
(** [str] of a [Decimal]. *)
Class DecimalStr : Type := dec_str : Z * nat -> pystr.

(** [datetime.fromisoformat], [None] for a [ValueError]. *)
Class IsoParse : Type := {
  iso_parse : pystr -> option datetime;
  iso_parse_utc : forall us, in_range us -> iso_parse (isoformat_utc us) = Some (Datetime us (Some 0))
}.

Record Baseline : Type := {
  recorded_at : datetime;
  b_git_sha : pystr;
  b_prompt_version : pystr;
  b_model_config : jobj;
  b_metrics : RunMetrics
}.

Record GateSettings : Type := {
  eval_gate_severity_drop_points : Z;
  eval_gate_critical_recall_min : float;
  eval_gate_cost_rise_fraction : float
}.

Record GateResult : Type := {
  tripped : list pystr;
  details : list (pystr * pystr)
}.

(** ** The baseline file *)

Section file.
Context {W : Type} {TF : TextFile W} {NU : Numerals} {JL : JsonLoads} {IS : IsoParse} {FR : FloatRepr}.

(** The fields of the decoded file, in the order they are read. *)
Definition baseline_of (payload : json) : outcome exn Baseline :=
  match payload with
  | JObj d =>
      at_ ← (j ← item (u "recorded_at") d; as_str j);
      match iso_parse at_ with
      | None => Raise (ValueError [])
      | Some t =>
          sha ← (j ← item (u "git_sha") d; as_str j);
          prompt ← (j ← item (u "prompt_version") d; as_str j);
          config ← (j ← item (u "model_config") d;
                    match j with JObj c => Ret c | _ => Raise TypeError end);
          metrics ← (j ← item (u "metrics") d;
                     match j with JObj m => metrics_from_payload m | _ => Raise TypeError end);
          Ret {| recorded_at := t; b_git_sha := sha; b_prompt_version := prompt;
                 b_model_config := config; b_metrics := metrics |}
      end
  | _ => Raise TypeError
  end.

Definition invalid_baseline : exn := ValueError (u "invalid baseline").

Definition load_baseline (w : W) : outcome exn Baseline :=
  match file_text w with
  | Raise OSError => Raise (ValueError (u "could not read baseline"))
  | Raise e => Raise e
  | Ret raw =>
      match json_loads raw with
      | None => Raise invalid_baseline
      | Some payload =>
          match baseline_of payload with
          | Raise KeyError | Raise TypeError | Raise (ValueError _) => Raise invalid_baseline
          | o => o
          end
      end
  end.

Definition baseline_payload (b : Baseline) (now : Z) : jobj :=
  [(u "recorded_at", JStr (isoformat_utc now)); (u "git_sha", JStr (b_git_sha b));
   (u "prompt_version", JStr (b_prompt_version b)); (u "model_config", JObj (b_model_config b));
   (u "metrics", JObj (metrics_payload (b_metrics b)))].

(** [now] is [datetime.now(UTC)]; the other arguments are the fields of [b]. *)
Definition write_baseline (b : Baseline) (now : Z) : M exn W unit :=
  text ← lift (dumps (indent_args 2) (JObj (baseline_payload b now))); write_file text.
End file.

(** ** [evaluate_gate] *)

Section gate.
Context {FD : FloatDecimal} {DS : DecimalStr} {FR : FloatRepr}.
Variable settings : GateSettings.

(** [Decimal(str(run)) < Decimal(str(base)) - Decimal(points) / Decimal(100)]. *)
Definition severity_limit (base : float) : Z * nat :=
  (100 * repr_mant base - eval_gate_severity_drop_points settings * 10 ^ Z.of_nat (repr_scale base),
   (repr_scale base + 2)%nat).
Definition below (x : float) (limit : Z * nat) : bool :=
  repr_mant x * 10 ^ Z.of_nat limit.2 <? limit.1 * 10 ^ Z.of_nat (repr_scale x).

(** [base * (Decimal(1) + Decimal(str(fraction)))], of micro-dollars. *)
Definition cost_limit (base : Z) : Z * nat :=
  let f := eval_gate_cost_rise_fraction settings in
  (base * (10 ^ Z.of_nat (repr_scale f) + repr_mant f), repr_scale f).
Definition above (cost : Z) (limit : Z * nat) : bool := limit.1 <? cost * 10 ^ Z.of_nat limit.2.

Definition detail (base run limit : pystr) : pystr :=
  u "baseline=" ++ base ++ u " run=" ++ run ++ u " limit=" ++ limit.

Definition SEVERITY_DROP : pystr := u "severity_exact_drop".
Definition CRITICAL_RECALL : pystr := u "critical_recall".
Definition COST_RISE : pystr := u "cost_rise".

(** [if cond: tripped.append(name); details[name] = text]. *)
Definition trip (cond : bool) (name text : pystr) (r : GateResult) : GateResult :=
  if cond then {| tripped := tripped r ++ [name]; details := dset name text (details r) |} else r.

Definition evaluate_gate (metrics : RunMetrics) (baseline : Baseline) (run_model_config : jobj)
    : GateResult :=
  let base := b_metrics baseline in
  let slimit := severity_limit (severity_exact base) in
  let climit := cost_limit (cost_mean_usd base) in
  let r := {| tripped := []; details := [] |} in
  let r := trip (below (severity_exact metrics) slimit) SEVERITY_DROP
             (detail (float_repr (severity_exact base)) (float_repr (severity_exact metrics))
                     (dec_str slimit)) r in
  let r := trip (critical_recall metrics <? eval_gate_critical_recall_min settings) CRITICAL_RECALL
             (detail (float_repr (critical_recall base)) (float_repr (critical_recall metrics))
                     (float_repr (eval_gate_critical_recall_min settings))) r in
  trip (json_eqb (JObj run_model_config) (JObj (b_model_config baseline))
        && above (cost_mean_usd metrics) climit) COST_RISE
    (detail (fixed_six (cost_mean_usd base)) (fixed_six (cost_mean_usd metrics))
            (dec_str (climit.1, (climit.2 + 6)%nat))) r.
End gate.

(** ** The baseline reads back *)

Section baseline.
Context {W : Type} {TF : TextFile W} {NU : Numerals} {IS : IsoParse} {FR : FloatRepr} {FP : FloatParse}.

(** What a decoded payload holds. *)
Lemma baseline_of_payload b now :
  in_range now -> NoDup (dkeys (m_per_severity (b_metrics b))) ->
  baseline_of (JObj (baseline_payload b now)) =
    Ret {| recorded_at := Datetime now (Some 0); b_git_sha := b_git_sha b;
           b_prompt_version := b_prompt_version b; b_model_config := b_model_config b;
           b_metrics := b_metrics b |}.
Proof.
  intros Hnow Hnd. unfold baseline_of, baseline_payload, mbind, outcome_bind.
  set (m := metrics_payload (b_metrics b)).
  change (item (u "recorded_at") _) with (@Ret exn json (JStr (isoformat_utc now))).
  cbn [as_str]. rewrite iso_parse_utc by done.
  change (item (u "git_sha") _) with (@Ret exn json (JStr (b_git_sha b))).
  change (item (u "prompt_version") _) with (@Ret exn json (JStr (b_prompt_version b))).
  change (item (u "model_config") _) with (@Ret exn json (JObj (b_model_config b))).
  change (item (u "metrics") _) with (@Ret exn json (JObj m)).
  cbn [as_str]. unfold m. by rewrite metrics_payload_inverse.
Qed.

(** The gate compares with what was recorded: a baseline [write_baseline] put on disk is
    read back by [load_baseline] with its commit, prompt version, model configuration and
    every metric unchanged, recorded at the instant it was written. *)
Theorem baseline_roundtrip b now w w' :
  writes_kept -> in_range now -> NoDup (dkeys (m_per_severity (b_metrics b))) ->
  printable (JObj (baseline_payload b now)) = true ->
  write_baseline b now w = (Ret tt, w') ->
  load_baseline (JL := stdlib_loads) w' =
    Ret {| recorded_at := Datetime now (Some 0); b_git_sha := b_git_sha b;
           b_prompt_version := b_prompt_version b; b_model_config := b_model_config b;
           b_metrics := b_metrics b |}.
Proof.
  intros Hk Hnow Hnd Hp. unfold write_baseline, mbind, M_bind, lift.
  destruct (dumps (indent_args 2) _) as [text|e] eqn:Hd; [|done]. intros Hw%Hk.
  unfold load_baseline. rewrite Hw. unfold json_loads, stdlib_loads.
  rewrite <- (app_nil_r text).
  rewrite (loads_dumps (indent_args 2) (JObj (baseline_payload b now)) text []);
    [|by apply (indent_separators_ok _ 2)|done|constructor|done].
  change (sort_keys (indent_args 2)) with false.
  by rewrite canon_false, baseline_of_payload.
Qed.
End baseline.

(** ** What trips the gate *)

Lemma ten_pos n : 0 < 10 ^ Z.of_nat n.
Proof. apply Z.pow_pos_nonneg; lia. Qed.
#[local] Hint Resolve ten_pos : core.

(** Picking among three names. *)
Lemma picked_none {A} (a b c : bool) (x y z : A) :
  (if a then [x] else []) ++ (if b then [y] else []) ++ (if c then [z] else []) = [] <->
  a = false /\ b = false /\ c = false.
Proof. destruct a, b, c; naive_solver. Qed.

Lemma picked_sublist {A} (a b c : bool) (x y z : A) :
  ((if a then [x] else []) ++ (if b then [y] else []) ++ (if c then [z] else []))
    `sublist_of` [x; y; z].
Proof. destruct a, b, c; by repeat constructor. Qed.

Section verdict.
Context {FD : FloatDecimal} {DS : DecimalStr} {FR : FloatRepr}.
Variable settings : GateSettings.

(** The three conditions, in the order of [tripped]. *)
Definition severity_dropped (m : RunMetrics) (b : Baseline) : bool :=
  below (severity_exact m) (severity_limit settings (severity_exact (b_metrics b))).
Definition recall_low (m : RunMetrics) : bool :=
  critical_recall m <? eval_gate_critical_recall_min settings.
Definition cost_rose (m : RunMetrics) (b : Baseline) (config : jobj) : bool :=
  json_eqb (JObj config) (JObj (b_model_config b))
  && above (cost_mean_usd m) (cost_limit settings (cost_mean_usd (b_metrics b))).

Lemma evaluate_gate_names m b config :
  tripped (evaluate_gate settings m b config) =
    (if severity_dropped m b then [SEVERITY_DROP] else []) ++
    (if recall_low m then [CRITICAL_RECALL] else []) ++
    (if cost_rose m b config then [COST_RISE] else []) /\
  dkeys (details (evaluate_gate settings m b config)) = tripped (evaluate_gate settings m b config).
Proof.
  unfold evaluate_gate, severity_dropped, recall_low, cost_rose, trip.
  destruct (below _ _), (critical_recall m <? _), (json_eqb _ _ && above _ _); done.
Qed.

Lemma tripped_severity m b config :
  SEVERITY_DROP ∈ tripped (evaluate_gate settings m b config) <-> severity_dropped m b = true.
Proof.
  rewrite (proj1 (evaluate_gate_names m b config)).
  destruct (severity_dropped m b), (recall_low m), (cost_rose m b config); set_solver.
Qed.

Lemma tripped_subset m b config m' b' config' :
  (severity_dropped m' b' = true -> severity_dropped m b = true) ->
  (recall_low m' = true -> recall_low m = true) ->
  (cost_rose m' b' config' = true -> cost_rose m b config = true) ->
  tripped (evaluate_gate settings m' b' config') ⊆ tripped (evaluate_gate settings m b config).
Proof.
  intros H1 H2 H3. rewrite !(proj1 (evaluate_gate_names _ _ _)). intros x.
  rewrite !elem_of_app. destruct (severity_dropped m' b'), (recall_low m'), (cost_rose m' b' config');
    rewrite ?H1, ?H2, ?H3 by done; set_solver.
Qed.

(** The decimals of floats are ordered as the floats are. *)
Lemma decimal_mono x y :
  0 <= x <= y -> is_float x -> is_float y ->
  repr_mant x * 10 ^ Z.of_nat (repr_scale y) <= repr_mant y * 10 ^ Z.of_nat (repr_scale x).
Proof.
  intros Hxy Hx Hy. destruct (repr_reads_back x) as [Hmx Ex]; [lia|done|].
  destruct (repr_reads_back y) as [Hmy Ey]; [lia|done|].
  destruct (Z.le_gt_cases (repr_mant x * 10 ^ Z.of_nat (repr_scale y))
    (repr_mant y * 10 ^ Z.of_nat (repr_scale x))) as [|Hgt]; [done|].
  assert (y <= x).
  { rewrite <- Ex, <- Ey. apply nearest_mono; [done|done|]. pose proof fone_pos. nia. }
  assert (x = y) as -> by lia. lia.
Qed.

Lemma below_antimono x y limit :
  0 <= x <= y -> is_float x -> is_float y -> below y limit = true -> below x limit = true.
Proof.
  unfold below. rewrite !Z.ltb_lt. intros Hxy Hx Hy H.
  pose proof (decimal_mono x y Hxy Hx Hy) as Hm.
  set (lm := limit.1) in *. pose proof (ten_pos limit.2) as Hl. set (ls := 10 ^ Z.of_nat limit.2) in *.
  pose proof (ten_pos (repr_scale x)). pose proof (ten_pos (repr_scale y)).
  set (sx := 10 ^ Z.of_nat (repr_scale x)) in *. set (sy := 10 ^ Z.of_nat (repr_scale y)) in *.
  apply (Z.mul_lt_mono_pos_r sy); [done|].
  apply Z.le_lt_trans with (repr_mant y * sx * ls); [nia|].
  replace (repr_mant y * sx * ls) with (repr_mant y * ls * sx) by ring.
  replace (lm * sx * sy) with (lm * sy * sx) by ring. by apply Z.mul_lt_mono_pos_r.
Qed.

(** The run's rate is within the limit its own decimal gives. *)
Lemma not_below_own x :
  0 <= eval_gate_severity_drop_points settings -> below x (severity_limit settings x) = false.
Proof.
  intros Hp. unfold below, severity_limit. cbn [fst snd]. apply Z.ltb_ge.
  rewrite Nat2Z.inj_add, Z.pow_add_r by lia. change (10 ^ Z.of_nat 2) with 100.
  pose proof (ten_pos (repr_scale x)). nia.
Qed.

Lemma not_above_own c :
  0 <= c -> 0 <= repr_mant (eval_gate_cost_rise_fraction settings) ->
  above c (cost_limit settings c) = false.
Proof. intros Hc Hf. unfold above, cost_limit. cbn [fst snd]. apply Z.ltb_ge. nia. Qed.

Definition rate_ok (x : float) : Prop := 0 <= x /\ is_float x.

(** The gate never punishes an improvement and never trips on the baseline itself: a run
    whose severity accuracy and critical recall are no lower and whose mean cost is no
    higher than another's trips nothing the other does not trip, and, under thresholds that
    are not negative, the recorded run passes its own gate as long as it met the recall
    minimum. *)
Theorem gate_monotone m m' b config :
  rate_ok (severity_exact m) -> rate_ok (severity_exact m') ->
  severity_exact m <= severity_exact m' -> critical_recall m <= critical_recall m' ->
  cost_mean_usd m' <= cost_mean_usd m ->
  tripped (evaluate_gate settings m' b config) ⊆ tripped (evaluate_gate settings m b config) /\
  (0 <= eval_gate_severity_drop_points settings -> rate_ok (eval_gate_cost_rise_fraction settings) ->
   0 <= cost_mean_usd (b_metrics b) ->
   eval_gate_critical_recall_min settings <= critical_recall (b_metrics b) ->
   evaluate_gate settings (b_metrics b) b config = {| tripped := []; details := [] |}).
Proof.
  intros [Hm Hfm] [Hm' Hfm'] Hs Hr Hc. split.
  - apply tripped_subset; unfold severity_dropped, recall_low, cost_rose.
    + by apply below_antimono.
    + rewrite !Z.ltb_lt. lia.
    + rewrite !andb_true_iff. intros [-> H]. split; [done|]. revert H. unfold above.
      rewrite !Z.ltb_lt. pose proof (ten_pos (cost_limit settings (cost_mean_usd (b_metrics b))).2). nia.
  - intros Hp [Hf Hff] Hb Hmin. unfold evaluate_gate, trip.
    pose proof (repr_reads_back _ Hf Hff) as [Hmant _].
    by rewrite not_below_own, (proj2 (Z.ltb_ge _ _) Hmin), not_above_own, andb_false_r.
Qed.

(** The text of a rate is the fraction itself, as it is for every rate of a hundred cases. *)
Definition prints_exactly (x : float) (k n : Z) : Prop :=
  repr_mant x * n = k * 10 ^ Z.of_nat (repr_scale x).

(** The severity condition counts cases exactly: when the rates print as the fractions
    of correct cases they are, the gate trips if and only if the drop exceeds the allowed
    points, so that a drop of exactly the allowed points never trips whatever the baseline;
    each tripped condition has its detail, in the one fixed order. *)
Theorem severity_drop_exact m b config kr nr kb nb :
  0 < nr -> 0 < nb ->
  prints_exactly (severity_exact m) kr nr ->
  prints_exactly (severity_exact (b_metrics b)) kb nb ->
  let r := evaluate_gate settings m b config in
  (SEVERITY_DROP ∈ tripped r <->
   eval_gate_severity_drop_points settings * (nr * nb) < 100 * (kb * nr - kr * nb)) /\
  (tripped r = [] <-> severity_dropped m b = false /\ recall_low m = false /\ cost_rose m b config = false) /\
  dkeys (details r) = tripped r /\
  tripped r `sublist_of` [SEVERITY_DROP; CRITICAL_RECALL; COST_RISE].
Proof.
  intros Hnr Hnb Hr Hb r. unfold r. clear r. rewrite tripped_severity.
  split; [|rewrite (proj2 (evaluate_gate_names m b config)), (proj1 (evaluate_gate_names m b config));
           split; [apply picked_none|]; split; [done|]; apply picked_sublist].
  unfold severity_dropped, below, severity_limit, prints_exactly in *. cbn [fst snd].
  rewrite Z.ltb_lt, Nat2Z.inj_add, Z.pow_add_r by lia. change (10 ^ Z.of_nat 2) with 100.
  set (x := severity_exact m) in *. set (y := severity_exact (b_metrics b)) in *.
  pose proof (ten_pos (repr_scale x)) as Hx. pose proof (ten_pos (repr_scale y)) as Hy.
  set (sx := 10 ^ Z.of_nat (repr_scale x)) in *. set (sy := 10 ^ Z.of_nat (repr_scale y)) in *.
  set (p := eval_gate_severity_drop_points settings).
  rewrite <- (Z.lt_0_sub (repr_mant x * _)), <- (Z.lt_0_sub (p * _)).
  set (D := (100 * repr_mant y - p * sy) * sx - repr_mant x * (sy * 100)).
  set (N := 100 * (kb * nr - kr * nb) - p * (nr * nb)).
  assert (E : D * (nr * nb) = N * (sx * sy)).
  { unfold D, N.
    transitivity (100 * (repr_mant y * nb) * sx * nr - 100 * (repr_mant x * nr) * sy * nb - p * sy * sx * nr * nb);
      [ring|]. rewrite Hr, Hb. ring. }
  assert (0 < nr * nb) by nia. assert (0 < sx * sy) by nia. clearbody D N. nia.
Qed.
End verdict.

(** ** A gate *)

Module GateToy.
(** The shortest decimal of at most seventeen places, the exact one failing that. *)
Fixpoint shortest (fuel scale : nat) (x : float) : Z * nat :=
  match fuel with
  | O => (x * 5 ^ 1074, 1074%nat)
  | S f =>
      let k := (x * 10 ^ Z.of_nat scale * 2 + fone) / (2 * fone) in
      if nearest (k * fone) (10 ^ Z.of_nat scale) =? x then (k, scale) else shortest f (S scale) x
  end.

Lemma shortest_reads_back fuel scale x :
  0 <= x -> is_float x ->
  0 <= (shortest fuel scale x).1 /\
  nearest ((shortest fuel scale x).1 * fone) (10 ^ Z.of_nat (shortest fuel scale x).2) = x.
Proof.
  intros Hx Hf. revert scale. induction fuel as [|fuel IH]; intros scale.
  - cbn [shortest fst snd]. assert (H5 : 0 < 5 ^ 1074) by (apply Z.pow_pos_nonneg; lia).
    split; [nia|].
    assert (E : 10 ^ Z.of_nat 1074 = 5 ^ 1074 * fone)
      by (rewrite fone_pow, <- Z.pow_mul_l; f_equal).
    rewrite E, <- Z.mul_assoc. apply nearest_exact; [done|]. pose proof fone_pos. nia.
  - cbn [shortest]. set (k := _ / _). destruct (nearest _ _ =? x) eqn:E; [|apply IH].
    apply Z.eqb_eq in E. cbn [fst snd]. split; [|done].
    pose proof fone_pos. pose proof (ten_pos scale). apply Z.div_pos; nia.
Qed.

#[export] Program Instance decimals : FloatDecimal := {|
  repr_mant x := (shortest 18 0 x).1; repr_scale x := (shortest 18 0 x).2
|}.
Next Obligation. intros x. apply shortest_reads_back. Qed.
#[export] Instance texts : DecimalStr := fun d => str_of_Z d.1.

Definition settings : GateSettings :=
  {| eval_gate_severity_drop_points := 3; eval_gate_critical_recall_min := int_div 9 10;
     eval_gate_cost_rise_fraction := int_div 1 4 |}.
(** A run of a hundred cases. *)
Definition run (correct : Z) : RunMetrics :=
  {| n_cases := 100; n_failed := 0; severity_exact := int_div correct 100; severity_within_one := fone;
     category_accuracy := fone; escalate_precision := 0; escalate_recall := 0;
     critical_recall := fone; escalation_rate := 0; cost_mean_usd := 1500; cost_p95_usd := 2000;
     cost_total_usd := 3000; latency_p50_ms := 10; latency_p95_ms := 20;
     m_per_severity := []; m_confusion := []; m_category_confusion := []; m_sev_macro_f1 := 0;
     judge_mean := None; judge_pct_le2 := None; injection_pass_rate := None;
     judge_cost_total_usd := 0 |}.
Definition baseline : Baseline :=
  {| recorded_at := Datetime 0 (Some 0); b_git_sha := u "abc"; b_prompt_version := u "v2";
     b_model_config := [(u "triage", JStr (u "m"))]; b_metrics := run 41 |}.

(** [decimal_of] and [int_text] on the texts the payload holds. *)
Definition gate_of (correct : Z) : GateResult :=
  @evaluate_gate decimals texts JsonParse.Toy.repr settings (run correct) baseline [].
End GateToy.

(** 0.41 to 0.38 is the drop the binary subtraction got wrong; one case more trips. *)
Lemma severity_drop_exact_witness :
  (SEVERITY_DROP ∈ tripped (GateToy.gate_of 38) <-> 3 * (100 * 100) < 100 * (41 * 100 - 38 * 100)) /\
  (SEVERITY_DROP ∈ tripped (GateToy.gate_of 37) <-> 3 * (100 * 100) < 100 * (41 * 100 - 37 * 100)).
Proof.
  split.
  - refine (proj1 (@severity_drop_exact GateToy.decimals GateToy.texts JsonParse.Toy.repr
      GateToy.settings (GateToy.run 38) GateToy.baseline [] 38 100 41 100 _ _ _ _));
      [lia|lia|vm_compute; reflexivity|vm_compute; reflexivity].
  - refine (proj1 (@severity_drop_exact GateToy.decimals GateToy.texts JsonParse.Toy.repr
      GateToy.settings (GateToy.run 37) GateToy.baseline [] 37 100 41 100 _ _ _ _));
      [lia|lia|vm_compute; reflexivity|vm_compute; reflexivity].
Defined.

Lemma int_div_rate n d : 0 <= n -> 0 < d -> rate_ok (int_div n d).
Proof.
  intros Hn Hd. split; [|by apply int_div_is_float]. rewrite int_div_nearest by done.
  pose proof fone_pos. apply nearest_nonneg; [nia|done].
Qed.

Lemma gate_monotone_witness :
  tripped (GateToy.gate_of 41) ⊆ tripped (GateToy.gate_of 37) /\
  @evaluate_gate GateToy.decimals GateToy.texts JsonParse.Toy.repr GateToy.settings
    (GateToy.run 41) GateToy.baseline [] = {| tripped := []; details := [] |}.
Proof.
  destruct (@gate_monotone GateToy.decimals GateToy.texts JsonParse.Toy.repr GateToy.settings
    (GateToy.run 37) (GateToy.run 41) GateToy.baseline []) as [H1 H2].
  - apply int_div_rate; lia.
  - apply int_div_rate; lia.
  - apply int_div_mono; lia.
  - apply Z.le_refl.
  - apply Z.le_refl.
  - split; [exact H1|]. apply H2.
    + apply (bool_decide_unpack _). vm_compute. exact I.
    + apply int_div_rate; lia.
    + apply (bool_decide_unpack _). vm_compute. exact I.
    + apply (bool_decide_unpack _). vm_compute. exact I.
Defined.

(** ** Numerals, a disk, and a baseline on it *)

Module BaselineToy.
Lemma undigits_app a b : undigits (a ++ b) = undigits a * 10 ^ py_len b + undigits b.
Proof.
  induction b as [|c b IH] using rev_ind; [rewrite app_nil_r; change (undigits []) with 0; change (10 ^ py_len []) with 1; lia|].
  rewrite app_assoc, !undigits_snoc, IH. unfold py_len. rewrite length_app, Nat2Z.inj_add.
  rewrite Z.pow_add_r by lia. change (10 ^ Z.of_nat (length [c])) with 10. lia.
Qed.

(** A decimal with six places is the integer its digits spell. *)
Definition undot (s : pystr) : pystr := List.filter (fun c => negb (c =? 46)) s.

Lemma undot_app a b : undot (a ++ b) = undot a ++ undot b.
Proof. apply List.filter_app. Qed.

Lemma undot_digits ds : Forall (fun c => is_digit c = true) ds -> undot ds = ds.
Proof.
  induction 1 as [|c ds Hc%digit_range _ IH]; simpl; [done|].
  by rewrite (proj2 (Z.eqb_neq _ _)), IH by lia.
Qed.

Lemma undot_fixed x :
  undot (fixed_six x) = (if x <? 0 then u "-" else []) ++
    str_of_Z (Z.abs x / 1000000) ++ digits 6 (Z.abs x mod 1000000).
Proof.
  assert (Hd : forall w n, undot (digits w n) = digits w n).
  { intros w n. apply undot_digits, Forall_forall. intros c Hc%digits_chars. unfold is_digit.
    by rewrite !(proj2 (Z.leb_le _ _)) by lia. }
  unfold fixed_six. rewrite !undot_app, Hd. cbn [app]. f_equal; [by destruct (x <? 0)|]. f_equal.
  destruct (str_of_Z_shape (Z.abs x / 1000000)) as (sg & ds & -> & [Hds _] & Hs).
  rewrite undot_app, (undot_digits ds Hds). by destruct Hs as [[-> _]|[-> _]].
Qed.

Lemma undigits_nonneg ds : Forall (fun c => is_digit c = true) ds -> 0 <= undigits ds.
Proof.
  induction ds as [|c ds IH] using rev_ind; [done|].
  intros [H Hc]%Forall_app. rewrite undigits_snoc. apply IH in H.
  apply Forall_singleton, digit_range in Hc. lia.
Qed.

Lemma str_of_Z_digits q : 0 <= q -> plain_digits (str_of_Z q) /\ undigits (str_of_Z q) = q.
Proof.
  intros Hq. destruct (Z.eq_dec q 0) as [->|].
  { split; [|reflexivity]. split; [|by left]. apply List.Forall_cons; [reflexivity|apply List.Forall_nil]. }
  destruct (str_of_Z_shape q) as (sg & ds & -> & Hds & Hs).
  destruct Hs as [[-> ?]|[-> ?]]; [done|]. pose proof (undigits_nonneg ds (proj1 Hds)). lia.
Qed.

Lemma int_value_fixed x : int_value (undot (fixed_six x)) = x.
Proof.
  rewrite undot_fixed. pose proof (Z.div_mod (Z.abs x) 1000000 ltac:(lia)) as E.
  pose proof (Z.mod_pos_bound (Z.abs x) 1000000 ltac:(lia)) as Hr.
  pose proof (Z.div_pos (Z.abs x) 1000000 ltac:(lia) ltac:(lia)) as Hq.
  destruct (str_of_Z_digits _ Hq) as [[Hds Hne] Hv].
  set (q := str_of_Z _) in *. set (r := Z.abs x mod 1000000) in *.
  assert (Hu : undigits (q ++ digits 6 r) = Z.abs x).
  { rewrite undigits_app, Hv, (undigits_digits 6) by done.
    unfold py_len. rewrite digits_length. change (10 ^ Z.of_nat 6) with 1000000. lia. }
  unfold int_value. destruct (x <? 0) eqn:Hx; py_reflect.
  - change (split_sign (u "-" ++ q ++ digits 6 r)) with ([45], q ++ digits 6 r).
    cbv beta iota. rewrite Hu. change (bool_decide ([45] = [])) with false. cbv iota. lia.
  - assert (Es : split_sign ([] ++ q ++ digits 6 r) = ([], q ++ digits 6 r)).
    { destruct q as [|c q']; [by destruct Hne as [?|(? & ? & ? & _)]|].
      apply Forall_cons in Hds as [Hc%digit_range _]. simpl. by rewrite (proj2 (Z.eqb_neq _ _)) by lia. }
    rewrite Es. cbv beta iota. rewrite Hu, bool_decide_true by done. lia.
Qed.

#[export] Program Instance numerals : Numerals := {|
  decimal_of s := Some (int_value (undot s)); int_text s := Some (int_value s)
|}.
Next Obligation. intros x. cbn beta. f_equal. apply int_value_fixed. Qed.
Next Obligation. intros z. cbn beta. f_equal. apply scan_number_int. Qed.

#[export] Program Instance iso : IsoParse := {|
  iso_parse s := Some (Datetime (parse_iso_utc s) (Some 0))
|}.
Next Obligation. intros us Hus. cbn beta. do 2 f_equal. by apply parse_isoformat. Qed.

(** The baseline of [GateToy], with its tables. *)
Definition metrics : RunMetrics :=
  {| n_cases := 2; n_failed := 1; severity_exact := int_div 1 2; severity_within_one := fone;
     category_accuracy := int_div 1 2; escalate_precision := 0; escalate_recall := 0;
     critical_recall := fone; escalation_rate := 0; cost_mean_usd := 1500; cost_p95_usd := 2000;
     cost_total_usd := 3000; latency_p50_ms := 10; latency_p95_ms := 20;
     m_per_severity := [(1, {| precision := fone; recall := 0; support := 2 |});
                        (5, {| precision := 0; recall := fone; support := 1 |})];
     m_confusion := [[1; 0]; [0; 1]];
     m_category_confusion := [(u "benign", [(u "benign", 1); (u "failed", 1)])];
     m_sev_macro_f1 := int_div 1 3; judge_mean := Some (flt 4); judge_pct_le2 := None;
     injection_pass_rate := None; judge_cost_total_usd := 12 |}.
Definition recorded : Baseline :=
  {| recorded_at := Datetime 1709251199000001 (Some 0); b_git_sha := u "abc";
     b_prompt_version := u "v2"; b_model_config := [(u "triage", JStr (u "m"))]; b_metrics := metrics |}.
End BaselineToy.

(** The file [write_baseline] leaves behind reads as the record it was given. *)
Lemma baseline_roundtrip_witness :
  exists w', @write_baseline _ ResultsToy.file JsonParse.Toy.repr BaselineToy.recorded
      1709251199000001 [] = (Ret tt, w') /\
    @load_baseline _ ResultsToy.file BaselineToy.numerals (@stdlib_loads _ JsonParse.Toy.parse)
      BaselineToy.iso w' = Ret BaselineToy.recorded.
Proof.
  eexists. split; [reflexivity|].
  eapply (@baseline_roundtrip _ ResultsToy.file BaselineToy.numerals BaselineToy.iso
    JsonParse.Toy.repr JsonParse.Toy.parse BaselineToy.recorded 1709251199000001 []).
  - intros text w1 w2 [= <-]. reflexivity.
  - vm_compute. split; discriminate.
  - apply (bool_decide_unpack _). vm_compute. exact I.
  - vm_compute. reflexivity.
  - reflexivity.
Defined.
