(* ===== verification/Candidates.v ===== *)
(** * Candidates: what a sampled session is

    [evals/candidates.py]: the hint of an injection, the strata and their opaque tokens.
    The one regular expression of the module is a term of a small language, whose matcher
    is proved against what its terms denote. *)

From S2P Require Import Prelude Schemas.
#[local] Open Scope Z_scope.

(** ** Regular expressions

    The fragment [INJECTION_HINT] uses: [rests r s] are the texts left after each match of
    [r] at the head of [s]. *)

Inductive re : Type :=
  | Eps
  | Chr (p : Z -> bool)
  | Cat (a b : re)
  | Alt (a b : re).

Fixpoint rests (r : re) (s : pystr) : list pystr :=
  match r with
  | Eps => [s]
  | Chr p => match s with c :: s' => if p c then [s'] else [] | [] => [] end
  | Cat a b => flat_map (rests b) (rests a s)
  | Alt a b => rests a s ++ rests b s
  end.

Fixpoint search (r : re) (s : pystr) : bool :=
  match rests r s with
  | _ :: _ => true
  | [] => match s with [] => false | _ :: s' => search r s' end
  end.

(** The texts [r] matches. *)
Inductive matches : re -> pystr -> Prop :=
  | m_eps : matches Eps []
  | m_chr p c : p c = true -> matches (Chr p) [c]
  | m_cat a b s t : matches a s -> matches b t -> matches (Cat a b) (s ++ t)
  | m_left a b s : matches a s -> matches (Alt a b) s
  | m_right a b s : matches b s -> matches (Alt a b) s.

Lemma rests_spec r s t : t ∈ rests r s <-> exists m, matches r m /\ s = m ++ t.
Proof.
  revert s t. induction r as [|p|a IHa b IHb|a IHa b IHb]; intros s t; simpl.
  - rewrite list_elem_of_singleton. split; [intros ->; exists []; split; [constructor|done]|].
    intros (m & Hm & ->). by inversion Hm.
  - destruct s as [|c s].
    { split; [by intros ?%not_elem_of_nil|]. intros (m & Hm & E). by inversion Hm; subst. }
    destruct (p c) eqn:Hc.
    + rewrite list_elem_of_singleton. split; [intros ->; exists [c]; split; [by constructor|done]|].
      intros (m & Hm & E). inversion Hm; subst. by injection E.
    + split; [by intros ?%not_elem_of_nil|]. intros (m & Hm & E). inversion Hm; subst.
      injection E as <- _. congruence.
  - rewrite list_elem_of_In, in_flat_map. setoid_rewrite <- list_elem_of_In. split.
    + intros (x & (m & Hm & ->)%IHa & (m' & Hm' & ->)%IHb). exists (m ++ m'). split; [by constructor|].
      by rewrite app_assoc.
    + intros (m & Hm & ->). inversion Hm as [| |? ? m1 m2 H1 H2| |]; subst.
      exists (m2 ++ t). rewrite IHa, IHb. split; [exists m1|by exists m2].
      split; [done|]. by rewrite <- app_assoc.
  - rewrite elem_of_app, IHa, IHb. split.
    + intros [(m & ? & ?)|(m & ? & ?)]; exists m; (split; [by constructor|done]).
    + intros (m & Hm & E). inversion Hm; subst; eauto.
Qed.

Lemma search_spec r s : search r s = true <-> exists a m b, s = a ++ m ++ b /\ matches r m.
Proof.
  assert (Hhead : forall s, rests r s <> [] <-> exists m b, s = m ++ b /\ matches r m).
  { intros s'. split.
    - destruct (rests r s') as [|t l] eqn:E; [done|]. intros _.
      destruct (proj1 (rests_spec r s' t)) as (m & Hm & ->); [rewrite E; by left|]. by exists m, t.
    - intros (m & b & Es & Hm) E. apply (not_elem_of_nil b). rewrite <- E. apply rests_spec. eauto. }
  induction s as [|c s IH]; cbn [search].
  - specialize (Hhead []). destruct (rests r []) as [|t l] eqn:E.
    + split; [done|]. intros (a & m & b & Es & Hm). symmetry in Es.
      apply app_eq_nil in Es as [-> Es]. exfalso. apply (proj2 Hhead); [|done].
      apply app_eq_nil in Es as [-> ->]. by exists [], [].
    + split; [|done]. intros _. destruct (proj1 Hhead) as (m & b & ? & ?); [done|]. by exists [], m, b.
  - specialize (Hhead (c :: s)). destruct (rests r (c :: s)) as [|t l] eqn:E.
    + rewrite IH. split; [intros (a & m & b & -> & Hm); by exists (c :: a), m, b|].
      intros ([|c' a] & m & b & Es & Hm).
      * exfalso. apply (proj2 Hhead); [|done]. by exists m, b.
      * injection Es as <- ->. by exists a, m, b.
    + split; [|done]. intros _. destruct (proj1 Hhead) as (m & b & ? & ?); [done|]. by exists [], m, b.
Qed.

(** ** [evals/candidates.py] *)

(** A letter of the pattern under [re.I]: the dotted capital and the dotless small i, the
    long s and the Kelvin sign are equal to their ASCII letters. *)
Definition fold_char (c : Z) : Z :=
  if (65 <=? c) && (c <=? 90) then c + 32
  else if (c =? 304) || (c =? 305) then 105
  else if c =? 383 then 115
  else if c =? 8490 then 107
  else c.

Definition lit (s : pystr) : re := foldr (fun c r => Cat (Chr (fun d => fold_char d =? c)) r) Eps s.
Definition one_of (s : pystr) : re := Chr (fun c => bool_decide (c ∈ s)).
Definition alts (l : list re) : re := foldr Alt (Chr (fun _ => false)) l.
Definition opt (r : re) : re := Alt r Eps.
Definition cats (l : list re) : re := foldr Cat Eps l.

Definition INJECTION_HINT : re :=
  alts [cats [lit (u "ignore "); opt (alts [lit (u "all "); lit (u "previous "); lit (u "prior ")]);
              lit (u "instructions")];
        lit (u "system prompt");
        lit (u "as an ai");
        cats [lit (u "severity"); opt (lit (u " ")); one_of (u ":="); opt (lit (u " "));
              one_of (u "12345")];
        cats [lit (u "rate "); alts [lit (u "this"); lit (u "it")]; lit (u " "); opt (lit (u "as "));
              alts [lit (u "low"); lit (u "benign"); lit (u "1")]]].

Definition hinted (s : option pystr) : bool :=
  match s with Some s => search INJECTION_HINT s | None => false end.

Definition matches_injection_hint (alert : Alert.SessionAlert) : bool :=
  existsb (fun e => hinted (Alert.username e) || hinted (Alert.input e)) (Alert.events alert).

Definition STRATA_CATEGORIES : list pystr :=
  map u ["scanning"; "brute_force"; "reconnaissance"; "successful_intrusion"; "malware_delivery";
         "persistence_attempt"; "other"]%string.

Record Candidate : Type := {
  c_case_id : pystr;
  c_alert_id : pystr;
  c_received_at : Z;
  c_stratum : pystr;
  c_alert : Alert.SessionAlert
}.

Definition stratum_id `{Sha256} (stratum : pystr) (seed : Z) : pystr :=
  take 8 (sha256_text (str_of_Z seed ++ u ":" ++ stratum)).

Example hint_folds : search INJECTION_HINT (u "please IGNORE previous InstructionS now") = true.
Proof. vm_compute. reflexivity. Qed.
(** The long s and the dotless i are folded too. *)
Example hint_unicode : search INJECTION_HINT ([383] ++ u "ever" ++ [305] ++ u "ty: 4") = true.
Proof. vm_compute. reflexivity. Qed.
Example hint_needs_sign : search INJECTION_HINT (u "severity 3, assistant_manager") = false.
Proof. vm_compute. reflexivity. Qed.
