(* ===== verification/Sample.v ===== *)
(** * Sample: the verdict-blind sample of an evaluation

    [evals/sample.py], less [main] (see [Commands]).  The seeded generator
    ([random.Random]) is a parameter: what it draws are positions, so a draw depends on
    the length of a list alone.  The [while] loop of the remainder runs on fuel, which
    [round_robin_terminates] proves to be enough. *)

From S2P Require Import Prelude Errors Json Datetime Text JsonParse Schemas Policy Database Golden Candidates.
#[local] Open Scope Z_scope.

(** ** [_fetch_eligible] *)

Definition INJECTION_CANDIDATE : pystr := u "injection-candidate".
Definition UNVERDICTED : pystr := u "unverdicted".

Definition _stratum_for (alert : Alert.SessionAlert) (category : option pystr) : pystr :=
  if matches_injection_hint alert then INJECTION_CANDIDATE
  else default UNVERDICTED category.

(** [max(created_at)] of a group. *)
Definition latest_created (rows : list VerdictRow) : option Z :=
  foldr (fun v acc => Some (match acc with Some t => Z.max (v_created_at v) t | None => v_created_at v end))
        None rows.

(** The categories an alert is joined with: one for each verdict of the latest instant. *)
Definition joined (ts : tables) (row : AlertRow) : list (option pystr) :=
  let own := List.filter (fun v => v_alert_id v =? a_id row) (verdicts ts) in
  match latest_created own with
  | None => [None]
  | Some t => map (fun v => Some (Verdict.category_str (Verdict.category (v_verdict v))))
                  (List.filter (fun v => v_created_at v =? t) own)
  end.

Definition finished (r : AlertRow) : bool := bool_decide (a_status r <> pending).
Definition received_since (since : option Z) (r : AlertRow) : bool :=
  match since with Some t => t <=? a_received_at r | None => true end.

(** [received_at DESC, id]. *)
Definition newest_first (a b : AlertRow) : Prop :=
  a_received_at b < a_received_at a \/ (a_received_at a = a_received_at b /\ a_id a <= a_id b).
#[export] Instance newest_first_dec : RelDecision newest_first.
Proof. intros a b. unfold newest_first. apply _. Defined.

Definition eligible_rows (since : option Z) (ts : tables) : list (AlertRow * option pystr) :=
  flat_map (fun r => map (pair r) (joined ts r))
    (merge_sort newest_first
       (List.filter (fun r => finished r && received_since since r) (alerts ts))).

(** ** The draws *)

(** [random.Random]: [sample] answers distinct positions, [shuffle] a permutation. *)
Class Rng (R : Type) : Type := {
  rng_seed : Z -> R;
  rng_sample : nat -> nat -> R -> list nat * R;
  rng_shuffle : nat -> R -> list nat * R;
  rng_sample_drawn : forall n k r, (k <= n)%nat ->
    length (rng_sample n k r).1 = k /\ NoDup (rng_sample n k r).1 /\
    Forall (fun i => i < n)%nat (rng_sample n k r).1;
  rng_shuffle_perm : forall n r, (rng_shuffle n r).1 ≡ₚ List.seq 0 n
}.

(** The elements of [l] at the positions [ps]. *)
Definition picked {A} (l : list A) (ps : list nat) : list A := omap (fun i => l !! i) ps.

(** [rng.shuffle(l)]. *)
Definition shuffle {R A} `{Rng R} (l : list A) : M exn R (list A) := fun r =>
  let '(ps, r') := rng_shuffle (length l) r in (Ret (picked l ps), r').

(** A sample of a negative size is a [ValueError]. *)
Definition _draw {R A} `{Rng R} (members : list A) (k : Z) : M exn R (list A) := fun r =>
  if py_len members <=? k then (Ret members, r)
  else if k <? 0 then (Raise (ValueError (u "Sample larger than population or is negative")), r)
  else let '(ps, r') := rng_sample (length members) (Z.to_nat k) r in (Ret (picked members ps), r').

Definition selection := list (pystr * Candidate).
(** [for candidate in cs: selected[candidate.case_id] = candidate]. *)
Definition select (sel : selection) (cs : list Candidate) : selection :=
  foldl (fun s c => dset (c_case_id c) c s) sel cs.

(** [for c in cs: d.setdefault(key(c), []).append(c)]. *)
Definition group_by {K} `{EqDecision K} (key : Candidate -> K) (cs : list Candidate)
    : list (K * list Candidate) :=
  foldl (fun d c => dset (key c) (default [] (dget (key c) d) ++ [c]) d) [] cs.
Definition members_of {K} `{EqDecision K} (k : K) (d : list (K * list Candidate)) : list Candidate :=
  default [] (dget k d).

Section draws.
Context {R : Type} {RN : Rng R}.

Definition draw_category (n : Z) (buckets : list (pystr * list Candidate)) (sel : selection)
    (category_name : pystr) : M exn R selection :=
  match members_of category_name buckets with
  | [] => mret sel
  | members =>
      cs ← _draw members (Z.min (Z.max 5 (n / 8)) (py_len members));
      mret (select sel cs)
  end.

Definition draw_injection (n : Z) (buckets : list (pystr * list Candidate)) (sel : selection)
    : M exn R selection :=
  match members_of INJECTION_CANDIDATE buckets with
  | [] => mret sel
  | members =>
      cs ← _draw members (Z.min (n / 4) (py_len members));
      mret (select sel cs)
  end.

Definition clamp (n : Z) (sel : selection) : M exn R selection :=
  if n <? py_len sel then cs ← _draw (map snd sel) n; mret (select [] cs) else mret sel.

(** [(candidate.alert.sensor, candidate.received_at.date().isoformat())], and the order of
    such pairs. *)
Definition sensor_day (c : Candidate) : pystr * pystr :=
  (Alert.sensor (c_alert c), take 10 (isoformat_utc (c_received_at c))).
Definition pair_le (a b : pystr * pystr) : Prop :=
  if decide (a.1 = b.1) then str_leb a.2 b.2 = true else str_leb a.1 b.1 = true.
#[export] Instance pair_le_dec : RelDecision pair_le.
Proof. intros a b. unfold pair_le. case_match; apply _. Defined.

Definition groups : Type := list ((pystr * pystr) * list Candidate).

(** [for key in group_keys: rng.shuffle(groups[key])]. *)
Definition shuffle_group (gs : groups) (key : pystr * pystr) : M exn R groups :=
  g ← shuffle (members_of key gs); mret (dset key g gs).

Definition nonempty {A} (l : list A) : bool := match l with [] => false | _ => true end.

(** The [while] loop: [None] when the fuel runs out. *)
Fixpoint round_robin (fuel : nat) (group_keys : list (pystr * pystr)) (index : nat) (budget : Z)
    (gs : groups) (sel : selection) : option selection :=
  match fuel with
  | O => None
  | S fuel' =>
      if (0 <? budget) && existsb (fun key => nonempty (members_of key gs)) group_keys then
        match group_keys !! (index mod length group_keys)%nat with
        | Some key =>
            match rev (members_of key gs) with
            | candidate :: rest =>
                round_robin fuel' group_keys (S index) (budget - 1) (dset key (rev rest) gs)
                            (dset (c_case_id candidate) candidate sel)
            | [] => round_robin fuel' group_keys (S index) budget gs sel
            end
        | None => None
        end
      else Some sel
  end.

Definition never_ends : exn := OtherException (u "the loop does not end").

(** Every candidate of the pool, once around the keys each, and a last test. *)
Definition loop_fuel (pool : list Candidate) (group_keys : list (pystr * pystr)) : nat :=
  S (length pool * length group_keys).

Definition fill (eligible : list Candidate) (n : Z) (sel : selection) : M exn R selection :=
  let remaining_budget := Z.max 0 (n - py_len sel) in
  let remainder_pool :=
    List.filter (fun c => bool_decide (c_case_id c ∉ dkeys sel)) eligible in
  if (0 <? remaining_budget) && nonempty remainder_pool then
    let gs := group_by sensor_day remainder_pool in
    let group_keys := merge_sort pair_le (dkeys gs) in
    gs ← foldM shuffle_group group_keys gs;
    match round_robin (loop_fuel remainder_pool group_keys) group_keys 0 remaining_budget gs sel with
    | Some sel => mret sel
    | None => raise never_ends
    end
  else mret sel.

(** [sample] once the candidates are read. *)
Definition draw_sample (n : Z) (eligible : list Candidate) : M exn R (list Candidate) :=
  let buckets := group_by c_stratum eligible in
  sel ← foldM (draw_category n buckets) STRATA_CATEGORIES [];
  sel ← draw_injection n buckets sel;
  sel ← clamp n sel;
  sel ← fill eligible n sel;
  mret (map snd sel).
End draws.

(** ** [sample] *)

Section sample.
Context {W R : Type} {PG : Postgres W} {RN : Rng R} {AC : AlertCodec} {LZ : LocalZone} {SH : Sha256}.
Context (str_uuid : uuid -> pystr).

Definition _fetch_eligible (since : option Z)
    : M exn (db W) (list (AlertRow * option pystr)) :=
  in_session (_ ← execute_statement; d ← get; mret (eligible_rows since (working d))).

(** One row: a candidate, or nothing when its case is excluded. *)
Definition candidate_of (row : AlertRow * option pystr) : outcome exn Candidate :=
  alert ← model_validate (a_raw row.1);
  match Alert.fingerprint alert with
  | None => Raise (OtherException (u "IndexError"))
  | Some case_id =>
      Ret {| c_case_id := case_id; c_alert_id := str_uuid (a_id row.1);
             c_received_at := a_received_at row.1; c_stratum := _stratum_for alert row.2;
             c_alert := alert |}
  end.

Fixpoint eligible_of (exclude_case_ids : list pystr) (rows : list (AlertRow * option pystr))
    : outcome exn (list Candidate) :=
  match rows with
  | [] => Ret []
  | row :: rows' =>
      c ← candidate_of row;
      cs ← eligible_of exclude_case_ids rows';
      Ret (if bool_decide (c_case_id c ∈ exclude_case_ids) then cs else c :: cs)
  end.

Definition sample (n seed : Z) (since : option Z) (exclude_case_ids : list pystr)
    : M exn (db W) (list Candidate) :=
  rows ← _fetch_eligible since;
  eligible ← lift (eligible_of exclude_case_ids rows);
  lift (draw_sample n eligible (rng_seed (R := R) seed)).1.

(** ** [write_candidates] and the exclusion file *)

Context {JL : JsonLoads} {FR : FloatRepr}.

Definition candidate_row (seed : Z) (c : Candidate) : json :=
  JObj [(u "case_id", JStr (c_case_id c)); (u "alert", JObj (alert_dump (c_alert c)));
        (u "sampled", JObj [(u "alert_id", JStr (c_alert_id c));
                            (u "received_at", JStr (isoformat_utc (c_received_at c)));
                            (u "stratum_id", JStr (stratum_id (c_stratum c) seed));
                            (u "seed", JInt seed)])].

Fixpoint dump_all (rows : list json) : outcome exn (list pystr) :=
  match rows with
  | [] => Ret []
  | j :: rows' => line ← dumps default_args j; ls ← dump_all rows'; Ret (line :: ls)
  end.

(** The text of the file. *)
Definition candidates_text (seed : Z) (candidates : list Candidate) : outcome exn pystr :=
  lines ← dump_all (map (candidate_row seed) candidates);
  Ret (py_join [10] lines ++ match lines with [] => [] | _ => [10] end).

(** A row of a candidate file, or of a golden file.  A [case_id] that is no text is kept
    out of the set here, equal to no fingerprint. *)
Definition excluded_id (payload : json) : outcome exn (option pystr) :=
  match payload with
  | JObj row =>
      match dget (u "case_id") row with
      | Some (JStr s) => Ret (Some s)
      | Some (JArr _) | Some (JObj _) => Raise TypeError
      | Some _ => Ret None
      | None =>
          match dget (u "alert") row with
          | None => Raise KeyError
          | Some (JObj raw) =>
              alert ← model_validate raw;
              match Alert.fingerprint alert with Some i => Ret (Some i) | None => Raise (OtherException (u "IndexError")) end
          | Some _ => Raise ValidationError
          end
      end
  | _ => Raise TypeError
  end.

Fixpoint excluded_ids (lines : list pystr) : outcome exn (list pystr) :=
  match lines with
  | [] => Ret []
  | line :: lines' =>
      if bool_decide (strip line = []) then excluded_ids lines'
      else
        match json_loads line with
        | None => Raise JSONDecodeError
        | Some payload =>
            i ← excluded_id payload;
            ids ← excluded_ids lines';
            Ret (match i with Some i => i :: ids | None => ids end)
        end
  end.

Definition _load_exclude_case_ids (text : outcome exn pystr) : outcome exn (list pystr) :=
  t ← text; excluded_ids (splitlines t).
End sample.

(** ** The round robin ends *)

Section loop.
Variable group_keys : list (pystr * pystr).
Hypothesis keys_distinct : NoDup group_keys.

Definition remaining (gs : groups) : list Candidate :=
  flat_map (fun key => members_of key gs) group_keys.

Lemma members_dset key key' g (gs : groups) :
  members_of key' (dset key g gs) = if decide (key' = key) then g else members_of key' gs.
Proof.
  unfold members_of. case_decide as H; [subst; by rewrite dget_dset_eq|].
  by rewrite dget_dset_ne by congruence.
Qed.

Lemma remaining_pop key rest c gs :
  key ∈ group_keys -> members_of key gs = rest ++ [c] ->
  remaining gs ≡ₚ c :: remaining (dset key rest gs).
Proof.
  intros (l1 & l2 & E)%list_elem_of_split Hg. unfold remaining.
  assert (Hout : forall l, key ∉ l ->
    flat_map (fun k => members_of k (dset key rest gs)) l = flat_map (fun k => members_of k gs) l).
  { induction l as [|k l IH]; intros Hk; [done|]. simpl. apply not_elem_of_cons in Hk as [Hk Hl].
    rewrite members_dset, decide_False, IH by congruence. done. }
  pose proof keys_distinct as Hnd. rewrite E in Hnd.
  apply NoDup_app in Hnd as (_ & H12 & [Hk2 _]%NoDup_cons).
  assert (Hk1 : key ∉ l1) by (intros H; apply (H12 key H); by left).
  rewrite E, !flat_map_app. simpl. rewrite (Hout l1 Hk1), (Hout l2 Hk2), members_dset, decide_True by done.
  rewrite Hg. rewrite <- app_assoc. solve_Permutation.
Qed.

Lemma any_remaining gs :
  existsb (fun key => nonempty (members_of key gs)) group_keys = true <-> remaining gs <> [].
Proof.
  clear keys_distinct. unfold remaining. induction group_keys as [|k l IH]; simpl; [done|].
  rewrite orb_true_iff, IH. destruct (members_of k gs) as [|c m]; simpl; [|naive_solver].
  split; [intros [?|?]|]; naive_solver.
Qed.

(** From any index, a key that still has members is met within one turn of the keys. *)
Lemma next_nonempty gs index :
  remaining gs <> [] -> exists d key, (d < length group_keys)%nat /\
    group_keys !! ((index + d) mod length group_keys)%nat = Some key /\ members_of key gs <> [].
Proof.
  intros H%any_remaining. apply existsb_exists in H as (key & Hin & Hne).
  apply list_elem_of_In, list_elem_of_lookup in Hin as [j Hj].
  pose proof (lookup_lt_Some _ _ _ Hj) as Hlt. set (G := length group_keys) in *.
  pose proof (Nat.div_mod_eq index G) as Ei.
  pose proof (Nat.mod_upper_bound index G ltac:(lia)) as Hi.
  set (i := (index mod G)%nat) in *. set (q := (index / G)%nat) in *.
  assert (Hm : members_of key gs <> []) by (by destruct (members_of key gs)).
  destruct (le_lt_dec i j) as [Hij|Hij].
  - exists (j - i)%nat, key. split; [lia|]. split; [|done].
    rewrite <- (Nat.mod_unique (index + (j - i)) G q j) by lia. done.
  - exists (j + G - i)%nat, key. split; [lia|]. split; [|done].
    rewrite <- (Nat.mod_unique (index + (j + G - i)) G (S q) j) by lia. done.
Qed.

(** The steps that are left when the next non-empty key is [d] steps away. *)
Definition enough (fuel index : nat) (gs : groups) : Prop :=
  (0 < fuel)%nat /\
  (remaining gs = [] \/ exists d key, (d < length group_keys)%nat /\
     group_keys !! ((index + d) mod length group_keys)%nat = Some key /\ members_of key gs <> [] /\
     ((length (remaining gs) - 1) * length group_keys + d + 1 < fuel)%nat).

Lemma enough_any fuel index gs :
  (length (remaining gs) * length group_keys < fuel)%nat -> enough fuel index gs.
Proof.
  intros Hf. split; [lia|]. destruct (remaining gs) as [|c l] eqn:E; [by left|right].
  destruct (next_nonempty gs index) as (d & key & Hd & Hk & Hm); [by rewrite E|].
  exists d, key. split_and!; try done. simpl in *. rewrite Nat.sub_0_r. lia.
Qed.

Lemma loop_takes fuel index budget gs sel :
  enough fuel index gs ->
  exists taken left, round_robin fuel group_keys index budget gs sel = Some (select sel taken) /\
    taken ++ left ≡ₚ remaining gs /\
    py_len taken = Z.min (Z.max 0 budget) (py_len (remaining gs)).
Proof.
  revert index budget gs sel. induction fuel as [|fuel IH]; intros index budget gs sel [Hf He]; [lia|].
  cbn [round_robin]. destruct ((0 <? budget) && existsb _ group_keys) eqn:Hg.
  2: { exists [], (remaining gs). split_and!; [done|done|]. unfold py_len. simpl.
       apply andb_false_iff in Hg as [Hb|Hr]; [py_reflect; lia|].
       destruct (decide (remaining gs = [])) as [->|Hne]; [simpl; lia|].
       apply any_remaining in Hne. congruence. }
  apply andb_true_iff in Hg as [Hb Hr%any_remaining]. py_reflect.
  destruct He as [He|(d & key & Hd & Hk & Hm & Hfuel)]; [done|].
  set (G := length group_keys) in *. set (T := ((length (remaining gs) - 1) * G)%nat) in Hfuel.
  destruct (lookup_lt_is_Some_2 group_keys (index mod G)) as [key' Hk'];
    [apply Nat.mod_upper_bound; lia|]. rewrite Hk'.
  destruct (rev (members_of key' gs)) as [|c rest] eqn:Erev.
  - destruct d as [|d].
    { rewrite Nat.add_0_r in Hk. rewrite Hk in Hk'. injection Hk' as ->.
      exfalso. apply Hm. by rewrite <- (rev_involutive (members_of key' gs)), Erev. }
    apply IH. split; [lia|]. right. exists d, key. rewrite Nat.add_succ_comm. split_and!; [lia|done|done|]. fold T. lia.
  - assert (Em : members_of key' gs = rev rest ++ [c]).
    { by rewrite <- (rev_involutive (members_of key' gs)), Erev. }
    assert (Hin : key' ∈ group_keys) by (by eapply list_elem_of_lookup_2).
    pose proof (remaining_pop key' (rev rest) c gs Hin Em) as Hperm.
    pose proof (Permutation_length Hperm) as Hlen. simpl in Hlen.
    destruct (IH (S index) (budget - 1) (dset key' (rev rest) gs) (dset (c_case_id c) c sel))
      as (taken & left & E & Hp & Hl); [apply enough_any; fold G; unfold T in Hfuel; rewrite Hlen in Hfuel; simpl in Hfuel; rewrite Nat.sub_0_r in Hfuel; lia|].
    exists (c :: taken), left. split_and!; [exact E|by rewrite Hperm; simpl; f_equiv|].
    unfold py_len in *. rewrite Hlen. simpl. lia.
Qed.
End loop.

(** C30: the remainder's [while] loop ends: whatever the groups, their order and the budget,
    as many turns around the keys as there are candidates, and one test more, are enough;
    the loop has then taken candidates of the groups, each once, as many as the budget
    and the groups allow. *)
Theorem round_robin_terminates fuel group_keys index budget (gs : groups) sel :
  NoDup group_keys ->
  (length (remaining group_keys gs) * length group_keys < fuel)%nat ->
  exists taken left, round_robin fuel group_keys index budget gs sel = Some (select sel taken) /\
    taken ++ left ≡ₚ remaining group_keys gs /\
    py_len taken = Z.min (Z.max 0 budget) (py_len (remaining group_keys gs)).
Proof. intros Hnd Hf. apply loop_takes; [done|]. by apply enough_any. Qed.

(** ** Drawing *)

Lemma picked_seq {A} (l : list A) : picked l (List.seq 0 (length l)) = l.
Proof.
  unfold picked. enough (H : forall k, omap (fun i => l !! (i - k)%nat) (List.seq k (length l)) = l).
  { etrans; [|exact (H 0%nat)]. apply list_omap_ext, Forall_Forall2_diag, Forall_forall.
    intros i _. by rewrite Nat.sub_0_r. }
  induction l as [|x l IH]; intros k; simpl; [done|]. rewrite Nat.sub_diag. simpl. f_equal.
  etrans; [|exact (IH (S k))]. apply list_omap_ext, Forall_Forall2_diag, Forall_forall.
  intros i Hi%elem_of_seq. by replace (i - k)%nat with (S (i - S k)) by lia.
Qed.

Lemma picked_perm {A} (l : list A) ps ps' : ps ≡ₚ ps' -> picked l ps ≡ₚ picked l ps'.
Proof. intros H. unfold picked. by rewrite H. Qed.

Lemma picked_split {A} (l : list A) ps :
  NoDup ps -> Forall (fun i => i < length l)%nat ps ->
  exists left, picked l ps ++ left ≡ₚ l /\ length (picked l ps) = length ps.
Proof.
  intros Hnd Hlt.
  destruct (submseteq_Permutation ps (List.seq 0 (length l))) as [rest Hrest].
  { apply NoDup_submseteq; [done|]. intros i Hi. rewrite Forall_forall in Hlt.
    apply elem_of_seq. specialize (Hlt i Hi). lia. }
  exists (picked l rest). split.
  - transitivity (picked l (List.seq 0 (length l))); [|by rewrite picked_seq].
    unfold picked. by rewrite <- omap_app, Hrest.
  - clear Hnd Hrest. induction Hlt as [|i ps Hi _ IH]; [done|]. simpl.
    destruct (lookup_lt_is_Some_2 l i Hi) as [x ->]. simpl. by rewrite IH.
Qed.

Section draw_facts.
Context {R : Type} {RN : Rng R}.

Lemma draw_spec {A} (members : list A) k (r : R) :
  0 <= k -> exists cs left r', _draw members k r = (Ret cs, r') /\ cs ++ left ≡ₚ members /\
    py_len cs = Z.min k (py_len members).
Proof.
  intros Hk. unfold _draw. destruct (py_len members <=? k) eqn:Hle; py_reflect.
  - exists members, [], r. rewrite app_nil_r. split_and!; [done|done|lia].
  - rewrite (proj2 (Z.ltb_ge _ _)) by done.
    destruct (rng_sample_drawn (length members) (Z.to_nat k) r) as (Hl & Hnd & Hlt);
      [unfold py_len in *; lia|].
    destruct (rng_sample _ _ r) as [ps r'] eqn:E. simpl in *.
    destruct (picked_split members ps Hnd Hlt) as (left & Hp & Hlen).
    exists (picked members ps), left, r'. split_and!; [done|done|]. unfold py_len in *. lia.
Qed.

Lemma shuffle_spec {A} (l : list A) (r : R) :
  exists l' r', shuffle l r = (Ret l', r') /\ l' ≡ₚ l.
Proof.
  unfold shuffle. pose proof (rng_shuffle_perm (length l) r) as Hp.
  destruct (rng_shuffle _ r) as [ps r']. simpl in Hp. eexists _, _. split; [done|].
  by rewrite (picked_perm _ _ _ Hp), picked_seq.
Qed.

Lemma shuffle_groups_spec keys (gs : groups) (r : R) :
  exists gs' r', foldM shuffle_group keys gs r = (Ret gs', r') /\
    forall k, members_of k gs' ≡ₚ members_of k gs.
Proof.
  revert gs r. induction keys as [|key keys IH]; intros gs r; [by exists gs, r|].
  destruct (shuffle_spec (members_of key gs) r) as (g & r1 & E & Hg).
  destruct (IH (dset key g gs) r1) as (gs' & r' & E' & H).
  exists gs', r'. split.
  - simpl. unfold shuffle_group, mbind, M_bind in *. rewrite E. exact E'.
  - intros k. rewrite H, members_dset. by case_decide; [subst|].
Qed.
End draw_facts.

(** ** Grouping *)

Section group.
Context {K : Type} {EK : EqDecision K} (key : Candidate -> K).

Lemma group_members_from k d cs :
  members_of k (foldl (fun d c => dset (key c) (default [] (dget (key c) d) ++ [c]) d) d cs) =
  members_of k d ++ List.filter (fun c => bool_decide (key c = k)) cs.
Proof.
  revert d. induction cs as [|c cs IH]; intros d; simpl; [by rewrite app_nil_r|].
  rewrite IH. unfold members_of. case_bool_decide as H.
  - subst. rewrite dget_dset_eq. simpl. by rewrite <- app_assoc.
  - by rewrite dget_dset_ne by done.
Qed.

Lemma group_members k cs :
  members_of k (group_by key cs) = List.filter (fun c => bool_decide (key c = k)) cs.
Proof. exact (group_members_from k [] cs). Qed.

Lemma group_keys_from d cs :
  NoDup (dkeys d) ->
  let d' := foldl (fun d c => dset (key c) (default [] (dget (key c) d) ++ [c]) d) d cs in
  NoDup (dkeys d') /\ forall k, k ∈ dkeys d' <-> k ∈ dkeys d \/ k ∈ map key cs.
Proof.
  revert d. induction cs as [|c cs IH]; intros d Hd; simpl.
  - split; [done|]. intros k. rewrite elem_of_nil. tauto.
  - destruct (IH (dset (key c) (default [] (dget (key c) d) ++ [c]) d)) as [H1 H2];
      [by apply dset_NoDup|]. split; [done|]. intros k. rewrite H2, dset_keys_elem, elem_of_cons. tauto.
Qed.

Lemma group_keys_spec cs :
  NoDup (dkeys (group_by key cs)) /\ forall k, k ∈ dkeys (group_by key cs) <-> k ∈ map key cs.
Proof.
  destruct (group_keys_from [] cs) as [H1 H2]; [constructor|]. split; [done|].
  intros k. unfold group_by. rewrite H2. split; [|tauto]. intros [?%not_elem_of_nil|?]; done.
Qed.

(** The groups of distinct keys that cover a list hold it, each element once. *)
Lemma groups_cover ks cs :
  NoDup ks -> (forall c, c ∈ cs -> key c ∈ ks) ->
  flat_map (fun k => List.filter (fun c => bool_decide (key c = k)) cs) ks ≡ₚ cs.
Proof.
  intros Hnd. induction cs as [|c cs IH]; intros Hks; simpl.
  { clear. by induction ks. }
  transitivity (c :: flat_map (fun k => List.filter (fun c => bool_decide (key c = k)) cs) ks);
    [|f_equiv; apply IH; intros; apply Hks; by right].
  destruct (list_elem_of_split ks (key c)) as (l1 & l2 & ->); [apply Hks; by left|].
  apply NoDup_app in Hnd as (_ & H12 & [H2 _]%NoDup_cons).
  assert (H1 : key c ∉ l1) by (intros H; apply (H12 _ H); by left).
  assert (Hout : forall l, key c ∉ l ->
    flat_map (fun k => if bool_decide (key c = k) then c :: List.filter (fun c => bool_decide (key c = k)) cs
                       else List.filter (fun c => bool_decide (key c = k)) cs) l =
    flat_map (fun k => List.filter (fun c => bool_decide (key c = k)) cs) l).
  { induction l as [|k l IHl]; [done|]. intros [Hk Hl]%not_elem_of_cons. simpl.
    by rewrite bool_decide_false, IHl by done. }
  rewrite !flat_map_app. simpl. rewrite (Hout l1 H1), (Hout l2 H2), bool_decide_true by done.
  simpl. solve_Permutation.
Qed.
End group.

Lemma NoDup_map_filter {A B} (f : A -> B) (p : A -> bool) l :
  NoDup (map f l) -> NoDup (map f (List.filter p l)).
Proof.
  induction l as [|x l IH]; intros H; simpl; [constructor|]. apply NoDup_cons in H as [Hx Hl].
  destruct (p x); [|by apply IH]. simpl. constructor; [|by apply IH].
  intros Hin. apply Hx. apply list_elem_of_fmap in Hin as (y & Ey & Hy). apply list_elem_of_fmap.
  exists y. split; [done|]. apply list_elem_of_In. apply list_elem_of_In, filter_In in Hy. tauto.
Qed.

(** ** What is selected *)

Section selected.
Variable E : list Candidate.

(** Each case once, under its own id, and from the eligible ones. *)
Definition sel_ok (sel : selection) : Prop :=
  NoDup (dkeys sel) /\ Forall (fun kc => kc.1 = c_case_id kc.2 /\ kc.2 ∈ E) sel.

Lemma sel_ok_nil : sel_ok [].
Proof. split; constructor. Qed.

Lemma dset_forall {V} (P : pystr * V -> Prop) k v d : P (k, v) -> Forall P d -> Forall P (dset k v d).
Proof. intros Hp Hd. induction Hd as [|[k' v'] d Hx Hd IH]; simpl; [by apply Forall_singleton|]. case_decide; [subst|]; by apply List.Forall_cons. Qed.

Lemma select_ok sel cs :
  sel_ok sel -> cs ⊆ E ->
  sel_ok (select sel cs) /\ py_len (select sel cs) <= py_len sel + py_len cs /\
  (forall k, k ∈ dkeys (select sel cs) <-> k ∈ dkeys sel \/ k ∈ map c_case_id cs).
Proof.
  revert sel. induction cs as [|c cs IH]; intros sel Hok Hcs; simpl.
  { split_and!; [done|unfold py_len; simpl; lia|]. intros k. rewrite elem_of_nil. tauto. }
  destruct (IH (dset (c_case_id c) c sel)) as (H1 & H2 & H3).
  - destruct Hok as [Hnd Hf]. split; [by apply dset_NoDup|]. apply dset_forall; [|done].
    split; [done|]. apply Hcs. by left.
  - intros x Hx. apply Hcs. by right.
  - split_and!; [done| |].
    + etrans; [exact H2|]. unfold py_len. simpl.
      destruct (decide (c_case_id c ∈ dkeys sel)) as [Hin|Hin];
        [rewrite dset_length_in by done|rewrite dset_length_notin by done]; lia.
    + intros k. rewrite H3, dset_keys_elem, elem_of_cons. tauto.
Qed.

(** New cases are all added. *)
Lemma select_fresh sel cs :
  NoDup (map c_case_id cs) -> (forall c, c ∈ cs -> c_case_id c ∉ dkeys sel) ->
  py_len (select sel cs) = py_len sel + py_len cs.
Proof.
  revert sel. induction cs as [|c cs IH]; intros sel Hnd Hf; simpl; [unfold py_len; simpl; lia|].
  apply NoDup_cons in Hnd as [Hc Hnd]. rewrite IH; [|done|].
  - unfold py_len. rewrite dset_length_notin by (apply Hf; by left). simpl. lia.
  - intros c' Hc'. rewrite dset_keys_elem. intros [Eq|Hin]; [|by apply (Hf c'); [right|]].
    apply Hc. rewrite <- Eq. by apply list_elem_of_fmap_2.
Qed.

Hypothesis distinct : NoDup (map c_case_id E).

Lemma same_case c c' : c ∈ E -> c' ∈ E -> c_case_id c = c_case_id c' -> c = c'.
Proof.
  intros [i Hi]%list_elem_of_lookup [j Hj]%list_elem_of_lookup Eq.
  assert (i = j) as ->; [|congruence].
  eapply NoDup_lookup; [exact distinct| |]; rewrite list_lookup_fmap; [by rewrite Hi|by rewrite Hj, Eq].
Qed.

(** With distinct cases, a case that is a key is selected itself. *)
Lemma selected_by_key sel c : sel_ok sel -> c ∈ E -> c_case_id c ∈ dkeys sel <-> c ∈ map snd sel.
Proof.
  intros [_ Hf] Hc. rewrite Forall_forall in Hf. unfold dkeys. split.
  - intros ([k c'] & Ek & Hin)%list_elem_of_fmap. simpl in Ek. destruct (Hf _ Hin) as [Hk Hc']. simpl in *.
    rewrite (same_case c c') by congruence. apply list_elem_of_fmap. by exists (k, c').
  - intros ([k c'] & -> & Hin)%list_elem_of_fmap. destruct (Hf _ Hin) as [Hk _]. simpl in *.
    rewrite <- Hk. apply list_elem_of_fmap. by exists (k, c').
Qed.

Lemma selected_NoDup sel : sel_ok sel -> NoDup (map c_case_id (map snd sel)).
Proof.
  intros [Hnd Hf]. rewrite map_map. unfold dkeys in Hnd.
  erewrite map_ext_in; [exact Hnd|]. intros kc Hin%list_elem_of_In. rewrite Forall_forall in Hf.
  symmetry. by apply Hf.
Qed.
End selected.

(** The sub-list of a draw. *)
Lemma drawn_subset {A} (cs left l : list A) : cs ++ left ≡ₚ l -> cs ⊆ l.
Proof. intros H x Hx. rewrite <- H. apply elem_of_app. by left. Qed.

Definition in_stratum (s : pystr) (c : Candidate) : bool := bool_decide (c_stratum c = s).
(** How many eligible cases a stratum has. *)
Definition stratum_size (E : list Candidate) (s : pystr) : Z := py_len (List.filter (in_stratum s) E).
Definition category_floor (n : Z) (E : list Candidate) (s : pystr) : Z :=
  Z.min (Z.max 5 (n / 8)) (stratum_size E s).
Definition injection_floor (n : Z) (E : list Candidate) : Z :=
  Z.min (n / 4) (stratum_size E INJECTION_CANDIDATE).

(** [k] distinct cases of stratum [s] are among [cs]. *)
Definition holds_floor (s : pystr) (k : Z) (cs : list Candidate) : Prop :=
  exists drawn, drawn ⊆ cs /\ py_len drawn = k /\ NoDup drawn /\
    Forall (fun c => c_stratum c = s) drawn.

Section sampling.
Context {R : Type} {RN : Rng R}.
Variables (n : Z) (E : list Candidate).
Hypothesis n_nonneg : 0 <= n.

Lemma filter_subset s : List.filter (in_stratum s) E ⊆ E.
Proof. intros x Hx%list_elem_of_In. apply filter_In in Hx as [Hx _]. by apply list_elem_of_In. Qed.

(** A draw of [k] members of a stratum goes into the selection. *)
Lemma draw_into s k sel (r : R) :
  0 <= k -> k <= stratum_size E s -> sel_ok E sel ->
  exists cs r', (cs ← _draw (List.filter (in_stratum s) E) k; mret (select sel cs)) r
                  = (Ret (select sel cs), r') /\
    cs ⊆ E /\ py_len cs = k /\ Forall (fun c => c_stratum c = s) cs /\
    (NoDup (map c_case_id E) -> NoDup cs).
Proof.
  intros Hk0 Hk Hok. destruct (draw_spec (List.filter (in_stratum s) E) k r Hk0) as (cs & left & r' & Ed & Hp & Hl).
  exists cs, r'. unfold mbind, M_bind. rewrite Ed. pose proof (drawn_subset _ _ _ Hp) as Hsub.
  split_and!; [done|intros x Hx; by apply (filter_subset s), Hsub|unfold stratum_size in Hk; lia| |].
  - apply Forall_forall. intros c Hc. apply Hsub, list_elem_of_In, filter_In in Hc as [_ Hc].
    by apply bool_decide_eq_true in Hc.
  - intros Hnd%(NoDup_fmap_1 c_case_id). assert (Hf : NoDup (cs ++ left)); [|by apply NoDup_app in Hf as [? _]].
    rewrite Hp. by apply NoDup_ListNoDup, List.NoDup_filter, NoDup_ListNoDup.
Qed.

Lemma category_floor_bounds s : 0 <= category_floor n E s <= stratum_size E s.
Proof. pose proof (Nat2Z.is_nonneg (length (List.filter (in_stratum s) E))). unfold category_floor, stratum_size, py_len in *. lia. Qed.

Lemma injection_floor_bounds : 0 <= injection_floor n E <= stratum_size E INJECTION_CANDIDATE.
Proof.
  pose proof (Z.div_pos n 4 ltac:(done) ltac:(done)).
  pose proof (Nat2Z.is_nonneg (length (List.filter (in_stratum INJECTION_CANDIDATE) E))).
  unfold injection_floor, stratum_size, py_len in *. lia.
Qed.

Lemma stratum_members s : members_of s (group_by c_stratum E) = List.filter (in_stratum s) E.
Proof. apply group_members. Qed.

(** A step that draws [k] members of a stratum into the selection. *)
Definition draws (s : pystr) (k : Z) (m : selection -> M exn R selection) : Prop :=
  forall sel r, sel_ok E sel -> exists sel' r', m sel r = (Ret sel', r') /\
    sel_ok E sel' /\ py_len sel' <= py_len sel + k /\ dkeys sel ⊆ dkeys sel' /\
    (NoDup (map c_case_id E) -> holds_floor s k (map snd sel')).

Lemma draw_members s k :
  0 <= k <= stratum_size E s ->
  draws s k (fun sel => match List.filter (in_stratum s) E with
                        | [] => mret sel
                        | members => cs ← _draw members k; mret (select sel cs)
                        end).
Proof.
  intros Hk sel r Hok. destruct (List.filter (in_stratum s) E) as [|c l] eqn:Ef.
  - assert (k = 0) as ->. { unfold stratum_size in Hk. rewrite Ef in Hk. unfold py_len in Hk. simpl in Hk. lia. }
    exists sel, r. split_and!; [done|done|lia|done|]. intros _. exists [].
    split_and!; [apply list_subseteq_nil|done|apply NoDup_nil_2|done].
  - rewrite <- Ef. destruct (draw_into s k sel r) as (cs & r' & Ed & Hcs & Hl & Hs & Hnd); [lia|lia|done|].
    destruct (select_ok E sel cs Hok Hcs) as (H1 & H2 & H3).
    exists (select sel cs), r'. split_and!; [exact Ed|done|lia| |].
    + intros x Hx. apply H3. by left.
    + intros Hd. exists cs. split_and!; [|done|by apply Hnd|done]. intros c' Hc'.
      apply (selected_by_key E Hd _ c' H1 (Hcs _ Hc')), H3. right. by apply list_elem_of_fmap_2.
Qed.

Lemma draw_category_draws s :
  draws s (category_floor n E s) (fun sel => draw_category n (group_by c_stratum E) sel s).
Proof.
  pose proof (draw_members s _ (category_floor_bounds s)) as H. unfold draw_category.
  rewrite stratum_members. unfold draws in *. intros sel r Hok. destruct (H sel r Hok) as (sel' & r' & Ed & Hr).
  exists sel', r'. split; [|exact Hr]. rewrite <- Ed. unfold category_floor, stratum_size. by destruct (List.filter _ E).
Qed.

Lemma draw_injection_draws :
  draws INJECTION_CANDIDATE (injection_floor n E) (draw_injection n (group_by c_stratum E)).
Proof.
  pose proof (draw_members _ _ injection_floor_bounds) as H. unfold draws in *.
  intros sel r Hok. destruct (H sel r Hok) as (sel' & r' & Ed & Hr).
  exists sel', r'. split; [|exact Hr]. rewrite <- Ed. unfold draw_injection.
  rewrite stratum_members. unfold injection_floor, stratum_size. by destruct (List.filter _ E).
Qed.

(** What was drawn stays. *)
Lemma holds_floor_grows s k sel sel' :
  NoDup (map c_case_id E) -> sel_ok E sel -> sel_ok E sel' -> dkeys sel ⊆ dkeys sel' ->
  holds_floor s k (map snd sel) -> holds_floor s k (map snd sel').
Proof.
  intros Hd Hok Hok' Hsub (drawn & Hin & Hrest). exists drawn. split; [|done]. intros c Hc%Hin.
  assert (HE : c ∈ E).
  { apply list_elem_of_fmap in Hc as ([k' c'] & -> & Hc). destruct Hok as [_ Hf].
    rewrite Forall_forall in Hf. by apply (Hf _ Hc). }
  apply (selected_by_key E Hd _ c Hok' HE), Hsub. by apply (selected_by_key E Hd).
Qed.

Lemma categories_drawn cats sel r :
  sel_ok E sel -> exists sel' r',
    foldM (draw_category n (group_by c_stratum E)) cats sel r = (Ret sel', r') /\
    sel_ok E sel' /\ py_len sel' <= py_len sel + zsum (map (category_floor n E) cats) /\
    dkeys sel ⊆ dkeys sel' /\
    (NoDup (map c_case_id E) -> Forall (fun s => holds_floor s (category_floor n E s) (map snd sel')) cats).
Proof.
  revert sel r. induction cats as [|s cats IH]; intros sel r Hok.
  { exists sel, r. split_and!; [done|done|simpl; lia|done|constructor]. }
  destruct (draw_category_draws s sel r Hok) as (sel1 & r1 & E1 & Hok1 & Hl1 & Hs1 & Hf1).
  destruct (IH sel1 r1 Hok1) as (sel2 & r2 & E2 & Hok2 & Hl2 & Hs2 & Hf2).
  exists sel2, r2. split_and!; [|done|simpl; lia|by etrans|].
  - simpl. unfold mbind, M_bind in *. by rewrite E1.
  - intros Hd. constructor; [|by apply Hf2]. eapply (holds_floor_grows s _ sel1); [done..|by apply Hf1].
Qed.

Lemma clamp_spec sel (r : R) :
  sel_ok E sel -> exists sel' r', clamp n sel r = (Ret sel', r') /\ sel_ok E sel' /\
    py_len sel' = Z.min n (py_len sel) /\ (py_len sel <= n -> sel' = sel).
Proof.
  intros Hok. unfold clamp. destruct (n <? py_len sel) eqn:Hn; py_reflect.
  2: { exists sel, r. split_and!; [done|done|lia|done]. }
  destruct (draw_spec (map snd sel) n r n_nonneg) as (cs & left & r' & Ed & Hp & Hl).
  exists (select [] cs), r'. unfold mbind, M_bind. rewrite Ed.
  assert (Hcs : cs ⊆ E).
  { intros c Hc%(drawn_subset _ _ _ Hp). apply list_elem_of_fmap in Hc as (kc & -> & Hc).
    destruct Hok as [_ Hf]. rewrite Forall_forall in Hf. by apply Hf. }
  destruct (select_ok E [] cs (sel_ok_nil E) Hcs) as (H1 & _ & _).
  split_and!; [done|done| |lia].
  rewrite select_fresh; [unfold py_len in *; rewrite length_map in Hl; simpl; lia| |intros; apply not_elem_of_nil].
  pose proof (selected_NoDup E sel Hok) as Hnd.
  assert (Hnd' : NoDup (map c_case_id (cs ++ left))) by (by rewrite Hp).
  rewrite map_app in Hnd'. by apply NoDup_app in Hnd' as [? _].
Qed.

Definition pool_of (sel : selection) : list Candidate :=
  List.filter (fun c => bool_decide (c_case_id c ∉ dkeys sel)) E.

(** With distinct cases, the pool is what the selection leaves. *)
Lemma pool_size sel :
  NoDup (map c_case_id E) -> sel_ok E sel -> py_len E = py_len sel + py_len (pool_of sel).
Proof.
  intros Hd Hok. pose proof (NoDup_fmap_1 _ _ Hd) as HE.
  set (chosen := List.filter (fun c => negb (bool_decide (c_case_id c ∉ dkeys sel))) E).
  assert (Hsplit : py_len E = py_len chosen + py_len (pool_of sel)).
  { unfold chosen, pool_of, py_len. clear. induction E as [|c l IH]; [done|]. cbn [List.filter length].
    destruct (bool_decide _); simpl; lia. }
  assert (Hperm : chosen ≡ₚ map snd sel).
  { apply NoDup_Permutation.
    - by apply NoDup_ListNoDup, List.NoDup_filter, NoDup_ListNoDup.
    - apply (NoDup_fmap_1 c_case_id). by apply (selected_NoDup E).
    - intros c. unfold chosen. rewrite list_elem_of_In, filter_In, <- list_elem_of_In.
      rewrite negb_true_iff, bool_decide_eq_false. split.
      + intros [Hc Hk]. apply (selected_by_key E Hd sel c Hok Hc).
        destruct (decide (c_case_id c ∈ dkeys sel)); [done|]. by exfalso.
      + intros Hc. assert (HcE : c ∈ E).
        { apply list_elem_of_fmap in Hc as (kc & -> & Hc). destruct Hok as [_ Hf].
          rewrite Forall_forall in Hf. by apply Hf. }
        split; [done|]. intros Hk. apply Hk. by apply (selected_by_key E Hd sel c Hok HcE). }
  rewrite Hsplit. unfold py_len. rewrite (Permutation_length Hperm), length_map. done.
Qed.

Lemma pool_spec sel c : c ∈ pool_of sel <-> c ∈ E /\ c_case_id c ∉ dkeys sel.
Proof. unfold pool_of. by rewrite list_elem_of_In, filter_In, <- list_elem_of_In, bool_decide_eq_true. Qed.

(** The groups of a pool, shuffled, hold the pool. *)
Lemma remaining_pool pool gs :
  (forall k, members_of k gs ≡ₚ members_of k (group_by sensor_day pool)) ->
  remaining (merge_sort pair_le (dkeys (group_by sensor_day pool))) gs ≡ₚ pool.
Proof.
  intros Hgs. destruct (group_keys_spec sensor_day pool) as [Hnd Hkeys].
  set (keys := merge_sort _ _). assert (Hp : keys ≡ₚ dkeys (group_by sensor_day pool)) by apply merge_sort_Permutation.
  transitivity (flat_map (fun k => List.filter (fun c => bool_decide (sensor_day c = k)) pool) keys).
  - unfold remaining. clear Hp Hnd Hkeys. induction keys as [|k keys IH]; [done|]. simpl.
    rewrite IH, Hgs. by rewrite (group_members sensor_day).
  - apply groups_cover; [by rewrite Hp|]. intros c Hc. rewrite Hp, Hkeys. by apply list_elem_of_fmap_2.
Qed.

Lemma fill_draws sel (r : R) :
  sel_ok E sel -> py_len sel <= n -> exists sel' r', fill E n sel r = (Ret sel', r') /\
    sel_ok E sel' /\ py_len sel' <= n /\ dkeys sel ⊆ dkeys sel' /\
    (NoDup (map c_case_id E) -> py_len sel' = Z.min n (py_len E)).
Proof.
  intros Hok Hn. unfold fill. fold (pool_of sel). set (pool := pool_of sel).
  destruct ((0 <? Z.max 0 (n - py_len sel)) && nonempty pool) eqn:Hg.
  2: { exists sel, r. split_and!; [done..|]. intros Hd. rewrite (pool_size sel) by done. fold pool.
       destruct pool as [|c l]; [unfold py_len in *; simpl; lia|].
       apply andb_false_iff in Hg as [Hg|Hg]; [py_reflect; unfold py_len in *; simpl; lia|done]. }
  apply andb_true_iff in Hg as [Hb _]. py_reflect.
  set (keys := merge_sort pair_le _). unfold mbind, M_bind.
  destruct (shuffle_groups_spec keys (group_by sensor_day pool) r) as (gs & r1 & Es & Hgs).
  rewrite Es. pose proof (remaining_pool pool gs Hgs) as Hrem. fold keys in Hrem.
  assert (Hkeys : NoDup keys).
  { unfold keys. rewrite merge_sort_Permutation. apply group_keys_spec. }
  destruct (loop_takes keys Hkeys (loop_fuel pool keys) 0 (Z.max 0 (n - py_len sel)) gs sel)
    as (taken & left & El & Hp & Hl).
  { apply enough_any. unfold loop_fuel. rewrite (Permutation_length Hrem). apply Nat.lt_succ_diag_r. }
  rewrite El. rewrite Hrem in Hp.
  assert (Hr : py_len (remaining keys gs) = py_len pool) by (unfold py_len; by rewrite Hrem).
  rewrite Hr in Hl. pose proof (drawn_subset _ _ _ Hp) as Hsub.
  assert (Hcs : taken ⊆ E) by (intros c Hc%Hsub; by apply (pool_spec sel)).
  destruct (select_ok E sel taken Hok Hcs) as (H1 & H2 & H3).
  exists (select sel taken), r1. split_and!; [done|done|lia|intros k Hk; apply H3; by left|].
  intros Hd. rewrite select_fresh.
  - rewrite (pool_size sel) by done. fold pool. lia.
  - assert (Hnd : NoDup (map c_case_id (taken ++ left))).
    { rewrite Hp. by apply NoDup_map_filter. }
    rewrite map_app in Hnd. by apply NoDup_app in Hnd as [? _].
  - intros c Hc%Hsub. by apply (pool_spec sel).
Qed.

(** The draw, on any eligible cases. *)
Lemma draw_sample_spec (r : R) :
  exists cs r', draw_sample n E r = (Ret cs, r') /\
    cs ⊆ E /\ NoDup (map c_case_id cs) /\ py_len cs <= n /\
    (NoDup (map c_case_id E) -> py_len cs = Z.min n (py_len E) /\
       (zsum (map (category_floor n E) STRATA_CATEGORIES) + injection_floor n E <= n ->
        Forall (fun s => holds_floor s (category_floor n E s) cs) STRATA_CATEGORIES /\
        holds_floor INJECTION_CANDIDATE (injection_floor n E) cs)).
Proof.
  destruct (categories_drawn STRATA_CATEGORIES [] r (sel_ok_nil E)) as (s1 & r1 & E1 & H1 & L1 & _ & F1).
  destruct (draw_injection_draws s1 r1 H1) as (s2 & r2 & E2 & H2 & L2 & G2 & F2).
  destruct (clamp_spec s2 r2 H2) as (s3 & r3 & E3 & H3 & L3 & G3).
  destruct (fill_draws s3 r3 H3 ltac:(lia)) as (s4 & r4 & E4 & H4 & L4 & G4 & F4).
  exists (map snd s4), r4. split_and!.
  - unfold draw_sample, mbind, M_bind in *. by rewrite E1, E2, E3, E4.
  - intros c Hc. apply list_elem_of_fmap in Hc as (kc & -> & Hc). destruct H4 as [_ Hf].
    rewrite Forall_forall in Hf. by apply Hf.
  - by apply (selected_NoDup E).
  - unfold py_len in *. by rewrite length_map.
  - intros Hd. split; [unfold py_len in *; rewrite length_map; by apply F4|]. intros Hfit.
    assert (Hs3 : s3 = s2) by (apply G3; unfold py_len in *; simpl in *; lia). subst s3.
    split.
    + eapply Forall_impl; [exact (F1 Hd)|]. cbv beta. intros s Hs.
      eapply (holds_floor_grows s _ s2 s4 Hd H2 H4 G4), (holds_floor_grows s _ s1 s2 Hd H1 H2 G2), Hs.
    + eapply (holds_floor_grows _ _ s2 s4 Hd H2 H4 G4), (F2 Hd).
Qed.

(** The sample is stratified: unless the minimums together exceed [n], every category of
    the rubric is represented by [max(5, n // 8)] distinct cases, or by all it has, the
    injection candidates by [n // 4] of them or all, and the sample is as large as [n] and
    the eligible cases allow. *)
Theorem draw_stratified (r : R) :
  NoDup (map c_case_id E) ->
  zsum (map (category_floor n E) STRATA_CATEGORIES) + injection_floor n E <= n ->
  exists cs r', draw_sample n E r = (Ret cs, r') /\ NoDup (map c_case_id cs) /\ cs ⊆ E /\
    py_len cs = Z.min n (py_len E) /\
    Forall (fun s => holds_floor s (category_floor n E s) cs) STRATA_CATEGORIES /\
    holds_floor INJECTION_CANDIDATE (injection_floor n E) cs.
Proof.
  intros Hd Hfit. destruct (draw_sample_spec r) as (cs & r' & Ed & Hsub & Hnd & _ & Hfull).
  destruct (Hfull Hd) as [Hl Hf]. destruct (Hf Hfit) as [H1 H2]. by exists cs, r'.
Qed.
End sampling.

(** ** The sample of the tables *)

Section tables.
Context {W R : Type} {PG : Postgres W} {RN : Rng R} {AC : AlertCodec} {LZ : LocalZone} {SH : Sha256}.
Context (str_uuid : uuid -> pystr).

(** Every stored payload is the alert its fingerprint names. *)
Definition raws_ok (ts : tables) : Prop :=
  Forall (fun r => exists a, model_validate (a_raw r) = Ret a /\
                             Alert.fingerprint a = Some (a_fingerprint r)) (alerts ts).

(** No alert has two verdicts of one instant. *)
Definition verdict_key (v : VerdictRow) : uuid * Z := (v_alert_id v, v_created_at v).
Definition verdicts_apart (ts : tables) : Prop := NoDup (map verdict_key (verdicts ts)).

Definition eligible_alerts (since : option Z) (exclude : list pystr) (ts : tables) : list AlertRow :=
  List.filter (fun r => finished r && received_since since r
                        && bool_decide (a_fingerprint r ∉ exclude)) (alerts ts).

(** [c] is what the sampler makes of alert [r]. *)
Definition candidate_for (r : AlertRow) (c : Candidate) : Prop :=
  c_case_id c = a_fingerprint r /\ c_alert_id c = str_uuid (a_id r) /\
  c_received_at c = a_received_at r /\ model_validate (a_raw r) = Ret (c_alert c).

Definition kept (exclude : list pystr) (row : AlertRow * option pystr) : bool :=
  bool_decide (a_fingerprint row.1 ∉ exclude).

Lemma eligible_of_spec exclude rows :
  Forall (fun row => exists a, model_validate (a_raw row.1) = Ret a /\
                               Alert.fingerprint a = Some (a_fingerprint row.1)) rows ->
  exists cs, eligible_of str_uuid exclude rows = Ret cs /\
    Forall2 candidate_for (map fst (List.filter (kept exclude) rows)) cs.
Proof.
  induction 1 as [|row rows (a & Ha & Hf) _ IH]; [exists []; by repeat constructor|].
  destruct IH as (cs & Ecs & H2). simpl. unfold candidate_of, mbind, outcome_bind.
  rewrite Ha, Hf, Ecs. cbn [c_case_id]. eexists. split; [reflexivity|]. unfold kept at 1.
  destruct (decide (a_fingerprint row.1 ∈ exclude)) as [Hin|Hin].
  - by rewrite (bool_decide_true (_ ∈ _)), bool_decide_false by (done || tauto).
  - rewrite (bool_decide_false (_ ∈ _)), bool_decide_true by done. simpl. by constructor.
Qed.

Lemma latest_created_spec vs :
  match latest_created vs with
  | None => vs = []
  | Some t => exists v, v ∈ vs /\ v_created_at v = t
  end.
Proof.
  induction vs as [|v vs IH]; [done|]. simpl. destruct (latest_created vs) as [t|].
  - destruct IH as (w & Hw & Ht). destruct (Z.max_spec (v_created_at v) t) as [[? ->]|[? ->]].
    + exists w. split; [by right|done].
    + exists v. split; [by left|done].
  - exists v. split; [by left|done].
Qed.

(** Apart verdicts give an alert one row. *)
Lemma joined_once ts r : verdicts_apart ts -> exists c, joined ts r = [c].
Proof.
  intros Hv. unfold joined. set (own := List.filter (fun v => v_alert_id v =? a_id r) (verdicts ts)).
  pose proof (latest_created_spec own) as Hl. destruct (latest_created own) as [t|]; [|by exists None].
  destruct Hl as (v & Hin & Ht).
  assert (Hnd : NoDup (map verdict_key own)).
  { by apply NoDup_map_filter. }
  assert (Hkey : forall w, w ∈ own -> v_alert_id w = a_id r).
  { intros w Hw%list_elem_of_In. apply filter_In in Hw as [_ Hw]. by apply Z.eqb_eq. }
  clearbody own. apply list_elem_of_split in Hin as (l1 & l2 & ->).
  rewrite map_app in Hnd. apply NoDup_app in Hnd as (_ & H12 & [H2 _]%NoDup_cons).
  assert (Hnone : forall l, l ⊆ l1 ++ l2 -> List.filter (fun w => v_created_at w =? t) l = []).
  { intros l Hl. induction l as [|w l IH]; [done|]. simpl.
    rewrite (proj2 (Z.eqb_neq _ _)); [apply IH; set_solver|]. intros Hwt.
    assert (Hp : verdict_key w = verdict_key v).
    { unfold verdict_key. rewrite (Hkey w), (Hkey v) by set_solver. congruence. }
    assert (w ∈ l1 \/ w ∈ l2) as [Hw|Hw] by set_solver.
    - apply (H12 (verdict_key v)); [rewrite <- Hp; by apply list_elem_of_fmap_2|by left].
    - apply H2. rewrite <- Hp. by apply list_elem_of_fmap_2. }
  rewrite List.filter_app. simpl. rewrite (proj2 (Z.eqb_eq _ _)) by done.
  rewrite (Hnone l1), (Hnone l2) by set_solver. simpl. by eexists.
Qed.

Definition listed (since : option Z) (ts : tables) : list AlertRow :=
  merge_sort newest_first (List.filter (fun r => finished r && received_since since r) (alerts ts)).

Lemma listed_perm since ts :
  listed since ts ≡ₚ List.filter (fun r => finished r && received_since since r) (alerts ts).
Proof. apply merge_sort_Permutation. Qed.

Lemma eligible_rows_from since ts row : row ∈ eligible_rows since ts -> row.1 ∈ listed since ts.
Proof.
  unfold eligible_rows. rewrite list_elem_of_In, in_flat_map. intros (r & Hr & Hin).
  apply in_map_iff in Hin as (c & <- & _). by apply list_elem_of_In.
Qed.

Lemma eligible_rows_once since ts :
  verdicts_apart ts -> map fst (eligible_rows since ts) = listed since ts.
Proof.
  intros Hv. unfold eligible_rows. fold (listed since ts). induction (listed since ts) as [|r l IH]; [done|].
  simpl. destruct (joined_once ts r Hv) as [c ->]. simpl. by rewrite IH.
Qed.

Lemma map_fst_filter exclude (rows : list (AlertRow * option pystr)) :
  map fst (List.filter (kept exclude) rows) =
  List.filter (fun r => bool_decide (a_fingerprint r ∉ exclude)) (map fst rows).
Proof.
  induction rows as [|row rows IH]; [done|]. cbn [List.filter map].
  change (bool_decide (a_fingerprint row.1 ∉ exclude)) with (kept exclude row).
  destruct (kept exclude row); simpl; by rewrite IH.
Qed.

Lemma filter_filter {A} (p q : A -> bool) l :
  List.filter q (List.filter p l) = List.filter (fun x => p x && q x) l.
Proof. induction l as [|x l IH]; [done|]. simpl. destruct (p x); simpl; [|done]. by rewrite IH. Qed.

Lemma filter_perm {A} (p : A -> bool) l l' : l ≡ₚ l' -> List.filter p l ≡ₚ List.filter p l'.
Proof.
  induction 1 as [|x l l' _ IH|x y l|l1 l2 l3 _ IH1 _ IH2]; simpl; [done| | |by etrans].
  - by destruct (p x); rewrite IH.
  - destruct (p x), (p y); try done. by apply Permutation_swap.
Qed.

Lemma candidates_ids rs cs : Forall2 candidate_for rs cs -> map c_case_id cs = map a_fingerprint rs.
Proof. induction 1 as [|r c rs cs (H & _) _ IH]; [done|]. simpl. by rewrite H, IH. Qed.

(** C31: the sample is blind, disjoint and complete: reading only, it draws up to [n] distinct
    sessions, each a finished alert of the tables that is not excluded, with that alert's own
    identity and payload; unless an alert has two verdicts of one instant it draws exactly
    as many as [n] and the eligible alerts allow; it raises only what the server raises. *)
Theorem sample_sound n seed since exclude (d : db W) :
  0 <= n -> wf_tables (durable d) -> raws_ok (durable d) ->
  match sample (R := R) str_uuid n seed since exclude d with
  | (Ret cs, d') =>
      durable d' = durable d /\ NoDup (map c_case_id cs) /\ py_len cs <= n /\
      Forall (fun c => exists r, r ∈ eligible_alerts since exclude (durable d) /\ candidate_for r c) cs /\
      (verdicts_apart (durable d) ->
       py_len cs = Z.min n (py_len (eligible_alerts since exclude (durable d))))
  | (Raise e, d') => durable d' = durable d /\ (statement (outer d)).1 = Raise e
  end.
Proof.
  intros Hn Hwf Hraws. unfold sample, _fetch_eligible, in_session, mbind, M_bind, execute_statement.
  cbn [aborted outer]. destruct (statement (outer d)) as [[[]|e] w] eqn:Es; [|done].
  unfold get, mret, M_ret, lift. cbn [working outer durable]. set (ts := durable d) in *.
  assert (Hin : forall row, row ∈ eligible_rows since ts ->
    row.1 ∈ alerts ts /\ finished row.1 && received_since since row.1 = true).
  { intros row Hrow%eligible_rows_from. rewrite listed_perm in Hrow.
    apply list_elem_of_In, filter_In in Hrow as [??]. by rewrite list_elem_of_In. }
  destruct (eligible_of_spec exclude (eligible_rows since ts)) as (E & EE & H2).
  { apply Forall_forall. intros row [Hrow _]%Hin. unfold raws_ok in Hraws.
    rewrite Forall_forall in Hraws. by apply Hraws. }
  rewrite EE. destruct (draw_sample_spec n E Hn (rng_seed (R := R) seed)) as (cs & r' & Ed & Hsub & Hnd & Hl & Hfull).
  rewrite Ed. cbn [fst durable]. split_and!; [done|done|done| |].
  - apply Forall_forall. intros c Hc%Hsub. apply list_elem_of_lookup in Hc as [i Hi].
    destruct (Forall2_lookup_r _ _ _ _ _ H2 Hi) as (r & Hr & Hcand). exists r. split; [|done].
    apply list_elem_of_lookup_2, list_elem_of_fmap in Hr as (row & -> & Hrow).
    apply list_elem_of_In, filter_In in Hrow as [Hrow Hk]. apply list_elem_of_In in Hrow.
    destruct (Hin _ Hrow) as [Ha Hf]. unfold eligible_alerts.
    apply list_elem_of_In, filter_In. split; [by apply list_elem_of_In|]. by rewrite Hf.
  - intros Hv. rewrite map_fst_filter, eligible_rows_once in H2 by done.
    assert (Hp : List.filter (fun r => bool_decide (a_fingerprint r ∉ exclude)) (listed since ts)
                 ≡ₚ eligible_alerts since exclude ts).
    { rewrite (filter_perm _ _ _ (listed_perm since ts)), filter_filter. done. }
    assert (Hlen : py_len E = py_len (eligible_alerts since exclude ts)).
    { unfold py_len. rewrite <- (Forall2_length _ _ _ H2), (Permutation_length Hp). done. }
    rewrite <- Hlen. apply Hfull. rewrite (candidates_ids _ _ H2).
    assert (HNd : NoDup (map a_fingerprint (eligible_alerts since exclude ts)))
      by apply NoDup_map_filter, (fingerprints _ Hwf).
    by rewrite Hp.
Qed.

(** The sampler answers nothing that is excluded. *)
Lemma sample_excludes n seed since exclude (d d' : db W) cs :
  0 <= n -> sample (R := R) str_uuid n seed since exclude d = (Ret cs, d') ->
  Forall (fun c => c_case_id c ∉ exclude) cs.
Proof.
  intros Hn. unfold sample, mbind, M_bind. destruct (_fetch_eligible since d) as [[rows|e] d1]; [|done].
  unfold lift. destruct (eligible_of str_uuid exclude rows) as [E|e] eqn:EE; [|done].
  destruct (draw_sample_spec n E Hn (rng_seed (R := R) seed)) as (cs' & r' & Ed & Hsub & _).
  rewrite Ed. intros [= <- <-]. apply Forall_forall. intros c Hc%Hsub. clear -EE Hc.
  revert E EE Hc. induction rows as [|row rows IH]; intros E EE Hc.
  { injection EE as <-. by apply not_elem_of_nil in Hc. }
  simpl in EE. unfold mbind, outcome_bind in EE. destruct (candidate_of str_uuid row) as [c0|]; [|done].
  destruct (eligible_of str_uuid exclude rows) as [E'|] eqn:EE'; [|done].
  case_bool_decide as Hx; injection EE as <-; [by eapply IH|].
  apply elem_of_cons in Hc as [-> |Hc]; [done|by eapply IH].
Qed.
End tables.

(** ** The exclusion file of a candidate file *)

Lemma lstrip_keeps c s : c ∈ s -> is_space c = false -> lstrip s <> [].
Proof.
  induction s as [|d s IH]; [by intros ?%not_elem_of_nil|]. intros Hc Hs. simpl.
  destruct (is_space d) eqn:Hd; [|done]. apply elem_of_cons in Hc as [-> |Hc]; [congruence|by apply IH].
Qed.

Lemma strip_nonempty c s : is_space c = false -> strip (c :: s) <> [].
Proof.
  intros Hc E. unfold strip in E. simpl in E. rewrite Hc in E.
  apply (f_equal (@rev Z)) in E. rewrite rev_involutive in E. simpl in E.
  eapply (lstrip_keeps c); [|done|exact E]. apply elem_of_app. right. by apply list_elem_of_singleton.
Qed.

Section exclusion.
Context {AC : AlertCodec} {LZ : LocalZone} {SH : Sha256} {FR : FloatRepr} {FP : FloatParse}.

Definition writable (seed : Z) (c : Candidate) : Prop := printable (candidate_row seed c) = true.

Lemma dumped_line (j : json) kvs line :
  j = JObj kvs -> kvs <> [] -> dumps default_args j = Ret line ->
  unbroken line /\ strip line <> [].
Proof.
  intros -> Hne. unfold dumps. destruct (serializable _); [|done]. intros [= <-]. split.
  - assert (Ha : Forall (fun c => 32 <= c <= 126) (encode default_args 0 (JObj kvs))).
    { apply encode_ascii; [done|done|..]; repeat constructor; done. }
    unfold unbroken. eapply Forall_impl; [exact Ha|]. cbv beta. intros c Hc. unfold is_break.
    py_reflect. repeat rewrite ?andb_false_iff, ?orb_false_iff, ?Z.leb_gt, ?Z.eqb_neq. lia.
  - simpl. set (items := map _ _). assert (Hi : items <> []) by (unfold items; by destruct kvs).
    destruct items; [done|]. by apply strip_nonempty.
Qed.

Lemma dump_all_ids seed cs lines :
  Forall (writable seed) cs -> dump_all (map (candidate_row seed) cs) = Ret lines ->
  Forall unbroken lines /\ excluded_ids (JL := stdlib_loads) lines = Ret (map c_case_id cs).
Proof.
  intros Hw. revert lines. induction Hw as [|c cs Hc _ IH]; intros lines.
  { intros [= <-]. by split. }
  simpl. unfold mbind, outcome_bind. destruct (dumps default_args (candidate_row seed c)) as [line|] eqn:El; [|done].
  destruct (dump_all _) as [ls|]; [|done]. intros [= <-]. destruct (IH ls eq_refl) as [Hu Hi].
  pose proof El as Ed. eapply dumped_line in Ed as [Hul Hs]; [|reflexivity|discriminate].
  split; [by apply List.Forall_cons|]. simpl. rewrite bool_decide_false by done.
  change (json_loads line) with (loads line).
  pose proof (loads_dumps default_args (candidate_row seed c) line []) as Hl. rewrite app_nil_r in Hl.
  rewrite Hl;
    [|apply default_separators_ok|exact Hc|constructor|exact El].
  change (sort_keys default_args) with false. rewrite canon_false.
  change (excluded_id (candidate_row seed c)) with (@Ret exn _ (Some (c_case_id c))).
  unfold mbind, outcome_bind. by rewrite Hi.
Qed.

(** A second round never repeats the first: the exclusion set read from a written
    candidate file is exactly the cases written, in order, and no sample drawn with it, of
    any size, seed or later state of the tables, has one of them. *)
Theorem written_candidates_excluded {W R} {PG : Postgres W} {RN : Rng R} (str_uuid : uuid -> pystr)
    seed cs text :
  Forall (writable seed) cs -> candidates_text seed cs = Ret text ->
  exists ids, _load_exclude_case_ids (JL := stdlib_loads) (Ret text) = Ret ids /\
    ids = map c_case_id cs /\
    forall n seed' since (d d' : db W) cs', 0 <= n ->
      sample (R := R) str_uuid n seed' since ids d = (Ret cs', d') ->
      Forall (fun c' => Forall (fun c => c_case_id c <> c_case_id c') cs) cs'.
Proof.
  intros Hw. unfold candidates_text, mbind, outcome_bind.
  destruct (dump_all (map (candidate_row seed) cs)) as [lines|] eqn:El; [|done]. intros [= <-].
  destruct (dump_all_ids seed cs lines Hw El) as [Hu Hi]. exists (map c_case_id cs). split_and!; [|done|].
  - unfold _load_exclude_case_ids, mbind, outcome_bind. destruct lines as [|line lines]; [exact Hi|].
    rewrite join_lines by done. by rewrite splitlines_joined.
  - intros n seed' since d d' cs' Hn Hs. apply sample_excludes in Hs; [|done].
    eapply Forall_impl; [exact Hs|]. cbv beta. intros c' Hc'. apply Forall_forall. intros c Hc Eq.
    apply Hc'. rewrite <- Eq. by apply list_elem_of_fmap_2.
Qed.
End exclusion.

(** ** Two finished alerts *)

Module SampleToy.
Import Database.Toy.
#[export] Program Instance rng : Rng unit := {
  rng_seed _ := tt;
  rng_sample n k r := (List.seq 0 k, r);
  rng_shuffle n r := (List.seq 0 n, r)
}.
Next Obligation.
  intros n k r Hk. simpl. split_and!; [apply length_seq|apply NoDup_ListNoDup, seq_NoDup|].
  apply Forall_forall. intros i Hi%elem_of_seq. lia.
Qed.
Next Obligation. done. Qed.

Definition other_alert : Alert.SessionAlert :=
  Alert.toy_alert (u "s2") [Alert.toy_event Alert.CONNECT 100; Alert.toy_event Alert.CLOSED 500].
Definition two : tables :=
  update_status 8 failed (update_status 7 triaged
    (durable (( _ ← insert_alert session_alert; _ ← insert_alert other_alert; commit) start).2)).
Definition d : db world := Db ([], 9) two two false.
Definition text_id (i : uuid) : pystr := str_of_Z i.

Lemma two_wf : wf_tables two.
Proof.
  split; [apply (bool_decide_unpack _); vm_compute; exact I..| |].
  - change (verdicts two) with (@nil VerdictRow). constructor.
  - change (tool_calls two) with (@nil ToolCallRow). constructor.
Qed.
Lemma raws_check ts :
  forallb (fun r => match model_validate (a_raw r) with
                    | Ret a => bool_decide (Alert.fingerprint a = Some (a_fingerprint r))
                    | Raise _ => false
                    end) (alerts ts) = true -> raws_ok ts.
Proof.
  rewrite forallb_forall. intros H. apply Forall_forall. intros r Hr%list_elem_of_In%H.
  destruct (model_validate (a_raw r)) as [a|]; [|done]. exists a. split; [done|].
  by apply bool_decide_eq_true in Hr.
Qed.
Lemma two_raws : raws_ok two.
Proof. apply raws_check. vm_compute. reflexivity. Qed.

Definition candidate (i : Z) : Candidate :=
  {| c_case_id := str_of_Z i; c_alert_id := text_id i; c_received_at := i; c_stratum := UNVERDICTED;
     c_alert := session_alert |}.
End SampleToy.
#[local] Existing Instance SampleToy.rng.

(** Two groups and a budget of two: one from each. *)
Lemma round_robin_terminates_witness :
  let gs := [((u "a", u "1"), [SampleToy.candidate 1; SampleToy.candidate 2]);
             ((u "b", u "1"), [SampleToy.candidate 3])] in
  exists taken left, round_robin 7 [(u "a", u "1"); (u "b", u "1")] 0 2 gs [] = Some (select [] taken) /\
    taken ++ left ≡ₚ remaining [(u "a", u "1"); (u "b", u "1")] gs /\ py_len taken = 2.
Proof.
  intros gs. apply (round_robin_terminates 7 [(u "a", u "1"); (u "b", u "1")] 0 2 gs []).
  - apply (bool_decide_unpack _). vm_compute. exact I.
  - apply (bool_decide_unpack _). vm_compute. exact I.
Defined.

(** One of the two alerts is drawn, the other is excluded. *)
Lemma sample_sound_witness :
  exists cs d', sample (R := unit) (PG := Database.Toy.postgres) (AC := Database.Toy.codec)
      (LZ := Database.Toy.zone) (SH := Database.Toy.sha) SampleToy.text_id 5 1 None
      (map a_fingerprint (List.filter (fun r => a_id r =? 7) (alerts SampleToy.two))) SampleToy.d
      = (Ret cs, d') /\ py_len cs = 1 /\ durable d' = SampleToy.two.
Proof.
  pose proof (@sample_sound _ unit Database.Toy.postgres SampleToy.rng Database.Toy.codec
    Database.Toy.zone Database.Toy.sha SampleToy.text_id 5 1 None
    (map a_fingerprint (List.filter (fun r => a_id r =? 7) (alerts SampleToy.two))) SampleToy.d
    ltac:(discriminate) SampleToy.two_wf SampleToy.two_raws) as H.
  destruct (sample _ _ _ _ _ _) as [[cs|e] d'] eqn:E.
  - exists cs, d'. destruct H as (Hd & _ & _ & _ & Hl). split; [reflexivity|]. split; [|exact Hd].
    rewrite Hl; [vm_compute; reflexivity|]. apply (bool_decide_unpack _). vm_compute. exact I.
  - destruct H as [_ H]. vm_compute in H. discriminate H.
Defined.

(** A candidate file and the set read from it. *)
Lemma written_candidates_excluded_witness :
  exists text, candidates_text (AC := Database.Toy.codec) (SH := Database.Toy.sha)
      (FR := JsonParse.Toy.repr) 1 [SampleToy.candidate 1; SampleToy.candidate 2] = Ret text /\
    _load_exclude_case_ids (AC := Database.Toy.codec) (LZ := Database.Toy.zone) (SH := Database.Toy.sha)
      (JL := @stdlib_loads _ JsonParse.Toy.parse) (Ret text) = Ret [u "1"; u "2"].
Proof.
  assert (H : exists text, candidates_text (AC := Database.Toy.codec) (SH := Database.Toy.sha)
    (FR := JsonParse.Toy.repr) 1 [SampleToy.candidate 1; SampleToy.candidate 2] = Ret text)
    by (eexists; reflexivity).
  destruct H as [text Ht]. exists text. split; [exact Ht|].
  destruct (@written_candidates_excluded Database.Toy.codec Database.Toy.zone Database.Toy.sha
    JsonParse.Toy.repr JsonParse.Toy.parse _ unit Database.Toy.postgres SampleToy.rng SampleToy.text_id 1
    [SampleToy.candidate 1; SampleToy.candidate 2] text) as (ids & E & -> & _).
  - apply List.Forall_cons; [vm_compute; reflexivity|].
    apply List.Forall_cons; [vm_compute; reflexivity|apply List.Forall_nil].
  - exact Ht.
  - exact E.
Defined.

(** Three cases of two strata, all wanted. *)
Lemma draw_stratified_witness :
  let scan := {| c_case_id := u "x"; c_alert_id := u "x"; c_received_at := 5; c_stratum := u "scanning";
                 c_alert := Database.Toy.session_alert |} in
  let E := [SampleToy.candidate 1; scan; SampleToy.candidate 2] in
  exists cs r', draw_sample (RN := SampleToy.rng) 3 E tt = (Ret cs, r') /\ py_len cs = 3 /\
    holds_floor (u "scanning") 1 cs.
Proof.
  intros scan E. destruct (@draw_stratified unit SampleToy.rng 3 E) with (r := tt)
    as (cs & r' & Ed & _ & _ & Hl & Hf & _).
  - discriminate.
  - apply (bool_decide_unpack _). vm_compute. exact I.
  - apply (bool_decide_unpack _). vm_compute. exact I.
  - exists cs, r'. split; [exact Ed|]. split; [rewrite Hl; reflexivity|].
    apply Forall_cons in Hf as [Hf _]. exact Hf.
Defined.
