(* ===== verification/Recording.v ===== *)
(** * Recording: the tool fixtures of a golden set

    [evals/record.py]: the plan, [record] over the registry and the live recorder, and the
    command.  Fixture files, the tools and the clocks are parameters; the command's
    [Settings()] and client are in [Commands]. *)

From S2P Require Import Prelude Errors Cli Json Datetime JsonParse Schemas Policy ToolBase Tools Golden Recorder.
#[local] Open Scope Z_scope.

Definition EXTERNAL_TOOL_NAMES : list pystr := [u "get_ip_geo_asn"; u "lookup_ip_reputation"].

(** A failed call: the tool, the fixture's key, the reason or the exception's class. *)
Record RecordReport : Type := {
  planned : Z;
  recorded : Z;
  skipped_existing : Z;
  failed : list (pystr * pystr * pystr)
}.

Definition str_le (a b : pystr) : Prop := str_leb a b = true.
#[export] Instance str_le_dec : RelDecision str_le.
Proof. intros a b. unfold str_le. apply _. Defined.

Definition ip_arguments (ip : pystr) : jobj := [(u "ip", JStr ip)].

Definition planned_calls (cases : list GoldenCase) : list (pystr * jobj) :=
  let ips := merge_sort str_le (remove_dups (map (fun c => Alert.src_ip (g_alert c)) cases)) in
  flat_map (fun tool_name => map (fun ip => (tool_name, ip_arguments ip)) ips) EXTERNAL_TOOL_NAMES.

Definition _filtered_calls (cases : list GoldenCase) (only : option pystr) : list (pystr * jobj) :=
  match only with
  | None => planned_calls cases
  | Some t => List.filter (fun call => bool_decide (call.1 = t)) (planned_calls cases)
  end.

(** [Path.unlink(missing_ok=True)] of a fixture, [datetime.now(UTC)], and [str] of a value that is no string. *)
Class FixtureDir (W : Type) : Type := { unlink : path -> M exn W unit; wall_clock : W -> Z * W }.

Section record.
Context {W : Type} {KX : Fixtures W} {KD : FixtureDir W} {KF : FloatRepr} {KS : Sha256} {CK : Clock W}.
Variable str_of : json -> pystr.

Definition RECORDER : pystr := u "evals-record".
Definition NOWHERE : pystr := u "0.0.0.0".
Definition _record_ctx : M exn W ToolContext := fun w =>
  let '(now, w') := wall_clock w in
  let at_ := Datetime now (Some 0) in
  (Ret {| alert :=
            {| Alert.source := u "cowrie"; Alert.session_id := RECORDER; Alert.src_ip := NOWHERE;
               Alert.sensor := RECORDER;
               Alert.events := [{| Alert.eventid := Alert.CONNECT; Alert.timestamp := at_;
                                   Alert.session := RECORDER; Alert.ev_src_ip := NOWHERE;
                                   Alert.ev_sensor := RECORDER; Alert.message := []; Alert.username := None;
                                   Alert.password := None; Alert.input := None; Alert.url := None;
                                   Alert.outfile := None; Alert.shasum := None;
                                   Alert.ev_duration_ms := None; Alert.version := None |}] |};
          ctx_session := false; ctx_now := at_ |}, w').

(** [str(result.get("reason", ""))]. *)
Definition reason_text (result : jobj) : pystr :=
  match dget (u "reason") result with
  | Some (JStr s) => s
  | Some j => str_of j
  | None => []
  end.

(** [reason.split(":", 1)[0] if ":" in reason else reason]. *)
Fixpoint before_colon (s : pystr) : pystr :=
  match s with [] => [] | c :: s' => if c =? 58 then [] else c :: before_colon s' end.

Record tally : Type := Tally { n_recorded : Z; n_skipped : Z; t_failed : list (pystr * pystr * pystr) }.

Definition fail_call (acc : tally) (tool_name key reason : pystr) : tally :=
  Tally (n_recorded acc) (n_skipped acc) (t_failed acc ++ [(tool_name, key, reason)]).

Definition record_call (self : ToolReg.ToolRegistry) (fixtures_dir : pystr) (ctx : ToolContext)
    (acc : tally) (call : pystr * jobj) : M exn W tally :=
  let '(tool_name, arguments) := call in
  p ← lift (fixture_path fixtures_dir tool_name arguments);
  w ← get;
  if fixture_exists p w then mret (Tally (n_recorded acc) (n_skipped acc + 1) (t_failed acc))
  else
    execution ← ToolReg.registry_execute self tool_name arguments ctx;
    let result := ex_result execution in
    if poisoned result then
      _ ← unlink p;
      mret (fail_call acc tool_name (p_key p) (before_colon (reason_text result)))
    else
      w' ← get;
      if fixture_exists p w'
      then mret (Tally (n_recorded acc + 1) (n_skipped acc) (t_failed acc))
      else mret (fail_call acc tool_name (p_key p) (u "not_recorded")).

Definition record (self : ToolReg.ToolRegistry) (fixtures_dir : pystr) (cases : list GoldenCase)
    (only : option pystr) (dry_run : bool) : M exn W RecordReport :=
  let calls := _filtered_calls cases only in
  if dry_run
  then mret {| planned := py_len calls; recorded := 0; skipped_existing := 0; failed := [] |}
  else
    ctx ← _record_ctx;
    acc ← foldM (record_call self fixtures_dir ctx) calls (Tally 0 0 []);
    mret {| planned := py_len calls; recorded := n_recorded acc; skipped_existing := n_skipped acc;
            failed := t_failed acc |}.

(** [main], once the golden file is loaded: the exit code, stdout and stderr. *)
Definition ip_of (arguments : jobj) : pystr :=
  match dget (u "ip") arguments with Some (JStr s) => s | _ => [] end.
Definition failed_line (f : pystr * pystr * pystr) : pystr :=
  error_line (u "record_failed") (f.1.1 ++ u " " ++ f.1.2 ++ u " " ++ f.2).

Definition record_main (self : ToolReg.ToolRegistry) (fixtures_dir : pystr) (cases : list GoldenCase)
    (only : option pystr) (dry_run : bool) : M exn W (Z * list pystr * list pystr) :=
  if dry_run
  then mret (0, map (fun call => call.1 ++ u " " ++ ip_of call.2) (_filtered_calls cases only), [])
  else
    report ← record self fixtures_dir cases only false;
    mret (match failed report with [] => 0 | _ => 1 end, [], map failed_line (failed report)).
End record.

(** ** The plan *)

Lemma elem_of_planned cases t arguments :
  (t, arguments) ∈ planned_calls cases <->
  t ∈ EXTERNAL_TOOL_NAMES /\ exists c, c ∈ cases /\ arguments = ip_arguments (Alert.src_ip (g_alert c)).
Proof.
  unfold planned_calls. rewrite list_elem_of_In, in_flat_map. split.
  - intros (t' & Ht & Hin). apply in_map_iff in Hin as (ip & [= <- <-] & Hip).
    rewrite <- list_elem_of_In in Ht, Hip. rewrite merge_sort_Permutation, elem_of_remove_dups in Hip.
    apply list_elem_of_In, in_map_iff in Hip as (c & <- & Hc%list_elem_of_In). split; [done|]. by exists c.
  - intros (Ht & c & Hc & ->). exists t. split; [by apply list_elem_of_In|].
    apply in_map_iff. eexists. split; [reflexivity|]. apply list_elem_of_In.
    rewrite merge_sort_Permutation, elem_of_remove_dups. apply list_elem_of_In, in_map_iff.
    exists c. by rewrite <- list_elem_of_In.
Qed.

Lemma nodup_planned cases : NoDup (planned_calls cases).
Proof.
  unfold planned_calls, EXTERNAL_TOOL_NAMES. cbn [flat_map]. rewrite app_nil_r.
  set (ips := merge_sort _ _). assert (Hnd : NoDup ips)
    by (unfold ips; rewrite merge_sort_Permutation; apply NoDup_remove_dups).
  assert (Hm : forall t : pystr, NoDup (map (fun ip => (t, ip_arguments ip)) ips)).
  { intros t. assert (Inj eq eq (fun ip => (t, ip_arguments ip))) by (by intros a b [=]).
    by apply (NoDup_fmap_2 (fun ip => (t, ip_arguments ip))). }
  apply NoDup_app. split_and!; [apply Hm| |apply Hm].
  intros x Hx Hy. apply list_elem_of_In, in_map_iff in Hx as (? & <- & _).
  apply list_elem_of_In, in_map_iff in Hy as (? & [=] & _).
Qed.

(** ** Minting *)

Section minting.
Context {W : Type} {KX : Fixtures W} {KD : FixtureDir W} {KF : FloatRepr} {KP : FloatParse} {KS : Sha256}
        {CK : Clock W}.
Variable str_of : json -> pystr.
Variables (tools : list (Tool W)) (max_chars : Z) (fixtures_dir : pystr).

(** The registry [main] builds: every call runs live and is recorded. *)
Definition live_registry : ToolReg.ToolRegistry :=
  {| ToolReg._tools := tools; ToolReg._recorder := live_execute (Some fixtures_dir);
     ToolReg._max_result_chars := max_chars |}.

Definition same (p : path) (w w' : W) : Prop :=
  fixture_exists p w' = fixture_exists p w /\ read_text p w' = read_text p w.

Lemma same_refl p w : same p w w.
Proof. done. Qed.
Lemma same_trans p w1 w2 w3 : same p w1 w2 -> same p w2 w3 -> same p w1 w3.
Proof. intros [H1 H2] [H3 H4]. split; congruence. Qed.

(** A failure report that is not shortened. *)
Definition fits (r : jobj) : Prop := py_len (encode ToolReg.compact_args 0 (JObj r)) <= max_chars.
Definition raised_result (e : exn) : jobj := unavailable (exn_name e ++ u ": tool raised").

(** What the directory, the clocks and the tools are documented to do: a file reads back as
    written, nothing else is touched, removing it removes it; a tool answers printable JSON or
    raises an [Exception] other than a missing fixture, leaves the fixtures alone, and its
    failure reports are within the registry's budget. *)
Record laws : Prop := {
  l_kept : files_kept;
  l_write : forall p q text w, q <> p -> same q w (write_text p text w).2;
  l_write_exn : forall p text w e w', write_text p text w = (Raise e, w') ->
    is_exception e = true /\ ToolReg.is_fixture_missing e = false /\ fits (raised_result e);
  l_unlink : forall p w, (unlink p w).1 = Ret tt /\ fixture_exists p (unlink p w).2 = false /\
    forall q, q <> p -> same q w (unlink p w).2;
  l_clock : forall q w, same q w (read_clock w).2;
  l_wall : forall q w, same q w (wall_clock w).2;
  l_tool : forall t arguments ctx w q, t ∈ tools -> same q w (tool_run t arguments ctx w).2;
  l_answer : forall t arguments ctx w r w', t ∈ tools -> tool_run t arguments ctx w = (Ret r, w') ->
    printable (JObj r) = true /\ (poisoned r = true -> fits r);
  l_raise : forall t arguments ctx w e w', t ∈ tools -> tool_run t arguments ctx w = (Raise e, w') ->
    is_exception e = true /\ ToolReg.is_fixture_missing e = false /\ fits (raised_result e)
}.

Lemma printable_serializable j : printable j = true -> serializable j = true.
Proof.
  induction j as [| | | | |l IH|kvs IH|] using json_nested_ind; try done; cbn [printable serializable].
  - rewrite !forallb_forall. intros H x Hx. rewrite Forall_forall in IH. apply IH; [by apply list_elem_of_In|auto].
  - rewrite andb_true_iff, !forallb_forall. intros [_ H] x Hx. rewrite Forall_forall in IH.
    specialize (H x Hx). apply andb_true_iff in H as [_ H]. apply IH; [by apply list_elem_of_In|done].
Qed.

(** A reason with a colon is none of the deterministic ones. *)
Lemma poisoned_reason reason : 58 ∈ reason -> poisoned (unavailable reason) = true.
Proof.
  intros H. change (bool_decide (reason ∉ DETERMINISTIC_REASONS) = true). apply bool_decide_eq_true.
  assert (Hd : Forall (fun s => bool_decide (58 ∈ s) = false) DETERMINISTIC_REASONS) by (by repeat constructor).
  rewrite Forall_forall in Hd. intros Hin%Hd. by apply bool_decide_eq_false in Hin.
Qed.
Lemma poisoned_raised e : poisoned (raised_result e) = true.
Proof. apply poisoned_reason, elem_of_app. right. by left. Qed.

(** The text of a recorded call. *)
Definition body_text (t : pystr) (arguments result : jobj) : pystr :=
  encode body_args 0 (JObj [(u "tool", JStr t); (u "arguments", JObj arguments); (u "result", JObj result)]) ++ [10].
Definition holds (p : path) (t : pystr) (arguments result : jobj) (w : W) : Prop :=
  fixture_exists p w = true /\ read_text p w = Ret (body_text t arguments result).

Definition minted (t : pystr) (arguments : jobj) (p : path) (w : W) : Prop :=
  exists tool ctx r w1 w2, tool ∈ tools /\ name tool = t /\ tool_run tool arguments ctx w1 = (Ret r, w2) /\
    printable (JObj r) = true /\ poisoned r = false /\ holds p t arguments r w.

Lemma timed_result start result w :
  serializable (JObj result) = true ->
  exists ex, ToolReg.timed_truncate live_registry start result w = (Ret ex, (read_clock w).2) /\
    (ex_result ex = result \/ (poisoned (ex_result ex) = false /\ ~ fits result)).
Proof.
  intros Hs. unfold ToolReg.timed_truncate, clock_tick, ToolReg.guarded_truncate. m_unfold.
  destruct (read_clock w) as [tm w1]. cbn [snd].
  pose proof (ToolReg.truncate_result_spec result max_chars) as Ht.
  change (ToolReg._max_result_chars live_registry) with max_chars.
  destruct (ToolReg.truncate_result result max_chars) as [r|e]; [|by destruct Ht as [_ ?]; congruence].
  eexists. split; [reflexivity|]. cbn [ex_result]. cbv zeta in Ht.
  destruct Ht as [[_ ->]|[Hlong ->]]; [by left|right]. split; [done|]. unfold fits. lia.
Qed.

Lemma timed_raised start e w :
  fits (raised_result e) ->
  exists ex, ToolReg.timed_truncate live_registry start (raised_result e) w = (Ret ex, (read_clock w).2) /\
    poisoned (ex_result ex) = true.
Proof.
  intros Hf. destruct (timed_result start (raised_result e) w eq_refl) as (ex & E & [Hr|[_ ?]]); [|done].
  exists ex. split; [done|]. rewrite Hr. apply poisoned_raised.
Qed.

Lemma serializable_body t arguments r :
  serializable (JObj arguments) = true -> serializable (JObj r) = true ->
  serializable (JObj [(u "tool", JStr t); (u "arguments", JObj arguments); (u "result", JObj r)]) = true.
Proof. intros Ha Hr. cbn [serializable forallb snd]. cbn [serializable] in *. by rewrite Ha, Hr. Qed.

(** What one live run of a tool leaves. *)
Lemma live_run (L : laws) tool arguments ctx p w :
  tool ∈ tools -> serializable (JObj arguments) = true ->
  fixture_path fixtures_dir (name tool) arguments = Ret p ->
  let '(o, w') := ToolReg.guarded_run live_registry tool arguments ctx w in
  (forall q, q <> p -> same q w w') /\
  ((exists e, o = Ret (raised_result e) /\ fits (raised_result e)) \/
   exists r, o = Ret r /\ printable (JObj r) = true /\ (poisoned r = true -> fits r) /\
     (poisoned r = false -> minted (name tool) arguments p w')).
Proof.
  intros Ht Hs Hp. unfold ToolReg.guarded_run, try_except. cbn [ToolReg._recorder live_registry].
  unfold live_execute, write_fixture. m_unfold.
  pose proof (fun q => l_tool L tool arguments ctx w q Ht) as Hsame.
  destruct (tool_run tool arguments ctx w) as [[r|e] w1] eqn:E; cbn [snd] in Hsame.
  2: { destruct (l_raise L _ _ _ _ _ _ Ht E) as (-> & -> & Hf). split; [done|]. left. by exists e. }
  destruct (l_answer L _ _ _ _ _ _ Ht E) as [Hpr Hpo]. rewrite Hp. unfold dumps.
  rewrite serializable_body by (done || by apply printable_serializable).
  fold (body_text (name tool) arguments r).
  pose proof (fun q => l_write L p q (body_text (name tool) arguments r) w1) as Hw.
  destruct (write_text p (body_text (name tool) arguments r) w1) as [[[]|e] w2] eqn:Ew; cbn [snd] in Hw.
  - split; [intros q Hq; eapply same_trans; [apply Hsame|by apply Hw]|]. right. exists r. split_and!; try done.
    intros Hn. exists tool, ctx, r, w, w1. split_and!; try done. by apply (l_kept L) in Ew.
  - destruct (l_write_exn L _ _ _ _ _ Ew) as (-> & -> & Hf).
    split; [intros q Hq; eapply same_trans; [apply Hsame|by apply Hw]|]. left. by exists e.
Qed.

Lemma minted_same t arguments p w w' : same p w w' -> minted t arguments p w -> minted t arguments p w'.
Proof.
  intros [H1 H2] (tool & ctx & r & w1 & w2 & ? & ? & ? & ? & ? & He & Hr).
  exists tool, ctx, r, w1, w2. do 5 (split; [done|]). split; congruence.
Qed.

Lemma execute_live (L : laws) t arguments ctx p w :
  serializable (JObj arguments) = true -> fixture_path fixtures_dir t arguments = Ret p ->
  exists ex w', ToolReg.registry_execute live_registry t arguments ctx w = (Ret ex, w') /\
    (forall q, q <> p -> same q w w') /\
    (poisoned (ex_result ex) = true \/ (poisoned (ex_result ex) = false /\ minted t arguments p w')).
Proof.
  intros Hs Hp. unfold ToolReg.registry_execute.
  destruct (dget t (ToolReg.by_name live_registry)) as [tool|] eqn:Et.
  2: { eexists _, w. split; [reflexivity|]. split; [done|]. by left. }
  apply dget_elem in Et. unfold ToolReg.by_name in Et. apply list_elem_of_fmap in Et as (tool' & [= -> <-] & Hin).
  m_unfold. unfold clock_tick. m_unfold. pose proof (fun q => l_clock L q w) as Hc.
  destruct (read_clock w) as [start w0]. cbn [snd] in Hc.
  pose proof (live_run L tool arguments ctx p w0 Hin Hs Hp) as Hrun.
  destruct (ToolReg.guarded_run live_registry tool arguments ctx w0) as [o w1].
  destruct Hrun as [Hframe [(e & -> & Hf)|(r & -> & Hpr & Hpo & Hmint)]].
  - destruct (timed_raised start e w1 Hf) as (ex & -> & Hex). eexists _, _. split; [reflexivity|].
    split; [|by left]. intros q Hq. eapply same_trans; [apply Hc|].
    eapply same_trans; [by apply Hframe|apply (l_clock L)].
  - destruct (timed_result start r w1 (printable_serializable _ Hpr)) as (ex & -> & Hex).
    eexists _, _. split; [reflexivity|]. split.
    + intros q Hq. eapply same_trans; [apply Hc|]. eapply same_trans; [by apply Hframe|apply (l_clock L)].
    + destruct (poisoned r) eqn:Epr.
      * destruct Hex as [->|[_ Hnf]]; [by left|]. by destruct Hnf; apply Hpo.
      * right. split; [destruct Hex as [->|[? _]]; done|]. eapply minted_same; [apply (l_clock L)|auto].
Qed.

(** *** The loop *)

(** The calls of a plan have a path, whatever the address. *)
Definition path_of (call : pystr * jobj) (p : path) : Prop := fixture_path fixtures_dir call.1 call.2 = Ret p.
Definition planned_call (call : pystr * jobj) : Prop := serializable (JObj call.2) = true.

Lemma path_of_total call : planned_call call -> exists p, path_of call p.
Proof.
  unfold planned_call, path_of, fixture_path, fixture_key, mbind, outcome_bind, dumps. intros ->. by eexists.
Qed.
Lemma planned_ip t ip : planned_call (t, ip_arguments ip).
Proof. done. Qed.

Lemma record_call_spec (L : laws) ctx acc call p w :
  planned_call call -> path_of call p ->
  exists acc' w', record_call str_of live_registry fixtures_dir ctx acc call w = (Ret acc', w') /\
    (forall q, q <> p -> same q w w') /\
    ((fixture_exists p w = true /\ w' = w /\
        acc' = Tally (n_recorded acc) (n_skipped acc + 1) (t_failed acc)) \/
     (fixture_exists p w = false /\ minted call.1 call.2 p w' /\
        acc' = Tally (n_recorded acc + 1) (n_skipped acc) (t_failed acc)) \/
     (fixture_exists p w = false /\ fixture_exists p w' = false /\
        exists reason, acc' = fail_call acc call.1 (p_key p) reason)).
Proof.
  destruct call as [t arguments]. unfold planned_call, path_of. cbn [fst snd]. intros Hs Hp.
  unfold record_call. m_unfold. rewrite Hp. unfold get. destruct (fixture_exists p w) eqn:Ew.
  { eexists _, w. split; [reflexivity|]. split; [done|]. by left. }
  destruct (execute_live L t arguments ctx p w Hs Hp) as (ex & w1 & -> & Hframe & [Hex|[Hex Hm]]); rewrite Hex.
  - destruct (l_unlink L p w1) as (Hu & Hgone & Hother).
    destruct (unlink p w1) as [o w2]. cbn [fst snd] in *. subst o. eexists _, w2. split; [reflexivity|].
    split; [intros q Hq; eapply same_trans; [by apply Hframe|by apply Hother]|]. right. right.
    split_and!; try done. by eexists.
  - assert (Hhere : fixture_exists p w1 = true) by (destruct Hm as (?&?&?&?&?&?&?&?&?&?&H&_); exact H).
    rewrite Hhere. eexists _, w1. split; [reflexivity|]. split; [done|]. by right; left.
Qed.

Definition settled (calls : list (pystr * jobj)) (w w' : W) (failed : list (pystr * pystr * pystr)) : Prop :=
  (forall q, fixture_exists q w = true \/ (forall call, call ∈ calls -> ~ path_of call q) -> same q w w') /\
  (forall q, fixture_exists q w = false -> fixture_exists q w' = true ->
     exists call, call ∈ calls /\ path_of call q /\ minted call.1 call.2 q w') /\
  (forall call p, call ∈ calls -> path_of call p ->
     fixture_exists p w' = true \/ exists reason, (call.1, p_key p, reason) ∈ failed).

Lemma path_of_inj call p q : path_of call p -> path_of call q -> p = q.
Proof. unfold path_of. congruence. Qed.

Lemma record_loop (L : laws) ctx calls acc w :
  Forall planned_call calls ->
  exists acc' w', foldM (record_call str_of live_registry fixtures_dir ctx) calls acc w = (Ret acc', w') /\
    n_recorded acc' + n_skipped acc' + py_len (t_failed acc') =
      n_recorded acc + n_skipped acc + py_len (t_failed acc) + py_len calls /\
    (exists new, t_failed acc' = t_failed acc ++ new) /\
    settled calls w w' (t_failed acc').
Proof.
  intros Hpl. revert acc w. induction Hpl as [|call calls Hc _ IH]; intros acc w; cbn [foldM].
  { exists acc, w. split; [reflexivity|]. unfold py_len. cbn [length]. split; [lia|].
    split; [exists []; by rewrite app_nil_r|]. split_and!; [done|congruence|by intros ? ? ?%not_elem_of_nil]. }
  destruct (path_of_total call Hc) as [p Hp].
  destruct (record_call_spec L ctx acc call p w Hc Hp) as (acc1 & w1 & E & Hframe & Hcase).
  unfold mbind, M_bind. rewrite E. destruct (IH acc1 w1) as (acc' & w' & -> & Hcount & [new Hnew] & Hk & Hn & Hf).
  exists acc', w'. split; [reflexivity|].
  assert (Hstep : n_recorded acc1 + n_skipped acc1 + py_len (t_failed acc1) =
      n_recorded acc + n_skipped acc + py_len (t_failed acc) + 1 /\
    (exists new, t_failed acc1 = t_failed acc ++ new)).
  { destruct Hcase as [(_ & _ & ->)|[(_ & _ & ->)|(_ & _ & reason & ->)]]; cbn [n_recorded n_skipped t_failed fail_call].
    - split; [lia|]. exists []. by rewrite app_nil_r.
    - split; [lia|]. exists []. by rewrite app_nil_r.
    - split; [unfold py_len; rewrite length_app; cbn [length]; lia|]. by eexists. }
  destruct Hstep as [Hcount1 [new1 Hnew1]]. split; [unfold py_len in *; cbn [length]; lia|].
  split; [exists (new1 ++ new); by rewrite Hnew, Hnew1, (assoc_L (++))|].
  assert (Hfirst : forall q, fixture_exists q w = true \/ ~ path_of call q -> same q w w1).
  { intros q Hq. destruct (decide (q = p)) as [->|]; [|by apply Hframe].
    destruct Hcase as [(_ & -> & _)|[(Hw & _)|(Hw & _)]]; [done| |]; destruct Hq as [?|?]; congruence || done. }
  split_and!.
  - intros q Hq. eapply same_trans; [apply Hfirst|apply Hk].
    + destruct Hq as [|Hq]; [by left|]. right. apply Hq. by left.
    + destruct Hq as [Hq|Hq]; [left|right].
      * destruct (Hfirst q (or_introl Hq)) as [-> _]. done.
      * intros c Hin. apply Hq. by right.
  - intros q Hq Hq'. destruct (fixture_exists q w1) eqn:Eq1.
    + assert (q = p) as ->.
      { destruct (decide (q = p)) as [|Hne]; [done|]. destruct (Hframe q Hne) as [H1 _]. congruence. }
      exists call. split; [by left|]. split; [done|].
      destruct Hcase as [(? & _)|[(_ & Hm & _)|(_ & ? & _)]]; [congruence| |congruence].
      eapply minted_same; [|exact Hm]. apply Hk. by left.
    + destruct (Hn q Eq1 Hq') as (c & Hin & Hpc & Hm). exists c. split; [by right|done].
  - intros c q [->|Hin]%elem_of_cons Hq; [|by apply Hf]. rewrite (path_of_inj _ _ _ Hq Hp) in *.
    destruct (fixture_exists p w1) eqn:Ep1.
    + left. destruct (Hk p (or_introl Ep1)) as [-> _]. done.
    + right. destruct Hcase as [(? & -> & _)|[(_ & Hm & _)|(_ & _ & reason & ->)]]; [congruence| |].
      * destruct Hm as (?&?&?&?&?&?&?&?&?&?&H&_). congruence.
      * exists reason. rewrite Hnew. cbn [t_failed fail_call]. rewrite !elem_of_app. left. right. by left.
Qed.

(** *** What the command promises *)

Lemma filtered_planned cases only : Forall planned_call (_filtered_calls cases only).
Proof.
  assert (H : Forall planned_call (planned_calls cases)).
  { apply Forall_forall. intros [t arguments] (_ & c & _ & ->)%elem_of_planned. apply planned_ip. }
  destruct only as [t|]; [|exact H]. rewrite Forall_forall in *. intros call Hin. apply H.
  apply list_elem_of_In in Hin. apply filter_In in Hin as [Hin _]. by apply list_elem_of_In.
Qed.

Lemma record_ctx_spec (L : laws) w : exists ctx w', _record_ctx w = (Ret ctx, w') /\ forall q, same q w w'.
Proof.
  unfold _record_ctx. pose proof (fun q => l_wall L q w) as H. destruct (wall_clock w) as [now w1].
  by eexists _, _.
Qed.

Lemma record_spec (L : laws) cases only w :
  exists report w', record str_of live_registry fixtures_dir cases only false w = (Ret report, w') /\
    let calls := _filtered_calls cases only in
    planned report = py_len calls /\
    recorded report + skipped_existing report + py_len (failed report) = planned report /\
    settled calls w w' (failed report).
Proof.
  unfold record. destruct (record_ctx_spec L w) as (ctx & w0 & E & Hsame). m_unfold. rewrite E.
  destruct (record_loop L ctx (_filtered_calls cases only) (Tally 0 0 []) w0 (filtered_planned cases only))
    as (acc & w' & -> & Hcount & _ & Hk & Hn & Hf).
  eexists _, w'. split; [reflexivity|]. cbn [planned recorded skipped_existing failed]. split; [done|].
  split; [unfold py_len in *; cbn [n_recorded n_skipped t_failed length] in Hcount; lia|]. split_and!.
  - intros q Hq. eapply same_trans; [apply Hsame|]. apply Hk. by destruct (Hsame q) as [-> _].
  - intros q Hq. apply Hn. by destruct (Hsame q) as [-> _].
  - exact Hf.
Qed.

(** Over a complete directory nothing is called. *)
Lemma record_loop_skips ctx calls acc w :
  Forall planned_call calls -> (forall call p, call ∈ calls -> path_of call p -> fixture_exists p w = true) ->
  foldM (record_call str_of live_registry fixtures_dir ctx) calls acc w =
    (Ret (Tally (n_recorded acc) (n_skipped acc + py_len calls) (t_failed acc)), w).
Proof.
  intros Hpl. revert acc. induction Hpl as [|[t arguments] calls Hc _ IH]; intros acc Hall; cbn [foldM].
  { unfold py_len. cbn [length]. rewrite Z.add_0_r. by destruct acc. }
  destruct (path_of_total _ Hc) as [p Hp].
  assert (He : fixture_exists p w = true) by (eapply Hall; [by left|exact Hp]).
  unfold path_of in Hp. cbn [fst snd] in Hp. unfold mbind, M_bind, record_call at 1. m_unfold.
  rewrite Hp. unfold get. rewrite He. unfold mret, M_ret. rewrite IH.
  - cbn [n_recorded n_skipped t_failed]. do 3 f_equal. unfold py_len. cbn [length]. lia.
  - intros call q Hin. apply Hall. by right.
Qed.

(** C35: recording is complete, honest and idempotent: it always reports; every planned call is
    counted once, as recorded, skipped or failed; a fixture that was there is never touched,
    nor any file of another call; a file that appears holds what its tool answered, which is
    no transient failure; a call left without a file is in the failures; and when none
    failed, recording again calls no tool and reports every call as skipped. *)
Theorem record_complete cases only w :
  laws ->
  exists report w', record str_of live_registry fixtures_dir cases only false w = (Ret report, w') /\
    let calls := _filtered_calls cases only in
    planned report = py_len calls /\
    recorded report + skipped_existing report + py_len (failed report) = planned report /\
    settled calls w w' (failed report) /\
    (failed report = [] -> exists w'', (forall q, same q w' w'') /\
       record str_of live_registry fixtures_dir cases only false w' =
         (Ret {| planned := py_len calls; recorded := 0; skipped_existing := py_len calls; failed := [] |}, w'')).
Proof.
  intros L. destruct (record_spec L cases only w) as (report & w' & E & Hpl & Hsum & Hset).
  exists report, w'. cbv zeta. do 4 (split; [done|]). intros Hnone. destruct Hset as (_ & _ & Hf).
  destruct (record_ctx_spec L w') as (ctx & w2 & Ectx & Hsame). exists w2. split; [done|].
  unfold record. m_unfold. rewrite Ectx, record_loop_skips; [done|apply filtered_planned|].
  intros call p Hin Hp. destruct (Hsame p) as [-> _].
  destruct (Hf call p Hin Hp) as [?|[reason Hr]]; [done|]. rewrite Hnone in Hr. by apply not_elem_of_nil in Hr.
Qed.

(** No two planned calls share a fixture. *)
Definition keys_distinct (cases : list GoldenCase) : Prop := forall a b p,
  a ∈ planned_calls cases -> b ∈ planned_calls cases -> path_of a p -> path_of b p -> a = b.

(** C36: what was recorded replays: after a recording without failures, a strict replay of
    either external tool on the address of any case of the set answers, without running the
    tool or raising, what the tool answered when its fixture was recorded, unless that file
    was there before. *)
Theorem recorded_cases_replay cases w report w' case tool ctx p self :
  laws -> keys_distinct cases -> NoDup (map name tools) ->
  record str_of live_registry fixtures_dir cases None false w = (Ret report, w') -> failed report = [] ->
  case ∈ cases -> text_ok (Alert.src_ip (g_alert case)) = true ->
  tool ∈ tools -> external tool = true -> name tool ∈ EXTERNAL_TOOL_NAMES ->
  let arguments := ip_arguments (Alert.src_ip (g_alert case)) in
  fixture_path fixtures_dir (name tool) arguments = Ret p -> fixture_exists p w = false ->
  _fixtures_dir self = fixtures_dir ->
  exists r ctx0 w1 w2, tool_run tool arguments ctx0 w1 = (Ret r, w2) /\ poisoned r = false /\
    json_eqb (JObj (sorted_result r)) (JObj r) = true /\
    replay_execute (KL := stdlib_loads) self tool arguments ctx w' = (Ret (sorted_result r), w').
Proof.
  intros L Hinj Hnd E Hnone Hcase Hip Htool Hx Hname arguments Hp Hfresh Hdir.
  destruct (record_spec L cases None w) as (report0 & w0 & E0 & _ & _ & _ & Hn & Hf).
  rewrite E in E0. injection E0 as <- <-.
  assert (Hin : (name tool, arguments) ∈ planned_calls cases)
    by (apply elem_of_planned; split; [done|]; by exists case).
  destruct (Hf _ p Hin Hp) as [Hthere|[reason Hr]]; [|rewrite Hnone in Hr; by apply not_elem_of_nil in Hr].
  destruct (Hn p Hfresh Hthere) as (call & Hcall & Hpc & Hm).
  rewrite (Hinj call _ p Hcall Hin Hpc Hp) in Hm. cbn [fst snd] in Hm.
  destruct Hm as (tool' & ctx0 & r & w1 & w2 & Htool' & Hsame & Hrun & Hpr & Hpo & Hex & Hread).
  assert (tool' = tool) as ->.
  { apply list_elem_of_lookup in Htool as [i Hi], Htool' as [i' Hi'].
    assert (i = i') as <-; [|congruence].
    eapply (NoDup_lookup (map name tools)); [done|..].
    - change (map name tools) with (name <$> tools). rewrite list_lookup_fmap, Hi. reflexivity.
    - change (map name tools) with (name <$> tools). rewrite list_lookup_fmap, Hi'. cbn. by rewrite Hsame. }
  exists r, ctx0, w1, w2. split; [done|]. split; [done|].
  assert (Hargs : printable (JObj arguments) = true).
  { unfold arguments, ip_arguments. cbn [printable forallb fst snd dkeys map]. rewrite Hip.
    rewrite bool_decide_true by apply NoDup_singleton. by vm_compute. }
  assert (Hok : text_ok (name tool) = true)
    by (revert Hname; unfold EXTERNAL_TOOL_NAMES; rewrite !elem_of_cons; intros [->|[->|?%not_elem_of_nil]]; done).
  rewrite <- Hdir in Hp.
  destruct (replay_recorded self tool arguments r ctx p (encode body_args 0 (JObj [(u "tool", JStr (name tool));
    (u "arguments", JObj arguments); (u "result", JObj r)])) w') as [Heq Hrep]; try done.
  { unfold dumps. rewrite serializable_body; [done|done|by apply printable_serializable]. }
  split; [done|]. rewrite Hrep, Hpo. by rewrite andb_false_r.
Qed.
End minting.

(** ** A directory with one answer and one outage *)

Module RecordToy.
Import Store.
#[local] Abbreviation dir := (list (path * pystr)).
#[export] Instance fixture_dir : FixtureDir dir := {
  unlink p w := (Ret tt, List.filter (fun kv => negb (bool_decide (kv.1 = p))) w); wall_clock w := (0, w)
}.
#[export] Instance clock : Clock dir := fun w => (0, w).
Definition stub (n : pystr) (r : jobj) : Tool dir :=
  {| name := n; description := []; parameters := JNull; external := true;
     tool_run _ _ w := (Ret r, w) |}.
Definition answer : jobj := [(u "asn", JInt 64500)].
Definition geo : Tool dir := stub (u "get_ip_geo_asn") answer.
Definition down : Tool dir := stub (u "lookup_ip_reputation") (unavailable (u "http_503")).
Definition up : Tool dir := stub (u "lookup_ip_reputation") (unavailable (u "invalid_arguments")).
Definition case : GoldenCase :=
  {| g_alert := Alert.toy_alert (u "a") [Alert.toy_event Alert.CONNECT 0];
     g_label := {| l_severity := 3; l_category := Verdict.category Verdict.toy_verdict; l_escalate := false |};
     labeler_note := u "a note of ten"; g_tags := []; labeled_by := None; labeled_at := None |}.
Definition text_of (j : json) : pystr := [].

Lemma same_dset p q s (w : dir) : q <> p -> same q w (dset p s w).
Proof. intros H. split; cbn; by rewrite dget_dset_ne by done. Qed.
Lemma dget_unlink p q (w : dir) :
  dget q (List.filter (fun kv => negb (bool_decide (kv.1 = p))) w) = if decide (q = p) then None else dget q w.
Proof.
  induction w as [|[k s] w IH]; cbn [List.filter fst]; [by destruct (decide (q = p))|].
  case_bool_decide as Hk; cbn [negb dget]; rewrite IH.
  - subst. destruct (decide (q = p)); [done|]. cbn [dget]. by destruct (decide (q = p)).
  - cbn [dget]. destruct (decide (q = k)) as [->|]; [|done]. by destruct (decide (k = p)).
Qed.
Lemma same_unlink p q (w : dir) : q <> p -> same q w (unlink p w).2.
Proof. intros H. split; cbn; rewrite dget_unlink; by destruct (decide (q = p)). Qed.

Lemma laws_stub tools :
  Forall (fun t => exists n r, t = stub n r /\ printable (JObj r) = true /\ fits (KF := JsonParse.Toy.repr) 4000 r) tools ->
  laws (KX := Store.store) (KF := JsonParse.Toy.repr) tools 4000.
Proof.
  intros Ht. rewrite Forall_forall in Ht. constructor.
  - apply Store.store_kept.
  - intros. by apply same_dset.
  - by intros.
  - intros p w. split; [done|]. split; [|intros; by apply same_unlink].
    cbn. apply bool_decide_eq_false. rewrite dget_unlink. destruct (decide (p = p)); [|done]. by intros [? ?].
  - done.
  - done.
  - intros t arguments ctx w q Hin. by destruct (Ht t Hin) as (n & r & -> & _).
  - intros t arguments ctx w r w' Hin. destruct (Ht t Hin) as (n & r' & -> & Hp & Hf). by intros [= <- _].
  - intros t arguments ctx w e w' Hin. by destruct (Ht t Hin) as (n & r' & -> & _).
Qed.
End RecordToy.

(** The outage is reported and leaves no file; the answer is there. *)
Lemma record_complete_witness :
  exists report w', @record _ Store.store RecordToy.fixture_dir JsonParse.Toy.repr Recorder.Toy.sha RecordToy.clock
      RecordToy.text_of (@live_registry _ Store.store JsonParse.Toy.repr Recorder.Toy.sha
        [RecordToy.geo; RecordToy.down] 4000 (u "fixtures")) (u "fixtures") [RecordToy.case] None false [] =
      (Ret report, w') /\
    recorded report = 1 /\ map (fun f => (f.1.1, f.2)) (failed report) = [(u "lookup_ip_reputation", u "http_503")] /\
    length w' = 1%nat.
Proof.
  destruct (@record_complete _ Store.store RecordToy.fixture_dir JsonParse.Toy.repr Recorder.Toy.sha RecordToy.clock
    RecordToy.text_of [RecordToy.geo; RecordToy.down] 4000 (u "fixtures") [RecordToy.case] None [])
    as (report & w' & E & _).
  - apply RecordToy.laws_stub. constructor; [|constructor; [|constructor]].
    + exists (u "get_ip_geo_asn"), RecordToy.answer. split; [reflexivity|]. split; [reflexivity|]. vm_compute. discriminate.
    + exists (u "lookup_ip_reputation"), (unavailable (u "http_503")). split; [reflexivity|]. split; [reflexivity|].
      vm_compute. discriminate.
  - exists report, w'. split; [exact E|]. vm_compute in E. injection E as <- <-. vm_compute. repeat split.
Defined.

(** Both tools answer; the strict replay of the reputation tool serves its recorded refusal. *)
Lemma recorded_cases_replay_witness :
  match @record _ Store.store RecordToy.fixture_dir JsonParse.Toy.repr Recorder.Toy.sha RecordToy.clock
      RecordToy.text_of (@live_registry _ Store.store JsonParse.Toy.repr Recorder.Toy.sha
        [RecordToy.geo; RecordToy.up] 4000 (u "fixtures")) (u "fixtures") [RecordToy.case] None false [] with
  | (Ret report, w') =>
      exists r, @replay_execute _ Store.store JsonParse.Toy.repr (@stdlib_loads _ JsonParse.Toy.parse)
        Recorder.Toy.sha Recorder.Toy.recorder RecordToy.up (ip_arguments (Alert.src_ip (g_alert RecordToy.case)))
        Recorder.Toy.ctx w' = (Ret (sorted_result r), w') /\ poisoned r = false
  | _ => False
  end.
Proof.
  destruct (@record _ Store.store RecordToy.fixture_dir JsonParse.Toy.repr Recorder.Toy.sha RecordToy.clock
      RecordToy.text_of _ _ _ _ _ _) as [[report|e] w'] eqn:E; [|vm_compute in E; discriminate E].
  destruct (@recorded_cases_replay _ Store.store RecordToy.fixture_dir JsonParse.Toy.repr JsonParse.Toy.parse
    Recorder.Toy.sha RecordToy.clock RecordToy.text_of [RecordToy.geo; RecordToy.up] 4000 (u "fixtures")
    [RecordToy.case] [] report w' RecordToy.case RecordToy.up Recorder.Toy.ctx
    (Path (u "fixtures") (u "lookup_ip_reputation") (py_take 16 (@encode JsonParse.Toy.repr key_args 0 (JObj (ip_arguments (Alert.src_ip (g_alert RecordToy.case)))))))
    Recorder.Toy.recorder)
    as (r & _ & _ & _ & _ & Hp & _ & Hr).
  - apply RecordToy.laws_stub. constructor; [|constructor; [|constructor]].
    + exists (u "get_ip_geo_asn"), RecordToy.answer. split; [reflexivity|]. split; [reflexivity|]. vm_compute. discriminate.
    + exists (u "lookup_ip_reputation"), (unavailable (u "invalid_arguments")). split; [reflexivity|].
      split; [reflexivity|]. vm_compute. discriminate.
  - assert (Hcalls : planned_calls [RecordToy.case] =
      map (fun t => (t, ip_arguments (Alert.src_ip (g_alert RecordToy.case)))) EXTERNAL_TOOL_NAMES)
      by (vm_compute; reflexivity).
    intros a b p. rewrite Hcalls. intros Ha Hb. apply list_elem_of_In in Ha, Hb.
    destruct Ha as [<-|[<-|[]]], Hb as [<-|[<-|[]]]; try reflexivity;
      intros Hpa Hpb; vm_compute in Hpa, Hpb; congruence.
  - apply (bool_decide_unpack _). vm_compute. exact I.
  - exact E.
  - vm_compute in E. injection E as <- <-. reflexivity.
  - by left.
  - reflexivity.
  - right. left.
  - reflexivity.
  - right. left.
  - reflexivity.
  - reflexivity.
  - reflexivity.
  - exists r. split; [exact Hr|exact Hp].
Defined.
