(* ===== verification/LabelTool.v ===== *)
(** * LabelTool: the labelling of a golden set by a person

    [evals/label_tool.py] and [evals/label_render.py].  The console is concrete: the lines
    still to be typed, after which [input()] raises [EOFError], and what was shown.  A prompt
    that repeats itself reads one line a turn, so its loop is a recursion on those lines.
    pydantic's parser and serializers, [fromisoformat] and the seeded generator are parameters. *)

From S2P Require Import Prelude Errors Cli Json Datetime Schemas Floats Publish Golden Database Candidates Sample Scoring Gate Reads.
#[local] Open Scope Z_scope.

Definition Quit : exn := OtherException (u "Quit").
Definition is_quit (e : exn) : bool := match e with OtherException n => bool_decide (n = u "Quit") | _ => false end.
Definition EOFError : exn := OtherException (u "EOFError").

(** The console, the file written to ([None]: it is not there) and the readings of the clock. *)
Record desk : Type := Desk {
  typed : list pystr;
  shown : list pystr;
  out_file : option pystr;
  readings : nat
}.

Abbreviation D := (M exn desk).

Definition say (text : pystr) : D unit := fun d =>
  (Ret tt, Desk (typed d) (shown d ++ [text]) (out_file d) (readings d)).
Definition ask (prompt : pystr) : D pystr := fun d =>
  match typed d with
  | [] => (Raise EOFError, Desk [] (shown d ++ [prompt]) (out_file d) (readings d))
  | a :: rest => (Ret a, Desk rest (shown d ++ [prompt]) (out_file d) (readings d))
  end.

(** [while True: answer = read(prompt); ...; write(complaint)]: [accept] is what an answer
    leads to, [None] for another turn. *)
Fixpoint ask_lines {A} (prompt complaint : pystr) (accept : pystr -> option (outcome exn A))
    (lines : list pystr) (d : desk) : outcome exn A * desk :=
  match lines with
  | [] => (Raise EOFError, Desk [] (shown d ++ [prompt]) (out_file d) (readings d))
  | a :: rest =>
      let d' := Desk rest (shown d ++ [prompt]) (out_file d) (readings d) in
      match accept a with
      | Some o => (o, d')
      | None => ask_lines prompt complaint accept rest
                  (Desk rest (shown d' ++ [complaint]) (out_file d) (readings d))
      end
  end.
Definition ask_until {A} prompt complaint (accept : pystr -> option (outcome exn A)) : D A := fun d =>
  ask_lines prompt complaint accept (typed d) d.

(** ** What is shown and asked: [label_render] *)

Definition EM_DASH : pystr := [8212].

(** [f"{x}"] of an optional value. *)
Definition none_or {A} (f : A -> pystr) (x : option A) : pystr := from_option f (u "None") x.

Definition activity_line (e : Alert.CowrieEvent) : option pystr :=
  if bool_decide (Alert.eventid e ∈ Summarize._COMMAND_EVENTS) && bool_decide (Alert.input e <> None)
  then (fun i => u "  $ " ++ i) <$> Alert.input e
  else if bool_decide (Alert.eventid e = u "cowrie.session.file_download") && bool_decide (Alert.url e <> None)
  then (fun x => u "  download " ++ x ++ u " -> " ++ none_or id (Alert.outfile e)) <$> Alert.url e
  else if bool_decide (Alert.eventid e = u "cowrie.session.file_upload")
  then (fun x => u "  upload -> " ++ x) <$> Alert.outfile e
  else None.

Definition tried_username (e : Alert.CowrieEvent) : option pystr :=
  if bool_decide (Alert.eventid e ∈ Summarize._LOGIN_EVENTS) then Alert.username e else None.

Definition render_case (c : Candidate) : pystr :=
  let a := c_alert c in
  let s := Summarize.summarize_session a in
  let usernames := omap tried_username (Alert.events a) in
  py_join [10]
    ([u "case_id=" ++ c_case_id c;
      u "session=" ++ Summarize.s_session_id s ++ u " src_ip=" ++ Summarize.s_src_ip s
        ++ u " sensor=" ++ Summarize.s_sensor s;
      u "connect_time=" ++ none_or isoformat (Summarize.s_connect_time s)
        ++ u " duration_ms=" ++ none_or str_of_Z (Summarize.s_duration_ms s);
      u "client_version=" ++ none_or id (Summarize.client_version s);
      u "login_failed=" ++ str_of_Z (Summarize.login_failed s)
        ++ u " login_success=" ++ str_of_Z (Summarize.login_success s);
      u "command_count=" ++ str_of_Z (Summarize.command_count s)
        ++ u " download_count=" ++ str_of_Z (Summarize.download_count s)
        ++ u " upload_count=" ++ str_of_Z (Summarize.upload_count s);
      []; u "Commands / downloads / uploads:"]
     ++ match omap activity_line (Alert.events a) with [] => [u "  (none)"] | l => l end
     ++ [[]; u "Usernames tried (" ++ str_of_Z (py_len usernames) ++ u "): "
             ++ match usernames with [] => u "(none)" | l => py_join (u ", ") l end]).

Section label.
Context {NU : Numerals} {CM : CaseModel} {JL : JsonLoads} {LZ : LocalZone} {SH : Sha256} {SR : StrRepr}.
(** The readings of [datetime.now(UTC)]. *)
Variable clock : nat -> Z.

(** [answer == "s"] after [strip] and [lower]: no other character folds to one of the two letters used. *)
Definition is_letter (c : Z) (s : pystr) : bool := bool_decide (s = [c]) || bool_decide (s = [c - 32]).

Definition severity_of (answer : pystr) : option (outcome exn (option Z)) :=
  let s := strip answer in
  if is_letter 115 s then Some (Ret None)
  else if is_letter 113 s then Some (Raise Quit)
  else match int_text s with
       | Some n => if (1 <=? n) && (n <=? 5) then Some (Ret (Some n)) else None
       | None => None
       end.
Definition prompt_severity : D (option Z) :=
  ask_until (u "severity (1-5, s=skip, q=quit): ")
    (u "severity must be 1-5, 's' or 'q' " ++ EM_DASH ++ u " try again") severity_of.

Definition menu : list pystr :=
  imap (fun i name => u "  " ++ str_of_Z (Z.of_nat i + 1) ++ u ". " ++ name) STRATA_CATEGORIES.
Definition say_all (lines : list pystr) : D unit := foldM (fun _ l => say l) lines tt.
Definition N_CATEGORIES : pystr := str_of_Z (py_len STRATA_CATEGORIES).
Definition category_of (answer : pystr) : option (outcome exn pystr) :=
  match int_text (strip answer) with
  | Some n => if (0 <=? n - 1) && (n - 1 <? py_len STRATA_CATEGORIES)
              then Ret <$> STRATA_CATEGORIES !! Z.to_nat (n - 1) else None
  | None => None
  end.
Definition prompt_category : D pystr :=
  _ ← say (u "category:");
  _ ← say_all menu;
  ask_until (u "category (1-" ++ N_CATEGORIES ++ u "): ")
    (u "enter a number 1-" ++ N_CATEGORIES ++ u " " ++ EM_DASH ++ u " try again") category_of.

Definition RUBRIC_ROW : pystr := u "6.6".
Definition note_of (answer : pystr) : option (outcome exn pystr) :=
  if substrb RUBRIC_ROW (strip answer) then Some (Ret (strip answer)) else None.
Definition QUOTE : pystr := [34].
Definition prompt_note : D pystr :=
  ask_until (u "note (e.g. " ++ QUOTE ++ [167] ++ u "6.6 sev N: <evidence>" ++ QUOTE ++ u "): ")
    (u "note must cite " ++ QUOTE ++ u "6.6" ++ QUOTE ++ u " (the rubric row) " ++ EM_DASH ++ u " try again") note_of.

(** [answer.split(",")]. *)
Fixpoint split_comma (cur s : pystr) : list pystr :=
  match s with
  | [] => [cur]
  | c :: s' => if c =? 44 then cur :: split_comma [] s' else split_comma (cur ++ [c]) s'
  end.
Definition prompt_tags (c : Candidate) : D (list pystr) :=
  answer ← ask (u "tags (comma-separated"
                ++ (if matches_injection_hint (c_alert c) then u " ('injection' offered)" else []) ++ u "): ");
  mret (List.filter (fun t => negb (bool_decide (t = []))) (map strip (split_comma [] (strip answer)))).

Definition now : D Z := fun d =>
  (Ret (clock (readings d)), Desk (typed d) (shown d) (out_file d) (S (readings d))).

(** [GoldenCase(...)] of a validated alert: the label and the note are validated. *)
Definition new_case (a : Alert.SessionAlert) (severity : Z) (category : pystr) (escalate : bool)
    (note : pystr) (tags : list pystr) (at_ : Z) : outcome exn GoldenCase :=
  l ← make_label severity category escalate;
  if py_len note <? 10 then Raise ValidationError
  else Ret {| g_alert := a; g_label := l; labeler_note := note; g_tags := tags;
              labeled_by := Some human; labeled_at := Some (Datetime at_ (Some 0)) |}.

Definition bool_text (b : bool) : pystr := if b then u "True" else u "False".

Definition prompt_label (c : Candidate) : D (option GoldenCase) :=
  _ ← say (render_case c);
  severity ← prompt_severity;
  match severity with
  | None => mret None
  | Some severity =>
      category ← prompt_category;
      let escalate := 4 <=? severity in
      _ ← say (u "escalate: " ++ bool_text escalate ++ u " (auto-derived, severity >= 4)");
      note ← prompt_note;
      tags ← prompt_tags c;
      at_ ← now;
      case ← lift (new_case (c_alert c) severity category escalate note tags at_);
      mret (Some case)
  end.

(** ** The candidate file *)

(** [SessionAlert.model_validate] of any JSON value, and [datetime.fromisoformat], [None]
    for a [ValueError]. *)
Variable alert_of : json -> outcome exn Alert.SessionAlert.
Variable instant_of : pystr -> option Z.

Definition candidate_error (n : Z) (what : pystr) : exn :=
  ValueError (u "candidate row " ++ str_of_Z n ++ u ": " ++ what).
Definition field (n : Z) (k : pystr) (row : jobj) : outcome exn json :=
  match dget k row with
  | Some v => Ret v
  | None => Raise (candidate_error n (u "missing " ++ str_repr k))
  end.

Definition KNOWN_STRATA : list pystr := STRATA_CATEGORIES ++ [INJECTION_CANDIDATE; UNVERDICTED].
(** [f"{seed}"] of a seed that is no integer. *)
Variable json_text : json -> pystr.
Definition stratum_key (name : pystr) (seed : json) : pystr :=
  match seed with
  | JInt z => stratum_id name z
  | j => take 8 (sha256_text (json_text j ++ u ":" ++ name))
  end.

(** A later name of equal key wins; a list or an object is no key. *)
Definition stratum_of (id seed : json) : outcome exn pystr :=
  match id with
  | JArr _ | JObj _ => Raise TypeError
  | JStr s => Ret (default (u "unknown")
                (dget s (foldl (fun d name => dset (stratum_key name seed) name d) [] KNOWN_STRATA)))
  | _ => Ret (u "unknown")
  end.

Definition text_field (j : json) : outcome exn pystr :=
  match j with JStr s => Ret s | _ => Raise TypeError end.

(** What [Candidate] keeps of a field it does not check. *)
Definition as_text (j : json) : pystr := match j with JStr s => s | j => json_text j end.

Definition load_candidate (n : Z) (line : pystr) : outcome exn Candidate :=
  match json_loads line with
  | None => Raise JSONDecodeError
  | Some (JObj row) =>
      case_id ← field n (u "case_id") row;
      alert_data ← field n (u "alert") row;
      sampled ← field n (u "sampled") row;
      match sampled with
      | JObj sampled =>
          seed ← field n (u "seed") sampled;
          stratum_id_value ← field n (u "stratum_id") sampled;
          alert_id ← field n (u "alert_id") sampled;
          received_at ← field n (u "received_at") sampled;
          stratum ← stratum_of stratum_id_value seed;
          text ← text_field received_at;
          received ← (match instant_of text with Some t => Ret t | None => Raise (ValueError text) end);
          alert ← alert_of alert_data;
          Ret {| c_case_id := as_text case_id; c_alert_id := as_text alert_id; c_received_at := received;
                 c_stratum := stratum; c_alert := alert |}
      | _ => Raise (candidate_error n (u "sampled is not a JSON object"))
      end
  | Some _ => Raise (candidate_error n (u "not a JSON object"))
  end.

Fixpoint load_candidates (n : Z) (lines : list pystr) : outcome exn (list Candidate) :=
  match lines with
  | [] => Ret []
  | line :: lines' =>
      if bool_decide (strip line = []) then load_candidates (n + 1) lines'
      else c ← load_candidate n line; cs ← load_candidates (n + 1) lines'; Ret (c :: cs)
  end.
Definition _load_candidates (text : outcome exn pystr) : outcome exn (list Candidate) :=
  t ← text; load_candidates 1 (splitlines t).

(** ** [label] *)

(** [case.model_dump_json()]. *)
Variable case_json : GoldenCase -> outcome exn pystr.

Definition append (text : pystr) : D unit := fun d =>
  (Ret tt, Desk (typed d) (shown d) (Some (default [] (out_file d) ++ text)) (readings d)).

(** [text.endswith("\n")]. *)
Definition ends_line (text : pystr) : bool := bool_decide (last text = Some 10).

Definition label_one (already : list pystr) (c : Candidate) : D (option bool) :=
  if bool_decide (c_case_id c ∈ already) then mret (Some false)
  else
    try_except
      (case ← prompt_label c;
       match case with
       | None => mret (Some false)
       | Some case => line ← lift (case_json case); _ ← append (line ++ [10]); mret (Some true)
       end)
      (fun e => if is_quit e then Some (mret None) else None).

(** [None] is [break]. *)
Fixpoint label_loop (already : list pystr) (cs : list Candidate) (count : Z) : D Z :=
  match cs with
  | [] => mret count
  | c :: cs' =>
      r ← label_one already c;
      match (r : option bool) with
      | None => mret count
      | Some b => label_loop already cs' (if b then count + 1 else count)
      end
  end.

(** [l[start_at:]]: a negative start counts from the end. *)
Definition from_ {A} (start_at : Z) (l : list A) : list A :=
  if 0 <=? start_at then drop (Z.to_nat start_at) l
  else drop (length l - Z.to_nat (- start_at)) l.

Definition existing_text : D pystr := fun d => (Ret (default [] (out_file d)), d).

Definition label (candidates_text : outcome exn pystr) (start_at : Z) : D Z :=
  all ← lift (_load_candidates candidates_text);
  existing ← existing_text;
  already ← (if bool_decide (strip existing = []) then mret []
             else cases ← lift (load_golden (Ret existing) false); mret (map case_id cases));
  _ ← (if nonempty existing && negb (ends_line existing) then append [10] else mret tt);
  _ ← append [];
  label_loop already (from_ start_at all) 0.

(** ** [rereview] *)

Variable case_dump : GoldenCase -> json.
(** [f"{x:.1f}"]. *)
Variable fixed_one : float -> pystr.
Context {R : Type} {RG : Rng R} {FR : FloatRepr}.

Definition _candidate_from_case (case : GoldenCase) : D Candidate :=
  at_ ← (match labeled_at case with Some d => mret (instant d) | None => now end);
  mret {| c_case_id := case_id case; c_alert_id := case_id case; c_received_at := at_;
          c_stratum := u "rereview"; c_alert := g_alert case |}.

Definition differs (first second : GoldenLabel) : bool :=
  bool_decide (l_severity second <> l_severity first) || bool_decide (Verdict.category_str (l_category second) <> Verdict.category_str (l_category first)).

(** The pairs relabelled; [None] for a break. *)
Definition review_one (case : GoldenCase) : D (option (option GoldenCase)) :=
  c ← _candidate_from_case case;
  try_except (second ← prompt_label c; mret (Some second)) (fun e => if is_quit e then Some (mret None) else None).
Fixpoint review_loop (cases : list GoldenCase) (pairs : list (GoldenCase * GoldenCase))
    : D (list (GoldenCase * GoldenCase)) :=
  match cases with
  | [] => mret pairs
  | case :: cases' =>
      r ← review_one case;
      match (r : option (option GoldenCase)) with
      | None => mret pairs
      | Some None => review_loop cases' pairs
      | Some (Some second) => review_loop cases' (pairs ++ [(case, second)])
      end
  end.

Definition reviewed_cases (cases : list GoldenCase) (fraction : float) (seed : Z) : outcome exn (list GoldenCase) :=
  let k := round_half_even (fmul fraction (flt (py_len cases))) fone in
  if k <? py_len cases then (_draw cases k (rng_seed seed)).1 else Ret cases.

(** The sample relabelled from scratch. *)
Definition relabel (cases : list GoldenCase) (fraction : float) (seed : Z) : D (list (GoldenCase * GoldenCase)) :=
  reviewed ← lift (reviewed_cases cases fraction seed);
  review_loop reviewed [].

Definition review_row (pair : GoldenCase * GoldenCase) : json :=
  JObj [(u "case_id", JStr (case_id pair.1)); (u "first", case_dump pair.1); (u "second", case_dump pair.2)].
Definition write_text (text : pystr) : D unit := fun d => (Ret tt, Desk (typed d) (shown d) (Some text) (readings d)).

Definition disagreements (pairs : list (GoldenCase * GoldenCase)) : Z :=
  count (fun p => differs (g_label p.1) (g_label p.2)) pairs.
Definition rate_of (pairs : list (GoldenCase * GoldenCase)) : float :=
  match pairs with [] => 0 | _ => int_div (disagreements pairs) (py_len pairs) end.
Definition verdict_line (pairs : list (GoldenCase * GoldenCase)) : pystr :=
  let head := u "disagreement " ++ fixed_one (fmul (rate_of pairs) (flt 100)) ++ u " % ("
              ++ str_of_Z (disagreements pairs) ++ u "/" ++ str_of_Z (py_len pairs) ++ u ") " ++ EM_DASH in
  if int_div 1 10 <? rate_of pairs
  then head ++ u " > 10 % " ++ EM_DASH ++ u " fix the rubric and relabel (PRD " ++ [167] ++ u "7.1)"
  else head ++ u " rubric OK".

Definition rereview (golden_text : outcome exn pystr) (fraction : float) (seed : Z) : D float :=
  cases ← lift (load_golden golden_text false);
  pairs ← relabel cases fraction seed;
  lines ← lift (dump_all (map review_row pairs));
  _ ← write_text (py_join [10] lines ++ match pairs with [] => [] | _ => [10] end);
  _ ← say (verdict_line pairs);
  mret (rate_of pairs).

(** ** [stats] *)

Definition labeler_key (c : GoldenCase) : pystr :=
  match labeled_by c with Some human => u "human" | Some ai => u "ai" | None => u "none" end.
Definition lower_band (a b : Z * Z) : Prop := a.1 <= b.1.
#[export] Instance lower_band_dec : RelDecision lower_band.
Proof. intros a b. unfold lower_band. apply _. Defined.
Definition count_line (k : pystr) (n : Z) : pystr := u "  " ++ k ++ u ": " ++ str_of_Z n.

Definition stats (golden_text : outcome exn pystr) : outcome exn pystr :=
  cases ← load_golden golden_text false;
  let category_counts := tally_of (map (fun c => Verdict.category_str (l_category (g_label c))) cases) in
  let severity_counts := tally_of (map (fun c => l_severity (g_label c)) cases) in
  let tag_counts := tally_of (flat_map g_tags cases) in
  let labeled_by_counts := tally_of (map labeler_key cases) in
  Ret (py_join [10]
    ([u "golden-set stats: " ++ str_of_Z (py_len cases) ++ u " row(s)"; []; u "category counts:"]
     ++ omap (fun k => count_line k <$> dget k category_counts) STRATA_CATEGORIES
     ++ [[]; u "severity counts:"]
     ++ map (fun kv => count_line (u "severity " ++ str_of_Z kv.1) kv.2)
          (merge_sort lower_band severity_counts)
     ++ [[]; u "tag counts:"]
     ++ match tag_counts with
        | [] => [u "  (none)"]
        | _ => map (fun kv => count_line kv.1 kv.2) (sort_items tag_counts)
        end
     ++ [[]; u "labeled_by breakdown:"]
     ++ map (fun kv => count_line kv.1 kv.2) (sort_items labeled_by_counts))).

(** ** [main], once the arguments are parsed *)

Inductive command : Type :=
  | Label (candidates_text : outcome exn pystr) (start_at : Z)
  | Rereview (golden_text : outcome exn pystr) (fraction : float) (seed : Z)
  | Stats (golden_text : outcome exn pystr).

Definition io_failure (e : exn) : bool :=
  match e with
  | OSError | TimeoutError | ValueError _ | JSONDecodeError | UnicodeDecodeError | ValidationError => true
  | _ => false
  end.

Definition run_command (cmd : command) : D unit :=
  match cmd with
  | Label text start_at => n ← label text start_at; say (u "labeled " ++ str_of_Z n ++ u " case(s)")
  | Rereview text fraction seed => _ ← rereview text fraction seed; mret tt
  | Stats text => s ← lift (stats text); say s
  end.

(** The exit code and the line on stderr. *)
Definition label_main (cmd : command) : D (Z * option pystr) :=
  try_except (_ ← run_command cmd; mret (0, None))
    (fun e => if io_failure e
              then Some (mret (1, Some (error_line (u "io_error") (exn_name e ++ u ": could not read the file"))))
              else None).
End label.

(** ** Lines appended to a text *)

Lemma lines_from_split cur t s : lines_from cur (t ++ 10 :: s) = lines_from cur (t ++ [10]) ++ lines_from [] s.
Proof.
  enough (H : forall n cur t, (length t <= n)%nat ->
    lines_from cur (t ++ 10 :: s) = lines_from cur (t ++ [10]) ++ lines_from [] s) by (by apply (H (length t))).
  clear. induction n as [|n IH]; intros cur t Hn.
  { destruct t; [|simpl in Hn; lia]. cbn [app]. by rewrite !lines_from_newline. }
  destruct t as [|c t]; [cbn [app]; by rewrite !lines_from_newline|]. cbn [app length] in *.
  cbn [lines_from]. destruct (is_break c); [|apply IH; lia]. cbn [app]. f_equal.
  destruct t as [|d t]; cbn [app length] in *.
  - destruct ((c =? 13) && (10 =? 10)); [done|]. by rewrite !lines_from_newline.
  - destruct ((c =? 13) && (d =? 10)); [apply IH; lia|]. apply (IH [] (d :: t)). cbn [length]. lia.
Qed.

Abbreviation nonblank := (fun l => strip l <> []).

Lemma rows_of_newline t : rows_of (t ++ [10]) = rows_of t.
Proof.
  unfold rows_of, splitlines.
  enough (H : forall n cur t, (length t <= n)%nat ->
    filter nonblank (lines_from cur (t ++ [10])) = filter nonblank (lines_from cur t)) by (by apply (H (length t))).
  clear. induction n as [|n IH]; intros cur t Hn.
  { destruct t; [|simpl in Hn; lia]. by destruct cur. }
  destruct t as [|c t]; [by destruct cur|]. cbn [app length] in *. cbn [lines_from].
  destruct (is_break c); [|apply IH; lia]. rewrite !filter_cons. destruct t as [|d t]; cbn [app length] in *.
  - destruct ((c =? 13) && (10 =? 10)); [done|]. by case_decide.
  - assert (E : filter nonblank (if (c =? 13) && (d =? 10) then lines_from [] (t ++ [10]) else lines_from [] ((d :: t) ++ [10]))
              = filter nonblank (if (c =? 13) && (d =? 10) then lines_from [] t else lines_from [] (d :: t))).
    { case_match; apply IH; cbn [length]; lia. }
    cbn [app] in E. by rewrite E.
Qed.

Definition at_line (t : pystr) : Prop := t = [] \/ ends_line t = true.

Lemma rows_of_line t line :
  at_line t -> unbroken line -> strip line <> [] -> rows_of (t ++ line ++ [10]) = rows_of t ++ [line].
Proof.
  intros Ht Hl Hs.
  assert (Hline : splitlines (line ++ [10]) = [line])
    by (unfold splitlines; rewrite lines_from_app by done; apply lines_from_newline).
  assert (Hf : filter nonblank [line] = [line]) by (rewrite filter_cons, decide_True by done; done).
  destruct Ht as [->|Ht]; [unfold rows_of; cbn [app]; by rewrite Hline|].
  apply bool_decide_eq_true, last_Some in Ht as [t' ->]. unfold rows_of, splitlines at 1.
  rewrite <- (assoc_L (++)). cbn [app]. rewrite lines_from_split, filter_app. f_equal.
  fold (splitlines (line ++ [10])). by rewrite Hline.
Qed.

Lemma lstrip_nil s : lstrip s = [] -> Forall (fun c => is_space c = true) s.
Proof. induction s as [|c s IH]; [constructor|]. cbn [lstrip]. destruct (is_space c) eqn:E; [auto|done]. Qed.
Lemma lstrip_spaces s : Forall (fun c => is_space c = true) s -> lstrip s = [].
Proof. induction 1 as [|c s Hc _ IH]; [done|]. cbn [lstrip]. by rewrite Hc. Qed.
Lemma lstrip_keeps_last s : lstrip s = [] \/ exists p, s = p ++ lstrip s.
Proof.
  induction s as [|c s IH]; [by left|]. cbn [lstrip]. destruct (is_space c); [|right; by exists []].
  destruct IH as [|[p E]]; [by left|]. right. exists (c :: p). cbn [app]. by rewrite <- E.
Qed.
Lemma strip_blank s : strip s = [] <-> Forall (fun c => is_space c = true) s.
Proof.
  unfold strip. split.
  - intros H. apply (f_equal (@rev Z)) in H. rewrite rev_involutive in H. apply lstrip_nil in H.
    apply Forall_rev in H. rewrite rev_involutive in H. destruct s as [|c s]; [constructor|].
    cbn [lstrip] in H. destruct (is_space c) eqn:E; [|by apply Forall_cons in H as [? _]; congruence].
    constructor; [done|]. destruct (lstrip_keeps_last s) as [Hl|[p Hp]]; [by apply lstrip_nil|].
    destruct (lstrip s) as [|d r] eqn:El; [by apply lstrip_nil|].
    apply Forall_cons in H as [Hd _]. clear -El Hd. exfalso. revert El.
    induction s as [|e s IH]; [done|]. cbn [lstrip]. destruct (is_space e) eqn:E; [exact IH|]. congruence.
  - intros H. rewrite (lstrip_spaces s H). done.
Qed.

Lemma lines_from_chars P cur t :
  Forall P cur -> Forall P t -> Forall (Forall P) (lines_from cur t).
Proof.
  enough (H : forall n cur t, (length t <= n)%nat -> Forall P cur -> Forall P t -> Forall (Forall P) (lines_from cur t))
    by (by apply (H (length t))).
  clear. induction n as [|n IH]; intros cur t Hn Hc Ht.
  { destruct t; [|simpl in Hn; lia]. cbn. destruct cur; [constructor|by apply Forall_singleton]. }
  destruct t as [|c t]; [cbn; destruct cur; [constructor|by apply Forall_singleton]|].
  cbn [length] in Hn. apply Forall_cons in Ht as [Hx Ht]. cbn [lines_from]. destruct (is_break c).
  - constructor; [done|]. destruct t as [|d t]; [constructor|]. apply Forall_cons in Ht as [Hd Ht].
    cbn [length] in Hn. case_match; (apply IH; [cbn [length]; lia|constructor|auto]).
  - apply IH; [lia| |done]. apply Forall_app. split; [done|by constructor].
Qed.

Lemma rows_of_blank t : strip t = [] -> rows_of t = [].
Proof.
  intros Ht%strip_blank. unfold rows_of, splitlines.
  pose proof (lines_from_chars _ [] t (List.Forall_nil _) Ht) as Hl.
  induction Hl as [|l ls Hl _ IH]; [done|]. rewrite filter_cons, decide_False; [done|].
  intros H. by apply H, strip_blank.
Qed.

(** ** The rows written *)

(** The texts of a case that are a session's or a labeler's.  Those of the extra fields a
    session may have, which the records here do not keep, count among them. *)
Definition optional_text (x : option pystr) : list pystr := from_option (fun s => [s]) [] x.
Definition event_texts (e : Alert.CowrieEvent) : list pystr :=
  [Alert.eventid e; Alert.session e; Alert.ev_src_ip e; Alert.ev_sensor e; Alert.message e]
  ++ flat_map optional_text [Alert.username e; Alert.password e; Alert.input e; Alert.url e; Alert.outfile e;
                             Alert.shasum e; Alert.version e].
Definition session_texts (a : Alert.SessionAlert) : list pystr :=
  [Alert.source a; Alert.session_id a; Alert.src_ip a; Alert.sensor a] ++ flat_map event_texts (Alert.events a).
Definition case_texts (case : GoldenCase) : list pystr :=
  session_texts (g_alert case) ++ labeler_note case :: g_tags case.

(** U+0085, U+2028 and U+2029: the line breaks of [splitlines] that JSON does not escape. *)
Definition RAW_BREAKS : list Z := [133; 8232; 8233].
Definition unsplit (s : pystr) : Prop := Forall (fun c => c ∉ RAW_BREAKS) s.

(** A [datetime] of [datetime]'s years, its offset of whole minutes. *)
Definition writable_time (d : datetime) : Prop :=
  in_range (local_us d) /\
  forall off, utcoffset d = Some off -> off mod 60000000 = 0 /\ Z.abs off < US_PER_DAY.
Definition valid_session (a : Alert.SessionAlert) : Prop :=
  Alert.validate a = Ret a /\ Forall (fun e => writable_time (Alert.timestamp e)) (Alert.events a).
Definition valid_case (case : GoldenCase) : Prop :=
  valid_session (g_alert case) /\ label_ok (g_label case) /\ 10 <= py_len (labeler_note case) /\
  forall t, labeled_at case = Some t -> writable_time t.
(** What no break splits. *)
Definition plain_session (a : Alert.SessionAlert) : Prop := valid_session a /\ Forall unsplit (session_texts a).
Definition plain_case (case : GoldenCase) : Prop := valid_case case /\ Forall unsplit (case_texts case).

(** [model_dump_json]: a JSON object that validates as the case it was written for; control
    characters are escaped, so what breaks a line in it is one of the three, in some text. *)
Record row_writer `{CaseModel, JsonLoads} (case_json : GoldenCase -> outcome exn pystr) : Prop := {
  rw_reads_back case line : case_json case = Ret line -> valid_case case -> load_case line = Ret case;
  rw_breaks case line c : case_json case = Ret line -> c ∈ line -> is_break c = true ->
    c ∈ RAW_BREAKS /\ exists t, t ∈ case_texts case /\ c ∈ t;
  rw_object case line : case_json case = Ret line -> exists rest, line = 123 :: rest
}.

(** The rows of the plain cases read back, each on one line. *)
Definition rows_read_back `{CaseModel, JsonLoads} (case_json : GoldenCase -> outcome exn pystr) : Prop :=
  forall case line, case_json case = Ret line -> plain_case case ->
  load_case line = Ret case /\ unbroken line /\ strip line <> [].

Lemma row_writer_reads_back `{CaseModel, JsonLoads} case_json : row_writer case_json -> rows_read_back case_json.
Proof.
  intros Hw case line E [Hv Ht]. split_and!.
  - by eapply rw_reads_back.
  - apply Forall_forall. intros c Hc. destruct (is_break c) eqn:Eb; [|done]. exfalso.
    destruct (rw_breaks _ Hw case line c E Hc Eb) as (Hraw & t & Hin & Hct).
    rewrite Forall_forall in Ht. specialize (Ht t Hin). unfold unsplit in Ht. rewrite Forall_forall in Ht. by apply (Ht c).
  - destruct (rw_object _ Hw case line E) as [rest ->]. intros H1%strip_blank. apply Forall_cons in H1 as [H1 _].
    by vm_compute in H1.
Qed.

Lemma lstrip_Forall P s : Forall P s -> Forall P (lstrip s).
Proof. induction 1 as [|c s Hc Hs IH]; [constructor|]. cbn [lstrip]. destruct (is_space c); [done|by constructor]. Qed.
Lemma strip_Forall P s : Forall P s -> Forall P (strip s).
Proof. intros H. unfold strip. apply Forall_rev, lstrip_Forall, Forall_rev, lstrip_Forall, H. Qed.
Lemma split_comma_Forall P cur s : Forall P cur -> Forall P s -> Forall (Forall P) (split_comma cur s).
Proof.
  intros Hc Hs. revert cur Hc. induction Hs as [|c s Hx _ IH]; intros cur Hc; cbn [split_comma]; [by apply Forall_singleton|].
  destruct (c =? 44); [constructor; [done|by apply IH; constructor]|]. apply IH, Forall_app. split; [done|by apply Forall_singleton].
Qed.

(** ** A dialogue *)

Section dialogue.
Context {NU : Numerals} {CM : CaseModel} {JL : JsonLoads} {LZ : LocalZone} {SH : Sha256} {SR : StrRepr}.
Variable clock : nat -> Z.

(** The first line a prompt takes, the ones before it refused. *)
Definition answered_by {A} (accept : pystr -> option (outcome exn A)) (lines : list pystr) (o : outcome exn A)
    (rest : list pystr) : Prop :=
  exists refused a, lines = refused ++ a :: rest /\ Forall (fun l => accept l = None) refused /\ accept a = Some o.

Lemma ask_until_spec {A} prompt complaint (accept : pystr -> option (outcome exn A)) d :
  let '(o, d') := ask_until prompt complaint accept d in
  out_file d' = out_file d /\ readings d' = readings d /\
  (answered_by accept (typed d) o (typed d') \/
   (o = Raise EOFError /\ typed d' = [] /\ Forall (fun l => accept l = None) (typed d))).
Proof.
  unfold ask_until. enough (H : forall lines d,
    let '(o, d') := ask_lines prompt complaint accept lines d in
    out_file d' = out_file d /\ readings d' = readings d /\
    (answered_by accept lines o (typed d') \/
     (o = Raise EOFError /\ typed d' = [] /\ Forall (fun l => accept l = None) lines))) by apply H.
  clear. induction lines as [|a lines IH]; intros d; cbn [ask_lines].
  { split_and!; try done. by right. }
  destruct (accept a) as [o|] eqn:Ea.
  { split_and!; try done. left. by exists [], a. }
  specialize (IH (Desk lines ((shown d ++ [prompt]) ++ [complaint]) (out_file d) (readings d))).
  cbn [shown] in *. destruct (ask_lines _ _ _ _ _) as [o d'].
  destruct IH as (Ho & Hr & H). split_and!; try done.
  destruct H as [(refused & b & -> & Hf & Hb)|(-> & Ht & Hf)].
  - left. exists (a :: refused), b. split_and!; try done. by constructor.
  - right. split_and!; try done. by constructor.
Qed.

Lemma say_all_spec lines d :
  say_all lines d = (Ret tt, Desk (typed d) (shown d ++ lines) (out_file d) (readings d)).
Proof.
  unfold say_all. revert d. induction lines as [|l lines IH]; intros d; cbn [foldM].
  { unfold mret, M_ret. rewrite app_nil_r. by destruct d. }
  unfold mbind, M_bind, say at 1. rewrite IH. cbn [typed shown out_file readings].
  by rewrite <- (assoc_L (++)).
Qed.

Lemma make_label_typed n name :
  1 <= n <= 5 -> name ∈ STRATA_CATEGORIES ->
  exists cat, Verdict.category_str cat = name /\
    make_label n name (4 <=? n) = Ret {| l_severity := n; l_category := cat; l_escalate := 4 <=? n |}.
Proof.
  intros Hn Hname.
  assert (exists cat, dget name Verdict.category_literals = Some cat) as [cat Hcat].
  { revert Hname. unfold STRATA_CATEGORIES. cbn [map].
    rewrite !elem_of_cons. intros H. repeat destruct H as [->|H]; try (by eexists). by apply not_elem_of_nil in H. }
  exists cat. split; [symmetry; by apply Verdict.category_literals_inv|].
  unfold make_label. rewrite Hcat. rewrite (proj2 (andb_true_iff _ _)) by (split; apply Z.leb_le; lia).
  unfold label_escalate_required_for_high_severity. cbn [l_severity l_escalate]. by destruct (4 <=? n).
Qed.

(** What each prompt accepts. *)
Lemma severity_accepted lines o rest :
  answered_by severity_of lines o rest ->
  o = Ret None \/ o = Raise Quit \/ exists n, o = Ret (Some n) /\ 1 <= n <= 5.
Proof.
  intros (? & a & _ & _ & Hacc). unfold severity_of in Hacc.
  repeat case_match; simplify_eq; auto. py_reflect. right. right. eexists. split; [done|]. lia.
Qed.
Lemma category_accepted lines o rest :
  answered_by category_of lines o rest -> exists name, o = Ret name /\ name ∈ STRATA_CATEGORIES.
Proof.
  intros (? & a & _ & _ & Hacc). unfold category_of in Hacc.
  destruct (int_text (strip a)); [|done]. destruct (_ && _); [|done].
  destruct (STRATA_CATEGORIES !! _) as [nm|] eqn:El; [|done]. injection Hacc as <-.
  exists nm. split; [done|]. by eapply list_elem_of_lookup_2.
Qed.
Lemma note_accepted lines o rest :
  answered_by note_of lines o rest -> exists a, a ∈ lines /\ o = Ret (strip a) /\ substrb RUBRIC_ROW (strip a) = true.
Proof.
  intros (r & a & -> & _ & Hacc). unfold note_of in Hacc. destruct (substrb _ _) eqn:Es; [|done].
  exists a. split; [|split; [congruence|done]]. rewrite elem_of_app. right. by left.
Qed.
Lemma answered_rest {A} (accept : pystr -> option (outcome exn A)) lines o rest a :
  answered_by accept lines o rest -> a ∈ rest -> a ∈ lines.
Proof. intros (r & b & -> & _) Ha. rewrite elem_of_app, elem_of_cons. tauto. Qed.

(** A case is what was typed: the number at the severity prompt, the category whose number
    was typed, escalation exactly from band four, the note (which cites the rubric), the tags,
    read in that order past the refused lines, and the mark of a human. *)
Definition typed_case (a : Alert.SessionAlert) (case : GoldenCase) (lines rest : list pystr) : Prop :=
  exists n name note t1 t2 line,
    answered_by severity_of lines (Ret (Some n)) t1 /\ 1 <= n <= 5 /\
    answered_by category_of t1 (Ret name) t2 /\ answered_by note_of t2 (Ret note) (line :: rest) /\
    g_tags case = List.filter (fun t => negb (bool_decide (t = []))) (map strip (split_comma [] (strip line))) /\
    g_alert case = a /\ labeler_note case = note /\ labeled_by case = Some human /\
    label_ok (g_label case) /\ l_severity (g_label case) = n /\
    Verdict.category_str (l_category (g_label case)) = name /\ l_escalate (g_label case) = (4 <=? n) /\
    10 <= py_len note /\ exists i, labeled_at case = Some (Datetime (clock i) (Some 0)).

(** How a dialogue ends without a label. *)
Definition gives_up (e : exn) (lines : list pystr) : Prop :=
  e = Quit \/ e = EOFError \/
  (e = ValidationError /\ exists a, a ∈ lines /\ substrb RUBRIC_ROW (strip a) = true /\ py_len (strip a) < 10).

Lemma prompt_label_spec c d :
  let '(o, d') := prompt_label clock c d in
  out_file d' = out_file d /\
  match o with
  | Ret None => answered_by severity_of (typed d) (Ret None) (typed d')
  | Ret (Some case) => typed_case (c_alert c) case (typed d) (typed d')
  | Raise e => gives_up e (typed d)
  end.
Proof.
  unfold prompt_label. m_unfold. unfold say at 1. unfold prompt_severity at 1.
  pose proof (ask_until_spec (u "severity (1-5, s=skip, q=quit): ")
    (u "severity must be 1-5, 's' or 'q' " ++ EM_DASH ++ u " try again") severity_of
    (Desk (typed d) (shown d ++ [render_case c]) (out_file d) (readings d))) as Hs.
  destruct (ask_until _ _ severity_of _) as [o1 d1]. cbn [typed out_file readings] in Hs.
  destruct Hs as (Hout1 & _ & [Ha1|(-> & _)]); [|by split; [|right; left]].
  destruct (severity_accepted _ _ _ Ha1) as [->|[->|(n & -> & Hn)]]; [by split|by split; [|left]|].
  unfold prompt_category. m_unfold. unfold say at 1. rewrite say_all_spec. cbn [typed shown out_file readings].
  match goal with |- context [ask_until ?p ?q category_of ?x] =>
    pose proof (ask_until_spec p q category_of x) as Hc; destruct (ask_until p q category_of x) as [o2 d2] end.
  cbn [typed out_file readings] in Hc. destruct Hc as (Hout2 & _ & [Ha2|(-> & _)]);
    [|split; [congruence|]; by right; left].
  destruct (category_accepted _ _ _ Ha2) as (name & -> & Hname).
  unfold say at 1. unfold prompt_note at 1.
  match goal with |- context [ask_until ?p ?q note_of ?x] =>
    pose proof (ask_until_spec p q note_of x) as Hno; destruct (ask_until p q note_of x) as [o3 d3] end.
  cbn [typed out_file readings] in Hno. destruct Hno as (Hout3 & _ & [Ha3|(-> & _)]);
    [|split; [congruence|]; by right; left].
  destruct (note_accepted _ _ _ Ha3) as (a & Hin & -> & Hsub).
  apply (answered_rest _ _ _ _ _ Ha2), (answered_rest _ _ _ _ _ Ha1) in Hin.
  unfold prompt_tags, ask, now. m_unfold. destruct (typed d3) as [|line rest] eqn:Et3.
  { split; [cbn [out_file]; congruence|]. by right; left. }
  cbn [typed shown out_file readings]. unfold lift, new_case, mbind, outcome_bind.
  destruct (make_label_typed n name Hn Hname) as (cat & Hcat & ->).
  destruct (py_len (strip a) <? 10) eqn:El; cbn [out_file typed].
  { split; [congruence|]. right. right. split; [done|]. exists a. apply Z.ltb_lt in El. done. }
  split; [congruence|].
  exists n, name, (strip a), (typed d1), (typed d2), line.
  cbn [g_alert g_label labeler_note g_tags labeled_by l_severity l_category l_escalate].
  assert (Hok : label_ok {| l_severity := n; l_category := cat; l_escalate := 4 <=? n |})
    by (split; cbn [l_severity l_escalate]; [done|intros; by apply Z.leb_le]).
  do 12 (split; [done|]). cbn [labeled_at]. apply Z.ltb_ge in El. split; [done|]. by eexists.
Qed.

(** ** The file *)

Variable alert_of : json -> outcome exn Alert.SessionAlert.
Variable instant_of : pystr -> option Z.
Variable json_text : json -> pystr.
Variable case_json : GoldenCase -> outcome exn pystr.

(** A golden text and its cases. *)
Definition loaded (t : pystr) (cases : list GoldenCase) : Prop :=
  Forall2 (fun line c => load_case line = Ret c) (rows_of t) cases /\ NoDup (map case_id cases).

Lemma loaded_spec t cases : load_golden (Ret t) false = Ret cases <-> loaded t cases.
Proof.
  unfold load_golden, mbind, outcome_bind, loaded. rewrite load_rows_iff by (simpl; done). split.
  - intros (new & -> & Hf & _ & Hnd & _). done.
  - intros [Hf Hnd]. exists cases. split_and!; try done. by intros c _ ?%not_elem_of_nil.
Qed.

(** What a person types without one of the three breaks about a plain session is plain. *)
Lemma typed_case_plain a case lines rest :
  (forall n, in_range (clock n)) -> plain_session a -> Forall unsplit lines -> typed_case a case lines rest -> plain_case case.
Proof.
  intros Hclock [Ha Ht] Hlines (n & nm & nt & t1 & t2 & ln & H1 & _ & H2 & H3 & Htags & <- & Hnote & _ & Hok & _ & _ & _ & Hlen & i & Hat).
  assert (Hsub : forall l, l ∈ t2 -> unsplit l).
  { intros l Hl. rewrite Forall_forall in Hlines. apply Hlines. by eapply answered_rest, answered_rest; eauto. }
  split; [split_and!; [done|done|by rewrite Hnote|]|].
  - intros t. rewrite Hat. intros [= <-]. split; [apply Hclock|]. by intros off [= <-].
  - unfold case_texts. apply Forall_app. split; [done|]. rewrite Htags. constructor.
    + rewrite Hnote. destruct (note_accepted _ _ _ H3) as (b & Hb & [= ->] & _). by apply strip_Forall, Hsub.
    + assert (Hln : unsplit ln) by (apply Hsub; eapply answered_rest; [exact H3|left]).
      apply Forall_forall. intros tag Htag%list_elem_of_In. apply filter_In in Htag as [Htag _].
      apply in_map_iff in Htag as (p & <- & Hp). apply strip_Forall.
      pose proof (split_comma_Forall _ [] (strip ln) (List.Forall_nil _) (strip_Forall _ _ Hln)) as Hs.
      rewrite Forall_forall in Hs. by apply Hs, list_elem_of_In.
Qed.

(** The identity of a candidate is its alert's. *)
Definition identified (c : Candidate) : Prop := c_case_id c = default [] (Alert.fingerprint (c_alert c)).

Definition suffix_typed (d : desk) (lines : list pystr) : Prop := exists before, typed d = before ++ lines.
Lemma answered_suffix {A} (accept : pystr -> option (outcome exn A)) lines o rest :
  answered_by accept lines o rest -> exists before, lines = before ++ rest.
Proof. intros (r & a & -> & _). exists (r ++ [a]). by rewrite <- (assoc_L (++)). Qed.
Lemma typed_suffix a case lines rest : typed_case a case lines rest -> exists before, lines = before ++ rest.
Proof.
  intros (n & name & note & t1 & t2 & line & H1 & _ & H2 & H3 & _).
  apply answered_suffix in H1 as [b1 ->], H2 as [b2 ->], H3 as [b3 ->].
  exists (b1 ++ b2 ++ b3 ++ [line]). by rewrite <- !(assoc_L (++)).
Qed.

(** What one candidate may add to the file. *)
Definition added (c : Candidate) (d d' : desk) (new : list GoldenCase) : Prop :=
  match new with
  | [] => out_file d' = out_file d
  | [case] => exists line, case_json case = Ret line /\
      out_file d' = Some (default [] (out_file d) ++ line ++ [10]) /\
      typed_case (c_alert c) case (typed d) (typed d')
  | _ => False
  end.

Lemma label_one_spec already c d :
  let '(o, d') := label_one clock case_json already c d in
  exists new, added c d d' new /\
    (new <> [] -> c_case_id c ∉ already) /\
    (forall b, o = Ret b -> (b = Some true <-> new <> []) /\ (exists before, typed d = before ++ typed d' \/ b = None)).
Proof.
  unfold label_one. case_bool_decide as Hin.
  { exists []. split; [done|]. split; [done|]. intros b [= <-]. split; [by split|]. exists []. by left. }
  unfold try_except. m_unfold. pose proof (prompt_label_spec c d) as Hp.
  destruct (prompt_label clock c d) as [[[case|]|e] d1]; destruct Hp as [Hout Hcase].
  - unfold lift. destruct (case_json case) as [line|e] eqn:Ej.
    + unfold append. exists [case]. split; [|split; [done|]].
      * exists line. cbn [out_file typed]. by rewrite Hout.
      * intros b [= <-]. split; [by split|]. destruct (typed_suffix _ _ _ _ Hcase) as [before E].
        exists before. by left.
    + destruct (is_quit e); exists []; (split; [done|]; split; [done|]); intros b; [|done]. intros [= <-].
      split; [by split|]. exists []. by right.
  - exists []. split; [done|]. split; [done|]. intros b [= <-]. split; [by split|].
    destruct (answered_suffix _ _ _ _ Hcase) as [before E]. exists before. by left.
  - destruct (is_quit e); exists []; (split; [done|]; split; [done|]); intros b; [|done]. intros [= <-].
    split; [by split|]. exists []. by right.
Qed.


Definition file (d : desk) : pystr := default [] (out_file d).
Abbreviation unlabelled already := (fun k => k ∉ already).

(** What a run adds: cases of distinct candidates not yet labelled, in file order, each typed
    during the run. *)
Definition extends (already : list pystr) (cs : list Candidate) (cases : list GoldenCase) (d d' : desk)
    (new : list GoldenCase) : Prop :=
  (exists tail, file d' = file d ++ tail) /\ loaded (file d') (cases ++ new) /\ at_line (file d') /\
  map case_id new `sublist_of` filter (unlabelled already) (map c_case_id cs) /\
  Forall (fun case => exists c lines rest, c ∈ cs /\ suffix_typed d lines /\
            typed_case (c_alert c) case lines rest) new.

Lemma loaded_line t cases case line :
  at_line t -> loaded t cases -> load_case line = Ret case -> unbroken line -> strip line <> [] ->
  case_id case ∉ map case_id cases -> loaded (t ++ line ++ [10]) (cases ++ [case]) /\ at_line (t ++ line ++ [10]).
Proof.
  intros Hat [Hf Hnd] Hl Hu Hs Hni. split.
  - split; [rewrite rows_of_line by done; apply Forall2_app; [done|by repeat constructor]|].
    rewrite map_app. apply NoDup_app. split_and!; [done| |apply NoDup_singleton].
    intros k Hk ->%list_elem_of_singleton. done.
  - right. apply bool_decide_eq_true. by rewrite (assoc_L (++)), last_snoc.
Qed.

Lemma typed_case_id c case lines rest :
  identified c -> typed_case (c_alert c) case lines rest -> case_id case = c_case_id c.
Proof. intros -> (n & nm & nt & t1 & t2 & ln & _ & _ & _ & _ & _ & <- & _). done. Qed.

Lemma label_loop_spec already cs count d cases :
  rows_read_back case_json -> (forall n, in_range (clock n)) ->
  (forall c, c ∈ cs -> plain_session (c_alert c) /\ identified c) -> Forall unsplit (typed d) ->
  NoDup (map c_case_id cs) ->
  (forall c, c ∈ cs -> c_case_id c ∉ already -> c_case_id c ∉ map case_id cases) ->
  at_line (file d) -> loaded (file d) cases ->
  let '(o, d') := label_loop clock case_json already cs count d in
  exists new, extends already cs cases d d' new /\ (forall n, o = Ret n -> n = count + py_len new).
Proof.
  intros Hrows Hclock. revert count d cases. induction cs as [|c cs IH]; intros count d cases Hcs Htyped Hnd Hnew Hat Hload.
  { exists []. split; [|intros n [= <-]; unfold py_len; cbn [length]; lia]. unfold extends. rewrite app_nil_r.
    split_and!; try done; by exists []; rewrite app_nil_r. }
  cbn [label_loop]. m_unfold. pose proof (label_one_spec already c d) as Hone.
  destruct (label_one clock case_json already c d) as [o d1]. destruct Hone as (new1 & Hadd & Hal & Hb).
  apply NoDup_cons in Hnd as [Hni Hnd]. destruct (Hcs c ltac:(by left)) as [Halert Hid].
  assert (H1 : extends already [c] cases d d1 new1).
  { destruct new1 as [|case [|? ?]]; [| |done].
    - assert (Hf : file d1 = file d) by (unfold file; cbn [added] in Hadd; by rewrite Hadd).
      unfold extends. rewrite Hf, (app_nil_r cases). cbn [map].
      split_and!; try done; [exists []; by rewrite app_nil_r|apply sublist_nil_l].
    - destruct Hadd as (line & Hj & Hout & Hty). pose proof (typed_case_id _ _ _ _ Hid Hty) as Hcid.
      destruct (Hrows case line Hj) as (Hl & Hu & Hs);
        [by eapply typed_case_plain|].
      assert (Hf : file d1 = file d ++ line ++ [10]) by (unfold file; by rewrite Hout).
      destruct (loaded_line (file d) cases case line Hat Hload Hl Hu Hs) as [Hld Hat1];
        [rewrite Hcid; apply Hnew; [by left|by apply Hal]|].
      unfold extends. rewrite Hf. split_and!; try done; [by eexists| |].
      + cbn [map]. rewrite Hcid, filter_cons, decide_True by (by apply Hal). done.
      + apply Forall_singleton. exists c, (typed d), (typed d1). split; [by left|]. split; [by exists []|done]. }
  destruct H1 as ([tail1 Ht1] & Hload1 & Hat1 & Hsub1 & Hty1).
  assert (Hstop : forall o' : outcome exn Z, (forall n, o' = Ret n -> n = count + py_len new1) ->
    exists new, extends already (c :: cs) cases d d1 new /\ (forall n : Z, o' = Ret n -> n = count + py_len new)).
  { intros o' Ho'. exists new1. split; [|done]. split_and!; try done; [by exists tail1| |].
    - etrans; [exact Hsub1|]. cbn [map]. rewrite !filter_cons. case_decide; [|apply sublist_nil_l].
      apply sublist_skip, sublist_nil_l.
    - eapply Forall_impl; [exact Hty1|]. intros case (c' & l & r & ->%list_elem_of_singleton & H). exists c, l, r. split; [by left|done]. }
  destruct o as [[b|]|e]; [|apply Hstop..].
  2: { intros n [= <-]. destruct (Hb None eq_refl) as [[_ Hnone] _].
       destruct new1; [unfold py_len; cbn [length]; lia|]. by discriminate Hnone. }
  2: done.
  destruct (Hb (Some b) eq_refl) as [Hbn [before [Hbefore|?]]]; [|done].
  specialize (IH (if b then count + 1 else count) d1 (cases ++ new1)).
  destruct (label_loop clock case_json already cs (if b then count + 1 else count) d1) as [o2 d2].
  destruct IH as (new2 & ([tail2 Ht2] & Hload2 & Hat2 & Hsub2 & Hty2) & Hn2); try done.
  - intros c' Hc'. apply Hcs. by right.
  - rewrite Hbefore in Htyped. by apply Forall_app in Htyped as [_ ?].
  - intros c' Hc' Hal'. rewrite map_app, elem_of_app. intros [Hin|Hin]; [apply (Hnew c'); [by right|done..]|].
    pose proof (sublist_submseteq _ _ Hsub1) as Hs. apply (elem_of_submseteq _ _ _ Hin) in Hs.
    apply list_elem_of_filter in Hs as [_ Hs]. cbn [map] in Hs. apply list_elem_of_singleton in Hs.
    apply Hni. rewrite <- Hs. by apply (list_elem_of_fmap_2 c_case_id cs c').
  - exists (new1 ++ new2). split.
    + rewrite <- (assoc_L (++)) in Hload2. split_and!; try done.
      * exists (tail1 ++ tail2). by rewrite Ht2, Ht1, (assoc_L (++)).
      * rewrite map_app. change (map c_case_id (c :: cs)) with (map c_case_id [c] ++ map c_case_id cs).
        rewrite filter_app. by apply sublist_app.
      * apply Forall_app. split.
        -- eapply Forall_impl; [exact Hty1|]. intros case (c' & l & r & ->%list_elem_of_singleton & H).
           exists c, l, r. split; [by left|done].
        -- eapply Forall_impl; [exact Hty2|]. intros case (c' & l & r & Hin & [b2 Hs] & H).
           exists c', l, r. split; [by right|]. split; [|done]. exists (before ++ b2).
           by rewrite Hbefore, Hs, (assoc_L (++)).
    + intros n Hn. rewrite (Hn2 n Hn). unfold py_len. rewrite length_app.
      destruct b; [destruct new1 as [|? [|? ?]]; [by destruct Hbn as [Hbn _]; destruct (Hbn eq_refl)|cbn [length]; lia|done]|].
      destruct new1; [cbn [length]; lia|]. destruct Hbn as [_ Hbn]. by discriminate (Hbn ltac:(done)).
Qed.


Lemma from_sublist {A} start_at (l : list A) : from_ start_at l `sublist_of` l.
Proof. unfold from_. case_match; apply sublist_drop. Qed.

Lemma loaded_newline t cases : loaded t cases -> loaded (t ++ [10]) cases.
Proof. intros [H ?]. split; [by rewrite rows_of_newline|done]. Qed.

End dialogue.

(** ** Relabelling is blind *)

Section blind.
Context {NU : Numerals} {CM : CaseModel} {JL : JsonLoads} {LZ : LocalZone} {SH : Sha256} {SR : StrRepr}
        {R : Type} {RG : Rng R}.
Variable clock : nat -> Z.

(** The same session, labelled at the same time: the labels, notes and tags may differ. *)
Definition alike (a b : GoldenCase) : Prop := g_alert a = g_alert b /\ labeled_at a = labeled_at b.

Definition same_review (a b : outcome exn (list (GoldenCase * GoldenCase)) * desk) : Prop :=
  a.2 = b.2 /\
  match a.1, b.1 with
  | Ret p, Ret q => map snd p = map snd q /\ Forall2 alike (map fst p) (map fst q)
  | Raise e, Raise f => e = f
  | _, _ => False
  end.

Lemma review_one_blind a b d : alike a b -> review_one clock a d = review_one clock b d.
Proof.
  intros [Ha Ht]. unfold review_one, _candidate_from_case, case_id. by rewrite Ha, Ht.
Qed.

Lemma review_loop_blind cs1 cs2 p1 p2 d :
  Forall2 alike cs1 cs2 -> map snd p1 = map snd p2 -> Forall2 alike (map fst p1) (map fst p2) ->
  same_review (review_loop clock cs1 p1 d) (review_loop clock cs2 p2 d).
Proof.
  intros Hcs. revert p1 p2 d. induction Hcs as [|a b cs1 cs2 Hab _ IH]; intros p1 p2 d Hs Hf; [by split|].
  cbn [review_loop]. unfold mbind, M_bind. rewrite (review_one_blind a b d Hab).
  destruct (review_one clock b d) as [[[[second|]|]|e] d1]; [|by apply IH|by split|by split].
  apply IH; rewrite !map_app; [by rewrite Hs|]. apply Forall2_app; [done|]. by apply Forall2_cons_2, Forall2_nil_2.
Qed.

Lemma picked_alike (l1 l2 : list GoldenCase) ps : Forall2 alike l1 l2 -> Forall2 alike (picked l1 ps) (picked l2 ps).
Proof.
  intros H. unfold picked. induction ps as [|i ps IH]; [constructor|]. cbn [omap list_omap].
  destruct (l1 !! i) as [x|] eqn:E1.
  - destruct (Forall2_lookup_l _ _ _ _ _ H E1) as (y & -> & Hxy). by constructor.
  - apply lookup_ge_None in E1. rewrite (Forall2_length _ _ _ H) in E1. apply lookup_ge_None in E1. by rewrite E1.
Qed.

(** A second labelling owes nothing to the first: over two golden sets of the same sessions whose
    labels, notes and tags differ at will, the same person typing the same lines is shown the
    same text, is asked the same questions and makes the same labels of the same sessions. *)
Theorem relabel_blind cs1 cs2 fraction seed d :
  Forall2 alike cs1 cs2 ->
  same_review (relabel clock cs1 fraction seed d) (relabel clock cs2 fraction seed d).
Proof.
  intros H. unfold relabel, reviewed_cases, _draw. assert (Hl : py_len cs1 = py_len cs2)
    by (unfold py_len; by rewrite (Forall2_length _ _ _ H)).
  rewrite <- Hl, <- (Forall2_length _ _ _ H). m_unfold.
  repeat case_match; simplify_eq/=; try (by split); apply review_loop_blind; try done. by apply picked_alike.
Qed.
End blind.

(** ** One candidate, and one to skip *)

Module LabelToy.
#[export] Instance sha : Sha256 := fun s => s.
#[export] Instance zone : LocalZone := fun _ => 0.
#[export] Instance str_reprs : StrRepr := fun s => s.
Definition session (id : pystr) : Alert.SessionAlert :=
  Alert.toy_alert id [Alert.toy_event Alert.CONNECT 0; Alert.toy_event Alert.CLOSED 5].
Definition note : pystr := u "6.6 sev 3: scan".
Definition expected : GoldenCase :=
  {| g_alert := session (u "a"); g_label := {| l_severity := 3; l_category := Verdict.other; l_escalate := false |};
     labeler_note := note; g_tags := []; labeled_by := Some human; labeled_at := Some (Datetime 7 (Some 0)) |}.
Definition row (id : pystr) : json :=
  JObj [(u "case_id", JStr (default [] (Alert.fingerprint (session id)))); (u "alert", JStr id);
        (u "sampled", JObj [(u "seed", JInt 1); (u "stratum_id", JStr (u "x")); (u "alert_id", JStr id);
                            (u "received_at", JStr (u "now"))])].
#[export] Instance loads : JsonLoads := fun s =>
  if bool_decide (s = u "a") then Some (row (u "a")) else if bool_decide (s = u "b") then Some (row (u "b"))
  else Some (JObj []).
Definition alert_of (j : json) : outcome exn Alert.SessionAlert :=
  match j with JStr s => Ret (session s) | _ => Raise ValidationError end.
#[export] Instance model : CaseModel := {
  case_coerce _ := Some {| cf_alert := session (u "a"); cf_severity := 3; cf_category := u "other";
    cf_escalate := false; cf_note := note; cf_tags := []; cf_labeled_by := Some (u "human");
    cf_labeled_at := Some (Datetime 7 (Some 0)) |};
  row_error _ := u "bad row"
}.
#[export] Instance event_eq_dec : EqDecision Alert.CowrieEvent.
Proof. solve_decision. Defined.
#[export] Instance session_eq_dec : EqDecision Alert.SessionAlert.
Proof. solve_decision. Defined.
#[export] Instance case_eq_dec : EqDecision GoldenCase.
Proof. solve_decision. Defined.
(** Only the label typed below is written. *)
Definition case_json (c : GoldenCase) : outcome exn pystr :=
  if decide (c = expected) then Ret (u "{}") else Raise TypeError.
Definition candidates : outcome exn pystr := Ret (u "b" ++ [10] ++ u "a" ++ [10]).
Definition at_desk : desk :=
  {| typed := [u "s"; u "9"; u "3"; u "7"; note; []]; shown := []; out_file := None; readings := 0 |}.

Lemma writer : row_writer case_json.
Proof.
  split; intros case line; unfold case_json; destruct (decide (case = expected)) as [->|]; try discriminate.
  - intros [= <-] _. vm_compute. reflexivity.
  - intros c [= <-] Hc. vm_compute in Hc. repeat (apply elem_of_cons in Hc as [->|Hc]; [discriminate|]).
    by apply not_elem_of_nil in Hc.
  - intros [= <-]. by eexists.
Qed.
Lemma plain id : Alert.validate (session id) = Ret (session id) -> unsplit id -> plain_session (session id).
Proof.
  intros Hv Hid. split; [split; [exact Hv|]|].
  - repeat (constructor; [split; [vm_compute; split; discriminate|intros off [= <-]; vm_compute; split; reflexivity]|]).
    constructor.
  - unfold session_texts. cbn. repeat (constructor; [first [exact Hid|apply (bool_decide_unpack _); vm_compute; exact I]|]).
    constructor.
Qed.
Lemma plain_both : Forall plain_session [session (u "b"); session (u "a")].
Proof.
  constructor; [|constructor; [|constructor]]; apply plain; try (vm_compute; reflexivity);
    unfold unsplit; apply (bool_decide_unpack _); vm_compute; exact I.
Qed.
End LabelToy.


(** Two first labels of one session. *)
Lemma relabel_blind_witness :
  @same_review
    (@relabel BaselineToy.numerals LabelToy.zone LabelToy.sha (fun _ => 7) _ SampleToy.rng [LabelToy.expected] fone 1 LabelToy.at_desk)
    (@relabel BaselineToy.numerals LabelToy.zone LabelToy.sha (fun _ => 7) _ SampleToy.rng
       [{| g_alert := g_alert LabelToy.expected;
           g_label := {| l_severity := 5; l_category := Verdict.scanning; l_escalate := true |};
           labeler_note := []; g_tags := [u "injection"]; labeled_by := Some ai;
           labeled_at := labeled_at LabelToy.expected |}] fone 1 LabelToy.at_desk).
Proof.
  apply (@relabel_blind BaselineToy.numerals LabelToy.zone LabelToy.sha _ SampleToy.rng).
  constructor; [split; reflexivity|constructor].
Defined.
