(* ===== verification/Boot.v ===== *)
(** * Boot: the configuration and the worker it starts

    [core/config.py], the fail-fast checks of [worker/main.py] and [api/main.py], the
    worker's [startup] and [shutdown], [worker/tools/wiring.py], the two [from_settings] of the worker,
    [api/factory.py]'s [create_app] and [api/routes/health.py].  Reading the environment
    and coercing its texts are pydantic's: a [Settings] here is the coerced fields, which
    [Settings_init] validates.  Floats are finite. *)

From S2P Require Import Prelude Errors Cache Json Datetime Migration Schemas Llm Prompts Budget Policy ToolBase Tools Floats Database History Triage TriageFacts TriageFrame Job Stream Api LabelTool.
#[local] Open Scope Z_scope.

(** ** [core/config.py] *)

Record Settings : Type := {
  llm_api_key : pystr;
  llm_base_url : pystr;
  llm_json_mode : Client.json_mode;
  llm_timeout_s : float;
  cheap_model : pystr;
  strong_model : pystr;
  escalate_severity_gte : Z;
  escalate_confidence_lt : float;
  model_prices_json : list (pystr * ModelPrice);
  triage_prompt_version : pystr;
  judge_prompt_version : pystr;
  environment : pystr;
  database_url : pystr;
  redis_url : pystr;
  redis_socket_timeout_s : float;
  triage_job_timeout_s : Z;
  triage_attempt_timeout_s : float;
  worker_max_jobs : Z;
  worker_health_check_interval_s : Z;
  s_ingest_hmac_secret : pystr;
  s_ingest_max_body_bytes : Z;
  s_admin_token : pystr;
  s_retriage_per_day : Z;
  s_public_rate_limit_per_min : Z;
  retriage_lock_timeout_ms : Z;
  cors_origins : pystr;
  alerts_list_cache_ttl_s : Z;
  stats_cache_ttl_s : Z;
  alerts_cache_max_entries : Z;
  tool_result_max_chars : Z;
  assets_yaml_path : pystr;
  tool_session_commands_max : Z;
  tool_session_downloads_max : Z;
  tool_command_max_chars : Z;
  maxmind_license_key : pystr;
  geoip_db_path : pystr;
  geoip_asn_db_path : pystr;
  abuseipdb_api_key : pystr;
  abuseipdb_cache_ttl_s : Z;
  abuseipdb_timeout_s : float;
  abuseipdb_max_age_days : Z;
  abuseipdb_cache_max_entries : Z;
  abuseipdb_quota_backoff_s : Z;
  alert_history_max_window_hours : Z;
  tool_loop_max_iter : Z;
  daily_token_budget : Z;
  s_triage_job_max_tries : Z;
  s_triage_job_backoff_base_s : float;
  s_triage_job_backoff_max_s : float;
  stream_heartbeat_s : float;
  stream_max_clients : Z;
  s_eval_gate_severity_drop_points : Z;
  s_eval_gate_critical_recall_min : float;
  s_eval_gate_cost_rise_fraction : float
}.

(** The [Field] constraints, in the order of the fields. *)
Definition constraints (s : Settings) : list bool :=
  [0 <? llm_timeout_s s;
   (1 <=? escalate_severity_gte s) && (escalate_severity_gte s <=? 5);
   (0 <=? escalate_confidence_lt s) && (escalate_confidence_lt s <=? flt 1);
   0 <? redis_socket_timeout_s s;
   1 <=? triage_job_timeout_s s;
   0 <? triage_attempt_timeout_s s;
   1 <=? worker_max_jobs s;
   1 <=? worker_health_check_interval_s s;
   1 <=? s_ingest_max_body_bytes s;
   1 <=? s_retriage_per_day s;
   0 <=? s_public_rate_limit_per_min s;
   1 <=? retriage_lock_timeout_ms s;
   1 <=? tool_result_max_chars s;
   1 <=? tool_session_commands_max s;
   1 <=? tool_session_downloads_max s;
   1 <=? tool_command_max_chars s;
   1 <=? abuseipdb_cache_ttl_s s;
   0 <? abuseipdb_timeout_s s;
   (1 <=? abuseipdb_max_age_days s) && (abuseipdb_max_age_days s <=? 365);
   1 <=? abuseipdb_cache_max_entries s;
   0 <=? abuseipdb_quota_backoff_s s;
   1 <=? alert_history_max_window_hours s;
   1 <=? tool_loop_max_iter s;
   0 <=? daily_token_budget s;
   1 <=? s_triage_job_max_tries s;
   0 <=? s_triage_job_backoff_base_s s;
   0 <=? s_triage_job_backoff_max_s s;
   0 <? stream_heartbeat_s s;
   1 <=? stream_max_clients s;
   0 <=? s_eval_gate_severity_drop_points s;
   (0 <=? s_eval_gate_critical_recall_min s) && (s_eval_gate_critical_recall_min s <=? flt 1);
   0 <=? s_eval_gate_cost_rise_fraction s].

Definition Settings_init (fields : Settings) : outcome exn Settings :=
  if forallb id (constraints fields) then Ret fields else Raise ValidationError.

(** [Settings()] over the fields the environment gives. *)
Definition read_settings (environment : outcome exn Settings) : outcome exn Settings :=
  fields ← environment; Settings_init fields.

(** [Settings()] with nothing set; decimal literals rounded as the parser rounds them. *)
Definition defaults : Settings := {|
  llm_api_key := []; llm_base_url := u "https://api.openai.com/v1"; llm_json_mode := Client.json_object;
  llm_timeout_s := flt 60; cheap_model := []; strong_model := []; escalate_severity_gte := 4;
  escalate_confidence_lt := int_div 6 10; model_prices_json := []; triage_prompt_version := u "triage-v4";
  judge_prompt_version := u "judge-v1"; environment := u "development"; database_url := []; redis_url := [];
  redis_socket_timeout_s := flt 2; triage_job_timeout_s := 120; triage_attempt_timeout_s := flt 100;
  worker_max_jobs := 4; worker_health_check_interval_s := 15; s_ingest_hmac_secret := [];
  s_ingest_max_body_bytes := 2000000; s_admin_token := []; s_retriage_per_day := 20;
  s_public_rate_limit_per_min := 60; retriage_lock_timeout_ms := 3000; cors_origins := u "http://localhost:3000";
  alerts_list_cache_ttl_s := 15; stats_cache_ttl_s := 60; alerts_cache_max_entries := 1024;
  tool_result_max_chars := 4000; assets_yaml_path := u "honeypot/assets.yaml"; tool_session_commands_max := 40;
  tool_session_downloads_max := 10; tool_command_max_chars := 200; maxmind_license_key := []; geoip_db_path := [];
  geoip_asn_db_path := []; abuseipdb_api_key := []; abuseipdb_cache_ttl_s := 86400; abuseipdb_timeout_s := flt 5;
  abuseipdb_max_age_days := 90; abuseipdb_cache_max_entries := 4096; abuseipdb_quota_backoff_s := 900;
  alert_history_max_window_hours := 720; tool_loop_max_iter := 6; daily_token_budget := 0;
  s_triage_job_max_tries := 3; s_triage_job_backoff_base_s := flt 2; s_triage_job_backoff_max_s := flt 60;
  stream_heartbeat_s := flt 15; stream_max_clients := 50; s_eval_gate_severity_drop_points := 3;
  s_eval_gate_critical_recall_min := int_div 90 100; s_eval_gate_cost_rise_fraction := int_div 50 100 |}.

(** [MODEL_PRICES_JSON]: the decoding of its text, then pydantic's of the mapping. *)
Definition _decode_model_prices_json `{JsonLoads} (coerce : json -> option (list (pystr * ModelPrice)))
    (value : pystr + list (pystr * ModelPrice)) : outcome exn (list (pystr * ModelPrice)) :=
  match value with
  | inr prices => Ret prices
  | inl text =>
      match json_loads text with
      | None => Raise ValidationError
      | Some j => match coerce j with Some prices => Ret prices | None => Raise ValidationError end
      end
  end.

(** No character but an ASCII capital becomes a letter of "production" in lower case. *)
Definition lower_letter (c : Z) : Z := if (65 <=? c) && (c <=? 90) then c + 32 else c.
Definition is_dev (s : Settings) : bool :=
  negb (bool_decide (map lower_letter (strip (environment s)) = u "production")).
Definition cors_origin_list (s : Settings) : list pystr :=
  List.filter (fun o => negb (bool_decide (o = []))) (map strip (split_comma [] (cors_origins s))).

Definition require_nonempty (name value : pystr) : outcome exn unit :=
  match value with [] => Raise (ConfigError (name ++ u " must not be empty")) | _ => Ret tt end.

(** Each part's own settings. *)
Definition job_settings (s : Settings) : JobSettings :=
  {| triage_job_max_tries := s_triage_job_max_tries s;
     triage_job_backoff_base_s := s_triage_job_backoff_base_s s;
     triage_job_backoff_max_s := s_triage_job_backoff_max_s s |}.
Definition api_settings (s : Settings) : ApiSettings :=
  {| ingest_hmac_secret := s_ingest_hmac_secret s; ingest_max_body_bytes := s_ingest_max_body_bytes s;
     admin_token := s_admin_token s; retriage_per_day := s_retriage_per_day s;
     public_rate_limit_per_min := s_public_rate_limit_per_min s |}.

(** ** [worker/tools/wiring.py] *)

Definition TOOL_NAMES : list pystr :=
  map u ["lookup_ip_reputation"; "get_ip_geo_asn"; "get_alert_history"; "get_session_commands"; "get_asset_info"]%string.

Definition text_schema (property what : pystr) : json :=
  JObj [(u "type", JStr (u "object"));
        (u "properties", JObj [(property, JObj [(u "type", JStr (u "string")); (u "description", JStr what)])]);
        (u "required", JArr [JStr property]); (u "additionalProperties", JBool false)].
Definition AN_ADDRESS : pystr := u "An IPv4 or IPv6 address.".

(** The five instances. *)
Record Toolbox : Type := {
  tb_reputation : IpReputation.IpReputationTool;
  tb_geo : GeoAsn.GeoAsnTool;
  tb_history : AlertHistoryTool;
  tb_session : SessionCommands.SessionCommandsTool;
  tb_assets : AssetInfo.AssetInfoTool
}.

Section wiring.
Context {W C H D : Type} {CW : Clock W} {FR : FloatRepr}.
Context {KC : TTLCache C} {KT : Clock H} {KH : IpReputation.Http H} {KI : IpAddress} {KL : JsonLoadsBytes}
  {KJ : IpReputation.JsonInt} {PG : Postgres D} {LZ : LocalZone} {SH : Sha256}
  {PE : Part W (IpReputation.env C H)} {PD : Part W (db D)}.
Variable timestamptz_isoformat : Z -> pystr.
Implicit Types (s : Settings).

(** The class attributes, and each instance's [run] over the process's world. *)
Definition reputation_tool (b : Toolbox) : Tool W :=
  {| name := u "lookup_ip_reputation"; external := true;
     tool_run := fun arguments ctx => on_part (IpReputation.run (tb_reputation b) arguments ctx);
     description := u "Look up an IP address's abuse reputation (AbuseIPDB confidence score 0-100, report count, last report time). Costs quota; call it once per address.";
     parameters := text_schema (u "ip") AN_ADDRESS |}.
Definition geo_tool (b : Toolbox) : Tool W :=
  {| name := u "get_ip_geo_asn"; external := true;
     tool_run := fun arguments ctx => lift (GeoAsn.run (tb_geo b) arguments ctx);
     description := u "Look up the country, autonomous system number and organisation of an IP address from a local GeoLite2 database (no network).";
     parameters := text_schema (u "ip") AN_ADDRESS |}.
Definition history_tool (b : Toolbox) : Tool W :=
  {| name := u "get_alert_history"; external := true;
     tool_run := fun arguments ctx => on_part (History.run timestamptz_isoformat (tb_history b) arguments ctx);
     description := u "Count earlier sessions from the same source IP in the last N hours, when the first was seen, and how they were categorised. Use it to tell a first-time visitor from a persistent attacker.";
     parameters :=
     JObj [(u "type", JStr (u "object"));
     (u "properties", JObj
     [(u "ip", JObj [(u "type", JStr (u "string")); (u "description", JStr AN_ADDRESS)]);
     (u "window_hours", JObj [(u "type", JStr (u "integer")); (u "minimum", JInt 1);
     (u "description", JStr (u "Look-back window in hours; clamped to the configured maximum."))])]);
     (u "required", JArr [JStr (u "ip"); JStr (u "window_hours")]); (u "additionalProperties", JBool false)] |}.
Definition session_tool (b : Toolbox) : Tool W :=
  {| name := u "get_session_commands"; external := false;
     tool_run := fun arguments ctx => mret (SessionCommands.run (tb_session b) arguments ctx);
     description := u "Return the shell commands the attacker typed and the files they downloaded during this session. Call it whenever a login succeeded: the summary only counts commands, this returns them.";
     parameters := text_schema (u "session_id") (u "The session_id from the alert summary.") |}.
Definition assets_tool (b : Toolbox) : Tool W :=
  {| name := u "get_asset_info"; external := false;
     tool_run := fun arguments ctx => mret (AssetInfo.run (tb_assets b) arguments ctx);
     description := u "Describe the honeypot sensor the attacker hit: its role, exposure and criticality.";
     parameters := text_schema (u "hostname") (u "The sensor hostname from the alert summary.") |}.

Definition tools_of (b : Toolbox) : list (Tool W) :=
  [reputation_tool b; geo_tool b; history_tool b; session_tool b; assets_tool b].

(** Opening a GeoLite2 file, reading the assets file and parsing it. *)
Variable open_database : pystr -> option GeoAsn.GeoReader.
Variable read_file : pystr -> option pybytes.
Variable parse_assets : pybytes -> option (list (pystr * AssetInfo.AssetRecord)).

(** Whether the cache is the in-process one the function builds itself. *)
Definition build_toolbox s (own_cache : bool) : outcome exn Toolbox :=
  _ ← (if own_cache then _ ← Memory.__init__ (abuseipdb_cache_max_entries s); Ret tt else Ret tt);
  reputation ← IpReputation.__init__ (abuseipdb_api_key s) (abuseipdb_cache_ttl_s s) (abuseipdb_max_age_days s)
                 (abuseipdb_quota_backoff_s s);
  history ← history_init (alert_history_max_window_hours s);
  session ← SessionCommands.__init__ (tool_session_commands_max s) (tool_session_downloads_max s)
              (tool_command_max_chars s);
  Ret {| tb_reputation := reputation;
         tb_geo := GeoAsn.geo_from_settings open_database (geoip_db_path s) (geoip_asn_db_path s);
         tb_history := history; tb_session := session;
         tb_assets := AssetInfo.from_path (read_file (assets_yaml_path s)) parse_assets |}.

Definition build_registry s (recorder : ToolReg.ToolRecorder) (own_cache : bool)
    : outcome exn ToolReg.ToolRegistry :=
  b ← build_toolbox s own_cache;
  ToolReg.__init__ (tools_of b) recorder (tool_result_max_chars s).

(** ** [from_settings], and the worker *)

Context {PF : PromptFiles} {SR : StrRepr}.

(** Third-party constructors, that may refuse what they are given: SQLAlchemy's [make_url] and
    [create_async_engine], httpx's [AsyncClient] (which reads the environment's proxies), the
    SDK's [AsyncOpenAI] (of the base URL), ARQ's [RedisSettings.from_dsn], redis-py's
    [ConnectionPool.from_url]. *)
Context {R : Type}.
Variable make_url : pystr -> outcome exn Migration.url.
Variable create_async_engine : Migration.Engine -> outcome exn unit.
Variable http_client : Settings -> outcome exn unit.
Variable async_openai : Settings -> outcome exn unit.
Variable from_dsn : pystr -> outcome exn R.

(** The models the client is checked for. *)
Definition unpriced_model s : list pystr :=
  List.filter (fun m => negb (bool_decide (m = [])) && negb (bool_decide (m ∈ dkeys (model_prices_json s))))
    [cheap_model s; strong_model s].
Definition client_from_settings s : outcome exn (list (pystr * ModelPrice)) :=
  if bool_decide (cheap_model s = []) then Raise (ConfigError (u "CHEAP_MODEL is not set"))
  else match unpriced_model s with
       | [] => _ ← async_openai s; Ret (model_prices_json s)
       | m :: _ => Raise (ConfigError (u "model " ++ str_repr m ++ u " has no entry in MODEL_PRICES_JSON"))
       end.

Definition strong_of s : option pystr := match strong_model s with [] => None | m => Some m end.

Definition pipeline_from_settings s (recorder : ToolReg.ToolRecorder) (own_cache redis : bool)
    : outcome exn (Triage.TriagePipeline (W := W)) :=
  if bool_decide (strong_of s = Some (cheap_model s))
  then Raise (ConfigError (u "STRONG_MODEL must differ from CHEAP_MODEL"))
  else
    registry ← build_registry s recorder own_cache;
    Triage.__init__ (cheap_model s) (triage_prompt_version s) (Some (ToolReg.as_registry registry))
      (Some (tool_loop_max_iter s)) (strong_of s) (Some (escalate_severity_gte s))
      (Some (escalate_confidence_lt s)) redis (daily_token_budget s).

(** What importing [worker.main] checks before it defines anything. *)
Definition worker_checks (fields : Settings) : outcome exn Settings :=
  s ← Settings_init fields;
  _ ← require_nonempty (u "DATABASE_URL") (database_url s);
  _ ← require_nonempty (u "REDIS_URL") (redis_url s);
  _ ← require_nonempty (u "LLM_API_KEY") (llm_api_key s);
  _ ← require_nonempty (u "CHEAP_MODEL") (cheap_model s);
  if flt (triage_job_timeout_s s) <=? triage_attempt_timeout_s s
  then Raise (ConfigError (u "TRIAGE_ATTEMPT_TIMEOUT_S must be below TRIAGE_JOB_TIMEOUT_S"))
  else Ret s.

(** ARQ's own settings. *)
Record WorkerSettings : Type := {
  ws_queue_name : pystr;
  ws_redis_settings : R;
  ws_job_timeout : Z;
  ws_max_jobs : Z;
  ws_health_check_interval : Z;
  ws_retry_jobs : bool;
  ws_max_tries : Z
}.
Definition redis_settings (redis_url : pystr) : outcome exn R := from_dsn redis_url.
Definition worker_settings s : outcome exn WorkerSettings :=
  redis ← redis_settings (redis_url s);
  Ret {| ws_queue_name := TRIAGE_QUEUE_NAME; ws_redis_settings := redis; ws_job_timeout := triage_job_timeout_s s; ws_max_jobs := worker_max_jobs s;
     ws_health_check_interval := worker_health_check_interval_s s; ws_retry_jobs := true;
     ws_max_tries := s_triage_job_max_tries s |}.

(** The module [worker.main], imported: the checked settings and the class ARQ is run with. *)
Definition worker_main (fields : Settings) : outcome exn (Settings * WorkerSettings) :=
  s ← worker_checks fields;
  ws ← worker_settings s;
  Ret (s, ws).

(** The keys of the job context that [startup] sets and [shutdown] pops. *)
Record WorkerContext : Type := {
  ctx_engine : bool;
  ctx_http : bool;
  ctx_pipeline : option (Triage.TriagePipeline (W := W))
}.

Definition startup s (live : ToolReg.ToolRecorder) : M exn WorkerContext unit :=
  _ ← lift (Migration.make_engine make_url create_async_engine (database_url s) None);
  _ ← modify (fun ctx => {| ctx_engine := true; ctx_http := ctx_http ctx; ctx_pipeline := ctx_pipeline ctx |});
  _ ← lift (http_client s);
  _ ← modify (fun ctx => {| ctx_engine := ctx_engine ctx; ctx_http := true; ctx_pipeline := ctx_pipeline ctx |});
  _ ← lift (client_from_settings s);
  p ← lift (pipeline_from_settings s live false true);
  modify (fun ctx => {| ctx_engine := ctx_engine ctx; ctx_http := ctx_http ctx; ctx_pipeline := Some p |}).

(** [aclose] and [dispose]: what closing each answers. *)
Definition shutdown (aclose dispose : outcome exn unit) (ctx : WorkerContext) : outcome exn unit * WorkerContext :=
  match (if ctx_http ctx then aclose else Ret tt) with
  | Raise e => (Raise e, {| ctx_engine := ctx_engine ctx; ctx_http := false; ctx_pipeline := ctx_pipeline ctx |})
  | Ret _ =>
      (if ctx_engine ctx then dispose else Ret tt,
       {| ctx_engine := false; ctx_http := false; ctx_pipeline := ctx_pipeline ctx |})
  end.

(** A shutdown is idempotent, also after a startup that raised half-way: what is open is
    closed once, a failing close included, and two calls leave nothing. *)
Lemma shutdown_idempotent aclose dispose aclose' dispose' ctx :
  let ctx1 := (shutdown aclose dispose ctx).2 in
  let ctx2 := (shutdown aclose' dispose' ctx1).2 in
  ctx_http ctx1 = false /\ (ctx_engine ctx1 = true -> exists e, (shutdown aclose dispose ctx).1 = Raise e) /\
  ctx_engine ctx2 = false /\ ctx_http ctx2 = false /\
  (ctx_engine ctx1 = false -> shutdown aclose' dispose' ctx1 = (Ret tt, ctx1)).
Proof.
  unfold shutdown. destruct ctx as [en ht p]; cbn. destruct ht, aclose as [[]|e]; cbn; destruct en; cbn; split_and!; try done;
    intros; by eexists.
Qed.

(** The engine and the HTTP client are in the context before the models are checked. *)
Lemma startup_failure_closable s live ctx e ctx' :
  startup s live ctx = (Raise e, ctx') ->
  ctx' = ctx \/ ctx_engine ctx' = true /\ (ctx_http ctx' = true \/ http_client s = Raise e) /\
                (shutdown (Ret tt) (Ret tt) ctx').1 = Ret tt.
Proof.
  unfold startup. m_unfold. destruct (Migration.make_engine _ _ _ _); [|intros [= _ <-]; by left].
  destruct (http_client s) as [|e']; [|intros [= -> <-]; right; split_and!; [done|by right|]; unfold shutdown; by destruct (ctx_http ctx)].
  destruct (client_from_settings s); [|intros [= _ <-]; right; by split_and!; [|left|]].
  destruct (pipeline_from_settings _ _ _ _); intros [= _ <-]; right; by split_and!; [|left|].
Qed.
End wiring.

(** ** [api/main.py], [api/factory.py] and [api/routes/health.py] *)

Definition api_checks (fields : Settings) : outcome exn Settings :=
  s ← Settings_init fields;
  _ ← require_nonempty (u "DATABASE_URL") (database_url s);
  _ ← require_nonempty (u "INGEST_HMAC_SECRET") (s_ingest_hmac_secret s);
  _ ← require_nonempty (u "REDIS_URL") (redis_url s);
  Ret s.

(** [app.state], the middleware's origins, and the settings the gates read. *)
Record App : Type := {
  app_database : bool;
  app_settings : ApiSettings;
  app_enqueue : bool;
  app_redis : bool;
  app_cache : Memory.t;
  allow_origins : list pystr;
  app_gate : StreamGate
}.

(** [create_app] with no [cache=]: [database], [enqueue] and [redis] are the seams given. *)
Definition create_app (database enqueue redis : bool) (settings : option Settings) : outcome exn App :=
  effective ← (match settings with Some s => Ret s | None => Settings_init defaults end);
  cache ← Memory.__init__ (alerts_cache_max_entries effective);
  Ret {| app_database := database; app_settings := api_settings effective; app_enqueue := enqueue;
         app_redis := redis; app_cache := cache; allow_origins := cors_origin_list effective;
         app_gate := {| limit := stream_max_clients effective; active := 0 |} |}.

(** [api/deps.py]'s readings of [app.state]. *)
Definition get_cache (app : App) : Memory.t := app_cache app.
Definition get_enqueue (app : App) : outcome exn unit :=
  if app_enqueue app then Ret tt else Raise (RuntimeError (u "no enqueue wired")).
Definition get_redis_optional (app : App) : bool := app_redis app.

(** [core/queue.py]'s [make_redis]: [from_url] is [ConnectionPool]'s. *)
Definition make_redis (from_url : pystr -> float -> outcome exn unit) (redis_url : pystr) (socket_timeout_s : float)
    : outcome exn unit := from_url redis_url socket_timeout_s.

Definition api_boot (make_url : pystr -> outcome exn Migration.url)
    (create_async_engine : Migration.Engine -> outcome exn unit) (from_url : pystr -> float -> outcome exn unit)
    (fields : Settings) : outcome exn App :=
  s ← api_checks fields;
  _ ← Migration.make_engine make_url create_async_engine (database_url s) None;
  _ ← make_redis from_url (redis_url s) (redis_socket_timeout_s s);
  create_app true true true (Some s).

Inductive seam : Type := seam_ok | seam_error | seam_unconfigured.
#[export] Instance seam_eq_dec : EqDecision seam.
Proof. solve_decision. Defined.
Definition seam_str (x : seam) : pystr :=
  match x with seam_ok => u "ok" | seam_error => u "error" | seam_unconfigured => u "unconfigured" end.

(** A probe's outcome, [None] when its seam is not wired: [caught] is what the [except] names,
    of which a [TimeoutError] is an [OSError]. *)
Definition probe (caught : exn -> bool) (answer : option (outcome exn unit)) : outcome exn seam :=
  match answer with
  | None => Ret seam_unconfigured
  | Some (Ret _) => Ret seam_ok
  | Some (Raise e) => if caught e then Ret seam_error else Raise e
  end.
Definition database_error (e : exn) : bool :=
  match e with SQLAlchemyError | OSError | TimeoutError => true | _ => false end.
Definition redis_error (e : exn) : bool :=
  match e with RedisError | OSError | TimeoutError => true | _ => false end.

Definition healthz (select_1 ping : option (outcome exn unit)) : outcome exn (Z * jobj) :=
  db ← probe database_error select_1;
  redis ← probe redis_error ping;
  let ok := bool_decide (db = seam_ok) && bool_decide (redis = seam_ok) in
  Ret (if ok then 200 else 503,
       [(u "status", JStr (if ok then u "ok" else u "degraded")); (u "db", JStr (seam_str db));
        (u "redis", JStr (seam_str redis))]).

Lemma defaults_valid : Settings_init defaults = Ret defaults.
Proof. vm_compute. reflexivity. Qed.

(** ** What a validated configuration is *)

Lemma Settings_init_ret fields s : Settings_init fields = Ret s -> s = fields /\ Forall (fun b => b = true) (constraints s).
Proof.
  unfold Settings_init. destruct (forallb id (constraints fields)) eqn:E; [|done]. intros [= <-]. split; [done|].
  rewrite forallb_forall in E. apply Forall_forall. intros b Hb%list_elem_of_In. by apply E.
Qed.

Lemma read_settings_cases (environment : outcome exn Settings) :
  match read_settings environment with
  | Ret s => Forall (fun b => b = true) (constraints s)
  | Raise e => e = ValidationError \/ environment = Raise e
  end.
Proof.
  unfold read_settings, mbind, outcome_bind. destruct environment as [f|e]; [|by right].
  destruct (Settings_init f) as [s|e] eqn:E; [by apply Settings_init_ret in E as [_ ?]|].
  left. unfold Settings_init in E. destruct (forallb _ _); [done|]. by injection E as <-.
Qed.

(** The constraints the parts rely on, as inequalities. *)
Record in_bounds (s : Settings) : Prop := {
  ib_severity : 1 <= escalate_severity_gte s <= 5;
  ib_confidence : 0 <= escalate_confidence_lt s <= flt 1;
  ib_body : 1 <= s_ingest_max_body_bytes s;
  ib_retriage : 1 <= s_retriage_per_day s;
  ib_rate : 0 <= s_public_rate_limit_per_min s;
  ib_chars : 1 <= tool_result_max_chars s;
  ib_commands : 1 <= tool_session_commands_max s /\ 1 <= tool_session_downloads_max s /\ 1 <= tool_command_max_chars s;
  ib_reputation : 1 <= abuseipdb_cache_ttl_s s /\ 1 <= abuseipdb_max_age_days s /\ 0 <= abuseipdb_quota_backoff_s s;
  ib_entries : 1 <= abuseipdb_cache_max_entries s;
  ib_window : 1 <= alert_history_max_window_hours s;
  ib_loop : 1 <= tool_loop_max_iter s;
  ib_budget : 0 <= daily_token_budget s;
  ib_tries : 1 <= s_triage_job_max_tries s;
  ib_backoff : 0 <= s_triage_job_backoff_base_s s /\ 0 <= s_triage_job_backoff_max_s s;
  ib_clients : 1 <= stream_max_clients s
}.

Lemma constraints_in_bounds s : Forall (fun b => b = true) (constraints s) -> in_bounds s.
Proof.
  unfold constraints. intros H. repeat apply Forall_cons in H as [? H]. py_reflect. split; lia.
Qed.

Section booted.
Context {W C H D : Type} {CW : Clock W} {FR : FloatRepr} {PF : PromptFiles} {SR : StrRepr}.
Context {KC : TTLCache C} {KT : Clock H} {KH : IpReputation.Http H} {KI : IpAddress} {KL : JsonLoadsBytes}
  {KJ : IpReputation.JsonInt} {PG : Postgres D} {LZ : LocalZone} {SH : Sha256}
  {PE : Part W (IpReputation.env C H)} {PD : Part W (db D)}.
Variable iso : Z -> pystr.
Variable open_database : pystr -> option GeoAsn.GeoReader.
Variable read_file : pystr -> option pybytes.
Variable parse_assets : pybytes -> option (list (pystr * AssetInfo.AssetRecord)).
Context {R : Type}.
Variable make_url : pystr -> outcome exn Migration.url.
Variable create_async_engine : Migration.Engine -> outcome exn unit.
Variable http_client : Settings -> outcome exn unit.
Variable async_openai : Settings -> outcome exn unit.
Variable from_dsn : pystr -> outcome exn R.

Lemma build_toolbox_ret s own_cache : in_bounds s ->
  exists b, build_toolbox open_database read_file parse_assets s own_cache = Ret b /\
    IpReputation._cache_ttl_s (tb_reputation b) = abuseipdb_cache_ttl_s s /\
    _max_window_hours (tb_history b) = alert_history_max_window_hours s /\
    SessionCommands._max_commands (tb_session b) = tool_session_commands_max s /\
    SessionCommands._max_downloads (tb_session b) = tool_session_downloads_max s /\
    SessionCommands._max_command_chars (tb_session b) = tool_command_max_chars s.
Proof.
  intros [? ? ? ? ? ? (? & ? & ?) (? & ? & ?) ? ? ? ? ? ? ?].
  unfold build_toolbox, Memory.__init__, IpReputation.__init__, history_init, SessionCommands.__init__, mbind, outcome_bind.
  rewrite (proj2 (Z.leb_gt _ _)) by lia. rewrite !(proj2 (Z.ltb_ge _ _)) by lia.
  destruct own_cache; by eexists.
Qed.

Lemma tools_named b : map name (tools_of (W := W) iso b) = TOOL_NAMES.
Proof. done. Qed.

Lemma build_registry_ret s recorder own_cache : in_bounds s ->
  exists registry, build_registry (W := W) iso open_database read_file parse_assets s recorder own_cache = Ret registry /\
    ToolReg.names registry = TOOL_NAMES /\ ToolReg._max_result_chars registry = tool_result_max_chars s.
Proof.
  intros Hs. destruct (build_toolbox_ret s own_cache Hs) as (b & E & _). unfold build_registry, mbind, outcome_bind.
  rewrite E. unfold ToolReg.__init__. rewrite tools_named.
  rewrite bool_decide_true by (apply (bool_decide_unpack _); vm_compute; exact I).
  cbn [negb]. rewrite (proj2 (Z.ltb_ge _ _)) by (apply Hs). eexists. split; [reflexivity|]. split; [apply tools_named|done].
Qed.

Lemma client_from_settings_spec s :
  match client_from_settings async_openai s with
  | Ret prices => cheap_model s <> [] /\ prices = model_prices_json s /\ cheap_model s ∈ dkeys prices /\
      forall m, strong_of s = Some m -> m ∈ dkeys prices
  | Raise e => (exists m, e = ConfigError m) \/ async_openai s = Raise e
  end.
Proof.
  unfold client_from_settings, unpriced_model. case_bool_decide as Hc; [by left; eexists|].
  cbn [List.filter]. rewrite (bool_decide_false (cheap_model s = [])) by done. cbn [negb andb].
  destruct (bool_decide (cheap_model s ∈ dkeys (model_prices_json s))) eqn:E1; cbn [negb]; [|by left; eexists].
  apply bool_decide_eq_true in E1. unfold strong_of. destruct (strong_model s) as [|x m] eqn:Em.
  - rewrite bool_decide_true by done. unfold mbind, outcome_bind.
    destruct (async_openai s); [by split_and!|by right].
  - rewrite (bool_decide_false (x :: m = [])) by done. cbn [negb andb].
    destruct (bool_decide (x :: m ∈ _)) eqn:E2; cbn [negb]; [|by left; eexists]. apply bool_decide_eq_true in E2.
    unfold mbind, outcome_bind. destruct (async_openai s); [|by right].
    split_and!; try done. by intros m' [= <-].
Qed.

(** What an import that succeeds has checked. *)
Lemma worker_main_ret fields s ws : worker_main from_dsn fields = Ret (s, ws) ->
  s = fields /\ in_bounds s /\ triage_attempt_timeout_s s < flt (triage_job_timeout_s s) /\
  database_url s <> [] /\ from_dsn (redis_url s) = Ret (ws_redis_settings ws) /\ llm_api_key s <> [] /\
  cheap_model s <> [] /\ ws_job_timeout ws = triage_job_timeout_s s /\ ws_max_tries ws = s_triage_job_max_tries s.
Proof.
  unfold worker_main, worker_checks, worker_settings, redis_settings, mbind, outcome_bind.
  destruct (Settings_init fields) as [s0|] eqn:Ei; [|done].
  apply Settings_init_ret in Ei as [-> Hs%constraints_in_bounds].
  destruct (database_url fields) eqn:Ed, (redis_url fields) eqn:Er, (llm_api_key fields) eqn:Ek,
    (cheap_model fields) eqn:Em; try done. cbn [require_nonempty].
  destruct (Z.leb_spec (flt (triage_job_timeout_s fields)) (triage_attempt_timeout_s fields)) as [|Ht]; [done|].
  rewrite Er. destruct (from_dsn _) eqn:Ef; [|done]. intros [= <- <-]. rewrite Ed, Er, Ek, Em. by split_and!.
Qed.

(** A pipeline built from the settings. *)
Definition wired s (p : Triage.TriagePipeline (W := W)) : Prop :=
  Triage._model p = cheap_model s /\ Triage._strong_model p = strong_of s /\ Triage._redis p = true /\
  (exists registry, Triage._tools p = Some (ToolReg.as_registry registry) /\
     ToolReg.names registry = TOOL_NAMES /\ 1 <= ToolReg._max_result_chars registry) /\
  Triage._tool_loop_max_iter p = Some (tool_loop_max_iter s) /\ 1 <= tool_loop_max_iter s /\
  Triage._escalate_severity_gte p = Some (escalate_severity_gte s) /\ 1 <= escalate_severity_gte s <= 5 /\
  Triage._escalate_confidence_lt p = Some (escalate_confidence_lt s) /\ 0 <= escalate_confidence_lt s <= flt 1 /\
  Triage._daily_token_budget p = daily_token_budget s /\ 0 <= daily_token_budget s.

Lemma pipeline_from_settings_spec s live : in_bounds s ->
  match pipeline_from_settings (W := W) iso open_database read_file parse_assets s live false true with
  | Ret p => strong_of s <> Some (cheap_model s) /\ wired s p
  | Raise e => exists m, e = ConfigError m
  end.
Proof.
  intros Hs. unfold pipeline_from_settings. case_bool_decide as Heq; [by eexists|].
  destruct (build_registry_ret s live false Hs) as (registry & -> & Hn & Hmax).
  unfold mbind, outcome_bind, Triage.__init__. rewrite bool_decide_true by done.
  rewrite (proj2 (Z.ltb_ge _ _)) by (apply Hs). cbn [andb].
  assert (Hok : match strong_of s with
    | Some strong => if bool_decide (strong = cheap_model s)
                     then Raise (ValueError (u "strong_model must differ from model")) else Ret tt
    | None => Ret tt end = Ret tt).
  { destruct (strong_of s); [|done]. by rewrite bool_decide_false by congruence. }
  unfold mbind, outcome_bind. rewrite Hok. pose proof (load_prompt_spec (triage_prompt_version s)) as Hp.
  destruct (load_prompt (triage_prompt_version s)) as [template|e]; [|done]. split; [done|].
  destruct Hs. split_and!; try done; try lia. exists registry. split_and!; try done. lia.
Qed.

End booted.

(** An API whose settings are accepted and whose URLs are too fails to build exactly when the
    entry bound of its response cache, which no [Field] constrains, is below one. *)
Lemma api_boot_spec make_url create_async_engine from_url fields :
  let boot := api_boot make_url create_async_engine from_url fields in
  match api_checks fields with
  | Raise e => boot = Raise e
  | Ret s =>
      match Migration.make_engine make_url create_async_engine (database_url s) None,
            from_url (redis_url s) (redis_socket_timeout_s s) with
      | Raise e, _ | Ret _, Raise e => boot = Raise e
      | Ret _, Ret _ =>
          if 1 <=? alerts_cache_max_entries s
          then exists app, boot = Ret app /\ limit (app_gate app) = stream_max_clients s /\
                 1 <= limit (app_gate app) /\ app_settings app = api_settings s /\
                 ingest_hmac_secret (app_settings app) <> []
          else exists m, boot = Raise (ValueError m)
      end
  end.
Proof.
  cbv zeta. unfold api_boot. destruct (api_checks fields) as [s|e] eqn:E; [|done]. cbn [mbind outcome_bind].
  unfold api_checks in E. destruct (Settings_init fields) as [s0|] eqn:Ei; [|done]. cbn [mbind outcome_bind] in E.
  destruct (database_url s0), (s_ingest_hmac_secret s0) eqn:Eh, (redis_url s0); try done. injection E as ->.
  apply Settings_init_ret in Ei as [-> Hs%constraints_in_bounds].
  unfold make_redis, create_app, Memory.__init__, mbind, outcome_bind.
  destruct (Migration.make_engine _ _ _ _); [|done]. destruct (from_url _ _); [|done].
  destruct (Z.leb_spec 1 (alerts_cache_max_entries fields)).
  - rewrite (proj2 (Z.leb_gt _ _)) by lia. eexists. split; [reflexivity|]. cbn. rewrite Eh. split_and!; try done. apply Hs.
  - rewrite (proj2 (Z.leb_le _ _)) by lia. by eexists.
Qed.

(** ** A worker that boots *)

Module Toy.
Import IpReputation.Toy History.Toy TriageFacts.Toy.

Definition machine : Type := IpReputation.env Memory.t Z * db Database.Toy.world.
#[export] Program Instance machine_env : Part machine (IpReputation.env Memory.t Z) :=
  { focus := fst; refocus e w := (e, w.2) }.
Solve All Obligations with (try done; by intros []).
#[export] Program Instance machine_db : Part machine (db Database.Toy.world) :=
  { focus := snd; refocus d w := (w.1, d) }.
Solve All Obligations with (try done; by intros []).
#[export] Instance machine_clock : Clock machine := fun w => (0, w).
Definition live : ToolReg.ToolRecorder (W := machine) := fun t arguments ctx => tool_run t arguments ctx.

Definition price : ModelPrice := {| input_per_mtok := 1; output_per_mtok := 2; price_scale := 2 |}.
(** The defaults, with what a deployment must set. *)
Definition deployed : Settings := {|
  llm_api_key := u "key"; llm_base_url := u "https://api.openai.com/v1"; llm_json_mode := Client.json_object;
  llm_timeout_s := flt 60; cheap_model := u "cheap"; strong_model := u "strong"; escalate_severity_gte := 4;
  escalate_confidence_lt := int_div 6 10; model_prices_json := [(u "cheap", price); (u "strong", price)]; triage_prompt_version := u "triage-v4";
  judge_prompt_version := u "judge-v1"; environment := u "development"; database_url := u "postgresql://db"; redis_url := u "redis://queue";
  redis_socket_timeout_s := flt 2; triage_job_timeout_s := 120; triage_attempt_timeout_s := flt 100;
  worker_max_jobs := 4; worker_health_check_interval_s := 15; s_ingest_hmac_secret := [];
  s_ingest_max_body_bytes := 2000000; s_admin_token := []; s_retriage_per_day := 20;
  s_public_rate_limit_per_min := 60; retriage_lock_timeout_ms := 3000; cors_origins := u "http://localhost:3000";
  alerts_list_cache_ttl_s := 15; stats_cache_ttl_s := 60; alerts_cache_max_entries := 1024;
  tool_result_max_chars := 4000; assets_yaml_path := u "honeypot/assets.yaml"; tool_session_commands_max := 40;
  tool_session_downloads_max := 10; tool_command_max_chars := 200; maxmind_license_key := []; geoip_db_path := [];
  geoip_asn_db_path := []; abuseipdb_api_key := []; abuseipdb_cache_ttl_s := 86400; abuseipdb_timeout_s := flt 5;
  abuseipdb_max_age_days := 90; abuseipdb_cache_max_entries := 4096; abuseipdb_quota_backoff_s := 900;
  alert_history_max_window_hours := 720; tool_loop_max_iter := 6; daily_token_budget := 0;
  s_triage_job_max_tries := 3; s_triage_job_backoff_base_s := flt 2; s_triage_job_backoff_max_s := flt 60;
  stream_heartbeat_s := flt 15; stream_max_clients := 50; s_eval_gate_severity_drop_points := 3;
  s_eval_gate_critical_recall_min := int_div 90 100; s_eval_gate_cost_rise_fraction := int_div 50 100 |}.

(** SQLAlchemy, the SDK and ARQ, refusing a text without a scheme. *)
Definition parsed (url : pystr) : outcome exn Migration.url :=
  if prefixb (u "postgresql://") url then Ret (Migration.Url (u "postgresql") url) else Raise SQLAlchemyError.
Definition engine_of (e : Migration.Engine) : outcome exn unit :=
  if bool_decide (Migration.drivername (Migration.e_url e) = u "postgresql+psycopg") then Ret tt else Raise SQLAlchemyError.
Definition connected (s : Settings) : outcome exn unit := Ret tt.
Definition client_of (s : Settings) : outcome exn unit :=
  if prefixb (u "http") (llm_base_url s) then Ret tt else Raise (ValueError (u "Invalid URL")).
Definition dsn_of (url : pystr) : outcome exn pystr :=
  if prefixb (u "redis://") url then Ret url else Raise AssertionError.

Definition idle : WorkerContext (W := machine) := {| ctx_engine := false; ctx_http := false; ctx_pipeline := None |}.
Definition booted : outcome exn unit * WorkerContext (W := machine) :=
  startup isoformat_utc (fun _ => None) (fun _ => None) (fun _ => None) parsed engine_of connected
    client_of deployed live idle.
Definition deployed_worker : WorkerSettings (R := pystr) :=
  {| ws_queue_name := TRIAGE_QUEUE_NAME; ws_redis_settings := u "redis://queue"; ws_job_timeout := 120;
     ws_max_jobs := 4; ws_health_check_interval := 15; ws_retry_jobs := true; ws_max_tries := 3 |}.
End Toy.
Import IpReputation.Toy History.Toy TriageFacts.Toy Toy.

