(* ===== verification/SessionReport.v ===== *)
(** * SessionReport: the fixture-versus-real schema report

    [scripts/check_real_sessions.py]: the sampled rows' statistics ([collect]), their markdown
    ([render]) and the command once its arguments are parsed.  pydantic's validation and a
    float's text are parameters; a validated session comes with the extra keys the model keeps. *)

From S2P Require Import Prelude Errors Cli Json Datetime Schemas Floats Database Scoring Reads Recording.
#[local] Open Scope Z_scope.

Definition _SAFE_NAME_MAX_LEN : Z := 64.
Definition _MAX_INVALID_IDS_SHOWN : Z := 20.

(** [[A-Za-z0-9_.:*-]]. *)
Definition safe_char (c : Z) : bool :=
  (65 <=? c) && (c <=? 90) || (97 <=? c) && (c <=? 122) || (48 <=? c) && (c <=? 57)
  || bool_decide (c ∈ [95; 46; 58; 42; 45]).
Definition is_emphasis (c : Z) : bool := (c =? 42) || (c =? 95).

(** [([*_])\1+] to [\1]: a character equal to the marker before it is dropped. *)
Fixpoint collapse (before : option Z) (s : pystr) : pystr :=
  match s with
  | [] => []
  | c :: s' => if is_emphasis c && bool_decide (before = Some c) then collapse before s'
               else c :: collapse (Some c) s'
  end.
Definition QUESTION : Z := 63.
Definition _safe_name (name : pystr) : pystr :=
  collapse None (map (fun c => if safe_char c then c else QUESTION) (py_take _SAFE_NAME_MAX_LEN name)).

(** A part of a validation error's [loc]. *)
Inductive loc_part : Type := Index (i : Z) | Key (k : pystr).
Definition _first_loc_key (loc : list loc_part) : pystr :=
  py_join (u ".") (map (fun p => match p with Index _ => u "*" | Key k => k end) loc).

Definition SUMMARIZED_EVENTIDS : list pystr :=
  map u ["cowrie.session.connect"; "cowrie.client.version"; "cowrie.client.kex"; "cowrie.login.failed";
         "cowrie.login.success"; "cowrie.command.input"; "cowrie.command.failed";
         "cowrie.session.file_download"; "cowrie.session.file_upload"; "cowrie.session.closed";
         "cowrie.log.closed"]%string.
Definition OTHER_KNOWN_EVENTIDS : list pystr :=
  map u ["cowrie.client.size"; "cowrie.client.var"; "cowrie.client.fingerprint"; "cowrie.direct-tcpip.request";
         "cowrie.direct-tcpip.data"; "cowrie.session.params"; "cowrie.command.success"]%string.

(** A validated session, with [model_extra]: each event's, and the envelope's. *)
Record session : Type := {
  vs_alert : Alert.SessionAlert;
  vs_extras : list jobj;
  vs_envelope : jobj
}.

(** [SessionAlert.model_validate(raw)], or the first error's [loc]. *)
Class SessionModel : Type := session_validate : jobj -> list loc_part + session.

Record SessionReport : Type := {
  n_alerts : Z;
  n_invalid : Z;
  invalid_alert_ids : list pystr;
  invalid_locs : list (pystr * Z);
  eventid_counts : list (pystr * Z);
  unknown_eventids : list (pystr * Z);
  extra_fields_by_eventid : list (pystr * list pystr);
  extra_envelope_fields : list pystr;
  n_truncated : Z;
  truncated_events_total : Z;
  n_unclosed : Z;
  events_per_session_p50 : float;
  events_per_session_p95 : float;
  duration_ms_p50 : option float;
  duration_ms_p95 : option float;
  raw_bytes_mean : float;
  raw_bytes_total : Z;
  by_status : list (pystr * Z)
}.

(** The loop's variables; the sets hold their members once. *)
Record gathered : Type := Gathered {
  g_invalid_ids : list pystr;
  g_invalid_locs : list (pystr * Z);
  g_eventids : list (pystr * Z);
  g_unknown : list (pystr * Z);
  g_extra : list (pystr * list pystr);
  g_envelope : list pystr;
  g_truncated : Z;
  g_truncated_total : Z;
  g_unclosed : Z;
  g_events : list float;
  g_durations : list float;
  g_bytes : Z;
  g_status : list (pystr * Z)
}.

Section report.
Context {FR : FloatRepr} {SM : SessionModel}.
Variable str_uuid : uuid -> pystr.
(** [f"{x:.1f}"]. *)
Variable fixed_one : float -> pystr.

Definition float_of (z : Z) : float := int_div z 1.
Definition unknown_eventid (e : pystr) : bool :=
  negb (bool_decide (e ∈ SUMMARIZED_EVENTIDS)) && negb (bool_decide (e ∈ OTHER_KNOWN_EVENTIDS)).
Definition add_all (s new : list pystr) : list pystr := foldl (fun s x => if bool_decide (x ∈ s) then s else s ++ [x]) s new.

Definition note_extra (d : list (pystr * list pystr)) (e : pystr * jobj) : list (pystr * list pystr) :=
  match e.2 with [] => d | extra => dset e.1 (add_all (default [] (dget e.1 d)) (dkeys extra)) d end.

(** [shipper["truncated_events"]] of an envelope; a [bool] is an [int]. *)
Definition truncated_of (envelope : jobj) : option Z :=
  match dget (u "shipper") envelope with
  | Some (JObj shipper) =>
      (fun v => match v with JInt z => z | JBool b => if b then 1 else 0 | _ => 0 end)
      <$> dget (u "truncated_events") shipper
  | _ => None
  end.

Definition valid_row (g : gathered) (v : session) : gathered :=
  let a := vs_alert v in
  let ids := map Alert.eventid (Alert.events a) in
  Gathered (g_invalid_ids g) (g_invalid_locs g)
    (foldl count_one (g_eventids g) ids)
    (foldl count_one (g_unknown g) (List.filter unknown_eventid ids))
    (foldl note_extra (g_extra g) (zip ids (vs_extras v)))
    (add_all (g_envelope g) (dkeys (vs_envelope v)))
    (match truncated_of (vs_envelope v) with Some _ => g_truncated g + 1 | None => g_truncated g end)
    (g_truncated_total g + default 0 (truncated_of (vs_envelope v)))
    (match Alert.close_time a with None => g_unclosed g + 1 | Some _ => g_unclosed g end)
    (g_events g ++ [float_of (py_len (Alert.events a))])
    (match Alert.close_time a with
     | None => g_durations g
     | Some _ => g_durations g ++ [float_of (default 0 (Alert.duration_ms a))]
     end)
    (g_bytes g) (g_status g).

Definition gather (g : gathered) (row : AlertRow) : outcome exn gathered :=
  text ← dumps default_args (JObj (a_raw row));
  let g := Gathered (g_invalid_ids g) (g_invalid_locs g) (g_eventids g) (g_unknown g) (g_extra g)
             (g_envelope g) (g_truncated g) (g_truncated_total g) (g_unclosed g) (g_events g)
             (g_durations g) (g_bytes g + py_len text) (count_one (g_status g) (status_text (a_status row))) in
  match session_validate (a_raw row) with
  | inl loc =>
      Ret (Gathered (g_invalid_ids g ++ [str_uuid (a_id row)])
             (count_one (g_invalid_locs g) (_first_loc_key loc)) (g_eventids g) (g_unknown g) (g_extra g)
             (g_envelope g) (g_truncated g) (g_truncated_total g) (g_unclosed g) (g_events g)
             (g_durations g) (g_bytes g) (g_status g))
  | inr v => Ret (valid_row g v)
  end.

Fixpoint gather_all (g : gathered) (rows : list AlertRow) : outcome exn gathered :=
  match rows with [] => Ret g | row :: rows' => g' ← gather g row; gather_all g' rows' end.

Definition nothing : gathered := Gathered [] [] [] [] [] [] 0 0 0 [] [] 0 [].

(** [order_by(received_at.desc()).limit(limit)]; ties are the database's to order. *)
Definition later (a b : AlertRow) : Prop := a_received_at b <= a_received_at a.
#[export] Instance later_dec : RelDecision later.
Proof. intros a b. unfold later. apply _. Defined.
Definition newest (limit : Z) (rows : list AlertRow) : list AlertRow := py_take limit (merge_sort later rows).

Definition optional_percentile (values : list float) (p : Z) : outcome exn (option float) :=
  match values with [] => Ret None | _ => x ← percentile values (flt p); Ret (Some x) end.

Definition sorted_names (l : list pystr) : list pystr := merge_sort str_le l.

Definition summarize (rows : list AlertRow) : outcome exn SessionReport :=
  g ← gather_all nothing rows;
  e50 ← percentile (g_events g) (flt 50);
  e95 ← percentile (g_events g) (flt 95);
  d50 ← optional_percentile (g_durations g) 50;
  d95 ← optional_percentile (g_durations g) 95;
  Ret {| n_alerts := py_len rows; n_invalid := py_len (g_invalid_ids g);
         invalid_alert_ids := g_invalid_ids g; invalid_locs := g_invalid_locs g;
         eventid_counts := g_eventids g; unknown_eventids := g_unknown g;
         extra_fields_by_eventid := map (fun kv => (kv.1, sorted_names kv.2)) (g_extra g);
         extra_envelope_fields := sorted_names (g_envelope g);
         n_truncated := g_truncated g; truncated_events_total := g_truncated_total g;
         n_unclosed := g_unclosed g; events_per_session_p50 := e50; events_per_session_p95 := e95;
         duration_ms_p50 := d50; duration_ms_p95 := d95;
         raw_bytes_mean := (if py_len rows =? 0 then 0 else int_div (g_bytes g) (py_len rows));
         raw_bytes_total := g_bytes g; by_status := g_status g |}.

Definition collect (ts : tables) (limit : Z) : outcome exn SessionReport := summarize (newest limit (alerts ts)).

(** ** [render] *)

Definition EM_DASH : pystr := [8212].
Definition ELLIPSIS : pystr := [8230].
Definition TIMES : pystr := [215].
Definition SECTION : pystr := [167].
Definition _fmt_optional (x : option float) : pystr := from_option float_repr (u "n/a") x.
Definition metric (name value : pystr) : pystr := u "| " ++ name ++ u " | " ++ value ++ u " |".
Definition count_row (kv : pystr * Z) : pystr := metric (_safe_name kv.1) (str_of_Z kv.2).

Definition unknown_item (kv : pystr * Z) : pystr :=
  u "`" ++ _safe_name kv.1 ++ u "` seen " ++ str_of_Z kv.2 ++ u " time" ++ (if kv.2 =? 1 then [] else u "s")
  ++ u " " ++ EM_DASH ++ u " add to cowrie-events.md's 'other events' list".
Definition extra_items (kv : pystr * list pystr) : list pystr :=
  if bool_decide (kv.1 ∈ SUMMARIZED_EVENTIDS)
  then map (fun f => u "`" ++ _safe_name kv.1 ++ u "." ++ _safe_name f ++ u "` seen " ++ EM_DASH
              ++ u " consider a synthetic fixture carrying it (v2 fixtures, M7) " ++ EM_DASH
              ++ u " NEVER edit an existing v1 fixture") kv.2
  else [].
Definition invalid_item (r : SessionReport) : pystr :=
  let shown := py_take _MAX_INVALID_IDS_SHOWN (invalid_alert_ids r) in
  let remaining := py_len (invalid_alert_ids r) - py_len shown in
  str_of_Z (n_invalid r) ++ u " payload(s) failed `SessionAlert` " ++ EM_DASH ++ u " ids: `"
  ++ py_join (u ", ") shown
  ++ (if 0 <? remaining then u ", " ++ ELLIPSIS ++ u " and " ++ str_of_Z remaining ++ u " more" else [])
  ++ u "` (first `loc`s: `"
  ++ py_join (u ", ") (map (fun kv => _safe_name kv.1 ++ TIMES ++ str_of_Z kv.2) (sort_items (invalid_locs r)))
  ++ u "`); inspect on the box with `select id, received_at from alerts where id in (" ++ ELLIPSIS
  ++ u ")` " ++ EM_DASH ++ u " the report never prints `raw`".
Definition truncated_item (r : SessionReport) : pystr :=
  str_of_Z (n_truncated r) ++ u " session(s) were truncated by the shipper ("
  ++ str_of_Z (truncated_events_total r) ++ u " events dropped in total) " ++ EM_DASH
  ++ u " review the shipper's spool/truncation settings".

Definition _suggested_followups (r : SessionReport) : list pystr :=
  map unknown_item (sort_items (unknown_eventids r))
  ++ flat_map extra_items (sort_items (extra_fields_by_eventid r))
  ++ (if 0 <? n_invalid r then [invalid_item r] else [])
  ++ (if 0 <? n_truncated r then [truncated_item r] else []).

Definition section_of (title : pystr) (header : list pystr) (rows : list pystr) : list pystr :=
  [[]; title] ++ match rows with [] => [u "None observed."] | _ => header ++ rows end.

Definition summary_rows (r : SessionReport) : list pystr :=
  [metric (u "n_alerts") (str_of_Z (n_alerts r)); metric (u "n_invalid") (str_of_Z (n_invalid r));
   metric (u "n_truncated") (str_of_Z (n_truncated r));
   metric (u "truncated_events_total") (str_of_Z (truncated_events_total r));
   metric (u "n_unclosed") (str_of_Z (n_unclosed r));
   metric (u "events_per_session_p50") (float_repr (events_per_session_p50 r));
   metric (u "events_per_session_p95") (float_repr (events_per_session_p95 r));
   metric (u "duration_ms_p50") (_fmt_optional (duration_ms_p50 r));
   metric (u "duration_ms_p95") (_fmt_optional (duration_ms_p95 r));
   metric (u "raw_bytes_mean") (fixed_one (raw_bytes_mean r));
   metric (u "raw_bytes_total") (str_of_Z (raw_bytes_total r))].

Definition RULE : pystr := u "|---|---|".
Definition report_lines (r : SessionReport) : list pystr :=
  [u "# check_real_sessions report"; [];
   u "Field names and counts only " ++ EM_DASH ++ u " never an attacker-controlled value or a label (PRD "
     ++ SECTION ++ u "10.6)."; [];
   u "## Summary"; u "| metric | value |"; RULE]
  ++ summary_rows r
  ++ [[]; u "_Percentiles and per-eventid counts are computed over the `n_alerts - n_invalid` rows "
          ++ u "that validated; `raw_bytes_*` covers all `n_alerts`._"; [];
      u "_`raw_bytes_*` is `len(json.dumps(raw))`, a payload-size proxy " ++ EM_DASH
        ++ u " not on-disk size; use `pg_database_size` for the retention table._"; [];
      u "## Eventid counts"; u "| eventid | count |"; RULE]
  ++ map count_row (sort_items (eventid_counts r))
  ++ section_of (u "## Unknown eventids") [u "| eventid | count |"; RULE] (map count_row (sort_items (unknown_eventids r)))
  ++ section_of (u "## Extra fields by eventid (names only, never values)") [u "| eventid | fields |"; RULE]
       (map (fun kv => metric (_safe_name kv.1) (py_join (u ", ") (map _safe_name kv.2)))
          (sort_items (extra_fields_by_eventid r)))
  ++ section_of (u "## Envelope-level extra fields (names only, never values)") [u "| field |"; u "|---|"]
       (map (fun f => u "| " ++ _safe_name f ++ u " |") (extra_envelope_fields r))
  ++ [[]; u "## Status breakdown"; u "| status | count |"; RULE]
  ++ map (fun kv => metric kv.1 (str_of_Z kv.2)) (sort_items (by_status r))
  ++ [[]; u "## Suggested follow-ups"]
  ++ match _suggested_followups r with [] => [u "- None."] | items => map (fun i => u "- " ++ i) items end.

Definition render (r : SessionReport) : pystr := py_join [10] (report_lines r) ++ [10].

(** ** [main], once the arguments are parsed and a database is named *)

Definition clamp_limit (limit : Z) : Z := Z.max 1 (Z.min limit 5000).

(** The exit code, stdout and stderr; [read] is the sampling query's answer. *)
Definition report_main (limit : Z) (read : outcome exn tables) : outcome exn (Z * list pystr * list pystr) :=
  let n := clamp_limit limit in
  let note := if n =? limit then [] else [u "note: --limit clamped to " ++ str_of_Z n] in
  match (ts ← read; collect ts n) with
  | Ret r => Ret (0, [render r], note)
  | Raise ((OSError | TimeoutError | SQLAlchemyError) as e) =>
      Ret (1, [], note ++ [error_line (u "database_error") (exn_name e ++ u ": could not read alerts")])
  | Raise e => Raise e
  end.
End report.

(** ** Names *)

(** What a name is after [_safe_name]: short, of harmless characters, and without a run of one
    emphasis marker, so that it neither closes its table cell nor starts emphasis. *)
Definition harmless (c : Z) : bool := safe_char c || (c =? QUESTION).
Fixpoint no_run (s : pystr) : bool :=
  match s with
  | c :: (d :: _) as s' => negb (is_emphasis c && (c =? d)) && no_run s'
  | _ => true
  end.
Definition defanged (s : pystr) : Prop :=
  py_len s <= _SAFE_NAME_MAX_LEN /\ Forall (fun c => harmless c = true) s /\ no_run s = true.

Lemma collapse_length before s : (length (collapse before s) <= length s)%nat.
Proof.
  revert before. induction s as [|c s IH]; intros before; cbn [collapse length]; [lia|].
  case_match; cbn [length]; [specialize (IH before)|specialize (IH (Some c))]; lia.
Qed.
Lemma collapse_forall P before s : Forall P s -> Forall P (collapse before s).
Proof.
  intros H. revert before. induction H as [|c s Hc _ IH]; intros before; cbn [collapse]; [constructor|].
  case_match; [apply IH|by constructor].
Qed.
Lemma collapse_no_run before s :
  no_run (collapse before s) = true /\
  (forall c, head (collapse before s) = Some c -> is_emphasis c = true -> before <> Some c).
Proof.
  revert before. induction s as [|c s IH]; intros before; cbn [collapse]; [by split|].
  destruct (is_emphasis c && bool_decide (before = Some c)) eqn:E; [apply IH|]. split.
  - destruct (IH (Some c)) as [Hrun Hhead]. destruct (collapse (Some c) s) as [|d r] eqn:Ec; [done|].
    change (no_run (c :: d :: r)) with (negb (is_emphasis c && (c =? d)) && no_run (d :: r)).
    rewrite Hrun, andb_true_r. apply negb_true_iff, andb_false_iff.
    destruct (is_emphasis c) eqn:Hc; [right|by left]. apply Z.eqb_neq. intros ->. by apply (Hhead d).
  - intros d [= <-] Hc Hb. rewrite Hc, Hb, bool_decide_eq_true_2 in E by done. done.
Qed.

Lemma safe_name_defanged name : defanged (_safe_name name).
Proof.
  unfold _safe_name, defanged. split_and!.
  - pose proof (collapse_length None (map (fun c => if safe_char c then c else QUESTION) (py_take _SAFE_NAME_MAX_LEN name))) as H.
    rewrite length_map in H. unfold py_len, py_take in *. rewrite length_take in H. unfold _SAFE_NAME_MAX_LEN in *. lia.
  - apply collapse_forall, Forall_map, Forall_forall. intros c _. unfold harmless.
    destruct (safe_char c) eqn:E; [by rewrite E|]. by rewrite Z.eqb_refl, orb_true_r.
  - apply collapse_no_run.
Qed.

(** ** The sample *)

Section facts.
Context {FR : FloatRepr} {SM : SessionModel}.
Variable str_uuid : uuid -> pystr.

(** Two rows a report cannot tell apart: the same names, counts, sizes and statuses; the values
    (addresses, credentials, commands, times, those of the extra fields) are free. *)
Definition same_session (v v' : session) : Prop :=
  map Alert.eventid (Alert.events (vs_alert v)) = map Alert.eventid (Alert.events (vs_alert v')) /\
  map dkeys (vs_extras v) = map dkeys (vs_extras v') /\ dkeys (vs_envelope v) = dkeys (vs_envelope v') /\
  truncated_of (vs_envelope v) = truncated_of (vs_envelope v') /\
  match Alert.close_time (vs_alert v), Alert.close_time (vs_alert v') with
  | None, None => True
  | Some _, Some _ => default 0 (Alert.duration_ms (vs_alert v)) = default 0 (Alert.duration_ms (vs_alert v'))
  | _, _ => False
  end.
Definition same_shape (row row' : AlertRow) : Prop :=
  a_id row = a_id row' /\ a_status row = a_status row' /\
  py_len <$> dumps default_args (JObj (a_raw row)) = py_len <$> dumps default_args (JObj (a_raw row')) /\
  match session_validate (a_raw row), session_validate (a_raw row') with
  | inl loc, inl loc' => _first_loc_key loc = _first_loc_key loc'
  | inr v, inr v' => same_session v v'
  | _, _ => False
  end.

Lemma note_extra_names d i x x' : dkeys x = dkeys x' -> note_extra d (i, x) = note_extra d (i, x').
Proof. intros H. destruct x as [|p x], x' as [|p' x']; try done. unfold note_extra. cbn [fst snd]. by rewrite H. Qed.

Lemma note_extras_names d ids extras extras' : map dkeys extras = map dkeys extras' ->
  foldl note_extra d (zip ids extras) = foldl note_extra d (zip ids extras').
Proof.
  revert d ids extras'. induction extras as [|x extras IH]; intros d ids [|x' extras'] H; try done.
  injection H as Hx H. destruct ids as [|i ids]; [done|]. cbn [zip zip_with foldl].
  rewrite (note_extra_names d i x x' Hx). by apply IH.
Qed.

Lemma valid_row_shape g v v' : same_session v v' -> valid_row g v = valid_row g v'.
Proof.
  intros (Hids & Hx & He & Ht & Hc). unfold valid_row. rewrite Hids, (note_extras_names _ _ _ _ Hx), He, Ht.
  assert (Hl : py_len (Alert.events (vs_alert v)) = py_len (Alert.events (vs_alert v'))).
  { unfold py_len. rewrite <- (length_map Alert.eventid (Alert.events (vs_alert v))), Hids. by rewrite length_map. }
  rewrite Hl. destruct (Alert.close_time (vs_alert v)), (Alert.close_time (vs_alert v')); try done. by rewrite Hc.
Qed.

Lemma gather_shape g row row' : same_shape row row' -> gather str_uuid g row = gather str_uuid g row'.
Proof.
  intros (Hid & Hst & Hlen & Hv). unfold gather, mbind, outcome_bind.
  destruct (dumps default_args (JObj (a_raw row))) as [t|e], (dumps default_args (JObj (a_raw row'))) as [t'|e'];
    simplify_eq/=; [|done].
  rewrite Hlen, Hst, Hid. destruct (session_validate (a_raw row)), (session_validate (a_raw row')); try done.
  - by rewrite Hv.
  - f_equal. by apply valid_row_shape.
Qed.

Lemma summarize_shape rows rows' :
  Forall2 same_shape rows rows' -> summarize str_uuid rows = summarize str_uuid rows'.
Proof.
  intros H. unfold summarize.
  assert (Hl : py_len rows = py_len rows') by (unfold py_len; by rewrite (Forall2_length _ _ _ H)).
  assert (Hg : forall g, gather_all str_uuid g rows = gather_all str_uuid g rows').
  { clear Hl. induction H as [|row row' rows rows' Hr _ IH]; intros g; [done|]. cbn [gather_all].
    rewrite (gather_shape g row row' Hr). unfold mbind, outcome_bind. destruct (gather str_uuid g row'); [apply IH|done]. }
  by rewrite Hg, Hl.
Qed.


Definition valid_of (row : AlertRow) : option session :=
  match session_validate (a_raw row) with inr v => Some v | inl _ => None end.
Definition loc_of (row : AlertRow) : option pystr :=
  match session_validate (a_raw row) with inl loc => Some (_first_loc_key loc) | inr _ => None end.
Definition ids_of (v : session) : list pystr := map Alert.eventid (Alert.events (vs_alert v)).
Definition is_truncated (v : session) : bool := bool_decide (is_Some (truncated_of (vs_envelope v))).
Definition is_closed (v : session) : bool := bool_decide (is_Some (Alert.close_time (vs_alert v))).

Lemma omap_valid row rows : omap valid_of (row :: rows) =
  match session_validate (a_raw row) with inl _ => omap valid_of rows | inr v => v :: omap valid_of rows end.
Proof. cbn [omap list_omap]. unfold valid_of at 1. by destruct (session_validate (a_raw row)). Qed.
Lemma omap_loc row rows : omap loc_of (row :: rows) =
  match session_validate (a_raw row) with
  | inl loc => _first_loc_key loc :: omap loc_of rows
  | inr _ => omap loc_of rows
  end.
Proof. cbn [omap list_omap]. unfold loc_of at 1. by destruct (session_validate (a_raw row)). Qed.

Lemma gather_all_spec rows g g' :
  gather_all str_uuid g rows = Ret g' ->
  let vs := omap valid_of rows in
  length (g_invalid_ids g') = (length (g_invalid_ids g) + length (omap loc_of rows))%nat /\
  (length (omap loc_of rows) + length vs = length rows)%nat /\
  g_invalid_locs g' = foldl count_one (g_invalid_locs g) (omap loc_of rows) /\
  g_eventids g' = foldl count_one (g_eventids g) (flat_map ids_of vs) /\
  g_unknown g' = foldl count_one (g_unknown g) (List.filter unknown_eventid (flat_map ids_of vs)) /\
  g_status g' = foldl count_one (g_status g) (map (fun row => status_text (a_status row)) rows) /\
  g_truncated g' = g_truncated g + count is_truncated vs /\
  g_unclosed g' = g_unclosed g + count (fun v => negb (is_closed v)) vs /\
  length (g_events g') = (length (g_events g) + length vs)%nat /\
  Z.of_nat (length (g_durations g')) = Z.of_nat (length (g_durations g)) + count is_closed vs.
Proof.
  revert g. induction rows as [|row rows IH]; intros g; cbn [gather_all].
  { intros [= <-]. unfold count, py_len. simpl. split_and!; try done; lia. }
  unfold mbind, outcome_bind, gather, mbind, outcome_bind.
  destruct (dumps default_args (JObj (a_raw row))) as [text|]; [|done].
  rewrite omap_valid, omap_loc.
  destruct (session_validate (a_raw row)) as [loc|v]; intros H; apply IH in H; clear IH;
    destruct H as (H1 & H2 & H3 & H4 & H5 & H6 & H7 & H8 & H9 & H10).
  - cbn [g_invalid_ids g_invalid_locs g_eventids g_unknown g_status g_truncated g_unclosed g_events g_durations] in *.
    rewrite length_app in H1. cbn [length map foldl] in *. split_and!; try done; lia.
  - unfold valid_row in *. cbn [g_invalid_ids g_invalid_locs g_eventids g_unknown g_status g_truncated g_unclosed g_events g_durations] in *.
    cbn [length map foldl flat_map]. fold (ids_of v) in H4, H5. rewrite List.filter_app, !foldl_app.
    rewrite length_app in H9. unfold count, py_len in *. cbn [List.filter length] in *.
    unfold is_truncated, is_closed in *.
    split_and!; try done; try lia.
    + rewrite H7. destruct (truncated_of (vs_envelope v)); cbn [length]; [rewrite bool_decide_true by done|rewrite bool_decide_false by (by intros [? ?])]; cbn [length]; lia.
    + rewrite H8. destruct (Alert.close_time (vs_alert v)); [rewrite bool_decide_true by done|rewrite bool_decide_false by (by intros [? ?])]; cbn [negb length]; lia.
    + rewrite H10. destruct (Alert.close_time (vs_alert v)); [rewrite bool_decide_true by done; rewrite length_app|rewrite bool_decide_false by (by intros [? ?])]; cbn [length]; lia.
Qed.


Lemma percentile_50_95 values p :
  p = 50 \/ p = 95 -> py_len values <= 2 ^ 42 -> exists x, percentile values (flt p) = Ret x.
Proof.
  intros Hp Hn. pose proof (percentile_ret values p Hp Hn) as H.
  destruct (percentile values (flt p)) as [x|]; [by exists x|done].
Qed.

Lemma optional_percentile_spec values p :
  p = 50 \/ p = 95 -> py_len values <= 2 ^ 42 ->
  exists x, optional_percentile values p = Ret x /\ (x = None <-> values = []).
Proof.
  intros Hp Hn. unfold optional_percentile. destruct values as [|v values]; [by exists None|].
  destruct (percentile_50_95 (v :: values) p Hp Hn) as [x E]. unfold mbind, outcome_bind. rewrite E.
  by exists (Some x).
Qed.

Lemma gather_all_ret rows g :
  Forall (fun row => serializable (JObj (a_raw row)) = true) rows -> exists g', gather_all str_uuid g rows = Ret g'.
Proof.
  intros H. revert g. induction H as [|row rows Hs _ IH]; intros g; cbn [gather_all]; [by exists g|].
  unfold gather, dumps, mbind, outcome_bind. rewrite Hs. destruct (session_validate (a_raw row)); apply IH.
Qed.

Lemma filter_eq_List {A} `{EqDecision A} (P : A -> bool) k (l : list A) :
  P k = true -> filter (eq k) (List.filter P l) = filter (eq k) l.
Proof.
  intros HP. induction l as [|x l IH]; [done|]. cbn [List.filter]. destruct (P x) eqn:E.
  - rewrite !filter_cons. by rewrite IH.
  - rewrite filter_cons, decide_False; [done|]. by intros ->; congruence.
Qed.
Lemma elem_of_List_filter {A} (P : A -> bool) k (l : list A) : k ∈ List.filter P l <-> k ∈ l /\ P k = true.
Proof. by rewrite !list_elem_of_In, filter_In. Qed.

(** The extra keys and the tallies of a report agree with the sessions that validated. *)
Definition adds_up (rows : list AlertRow) (r : SessionReport) : Prop :=
  let vs := omap valid_of rows in
  n_alerts r = py_len rows /\ n_invalid r + py_len vs = n_alerts r /\
  py_len (invalid_alert_ids r) = n_invalid r /\ dtotal (invalid_locs r) = n_invalid r /\
  dtotal (by_status r) = n_alerts r /\
  dtotal (eventid_counts r) = py_len (flat_map ids_of vs) /\
  (forall e, dget e (eventid_counts r) =
     if decide (e ∈ flat_map ids_of vs) then Some (Z.of_nat (length (filter (eq e) (flat_map ids_of vs)))) else None) /\
  (forall e, dget e (unknown_eventids r) = if unknown_eventid e then dget e (eventid_counts r) else None) /\
  n_truncated r = count is_truncated vs /\ n_unclosed r = count (fun v => negb (is_closed v)) vs /\
  (duration_ms_p50 r = None <-> count is_closed vs = 0) /\ (duration_ms_p95 r = None <-> count is_closed vs = 0).

(** The report always exists and adds up: whatever the stored payloads are, a sample is summarized
    without raising; every sampled row is counted once, as invalid (with its id and its
    first error's path) or in the statistics, and once by status; the eventid counts are
    the events of the valid sessions, the unknown ones exactly those of neither list; the
    duration percentiles are absent exactly when no valid session closed. *)
Theorem report_adds_up rows :
  Forall (fun row => serializable (JObj (a_raw row)) = true) rows -> py_len rows <= 2 ^ 42 ->
  exists r, summarize str_uuid rows = Ret r /\ adds_up rows r.
Proof.
  intros Hs Hn. unfold summarize. destruct (gather_all_ret rows nothing Hs) as [g Eg].
  pose proof (gather_all_spec rows nothing g Eg) as H. cbv zeta in H.
  destruct H as (H1 & H2 & H3 & H4 & H5 & H6 & H7 & H8 & H9 & H10).
  cbn [nothing g_invalid_ids g_invalid_locs g_eventids g_unknown g_status g_truncated g_unclosed g_events g_durations length] in *.
  assert (Hcl : count is_closed (omap valid_of rows) <= py_len (omap valid_of rows))
    by (unfold count, py_len; pose proof (List.filter_length_le is_closed (omap valid_of rows)); lia).
  unfold py_len in Hn, Hcl. unfold mbind, outcome_bind. rewrite Eg.
  destruct (percentile_50_95 (g_events g) 50) as [e50 ->]; [by left|unfold py_len; lia|].
  destruct (percentile_50_95 (g_events g) 95) as [e95 ->]; [by right|unfold py_len; lia|].
  destruct (optional_percentile_spec (g_durations g) 50) as (d50 & -> & Hd50); [by left|unfold py_len; lia|].
  destruct (optional_percentile_spec (g_durations g) 95) as (d95 & -> & Hd95); [by right|unfold py_len; lia|].
  eexists. split; [reflexivity|]. unfold adds_up.
  cbn [n_alerts n_invalid invalid_alert_ids invalid_locs by_status eventid_counts unknown_eventids n_truncated
       n_unclosed duration_ms_p50 duration_ms_p95].
  destruct (tally_of_spec (omap loc_of rows)) as (_ & Hlocs & _).
  destruct (tally_of_spec (map (fun row => status_text (a_status row)) rows)) as (_ & Hst & _).
  destruct (tally_of_spec (flat_map ids_of (omap valid_of rows))) as (_ & Hev & Hget).
  destruct (tally_of_spec (List.filter unknown_eventid (flat_map ids_of (omap valid_of rows)))) as (_ & _ & Hunk).
  unfold tally_of in *. rewrite <- H3 in Hlocs. rewrite <- H4 in Hev, Hget. rewrite <- H5 in Hunk. rewrite <- H6 in Hst.
  rewrite length_map in Hst. unfold py_len.
  assert (Hnil : forall l : list float, l = [] <-> Z.of_nat (length l) = 0) by (intros [|]; cbn [length]; naive_solver lia).
  split_and!; try done; try lia.
  - intros e. rewrite Hunk, Hget. destruct (unknown_eventid e) eqn:Eu.
    + rewrite filter_eq_List by done. pose proof (elem_of_List_filter unknown_eventid e (flat_map ids_of (omap valid_of rows))).
      do 2 case_decide; tauto || done.
    + rewrite decide_False; [done|]. intros [_ ?]%elem_of_List_filter. congruence.
  - rewrite Hd50, Hnil. lia.
  - rewrite Hd95, Hnil. lia.
Qed.

(** ** Every name is made safe *)

(** Two entries that show the same: the names may differ where [_safe_name] hides it. *)
Definition shown_alike {V} (kv kv' : pystr * V) : Prop := _safe_name kv.1 = _safe_name kv'.1 /\ kv.2 = kv'.2.
Definition extras_alike (kv kv' : pystr * list pystr) : Prop :=
  _safe_name kv.1 = _safe_name kv'.1 /\ map _safe_name kv.2 = map _safe_name kv'.2 /\
  (kv.1 ∈ SUMMARIZED_EVENTIDS <-> kv'.1 ∈ SUMMARIZED_EVENTIDS).

Definition figures (r : SessionReport) :=
  (n_alerts r, n_invalid r, n_truncated r, truncated_events_total r, n_unclosed r,
   (events_per_session_p50 r, events_per_session_p95 r, duration_ms_p50 r, duration_ms_p95 r),
   (raw_bytes_mean r, raw_bytes_total r)).

(** Two reports with the same figures whose names (eventids, extra fields, paths of errors)
    differ only in what is not safe. *)
Record alike (r r' : SessionReport) : Prop := {
  al_figures : figures r = figures r';
  al_ids : invalid_alert_ids r = invalid_alert_ids r';
  al_status : by_status r = by_status r';
  al_locs : Forall2 shown_alike (sort_items (invalid_locs r)) (sort_items (invalid_locs r'));
  al_eventids : Forall2 shown_alike (sort_items (eventid_counts r)) (sort_items (eventid_counts r'));
  al_unknown : Forall2 shown_alike (sort_items (unknown_eventids r)) (sort_items (unknown_eventids r'));
  al_extras : Forall2 extras_alike (sort_items (extra_fields_by_eventid r)) (sort_items (extra_fields_by_eventid r'));
  al_envelope : map _safe_name (extra_envelope_fields r) = map _safe_name (extra_envelope_fields r')
}.

Lemma map_alike {A B} (R : A -> A -> Prop) (f : A -> B) l l' :
  (forall x y, R x y -> f x = f y) -> Forall2 R l l' -> map f l = map f l'.
Proof. intros Hf. induction 1 as [|x y l l' H _ IH]; [done|]. cbn [map]. by rewrite (Hf x y H), IH. Qed.

Lemma map_through (f : pystr -> pystr) l l' :
  map _safe_name l = map _safe_name l' -> map (fun x => f (_safe_name x)) l = map (fun x => f (_safe_name x)) l'.
Proof. intros H. rewrite <- (map_map _safe_name f l), <- (map_map _safe_name f l'). by rewrite H. Qed.

Lemma extra_items_alike kv kv' : extras_alike kv kv' -> extra_items kv = extra_items kv'.
Proof.
  intros (Hn & Hf & Hs). unfold extra_items. rewrite (bool_decide_ext _ _ Hs). destruct (bool_decide _); [|done].
  rewrite Hn. apply (map_through (fun f => u "`" ++ _safe_name kv'.1 ++ u "." ++ f ++ _)), Hf.
Qed.

Lemma followups_alike r r' : alike r r' -> _suggested_followups r = _suggested_followups r'.
Proof.
  intros [[= _ Hi Ht Htot] Hids _ Hl _ Hu Hx _]. unfold _suggested_followups.
  assert (Hitem : invalid_item r = invalid_item r').
  { unfold invalid_item. rewrite Hi, Hids.
    rewrite (map_alike shown_alike (fun kv => _safe_name kv.1 ++ TIMES ++ str_of_Z kv.2) _ _ ltac:(by intros ? ? [-> ->]) Hl).
    done. }
  rewrite Hitem, Hi, Ht. unfold truncated_item. rewrite Ht, Htot.
  rewrite (map_alike shown_alike unknown_item _ _ ltac:(unfold unknown_item; by intros ? ? [-> ->]) Hu).
  rewrite !flat_map_concat_map. by rewrite (map_alike extras_alike extra_items _ _ extra_items_alike Hx).
Qed.

Lemma render_alike (fixed_one : float -> pystr) r r' : alike r r' -> render fixed_one r = render fixed_one r'.
Proof.
  intros Ha. pose proof (followups_alike r r' Ha) as Hf.
  destruct Ha as [Hs _ Hst _ He Hu Hx Hv]. unfold render, report_lines. rewrite Hf, Hst.
  assert (Hrows : summary_rows fixed_one r = summary_rows fixed_one r').
  { unfold summary_rows. injection Hs as -> -> -> -> -> -> -> -> -> -> ->. done. }
  rewrite Hrows.
  assert (Hc : forall kv kv' : pystr * Z, shown_alike kv kv' -> count_row kv = count_row kv')
    by (intros ? ? [Hn Hv']; unfold count_row; by rewrite Hn, Hv').
  rewrite (map_alike _ count_row _ _ Hc He), (map_alike _ count_row _ _ Hc Hu).
  rewrite (map_alike extras_alike (fun kv => metric (_safe_name kv.1) (py_join (u ", ") (map _safe_name kv.2))) _ _
             ltac:(intros ? ? (-> & -> & _); done) Hx).
  by rewrite (map_through (fun f => u "| " ++ f ++ u " |") _ _ Hv).
Qed.

(** C38: the report prints names and counts only: two samples that differ in any value of their
    sessions (addresses, credentials, commands, timestamps within a duration, the values of
    extra fields) but not in names, counts and sizes give the same report, to the character;
    every name in it, of an event, an extra field or an error's path, is printed as
    [_safe_name] shows it and no otherwise, since two reports whose names differ only in what
    [_safe_name] hides are the same text; and that is at most 64 characters of a harmless
    alphabet without a run of one emphasis marker. *)
Theorem report_withholds_values (fixed_one : float -> pystr) rows rows' :
  Forall2 same_shape rows rows' ->
  (r ← summarize str_uuid rows; Ret (render fixed_one r)) = (r ← summarize str_uuid rows'; Ret (render fixed_one r)) /\
  (forall r r', alike r r' -> render fixed_one r = render fixed_one r') /\
  forall name, defanged (_safe_name name).
Proof.
  intros H. split; [by rewrite (summarize_shape rows rows' H)|]. split; [apply render_alike|apply safe_name_defanged].
Qed.
End facts.

(** ** Two sessions with different commands *)

Module ReportToy.
Definition row (command : pystr) : AlertRow :=
  {| a_id := 1; a_fingerprint := []; a_source := u "cowrie"; a_event_time := Datetime 0 (Some 0);
     a_received_at := 0; a_raw := [(u "input", JStr command)]; a_status := triaged |}.
#[export] Instance validate : SessionModel := fun raw =>
  inr {| vs_alert := Alert.toy_alert (match dget (u "input") raw with Some (JStr s) => s | _ => [] end)
           [Alert.toy_event Alert.CONNECT 0; Alert.toy_event (u "cowrie.new") 3; Alert.toy_event Alert.CLOSED 5000];
         vs_extras := [[(u "hassh", JStr (u "input"))]; [(u "**x**", default JNull (dget (u "input") raw))]; []];
         vs_envelope := [(u "shipper", JObj [(u "truncated_events", JInt 2)])] |}.
End ReportToy.

Lemma report_adds_up_witness :
  exists r, @summarize toy_float_repr ReportToy.validate (fun _ => u "id") [ReportToy.row (u "ls")] = Ret r /\
    unknown_eventids r = [(u "cowrie.new", 1)] /\ n_truncated r = 1 /\ n_invalid r = 0 /\ duration_ms_p50 r <> None.
Proof.
  destruct (@report_adds_up toy_float_repr ReportToy.validate (fun _ => u "id") [ReportToy.row (u "ls")])
    as (r & E & _ & Hinv & _ & _ & _ & _ & _ & _ & Ht & _ & Hd & _).
  - repeat constructor.
  - vm_compute. discriminate.
  - exists r. split; [exact E|].
    assert (H : match @summarize toy_float_repr ReportToy.validate (fun _ => u "id") [ReportToy.row (u "ls")] with
                | Ret r => unknown_eventids r = [(u "cowrie.new", 1)] /\ n_truncated r = 1 /\ n_invalid r = 0 /\
                    bool_decide (duration_ms_p50 r = None) = false
                | Raise _ => False
                end) by (vm_compute; repeat split).
    rewrite E in H. destruct H as (H1 & H2 & H3 & H4%bool_decide_eq_false). repeat split; assumption.
Defined.

Lemma report_withholds_values_witness :
  (r ← @summarize toy_float_repr ReportToy.validate (fun _ => u "id") [ReportToy.row (u "rm x")];
   Ret (@render toy_float_repr (fun _ => []) r)) =
  (r ← @summarize toy_float_repr ReportToy.validate (fun _ => u "id") [ReportToy.row (u "ls -")];
   Ret (@render toy_float_repr (fun _ => []) r)) /\
  _safe_name (u "**x**|") = u "*x*?" /\ defanged (_safe_name (u "**x**|")).
Proof.
  destruct (@report_withholds_values toy_float_repr ReportToy.validate (fun _ => u "id") (fun _ => [])
    [ReportToy.row (u "rm x")] [ReportToy.row (u "ls -")]) as (E & _ & D);
    [|split; [exact E|split; [reflexivity|apply D]]].
  constructor; [|constructor]. split; [reflexivity|]. split; [reflexivity|]. split; [vm_compute; reflexivity|].
  vm_compute. repeat split.
Defined.
