(* ===== verification/EvalRun.v ===== *)
(** * EvalRun: the cases of an evaluation run

    [evals/run.py]: [run_golden], with its [_judge] and [_run_one], the run's model
    configuration and the payload of its artifact.  The pipeline is a parameter of the
    definitions; the theorem is of [TriagePipeline.run] itself.  The
    tasks [asyncio.gather] runs share nothing but the outside world: a schedule is an order
    in which whole cases meet it, and the theorems hold for every schedule. *)

From S2P Require Import Prelude Errors Json Datetime Schemas Llm Policy Prompts Budget Triage TriageRaises Golden Judge Scoring Publish.
#[local] Open Scope Z_scope.

Definition is_v2_golden (path : pystr) : bool := prefixb (u "v2") (last_component [] path).

(** [sort_keys=True, separators=(",", ":"), ensure_ascii=True]. *)
Definition trace_args : dumps_args := DumpsArgs true true None (u ",") (u ":").

Definition trace_json (tool_calls : list ToolCallRecord) : json :=
  JArr (map (fun call => JObj [(u "name", JStr (tool_name call)); (u "arguments", JObj (arguments call));
                               (u "result", JObj (result call))]) tool_calls).

Definition _tool_trace_sha256 `{FloatRepr} `{Sha256} (tool_calls : list ToolCallRecord)
    : outcome exn pystr :=
  canonical ← dumps trace_args (trace_json tool_calls); Ret (sha256_text canonical).

(** ** [run_golden] *)

(** [judge_llm] is given: the judge's model and prompt version. *)
Record Judging : Type := { judge_model : pystr; judge_prompt_version : pystr }.

Section cases.
Context {W : Type} {FR : FloatRepr} {SH : Sha256} {LZ : LocalZone} {SD : SummaryDump} {JL : JsonLoads}
        {PF : JudgePromptFiles} {SR : StrRepr} {JC : JudgeClient W}.
Variable JUDGE_SCORE_SCHEMA : json.
(** [pipeline.run(alert)]. *)
Variable pipeline_run : Alert.SessionAlert -> M exn W TriageOutcome.
Variable judging : option Judging.

Definition tool_result (call : ToolCallRecord) : jobj :=
  [(u "tool_name", JStr (tool_name call)); (u "arguments", JObj (arguments call));
   (u "result", JObj (result call))].

(** [except (StructuredOutputError, VerdictValidationError, LLMCallError)]. *)
Definition judge_failure (e : exn) : bool :=
  isinstance e CStructuredOutputError || isinstance e CVerdictValidationError
  || isinstance e CLLMCallError.

(** The spend of a failed judgment: the exception's own, or its cause's. *)
Definition failed_cost (e : raised) : Z :=
  match exc e, cause e with
  | StructuredOutputError _ se, _ => se_cost_usd se
  | _, Some (StructuredOutputError _ se) => se_cost_usd se
  | _, _ => 0
  end.

Definition _judge (case : GoldenCase) (o : TriageOutcome)
    : M raised W (option JudgeScore * Z * option pystr) :=
  match judging with
  | None => mret (None, 0, None)
  | Some j =>
      try_except
        (r ← judge_case JUDGE_SCORE_SCHEMA (judge_model j) (judge_prompt_version j)
               (Summarize.summarize_session (g_alert case)) (map tool_result (o_tool_calls o))
               (o_verdict o);
         mret (Some (jo_score r), jo_cost_usd r, None))
        (fun e => if judge_failure (exc e)
                  then Some (mret (None, failed_cost e, Some (exn_name (exc e))))
                  else None)
  end.

(** A case whose pipeline raised: its spend is not known. *)
Definition failed_case (case : GoldenCase) (error trace : pystr) : CaseResult :=
  {| cr_case_id := case_id case; cr_label := g_label case; cr_verdict := None;
     cr_input_tokens := 0; cr_output_tokens := 0; cr_cost_usd := 0; cr_latency_ms := 0;
     cr_error := Some error; cr_tool_calls := 0; cr_escalated := false;
     cr_tool_trace_sha256 := trace; cr_judge := None; cr_judge_cost_usd := 0;
     cr_judge_error := None; cr_tags := g_tags case |}.

Definition scored_case (case : GoldenCase) (o : TriageOutcome) (trace : pystr)
    (judged : option JudgeScore * Z * option pystr) : CaseResult :=
  {| cr_case_id := case_id case; cr_label := g_label case; cr_verdict := Some (o_verdict o);
     cr_input_tokens := o_input_tokens o; cr_output_tokens := o_output_tokens o;
     cr_cost_usd := o_cost_usd o; cr_latency_ms := o_latency_ms o;
     cr_error := None; cr_tool_calls := py_len (o_tool_calls o); cr_escalated := escalated_model o;
     cr_tool_trace_sha256 := trace; cr_judge := judged.1.1; cr_judge_cost_usd := judged.1.2;
     cr_judge_error := judged.2; cr_tags := g_tags case |}.

Definition family_code (e : exn) : pystr :=
  match sb_class_of e with Some c => code c | None => [] end.

(** The text a captured exception leaves, [None] when it is not captured. *)
Definition case_error (e : exn) : option pystr :=
  if isinstance e CFixtureMissingError then Some (family_code e ++ u ":" ++ exn_msg e)
  else if isinstance e CVerdictValidationError || isinstance e CLLMCallError
  then Some (family_code e ++ u ": " ++ exn_msg e)
  else None.

Definition _run_one (case : GoldenCase) : M raised W CaseResult := fun w =>
  match plain (pipeline_run (g_alert case)) w with
  | (Raise e, w1) =>
      match case_error (exc e) with
      | Some text =>
          (trace ← plain (lift (_tool_trace_sha256 [])); mret (failed_case case text trace)) w1
      | None => (Raise e, w1)
      end
  | (Ret o, w1) =>
      (judged ← _judge case o;
       trace ← plain (lift (_tool_trace_sha256 (o_tool_calls o)));
       mret (scored_case case o trace judged)) w1
  end.

(** The cases meet the world in the order [schedule] gives their positions; the results
    are gathered by position. *)
Definition run_at (cases : list GoldenCase) (done_ : list (nat * CaseResult)) (i : nat)
    : M raised W (list (nat * CaseResult)) :=
  match cases !! i with
  | Some case => r ← _run_one case; mret (dset i r done_)
  | None => mret done_
  end.

Definition run_golden (schedule : list nat) (cases : list GoldenCase) : M raised W (list CaseResult) :=
  finished ← foldM (run_at cases) schedule [];
  mret (omap (fun i => dget i finished) (List.seq 0 (length cases))).
End cases.

(** ** Configuration and payload *)

Definition run_model_config (model judge_model strong_model prompt_version : pystr)
    (replay_strict judge : bool) : jobj :=
  [(u "model", JStr model); (u "judge_model", JStr judge_model);
   (u "replay_strict", JBool replay_strict); (u "judge", JBool judge);
   (u "strong_model", JStr strong_model); (u "prompt_version", JStr prompt_version)].

Definition opt_str (s : option pystr) : json := match s with Some s => JStr s | None => JNull end.

Definition label_json (l : GoldenLabel) : json :=
  JObj [(u "severity", JInt (l_severity l)); (u "category", JStr (Verdict.category_str (l_category l)));
        (u "escalate", JBool (l_escalate l))].
Definition judge_json (j : JudgeScore) : json :=
  JObj [(u "score", JInt (js_score j)); (u "cites_evidence", JBool (js_cites_evidence j));
        (u "fabrication", JBool (js_fabrication j)); (u "conclusion_follows", JBool (js_conclusion_follows j));
        (u "rationale", JStr (js_rationale j))].

(** [str(cost_usd)]: a failed case costs [Decimal(0)] (written "0"), a billed one has six places; so
    has a judgment that was answered. *)
Definition cost_text (r : CaseResult) : pystr :=
  match cr_verdict r with Some _ => fixed_six (cr_cost_usd r) | None => u "0" end.
Definition judge_cost_text (r : CaseResult) : pystr :=
  match cr_judge r, cr_judge_error r with
  | Some _, _ => fixed_six (cr_judge_cost_usd r)
  | None, Some name => if bool_decide (name = class_name CLLMCallError) then u "0"
                       else fixed_six (cr_judge_cost_usd r)
  | None, None => u "0"
  end.

(** [verdict_dump] is [Verdict.model_dump()]; the keys are the fields of [CaseResult]. *)
Definition _case_payload (verdict_dump : Verdict.Verdict -> json) (r : CaseResult) : json :=
  JObj [(u "case_id", JStr (cr_case_id r)); (u "label", label_json (cr_label r));
        (u "verdict", from_option verdict_dump JNull (cr_verdict r));
        (u "input_tokens", JInt (cr_input_tokens r)); (u "output_tokens", JInt (cr_output_tokens r));
        (u "cost_usd", JStr (cost_text r)); (u "latency_ms", JInt (cr_latency_ms r));
        (u "error", opt_str (cr_error r)); (u "tool_calls", JInt (cr_tool_calls r));
        (u "escalated", JBool (cr_escalated r));
        (u "tool_trace_sha256", JStr (cr_tool_trace_sha256 r));
        (u "judge", from_option judge_json JNull (cr_judge r));
        (u "judge_cost_usd", JStr (judge_cost_text r));
        (u "judge_error", opt_str (cr_judge_error r)); (u "tags", JArr (map JStr (cr_tags r)))].

(** ** Every case is answered *)

Section complete.
Context {W : Type} {FR : FloatRepr} {SH : Sha256} {LZ : LocalZone} {SD : SummaryDump} {JL : JsonLoads}
        {PF : JudgePromptFiles} {SR : StrRepr} {JC : JudgeClient W}.
Variable JUDGE_SCORE_SCHEMA : json.
Variable pipeline_run : Alert.SessionAlert -> M exn W TriageOutcome.
Variable judging : option Judging.

(** What a pipeline does ([TriageRaises] proves it of [TriagePipeline.run]): it raises one of
    three exceptions, and its verdict and its tool calls are JSON. *)
Definition pipeline_contained : Prop := forall a w,
  match pipeline_run a w with
  | (Ret o, _) => 1 <= Verdict.severity (o_verdict o) <= 5 /\ serializable_trace (o_tool_calls o)
  | (Raise e, _) => run_raises e
  end.

(** Each of the three is captured. *)
Lemma run_raises_captured e : run_raises e -> case_error e <> None.
Proof. by intros []. Qed.
Lemma call_raises_captured e : call_raises e -> judge_failure e = true.
Proof. by intros []. Qed.

(** What is checked before any case runs, and what the client raises. *)
Definition judge_ready : Prop :=
  forall j, judging = Some j ->
    (exists template, load_judge_prompt (judge_prompt_version j) = Ret template) /\
    serializable JUDGE_SCORE_SCHEMA = true /\
    (forall s, exists x, json_loads (summary_json s) = Some x /\ serializable x = true) /\
    (forall ms m w, match judge_structured ms m w with
                    | (Raise e, _) => call_raises e
                    | _ => True
                    end).

Lemma trace_dumps calls :
  serializable_trace calls -> exists t, _tool_trace_sha256 calls = Ret t.
Proof.
  intros H. unfold _tool_trace_sha256, mbind, outcome_bind, dumps.
  assert (E : serializable (trace_json calls) = true); [|rewrite E; by eexists].
  unfold trace_json. cbn [serializable]. apply forallb_forall. intros j Hj%in_map_iff.
  destruct Hj as (c & <- & Hc%list_elem_of_In). unfold serializable_trace in H.
  rewrite Forall_forall in H. destruct (H c Hc) as [H1 H2]. cbn [serializable forallb snd] in *.
  by rewrite H1, H2.
Qed.

(** The messages of a judgment are built. *)
Lemma judge_messages_built j case o :
  judge_ready -> judging = Some j -> serializable_trace (o_tool_calls o) ->
  exists template messages,
    load_judge_prompt (judge_prompt_version j) = Ret template /\
    build_judge_messages JUDGE_SCORE_SCHEMA template (Summarize.summarize_session (g_alert case))
      (map tool_result (o_tool_calls o)) (o_verdict o) = Ret messages.
Proof.
  intros Hready Hj Htr. destruct (Hready j Hj) as ([template Ht] & Hs & Hsum & _).
  exists template. destruct (Hsum (Summarize.summarize_session (g_alert case))) as (x & Hx & Hsx).
  unfold build_judge_messages, mbind, outcome_bind, dumps at 1. rewrite Hs, Hx. unfold dumps.
  assert (E : serializable (evidence_of x (map tool_result (o_tool_calls o)) (o_verdict o)) = true).
  { unfold evidence_of. cbn [serializable forallb snd]. rewrite Hsx. cbn [andb].
    rewrite andb_true_iff. split; [|done]. apply forallb_forall.
    intros k Hk%in_map_iff. destruct Hk as (d & <- & Hd%in_map_iff). destruct Hd as (c & <- & Hc%list_elem_of_In).
    unfold serializable_trace in Htr. rewrite Forall_forall in Htr. destruct (Htr c Hc) as [H1 H2].
    unfold tool_result. cbn [serializable forallb snd] in *. by rewrite H1, H2. }
  rewrite E. by eexists.
Qed.

(** The two calls of a judgment, on every branch. *)
Definition judged (j : Judging) (messages : list ChatMessage)
    : M exn W (option JudgeScore * Z * option pystr) := fun w =>
  match judge_structured messages (judge_model j) w with
  | (Ret r, w1) => (Ret (Some (parsed r), r_cost_usd r, None), w1)
  | (Raise (StructuredOutputError _ se), w1) =>
      match judge_structured (messages ++ judge_retry_tail se) (judge_model j) w1 with
      | (Ret r, w2) => (Ret (Some (parsed r), se_cost_usd se + r_cost_usd r, None), w2)
      | (Raise (StructuredOutputError _ se2), w2) =>
          (Ret (None, se_cost_usd se2, Some (class_name CVerdictValidationError)), w2)
      | (Raise e, w2) => (Ret (None, 0, Some (exn_name e)), w2)
      end
  | (Raise e, w1) => (Ret (None, 0, Some (exn_name e)), w1)
  end.

Lemma failure_class e :
  judge_failure e = true ->
  (exists m se, e = StructuredOutputError m se) \/
  ((forall m se, e <> StructuredOutputError m se) /\ failed_cost (Raised e None) = 0).
Proof. destruct e; try (by intros; right); intros _. left. by eexists _, _. Qed.

Lemma judge_spec j case o w template messages :
  judge_ready -> judging = Some j ->
  load_judge_prompt (judge_prompt_version j) = Ret template ->
  build_judge_messages JUDGE_SCORE_SCHEMA template (Summarize.summarize_session (g_alert case))
    (map tool_result (o_tool_calls o)) (o_verdict o) = Ret messages ->
  exists res w', judged j messages w = (Ret res, w') /\
    _judge JUDGE_SCORE_SCHEMA judging case o w = (Ret res, w').
Proof.
  intros Hready Hj Ht Hm. destruct (Hready j Hj) as (_ & _ & _ & Hclient).
  unfold _judge. rewrite Hj. unfold judge_case, judged, plain, lift, mbind, M_bind, try_except.
  rewrite Ht, Hm. pose proof (Hclient messages (judge_model j) w) as H1.
  destruct (judge_structured messages (judge_model j) w) as [[r|e] w1]; [by eexists _, _|].
  apply call_raises_captured in H1.
  cbn [exc]. destruct (failure_class e H1) as [(m & se & ->)|[Hno Hcost]].
  2: { exists (None, 0, Some (exn_name e)), w1.
       destruct e; try (by destruct (Hno _ _ eq_refl)); cbn [exc]; (split; [done|]); rewrite H1;
         unfold mret, M_ret; by rewrite Hcost. }
  pose proof (Hclient (messages ++ judge_retry_tail se) (judge_model j) w1) as H2.
  destruct (judge_structured (messages ++ judge_retry_tail se) (judge_model j) w1) as [[r|e] w2];
    [by eexists _, _|]. apply call_raises_captured in H2.
  cbn [exc]. destruct (failure_class e H2) as [(m2 & se2 & ->)|[Hno Hcost]]; [by eexists _, _|].
  exists (None, 0, Some (exn_name e)), w2.
  destruct e; try (by destruct (Hno _ _ eq_refl)); cbn [exc]; (split; [done|]); rewrite H2;
    unfold mret, M_ret; by rewrite Hcost.
Qed.

(** What the judgment's replies cost, and what of it the first one cost when the retry
    failed as well. *)
Definition spent (j : Judging) (messages : list ChatMessage) (w : W) : Z :=
  match judge_structured messages (judge_model j) w with
  | (Ret r, _) => r_cost_usd r
  | (Raise (StructuredOutputError _ se), w1) =>
      se_cost_usd se +
      match judge_structured (messages ++ judge_retry_tail se) (judge_model j) w1 with
      | (Ret r, _) => r_cost_usd r
      | (Raise (StructuredOutputError _ se2), _) => se_cost_usd se2
      | _ => 0
      end
  | _ => 0
  end.
Definition dropped (j : Judging) (messages : list ChatMessage) (w : W) : Z :=
  match judge_structured messages (judge_model j) w with
  | (Raise (StructuredOutputError _ se), w1) =>
      match judge_structured (messages ++ judge_retry_tail se) (judge_model j) w1 with
      | (Ret _, _) => 0
      | _ => se_cost_usd se
      end
  | _ => 0
  end.

(** Judging never fails a case: once the judge is checked, [_judge] answers whatever the
    judge replies, with a score or else with the name of what failed; the spend it records
    is what the replies cost, except that a failed retry drops the first reply's cost. *)
Theorem judge_spend j case o w :
  judge_ready -> judging = Some j -> serializable_trace (o_tool_calls o) ->
  exists template messages res w',
    build_judge_messages JUDGE_SCORE_SCHEMA template (Summarize.summarize_session (g_alert case))
      (map tool_result (o_tool_calls o)) (o_verdict o) = Ret messages /\
    _judge JUDGE_SCORE_SCHEMA judging case o w = (Ret res, w') /\
    (res.1.1 = None <-> res.2 <> None) /\
    res.1.2 = spent j messages w - dropped j messages w.
Proof.
  intros Hready Hj Htr. destruct (judge_messages_built j case o Hready Hj Htr) as (t & ms & Ht & Hm).
  destruct (judge_spec j case o w t ms Hready Hj Ht Hm) as (res & w' & Hres & Hjudge).
  exists t, ms, res, w'. split; [done|]. split; [done|]. clear Hjudge Hm Ht Htr Hready.
  revert Hres. unfold judged, spent, dropped.
  destruct (judge_structured ms (judge_model j) w) as [[r|e] w1].
  { intros [= <- <-]. simpl. split; [by split|lia]. }
  destruct e; try (intros [= <- <-]; simpl; split; [by split|lia]).
  destruct (judge_structured (ms ++ _) (judge_model j) w1) as [[r|e2] w2].
  { intros [= <- <-]. simpl. split; [by split|lia]. }
  destruct e2; intros [= <- <-]; simpl; (split; [by split|lia]).
Qed.

(** The result of a case says what its pipeline answered. *)
Definition answered (case : GoldenCase) (r : CaseResult) : Prop :=
  cr_case_id r = case_id case /\ cr_label r = g_label case /\ cr_tags r = g_tags case /\
  ((exists w o w', pipeline_run (g_alert case) w = (Ret o, w') /\
      cr_verdict r = Some (o_verdict o) /\ cr_error r = None /\
      cr_cost_usd r = o_cost_usd o /\ cr_latency_ms r = o_latency_ms o /\
      cr_input_tokens r = o_input_tokens o /\ cr_output_tokens r = o_output_tokens o /\
      cr_tool_calls r = py_len (o_tool_calls o) /\ cr_escalated r = escalated_model o /\
      _tool_trace_sha256 (o_tool_calls o) = Ret (cr_tool_trace_sha256 r) /\
      match judging with
      | None => cr_judge r = None /\ cr_judge_cost_usd r = 0 /\ cr_judge_error r = None
      | Some _ => cr_judge r = None <-> cr_judge_error r <> None
      end) \/
   (exists w e w', pipeline_run (g_alert case) w = (Raise e, w') /\
      cr_verdict r = None /\ cr_error r = case_error e /\ cr_error r <> None /\ cr_cost_usd r = 0 /\
      cr_judge r = None /\ cr_judge_cost_usd r = 0 /\ cr_judge_error r = None)).

Lemma run_one_answers case w :
  pipeline_contained -> judge_ready ->
  exists r w', _run_one JUDGE_SCORE_SCHEMA pipeline_run judging case w = (Ret r, w') /\ answered case r.
Proof.
  intros Hpipe Hready. unfold _run_one, plain. pose proof (Hpipe (g_alert case) w) as Hp.
  destruct (pipeline_run (g_alert case) w) as [[o|e] w1] eqn:Erun.
  - destruct Hp as [_ Htr]. destruct (trace_dumps _ Htr) as [t Ht].
    assert (Hj : exists res w2, _judge JUDGE_SCORE_SCHEMA judging case o w1 = (Ret res, w2) /\
      match judging with
      | None => res = (None, 0, None)
      | Some _ => res.1.1 = None <-> res.2 <> None
      end).
    { destruct judging as [j|] eqn:Ej; [|by exists (None, 0, None), w1].
      rewrite <- Ej. destruct (judge_messages_built j case o Hready Ej Htr) as (tp & ms & Htp & Hm).
      destruct (judge_spec j case o w1 tp ms Hready Ej Htp Hm) as (res & w2 & Hres & Hjudge).
      exists res, w2. split; [done|]. clear -Hres. revert Hres. unfold judged.
      destruct (judge_structured ms _ w1) as [[r|e] w3]; [by intros [= <- <-]|].
      destruct e; try (by intros [= <- <-]).
      destruct (judge_structured _ _ w3) as [[r|e2] w4]; [by intros [= <- <-]|].
      by destruct e2; intros [= <- <-]. }
    destruct Hj as (res & w2 & Ej & Hres). unfold mbind, M_bind, lift. rewrite Ej, Ht.
    eexists _, _. split; [reflexivity|]. do 3 (split; [done|]). left. exists w, o, w1.
    split_and!; try done. destruct judging; [done|by subst].
  - apply run_raises_captured in Hp.
    destruct (case_error (exc (Raised e None))) as [text|] eqn:Ee; [|done]. cbn [exc] in Ee.
    destruct (trace_dumps [] (List.Forall_nil _)) as [t Ht]. unfold mbind, M_bind, lift. rewrite Ht.
    eexists _, _. split; [reflexivity|]. do 3 (split; [done|]). right. exists w, e, w1. by rewrite Ee.
Qed.

Lemma gather_all {A B} (f : nat -> option B) (P : A -> B -> Prop) (l : list A) :
  (forall i x, l !! i = Some x -> exists y, f i = Some y /\ P x y) ->
  Forall2 P l (omap f (List.seq 0 (length l))).
Proof.
  enough (H : forall k, (forall i x, l !! i = Some x -> exists y, f (k + i)%nat = Some y /\ P x y) ->
    Forall2 P l (omap f (List.seq k (length l)))) by (intros; by apply (H 0%nat)).
  induction l as [|x l IH]; intros k H; simpl; [constructor|].
  destruct (H 0%nat x eq_refl) as (y & Hy & Hp). rewrite Nat.add_0_r in Hy. rewrite Hy.
  constructor; [done|]. apply IH. intros i z Hz. destruct (H (S i) z Hz) as (y' & Hy' & Hp').
  exists y'. split; [by rewrite Nat.add_succ_comm|done].
Qed.

Lemma schedule_runs cases schedule done_ w :
  pipeline_contained -> judge_ready ->
  (forall i r, dget i done_ = Some r -> exists case, cases !! i = Some case /\ answered case r) ->
  exists done' w', foldM (run_at JUDGE_SCORE_SCHEMA pipeline_run judging cases) schedule done_ w = (Ret done', w') /\
    (forall i r, dget i done' = Some r -> exists case, cases !! i = Some case /\ answered case r) /\
    (forall i, is_Some (cases !! i) -> i ∈ schedule \/ i ∈ dkeys done_ -> i ∈ dkeys done').
Proof.
  intros Hpipe Hready. revert done_ w. induction schedule as [|k schedule IH]; intros done_ w Hd.
  { exists done_, w. split_and!; [done|done|]. intros i _ [?%not_elem_of_nil|?]; done. }
  simpl. unfold mbind, M_bind. destruct (cases !! k) as [case|] eqn:Ek.
  - destruct (run_one_answers case w Hpipe Hready) as (r & w1 & Er & Hr).
    assert (Eat : run_at JUDGE_SCORE_SCHEMA pipeline_run judging cases done_ k w = (Ret (dset k r done_), w1))
      by (unfold run_at, mbind, M_bind; by rewrite Ek, Er).
    rewrite Eat.
    destruct (IH (dset k r done_) w1) as (done' & w' & E & H1 & H2).
    { intros i r'. destruct (decide (i = k)) as [->|Hne].
      - rewrite dget_dset_eq. intros [= <-]. by exists case.
      - rewrite dget_dset_ne by done. apply Hd. }
    exists done', w'. split_and!; [done|done|]. intros i Hi Hin. apply H2; [done|].
    rewrite dset_keys_elem, elem_of_cons in *. tauto.
  - assert (Eat : run_at JUDGE_SCORE_SCHEMA pipeline_run judging cases done_ k w = (Ret done_, w))
      by (unfold run_at; by rewrite Ek).
    rewrite Eat. destruct (IH done_ w Hd) as (done' & w' & E & H1 & H2).
    exists done', w'. split_and!; [done|done|]. intros i Hi Hin. apply H2; [done|].
    rewrite elem_of_cons in Hin. destruct Hin as [[-> |?]|?]; [|tauto..].
    rewrite Ek in Hi. by destruct Hi.
Qed.

Lemma contained_run_complete schedule cases w :
  pipeline_contained -> judge_ready -> schedule ≡ₚ List.seq 0 (length cases) ->
  exists results w',
    run_golden JUDGE_SCORE_SCHEMA pipeline_run judging schedule cases w = (Ret results, w') /\
    Forall2 answered cases results /\
    (py_len cases <= 2 ^ 42 -> exists m, score results = Ret m /\ n_cases m = py_len cases /\
       n_failed m = count (fun r => bool_decide (cr_error r <> None)) results).
Proof.
  intros Hpipe Hready Hsched. unfold run_golden, mbind, M_bind.
  destruct (schedule_runs cases schedule [] w Hpipe Hready) as (done_ & w' & E & H1 & H2); [done|].
  rewrite E. eexists _, _. split; [reflexivity|].
  assert (Hall : Forall2 answered cases (omap (fun i => dget i done_) (List.seq 0 (length cases)))).
  { apply gather_all. intros i case Hi. destruct (dget i done_) as [r|] eqn:Er.
    - exists r. split; [done|]. destruct (H1 i r Er) as (case' & Hc & Ha). congruence.
    - apply dget_None in Er. exfalso. apply Er, H2; [by eexists|]. left. rewrite Hsched.
      apply elem_of_seq. apply lookup_lt_Some in Hi. lia. }
  split; [exact Hall|]. set (results := omap _ _) in *. intros Hlen.
  pose proof (Forall2_length _ _ _ Hall) as Hl.
  destruct (score_ret results) as [m Hm]; [unfold py_len in *; lia|]. exists m. split; [done|].
  destruct (score_inv _ _ Hm) as (-> & -> & _). split; [unfold py_len; lia|].
  apply count_ext. intros r Hr. apply list_elem_of_lookup in Hr as [i Hr].
  destruct (Forall2_lookup_r _ _ _ _ _ Hall Hr) as (case & _ & _ & _ & _ & Ha).
  apply bool_decide_ext. destruct Ha as [(? & ? & ? & _ & -> & -> & _)|(? & ? & ? & _ & -> & _ & ? & _)]; naive_solver.
Qed.
End complete.

(** ** The harness's own pipeline *)

Section harness.
Context {W : Type} {LC : LLMClient W} {RC : RedisCounters W} {PI : PyInt} {FR : FloatRepr} {SD : SummaryDump}
        {PF : PromptFiles} {SR : StrRepr} {SH : Sha256} {LZ : LocalZone} {JL : JsonLoads}
        {JP : JudgePromptFiles} {JC : JudgeClient W}.
Variables VERDICT_JSON_SCHEMA JUDGE_SCORE_SCHEMA : json.
Variable self : TriagePipeline (W := W).
Variable judging : option Judging.

(** [pipeline.run(case.alert)]. *)
Definition eval_run (a : Alert.SessionAlert) : M exn W TriageOutcome := run VERDICT_JSON_SCHEMA self a false None.

(** C32: a run answers for every case: whatever the client, the registry or the judge fails
    with, of what their protocols let them raise (a failed transport, a reply that stays
    invalid, a fixture a strict replay misses), and in whatever order the cases finish, there
    is one result per golden case, in the set's order, that carries its label and says what the
    pipeline answered for that very case; a failed case is recorded with its error and no
    verdict; and the run can be scored, every case in its denominator. *)
Theorem run_golden_complete {TC : TypedClient} schedule cases w :
  unbudgeted VERDICT_JSON_SCHEMA self -> judge_ready JUDGE_SCORE_SCHEMA judging ->
  schedule ≡ₚ List.seq 0 (length cases) ->
  exists results w',
    run_golden JUDGE_SCORE_SCHEMA eval_run judging schedule cases w = (Ret results, w') /\
    Forall2 (answered eval_run judging) cases results /\
    (py_len cases <= 2 ^ 42 -> exists m, score results = Ret m /\ n_cases m = py_len cases /\
       n_failed m = count (fun r => bool_decide (cr_error r <> None)) results).
Proof.
  intros Hself. apply contained_run_complete. intros a v. unfold eval_run.
  pose proof (unbudgeted_run_ends VERDICT_JSON_SCHEMA self Hself a false None v) as H.
  destruct (run VERDICT_JSON_SCHEMA self a false None v) as [[o|e] w1]; [|done].
  destruct H as [(H & _) Ht]. by split.
Qed.
End harness.

(** ** Two cases and a judge that fails twice *)

Module EvalToy.
Definition se (cost : Z) : structured_error :=
  {| se_raw_text := u "no"; se_validation_error := u "not JSON"; se_input_tokens := 1;
     se_output_tokens := 1; se_cost_usd := cost; se_latency_ms := 1 |}.
(** The judge's first reply costs 5 and its second 7; neither validates. *)
#[export] Instance client : JudgeClient Z := fun _ _ calls =>
  (Raise (StructuredOutputError (u "JudgeScore failed validation") (se (if calls =? 0 then 5 else 7))),
   calls + 1).
#[export] Instance prompts : JudgePromptFiles := {
  judge_path v := v;
  judge_text _ := Some (JUDGE_SCHEMA_PLACEHOLDER ++ EVIDENCE_BEGIN ++ EVIDENCE_END ++ DATA_NEVER_INSTRUCTIONS)
}.
#[export] Instance str_reprs : StrRepr := fun s => s.
#[export] Instance summaries : SummaryDump := fun s => Summarize.s_session_id s.
#[export] Instance loads : JsonLoads := fun _ => Some (JObj []).
#[export] Instance zone : LocalZone := fun _ => 0.
#[export] Instance sha : Sha256 := fun s => s.

Definition outcome_ok : TriageOutcome :=
  {| o_verdict := Verdict.toy_verdict; o_model := u "m"; prompt_version := u "v1";
     o_input_tokens := 10; o_output_tokens := 5; o_cost_usd := 3; o_latency_ms := 9;
     retried := false; o_tool_calls := []; model_primary := None; escalated_model := false |}.
(** The session "lost" never gets an answer. *)
Definition verdict_for (ms : list ChatMessage) : outcome exn (LLMResult Verdict.Verdict) :=
  if existsb (fun m => substrb (u "lost") (content m)) ms then Raise (LLMCallError (u "down"))
  else Ret {| parsed := Verdict.toy_verdict; raw_text := []; r_model := u "m";
              r_usage := {| input_tokens := 10; output_tokens := 5 |}; r_cost_usd := 3; r_latency_ms := 9 |}.
#[export] Instance llm : LLMClient Z := {
  complete_structured ms _ := fun w => (verdict_for ms, w);
  complete_with_tools ms _ _ := fun w => ((r ← verdict_for ms; Ret (inl r)), w)
}.
#[export] Instance no_redis : RedisCounters Z := {
  utc_now w := (0, w);
  counter_get _ := mret None;
  incrby_expire _ n _ := mret n
}.
#[export] Instance py_ints : PyInt := fun _ => None.
Definition self : TriagePipeline (W := Z) :=
  {| _model := u "m"; _prompt_version := u "v1"; _template := SCHEMA_PLACEHOLDER; _tools := None;
     _tool_loop_max_iter := None; _strong_model := None; _escalate_severity_gte := None;
     _escalate_confidence_lt := None; _redis := false; _daily_token_budget := 0 |}.

Definition case (id : pystr) : GoldenCase :=
  {| g_alert := Alert.toy_alert id [Alert.toy_event Alert.CONNECT 0; Alert.toy_event Alert.CLOSED 5];
     g_label := {| l_severity := 3; l_category := Verdict.category Verdict.toy_verdict; l_escalate := false |};
     labeler_note := u "a note of ten"; g_tags := []; labeled_by := Some human; labeled_at := None |}.
Definition judging : option Judging := Some {| judge_model := u "j"; judge_prompt_version := u "judge-v1" |}.

#[export] Instance typed : TypedClient (W := Z).
Proof.
  assert (Hv : Verdict.wf Verdict.toy_verdict) by (vm_compute; repeat split; try discriminate).
  split; intros; cbn; unfold verdict_for; destruct (existsb _ _); cbn; first [exact Hv|constructor].
Qed.
Lemma without_budget : unbudgeted JNull self.
Proof. by split. Qed.
Lemma ready : judge_ready (PF := prompts) (SR := str_reprs) (SD := summaries) (JL := loads) JNull judging.
Proof.
  intros j [= <-]. split_and!; [by eexists|done|by intros; eexists|]. intros ms m w. apply raises_structured.
Qed.
End EvalToy.

(** The cases finish in the other order; the second one fails. *)
Lemma run_golden_complete_witness :
  exists results w', run_golden (FR := toy_float_repr) (SH := EvalToy.sha) (LZ := EvalToy.zone)
      (SD := EvalToy.summaries) (JL := EvalToy.loads) (PF := EvalToy.prompts) (SR := EvalToy.str_reprs)
      (JC := EvalToy.client) JNull
      (eval_run (LC := EvalToy.llm) (RC := EvalToy.no_redis) (PI := EvalToy.py_ints) (FR := toy_float_repr)
         (SD := EvalToy.summaries) JNull EvalToy.self)
      EvalToy.judging [1; 0]%nat [EvalToy.case (u "seen"); EvalToy.case (u "lost")] 0 = (Ret results, w') /\
    map (fun r => bool_decide (cr_error r = None)) results = [true; false].
Proof.
  destruct (@run_golden_complete Z EvalToy.llm EvalToy.no_redis EvalToy.py_ints toy_float_repr EvalToy.summaries
    EvalToy.str_reprs EvalToy.sha EvalToy.zone EvalToy.loads EvalToy.prompts EvalToy.client
    JNull JNull EvalToy.self EvalToy.judging EvalToy.typed [1; 0]%nat
    [EvalToy.case (u "seen"); EvalToy.case (u "lost")] 0 EvalToy.without_budget EvalToy.ready)
    as (results & w' & E & _).
  - apply Permutation_swap.
  - exists results, w'. split; [exact E|]. vm_compute in E. injection E as <- _. reflexivity.
Defined.

(** Twelve micro-dollars are spent, seven recorded. *)
Lemma judge_spend_witness :
  exists res w', _judge (FR := toy_float_repr) (SD := EvalToy.summaries) (JL := EvalToy.loads)
      (PF := EvalToy.prompts) (SR := EvalToy.str_reprs) (JC := EvalToy.client) JNull EvalToy.judging
      (EvalToy.case (u "seen")) EvalToy.outcome_ok 0 = (Ret res, w') /\ res.1.2 = 12 - 5.
Proof.
  destruct (@judge_spend Z toy_float_repr EvalToy.summaries EvalToy.loads
    EvalToy.prompts EvalToy.str_reprs EvalToy.client JNull EvalToy.judging
    {| judge_model := u "j"; judge_prompt_version := u "judge-v1" |} (EvalToy.case (u "seen")) EvalToy.outcome_ok 0
    EvalToy.ready eq_refl (List.Forall_nil _)) as (_ & messages & res & w' & _ & E & _ & Hcost).
  exists res, w'. split; [exact E|]. rewrite Hcost. reflexivity.
Defined.
