(* ===== verification/TriageOne.v ===== *)
(** * TriageOne: the command that triages one alert file

    [worker/triage_one.py]: the settings, the arguments, the price of the strong model, the
    alert file, the client and the pipeline, the run, and what is printed and returned for
    each.  [argparse], the file, [json.loads], pydantic's alert and the texts of exceptions
    are parameters; [--help] ends inside [argparse]. *)

From S2P Require Import Prelude Errors Cli Command Json Datetime Schemas Llm Prompts Budget Policy ToolBase Triage Gate EvalRun Boot.
#[local] Open Scope Z_scope.

Record TriageArgs : Type := {
  alert_path : pystr;
  arg_model : pystr;
  arg_prompt : pystr;
  arg_strong_model : pystr
}.

Definition invalid_alert (e : exn) : bool :=
  match e with OSError | TimeoutError | JSONDecodeError | ValidationError => true | _ => false end.

Section main.
Context {W : Type} {LC : LLMClient W} {RC : RedisCounters W} {PI : PyInt} {FR : FloatRepr} {SD : SummaryDump}
  {PF : PromptFiles} {SR : StrRepr} {JL : JsonLoads} {DS : DecimalStr}.
Variable VERDICT_JSON_SCHEMA : json.
Variable exn_text : exn -> pystr.
(** The fields the environment gives, and [parse_args] under the settings' defaults, whose
    usage errors are [argparse]'s messages. *)
Variable environment : outcome exn Settings.
Variable parse_args : Settings -> pystr + TriageArgs.
Variable read_text : pystr -> outcome exn pystr.
Variable alert_validate : json -> option Alert.SessionAlert.
(** The SDK's client of the settings, and whether one was injected. *)
Variable async_openai : Settings -> outcome exn unit.
Variable injected : bool.

Definition load_alert (path : pystr) : outcome exn Alert.SessionAlert :=
  raw ← read_text path;
  match json_loads raw with
  | None => Raise JSONDecodeError
  | Some j => match alert_validate j with None => Raise ValidationError | Some a => Ret a end
  end.

Definition unpriced_strong (s : Settings) (args : TriageArgs) : bool :=
  negb injected && negb (bool_decide (arg_strong_model args = []))
  && negb (bool_decide (arg_strong_model args ∈ dkeys (model_prices_json s))).

Definition build (s : Settings) (args : TriageArgs) : outcome exn (TriagePipeline (W := W)) :=
  _ ← (if injected then Ret tt else _ ← client_from_settings async_openai s; Ret tt);
  __init__ (arg_model args) (arg_prompt args) None None
    (match arg_strong_model args with [] => None | m => Some m end)
    (Some (escalate_severity_gte s)) (Some (escalate_confidence_lt s)) false 0.

(** What precedes the run. *)
Definition prepare : outcome left (TriagePipeline (W := W) * Alert.SessionAlert) :=
  s ← catching exn_text (read_settings environment) is_validation_error (u "config_error");
  args ← usage_or (parse_args s);
  if unpriced_strong s args
  then fail (u "config_error") (u "model " ++ str_repr (arg_strong_model args) ++ u " has no entry in MODEL_PRICES_JSON")
  else
    a ← catching exn_text (load_alert (alert_path args)) invalid_alert (u "invalid_alert");
    p ← catching exn_text (build s args) (fun e => is_config_error e || is_value_error e) (u "config_error");
    Ret (p, a).

Definition verdict_json (v : Verdict.Verdict) : json :=
  JObj [(u "severity", JInt (Verdict.severity v)); (u "category", JStr (Verdict.category_str (Verdict.category v)));
        (u "confidence", JFloat (Verdict.confidence v)); (u "reasoning", JStr (Verdict.reasoning v));
        (u "recommended_action", JStr (Verdict.recommended_action v)); (u "escalate", JBool (Verdict.escalate v))].
Definition envelope (out : TriageOutcome) : json :=
  JObj [(u "verdict", verdict_json (o_verdict out)); (u "model", JStr (o_model out));
        (u "model_primary", JStr (effective_model_primary out)); (u "escalated_model", JBool (escalated_model out));
        (u "prompt_version", JStr (prompt_version out)); (u "input_tokens", JInt (o_input_tokens out));
        (u "output_tokens", JInt (o_output_tokens out)); (u "cost_usd", JStr (dec_str (o_cost_usd out, 6%nat)));
        (u "latency_ms", JInt (o_latency_ms out)); (u "retried", JBool (retried out))].

Definition exhausted_line (attempts : Z) (last_error : pystr) : pystr :=
  u "error: " ++ code CVerdictValidationError ++ u ": failed after " ++ str_of_Z attempts ++ u " attempts: "
  ++ flatten last_error.

(** What the run's result prints. *)
Definition conclude (o : outcome exn TriageOutcome) : outcome left ended :=
  match o with
  | Ret out =>
      match dumps (indent_args 2) (envelope out) with
      | Ret text => Ret {| exit_code := 0; stdout := [text]; stderr := [] |}
      | Raise e => Raise (Escaped e)
      end
  | Raise e =>
      if is_config_error e || isinstance e CLLMCallError then fail (family_code e) (exn_text e)
      else match e with
           | VerdictValidationError _ attempts last_error =>
               Ret {| exit_code := 2; stdout := []; stderr := [exhausted_line attempts last_error] |}
           | _ => Raise (Escaped e)
           end
  end.

Definition main : M exn W ended := fun w =>
  let '(o, w') := match prepare with
                  | Ret (p, a) =>
                      let '(r, w1) := run VERDICT_JSON_SCHEMA p a false None w in (conclude r, w1)
                  | Raise l => (Raise l, w)
                  end in
  (settle o, w').

(** ** What it promises *)

Lemma build_raises s args e : build s args = Raise e ->
  is_config_error e || is_value_error e = true \/ async_openai s = Raise e.
Proof.
  unfold build, mbind, outcome_bind. intros H.
  pose proof (client_from_settings_spec async_openai s) as Hc.
  assert (Hi : match __init__ (W := W) (arg_model args) (arg_prompt args) None None
                 (match arg_strong_model args with [] => None | m => Some m end)
                 (Some (escalate_severity_gte s)) (Some (escalate_confidence_lt s)) false 0 with
               | Ret _ => True | Raise e => is_config_error e || is_value_error e = true end).
  { unfold __init__. rewrite bool_decide_false by (by intros [? ?]). cbn [andb]. unfold mbind, outcome_bind.
    pose proof (load_prompt_spec (arg_prompt args)) as Hp.
    destruct (load_prompt (arg_prompt args)) as [t|e']; [|destruct Hp as [m ->]];
      (destruct (arg_strong_model args); [done|]); by case_bool_decide. }
  destruct injected; [rewrite H in Hi; by left|].
  destruct (client_from_settings _ s) as [|e']; [rewrite H in Hi; by left|]. injection H as <-.
  destruct Hc as [[m ->]|]; [by left|by right].
Qed.

Lemma triage_prepare_spec :
  match prepare with
  | Ret (p, a) => exists s args, parse_args s = inr args /\ load_alert (alert_path args) = Ret a /\
      build s args = Ret p /\ unpriced_strong s args = false
  | Raise (Returned r) => refused r
  | Raise (Escaped e) => environment = Raise e \/ (exists s, async_openai s = Raise e) \/
      exists path, load_alert path = Raise e /\ invalid_alert e = false
  end.
Proof.
  unfold prepare, mbind, outcome_bind. catch_step H1; [|done|].
  2: { destruct H1 as [E He]. left. pose proof (read_settings_cases environment) as Hc. rewrite E in Hc. by destruct Hc as [->|]. }
  catch_step Ha; [|done|done]. destruct (unpriced_strong _ _) eqn:Eu; [refine (fail_refused _ _ _); decided|].
  catch_step H2; [|done|right; right; by eexists]. catch_step H3; [by eauto 10|done|].
  destruct H3 as [H3 He]. destruct (build_raises _ _ _ H3) as [Hb|]; [by rewrite Hb in He|right; left; by eexists].
Qed.

(** The exit codes: 1 is one line on stderr and nothing on stdout, from the checks, which
    reach nobody, or from a run that a [ConfigError] or an [LLMCallError] ended; 2 is a run
    whose replies failed validation; 0 is the envelope of what the run returned, alone.
    What still escapes is an unreadable environment, what the SDK's client refuses, an alert file that is no text and the
    exceptions of a run that no [except] names. *)
Lemma triage_one_contract w :
  match main w with
  | (Ret r, w') =>
      refused r /\ (w' = w \/ exists p a e, prepare = Ret (p, a) /\
        run VERDICT_JSON_SCHEMA p a false None w = (Raise e, w') /\
        is_config_error e || isinstance e CLLMCallError = true) \/
      exit_code r = 2 /\ stdout r = [] /\ (exists p a m n last, prepare = Ret (p, a) /\
        run VERDICT_JSON_SCHEMA p a false None w = (Raise (VerdictValidationError m n last), w') /\
        stderr r = [exhausted_line n last]) \/
      exit_code r = 0 /\ stderr r = [] /\ (exists p a out, prepare = Ret (p, a) /\
        run VERDICT_JSON_SCHEMA p a false None w = (Ret out, w') /\
        stdout r = [encode (indent_args 2) 0 (envelope out)])
  | (Raise e, w') =>
      w' = w /\ (environment = Raise e \/ (exists s, async_openai s = Raise e) \/ exists path, load_alert path = Raise e /\ invalid_alert e = false) \/
      exists p a, prepare = Ret (p, a) /\ run VERDICT_JSON_SCHEMA p a false None w = (Raise e, w') /\
        is_config_error e || isinstance e CLLMCallError = false /\ (forall m n last, e <> VerdictValidationError m n last)
  end.
Proof.
  unfold main, settle. pose proof triage_prepare_spec as Hp. destruct prepare as [[p a]|[r|e]] eqn:Ep; [|by eauto|by eauto].
  clear Hp. destruct (run _ p a false None w) as [o w'] eqn:Er. destruct o as [out|e]; unfold conclude.
  - unfold dumps. change (serializable (envelope out)) with true. cbn. right. right. split_and!; try done. by exists p, a, out.
  - destruct (is_config_error e || isinstance e CLLMCallError) eqn:Ec.
    + left. split; [|right; by eauto 10]. apply fail_refused. unfold family_code.
      destruct (sb_class_of e) as [c|]; [destruct c|]; decided.
    + destruct e; try (right; exists p, a; by split_and!).
      right. left. split_and!; try done. by eauto 12.
Qed.
End main.
