(* ===== verification/AiLabel.v ===== *)
(** * AiLabel: the labelling of a golden set by the strong model

    [evals/ai_label.py]: the candidate file, [label_candidates] and [main] once its arguments
    are parsed.  The pipeline is a parameter; the tasks [asyncio.gather] runs meet the outside
    world as whole candidates, in an order the theorems leave open. *)

From S2P Require Import Prelude Errors Json Datetime Schemas Policy Golden Candidates Gate Sample Publish EvalRun LabelTool.
#[local] Open Scope Z_scope.

(** The world outside, the file written to ([None]: it is not there), the lines on stderr and the
    readings of the clock. *)
Record room (W : Type) : Type := Room {
  outside : W;
  out_text : option pystr;
  err_lines : list pystr;
  clock_reads : nat
}.
Arguments Room {W}. Arguments outside {W}. Arguments out_text {W}. Arguments err_lines {W}. Arguments clock_reads {W}.

Abbreviation pair := (pystr * Alert.SessionAlert)%type (only parsing).

Section ai_label.
Context {W : Type} {CM : CaseModel} {JL : JsonLoads} {LZ : LocalZone} {SH : Sha256} {SR : StrRepr}.

(** ** The candidate file *)

(** [SessionAlert.model_validate] of any JSON value; [str] of one that is no text. *)
Variable alert_of : json -> outcome exn Alert.SessionAlert.
Variable json_text : json -> pystr.

Definition row_error (n : Z) (what : pystr) : exn := ValueError (u "row " ++ str_of_Z n ++ u ": " ++ what).
Definition pair_field (n : Z) (k : pystr) (row : jobj) : outcome exn json :=
  match dget k row with
  | Some v => Ret v
  | None => Raise (row_error n (u "missing key '" ++ k ++ u "'"))
  end.
Definition load_pair (n : Z) (line : pystr) : outcome exn pair :=
  match json_loads line with
  | None => Raise (row_error n (u "not valid JSON"))
  | Some (JObj row) =>
      case_id ← pair_field n (u "case_id") row;
      alert_data ← pair_field n (u "alert") row;
      alert ← alert_of alert_data;
      Ret (as_text json_text case_id, alert)
  | Some _ => Raise (row_error n (u "not a JSON object"))
  end.
Fixpoint load_pairs (n : Z) (lines : list pystr) : outcome exn (list pair) :=
  match lines with
  | [] => Ret []
  | line :: lines' =>
      if bool_decide (strip line = []) then load_pairs (n + 1) lines'
      else p ← load_pair n line; ps ← load_pairs (n + 1) lines'; Ret (p :: ps)
  end.
Definition _load_candidate_alerts (text : outcome exn pystr) : outcome exn (list pair) :=
  t ← text; load_pairs 1 (splitlines t).

(** ** [label_candidates] *)

(** [datetime.now(UTC)] as the readings of the clock, [case.model_dump_json()] and
    [pipeline.run(alert)]. *)
Variable clock : nat -> Z.
Variable case_json : GoldenCase -> outcome exn pystr.
Variable pipeline_run : Alert.SessionAlert -> M exn W TriageOutcome.

Definition now : M exn (room W) Z := fun r =>
  (Ret (clock (clock_reads r)), Room (outside r) (out_text r) (err_lines r) (S (clock_reads r))).
Definition complain (line : pystr) : M exn (room W) unit := fun r =>
  (Ret tt, Room (outside r) (out_text r) (err_lines r ++ [line]) (clock_reads r)).
Definition write (text : pystr) : M exn (room W) unit := fun r =>
  (Ret tt, Room (outside r) (Some (default [] (out_text r) ++ text)) (err_lines r) (clock_reads r)).
Definition existing : M exn (room W) pystr := fun r => (Ret (default [] (out_text r)), r).
Definition run_outside {A} (m : M exn W A) : M exn (room W) A := fun r =>
  let '(o, w) := m (outside r) in (o, Room w (out_text r) (err_lines r) (clock_reads r)).

Definition LONG_DASH : pystr := [8212].
Definition _note (model prompt_version : pystr) (today : Z) : pystr :=
  u "AI-labeled by " ++ model ++ u " via the triage pipeline (prompt " ++ prompt_version ++ u ") on "
  ++ date_isoformat today ++ u " " ++ LONG_DASH
  ++ u " machine ground truth for a model-tier agreement metric, not a person's judgment (R54).".

(** [except (VerdictValidationError, LLMCallError)]. *)
Definition skippable (e : exn) : bool := isinstance e CVerdictValidationError || isinstance e CLLMCallError.

Definition ai_case (a : Alert.SessionAlert) (v : Verdict.Verdict) (note : pystr) (at_ : Z) : outcome exn GoldenCase :=
  l ← make_label (Verdict.severity v) (Verdict.category_str (Verdict.category v)) (Verdict.escalate v);
  if py_len note <? 10 then Raise ValidationError
  else Ret {| g_alert := a; g_label := l; labeler_note := note;
              g_tags := (if matches_injection_hint a then [u "injection"] else []);
              labeled_by := Some ai; labeled_at := Some (Datetime at_ (Some 0)) |}.

Definition _label_one (note : pystr) (c : pair) : M exn (room W) (option GoldenCase) :=
  outcome ← try_except (o ← run_outside (pipeline_run c.2); mret (Some o))
    (fun e => if skippable e
              then Some (_ ← complain (u "skipped " ++ c.1 ++ u ": " ++ exn_name e); mret None)
              else None);
  match outcome with
  | None => mret None
  | Some o =>
      at_ ← now;
      case ← lift (ai_case c.2 (o_verdict o) note at_);
      mret (Some case)
  end.

Definition label_at (note : pystr) (pending : list pair) (done_ : list (nat * option GoldenCase)) (i : nat)
    : M exn (room W) (list (nat * option GoldenCase)) :=
  match pending !! i with
  | Some c => r ← _label_one note c; mret (dset i r done_)
  | None => mret done_
  end.

Fixpoint write_cases (results : list (option GoldenCase)) (written : Z) : M exn (room W) Z :=
  match results with
  | [] => mret written
  | None :: results' => write_cases results' written
  | Some case :: results' =>
      line ← lift (case_json case);
      _ ← write (line ++ [10]);
      write_cases results' (written + 1)
  end.

Definition label_pending (schedule : list nat) (pending : list pair) (model prompt_version : pystr)
    : M exn (room W) Z :=
  today ← now;
  finished ← foldM (label_at (_note model prompt_version today) pending) schedule [];
  text ← existing;
  _ ← (if nonempty text && negb (ends_line text) then write [10] else mret tt);
  _ ← write [];
  write_cases (omap (fun i => dget i finished) (List.seq 0 (length pending))) 0.

Definition pending_of (alerts : list pair) (already_labeled : list pystr) : list pair :=
  List.filter (fun c => negb (bool_decide (c.1 ∈ already_labeled))) alerts.

(** [asyncio.Semaphore(n)] refuses a negative [n], and lets nobody through at zero: with a
    candidate waiting the call never returns ([None]). *)
Definition label_candidates (schedule : list nat) (alerts : list pair) (model prompt_version : pystr)
    (already_labeled : list pystr) (concurrency : Z) (r : room W) : option (outcome exn Z * room W) :=
  let pending := pending_of alerts already_labeled in
  if concurrency <? 0 then Some (Raise (ValueError (u "Semaphore initial value must be >= 0")), r)
  else if (concurrency =? 0) && nonempty pending then None
  else Some (label_pending schedule pending model prompt_version r).

(** ** [main], once the arguments are parsed and the settings read *)

Record AiLabelArgs : Type := {
  candidates_text : outcome exn pystr;
  out_name : pystr;
  model_arg : option pystr;
  ai_concurrency : Z;
  strong_model : pystr;
  triage_prompt_version : pystr;
  (** The client from the settings and [TriagePipeline(...)]. *)
  pipeline_built : outcome exn unit
}.

(** [str(e)]. *)
Variable exn_text : exn -> pystr.
Definition bad_file (e : exn) : bool :=
  match e with
  | OSError | TimeoutError | ValueError _ | JSONDecodeError | UnicodeDecodeError | ValidationError => true
  | _ => false
  end.
Definition labeler_model (a : AiLabelArgs) : pystr := default (strong_model a) (model_arg a).
Definition with_err (r : room W) (line : pystr) : room W :=
  Room (outside r) (out_text r) (err_lines r ++ [line]) (clock_reads r).
Definition already_in (text : option pystr) : outcome exn (list pystr) :=
  match text with
  | None => Ret []
  | Some t => if bool_decide (strip t = []) then Ret []
              else cases ← load_golden (Ret t) false; Ret (map case_id cases)
  end.
Definition ARROW : pystr := [8594].
Definition report (a : AiLabelArgs) (written : Z) : pystr :=
  u "ai-labeled " ++ str_of_Z written ++ u " candidate(s) " ++ ARROW ++ u " " ++ out_name a ++ u " (labeled_by=ai)".

(** The exit code and the line on stdout. *)
Definition ai_main (schedule : list nat) (a : AiLabelArgs) (r : room W)
    : option (outcome exn (Z * option pystr) * room W) :=
  if bool_decide (labeler_model a = [])
  then Some (Ret (1, None), with_err r (u "error: config_error: no labeler model (set STRONG_MODEL or --model)"))
  else
    match _load_candidate_alerts (candidates_text a) with
    | Raise e =>
        if bad_file e then Some (Ret (1, None), with_err r (u "error: io_error: " ++ exn_text e))
        else Some (Raise e, r)
    | Ret alerts =>
        match already_in (out_text r) with
        | Raise e => Some (Raise e, r)
        | Ret already =>
            match pipeline_built a with
            | Raise e =>
                if isinstance e CConfigError
                then Some (Ret (1, None), with_err r (u "error: " ++ family_code e ++ u ": " ++ exn_text e))
                else Some (Raise e, r)
            | Ret _ =>
                match label_candidates schedule alerts (labeler_model a) (triage_prompt_version a) already
                        (ai_concurrency a) r with
                | None => None
                | Some (Raise e, r') => Some (Raise e, r')
                | Some (Ret n, r') => Some (Ret (0, Some (report a n)), r')
                end
            end
        end
    end.
End ai_label.

(** ** Dictionaries filled once per key *)

Lemma dset_fresh {K V} `{EqDecision K} (k : K) (v : V) d : k ∉ dkeys d -> dset k v d = d ++ [(k, v)].
Proof.
  induction d as [|[k' v'] d IH]; [done|]. intros Hn. cbn [dkeys map fst dset] in *.
  apply not_elem_of_cons in Hn as [Hk Hn]. rewrite decide_False by done. cbn [app]. by rewrite IH.
Qed.
Lemma omap_own_keys {K V} `{EqDecision K} (d : list (K * V)) :
  NoDup (dkeys d) -> omap (fun k => dget k d) (dkeys d) = map snd d.
Proof.
  enough (H : forall d0, NoDup (dkeys (d0 ++ d)) -> omap (fun k => dget k (d0 ++ d)) (dkeys d) = map snd d) by exact (H []).
  induction d as [|[k v] d IH]; intros d0 Hn; [done|]. cbn [dkeys map fst snd omap list_omap].
  assert (E : dget k (d0 ++ (k, v) :: d) = Some v).
  { clear IH. induction d0 as [|[k' v'] d0 IH0]; cbn [app dget]; [by rewrite decide_True|].
    cbn [app dkeys map fst] in Hn. apply NoDup_cons in Hn as [Hk Hn]. rewrite decide_False; [by apply IH0|].
    intros <-. apply Hk. unfold dkeys. rewrite map_app. cbn [map fst]. set_solver. }
  rewrite E. f_equal. specialize (IH (d0 ++ [(k, v)])). rewrite <- (assoc_L (++)) in IH. by apply IH.
Qed.

(** ** What a run leaves *)

Section facts.
Context {W : Type} {CM : CaseModel} {JL : JsonLoads} {LZ : LocalZone} {SH : Sha256} {SR : StrRepr}.
Variable clock : nat -> Z.
Variable case_json : GoldenCase -> outcome exn pystr.
Variable pipeline_run : Alert.SessionAlert -> M exn W TriageOutcome.
(** The labeler's model and prompt, which every note names. *)
Variables model prompt_version : pystr.

Definition text (r : room W) : pystr := default [] (out_text r).

(** A case is what the pipeline answered for the candidate's session, marked as a machine's, its
    note naming the model, the prompt and a day of the clock. *)
Definition labelled (c : pair) (case : GoldenCase) : Prop :=
  exists w o w', pipeline_run c.2 w = (Ret o, w') /\ g_alert case = c.2 /\
    l_severity (g_label case) = Verdict.severity (o_verdict o) /\
    l_category (g_label case) = Verdict.category (o_verdict o) /\
    l_escalate (g_label case) = Verdict.escalate (o_verdict o) /\ label_ok (g_label case) /\
    labeled_by case = Some ai /\ g_tags case = (if matches_injection_hint c.2 then [u "injection"] else []) /\
    (exists today, labeler_note case = _note model prompt_version (clock today)) /\ 10 <= py_len (labeler_note case) /\
    exists i, labeled_at case = Some (Datetime (clock i) (Some 0)).
Definition result_of (c : pair) (res : option GoldenCase) : Prop :=
  match res with
  | Some case => labelled c case
  | None => exists w e w', pipeline_run c.2 w = (Raise e, w') /\ skippable e = true
  end.
Definition skips (c : pair) (line : pystr) : Prop := exists e, line = u "skipped " ++ c.1 ++ u ": " ++ exn_name e.
Definition is_none (res : option GoldenCase) : bool := match res with None => true | Some _ => false end.

Lemma make_label_category s c e l :
  make_label s (Verdict.category_str c) e = Ret l ->
  l_severity l = s /\ l_category l = c /\ l_escalate l = e /\ label_ok l.
Proof.
  intros H. pose proof (make_label_ok _ _ _ _ H) as (Hok & Hs & He). split_and!; try done.
  unfold make_label, label_escalate_required_for_high_severity in H.
  assert (E : dget (Verdict.category_str c) Verdict.category_literals = Some c) by (by destruct c).
  rewrite E in H. repeat (case_match; try done). by injection H as <-.
Qed.

Lemma date_unsplit us : unsplit (date_isoformat us).
Proof.
  unfold date_isoformat. destruct (civil_from_days _) as [[y m] d].
  assert (Hd : forall w n, unsplit (digits w n)).
  { intros w n. apply Forall_forall. intros c Hc%digits_chars. unfold RAW_BREAKS.
    rewrite !elem_of_cons. intros [?|[?|[?|H]]]; [lia..|by apply not_elem_of_nil in H]. }
  assert (Hm : unsplit (u "-")) by (unfold unsplit; apply (bool_decide_unpack _); vm_compute; exact I).
  unfold unsplit in *. rewrite !Forall_app. by split_and!.
Qed.

(** A label on a plain session by a model and a prompt of plain names is plain. *)
Lemma labelled_plain c case :
  (forall n, in_range (clock n)) -> unsplit model -> unsplit prompt_version -> plain_session c.2 ->
  labelled c case -> plain_case case.
Proof.
  intros Hclock Hm Hp [Ha Ht] (w & o & w' & _ & Hal & _ & _ & _ & Hok & _ & Htags & [today Hn] & Hlen & i & Hat).
  split; [split_and!; [by rewrite Hal|done|done|]|].
  - intros t. rewrite Hat. intros [= <-]. split; [apply Hclock|]. by intros off [= <-].
  - unfold case_texts. rewrite Hal, Htags, Hn. apply Forall_app. split; [done|]. constructor.
    + unfold _note. pose proof (date_unsplit (clock today)). unfold unsplit in *. rewrite !Forall_app. split_and!; try done;
        apply (bool_decide_unpack _); vm_compute; exact I.
    + destruct (matches_injection_hint _); [|constructor]. constructor; [|constructor]. unfold unsplit.
      apply (bool_decide_unpack _). vm_compute. exact I.
Qed.

Lemma label_one_ok today c r :
  let '(o, r') := _label_one clock pipeline_run (_note model prompt_version (clock today)) c r in
  out_text r' = out_text r /\
  forall res, o = Ret res -> result_of c res /\
    exists lines, err_lines r' = err_lines r ++ lines /\ Forall (skips c) lines /\
      length lines = (if is_none res then 1 else 0)%nat.
Proof.
  unfold _label_one, run_outside, complain, now. m_unfold.
  destruct (pipeline_run c.2 (outside r)) as [[o|e] w] eqn:E.
  - cbn [clock_reads out_text err_lines outside]. unfold ai_case, mbind, outcome_bind.
    destruct (make_label _ _ _) as [l|] eqn:El; [|by split]. destruct (Z.ltb_spec (py_len (_note model prompt_version (clock today))) 10); [by split|].
    split; [done|]. intros res [= <-]. apply make_label_category in El as (? & ? & ? & ?).
    split; [by eexists _, o, _; split_and!; [..|eexists|done|eexists]|]. exists []. cbn [err_lines]. by rewrite app_nil_r.
  - destruct (skippable e) eqn:Es; [|by split]. cbn [out_text err_lines]. split; [done|].
    intros res [= <-]. split; [by eexists _, e, _|]. eexists. split; [done|]. split; [|done].
    apply Forall_singleton. by exists e.
Qed.

(** The candidates that have answered so far, and the lines on stderr about them. *)
Definition finished_ok (pending : list pair) (done_ : list (nat * option GoldenCase)) (lines : list pystr) : Prop :=
  (forall i res, (i, res) ∈ done_ -> exists c, pending !! i = Some c /\ result_of c res) /\
  Forall (fun l => exists c, c ∈ pending /\ skips c l) lines /\
  length lines = length (List.filter is_none (map snd done_)).

Lemma label_all_ok today pending schedule done_ lines r :
  NoDup (dkeys done_ ++ schedule) -> Forall (fun i => is_Some (pending !! i)) schedule ->
  finished_ok pending done_ lines ->
  let '(o, r') := foldM (label_at clock pipeline_run (_note model prompt_version (clock today)) pending) schedule done_ r in
  out_text r' = out_text r /\
  forall done', o = Ret done' -> dkeys done' = dkeys done_ ++ schedule /\
    exists lines', err_lines r' = err_lines r ++ lines' /\ finished_ok pending done' (lines ++ lines').
Proof.
  revert done_ lines r. induction schedule as [|i schedule IH]; intros done_ lines r Hn Hs Hd; cbn [foldM].
  { split; [done|]. intros done' [= <-]. rewrite app_nil_r. split; [done|]. exists []. by rewrite !app_nil_r. }
  apply Forall_cons in Hs as [[c Hc] Hs]. m_unfold. unfold label_at at 1. rewrite Hc. m_unfold.
  pose proof (label_one_ok today c r) as H1. destruct (_label_one clock pipeline_run _ c r) as [[res|e] r1].
  2: { destruct H1 as [Ho _]. split; [exact Ho|done]. }
  destruct H1 as [Ho H1]. destruct (H1 res eq_refl) as (Hres & l1 & He & Hl & Hlen).
  assert (Hi : i ∉ dkeys done_) by (intros Hi; apply NoDup_app in Hn as (_ & Hn & _); apply (Hn i Hi); left).
  rewrite (dset_fresh i res done_ Hi). destruct Hd as (Hd1 & Hd2 & Hd3).
  specialize (IH (done_ ++ [(i, res)]) (lines ++ l1) r1). destruct (foldM _ schedule _ r1) as [o r'].
  destruct IH as [Ho' IH]; [|done| |].
  - unfold dkeys. rewrite map_app. cbn [map fst]. by rewrite <- (assoc_L (++)).
  - split_and!.
    + intros j res' [Hj|Hj%list_elem_of_singleton]%elem_of_app; [by apply Hd1|]. injection Hj as -> ->. by exists c.
    + apply Forall_app. split; [done|]. eapply Forall_impl; [exact Hl|]. intros l ?. exists c.
      split; [by eapply list_elem_of_lookup_2|done].
    + rewrite map_app, List.filter_app, !length_app, Hd3, Hlen. cbn [map snd List.filter]. by destruct (is_none res).
  - split; [congruence|]. intros done' Hdone. destruct (IH done' Hdone) as (Hk & lines' & He' & Hfin). split.
    + rewrite Hk. unfold dkeys. rewrite map_app. cbn [map fst]. by rewrite <- (assoc_L (++)).
    + exists (l1 ++ lines'). rewrite He', He, <- !(assoc_L (++)) in *. done.
Qed.

(** The rows are appended one by one, and the file loads after each. *)
Lemma write_cases_ok results written r cases :
  rows_read_back case_json ->
  (forall case, Some case ∈ results -> plain_case case) ->
  NoDup (map case_id cases ++ map case_id (omap id results)) ->
  at_line (text r) -> loaded (text r) cases ->
  let '(o, r') := write_cases case_json results written r in
  exists new, new `prefix_of` omap id results /\ err_lines r' = err_lines r /\
    (exists tail, text r' = text r ++ tail) /\ loaded (text r') (cases ++ new) /\
    forall n, o = Ret n -> new = omap id results /\ n = written + py_len new.
Proof.
  intros Hrows. revert written r cases. induction results as [|[case|] results IH]; intros written r cases Ha Hn Hat Hl;
    cbn [write_cases].
  - exists []. rewrite app_nil_r. split_and!; [done|done|exists []; by rewrite app_nil_r|done|].
    intros n [= <-]. split; [done|]. unfold py_len. cbn [length]. lia.
  - m_unfold. destruct (case_json case) as [line|e] eqn:Ej.
    2: { exists []. rewrite app_nil_r. split_and!; [apply prefix_nil|done|exists []; by rewrite app_nil_r|done|done]. }
    destruct (Hrows case line Ej) as (Hlc & Hu & Hs); [apply Ha; left|].
    assert (Eo : omap id (Some case :: results) = case :: omap id results) by done.
    rewrite Eo in *. cbn [map] in Hn. rewrite cons_middle, (assoc_L (++)) in Hn.
    assert (Hni : case_id case ∉ map case_id cases).
    { apply NoDup_app in Hn as (Hn & _). apply NoDup_app in Hn as (_ & Hn & _). intros Hi. apply (Hn _ Hi). left. }
    destruct (loaded_line (text r) cases case line Hat Hl Hlc Hu Hs Hni) as [Hl1 Hat1].
    unfold write at 1. set (r1 := Room _ _ _ _).
    assert (Ht1 : text r1 = text r ++ line ++ [10]) by done.
    specialize (IH (written + 1) r1 (cases ++ [case])). destruct (write_cases case_json results (written + 1) r1) as [o r'].
    destruct IH as (new & Hp & He & [tail Htail] & Hld & Hret).
    + intros c Hc. apply Ha. by right.
    + by rewrite map_app.
    + by rewrite Ht1.
    + by rewrite Ht1.
    + exists (case :: new). rewrite <- (assoc_L (++)) in Hld. split_and!; try done.
      * by apply prefix_cons.
      * exists ((line ++ [10]) ++ tail). by rewrite Htail, Ht1, <- !(assoc_L (++)).
      * intros n Ho. destruct (Hret n Ho) as [-> ->]. split; [done|]. unfold py_len. cbn [length]. lia.
  - apply IH; [|done..]. intros c Hc. apply Ha. by right.
Qed.

(** The line break a file may lack, and the file itself, which is created. *)
Lemma open_ok r cases :
  loaded (text r) cases ->
  exists r1, (_ ← (if nonempty (text r) && negb (ends_line (text r)) then write [10] else mret tt); write []) r = (Ret tt, r1) /\
    err_lines r1 = err_lines r /\ (exists tail, text r1 = text r ++ tail) /\ at_line (text r1) /\ loaded (text r1) cases.
Proof.
  intros Hl. set (gap := if nonempty (text r) && negb (ends_line (text r)) then [10] else []).
  exists (Room (outside r) (Some (text r ++ gap)) (err_lines r) (clock_reads r)). split_and!.
  - unfold mbind, M_bind, gap. destruct (nonempty (text r) && negb (ends_line (text r))); unfold write, mret, M_ret; cbn;
      by rewrite ?app_nil_r.
  - done.
  - by exists gap.
  - change (at_line (text r ++ gap)). unfold gap, at_line. destruct (text r) as [|x t]; [by left|]. cbn [nonempty andb].
    right. destruct (ends_line (x :: t)) eqn:Ee; cbn [negb]; [by rewrite app_nil_r|]. apply bool_decide_eq_true, last_snoc.
  - change (loaded (text r ++ gap) cases). unfold gap. destruct (_ && _); [by apply loaded_newline|by rewrite app_nil_r].
Qed.

Lemma omap_id_ids (pending : list pair) results :
  Forall2 result_of pending results -> Forall (fun c => c.1 = default [] (Alert.fingerprint c.2)) pending ->
  map case_id (omap id results) `sublist_of` map fst pending /\
  (forall case, case ∈ omap id results -> exists c, c ∈ pending /\ labelled c case).
Proof.
  intros H Hid. induction H as [|c res pending results Hr _ IH]; [split; [constructor|by intros ? ?%not_elem_of_nil]|].
  apply Forall_cons in Hid as [Hc Hid]. destruct (IH Hid) as [Hsub Hex]. cbn [omap list_omap id map].
  destruct res as [case|]; cbn [map].
  - pose proof Hr as (w & o & w' & _ & Ha & _). split.
    + unfold case_id at 1. rewrite Ha, <- Hc. by apply sublist_skip.
    + intros case' [->|Hin]%elem_of_cons; [exists c; split; [left|done]|].
      destruct (Hex case' Hin) as (c' & ? & ?). exists c'. split; [by right|done].
  - split; [by apply sublist_cons|]. intros case' Hin. destruct (Hex case' Hin) as (c' & ? & ?). exists c'.
    split; [by right|done].
Qed.

Lemma results_split (results : list (option GoldenCase)) :
  length results = (length (List.filter is_none results) + length (omap id results))%nat.
Proof.
  induction results as [|[c|] results IH]; [done| |]; cbn [List.filter is_none omap list_omap id length]; lia.
Qed.

Lemma filter_length_perm {A} (f : A -> bool) (l l' : list A) :
  l ≡ₚ l' -> length (List.filter f l) = length (List.filter f l').
Proof. induction 1 as [|x l l' _ IH|x y l|]; cbn [List.filter]; repeat case_match; cbn [length]; congruence. Qed.

Lemma filter_fst_NoDup (f : pair -> bool) l : NoDup (map fst l) -> NoDup (map fst (List.filter f l)).
Proof.
  induction l as [|c l IH]; [done|]. cbn [map List.filter]. intros [Hc Hl]%NoDup_cons.
  destruct (f c); [|by apply IH]. cbn [map]. constructor; [|by apply IH]. intros Hin. apply Hc.
  apply list_elem_of_fmap in Hin as (c' & -> & Hin). apply list_elem_of_fmap_2.
  by apply list_elem_of_In, filter_In in Hin as [?%list_elem_of_In _].
Qed.
Lemma pending_elem alerts already c : c ∈ pending_of alerts already -> c ∈ alerts /\ c.1 ∉ already.
Proof.
  unfold pending_of. rewrite list_elem_of_In, filter_In, <- list_elem_of_In.
  rewrite negb_true_iff, bool_decide_eq_false. tauto.
Qed.
(** New identities are not those of the file. *)
Lemma new_ids_fresh alerts (old new : list GoldenCase) :
  NoDup (map case_id old) -> NoDup (map fst alerts) ->
  map case_id new `sublist_of` map fst (pending_of alerts (map case_id old)) ->
  NoDup (map case_id old ++ map case_id new).
Proof.
  intros Ho Ha Hs. apply NoDup_app. split_and!; [done| |eapply sublist_NoDup; [|exact Hs]; by apply filter_fst_NoDup].
  intros k Hk Hk'. pose proof (elem_of_submseteq _ _ _ Hk' (sublist_submseteq _ _ Hs)) as Hin.
  apply list_elem_of_fmap in Hin as (c & -> & Hin). by apply (pending_elem _ _ _ Hin).
Qed.

Lemma seq_in_range {A} (l : list A) schedule :
  schedule ≡ₚ List.seq 0 (length l) -> Forall (fun i => is_Some (l !! i)) schedule.
Proof. intros H. apply Forall_forall. intros i. rewrite H, elem_of_seq. intros ?. apply lookup_lt_is_Some. lia. Qed.
Lemma finished_nil pending : finished_ok pending [] [].
Proof. split; [by intros ? ? ?%not_elem_of_nil|by split]. Qed.

(** Once every task has ended: the gathered results, in the candidates' order, and the lines. *)
Lemma gathered_ok pending schedule done_ lines :
  schedule ≡ₚ List.seq 0 (length pending) -> dkeys done_ = schedule -> finished_ok pending done_ lines ->
  let results := omap (fun i => dget i done_) (List.seq 0 (length pending)) in
  Forall2 result_of pending results /\ py_len lines + py_len (omap id results) = py_len pending.
Proof.
  intros Hsched Hkeys (Hres & _ & Hcount) results.
  assert (Hf2 : Forall2 result_of pending results).
  { apply gather_all. intros i c Hi. destruct (dget i done_) as [res|] eqn:Er.
    - exists res. split; [done|]. apply dget_elem in Er. destruct (Hres i res Er) as (c' & Hc' & ?). congruence.
    - apply dget_None in Er. destruct Er. rewrite Hkeys, Hsched. apply elem_of_seq. apply lookup_lt_Some in Hi. lia. }
  split; [done|]. assert (Hperm : results ≡ₚ map snd done_).
  { unfold results. rewrite <- omap_own_keys by (rewrite Hkeys, Hsched; apply NoDup_seq). by rewrite Hkeys, Hsched. }
  pose proof (results_split results) as Hcn. pose proof (Forall2_length _ _ _ Hf2) as Hlen.
  rewrite (filter_length_perm is_none _ _ Hperm) in Hcn. unfold py_len. lia.
Qed.

(** Loading with [require_human] refuses any other labeler. *)
Lemma machine_refused t cases case :
  loaded t cases -> case ∈ cases -> labeled_by case = Some ai -> forall cs, load_golden (Ret t) true <> Ret cs.
Proof.
  intros [Hf _] Hin Hai cs. unfold load_golden, mbind, outcome_bind. intros H.
  apply load_rows_iff in H; [|simpl; done]. destruct H as (new & -> & Hf' & Hh & _).
  assert (new = cases) as ->.
  { clear -Hf Hf'. revert new Hf'. unfold rows_of in Hf. induction Hf as [|l c ls cs Hl _ IH]; intros new H.
    - by apply Forall2_nil_inv_l in H.
    - apply Forall2_cons_inv_l in H as (c' & cs' & Hl' & H & ->). f_equal; [congruence|by apply IH]. }
  specialize (Hh eq_refl). rewrite Forall_forall in Hh. specialize (Hh case Hin). congruence.
Qed.

(** C39: labelling by the model is resumable and never passes for a person's: with at least one
    candidate allowed through, the call returns, however the tasks interleave; the file has only
    been appended to and loads as its old cases and the new ones, which are candidates without a
    label, each labelled with the verdict the pipeline gave for that very session and marked
    as a machine's, so a file with a new case is refused wherever a person's labels are
    required (the candidates have distinct identities, their sessions' fingerprints, and neither
    their texts nor the names of model and prompt hold U+0085, U+2028 or U+2029); when it counts, it counts the new cases, one per candidate the pipeline
    answered for, in the candidates' order, and each other candidate has left one line
    naming it. *)
Theorem ai_labels_resume schedule alerts concurrency r old :
  load_golden (Ret (text r)) false = Ret old ->
  Forall (fun c => c.1 = default [] (Alert.fingerprint c.2)) alerts -> NoDup (map fst alerts) ->
  row_writer case_json -> (forall n, in_range (clock n)) -> Forall (fun c => plain_session c.2) alerts ->
  unsplit model -> unsplit prompt_version -> 1 <= concurrency ->
  let pending := pending_of alerts (map case_id old) in
  schedule ≡ₚ List.seq 0 (length pending) ->
  exists o r' new,
    label_candidates clock case_json pipeline_run schedule alerts model prompt_version (map case_id old)
      concurrency r = Some (o, r') /\
    (exists tail, text r' = text r ++ tail) /\
    load_golden (Ret (text r')) false = Ret (old ++ new) /\
    (forall case, case ∈ new -> exists c, c ∈ pending /\ labelled c case) /\
    (new <> [] -> forall cs, load_golden (Ret (text r')) true <> Ret cs) /\
    forall n, o = Ret n -> n = py_len new /\
      exists results lines, Forall2 result_of pending results /\ new = omap id results /\
        err_lines r' = err_lines r ++ lines /\ py_len lines + n = py_len pending /\
        Forall (fun l => exists c, c ∈ pending /\ skips c l) lines.
Proof.
  intros Hold Hid Hnd Hrows%row_writer_reads_back Hclock Hplain Hm Hpv Hc pending Hsched. apply loaded_spec in Hold as Hload.
  assert (Hsub : forall c, c ∈ pending -> c ∈ alerts) by (intros c Hin; by eapply pending_elem).
  assert (Hidp : Forall (fun c => c.1 = default [] (Alert.fingerprint c.2)) pending).
  { rewrite Forall_forall in *. intros c Hin. by apply Hid, Hsub. }
  unfold label_candidates. fold pending. rewrite (proj2 (Z.ltb_ge _ _)), (proj2 (Z.eqb_neq _ _)) by lia. cbn [andb].
  destruct (label_pending clock case_json pipeline_run schedule pending model prompt_version r) as [o r'] eqn:E.
  exists o, r'. revert E. unfold label_pending, now at 1, existing at 1. m_unfold.
  set (r0 := Room (outside r) _ _ _).
  pose proof (label_all_ok (clock_reads r) pending schedule [] [] r0) as Hall.
  destruct (foldM _ schedule [] r0) as [[done_|e] r1].
  2: { intros [= <- <-]. destruct Hall as [Ho _]; [by rewrite Hsched; apply NoDup_seq|by apply seq_in_range|by apply finished_nil|].
       exists []. rewrite app_nil_r. assert (Ht : text r1 = text r) by (unfold text; by rewrite Ho). rewrite Ht.
       split_and!; try done; [exists []; by rewrite app_nil_r|by intros ? ?%not_elem_of_nil]. }
  destruct Hall as [Ho Hall]; [by rewrite Hsched; apply NoDup_seq|by apply seq_in_range|by apply finished_nil|].
  destruct (Hall done_ eq_refl) as (Hkeys & lines & Herr & Hfin). cbn [dkeys map app] in *.
  assert (Ht1 : text r1 = text r) by (unfold text; by rewrite Ho).
  destruct (open_ok r1 old) as (r2 & Eo & He2 & [gap Hgap] & Hat & Hl2); [by rewrite Ht1|].
  change (default [] (out_text r1)) with (text r1). revert Eo. m_unfold.
  match goal with |- context [(if ?b then ?x else ?y) r1] => destruct ((if b then x else y) r1) as [[[]|e] rA] end; [|done].
  intros Eo. rewrite Eo.
  destruct (gathered_ok pending schedule done_ lines Hsched Hkeys Hfin) as [Hf2 Hcount]. revert Hf2 Hcount.
  set (results := omap (fun i => dget i done_) (List.seq 0 (length pending))). intros Hf2 Hcount.
  destruct (omap_id_ids pending results Hf2 Hidp) as [Hids Hlab].
  pose proof (write_cases_ok results 0 r2 old Hrows) as Hw.
  destruct (write_cases case_json results 0 r2) as [o2 r3]. intros [= <- <-].
  destruct Hw as (new & Hp & He3 & [tail Htail] & Hl3 & Hret); [| |done|done|].
  { intros case Hin. destruct (Hlab case) as (c & Hcp & Hl); [apply list_elem_of_omap; by exists (Some case)|].
    rewrite Forall_forall in Hplain. eapply labelled_plain; [done..| |exact Hl]. by apply Hplain, Hsub. }
  { apply (new_ids_fresh alerts); [by destruct Hload|done|done]. }
  assert (Hnew : forall case, case ∈ new -> exists c, c ∈ pending /\ labelled c case).
  { intros case Hin. apply Hlab. destruct Hp as [rest ->]. rewrite elem_of_app. by left. }
  exists new. split_and!; [done|exists (gap ++ tail); by rewrite Htail, Hgap, Ht1, (assoc_L (++))|by apply loaded_spec|done| |].
  - intros Hne cs. destruct new as [|case new]; [done|]. eapply (machine_refused _ _ case); [exact Hl3|set_solver|].
    destruct (Hnew case) as (c & _ & w & o' & w' & _ & _ & _ & _ & _ & _ & Hai & _); [left|done].
  - intros n Hn. destruct (Hret n Hn) as [-> ->]. split; [lia|]. exists results, lines. split_and!; try done.
    + by rewrite He3, He2, Herr.
    + by destruct Hfin as (_ & ? & _).
Qed.
End facts.

(** ** Two candidates, one of which the model cannot label *)

Module AiToy.
#[local] Existing Instance LabelToy.case_eq_dec.
Definition note : pystr := _note (u "m") (u "v1") 7.
Definition verdict : Verdict.Verdict :=
  {| Verdict.severity := 3; Verdict.category := Verdict.other; Verdict.confidence := fone; Verdict.reasoning := [];
     Verdict.recommended_action := []; Verdict.escalate := false |}.
Definition outcome : TriageOutcome :=
  {| o_verdict := verdict; o_model := u "m"; prompt_version := u "v1"; o_input_tokens := 1; o_output_tokens := 1;
     o_cost_usd := 1; o_latency_ms := 1; retried := false; o_tool_calls := []; model_primary := None;
     escalated_model := false |}.
Definition pipeline (a : Alert.SessionAlert) : M exn unit TriageOutcome :=
  if bool_decide (Alert.session_id a = u "a") then mret outcome else raise (LLMCallError []).
#[export] Instance model : CaseModel := {
  case_coerce _ := Some {| cf_alert := LabelToy.session (u "a"); cf_severity := 3; cf_category := u "other";
    cf_escalate := false; cf_note := note; cf_tags := []; cf_labeled_by := Some (u "ai");
    cf_labeled_at := Some (Datetime 7 (Some 0)) |};
  row_error _ := u "bad row"
}.
Definition written : GoldenCase :=
  {| g_alert := LabelToy.session (u "a");
     g_label := {| l_severity := 3; l_category := Verdict.other; l_escalate := false |};
     labeler_note := note; g_tags := []; labeled_by := Some ai; labeled_at := Some (Datetime 7 (Some 0)) |}.
Definition case_json (c : GoldenCase) : Prelude.outcome exn pystr :=
  if decide (c = written) then Ret (u "{}") else Raise TypeError.
Definition of_session (id : pystr) : pystr * Alert.SessionAlert :=
  (default [] (@Alert.fingerprint LabelToy.zone LabelToy.sha (LabelToy.session id)), LabelToy.session id).
Definition alerts : list (pystr * Alert.SessionAlert) := [of_session (u "b"); of_session (u "a")].
Definition start : room unit := Room tt None [] 0.

Lemma ai_writer : @row_writer model LabelToy.loads case_json.
Proof.
  split; intros case line; unfold case_json; destruct (decide (case = written)) as [->|]; try discriminate.
  - intros [= <-] _. vm_compute. reflexivity.
  - intros c [= <-] Hc. vm_compute in Hc. repeat (apply elem_of_cons in Hc as [->|Hc]; [discriminate|]).
    by apply not_elem_of_nil in Hc.
  - intros [= <-]. by eexists.
Qed.
End AiToy.

(** The second task ends first; its label is the one row, refused as a person's. *)
Lemma ai_labels_resume_witness :
  exists r' new, @label_candidates unit (fun _ => 7) AiToy.case_json AiToy.pipeline
      [1%nat; 0%nat] AiToy.alerts (u "m") (u "v1") [] 4 AiToy.start = Some (Ret 1, r') /\ length new = 1%nat /\
    length (err_lines r') = 1%nat /\
    @load_golden AiToy.model LabelToy.loads LabelToy.zone LabelToy.sha LabelToy.str_reprs (Ret (text r')) false = Ret new.
Proof.
  destruct (@ai_labels_resume unit AiToy.model LabelToy.loads LabelToy.zone LabelToy.sha LabelToy.str_reprs (fun _ => 7)
    AiToy.case_json AiToy.pipeline (u "m") (u "v1") [1%nat; 0%nat] AiToy.alerts 4 AiToy.start [])
    as (o & r' & new & E & _ & Hl & _ & _ & Hn).
  - reflexivity.
  - repeat constructor.
  - apply (bool_decide_unpack _). vm_compute. exact I.
  - exact AiToy.ai_writer.
  - intros n. vm_compute. split; discriminate.
  - pose proof LabelToy.plain_both as Hp. apply Forall_cons in Hp as [Hb Hp]. apply Forall_cons in Hp as [Ha _].
    constructor; [exact Hb|constructor; [exact Ha|constructor]].
  - unfold unsplit. apply (bool_decide_unpack _). vm_compute. exact I.
  - unfold unsplit. apply (bool_decide_unpack _). vm_compute. exact I.
  - lia.
  - apply (bool_decide_unpack _). vm_compute. exact I.
  - assert (Ho : o = Ret 1) by (vm_compute in E; injection E as <- _; reflexivity). subst o.
    exists r', new. split; [exact E|]. destruct (Hn 1 eq_refl) as [Hlen _]. split; [unfold py_len in Hlen; lia|].
    split; [vm_compute in E; injection E as <-; reflexivity|exact Hl].
Defined.
