(* ===== verification/EvalMain.v ===== *)
(** * EvalMain: the evaluation command

    [evals/run.py]: [_run_all], from the parsed arguments to the exit code.  It is cut where
    the source is: the checks made before any case runs ([prepare]), the loop over the
    prompts ([prompt_step]: a prompt's pipeline is constructed there, after the cases of the
    prompts before it), the report ([finish]) and the [finally] ([close_all]).  Files, the database, the client, the
    registry and the pipeline are parameters; what reaches
    stdout and stderr, and which paid or lasting step was taken when, is part of the state. *)

From S2P Require Import Prelude Errors Cli Json Datetime Text JsonParse Schemas Floats Prompts Golden Judge Scoring Recorder Publish Gate Sample EvalRun.
#[local] Open Scope Z_scope.

Record EvalArgs : Type := {
  golden : pystr;
  prompt : list pystr;
  arg_model : option pystr;
  arg_strong_model : option pystr;
  arg_judge : option bool;
  arg_judge_model : option pystr;
  arg_replay_strict : option bool;
  database_url : bool;
  matrix : bool;
  gate : bool;
  baseline : pystr;
  arg_write_baseline : bool;
  force_baseline : bool;
  publish : bool;
  from_artifact : bool
}.

Record EvalSettings : Type := {
  cheap_model : pystr;
  strong_model : pystr;
  model_prices_json : list pystr;
  settings_judge_prompt : pystr;
  gate_settings : GateSettings
}.

(** The paid and the lasting steps, in the order they are taken, and the construction of a
    prompt's pipeline. *)
Inductive step : Type :=
  | Built (prompt_version : pystr)
  | Ran (prompt_version : pystr)
  | Artifact (prompt_version : pystr)
  | RowWritten (prompt_version : pystr)
  | Published (prompt_version : pystr)
  | BaselineWritten.

(** [return code], or an exception nobody catches. *)
Inductive stop : Type := Exit (code : Z) | Uncaught (e : exn).

Record cli (W : Type) : Type := Cli {
  world : W;
  out : list pystr;
  err : list pystr;
  steps : list step;
  http_open : bool;
  engine_open : bool
}.
Arguments Cli {W}. Arguments world {W}. Arguments out {W}. Arguments err {W}.
Arguments steps {W}. Arguments http_open {W}. Arguments engine_open {W}.

(** What the command reaches: the files of its arguments, the collaborators it builds (an
    exception or nothing), a pipeline's run for each prompt version, the judge's client, the
    order its tasks finish in, the insert and commit of an [eval_runs] row, the closing of the
    HTTP client and of the engine, and [str(exc)]. *)
Class EvalWorld (W : Type) : Type := {
  artifact_text : W -> outcome exn pystr;
  golden_text : W -> outcome exn pystr;
  results_file : TextFile W;
  baseline_file : TextFile W;
  baseline_exists : W -> bool;
  from_settings : W -> outcome exn unit;
  build_registry : bool -> W -> outcome exn unit;
  make_engine : W -> outcome exn unit;
  make_pipeline : pystr -> W -> outcome exn unit;
  pipeline_run : pystr -> Alert.SessionAlert -> M exn W Policy.TriageOutcome;
  judge_client : JudgeClient W;
  schedule : pystr -> list nat;
  write_artifact : pystr -> pystr -> M exn W unit;
  insert_run_row : pystr -> pystr -> jobj -> Z -> RunMetrics -> M exn W pystr;
  aclose : M exn W unit;
  dispose : M exn W unit;
  git_sha : W -> pystr;
  utc_now : W -> Z * W;
  exn_str : exn -> pystr
}.

(** [isinstance(e, ValueError)] for the exceptions modelled. *)
Definition is_value_error (e : exn) : bool :=
  match e with
  | ValueError _ | JSONDecodeError | UnicodeDecodeError | ValidationError => true
  | _ => false
  end.
Definition is_os_error (e : exn) : bool := match e with OSError | TimeoutError => true | _ => false end.

Definition is_sqlalchemy_error (e : exn) : bool := match e with SQLAlchemyError => true | _ => false end.

(** ["%Y%m%dT%H%M%SZ"]. *)
Definition stamp (us : Z) : pystr :=
  let '(y, m, d) := civil_from_days (us / US_PER_DAY) in
  let t := us mod US_PER_DAY in
  digits 4 y ++ digits 2 m ++ digits 2 d ++ u "T" ++ digits 2 (t / 3600000000)
  ++ digits 2 (t / 60000000 mod 60) ++ digits 2 (t / US_PER_SECOND mod 60) ++ u "Z".

Definition EM_DASH : pystr := [8212].
Definition SECTION_SIGN : pystr := [167].
Definition RESULTS_PATH : pystr := u "docs/results.md".

Section command.
Context {W : Type} {EW : EvalWorld W} {NU : Numerals} {JL : JsonLoads} {ID : IsoDate} {IS : IsoParse}
        {FR : FloatRepr} {FD : FloatDecimal} {DS : DecimalStr} {CM : CaseModel} {LZ : LocalZone}
        {SH : Sha256} {SR : StrRepr} {PF : JudgePromptFiles} {SD : SummaryDump}.
Variable verdict_dump : Verdict.Verdict -> json.

Definition print (line : pystr) : M stop (cli W) unit := fun s =>
  (Ret tt, Cli (world s) (out s ++ [line]) (err s) (steps s) (http_open s) (engine_open s)).
Definition took (x : step) : M stop (cli W) unit := fun s =>
  (Ret tt, Cli (world s) (out s) (err s) (steps s ++ [x]) (http_open s) (engine_open s)).
Definition set_world (w : W) (s : cli W) : cli W :=
  Cli w (out s) (err s) (steps s) (http_open s) (engine_open s).

(** [core.cli.fail]: one line on stderr, and [1], which every caller returns. *)
Definition fail {A} (code message : pystr) : M stop (cli W) A := fun s =>
  (Raise (Exit 1),
   Cli (world s) (out s) (err s ++ [error_line code message]) (steps s)
       (http_open s) (engine_open s)).

(** [try: m except ...: handler]; what the handler does not take propagates. *)
Definition catching {A} (m : M exn W A) (handler : exn -> option (M stop (cli W) A))
    : M stop (cli W) A := fun s =>
  match m (world s) with
  | (Ret a, w) => (Ret a, set_world w s)
  | (Raise e, w) =>
      match handler e with
      | Some h => h (set_world w s)
      | None => (Raise (Uncaught e), set_world w s)
      end
  end.
Definition reading {A} (f : W -> outcome exn A) : M exn W A := fun w => (f w, w).
Definition uncaught {A} (m : M exn W A) : M stop (cli W) A := catching m (fun _ => None).
(** The run of the cases: its exception's cause is not looked at. *)
Definition forget_cause {A} (m : M raised W A) : M exn W A := fun w =>
  match m w with (Ret a, w') => (Ret a, w') | (Raise e, w') => (Raise (exc e), w') end.

Definition as_config_error {A} (e : exn) : option (M stop (cli W) A) :=
  if is_value_error e then Some (fail (u "config_error") (exn_str e)) else None.
(** [except ConfigError as e: return fail(e.code, str(e))]. *)
Definition as_family {A} (c : Errors.sb_class) (e : exn) : option (M stop (cli W) A) :=
  if isinstance e c then Some (fail (family_code e) (exn_str e)) else None.
Definition first_of {A} (a b : option (M stop (cli W) A)) : option (M stop (cli W) A) :=
  match a with Some h => Some h | None => b end.

(** ** Republishing an artifact *)

Definition published_message (n : Z) : pystr :=
  u "published " ++ str_of_Z n ++ u " row(s) to " ++ RESULTS_PATH.

Definition append_line (line : pystr) : M stop (cli W) unit :=
  catching (@append_result_row W results_file line) as_config_error.

Definition republish : M stop (cli W) Z :=
  published ← catching (fun w => (row_from_artifact (artifact_text w), w))
    (fun e => first_of (as_family CConfigError e)
      (if is_os_error e || is_value_error e then Some (fail (u "config_error") (exn_str e)) else None));
  line ← uncaught (lift (render_row (pub_row published) (pub_date published) (pub_git_sha published)
                                    (pub_models published)));
  _ ← append_line line;
  _ ← took (Published (rr_prompt_version (pub_row published)));
  _ ← print (published_message 1);
  mret 0.

(** ** Before any case runs *)

Variable settings : EvalSettings.
(** [llm is not None]: the client of a test. *)
Variable injected : bool.
Variable args : EvalArgs.
(** [JudgeScore.model_json_schema()]. *)
Variable JUDGE_SCORE_SCHEMA : json.

(** What the checks leave to the run. *)
Record plan : Type := Plan {
  p_baseline : option Baseline;
  p_model : pystr;
  p_strong_model : pystr;
  p_judge_model : pystr;
  p_judge : bool;
  p_replay_strict : bool;
  p_cases : list GoldenCase
}.

Definition model : pystr := default (cheap_model settings) (arg_model args).
(** [... or None]: an empty id means that the tier is off. *)
Definition the_strong_model : pystr := default (strong_model settings) (arg_strong_model args).
Definition the_judge_model : pystr := default (strong_model settings) (arg_judge_model args).
Definition judge_enabled : bool :=
  default (is_v2_golden (golden args) && negb (bool_decide (the_judge_model = []))) (arg_judge args).
Definition replay_strict : bool := default (is_v2_golden (golden args)) (arg_replay_strict args).

Definition unpriced (m : pystr) : bool := bool_decide (m ∉ model_prices_json settings).
Definition no_price {A} (m : pystr) : M stop (cli W) A :=
  fail (u "config_error") (u "model " ++ str_repr m ++ u " has no entry in MODEL_PRICES_JSON").

(** [if cond: return fail(...)]. *)
Definition refuse_if (cond : bool) (f : M stop (cli W) unit) : M stop (cli W) unit :=
  if cond then f else mret tt.

Definition load_gate_baseline : M stop (cli W) (option Baseline) :=
  if gate args then
    b ← catching (reading (fun w => @load_baseline W baseline_file _ _ _ w))
          (fun e => if is_value_error e
                    then Some (fail (u "config_error")
                           (u "no baseline at " ++ baseline args ++ u ": " ++ exn_str e ++ u " " ++ EM_DASH
                            ++ u " write one from a real v2 run with --write-baseline"))
                    else None);
    mret (Some b)
  else mret None.

Definition check_prices : M stop (cli W) unit :=
  _ ← refuse_if (negb injected && unpriced model) (no_price model);
  _ ← refuse_if (negb injected && negb (bool_decide (the_strong_model = [])) && unpriced the_strong_model)
        (no_price the_strong_model);
  _ ← refuse_if (judge_enabled && bool_decide (the_judge_model = []))
        (fail (u "config_error") (u "--judge is set but no judge model is configured (STRONG_MODEL)"));
  refuse_if (negb injected && judge_enabled && negb (bool_decide (the_judge_model = []))
             && unpriced the_judge_model) (no_price the_judge_model).

Definition check_judge_prompt : M stop (cli W) unit :=
  if judge_enabled then
    catching (_ ← lift (load_judge_prompt (settings_judge_prompt settings)); mret tt)
      (as_family CConfigError)
  else mret tt.

(** The first row without a label, counted from one. *)
Definition first_unlabeled (cases : list GoldenCase) : option Z :=
  (fun k => Z.of_nat k + 1) <$> index_of (fun c => bool_decide (labeled_by c = None)) cases.

Definition check_golden (cases : list GoldenCase) : M stop (cli W) unit :=
  if is_v2_golden (golden args) then
    match first_unlabeled cases with
    | Some n => fail (u "config_error")
                  (u "row " ++ str_of_Z n ++ u " is not labeled (PRD " ++ SECTION_SIGN ++ u "13)")
    | None => mret tt
    end
  else if arg_write_baseline args then
    fail (u "config_error") (u "--write-baseline requires a v2 golden file (PRD " ++ SECTION_SIGN
      ++ u "7.4/" ++ SECTION_SIGN ++ u "13), got " ++ golden args)
  else refuse_if (publish args)
    (fail (u "config_error") (u "--publish requires a v2 golden file (.claude/rules/evals.md), got "
      ++ golden args)).

Definition check_baseline_file : M stop (cli W) unit := fun s =>
  if arg_write_baseline args && baseline_exists (world s) && negb (force_baseline args) then
    fail (u "config_error") (baseline args ++ u " already exists " ++ EM_DASH
      ++ u " use --force-baseline to overwrite") s
  else (Ret tt, s).

Definition open_engine : M stop (cli W) unit := fun s =>
  if database_url args then
    match make_engine (world s) with
    | Ret _ => (Ret tt, Cli (world s) (out s) (err s) (steps s) (http_open s) true)
    | Raise e => (Raise (Uncaught e), s)
    end
  else (Ret tt, s).

Definition prepare : M stop (cli W) plan :=
  b ← load_gate_baseline;
  _ ← refuse_if (arg_write_baseline args && (1 <? py_len (prompt args)))
        (fail (u "config_error") (u "--write-baseline takes exactly one --prompt"));
  _ ← check_prices;
  _ ← check_judge_prompt;
  cases ← catching (reading (fun w => load_golden (golden_text w) false))
            (fun e => if is_os_error e || is_value_error e
                      then Some (fail (u "invalid_golden") (exn_str e)) else None);
  _ ← check_golden cases;
  _ ← check_baseline_file;
  _ ← (if injected then mret tt else catching (reading from_settings) (as_family CConfigError));
  _ ← uncaught (reading (build_registry replay_strict));
  _ ← open_engine;
  mret (Plan b model the_strong_model the_judge_model judge_enabled replay_strict cases).

(** ** The loop over the prompts *)

Record progress : Type := Progress {
  rows : list (ResultRow * jobj);
  run_rows : list (pystr * pystr);
  published_count : Z;
  any_case_succeeded : bool;
  missing_fixtures : list (pystr * pystr)
}.

(** [_, tool_name, key = error.split(":", 2)] of an error that starts with the prefix. *)
Definition FIXTURE_MISSING : pystr := u "fixture_missing:".
Definition COLON : Z := 58.
Fixpoint split_colon (s : pystr) : option (pystr * pystr) :=
  match s with
  | [] => None
  | c :: s' => if c =? COLON then Some ([], s')
               else match split_colon s' with Some (a, b) => Some (c :: a, b) | None => None end
  end.

Definition note_missing (acc : outcome exn (list (pystr * pystr))) (r : CaseResult)
    : outcome exn (list (pystr * pystr)) :=
  missing ← acc;
  match cr_error r with
  | Some error =>
      if prefixb FIXTURE_MISSING error then
        match split_colon (drop (length FIXTURE_MISSING) error) with
        | Some found => Ret (if bool_decide (found ∈ missing) then missing else missing ++ [found])
        | None => Raise (ValueError (u "not enough values to unpack (expected 3, got 2)"))
        end
      else Ret missing
  | None => Ret missing
  end.

Definition artifact_payload (p : plan) (prompt_version : pystr) (sha : pystr) (started_at : Z)
    (metrics : RunMetrics) (results : list CaseResult) : json :=
  JObj [(u "prompt_version", JStr prompt_version); (u "model", JStr (p_model p));
        (u "git_sha", JStr sha); (u "started_at", JStr (isoformat_utc started_at));
        (u "metrics", JObj (metrics_payload metrics));
        (u "cases", JArr (map (_case_payload verdict_dump) results));
        (u "golden", JStr (golden args)); (u "strong_model", JStr (p_strong_model p))].

Definition now : M stop (cli W) Z := fun s =>
  let '(t, w) := utc_now (world s) in (Ret t, set_world w s).

Definition judging_of (p : plan) : option Judging :=
  if p_judge p then Some {| judge_model := p_judge_model p;
                            judge_prompt_version := settings_judge_prompt settings |} else None.

Definition run_prompt (p : plan) (prompt_version : pystr) : M stop (cli W) (list CaseResult) :=
  _ ← took (Ran prompt_version);
  catching
    (forget_cause (run_golden (JC := judge_client) JUDGE_SCORE_SCHEMA
       (pipeline_run prompt_version) (judging_of p) (schedule prompt_version) (p_cases p)))
    (fun e => first_of (as_family CConfigError e) (as_family CLLMCallError e)).

(** [mkdir] and [write_text] of the per-run JSON. *)
Definition save_artifact (p : plan) (prompt_version : pystr) (sha : pystr) (started_at : Z)
    (metrics : RunMetrics) (results : list CaseResult) : M stop (cli W) unit :=
  let filename := stamp started_at ++ u "-" ++ prompt_version ++ u ".json" in
  _ ← catching
        (text ← lift (dumps (indent_args 2)
                        (artifact_payload p prompt_version sha started_at metrics results));
         write_artifact filename text)
        (fun e => if is_os_error e then Some (fail (u "output_error") (exn_str e)) else None);
  took (Artifact prompt_version).

Definition save_row (prompt_version : pystr) (sha : pystr) (started_at : Z) (config : jobj)
    (metrics : RunMetrics) : M stop (cli W) (list (pystr * pystr)) :=
  if database_url args then
    id ← catching (insert_run_row sha prompt_version config started_at metrics)
           (fun e => if is_os_error e || is_sqlalchemy_error e
                     then Some (fail (u "database_error")
                                  (exn_name e ++ u ": could not write the eval_runs row"))
                     else None);
    _ ← took (RowWritten prompt_version);
    mret [(id, prompt_version)]
  else mret [].

Definition publish_row (p : plan) (prompt_version : pystr) (sha : pystr) (started_at : Z)
    (row : ResultRow) : M stop (cli W) Z :=
  if publish args then
    line ← uncaught (lift (render_row row (date_isoformat started_at) sha
                                     (models_cell (p_model p) (p_strong_model p))));
    _ ← append_line line;
    _ ← took (Published prompt_version);
    mret 1
  else mret 0.

Definition prompt_step (p : plan) (sha : pystr) (acc : progress) (prompt_version : pystr)
    : M stop (cli W) progress :=
  _ ← catching (reading (make_pipeline prompt_version))
        (fun e => first_of (as_family CConfigError e) (as_config_error e));
  _ ← took (Built prompt_version);
  started_at ← now;
  results ← run_prompt p prompt_version;
  metrics ← uncaught (lift (score results));
  let config := run_model_config (p_model p) (p_judge_model p) (p_strong_model p) prompt_version
                  (p_replay_strict p) (p_judge p) in
  let row := {| rr_prompt_version := prompt_version; rr_model := p_model p; rr_metrics := metrics |} in
  missing ← uncaught (lift (foldl note_missing (Ret (missing_fixtures acc)) results));
  _ ← save_artifact p prompt_version sha started_at metrics results;
  ids ← save_row prompt_version sha started_at config metrics;
  n ← publish_row p prompt_version sha started_at row;
  mret {| rows := rows acc ++ [(row, config)]; run_rows := run_rows acc ++ ids;
          published_count := published_count acc + n;
          any_case_succeeded := any_case_succeeded acc
                                || existsb (fun r => bool_decide (cr_error r = None)) results;
          missing_fixtures := missing |}.

(** ** The report *)

Definition print_all (lines : list pystr) : M stop (cli W) unit :=
  foldM (fun _ line => print line) lines tt.

Definition matrix_sections (rows : list ResultRow) : list pystr :=
  flat_map (fun row => [u "## Matrix (" ++ rr_prompt_version row ++ u ")";
                        render_confusion (rr_metrics row);
                        render_category_confusion (rr_metrics row)]) rows.

Definition table_lines (acc : progress) : list pystr :=
  format_table (map fst (rows acc)) :: (if matrix args then matrix_sections (map fst (rows acc)) else []).

Definition missing_line (missing : list (pystr * pystr)) : pystr :=
  u "MISSING FIXTURES (" ++ str_of_Z (py_len missing) ++ u "): "
  ++ py_join (u " ") (map (fun f => f.1 ++ u " " ++ f.2) (merge_sort pair_le missing)).

(** [f"... {old} -> {new}, ..."]. *)
Definition overwrite_line (old new : RunMetrics) : pystr :=
  u "--force-baseline: overwriting " ++ baseline args ++ u " " ++ EM_DASH ++ u " severity_exact "
  ++ float_repr (severity_exact old) ++ u " -> " ++ float_repr (severity_exact new)
  ++ u ", critical_recall " ++ float_repr (critical_recall old) ++ u " -> "
  ++ float_repr (critical_recall new) ++ u ", cost_mean_usd " ++ fixed_six (cost_mean_usd old)
  ++ u " -> " ++ fixed_six (cost_mean_usd new).

Definition describe_overwrite (new : RunMetrics) : M stop (cli W) unit := fun s =>
  if baseline_exists (world s) then
    match @load_baseline W baseline_file _ _ _ (world s) with
    | Ret old => print (overwrite_line (b_metrics old) new) s
    | Raise e =>
        if is_value_error e
        then print (u "--force-baseline: overwriting " ++ baseline args
                    ++ u " (previous baseline unreadable: " ++ exn_str e ++ u ")") s
        else (Raise (Uncaught e), s)
    end
  else (Ret tt, s).

Definition record_baseline (sha : pystr) (acc : progress) : M stop (cli W) unit :=
  if arg_write_baseline args then
    match rows acc with
    | [] => raise (Uncaught (OtherException (u "IndexError")))
    | (row, config) :: _ =>
        _ ← describe_overwrite (rr_metrics row);
        t ← now;
        _ ← uncaught (@write_baseline W baseline_file _
              {| recorded_at := Datetime t (Some 0); b_git_sha := sha;
                 b_prompt_version := rr_prompt_version row; b_model_config := config;
                 b_metrics := rr_metrics row |} t);
        _ ← took BaselineWritten;
        print (u "baseline written to " ++ baseline args)
    end
  else mret tt.

Definition gate_line (b : Baseline) (row : ResultRow * jobj) : pystr :=
  let r := evaluate_gate (gate_settings settings) (rr_metrics row.1) b row.2 in
  let marker := if json_eqb (JObj row.2) (JObj (b_model_config b)) then u "config=match"
                else u "config=CHANGED (cost condition disabled)" in
  match tripped r with
  | [] => u "GATE: PASS " ++ marker
  | names => u "GATE: FAIL "
      ++ py_join (u " ") (map (fun name => name ++ u "=" ++ default [] (dget name (details r))) names)
      ++ u " " ++ marker
  end.

Definition row_fails (b : Baseline) (row : ResultRow * jobj) : bool :=
  nonempty (tripped (evaluate_gate (gate_settings settings) (rr_metrics row.1) b row.2)).

Definition gate_rows (p : plan) (acc : progress) : M stop (cli W) Z :=
  if gate args then
    match p_baseline p with
    | None => raise (Uncaught AssertionError)
    | Some b =>
        _ ← print_all (map (gate_line b) (rows acc));
        mret (if existsb (row_fails b) (rows acc) then 1 else 0)
    end
  else mret 0.

Definition finish (p : plan) (sha : pystr) (acc : progress) : M stop (cli W) Z :=
  match missing_fixtures acc with
  | _ :: _ =>
      _ ← print_all (table_lines acc ++ [missing_line (missing_fixtures acc)]);
      mret 1
  | [] =>
      if negb (any_case_succeeded acc)
      then fail (u "all_cases_failed") (u "every case failed in every prompt run")
      else
        _ ← print_all (table_lines acc
              ++ map (fun r => u "eval_runs: " ++ r.1 ++ u " (" ++ r.2 ++ u ")") (run_rows acc)
              ++ if publish args then [published_message (published_count acc)] else []);
        _ ← record_baseline sha acc;
        gate_rows p acc
  end.

Definition sha_now : M stop (cli W) pystr := fun s => (Ret (git_sha (world s)), s).

Definition evaluate : M stop (cli W) Z :=
  p ← prepare;
  sha ← sha_now;
  acc ← foldM (prompt_step p sha) (prompt args) (Progress [] [] 0 false []);
  finish p sha acc.

(** The [finally]: the client is closed, then the engine; an exception of the first skips the
    second. *)
Definition close_all : M exn (cli W) unit := fun s =>
  match aclose (world s) with
  | (Raise e, w) => (Raise e, set_world w s)
  | (Ret _, w) =>
      let s1 := Cli w (out s) (err s) (steps s) false (engine_open s) in
      if engine_open s then
        match dispose w with
        | (Raise e, w') => (Raise e, set_world w' s1)
        | (Ret _, w') => (Ret tt, Cli w' (out s) (err s) (steps s) false false)
        end
      else (Ret tt, s1)
  end.

(** A [return] inside the [try] is the answer, unless the [finally] raises. *)
Definition _run_all (w : W) : outcome exn Z * cli W :=
  let '(o, s) := (if from_artifact args then republish else evaluate)
                   (Cli w [] [] [] true false) in
  let '(closed, s') := close_all s in
  (_ ← closed;
   match o with
   | Ret code | Raise (Exit code) => Ret code
   | Raise (Uncaught e) => Raise e
   end, s').
End command.
