(* ===== verification/Commands.v ===== *)
(** * Commands: the entry points of the evaluation package

    The [main] functions of [evals/sample.py], [evals/run.py] and [evals/record.py], from the
    parsed arguments to the exit code, over [sample], [_run_all] and [record].  [argparse],
    the environment's fields, the files and the texts of exceptions are parameters. *)

From S2P Require Import Prelude Errors Cache Cli Json Datetime Text Schemas Floats Llm Prompts ToolBase Tools Recorder Database History Golden Judge Scoring Publish Gate Candidates Sample Recording EvalRun Shipper EvalMain Boot Command.
#[local] Open Scope Z_scope.

(** ** [evals/sample.py] *)

Record SampleArgs : Type := {
  sa_database_url : option pystr;
  sa_n : Z;
  sa_seed : Z;
  sa_out : pystr;
  sa_since : option pystr;
  sa_exclude : option pystr
}.

Section sample_command.
Context {W R : Type} {PG : Postgres W} {RN : Rng R} {AC : AlertCodec} {LZ : LocalZone} {SH : Sha256} {JL : JsonLoads}
  {FR : FloatRepr} {IS : IsoParse}.
Variable str_uuid : uuid -> pystr.
Variable exn_text : exn -> pystr.
Variable environment : outcome exn Settings.
Variable arguments : pystr + SampleArgs.
(** [make_engine] of a URL, [Path.read_text] and [Path.write_text]. *)
Variable make_engine : pystr -> outcome exn unit.
Variable read_text : pystr -> outcome exn pystr.
Variable write_text : pystr -> pystr -> M exn (db W) unit.

(** A date without a zone is UTC's. *)
Definition _parse_since (value : pystr) : outcome exn Z :=
  match iso_parse value with
  | None => Raise (ValueError (u "Invalid isoformat string: " ++ value))
  | Some d => Ret (instant (if is_aware d then d else Datetime (local_us d) (Some 0)))
  end.

Definition sample_url (args : SampleArgs) : outcome left pystr :=
  url ← (match sa_database_url args with
         | Some url => Ret url
         | None =>
             s ← catching exn_text (read_settings environment) is_validation_error (u "config_error");
             Ret (database_url s)
         end);
  match url with
  | [] => fail (u "config_error") (u "no database URL (pass --database-url or set DATABASE_URL)")
  | _ => Ret url
  end.

Definition sample_plan : outcome left (SampleArgs * pystr) :=
  args ← usage_or arguments; url ← sample_url args; Ret (args, url).

Definition sampling_failed (e : exn) : bool :=
  match e with SQLAlchemyError => true | _ => is_os_error e end.

(** The candidates, or the refusal. *)
Definition draw (args : SampleArgs) (url : pystr) (since : option Z) (excluded : list pystr)
    : M exn (db W) (ended + list Candidate) :=
  try_except
    (_ ← lift (make_engine url); cs ← sample (R := R) str_uuid (sa_n args) (sa_seed args) since excluded; mret (inr cs))
    (fun e => if sampling_failed e
              then Some (mret (inl (refuse (error_line (u "database_error") (exn_name e ++ u ": could not sample alerts")))))
              else None).

(** An empty [--since] is none. *)
Definition since_of (args : SampleArgs) : outcome exn (option Z) :=
  match sa_since args with None | Some [] => Ret None | Some text => t ← _parse_since text; Ret (Some t) end.
Definition excluded_of (args : SampleArgs) : outcome exn (list pystr) :=
  match sa_exclude args with None => Ret [] | Some path => _load_exclude_case_ids (read_text path) end.

Definition sample_run (args : SampleArgs) (url : pystr) : M exn (db W) ended :=
  since ← lift (since_of args);
  excluded ← lift (excluded_of args);
  drawn ← draw args url since excluded;
  match drawn with
  | inl r => mret r
  | inr cs =>
      text ← lift (candidates_text (sa_seed args) cs);
      _ ← write_text (sa_out args) text;
      mret {| exit_code := 0; stdout := []; stderr := [] |}
  end.

Definition sample_main : M exn (db W) ended := fun d =>
  match sample_plan with
  | Ret (args, url) => sample_run args url d
  | Raise l => (settle (Raise l), d)
  end.

Lemma sample_plan_spec :
  match sample_plan with
  | Ret (args, url) => arguments = inr args /\ url <> []
  | Raise (Returned r) => refused r
  | Raise (Escaped e) => environment = Raise e
  end.
Proof.
  unfold sample_plan, mbind, outcome_bind. catch_step Ha; [|done|done]. unfold sample_url, mbind, outcome_bind.
  assert (Hurl : forall url : pystr, match (match url with [] => fail (u "config_error") (u "no database URL (pass --database-url or set DATABASE_URL)") | _ => Ret url end) with
    | Ret url => url <> [] | Raise (Returned r) => refused r | Raise (Escaped _) => False end).
  { intros [|c url]; [|done]. apply fail_refused. decided. }
  destruct (sa_database_url _) as [url|].
  { specialize (Hurl url). by destruct url. }
  catch_step Hs; [|done|].
  - match goal with |- context [database_url ?s] => specialize (Hurl (database_url s)); by destruct (database_url s) end.
  - destruct Hs as [E He]. pose proof (read_settings_cases environment) as Hc. rewrite E in Hc. by destruct Hc as [->|].
Qed.

(** A sampling run ends in a refusal that wrote nothing, or with the drawn candidates in the
    file and nothing printed; what escapes is no database failure of the draw. *)
Lemma sample_command_honest d :
  match sample_main d with
  | (Ret r, d') =>
      refused r \/
      exists args (url : pystr) since excluded cs text d1, arguments = inr args /\ url <> [] /\
        sample (R := R) str_uuid (sa_n args) (sa_seed args) since excluded d = (Ret cs, d1) /\
        candidates_text (sa_seed args) cs = Ret text /\ write_text (sa_out args) text d1 = (Ret tt, d') /\
        r = {| exit_code := 0; stdout := []; stderr := [] |}
  | (Raise _, _) => True
  end.
Proof.
  unfold sample_main. pose proof sample_plan_spec as Hp.
  destruct sample_plan as [[args url]|[r|e]]; [|by left|done]. destruct Hp as [Ha Hu].
  unfold sample_run. m_unfold. destruct (since_of args) as [since|]; [|done].
  destruct (excluded_of args) as [excluded|]; [|done].
  unfold draw. m_unfold. destruct (make_engine url) as [[]|e].
  2: { destruct (sampling_failed e); [|done]. left. apply fail_refused. decided. }
  destruct (sample _ _ _ _ _ d) as [[cs|e] d1] eqn:E.
  2: { destruct (sampling_failed e); [|done]. left. apply fail_refused. decided. }
  destruct (candidates_text _ cs) as [text|] eqn:Et; [|done].
  destruct (write_text _ text d1) as [[[]|] d2] eqn:Ew; [|done]. right. by exists args, url, since, excluded, cs, text, d1.
Qed.
End sample_command.

(** ** [evals/run.py] *)

(** [argparse]'s [type=] of [--concurrency]: [None] is its usage error. *)
Definition _positive_int {NT : NumberText} (value : pystr) : option Z :=
  match parse_int value with Some n => if n <? 1 then None else Some n | None => None end.

(** What [git rev-parse] answers: its return code and output. *)
Definition _git_sha (result : outcome exn (Z * pystr)) : outcome exn pystr :=
  match result with
  | Ret (code, output) => Ret (if code =? 0 then strip output else u "unknown")
  | Raise e => if is_os_error e then Ret (u "unknown") else Raise e
  end.

Definition eval_settings (s : Settings) : EvalSettings :=
  {| EvalMain.cheap_model := Boot.cheap_model s; EvalMain.strong_model := Boot.strong_model s;
     EvalMain.model_prices_json := dkeys (Boot.model_prices_json s); settings_judge_prompt := judge_prompt_version s;
     gate_settings := {| eval_gate_severity_drop_points := s_eval_gate_severity_drop_points s;
                         eval_gate_critical_recall_min := s_eval_gate_critical_recall_min s;
                         eval_gate_cost_rise_fraction := s_eval_gate_cost_rise_fraction s |} |}.

Section eval_command.
Context {W : Type} {EW : EvalWorld W} {NU : Numerals} {JL : JsonLoads} {ID : IsoDate} {IS : IsoParse}
        {FR : FloatRepr} {FD : FloatDecimal} {DS : DecimalStr} {CM : CaseModel} {LZ : LocalZone}
        {SH : Sha256} {SR : StrRepr} {PF : JudgePromptFiles} {SD : SummaryDump}.
Variable verdict_dump : Verdict.Verdict -> json.
Variable JUDGE_SCORE_SCHEMA : json.
Variable exn_text : exn -> pystr.
Variable environment : outcome exn Settings.
Variable arguments : pystr + EvalArgs.
(** Whether [--tool-fixtures] is a directory, and whether a client was injected. *)
Variables fixtures_exist injected : bool.

Definition eval_plan : outcome left (EvalArgs * Settings) :=
  args ← usage_or arguments;
  if negb fixtures_exist then fail (u "usage") (u "--tool-fixtures is not a directory")
  else
    s ← catching exn_text (read_settings environment) is_validation_error (u "config_error");
    Ret (args, s).

Definition eval_main (w : W) : outcome exn ended * W :=
  match eval_plan with
  | Raise l => (settle (Raise l), w)
  | Ret (args, s) =>
      let '(o, c) := _run_all verdict_dump (eval_settings s) injected args JUDGE_SCORE_SCHEMA w in
      (code ← o; Ret {| exit_code := code; stdout := out c; stderr := err c |}, world c)
  end.

(** Before [_run_all] the command only refuses, and touches nothing. *)
Lemma eval_main_spec w :
  match eval_plan with
  | Raise (Returned r) => refused r /\ eval_main w = (Ret r, w)
  | Raise (Escaped e) => environment = Raise e /\ eval_main w = (Raise e, w)
  | Ret (args, s) => arguments = inr args /\ Forall (fun b => b = true) (constraints s) /\
      (eval_main w).2 = world (_run_all verdict_dump (eval_settings s) injected args JUDGE_SCORE_SCHEMA w).2
  end.
Proof.
  unfold eval_main. assert (Hp : match eval_plan with
    | Raise (Returned r) => refused r | Raise (Escaped e) => environment = Raise e
    | Ret (args, s) => arguments = inr args /\ Forall (fun b => b = true) (constraints s) end).
  { unfold eval_plan, mbind, outcome_bind. catch_step Ha; [|done|done].
    destruct (negb fixtures_exist); [apply fail_refused; decided|]. catch_step Hs; [|done|].
    - pose proof (read_settings_cases environment) as Hc. by rewrite Hs in Hc.
    - destruct Hs as [E He]. pose proof (read_settings_cases environment) as Hc. rewrite E in Hc. by destruct Hc as [->|]. }
  destruct eval_plan as [[args s]|[r|e]]; [|by split|by split]. destruct Hp as [-> Hs].
  split_and!; [done|done|]. by destruct (_run_all _ _ _ _ _ w) as [o c].
Qed.
End eval_command.

(** ** [evals/record.py] *)

Record RecordArgs : Type := { ra_fixtures : pystr; ra_only : option pystr; ra_dry_run : bool }.

Section record_command.
Context {W C H D : Type} {CW : Tools.Clock W} {FR : FloatRepr} {KX : Fixtures W} {KD : FixtureDir W} {SH : Sha256}
  {KC : TTLCache C} {KT : Tools.Clock H} {KH : IpReputation.Http H} {KI : IpAddress} {KL : JsonLoadsBytes}
  {KJ : IpReputation.JsonInt} {PG : Postgres D} {LZ : LocalZone} {PE : Part W (IpReputation.env C H)} {PD : Part W (db D)}
  {CM : CaseModel} {JL : JsonLoads} {SR : StrRepr}.
Variable str_of : json -> pystr.
Variable timestamptz_isoformat : Z -> pystr.
Variable open_database : pystr -> option GeoAsn.GeoReader.
Variable read_file : pystr -> option pybytes.
Variable parse_assets : pybytes -> option (list (pystr * AssetInfo.AssetRecord)).
Variable exn_text : exn -> pystr.
Variable environment : outcome exn Settings.
Variable arguments : pystr + RecordArgs.
Variable golden_text : outcome exn pystr.
Variable live : ToolReg.ToolRecorder (W := W).
(** A registry given in place of the real one. *)
Variable injected : option (ToolReg.ToolRegistry (W := W)).

Definition record_registry : outcome left (ToolReg.ToolRegistry (W := W)) :=
  match injected with
  | Some registry => Ret registry
  | None =>
      s ← catching exn_text (read_settings environment) is_validation_error (u "config_error");
      match build_registry timestamptz_isoformat open_database read_file parse_assets s live true with
      | Ret registry => Ret registry
      | Raise e => Raise (Escaped e)
      end
  end.

(** The golden file's cases; then the printed plan, or a registry to record through. *)
Definition record_plan : outcome left (RecordArgs * list GoldenCase * ToolReg.ToolRegistry (W := W)) :=
  args ← usage_or arguments;
  cases ← catching exn_text (load_golden golden_text false) (fun e => is_os_error e || is_value_error e) (u "invalid_golden");
  if ra_dry_run args
  then Raise (Returned {| exit_code := 0; stderr := [];
         stdout := map (fun call => call.1 ++ u " " ++ ip_of call.2) (_filtered_calls cases (ra_only args)) |})
  else registry ← record_registry; Ret (args, cases, registry).

Definition record_entry : M exn W ended := fun w =>
  match record_plan with
  | Raise l => (settle (Raise l), w)
  | Ret (args, cases, registry) =>
      (report ← record_main str_of registry (ra_fixtures args) cases (ra_only args) false;
       mret {| exit_code := report.1.1; stdout := report.1.2; stderr := report.2 |}) w
  end.

(** Settings that are accepted always give the five tools: a registry of its own never
    escapes. *)
Lemma record_registry_total e : record_registry = Raise (Escaped e) -> injected = None /\ environment = Raise e.
Proof.
  unfold record_registry. destruct injected; [done|]. unfold mbind at 1, outcome_bind at 1. catch_step Hs; [| |].
  - pose proof (read_settings_cases environment) as Hb. rewrite Hs in Hb. apply constraints_in_bounds in Hb.
    match goal with |- context [build_registry ?i ?o ?r ?p ?s ?l ?c] =>
      destruct (build_registry_ret (W := W) i o r p s l c) as (registry & -> & _); [done|] end. done.
  - done.
  - intros [= <-]. split; [done|]. destruct Hs as [E He]. pose proof (read_settings_cases environment) as Hc. rewrite E in Hc. by destruct Hc as [->|].
Qed.
End record_command.
