(* ===== verification/EvalFacts.v ===== *)
(** * EvalFacts: what the evaluation command promises

    Over [EvalMain] ([evals/run.py], [_run_all]): nothing is paid for before the checks of
    [prepare] have passed, the lasting steps come in one fixed order (each prompt's pipeline is
    constructed only when its turn comes), and the exit code agrees with what stdout and stderr
    carry.  [wp] and [does] are the two judgments the proofs compose. *)

From S2P Require Import Prelude Errors Cli Json Datetime Text JsonParse Schemas Floats Prompts Golden Judge Scoring Recorder Publish Gate Sample EvalRun EvalMain.
#[local] Open Scope Z_scope.

(** ** Reasoning about the command *)

Section wp.
Context {W : Type} {EW : EvalWorld W}.
#[local] Abbreviation cmd := (M stop (cli W)).

(** [Q] of what [m] answers, [E] of how it stops. *)
Definition wp {A} (m : cmd A) (Q : A -> cli W -> Prop) (E : stop -> cli W -> Prop) (s : cli W) : Prop :=
  match m s with (Ret a, s') => Q a s' | (Raise x, s') => E x s' end.

Lemma wp_ret {A} (a : A) Q E s : Q a s -> wp (mret a) Q E s.
Proof. done. Qed.
Lemma wp_bind {A B} (m : cmd A) (f : A -> cmd B) Q E s :
  wp m (fun a s' => wp (f a) Q E s') E s -> wp (m ≫= f) Q E s.
Proof. unfold wp, mbind, M_bind. by destruct (m s) as [[a|x] s']. Qed.
Lemma wp_mono {A} (m : cmd A) (Q Q' : A -> cli W -> Prop) (E E' : stop -> cli W -> Prop) s :
  wp m Q E s -> (forall a s', Q a s' -> Q' a s') -> (forall x s', E x s' -> E' x s') -> wp m Q' E' s.
Proof. unfold wp. destruct (m s) as [[a|x] s']; auto. Qed.
Lemma wp_catching {A} (m : M exn W A) handler Q E s :
  (forall a w, m (world s) = (Ret a, w) -> Q a (set_world w s)) ->
  (forall e w, m (world s) = (Raise e, w) ->
     match handler e with
     | Some h => wp h Q E (set_world w s)
     | None => E (Uncaught e) (set_world w s)
     end) ->
  wp (catching m handler) Q E s.
Proof.
  intros H1 H2. unfold wp, catching in *. destruct (m (world s)) as [[a|e] w]; [by apply H1|].
  specialize (H2 e w eq_refl). by destruct (handler e).
Qed.

(** How a command stops: with [1] and one line on stderr, or with an exception; nothing is
    printed and no step is taken on the way. *)
Definition stops (s : cli W) (x : stop) (s' : cli W) : Prop :=
  out s' = out s /\ steps s' = steps s /\ http_open s' = http_open s /\
  match x with
  | Exit c => c = 1 /\ exists line, err s' = err s ++ [line]
  | Uncaught _ => err s' = err s
  end.

Lemma wp_fail {A} code message (Q : A -> cli W -> Prop) s s0 :
  out s = out s0 -> steps s = steps s0 -> http_open s = http_open s0 -> err s = err s0 ->
  wp (fail code message) Q (stops s0) s.
Proof. intros Ho Hs Hh He. unfold wp, fail, stops. cbn. rewrite He. naive_solver. Qed.

(** A handler that only ever refuses. *)
Definition refuses {A} (handler : exn -> option (cmd A)) : Prop :=
  forall e h, handler e = Some h -> exists code message, h = fail code message.

Lemma wp_guarded {A} (m : M exn W A) handler (Q : A -> cli W -> Prop) s :
  refuses handler ->
  (forall a w, m (world s) = (Ret a, w) -> Q a (set_world w s)) ->
  wp (catching m handler) Q (stops s) s.
Proof.
  intros Hr HQ. apply wp_catching; [exact HQ|]. intros e w _. destruct (handler e) as [h|] eqn:Eh.
  - destruct (Hr e h Eh) as (code & message & ->). by apply wp_fail.
  - done.
Qed.

Lemma refuses_none {A} : refuses (A := A) (fun _ => None).
Proof. by intros e h. Qed.
Lemma refuses_when {A} (p : exn -> bool) code message :
  refuses (A := A) (fun e => if p e then Some (fail (code e) (message e)) else None).
Proof. intros e h. case_match; [|done]. intros [= <-]. by eexists _, _. Qed.
Lemma refuses_family {A} c : refuses (A := A) (as_family c).
Proof. apply refuses_when. Qed.
Lemma refuses_config {A} : refuses (A := A) as_config_error.
Proof. apply refuses_when. Qed.
Lemma refuses_first {A} (f g : exn -> option (cmd A)) :
  refuses f -> refuses g -> refuses (fun e => first_of (f e) (g e)).
Proof. intros Hf Hg e h. unfold first_of. destruct (f e) eqn:E; [intros [= <-]; by eapply Hf|apply Hg]. Qed.

Lemma wp_refuse_if cond f (Q : unit -> cli W -> Prop) s :
  (exists code message, f = fail code message) -> (cond = false -> Q tt s) ->
  wp (refuse_if cond f) Q (stops s) s.
Proof.
  intros (code & message & ->) HQ. unfold refuse_if. destruct cond; [by apply wp_fail|]. by apply wp_ret, HQ.
Qed.
End wp.
#[local] Hint Resolve refuses_none refuses_when refuses_family refuses_config refuses_first : core.

(** ** Steps taken in order *)

Section does.
Context {W : Type} {EW : EvalWorld W}.
#[local] Abbreviation cmd := (M stop (cli W)).

(** Nothing printed; the steps of [b] taken. *)
Definition quiet (b : list step) (s s' : cli W) : Prop :=
  out s' = out s /\ err s' = err s /\ http_open s' = http_open s /\ steps s' = steps s ++ b.

(** As [stops], after the first steps of [b]. *)
Definition halts (b : list step) (s : cli W) (x : stop) (s' : cli W) : Prop :=
  out s' = out s /\ http_open s' = http_open s /\ (exists k, steps s' = steps s ++ take k b) /\
  match x with
  | Exit c => c = 1 /\ exists line, err s' = err s ++ [line]
  | Uncaught _ => err s' = err s
  end.

Definition does {A} (m : cmd A) (b : list step) (P : A -> Prop) : Prop :=
  forall s, wp m (fun a s' => quiet b s s' /\ P a) (halts b s) s.

Lemma halts_later b b' s x s' : halts b s x s' -> halts (b ++ b') s x s'.
Proof.
  intros (Ho & Hh & [k Hk] & Hx). split_and!; try done. exists (Nat.min k (length b)).
  rewrite take_app_le by lia. rewrite Hk. f_equal. destruct (Nat.le_gt_cases k (length b)).
  - by rewrite Nat.min_l by lia.
  - rewrite Nat.min_r by lia. by rewrite !take_ge by lia.
Qed.
Lemma halts_after b b' s s1 x s' : quiet b s s1 -> halts b' s1 x s' -> halts (b ++ b') s x s'.
Proof.
  intros (Ho & He & Hh & Hs) (Ho' & Hh' & [k Hk] & Hx). split_and!; try congruence.
  - exists (length b + k)%nat. by rewrite take_app_add, Hk, Hs, (assoc_L (++)).
  - rewrite He in Hx. exact Hx.
Qed.
Lemma stops_halts b s x s' : stops s x s' -> halts b s x s'.
Proof. intros (Ho & Hs & Hh & Hx). split_and!; try done. exists 0%nat. by rewrite take_0, app_nil_r. Qed.

Lemma does_ret {A} (a : A) (P : A -> Prop) : P a -> does (mret a) [] P.
Proof. intros H s. split; [|done]. split_and!; try done. by rewrite app_nil_r. Qed.

Lemma does_bind {A B} (m : cmd A) (f : A -> cmd B) b b' (P : A -> Prop) (Q : B -> Prop) :
  does m b P -> (forall a, P a -> does (f a) b' Q) -> does (m ≫= f) (b ++ b') Q.
Proof.
  intros Hm Hf s. apply wp_bind. eapply wp_mono; [apply Hm| |by intros; apply halts_later].
  intros a s1 [H1 Ha]. eapply wp_mono; [by apply Hf| |].
  - intros c s2 [H2 Hc]. split; [|done]. destruct H1 as (?&?&?&E1), H2 as (?&?&?&E2).
    split_and!; try congruence. by rewrite E2, E1, (assoc_L (++)).
  - intros x s2. by apply halts_after.
Qed.

Lemma does_guarded {A} (m : M exn W A) handler (P : A -> Prop) :
  refuses handler -> (forall w a w', m w = (Ret a, w') -> P a) -> does (catching m handler) [] P.
Proof.
  intros Hr HP s. eapply wp_mono; [apply wp_guarded; [done|]| |by intros; apply stops_halts].
  - intros a w E. instantiate (1 := fun a s' => quiet [] s s' /\ P a). split; [|by eapply HP].
    split_and!; try done. by rewrite app_nil_r.
  - done.
Qed.
Lemma does_took x : does (took x) [x] (fun _ => True).
Proof. by intros s. Qed.
Lemma does_weaken {A} (m : cmd A) b (P Q : A -> Prop) :
  does m b P -> (forall a, P a -> Q a) -> does m b Q.
Proof. intros H HPQ s. eapply wp_mono; [apply H| |done]. naive_solver. Qed.

(** A loop does its blocks in order. *)
Lemma does_foldM {A B} (f : A -> B -> cmd A) (block : B -> list step) (R : A -> B -> A -> Prop) l a :
  (forall a x, does (f a x) (block x) (R a x)) ->
  does (foldM f l a) (flat_map block l)
    (fun a' => exists trace : list A, length trace = length l /\
       (forall i x, l !! i = Some x -> exists before after, (a :: trace) !! i = Some before /\
          trace !! i = Some after /\ R before x after) /\ last (a :: trace) = Some a').
Proof.
  intros H. revert a. induction l as [|x l IH]; intros a; cbn [foldM flat_map].
  { apply does_ret. by exists []. }
  eapply does_bind; [apply H|]. intros a1 H1. eapply does_weaken; [apply IH|].
  intros a' (trace & Hl & Hi & Hlast). exists (a1 :: trace). split_and!.
  - by rewrite !length_cons, Hl.
  - intros [|i] y Hy; [injection Hy as <-; by exists a, a1|]. apply (Hi i y Hy).
  - exact Hlast.
Qed.
End does.
#[local] Hint Resolve does_took : core.

(** ** The checks *)

Section checks.
Context {W : Type} {EW : EvalWorld W} {NU : Numerals} {JL : JsonLoads} {IS : IsoParse} {CM : CaseModel}
        {LZ : LocalZone} {SH : Sha256} {SR : StrRepr} {PF : JudgePromptFiles}.
#[local] Abbreviation cmd := (M stop (cli W)).
Variables (settings : EvalSettings) (injected : bool) (args : EvalArgs).

(** A check leaves everything as it was. *)
Definition checks {A} (m : cmd A) (s : cli W) (P : A -> Prop) : Prop :=
  wp m (fun a s' => s' = s /\ P a) (stops s) s.

Lemma checks_bind {A B} (m : cmd A) (f : A -> cmd B) s P (Q : B -> cli W -> Prop) :
  checks m s P -> (forall a, P a -> wp (f a) Q (stops s) s) -> wp (m ≫= f) Q (stops s) s.
Proof. intros Hm Hf. apply wp_bind. eapply wp_mono; [exact Hm| |done]. intros a s' [-> Ha]. by apply Hf. Qed.
Lemma checks_ret {A} (a : A) s (P : A -> Prop) : P a -> checks (mret a) s P.
Proof. by split. Qed.
Lemma checks_fail {A} code message s (P : A -> Prop) : checks (fail code message) s P.
Proof. by apply wp_fail. Qed.
Lemma checks_refuse_if cond f s :
  (exists code message, f = fail code message) -> checks (refuse_if cond f) s (fun _ => cond = false).
Proof. intros Hf. by apply wp_refuse_if. Qed.
Lemma checks_reading {A} (f : W -> outcome exn A) handler s :
  refuses handler -> checks (catching (reading f) handler) s (fun a => f (world s) = Ret a).
Proof.
  intros Hr. apply wp_guarded; [done|]. unfold reading. intros a w [= E <-]. split; [by destruct s|done].
Qed.

(** What holds before any case runs. *)
Definition priced (m : pystr) : Prop := m ∈ model_prices_json settings.
Record checked (w : W) (p : plan) : Prop := Checked {
  ck_models : p_model p = model settings args /\ p_strong_model p = the_strong_model settings args /\
    p_judge_model p = the_judge_model settings args /\ p_judge p = judge_enabled settings args;
  ck_prices : injected = false -> priced (p_model p) /\ (p_strong_model p <> [] -> priced (p_strong_model p)) /\
    (p_judge p = true -> priced (p_judge_model p));
  ck_judge : p_judge p = true -> p_judge_model p <> [] /\
    exists template, load_judge_prompt (settings_judge_prompt settings) = Ret template;
  ck_golden : load_golden (golden_text w) false = Ret (p_cases p);
  ck_labels : is_v2_golden (golden args) = true -> Forall (fun c => labeled_by c <> None) (p_cases p);
  ck_v2 : arg_write_baseline args = true \/ publish args = true -> is_v2_golden (golden args) = true;
  ck_baseline : arg_write_baseline args = true -> py_len (prompt args) <= 1 /\
    (baseline_exists w = true -> force_baseline args = true);
  ck_gate : p_baseline p = None <-> gate args = false;
  ck_gate_baseline : forall b, p_baseline p = Some b -> @load_baseline W baseline_file _ _ _ w = Ret b
}.

Lemma checks_gate s :
  checks (load_gate_baseline args) s (fun ob => (ob = None <-> gate args = false) /\
    forall b, ob = Some b -> @load_baseline W baseline_file _ _ _ (world s) = Ret b).
Proof.
  unfold load_gate_baseline, checks. destruct (gate args); [|by apply checks_ret].
  eapply checks_bind; [apply checks_reading, refuses_when|]. cbn beta. intros b Hb.
  apply checks_ret. split; [done|]. congruence.
Qed.

Lemma unpriced_false m : unpriced settings m = false -> priced m.
Proof. unfold unpriced. intros H%bool_decide_eq_false. by apply dec_stable. Qed.

Lemma checks_check_prices s :
  checks (check_prices settings injected args) s (fun _ =>
    (injected = false -> priced (model settings args) /\
       (the_strong_model settings args <> [] -> priced (the_strong_model settings args)) /\
       (judge_enabled settings args = true -> priced (the_judge_model settings args))) /\
    (judge_enabled settings args = true -> the_judge_model settings args <> [])).
Proof.
  unfold check_prices, no_price, checks.
  do 3 (eapply checks_bind; [apply checks_refuse_if; by eexists _, _|]; cbn beta; intros [] ?).
  eapply wp_mono; [apply checks_refuse_if; by eexists _, _| |done]. intros [] s' [-> H4]. split; [done|].
  assert (Hj : judge_enabled settings args = true -> the_judge_model settings args <> [])
    by (intros E; rewrite E in *; by case_bool_decide).
  split; [|exact Hj]. intros ->. cbn [negb andb] in *. split; [by apply unpriced_false|]. split.
  - intros E. apply unpriced_false. by rewrite bool_decide_eq_false_2 in * by done.
  - intros E. apply unpriced_false. by rewrite E, bool_decide_eq_false_2 in * by auto.
Qed.

Lemma checks_judge_prompt s :
  checks (check_judge_prompt settings args) s (fun _ => judge_enabled settings args = true ->
    exists template, load_judge_prompt (settings_judge_prompt settings) = Ret template).
Proof.
  unfold check_judge_prompt. destruct (judge_enabled settings args); [|by apply checks_ret].
  apply wp_guarded; [auto|]. unfold mbind, M_bind, lift. intros [] w.
  destruct (load_judge_prompt _) as [t|e]; [|done]. intros [= <-]. split; [by destruct s|]. by exists t.
Qed.

Lemma index_of_none {A} (f : A -> bool) (l : list A) : index_of f l = None -> Forall (fun x => f x = false) l.
Proof.
  induction l as [|x l IH]; simpl; [constructor|]. destruct (f x) eqn:E; [done|].
  destruct (index_of f l); [done|]. auto.
Qed.

Lemma checks_check_golden cases s :
  checks (check_golden args cases) s (fun _ =>
    (is_v2_golden (golden args) = true -> Forall (fun c => labeled_by c <> None) cases) /\
    (arg_write_baseline args = true \/ publish args = true -> is_v2_golden (golden args) = true)).
Proof.
  unfold check_golden. destruct (is_v2_golden (golden args)).
  - destruct (first_unlabeled cases) eqn:E; [apply checks_fail|]. apply checks_ret. split; [|done].
    unfold first_unlabeled in E. apply fmap_None in E. intros _. eapply Forall_impl; [by apply index_of_none|].
    intros c H%bool_decide_eq_false. done.
  - destruct (arg_write_baseline args); [apply checks_fail|].
    eapply wp_mono; [apply checks_refuse_if; by eexists _, _| |done]. cbn beta. naive_solver congruence.
Qed.

Lemma checks_baseline_file s :
  checks (check_baseline_file args) s (fun _ =>
    arg_write_baseline args = true -> baseline_exists (world s) = true -> force_baseline args = true).
Proof.
  unfold checks, wp, check_baseline_file. destruct (arg_write_baseline args); [|done].
  destruct (baseline_exists (world s)), (force_baseline args) eqn:E; cbn [andb negb]; try (split; done).
  apply (checks_fail (A := unit)).
Qed.

Lemma prepare_spec w :
  wp (prepare settings injected args)
    (fun p s => s = Cli w [] [] [] true (database_url args) /\ checked w p)
    (stops (Cli w [] [] [] true false)) (Cli w [] [] [] true false).
Proof.
  unfold prepare. eapply checks_bind; [apply checks_gate|]. cbn beta. intros ob [Hg Hgb].
  eapply checks_bind; [apply checks_refuse_if; by eexists _, _|]. cbn beta. intros [] Hlen.
  eapply checks_bind; [apply checks_check_prices|]. cbn beta. intros [] [Hp Hj].
  eapply checks_bind; [apply checks_judge_prompt|]. cbn beta. intros [] Hjp.
  eapply checks_bind; [apply checks_reading, refuses_when|]. cbn beta. intros cases Hc.
  eapply checks_bind; [apply checks_check_golden|]. cbn beta. intros [] [Hl Hv].
  eapply checks_bind; [apply checks_baseline_file|]. cbn beta. intros [] Hb.
  eapply (checks_bind _ _ _ (fun _ => True)).
  { destruct injected; [by apply checks_ret|]. eapply wp_mono; [apply checks_reading; auto| |done]. naive_solver. }
  intros [] _. eapply checks_bind; [apply checks_reading; auto|]. cbn beta. intros [] _.
  apply wp_bind. unfold open_engine, wp at 1. cbn [world out err steps http_open].
  assert (Hck : checked w (Plan ob (model settings args) (the_strong_model settings args)
            (the_judge_model settings args) (judge_enabled settings args) (replay_strict args) cases)).
  { constructor; cbn [p_baseline p_model p_strong_model p_judge_model p_judge p_cases]; try done; auto.
    intros E. split; [|by apply Hb]. rewrite E in Hlen. cbn [andb] in Hlen. by apply Z.ltb_ge in Hlen. }
  destruct (database_url args); [|by split]. destruct (make_engine w); [by split|]. by split_and!.
Qed.
End checks.

(** ** The run *)

Section run.
Context {W : Type} {EW : EvalWorld W} {NU : Numerals} {JL : JsonLoads} {ID : IsoDate} {IS : IsoParse}
        {FR : FloatRepr} {FD : FloatDecimal} {DS : DecimalStr} {CM : CaseModel} {LZ : LocalZone}
        {SH : Sha256} {SR : StrRepr} {PF : JudgePromptFiles} {SD : SummaryDump}.
Variable verdict_dump : Verdict.Verdict -> json.
Variables (settings : EvalSettings) (injected : bool) (args : EvalArgs) (JUDGE_SCORE_SCHEMA : json).
#[local] Abbreviation cmd := (M stop (cli W)).
#[local] Abbreviation prompt_step := (prompt_step verdict_dump settings args JUDGE_SCORE_SCHEMA).

(** The lasting steps of one prompt. *)
Definition block (pv : pystr) : list step :=
  [Built pv; Ran pv; Artifact pv] ++ (if database_url args then [RowWritten pv] else [])
  ++ (if publish args then [Published pv] else []).

Definition missing_fixture (r : CaseResult) : bool :=
  match cr_error r with Some e => prefixb FIXTURE_MISSING e | None => false end.

(** The results of a prompt: [run_golden]'s, over every case. *)
Definition ran (p : plan) (pv : pystr) (results : list CaseResult) : Prop :=
  exists w w', forget_cause (run_golden (JC := judge_client) JUDGE_SCORE_SCHEMA (pipeline_run pv)
    (judging_of settings p) (schedule pv) (p_cases p)) w = (Ret results, w').

(** What a prompt adds to the progress. *)
Definition ran_prompt (p : plan) (before : progress) (pv : pystr) (after : progress) : Prop :=
  exists results metrics, ran p pv results /\ score results = Ret metrics /\
    rows after = rows before ++
      [({| rr_prompt_version := pv; rr_model := p_model p; rr_metrics := metrics |},
        run_model_config (p_model p) (p_judge_model p) (p_strong_model p) pv (p_replay_strict p) (p_judge p))] /\
    any_case_succeeded after = any_case_succeeded before
                               || existsb (fun r => bool_decide (cr_error r = None)) results /\
    foldl note_missing (Ret (missing_fixtures before)) results = Ret (missing_fixtures after).

Lemma does_uncaught {A} (o : outcome exn A) :
  does (W := W) (uncaught (lift o)) [] (fun a => o = Ret a).
Proof. apply does_guarded; [auto|]. unfold lift. by intros w a w' [= -> _]. Qed.

Lemma does_run_prompt p pv :
  does (run_prompt settings JUDGE_SCORE_SCHEMA p pv) [Ran pv] (ran p pv).
Proof.
  eapply (does_bind _ _ [Ran pv] []); [apply does_took|]. intros _ _.
  apply does_guarded; [auto|]. intros w results w' E. by exists w, w'.
Qed.

Lemma does_save_artifact p pv sha t metrics results :
  does (save_artifact verdict_dump args p pv sha t metrics results) [Artifact pv] (fun _ => True).
Proof.
  eapply (does_bind _ _ [] [Artifact pv]); [|auto]. by apply (does_guarded _ _ (fun _ => True)); [apply refuses_when|].
Qed.

Lemma does_save_row pv sha t config metrics :
  does (save_row args pv sha t config metrics) (if database_url args then [RowWritten pv] else []) (fun _ => True).
Proof.
  unfold save_row. destruct (database_url args); [|by apply does_ret].
  eapply (does_bind _ _ [] [_]); [by apply (does_guarded _ _ (fun _ => True)); [apply refuses_when|]|].
  intros id _. eapply (does_bind _ _ [_] []); [auto|]. intros _ _. by apply does_ret.
Qed.

Lemma does_publish_row p pv sha t row :
  does (publish_row args p pv sha t row) (if publish args then [Published pv] else []) (fun _ => True).
Proof.
  unfold publish_row. destruct (publish args); [|by apply does_ret].
  eapply (does_bind _ _ [] [_]); [apply does_uncaught|]. intros line _.
  eapply (does_bind _ _ [] [_]); [by apply (does_guarded _ _ (fun _ => True)); [auto|]|]. intros _ _.
  eapply (does_bind _ _ [_] []); [auto|]. intros _ _. by apply does_ret.
Qed.

Lemma does_now : does (W := W) now [] (fun _ => True).
Proof. intros s. unfold wp, now, quiet. destruct (utc_now (world s)). cbn. by rewrite app_nil_r. Qed.

Lemma does_prompt_step p sha acc pv :
  does (prompt_step p sha acc pv) (block pv) (ran_prompt p acc pv).
Proof.
  unfold EvalMain.prompt_step, block.
  eapply (does_bind _ _ [] _ (fun _ => True)); [by apply does_guarded; [auto|]|]. intros _ _.
  eapply (does_bind _ _ [_] (_ :: _)); [apply does_took|]. intros _ _.
  eapply (does_bind _ _ [] _); [apply does_now|]. intros started_at _.
  eapply (does_bind _ _ [_] (_ :: _)); [apply does_run_prompt|]. intros results Hran.
  eapply (does_bind _ _ [] _); [apply does_uncaught|]. intros metrics Hscore.
  eapply (does_bind _ _ [] _); [apply does_uncaught|]. intros missing Hmissing.
  eapply (does_bind _ _ [_] _); [apply does_save_artifact|]. intros _ _.
  eapply does_bind; [apply does_save_row|]. intros ids _.
  rewrite <- (app_nil_r (if publish args then [Published pv] else [])).
  eapply does_bind; [apply does_publish_row|]. intros n _. apply does_ret.
  exists results, metrics. by split_and!.
Qed.

(** The whole loop: one row per prompt, in the prompts' order. *)
Definition prompt_row (p : plan) (pv : pystr) (run : list CaseResult * (ResultRow * jobj)) : Prop :=
  ran p pv run.1 /\ score run.1 = Ret (rr_metrics run.2.1) /\
  rr_prompt_version run.2.1 = pv /\ rr_model run.2.1 = p_model p /\
  run.2.2 = run_model_config (p_model p) (p_judge_model p) (p_strong_model p) pv
              (p_replay_strict p) (p_judge p).
Definition ran_all (p : plan) (acc : progress) : Prop :=
  exists runs, Forall2 (prompt_row p) (prompt args) runs /\
    rows acc = map snd runs /\
    any_case_succeeded acc = existsb (existsb (fun r => bool_decide (cr_error r = None))) (map fst runs) /\
    foldl note_missing (Ret []) (List.concat (map fst runs)) = Ret (missing_fixtures acc).

Lemma loop_spec p sha :
  does (foldM (prompt_step p sha) (prompt args) (Progress [] [] 0 false [])) (flat_map block (prompt args)) (ran_all p).
Proof.
  eapply does_weaken; [apply does_foldM; intros; apply does_prompt_step|]. cbn beta. unfold ran_all.
  generalize (prompt args) as l. intros l acc.
  enough (H : forall a trace, length trace = length l ->
    (forall i x, l !! i = Some x -> exists before after, (a :: trace) !! i = Some before /\
       trace !! i = Some after /\ ran_prompt p before x after) ->
    last (a :: trace) = Some acc ->
    exists runs, Forall2 (prompt_row p) l runs /\
      rows acc = rows a ++ map snd runs /\
      any_case_succeeded acc = any_case_succeeded a
        || existsb (existsb (fun r => bool_decide (cr_error r = None))) (map fst runs) /\
      foldl note_missing (Ret (missing_fixtures a)) (List.concat (map fst runs)) = Ret (missing_fixtures acc)).
  { intros (trace & Hl & Hi & Hlast). destruct (H _ trace Hl Hi Hlast) as (runs & ? & ? & ? & ?).
    by exists runs. }
  induction l as [|pv l IH]; intros a trace Hl Hi Hlast.
  - destruct trace; [|done]. injection Hlast as <-. exists []. simpl.
    by rewrite app_nil_r, orb_false_r.
  - destruct trace as [|b trace]; [done|]. injection Hl as Hl.
    destruct (Hi 0%nat pv eq_refl) as (? & ? & [= <-] & [= <-] & results & m & Hran & Hm & Hr & Ha & Hmiss).
    destruct (IH b trace Hl) as (runs & Hf & Hr' & Ha' & Hmiss').
    + intros i x Hx. apply (Hi (S i) x Hx).
    + exact Hlast.
    + exists ((results, ({| rr_prompt_version := pv; rr_model := p_model p; rr_metrics := m |},
        run_model_config (p_model p) (p_judge_model p) (p_strong_model p) pv (p_replay_strict p) (p_judge p)))
        :: runs).
      cbn [map fst snd existsb List.concat]. split_and!.
      * by constructor.
      * by rewrite Hr', Hr, <- (assoc_L (++)).
      * by rewrite Ha', Ha, orb_assoc.
      * by rewrite foldl_app, Hmiss.
Qed.

Lemma existsb_Exists {A} (f : A -> bool) (P : A -> Prop) l :
  (forall x, f x = true -> P x) -> existsb f l = true -> Exists P l.
Proof.
  intros H (x & Hin & Hx)%existsb_exists. apply Exists_exists. exists x. rewrite list_elem_of_In. auto.
Qed.

(** What is reported missing, a case missed. *)
Lemma note_missing_some results missing found :
  foldl note_missing (Ret missing) results = Ret found -> found <> missing ->
  Exists (fun r => missing_fixture r = true) results.
Proof.
  revert missing. induction results as [|r results IH]; intros missing; cbn [foldl]; [by intros [= ->]|].
  destruct (missing_fixture r) eqn:E; [by intros; left|]. unfold missing_fixture in E.
  unfold note_missing at 2. cbn [mbind outcome_bind]. destruct (cr_error r); [rewrite E|]; intros; right; by eapply IH.
Qed.

(** Nothing is missing when the report says so. *)
Lemma note_missing_none results missing :
  foldl note_missing (Ret missing) results = Ret [] -> missing = [] /\ Forall (fun r => missing_fixture r = false) results.
Proof.
  revert missing. induction results as [|r results IH]; intros missing; cbn [foldl].
  { intros [= ->]. by split. }
  assert (Hraise : forall e, foldl note_missing (Raise e) results <> Ret []).
  { intros e. clear. induction results as [|r results IH]; [done|]. exact IH. }
  unfold note_missing at 2, missing_fixture. cbn [mbind outcome_bind].
  destruct (cr_error r) as [error|] eqn:Ee.
  2: { intros H. destruct (IH _ H) as [-> Hf]. split; [done|]. constructor; [by rewrite Ee|done]. }
  destruct (prefixb FIXTURE_MISSING error) eqn:Ep.
  - destruct (split_colon _) as [found|]; [|by intros H%Hraise]. intros H. exfalso.
    destruct (IH _ H) as [Hnil _]. case_bool_decide as Hin; [by rewrite Hnil in Hin; apply not_elem_of_nil in Hin|].
    by destruct missing.
  - intros H. destruct (IH _ H) as [-> Hf]. split; [done|]. constructor; [by rewrite Ee|done].
Qed.
(** *** The report *)

Definition reports {A} (m : cmd A) (b : list step) (P : A -> Prop) : Prop := forall s,
  wp m (fun a s' => (exists lines, out s' = out s ++ lines) /\ err s' = err s /\ http_open s' = http_open s /\
          steps s' = steps s ++ b /\ P a)
       (fun x s' => err s' = err s /\ http_open s' = http_open s /\ (exists e, x = Uncaught e) /\
          exists k, steps s' = steps s ++ take k b) s.

Lemma reports_bind {A B} (m : cmd A) (f : A -> cmd B) b b' (P : A -> Prop) (Q : B -> Prop) :
  reports m b P -> (forall a, P a -> reports (f a) b' Q) -> reports (m ≫= f) (b ++ b') Q.
Proof.
  intros Hm Hf s. apply wp_bind. eapply wp_mono; [apply Hm| |].
  - intros a s1 ([l Hl] & He & Hh & Hs & Ha). eapply wp_mono; [by apply Hf| |].
    + intros c s2 ([l' Hl'] & He' & Hh' & Hs' & Hc). split_and!; try congruence.
      * exists (l ++ l'). by rewrite Hl', Hl, (assoc_L (++)).
      * by rewrite Hs', Hs, (assoc_L (++)).
    + intros x s2 (He' & Hh' & Hx & [k Hk]). split_and!; try congruence.
      exists (length b + k)%nat. by rewrite take_app_add, Hk, Hs, (assoc_L (++)).
  - intros x s1 (He & Hh & Hx & [k Hk]). split_and!; try done. exists (Nat.min k (length b)).
    rewrite take_app_le by lia. rewrite Hk. f_equal. destruct (Nat.le_gt_cases k (length b)).
    + by rewrite Nat.min_l by lia.
    + rewrite Nat.min_r by lia. by rewrite !take_ge by lia.
Qed.
Lemma reports_ret {A} (a : A) (P : A -> Prop) : P a -> reports (mret a) [] P.
Proof. intros H s. split; [by exists []; rewrite app_nil_r|]. by rewrite app_nil_r. Qed.
Lemma reports_uncaught {A} (m : M exn W A) : reports (uncaught m) [] (fun _ => True).
Proof.
  intros s. apply wp_catching; intros x w _; cbn.
  - rewrite app_nil_r. split_and!; try done. exists []. by rewrite app_nil_r.
  - split_and!; [done|done|by eexists|]. exists 0%nat. by rewrite app_nil_r.
Qed.
Lemma reports_print line : reports (print line) [] (fun _ => True).
Proof. intros s. cbn. rewrite app_nil_r. split_and!; try done. by exists [line]. Qed.
Lemma reports_took x : reports (took x) [x] (fun _ => True).
Proof. intros s. cbn. split_and!; try done. exists []. by rewrite app_nil_r. Qed.
Lemma reports_now : reports now [] (fun _ => True).
Proof.
  intros s. unfold wp, now. destruct (utc_now (world s)). cbn. rewrite app_nil_r. split_and!; try done.
  exists []. by rewrite app_nil_r.
Qed.
Lemma reports_raise {A} e b : reports (A := A) (raise (Uncaught e)) b (fun _ => False).
Proof. intros s. cbn. split_and!; try done; [by eexists|]. exists 0%nat. by rewrite app_nil_r. Qed.
Lemma reports_false {A} (m : cmd A) b b' (P : A -> Prop) :
  reports m b (fun _ => False) -> (exists k, take k b' = []) -> b = [] -> reports m b' P.
Proof.
  intros H _ -> s. eapply wp_mono; [apply H|naive_solver|]. intros x s' (? & ? & ? & k & Hk).
  split_and!; try done. exists 0%nat. rewrite take_0. by destruct k.
Qed.

Lemma print_all_out lines (s : cli W) :
  print_all lines s = (Ret tt, Cli (world s) (out s ++ lines) (err s) (steps s) (http_open s) (engine_open s)).
Proof.
  unfold print_all. revert s. induction lines as [|line lines IH]; intros s; cbn [foldM].
  - unfold mret, M_ret. rewrite app_nil_r. by destruct s.
  - unfold mbind, M_bind, print at 1. rewrite IH. cbn. by rewrite <- (assoc_L (++)).
Qed.
Lemma reports_print_all lines : reports (print_all lines) [] (fun _ => True).
Proof.
  intros s. unfold wp. rewrite print_all_out. cbn. rewrite app_nil_r. split_and!; try done. by exists lines.
Qed.

Lemma reports_overwrite new : reports (describe_overwrite args new) [] (fun _ => True).
Proof.
  intros s. unfold wp, describe_overwrite. destruct (baseline_exists (world s)); [|exact (reports_ret tt (fun _ => True) I s)].
  destruct (load_baseline (world s)) as [old|e]; [exact (reports_print _ s)|].
  destruct (is_value_error e); [exact (reports_print _ s)|]. split_and!; try done; [by eexists|].
  exists 0%nat. by rewrite app_nil_r.
Qed.

Definition baseline_step : list step := if arg_write_baseline args then [BaselineWritten] else [].

Lemma reports_baseline sha acc : reports (record_baseline args sha acc) baseline_step (fun _ => True).
Proof.
  unfold record_baseline, baseline_step. destruct (arg_write_baseline args); [|by apply reports_ret].
  destruct (rows acc) as [|[row config] rest].
  { eapply reports_false; [apply (reports_raise _ [])|by exists 0%nat|done]. }
  eapply (reports_bind _ _ [] [_]); [apply reports_overwrite|]. intros _ _.
  eapply (reports_bind _ _ [] [_]); [apply reports_now|]. intros t _.
  eapply (reports_bind _ _ [] [_]); [apply reports_uncaught|]. intros _ _.
  eapply (reports_bind _ _ [_] []); [apply reports_took|]. intros _ _. apply reports_print.
Qed.

(** The gate's answer. *)
Definition gate_fails (p : plan) (acc : progress) : Prop :=
  gate args = true /\ exists b, p_baseline p = Some b /\ Exists (fun row => row_fails settings b row = true) (rows acc).
Definition gate_passes (p : plan) (acc : progress) : Prop :=
  gate args = true -> exists b, p_baseline p = Some b /\ Forall (fun row => row_fails settings b row = false) (rows acc).

Lemma reports_gate p acc :
  reports (gate_rows settings args p acc) []
    (fun code => (code = 0 /\ gate_passes p acc) \/ (code = 1 /\ gate_fails p acc)).
Proof.
  unfold gate_rows, gate_passes, gate_fails. destruct (gate args); [|by apply reports_ret; left].
  destruct (p_baseline p) as [b|].
  2: { eapply reports_false; [apply (reports_raise _ [])|by exists 0%nat|done]. }
  eapply (reports_bind _ _ [] []); [apply reports_print_all|]. intros _ _. apply reports_ret.
  destruct (existsb _ (rows acc)) eqn:E.
  { right. split_and!; [done..|]. exists b. split; [done|]. by eapply existsb_Exists; [|exact E]. }
  left. split; [done|]. intros _. exists b. split; [done|].
  rewrite Forall_forall. intros row Hrow. apply not_true_is_false. intros Ht.
  assert (existsb (row_fails settings b) (rows acc) = true); [|congruence].
  apply existsb_exists. exists row. by rewrite <- list_elem_of_In.
Qed.

Lemma table_nonempty acc l : table_lines args acc ++ l <> [].
Proof. done. Qed.

Definition finished (p : plan) (acc : progress) (code : Z) : Prop :=
  (code = 0 /\ missing_fixtures acc = [] /\ any_case_succeeded acc = true /\ gate_passes p acc) \/
  (code = 1 /\ (missing_fixtures acc <> [] \/ gate_fails p acc)).

Lemma report_spec p sha acc s :
  wp (finish settings args p sha acc)
    (fun code s' => out s' <> [] /\ err s' = err s /\ http_open s' = http_open s /\
       (exists k, steps s' = steps s ++ take k baseline_step) /\ finished p acc code)
    (fun x s' => http_open s' = http_open s /\ (exists k, steps s' = steps s ++ take k baseline_step) /\
       match x with
       | Exit c => c = 1 /\ out s' = out s /\ exists line, err s' = err s ++ [line]
       | Uncaught _ => err s' = err s
       end) s.
Proof.
  assert (H0 : exists k, steps s = steps s ++ take k baseline_step)
    by (exists 0%nat; by rewrite take_0, app_nil_r).
  unfold finish. destruct (missing_fixtures acc) as [|f missing] eqn:Em.
  2: { generalize (table_nonempty acc [missing_line (f :: missing)]).
    generalize (table_lines args acc ++ [missing_line (f :: missing)]) as lines. intros lines Hlines.
    apply wp_bind. unfold wp at 1. rewrite print_all_out. apply wp_ret. split_and!; try done.
    - cbn [out]. by intros [_ ?]%app_eq_nil.
    - right. by rewrite Em; split; [|left]. }
  destruct (any_case_succeeded acc) eqn:Ea; cbn [negb].
  2: { unfold wp, fail. split_and!; try done. by eexists. }
  match goal with |- context [table_lines args acc ++ ?l] =>
    generalize (table_nonempty acc l); generalize (table_lines args acc ++ l) as lines end.
  intros lines Hlines. apply wp_bind. unfold wp at 1. rewrite print_all_out. apply wp_bind.
  eapply wp_mono; [apply reports_baseline| |]; cbn [out err steps http_open].
  - intros _ s1 ([l Hl] & He & Hh & Hs & _). eapply wp_mono; [apply reports_gate| |]; cbv beta.
    + intros code s2 ([l' Hl'] & He' & Hh' & Hs' & Hc). rewrite app_nil_r in Hs'. split_and!; try congruence.
      * rewrite Hl', Hl. by intros [[[_ ?]%app_eq_nil _]%app_eq_nil _]%app_eq_nil.
      * exists (length baseline_step). by rewrite take_ge, Hs', Hs by done.
      * unfold finished. naive_solver.
    + intros x s2 (He' & Hh' & [e ->] & k & Hk). split_and!; try congruence.
      exists (length baseline_step). rewrite take_nil, app_nil_r in Hk. by rewrite take_ge, Hk, Hs by done.
  - intros x s1 (He & Hh & [e ->] & k & Hk). split_and!; try done. by exists k.
Qed.
(** ** The command *)

Lemma does_wp {A B} (m : cmd A) (f : A -> cmd B) b (P : A -> Prop) (Q : B -> cli W -> Prop) E s :
  does m b P -> (forall a s1, quiet b s s1 -> P a -> wp (f a) Q E s1) ->
  (forall x s1, halts b s x s1 -> E x s1) -> wp (m ≫= f) Q E s.
Proof. intros Hm Hf HE. apply wp_bind. eapply wp_mono; [apply Hm| |done]. naive_solver. Qed.

Lemma republish_spec s :
  wp republish (fun code s' => code = 0 /\ out s' = out s ++ [published_message 1] /\ err s' = err s /\
                  exists pv, steps s' = steps s ++ [Published pv])
    (halts [] s) s.
Proof.
  unfold republish. eapply (does_wp _ _ [] (fun _ => True)); [| |done].
  { apply does_guarded; [apply refuses_first; [auto|apply refuses_when]|done]. }
  intros published s1 (Ho1 & He1 & Hh1 & Hs1) _. rewrite app_nil_r in Hs1.
  assert (Hhalt : forall s2 x s3, quiet [] s1 s2 -> halts [] s2 x s3 -> halts [] s x s3).
  { intros s2 x s3 H2 H3. apply (halts_after [] [] s s1); [by split_and!; rewrite ?app_nil_r|].
    by apply (halts_after [] [] s1 s2). }
  eapply does_wp; [apply does_uncaught| |].
  2: { intros x s2. apply (Hhalt s1). by split_and!; rewrite ?app_nil_r. }
  intros line s2 H2 _. eapply (does_wp _ _ [] (fun _ => True)); [by apply does_guarded; [auto|]| |].
  2: { intros x s3. by apply Hhalt. }
  intros _ s3 (Ho3 & He3 & Hh3 & Hs3) _. destruct H2 as (Ho2 & He2 & Hh2 & Hs2).
  apply wp_bind. unfold took at 1, wp at 1. apply wp_bind. unfold print at 1, wp at 1. apply wp_ret.
  cbn [out err steps]. rewrite app_nil_r in Hs2, Hs3. split_and!; [done|congruence..|].
  eexists. by rewrite Hs3, Hs2, Hs1.
Qed.

Definition lasting : list step := flat_map block (prompt args) ++ baseline_step.

Lemma evaluate_spec w :
  wp (evaluate verdict_dump settings injected args JUDGE_SCORE_SCHEMA)
    (fun code s' => out s' <> [] /\ err s' = [] /\
       exists p acc k, checked settings injected args w p /\ ran_all p acc /\ finished p acc code /\
         steps s' = take k lasting)
    (fun x s' =>
       (steps s' = [] \/ exists p k, checked settings injected args w p /\ steps s' = take k lasting) /\
       match x with
       | Exit c => c = 1 /\ out s' = [] /\ exists line, err s' = [line]
       | Uncaught _ => err s' = []
       end) (Cli w [] [] [] true false).
Proof.
  unfold evaluate, lasting. apply wp_bind. eapply wp_mono; [apply prepare_spec| |].
  2: { intros x s' (Ho & Hs & _ & Hx). split; [by left|]. destruct x; naive_solver. }
  intros p s0 [-> Hck]. apply wp_bind. unfold sha_now at 1, wp at 1.
  eapply does_wp; [apply loop_spec| |].
  - intros acc s1 (Ho & He & Hh & Hs) Hran. eapply wp_mono; [apply report_spec| |]; cbn [out err steps] in *.
    + intros code s2 (Ho2 & He2 & _ & [k Hk] & Hfin). split_and!; [done|congruence|].
      exists p, acc, (length (flat_map block (prompt args)) + k)%nat. split_and!; [done..|].
      by rewrite take_app_add, Hk, Hs.
    + intros x s2 (_ & [k Hk] & Hx). rewrite He in Hx. rewrite Ho in Hx. split; [|by destruct x].
      right. exists p, (length (flat_map block (prompt args)) + k)%nat. split; [done|].
      by rewrite take_app_add, Hk, Hs.
  - intros x s1 H. apply (halts_later _ baseline_step) in H. destruct H as (Ho & _ & [k Hk] & Hx).
    cbn [out err steps app] in *. split; [by right; exists p, k|]. destruct x; naive_solver.
Qed.

(** What an exit code of zero stands for. *)
Definition clean (w : W) (p : plan) (runs : list (list CaseResult * (ResultRow * jobj))) : Prop :=
  Forall2 (prompt_row p) (prompt args) runs /\
  Exists (fun run => Exists (fun r => cr_error r = None) run.1) runs /\
  Forall (fun run => Forall (fun r => missing_fixture r = false) run.1) runs /\
  (gate args = true -> exists b, @load_baseline W baseline_file _ _ _ w = Ret b /\
     Forall (fun run => tripped (evaluate_gate (gate_settings settings) (rr_metrics run.2.1) b run.2.2) = []) runs).

(** What the report of a code of one stands for: a case whose fixture is missing or, under
    --gate, a row that trips a condition of the baseline. *)
Definition failed (w : W) (p : plan) (runs : list (list CaseResult * (ResultRow * jobj))) : Prop :=
  Forall2 (prompt_row p) (prompt args) runs /\
  (Exists (fun run => Exists (fun r => missing_fixture r = true) run.1) runs \/
   gate args = true /\ exists b, @load_baseline W baseline_file _ _ _ w = Ret b /\
     Exists (fun run => tripped (evaluate_gate (gate_settings settings) (rr_metrics run.2.1) b run.2.2) <> []) runs).

Lemma finished_clean w p acc code :
  checked settings injected args w p -> ran_all p acc -> finished p acc code ->
  exists runs, (code = 0 /\ clean w p runs) \/ (code = 1 /\ failed w p runs).
Proof.
  intros Hck (runs & Hrows & Hr & Ha & Hm) Hfin. exists runs.
  destruct Hfin as [(-> & Hmiss & Hany & Hgate)|[-> Hfail]]; [left|right]; (split; [done|]).
  - rewrite Hmiss in Hm. apply note_missing_none in Hm as [_ Hm]. split_and!; [done|..].
    + rewrite Ha in Hany. apply existsb_exists in Hany as (results & Hin & Hx).
      apply in_map_iff in Hin as (run & <- & Hin%list_elem_of_In). apply Exists_exists. exists run. split; [done|].
      eapply existsb_Exists; [|exact Hx]. cbv beta. by intros r ?%bool_decide_eq_true.
    + rewrite Forall_concat, Forall_map in Hm. exact Hm.
    + intros Hg. destruct (Hgate Hg) as (b & Hb & Hf). exists b. split; [by apply (ck_gate_baseline _ _ _ _ _ Hck)|].
      rewrite Hr, Forall_map in Hf. eapply Forall_impl; [exact Hf|]. unfold row_fails. intros run Hrun.
      by destruct (tripped _).
  - split; [done|]. destruct Hfail as [Hmiss|(Hg & b & Hb & Hf)]; [left|right].
    + apply (note_missing_some _ _ _ Hm) in Hmiss. rewrite Exists_concat, Exists_map in Hmiss. exact Hmiss.
    + split; [done|]. exists b. split; [by apply (ck_gate_baseline _ _ _ _ _ Hck)|].
      rewrite Hr, Exists_map in Hf. eapply Exists_impl; [exact Hf|]. unfold row_fails. cbv beta. intros run.
      by destruct (tripped _).
Qed.

(** *** The [finally] *)

(** An exception of the closing itself: the client's, or the engine's once the client is closed. *)
Definition closing_raised (e : exn) (s : cli W) : Prop :=
  (exists w w', aclose w = (Raise e, w')) \/ (http_open s = false /\ exists w w', dispose w = (Raise e, w')).

Lemma close_all_spec (s : cli W) :
  let '(o, s') := close_all s in
  out s' = out s /\ err s' = err s /\ steps s' = steps s /\
  match o with
  | Ret _ => http_open s' = false /\ engine_open s' = false
  | Raise e => closing_raised e s'
  end.
Proof.
  unfold close_all, closing_raised. destruct (aclose (world s)) as [[[]|e] w] eqn:Ea.
  - destruct (engine_open s) eqn:Ee; [|by split_and!].
    destruct (dispose w) as [[[]|e] w'] eqn:Ed; split_and!; try done. right. split; [done|]. by exists w, w'.
  - split_and!; try done. left. by exists (world s), w.
Qed.

#[local] Abbreviation run_all := (_run_all verdict_dump settings injected args JUDGE_SCORE_SCHEMA).

(** C33: price before spend, and evidence before claims: a case runs only once every check made
    before the loop has passed (every model the run may pay for has a price, the judge is
    configured and its prompt loads, the golden set parses and a v2 one is labelled throughout,
    the baseline is there) and the pipeline of its own prompt has been constructed; and however
    the command ends, the steps it took are a prefix of one order: per prompt the construction
    of its pipeline, the run, its artifact, its [eval_runs] row, its published row, and the
    baseline last.  So a second prompt that is unknown is refused only after the first one's
    cases ran.  The client and the engine are closed on every path, unless closing raises: the
    exception then escapes.  Republishing pays for nothing. *)
Theorem price_before_spend w :
  let '(o, s) := run_all w in
  ((http_open s = false /\ engine_open s = false) \/ exists e, o = Raise e /\ closing_raised e s) /\
  if from_artifact args then steps s = [] \/ exists pv, steps s = [Published pv]
  else steps s = [] \/
       exists p k, checked settings injected args w p /\
         steps s = take k (flat_map block (prompt args) ++ baseline_step).
Proof.
  unfold _run_all.
  assert (Hclose : forall (o : outcome stop Z) s (P : list step -> Prop), P (steps s) ->
    let '(o', s') := let '(closed, s') := close_all s in
       (_ ← closed; match o with Ret code | Raise (Exit code) => Ret code | Raise (Uncaught e) => Raise e end, s') in
    ((http_open s' = false /\ engine_open s' = false) \/ exists e, o' = Raise e /\ closing_raised e s') /\ P (steps s')).
  { intros o s P HP. pose proof (close_all_spec s) as H. destruct (close_all s) as [[[]|e] s'];
      destruct H as (_ & _ & -> & H); split; [by left|done|right; by exists e|done]. }
  destruct (from_artifact args).
  - pose proof (republish_spec (Cli w [] [] [] true false)) as H. unfold wp in H.
    destruct (republish _) as [x s]. apply (Hclose x s (fun l => l = [] \/ exists pv, l = [Published pv])).
    destruct x; [destruct H as (_ & _ & _ & [pv Hs]); right; by exists pv|].
    destruct H as (_ & _ & [k Hs] & _). left. by rewrite take_nil in Hs.
  - pose proof (evaluate_spec w) as H. unfold wp in H. destruct (evaluate _ _ _ _ _ _) as [x s].
    apply (Hclose x s (fun l => l = [] \/ exists p k, checked settings injected args w p /\
      l = take k (flat_map block (prompt args) ++ baseline_step))).
    destruct x; [destruct H as (_ & _ & p & acc & k & ? & _ & _ & ?); right; by exists p, k|by destruct H].
Qed.

(** C34: the exit code agrees with the output: [0] only with a report on stdout and nothing on stderr,
    and then (unless an artifact was republished, which runs nothing) every prompt was run over
    every case and scored, some case succeeded, no fixture was missing and, under --gate, no row
    trips a condition of the baseline; [1] either with one line on stderr and nothing on stdout,
    or with the report on stdout and nothing on stderr, and then every prompt was run and scored,
    and some case missed a fixture or, under --gate, some row trips a condition of the baseline;
    there is no other code.  An exception that escapes leaves stderr to its traceback, unless
    it is one of closing the client or the engine. *)
Theorem exit_code_honest w :
  let '(o, s) := run_all w in
  match o with
  | Ret code =>
      (code = 0 /\ err s = [] /\ out s <> [] /\
       (from_artifact args = false -> exists p runs, checked settings injected args w p /\ clean w p runs)) \/
      (code = 1 /\ out s = [] /\ exists line, err s = [line]) \/
      (code = 1 /\ out s <> [] /\ err s = [] /\ from_artifact args = false /\
       exists p runs, checked settings injected args w p /\ failed w p runs)
  | Raise e => err s = [] \/ closing_raised e s
  end.
Proof.
  unfold _run_all.
  pose proof (republish_spec (Cli w [] [] [] true false)) as Hr. pose proof (evaluate_spec w) as He. unfold wp in Hr, He.
  destruct ((if from_artifact args then republish else evaluate _ _ _ _ _) _) as [o s] eqn:E.
  pose proof (close_all_spec s) as Hc. destruct (close_all s) as [[[]|e] s'];
    destruct Hc as (Ho & Herr & _ & Hc); [|by right].
  cbn [mbind outcome_bind]. destruct (from_artifact args).
  - rewrite E in Hr. cbn [out err app] in Hr. destruct o as [code|[code|e]]; rewrite ?Ho, ?Herr.
    + destruct Hr as (-> & -> & -> & _). by left.
    + destruct Hr as (-> & _ & _ & -> & line & ->). right. left. split_and!; try done. by exists line.
    + destruct Hr as (_ & _ & _ & ->). by left.
  - rewrite E in He. destruct o as [code|[code|e]]; rewrite ?Ho, ?Herr.
    + destruct He as (Hout & Hnone & p & acc & k & Hck & Hran & Hfin & _).
      destruct (finished_clean w p acc code Hck Hran Hfin) as [runs [[-> Hcl]|[-> Hf]]].
      * left. split_and!; try done. intros _. by exists p, runs.
      * right. right. split_and!; try done. by exists p, runs.
    + destruct He as (_ & -> & -> & Hl). by right; left.
    + destruct He as (_ & ->). by left.
Qed.
End run.

(** ** Two prompts over one case *)

Module CommandToy.
(** The world counts the judge's calls, as in [EvalToy]. *)
#[export] Instance case_model : CaseModel := {
  case_coerce _ := Some {| cf_alert := g_alert (EvalToy.case (u "seen")); cf_severity := 3;
    cf_category := Verdict.category_str (Verdict.category Verdict.toy_verdict); cf_escalate := false; cf_note := u "a note of ten"; cf_tags := [];
    cf_labeled_by := Some (u "human"); cf_labeled_at := None |};
  row_error _ := u "bad row"
}.
Definition absent : TextFile Z := {| file_text _ := Raise OSError; write_file _ := mret tt |}.
#[export] Instance iso_dates : IsoDate := fun _ => None.
(** A world whose prompts are the [known] ones. *)
Definition world_of (known : list pystr) : EvalWorld Z := {|
  artifact_text _ := Raise OSError;
  golden_text _ := Ret (u "{}");
  results_file := absent;
  baseline_file := absent;
  baseline_exists _ := false;
  from_settings _ := Ret tt;
  build_registry _ _ := Ret tt;
  make_engine _ := Ret tt;
  make_pipeline pv _ := if bool_decide (pv ∈ known) then Ret tt else Raise (ConfigError (u "unknown prompt"));
  pipeline_run _ := eval_run (LC := EvalToy.llm) (RC := EvalToy.no_redis) (PI := EvalToy.py_ints)
    (FR := toy_float_repr) (SD := EvalToy.summaries) JNull EvalToy.self;
  judge_client := EvalToy.client;
  schedule _ := [0%nat];
  write_artifact _ _ := mret tt;
  insert_run_row _ pv _ _ _ := mret pv;
  aclose := mret tt;
  dispose := mret tt;
  git_sha _ := u "abc";
  utc_now w := (1709251199000001, w);
  exn_str _ := u "?"
|}.
Definition settings : EvalSettings :=
  {| cheap_model := u "m"; strong_model := u "s"; model_prices_json := [u "m"; u "s"];
     settings_judge_prompt := u "judge-v1"; gate_settings := GateToy.settings |}.
Definition args : EvalArgs :=
  {| golden := u "evals/v1.jsonl"; prompt := [u "a"; u "b"]; arg_model := None; arg_strong_model := None;
     arg_judge := None; arg_judge_model := None; arg_replay_strict := None; database_url := true;
     matrix := false; gate := false; baseline := u "b"; arg_write_baseline := false;
     force_baseline := false; publish := false; from_artifact := false |}.

Definition run_in (known : list pystr) : outcome exn Z * cli Z :=
  @_run_all Z (world_of known) BaselineToy.numerals EvalToy.loads iso_dates BaselineToy.iso toy_float_repr
    GateToy.decimals GateToy.texts case_model EvalToy.zone EvalToy.sha EvalToy.str_reprs
    EvalToy.prompts EvalToy.summaries (fun _ => JNull) settings false args JNull 0.
Definition run : outcome exn Z * cli Z := run_in [u "a"; u "b"].
(** A model the price table does not know. *)
Definition run_unpriced : outcome exn Z * cli Z :=
  @_run_all Z (world_of [u "a"; u "b"]) BaselineToy.numerals EvalToy.loads iso_dates BaselineToy.iso toy_float_repr
    GateToy.decimals GateToy.texts case_model EvalToy.zone EvalToy.sha EvalToy.str_reprs
    EvalToy.prompts EvalToy.summaries (fun _ => JNull)
    {| cheap_model := u "m"; strong_model := u "s"; model_prices_json := [u "m"];
       settings_judge_prompt := u "judge-v1"; gate_settings := GateToy.settings |} false args JNull 0.
End CommandToy.

Example both_prompts_run :
  CommandToy.run.1 = Ret 0 /\
  steps CommandToy.run.2 = [Built (u "a"); Ran (u "a"); Artifact (u "a"); RowWritten (u "a");
                            Built (u "b"); Ran (u "b"); Artifact (u "b"); RowWritten (u "b")].
Proof. vm_compute. by split. Qed.
(** The second prompt is unknown: the first one's cases have run by then. *)
Example unknown_prompt_refused_late :
  (CommandToy.run_in [u "a"]).1 = Ret 1 /\
  steps (CommandToy.run_in [u "a"]).2 = [Built (u "a"); Ran (u "a"); Artifact (u "a"); RowWritten (u "a")].
Proof. vm_compute. by split. Qed.
Example unpriced_runs_nothing :
  CommandToy.run_unpriced.1 = Ret 1 /\ steps CommandToy.run_unpriced.2 = [] /\
  err CommandToy.run_unpriced.2 = [u "error: config_error: model s has no entry in MODEL_PRICES_JSON"].
Proof. vm_compute. by split_and!. Qed.
